(* ===== verification/_CoqProject ===== *)
-Q . S2P
Prelude.v
Crc32.v
BlockList.v
BackedBlock.v
SparseFormat.v
Posix.v
OutputFile.v
Sparse.v
SparseRead.v
ImageSpec.v
WriteCorrect.v
ReadCorrect.v
Tools.v
RoundTrip.v
ResparseCorrect.v
Findings.v
HashCtx.v
Sha.v
CStrings.v
BootImg.v
BootImgCorrect.v
Words.v
Rsa.v
RsaCorrect.v
Hashmap.v
HashmapCorrect.v
Utf.v
UtfCorrect.v
Zip.v
ZipCorrect.v
Ext4Alloc.v
Ext4Bits.v
Ext4AllocCorrect.v
Ext4Extent.v
Ext4ExtentCorrect.v
Ext4InodeCorrect.v
Ext4Indirect.v
Ext4Contents.v
Ext4DirCorrect.v
Ext4ContentsCorrect.v
Ext4Xattr.v
Ext4Build.v
Ext4Tree.v
Ext4TreeCorrect.v
Ext4XattrCorrect.v
Ext4Sha1.v
Ext4Uuid.v
Ext4Params.v
Ext4Super.v
Ext4SuperCorrect.v
Ext4ParamsCorrect.v
Ext4ReservedCorrect.v
Ext4ResizeCorrect.v
Ext4Make.v
Ext4MakeCorrect.v
P256.v
P256Correct.v
P256Euclid.v
DsaSig.v
P256Field.v
P256FieldCorrect.v
P256MulCorrect.v
Primes.v
P256Mont.v
P256Point.v
P256PointCorrect.v
P256Schedule.v
P256MultCorrect.v
P256Ecdsa.v
P256EcdsaCorrect.v
FbUsb.v
FbProtocol.v
FbTransfer.v
FbSparse.v
