(* ===== verification/Prelude.v ===== *)
(** * Verification of the Android image tools of this repository

    ** The program

    The repository collects the host tools of the Android platform.  Its own
    core is under src/system/core; src/external holds vendored projects.  The
    parts modelled here:

    - libsparse: the sparse image library.  A sparse file (sparse.c) is a
      block size, a length and a sorted list of queued blocks
      (backed_block.c).  sparse_read.c fills it from a plain or a sparse
      image; output_file.c writes it as a plain or sparse image through a
      table of operations (descriptor, gzip stream, callback), with the
      checksum of sparse_crc32.c; [sparse_file_resparse] cuts it into pieces
      under a size limit.  img2simg, simg2img, append2simg and simg2simg are
      the commands on top of it.
    - mkbootimg and unpackbootimg: boot images, identified by a SHA-1.
    - libmincrypt: SHA-1, SHA-256, and the verification of RSA and ECDSA
      signatures.  p256.c computes with 256-bit integers, p256_ec.c with field
      elements of nine limbs and with points of the curve P-256, dsa_sig.c
      unpacks a signature; [p256_ecdsa_verify] puts them together.
    - libcutils: the hash map and the UTF-8/UTF-16 conversions.
    - libzipfile: reading ZIP archives from memory.
    - ext4_utils (src/system/extras): the ext4 image builder.  Its allocator
      hands out blocks and inodes of the block groups; extents and indirect
      blocks tie a file's blocks to its inode; contents.c makes directories,
      files, links and extended attributes of them, and make_ext4fs.c a copy
      of a directory of the host.  ext4_utils.c computes the geometry, writes
      the superblock (with a UUID from a SHA-1), its copies and the
      descriptors (with a CRC-16), and makes the journal and the resize inode;
      [make_ext4fs_internal] puts the parts together.  What goes into the
      image is queued with libsparse.

    ** The files

    Each C routine is one definition with the routine's name; its loops are
    separate recursive definitions.  A w-bit integer is a [Z] with the
    conversions [u32], [s32], ... where the C code converts or wraps.
    Undefined behaviour the code can run into is a value of [fault] in the
    type [outcome] ([let!] is its bind); error returns are ordinary results.

    - Prelude: integers, outcomes, byte slices, tactics ([zdec] decides
      comparisons by [lia]), the hint database [knife].
    - Crc32: sparse_crc32.c, against the bit-serial shift register.
    - BlockList: the decisions of backed_block.c (merge, split) and the sorted
      list as functions, with their invariant; BackedBlock: the same routines
      on linked nodes in a heap with explicit allocation, proved to refine the
      functions.
    - SparseFormat: sparse_format.h.  Posix: the system calls used (short
      reads, full devices).  OutputFile: output_file.c.  Sparse: sparse.c.
      SparseRead: sparse_read.c.  Tools: the four mains.
    - ImageSpec: the specification of libsparse: the image a sparse file
      denotes and the image a list of chunks denotes.
    - WriteCorrect, ReadCorrect, ResparseCorrect, RoundTrip: the library
      against that specification.  WriteCorrect is proved over the class
      [OutputBackend] of output streams, which the descriptor, the counting
      callback of [sparse_file_len] and the zlib stream instantiate.
    - Findings: concrete runs in which libsparse breaks its contract.
    - HashCtx, Sha: hash-internal.h, sha.c and sha256.c, against FIPS 180.
    - CStrings: the C library conversions the tools use.  BootImg,
      BootImgCorrect: mkbootimg.c, unpackbootimg.c, bootimg.h.
    - Rsa, RsaCorrect: rsa.c, against modular exponentiation and the
      PKCS #1 v1.5 encoding.
    - Words: values of word lists and congruences, shared by RSA and P-256.
    - P256, P256Correct, P256Euclid: p256.c and p256.h; carry chains, modular
      products, binary Euclid and the test of a point.  DsaSig: dsa_sig.c.
    - P256Field: the field elements of p256_ec.c on 32-bit limbs.
      P256FieldCorrect, P256MulCorrect: bounds and values of the limbs.
      Primes: Pocklington's criterion and certificates for the two primes of
      the curve.  P256Mont: field elements stand for residues ([repr]);
      products, inverses, the zero test and both conversions.
    - P256Point: the points of p256_ec.c, its table and the scalar
      multiplications.  P256PointCorrect: Jacobian coordinates against the
      law [ec_add] of the curve.  P256Schedule: the doublings and additions of
      the scalar multiplications over any structure of class [adder].
      P256MultCorrect: the code refines the schedules over the curve.
      P256Ecdsa, P256EcdsaCorrect: p256_ecdsa.c.
    - Hashmap, HashmapCorrect: hashmap.c, against stdpp's finite maps.  What
      the map expects of the caller's hash and equality is the class
      [KeyContract].
    - Utf, UtfCorrect: strdup16to8.c and strdup8to16.c.
    - Zip, ZipCorrect: centraldir.c, zipfile.c and private.h, against an
      encoder of the archive format.
    - Ext4Alloc: allocate.c, allocate.h and the geometry of ext4_utils.c.  The
      globals are a state record; regions are cells of a heap; a computation
      returns, jumps out ([error]) or faults.  Ext4Bits: the bitmap loops.
      Ext4AllocCorrect: the invariant of the groups and the theorems.
    - Ext4Extent: extent.c and ext4_extents.h.  Ext4ExtentCorrect: a reader of
      extent trees as the specification, and the theorems.
    - Ext4InodeCorrect: the invariant [image_ok] of an image under
      construction, and the inodes.  Ext4Indirect: indirect.c.
    - Ext4Contents: directories, files and links of contents.c.
      Ext4DirCorrect: directory blocks against the reader [parse_dir];
      Ext4ContentsCorrect: the routines of Ext4Contents on an image.
    - Ext4Xattr: the extended attributes of contents.c and xattr.h;
      Ext4XattrCorrect: against the reader [parse_attrs].
    - Ext4Build: the directory trees of make_ext4fs.c, with the host's
      [scandir], [lstat] and [readlink] as parameters.  Ext4Tree: the tree a
      host directory has ([host_tree]) and the tree an image has below an
      inode ([image_tree]), with what keeps the latter while objects are
      added.  Ext4TreeCorrect: the builder copies the first to the second.
    - Ext4Sha1: sha1.c of ext4_utils, against the same FIPS 180 as Sha.
      Ext4Uuid: crc16.c and uuid.c.
    - Ext4Params: the parameters of make_ext4fs.c, sizes and path names.
      Ext4Super: superblock, descriptors, journal and resize inode of
      ext4_utils.c and ext4_sb.c, as fields of byte buffers.  Ext4Make:
      [make_ext4fs_internal].
    - Ext4SuperCorrect, Ext4ParamsCorrect, Ext4ReservedCorrect and
      Ext4ResizeCorrect: each stage keeps what the earlier ones made;
      Ext4MakeCorrect: the image is [complete].

    ** What the theorems show

    - Round trips: img2simg followed by simg2img restores the image; a written
      sparse file is imported as the same image; a boot image is unpacked into
      the files it was made of; an archive is parsed into its members and a
      stored member extracted; UTF-16 text survives the way through UTF-8;
      the entries of an ext4 directory and the attributes of an inode are read
      back as they were written.
    - Refinement: the linked block list computes the functional list, under
      any allocator; writing and reading implement the denotation of
      ImageSpec; the pieces of resparse hold exactly the blocks of the input;
      the hash map is a finite map for every sequence of calls; the extents
      the ext4 builder leaves in an inode, read back, lead every byte of the
      file to the block it is queued for, and to blocks that were free; a
      directory of the host is copied into the image with its whole tree; and
      [make_ext4fs_internal] makes a complete image of it: superblock and
      copies parse back to the parameters, the free counts are those of the
      bitmaps, descriptors carry places, counts and checksums of the groups,
      the journal and the resize inode are in place.
      [p256_ecdsa_verify] decides the ECDSA equation with the points that its
      schedules compute over the curve.
    - Invariants: a new ext4 filesystem marks exactly its metadata and the
      blocks past its end as used, and allocation keeps bitmaps, counts and
      first free blocks in agreement; the first ten inodes are reserved, and
      every later inode number is handed out once.
    - Functional: CRC-32, CRC-16, SHA-1 (two of them), SHA-256, [modpow],
      [RSA_verify] and [generate_uuid] compute what their standards say, but
      for the byte order of the UUID; [sparse_file_len] predicts the written
      size; [p256_modmul], [felem_mul] and [felem_inv] are the operations of
      the field, and the formulas for points are its law of addition.
    - Equivalence: the schedules of the scalar multiplications compute the
      multiple named by the scalar wherever doubling and adding different
      multiples give multiples, and ask for nothing else.  That the points of
      the curve are such a structure, a group of order n, is not proved here:
      the theorems on scalar multiplication have the success of the schedule as a
      hypothesis, or say nothing of the point.  Of [kPrecomputed] it is proved that its entries are
      points of the curve, starting with the base point, and sums of the
      entries with one bit; not that these are the powers of two.
    - Termination: [p256_modinv_vartime] ends for every number prime to the
      modulus, and [p256_ecdsa_verify] for all arguments.
    - Bounds and safety: sizes of pieces, the load factor of the hash map, the
      lengths and buffers of the conversions, every node freed once, disjoint
      ext4 allocations.
    - Errors: a full device leaves no boot image; an ext4 allocation that does
      not fit jumps out or returns null; and the places where the
      code fails (a signature read past its end, points of the curve turned
      away, a dangling [last_used], a doubly freed file name, a null
      checksum pointer, loops that do not end, a look-up that accepts a
      prefix).

    ** Fuel

    Loops that are not structural carry fuel and end in [OutOfFuel] without
    it; the theorems show that the fuel the callers pass is enough.
    [read_all], the checksum loops, [fill_loop] and [callback_skip_loop] get
    the number of bytes left, which each round lowers.  [resparse_loop] takes
    its fuel as an argument: more than len / block_size rounds are enough
    whenever the limit admits a block, and no fuel is enough otherwise.  The
    list loops of BackedBlock get the number of nodes plus one, the padding
    loop of the hashes 64 bytes, [bucket_loop] 64 doublings of a 64-bit
    count, [strcpy8to16] the length of the memory, [eocd_search] the length
    of the searched window.  The loops of [reserve_blocks] get the number of
    blocks, [best_fit_loop] the length (every turn takes a block), and the
    walks over region lists the number of live regions plus one.  The loops of
    indirect.c get the number of blocks, the walks over attributes the length
    of their area, and [build_directory_structure] takes the depth of the tree
    as an argument: the depth that suffices for [host_tree] suffices for it.
    [SHA1Pad] gets 64 turns, [log_2] the 32 bits of its argument.
    [p256_modinv_vartime] takes its fuel as an argument: 1022 turns are enough,
    since every turn but the last of them shortens one of two 256-bit numbers
    or makes one even.  The zero test of a field element ends in two turns.

    ** Parameters

    zlib (the compressor of the gzip backend, [inflate] of zipfile.c), the
    allocator's answers, the caller's callbacks, hash and equality functions,
    and the directories of the host are arguments; witnesses instantiate them.

    ** Not modelled

    Messages on stderr, command line parsing of the image tools, [open],
    [close] and [rename], the Windows and O_LARGEFILE variants, the locks of
    the hash map, the memory of the [sparse_file] object itself; the
    running time of the P-256 code, which is to be constant in places; the wrappers of sockets, properties, threads and
    devices in libcutils, liblog, adb and fastboot, whose behaviour is that of
    the operating system; of ext4_utils the command, reading a superblock from
    a device, the block list file, wiping, ext4fixup, and f2fs_utils; and the
    vendored projects of src/external.  The theorems on directory trees and on
    whole images leave out the permission function and labels, which are
    modelled, and links of 60 bytes and more, whose block is not among the
    extents. *)

From stdpp Require Export base gmap list strings.
From coqutil Require LittleEndianList Byte.

#[global] Open Scope Z_scope.

(** ** Bytes and little-endian words *)

Abbreviation byte := Init.Byte.byte.
Abbreviation le_split := LittleEndianList.le_split.
Abbreviation le_combine := LittleEndianList.le_combine.
Abbreviation byte_to_Z := Byte.byte.unsigned.
Abbreviation byte_of_Z := Byte.byte.of_Z.

#[export] Instance byte_eq_dec : EqDecision byte := Byte.byte_eq_dec.

(** ** Machine integers: a w-bit integer is a [Z]; C conversions are explicit *)

Definition u8 (x : Z) : Z := x mod 2 ^ 8.
Definition u16 (x : Z) : Z := x mod 2 ^ 16.
Definition u32 (x : Z) : Z := x mod 2 ^ 32.
Definition u64 (x : Z) : Z := x mod 2 ^ 64.

(** Conversion to the signed types: two's complement reading of the low bits.
    [char] is signed on the hosts the tools are built for. *)
Definition s32 (x : Z) : Z :=
  let y := x mod 2 ^ 32 in if y <? 2 ^ 31 then y else y - 2 ^ 32.

Definition s8 (x : Z) : Z :=
  let y := x mod 2 ^ 8 in if y <? 2 ^ 7 then y else y - 2 ^ 8.
Definition s64 (x : Z) : Z :=
  let y := x mod 2 ^ 64 in if y <? 2 ^ 63 then y else y - 2 ^ 64.

Definition is_u32 (x : Z) : Prop := 0 <= x < 2 ^ 32.
Definition is_u16 (x : Z) : Prop := 0 <= x < 2 ^ 16.

(** ** Outcomes: a value, or the undefined behaviour the C code runs into *)

Inductive fault :=
  | NullDeref | UseAfterFree | DoubleFree | AssertFail | DivByZero | BusError
  | UninitRead | BufferOverflow | OutOfBounds | BadShift | OutOfFuel.

Inductive outcome (A : Type) :=
  | Done (a : A)
  | Crash (f : fault).
Arguments Done {A} a.
Arguments Crash {A} f.

#[export] Instance fault_eq_dec : EqDecision fault.
Proof. solve_decision. Defined.

Definition obind {A B} (m : outcome A) (k : A -> outcome B) : outcome B :=
  match m with Done a => k a | Crash f => Crash f end.

Create HintDb knife.

Declare Scope knife_scope.
Delimit Scope knife_scope with knife.
Notation "'let!' x ':=' m 'in' k" := (obind m (fun x => k))
  (at level 10, x pattern, m at level 100, k at level 200)
  : knife_scope.
#[global] Open Scope knife_scope.

Lemma obind_Done {A B} (m : outcome A) (k : A -> outcome B) b :
  obind m k = Done b <-> exists a, m = Done a /\ k a = Done b.
Proof. destruct m; simpl; [naive_solver|]. split; [discriminate|]. by intros (? & ? & _). Qed.

(** Invert every successful bind in the context. *)
Ltac inv_done :=
  repeat match goal with
  | H : obind _ _ = Done _ |- _ =>
      let a := fresh "a" in let Ha := fresh "Ha" in
      apply obind_Done in H as (a & Ha & H)
  | H : Done _ = Done _ |- _ => injection H as H; try subst
  | H : Crash _ = Done _ |- _ => discriminate H
  | p : (_ * _)%type |- _ => destruct p
  end.

(** Case analysis on the boolean integer comparisons of the code. *)
Ltac zcases :=
  repeat match goal with
  | |- context [?a <? ?b] => destruct (Z.ltb_spec a b)
  | |- context [?a <=? ?b] => destruct (Z.leb_spec a b)
  | |- context [?a =? ?b] => destruct (Z.eqb_spec a b)
  | |- context [?a >? ?b] => rewrite (Z.gtb_ltb a b)
  | |- context [?a >=? ?b] => rewrite (Z.geb_leb a b)
  end.

(** [zdec] decides one comparison of the goal whose truth [lia] knows. *)
Ltac zdec :=
  repeat match goal with
  | |- context [?a <? ?b] =>
      first [ rewrite (proj2 (Z.ltb_lt a b)) by lia
            | rewrite (proj2 (Z.ltb_ge a b)) by lia ]
  | |- context [?a <=? ?b] =>
      first [ rewrite (proj2 (Z.leb_le a b)) by lia
            | rewrite (proj2 (Z.leb_gt a b)) by lia ]
  | |- context [?a =? ?b] =>
      first [ rewrite (proj2 (Z.eqb_eq a b)) by lia
            | rewrite (proj2 (Z.eqb_neq a b)) by lia ]
  end.

(** Decide a closed goal by evaluation. *)
Ltac concrete :=
  vm_compute;
  repeat match goal with
  | |- _ /\ _ => split
  | |- _ \/ _ => first [left; solve [intuition congruence] | right; solve [intuition congruence]]
  end; intuition congruence.

(** ** Arithmetic of blocks *)

Definition DIV_ROUND_UP (x y : Z) : Z := (x + y - 1) / y.
Definition ALIGN (x y : Z) : Z := y * DIV_ROUND_UP x y.
Definition ALIGN_DOWN (x y : Z) : Z := y * (x / y).

Lemma DIV_ROUND_UP_bounds x y :
  0 < y -> y * DIV_ROUND_UP x y - y < x <= y * DIV_ROUND_UP x y.
Proof. intros Hy. unfold DIV_ROUND_UP. pose proof (Z.div_mod (x + y - 1) y). pose proof (Z.mod_pos_bound (x + y - 1) y). lia. Qed.

Lemma DIV_ROUND_UP_unique x y q :
  0 < y -> y * q - y < x <= y * q -> DIV_ROUND_UP x y = q.
Proof. intros Hy Hq. pose proof (DIV_ROUND_UP_bounds x y Hy). nia. Qed.

Lemma DIV_ROUND_UP_mul q y : 0 < y -> DIV_ROUND_UP (y * q) y = q.
Proof. intros. apply DIV_ROUND_UP_unique; lia. Qed.

Lemma DIV_ROUND_UP_add_mul x q y :
  0 < y -> DIV_ROUND_UP (y * q + x) y = q + DIV_ROUND_UP x y.
Proof.
  intros Hy. apply DIV_ROUND_UP_unique; [done|].
  pose proof (DIV_ROUND_UP_bounds x y Hy). nia.
Qed.

Lemma DIV_ROUND_UP_pos x y : 0 < y -> 0 < x -> 0 < DIV_ROUND_UP x y.
Proof. intros Hy Hx. pose proof (DIV_ROUND_UP_bounds x y Hy). nia. Qed.

Lemma DIV_ROUND_UP_nonneg x y : 0 < y -> 0 <= x -> 0 <= DIV_ROUND_UP x y.
Proof. intros Hy Hx. pose proof (DIV_ROUND_UP_bounds x y Hy). nia. Qed.

Lemma u64_small x : 0 <= x < 2 ^ 64 -> u64 x = x.
Proof. apply Z.mod_small. Qed.
Lemma u32_small x : is_u32 x -> u32 x = x.
Proof. apply Z.mod_small. Qed.

Lemma u32_range x : is_u32 (u32 x).
Proof. apply Z.mod_pos_bound. lia. Qed.

Lemma u32_s32 x : is_u32 x -> u32 (s32 x) = x.
Proof.
  intros H. unfold s32, u32, is_u32 in *. rewrite (Z.mod_small x) by lia. destruct (Z.ltb_spec x (2 ^ 31)); [apply Z.mod_small; lia|].
  symmetry. apply (Zmod_unique _ _ (-1)); lia.
Qed.

Lemma s32_small x : 0 <= x < 2 ^ 31 -> s32 x = x.
Proof. intros H. unfold s32. rewrite Z.mod_small by lia. by zdec. Qed.

(** Or-ing in bits below a multiple of a power of two is adding them. *)
Lemma lor_low x y n : 0 <= n -> 0 <= y < 2 ^ n -> Z.lor (2 ^ n * x) y = 2 ^ n * x + y.
Proof.
  intros Hn Hy. rewrite <- Z.add_nocarry_lor; [done|]. apply Z.bits_inj'. intros j Hj.
  rewrite Z.land_spec, Z.bits_0, Z.mul_comm. destruct (Z.lt_ge_cases j n).
  - by rewrite Z.mul_pow2_bits_low by lia.
  - rewrite <- (Z.mod_small y (2 ^ n)), Z.mod_pow2_bits_high by lia. apply andb_false_r.
Qed.

(** A decidable fact about all byte values is checked by evaluation. *)
Lemma by_bytes (P : Z -> bool) : forallb P (seqZ 0 256) = true -> forall v, 0 <= v < 2 ^ 8 -> P v = true.
Proof. intros H v Hv. rewrite forallb_forall in H. apply H. apply list_elem_of_In, elem_of_seqZ. lia. Qed.

#[export] Hint Resolve u32_range DIV_ROUND_UP_pos DIV_ROUND_UP_nonneg : knife.

(** ** Byte buffers *)

Definition blen {A} (l : list A) : Z := Z.of_nat (length l).
Definition zeros (n : Z) : list byte := replicate (Z.to_nat n) Init.Byte.x00.
Definition slice {A} (off len : Z) (l : list A) : list A :=
  take (Z.to_nat len) (drop (Z.to_nat off) l).

(** Overwrite at a position, filling a gap with zeros. *)
Definition write_at (d : list byte) (pos : Z) (b : list byte) : list byte :=
  take (Z.to_nat pos) (d ++ zeros (pos - blen d)) ++ b ++ drop (Z.to_nat (pos + blen b)) d.

Lemma blen_app {A} (a b : list A) : blen (a ++ b) = blen a + blen b.
Proof. unfold blen. rewrite length_app. lia. Qed.

Lemma blen_nonneg {A} (a : list A) : 0 <= blen a.
Proof. unfold blen. lia. Qed.

Lemma blen_zeros n : 0 <= n -> blen (zeros n) = n.
Proof. intros. unfold blen, zeros. rewrite length_replicate. lia. Qed.

Lemma zeros_nil n : n <= 0 -> zeros n = [].
Proof. intros. unfold zeros. replace (Z.to_nat n) with 0%nat by lia. done. Qed.

Lemma zeros_add a b : 0 <= a -> 0 <= b -> zeros (a + b) = zeros a ++ zeros b.
Proof. intros. unfold zeros. rewrite <- replicate_add. f_equal. lia. Qed.

Lemma blen_slice {A} off len (l : list A) :
  0 <= off -> 0 <= len -> off + len <= blen l -> blen (slice off len l) = len.
Proof. unfold blen, slice. intros. rewrite length_take, length_drop. lia. Qed.

Lemma slice_app_r {A} off len (a b : list A) :
  blen a <= off -> slice off len (a ++ b) = slice (off - blen a) len b.
Proof. unfold slice, blen. intros. rewrite drop_app_ge by lia. do 2 f_equal. lia. Qed.

Lemma slice_app_l {A} off len (a b : list A) :
  0 <= off -> 0 <= len -> off + len <= blen a -> slice off len (a ++ b) = slice off len a.
Proof.
  unfold slice, blen. intros. rewrite drop_app_le by lia. rewrite take_app_le; [done|].
  rewrite length_drop. lia.
Qed.

Lemma slice_0 {A} len (l : list A) : slice 0 len l = take (Z.to_nat len) l.
Proof. unfold slice. by rewrite drop_0. Qed.

Lemma slice_all {A} (l : list A) : slice 0 (blen l) l = l.
Proof. rewrite slice_0. unfold blen. rewrite Nat2Z.id. apply firstn_all. Qed.

Lemma slice_here {A} off (a b c : list A) :
  off = blen a -> slice off (blen b) (a ++ b ++ c) = b.
Proof.
  intros ->. rewrite slice_app_r by lia. rewrite Z.sub_diag.
  pose proof (blen_nonneg b). rewrite slice_app_l by lia. apply slice_all.
Qed.

Lemma slice_slice {A} o1 l1 o2 l2 (l : list A) :
  0 <= o1 -> 0 <= o2 -> 0 <= l2 -> o2 + l2 <= l1 ->
  slice o2 l2 (slice o1 l1 l) = slice (o1 + o2) l2 l.
Proof.
  intros. unfold slice. rewrite skipn_firstn_comm, take_take, drop_drop. f_equal; [lia|].
  f_equal. lia.
Qed.

Lemma slice_add {A} off a b (l : list A) :
  0 <= off -> 0 <= a -> 0 <= b -> slice off (a + b) l = slice off a l ++ slice (off + a) b l.
Proof.
  intros. unfold slice. rewrite !Z2Nat.inj_add by lia. rewrite <- drop_drop.
  by rewrite take_take_drop.
Qed.

Lemma slice_zero_len {A} off (l : list A) : slice off 0 l = [].
Proof. unfold slice. by rewrite take_0. Qed.

(** Appending at the end of what is there. *)
Lemma write_at_end d b : write_at d (blen d) b = d ++ b.
Proof.
  unfold write_at. rewrite Z.sub_diag, zeros_nil, app_nil_r by lia.
  pose proof (blen_nonneg b). unfold blen in *. rewrite Nat2Z.id, firstn_all, drop_ge by lia.
  by rewrite app_nil_r.
Qed.

Lemma write_at_gap d n b : 0 <= n -> write_at d (blen d + n) b = d ++ zeros n ++ b.
Proof.
  intros. unfold write_at. replace (blen d + n - blen d) with n by lia.
  pose proof (blen_nonneg d). pose proof (blen_nonneg b). rewrite drop_ge by (unfold blen in *; lia).
  rewrite app_nil_r, firstn_all2, app_assoc; [done|].
  unfold zeros. rewrite length_app, length_replicate. unfold blen. lia.
Qed.

#[export] Hint Resolve blen_nonneg : knife.
