(* ===== verification/BlockList.v ===== *)
(** * Queued blocks as a functional list (backed_block.c, the data and the decisions)

    The blocks of a sparse file are kept sorted by block number.  This file has
    the block record of backed_block.c, the pure decisions its routines take
    (may two blocks merge, how is a block split) and the list they maintain.
    BackedBlock.v runs the same decisions on linked nodes in a heap and proves
    that the pointer code computes the functions of this file.

    The abstract contract is a partial map from block numbers to what that
    block holds, [view]: queueing a block adds its blocks to the map and
    changes nothing else; merging, splitting and moving never change it. *)
From S2P Require Import Prelude.

(** Addresses of heap cells (nodes and duplicated file names). *)
Abbreviation loc := positive.

(** [enum backed_block_type] with the union of the struct: [BLOCK_FILE] holds
    the address of the strdup'ed name. *)
Inductive payload :=
  | BLOCK_DATA (data : list byte)
  | BLOCK_FILE (filename : loc) (offset : Z)
  | BLOCK_FD (fd : Z) (offset : Z)
  | BLOCK_FILL (val : Z).

(** [struct backed_block] without its [next] link. *)
Record backed_block := mk_bb {
  bb_block : Z;
  bb_len : Z;
  bb_payload : payload
}.

#[export] Instance payload_eq_dec : EqDecision payload.
Proof. solve_decision. Defined.
#[export] Instance backed_block_eq_dec : EqDecision backed_block.
Proof. solve_decision. Defined.

Inductive backed_block_type :=
  BACKED_BLOCK_DATA | BACKED_BLOCK_FILE | BACKED_BLOCK_FD | BACKED_BLOCK_FILL.
#[export] Instance backed_block_type_eq_dec : EqDecision backed_block_type.
Proof. solve_decision. Defined.

Definition bb_type (bb : backed_block) : backed_block_type :=
  match bb_payload bb with
  | BLOCK_DATA _ => BACKED_BLOCK_DATA
  | BLOCK_FILE _ _ => BACKED_BLOCK_FILE
  | BLOCK_FD _ _ => BACKED_BLOCK_FD
  | BLOCK_FILL _ => BACKED_BLOCK_FILL
  end.

(** The tests of [merge_bb] on two existing blocks, and the merged block. *)
Definition merge_payload (la : Z) (a b : payload) : bool :=
  match a, b with
  | BLOCK_DATA _, _ => false (* Don't support merging data for now *)
  | BLOCK_FILL va, BLOCK_FILL vb => va =? vb
  | BLOCK_FILE fa oa, BLOCK_FILE fb ob => bool_decide (fa = fb) && (oa + la =? ob)
  | BLOCK_FD fa oa, BLOCK_FD fb ob => (fa =? fb) && (oa + la =? ob)
  | _, _ => false
  end.

Definition try_merge (block_size : Z) (a b : backed_block) : outcome (option backed_block) :=
  if negb (bb_block a <? bb_block b) then Crash AssertFail
  else if bool_decide (bb_type a <> bb_type b) then Done None
  else if block_size =? 0 then Crash DivByZero
  else if negb (u32 (bb_block a + bb_len a / block_size) =? bb_block b) then Done None
  else if negb (merge_payload (bb_len a) (bb_payload a) (bb_payload b)) then Done None
  else Done (Some (mk_bb (bb_block a) (u32 (bb_len a + bb_len b)) (bb_payload a))).

(** What the union of a block holds [o] bytes further on. *)
Definition payload_shift (p : payload) (o : Z) : payload :=
  match p with
  | BLOCK_DATA d => BLOCK_DATA (drop (Z.to_nat o) d)
  | BLOCK_FILE f off => BLOCK_FILE f (off + o)
  | BLOCK_FD fd off => BLOCK_FD fd (off + o)
  | BLOCK_FILL v => BLOCK_FILL v
  end.

(** [backed_block_split]: [None] when the block already fits. *)
Definition try_split (block_size : Z) (bb : backed_block) (max_len : Z)
    : outcome (option (backed_block * backed_block)) :=
  if block_size =? 0 then Crash DivByZero
  else
    let max_len := u32 (ALIGN_DOWN max_len block_size) in
    if bb_len bb <=? max_len then Done None
    else Done (Some
      (mk_bb (bb_block bb) max_len (bb_payload bb),
       mk_bb (u32 (bb_block bb + max_len / block_size)) (u32 (bb_len bb - max_len))
             (payload_shift (bb_payload bb) max_len))).

(** ** Queueing *)

(** Link [new] between [bb] and [tl], then [merge_bb(new, next)] and
    [merge_bb(bb, new)]. *)
Definition merge_next (bs : Z) (new : backed_block) (tl : list backed_block)
    : outcome (backed_block * list backed_block) :=
  match tl with
  | [] => Done (new, [])
  | nx :: t =>
      let! m := try_merge bs new nx in
      Done (match m with Some ab => (ab, t) | None => (new, tl) end)
  end.

Definition link_merge (bs : Z) (bb new : backed_block) (tl : list backed_block)
    : outcome (list backed_block) :=
  let! (new', tl') := merge_next bs new tl in
  let! m := try_merge bs bb new' in
  Done (match m with Some ab => ab :: tl' | None => bb :: new' :: tl' end).

(** The search loop: the first node whose successor is not below [new]. *)
Fixpoint queue_from (bs : Z) (new bb : backed_block) (tl : list backed_block)
    : outcome (list backed_block) :=
  match tl with
  | nx :: tl' =>
      if bb_block nx <? bb_block new
      then let! r := queue_from bs new nx tl' in Done (bb :: r)
      else link_merge bs bb new tl
  | [] => link_merge bs bb new []
  end.

Definition queue (bs : Z) (l : list backed_block) (new : backed_block)
    : outcome (list backed_block) :=
  match l with
  | [] => Done [new]
  | hd :: tl => if bb_block new <? bb_block hd then Done (new :: l) else queue_from bs new hd tl
  end.

(** Linking the segment [s] into a list ([backed_block_list_move]): never before
    the head of a list that is not empty. *)
Fixpoint move_blocks (s l : list backed_block) : list backed_block :=
  match l with
  | [] => s
  | b :: t =>
      match t with
      | [] => b :: s
      | nx :: _ =>
          match s with
          | [] => l
          | s0 :: _ => if bb_block s0 <? bb_block nx then b :: s ++ t else b :: move_blocks s t
          end
      end
  end.

(** ** The contract: a partial map from block numbers to contents *)

Definition bb_blocks (bs : Z) (bb : backed_block) : Z := DIV_ROUND_UP (bb_len bb) bs.
Definition bb_end (bs : Z) (bb : backed_block) : Z := bb_block bb + bb_blocks bs bb.

Definition covers (bs : Z) (bb : backed_block) (k : Z) : bool :=
  (bb_block bb <=? k) && (k <? bb_end bs bb).

(** The content of block [k] of [bb]: where it starts and how many bytes. *)
Definition src_at (bs : Z) (bb : backed_block) (k : Z) : payload * Z :=
  let o := (k - bb_block bb) * bs in
  (payload_shift (bb_payload bb) o, Z.min bs (bb_len bb - o)).

Fixpoint view (bs : Z) (l : list backed_block) (k : Z) : option (payload * Z) :=
  match l with
  | [] => None
  | bb :: tl => if covers bs bb k then Some (src_at bs bb k) else view bs tl k
  end.

Definition wf_bb (bs : Z) (bb : backed_block) : Prop :=
  0 <= bb_block bb /\ 0 < bb_len bb < 2 ^ 32 /\ bb_end bs bb < 2 ^ 32.

(** Sorted, disjoint and in range, starting at or after block [lo]. *)
Fixpoint wf_from (bs lo : Z) (l : list backed_block) : Prop :=
  match l with
  | [] => True
  | bb :: tl => lo <= bb_block bb /\ wf_bb bs bb /\ wf_from bs (bb_end bs bb) tl
  end.

Definition total_len (l : list backed_block) : Z := foldr (fun bb n => bb_len bb + n) 0 l.

(** No block number of [bb] is in use. *)
Definition disjoint_from (bs : Z) (bb : backed_block) (l : list backed_block) : Prop :=
  Forall (fun c => bb_end bs bb <= bb_block c \/ bb_end bs c <= bb_block bb) l.

(** ** Lemmas *)

Section Lemmas.
Context (bs : Z) (Hbs : 0 < bs).

Lemma bb_blocks_pos bb : wf_bb bs bb -> 0 < bb_blocks bs bb.
Proof using Hbs. intros (_ & ? & _). apply DIV_ROUND_UP_pos; lia. Qed.

Lemma wf_from_weaken lo lo' l : lo' <= lo -> wf_from bs lo l -> wf_from bs lo' l.
Proof using. destruct l; simpl; [done|]. intros ? (? & ? & ?). split_and!; [lia|done..]. Qed.

Lemma payload_shift_shift p o o' :
  0 <= o -> 0 <= o' -> payload_shift (payload_shift p o) o' = payload_shift p (o + o').
Proof using.
  intros. destruct p; simpl; f_equal; [|lia..].
  rewrite drop_drop. f_equal. lia.
Qed.

Lemma view_below lo l k : wf_from bs lo l -> k < lo -> view bs l k = None.
Proof using Hbs.
  revert lo. induction l as [|bb tl IH]; intros lo; simpl; [done|].
  intros (? & Hwf & Htl) Hk. unfold covers. zdec. simpl.
  apply (IH _ Htl). pose proof (bb_blocks_pos bb Hwf). unfold bb_end. lia.
Qed.

(** Merging two neighbours keeps the map, as long as the sum of the lengths
    fits the 32-bit length field. *)
Lemma try_merge_spec a b :
  wf_bb bs a -> wf_bb bs b -> bb_end bs a <= bb_block b ->
  bb_len a + bb_len b < 2 ^ 32 ->
  exists m, try_merge bs a b = Done m /\
    forall ab, m = Some ab ->
      bb_block ab = bb_block a /\ bb_len ab = bb_len a + bb_len b /\
      bb_end bs ab = bb_end bs b /\ wf_bb bs ab /\
      forall k, (if covers bs ab k then Some (src_at bs ab k) else None) =
                (if covers bs a k then Some (src_at bs a k)
                 else if covers bs b k then Some (src_at bs b k) else None).
Proof using Hbs.
  intros Ha Hb Hab Hlen. pose proof (bb_blocks_pos a Ha) as Hpa.
  pose proof (bb_blocks_pos b Hb) as Hpb.
  unfold try_merge. unfold bb_end in *. zdec. simpl.
  case_bool_decide; [eexists; naive_solver|].
  zdec. case_eq (u32 (bb_block a + bb_len a / bs) =? bb_block b); intros Hadj; simpl;
    [|eexists; naive_solver].
  case_eq (merge_payload (bb_len a) (bb_payload a) (bb_payload b)); intros Hmp; simpl;
    [|eexists; naive_solver].
  eexists; split; [reflexivity|]. intros ? [= <-]. simpl.
  destruct Ha as (Ha0 & Hal & Hae), Hb as (Hb0 & Hbl & Hbe).
  unfold bb_end, bb_blocks in *; simpl in *.
  rewrite (u32_small (bb_len a + bb_len b)) by (unfold is_u32; lia).
  pose proof (DIV_ROUND_UP_bounds (bb_len a) bs Hbs) as Hda.
  pose proof (Z.div_mod (bb_len a) bs ltac:(lia)) as Hdm.
  pose proof (Z.mod_pos_bound (bb_len a) bs Hbs) as Hmm.
  assert (Hfl : bb_len a / bs <= DIV_ROUND_UP (bb_len a) bs) by nia.
  assert (Hfl0 : 0 <= bb_len a / bs) by (apply Z.div_pos; lia).
  rewrite u32_small in Hadj by (unfold is_u32; lia). apply Z.eqb_eq in Hadj.
  assert (Hq : DIV_ROUND_UP (bb_len a) bs = bb_len a / bs) by lia.
  set (q := bb_len a / bs) in *.
  assert (Hla : bb_len a = bs * q) by nia.
  assert (Hsum : DIV_ROUND_UP (bb_len a + bb_len b) bs = q + DIV_ROUND_UP (bb_len b) bs)
    by (rewrite Hla; apply DIV_ROUND_UP_add_mul; lia).
  split_and!; [done|done|lia|unfold wf_bb, bb_end, bb_blocks; simpl; rewrite Hsum; lia|].
  intros k. unfold covers, bb_end, bb_blocks; simpl. rewrite Hsum, Hq.
  unfold src_at; simpl.
  destruct (Z.leb_spec (bb_block a) k); simpl; [|zcases; simpl; [lia|done..]].
  destruct (Z.ltb_spec k (bb_block a + q)); simpl.
  - zdec. do 2 f_equal. nia.
  - zdec. simpl. replace (bb_block a + (q + DIV_ROUND_UP (bb_len b) bs))
      with (bb_block b + DIV_ROUND_UP (bb_len b) bs) by lia.
    destruct (k <? bb_block b + DIV_ROUND_UP (bb_len b) bs); [|done].
    do 2 f_equal; [|nia].
    destruct (bb_payload a), (bb_payload b); simpl in *; try done.
    + apply andb_true_iff in Hmp as [Hx%bool_decide_eq_true Hy%Z.eqb_eq]. subst. f_equal; nia.
    + apply andb_true_iff in Hmp as [Hx%Z.eqb_eq Hy%Z.eqb_eq]. subst. f_equal; nia.
    + f_equal. by apply Z.eqb_eq in Hmp.
Qed.

Lemma total_len_nonneg lo l : wf_from bs lo l -> 0 <= total_len l.
Proof using.
  revert lo. induction l as [|bb tl IH]; intros lo; simpl; [lia|].
  intros (_ & (_ & ? & _) & Htl). specialize (IH _ Htl). lia.
Qed.

Lemma merge_next_spec new tl :
  wf_bb bs new -> wf_from bs (bb_end bs new) tl -> bb_len new + total_len tl < 2 ^ 32 ->
  exists new' tl', merge_next bs new tl = Done (new', tl') /\
    bb_block new' = bb_block new /\ wf_bb bs new' /\ wf_from bs (bb_end bs new') tl' /\
    bb_len new' + total_len tl' = bb_len new + total_len tl /\
    forall k, view bs (new' :: tl') k = view bs (new :: tl) k.
Proof using Hbs.
  intros Hnew Htl Hlen. destruct tl as [|nx t]; simpl; [by eexists _, _|].
  destruct Htl as (Hle & Hnx & Ht). simpl in Hlen.
  pose proof (total_len_nonneg _ _ Ht).
  destruct (try_merge_spec new nx) as (m & -> & Hm); [done..|lia|]. simpl.
  destruct m as [ab|]; [|by eexists _, _].
  destruct (Hm ab eq_refl) as (Hb & Hl & He & Hwf & Hv).
  exists ab, t. split_and!; [done|done|done|by rewrite He|lia|].
  intros k. specialize (Hv k). destruct (covers bs ab k).
  all: destruct (covers bs new k); [congruence|]; destruct (covers bs nx k); congruence.
Qed.

Lemma link_merge_spec lo bb new tl :
  wf_from bs lo (bb :: new :: tl) -> total_len (bb :: new :: tl) < 2 ^ 32 ->
  exists l', link_merge bs bb new tl = Done l' /\ wf_from bs lo l' /\
    total_len l' = total_len (bb :: new :: tl) /\
    forall k, view bs l' k = view bs (bb :: new :: tl) k.
Proof using Hbs.
  simpl. intros (Hlo & Hbb & Hle & Hnew & Htl) Hlen.
  assert (0 < bb_len bb) by apply Hbb.
  destruct (merge_next_spec new tl) as (new' & tl' & Hmn & Hb' & Hwf' & Htl' & Hlen' & Hv');
    [done|done|lia|].
  pose proof (total_len_nonneg _ _ Htl').
  destruct (try_merge_spec bb new') as (m & Hm & Hmm); [done|done|lia|lia|].
  unfold link_merge. rewrite Hmn. simpl. rewrite Hm. simpl.
  destruct m as [ab|].
  - destruct (Hmm ab eq_refl) as (Hb & Hl & He & Hwf & Hv).
    eexists. split; [done|]. simpl. split_and!; [lia|done|by rewrite He|lia|].
    intros k. specialize (Hv' k). specialize (Hv k). simpl in Hv'.
    destruct (covers bs ab k), (covers bs bb k), (covers bs new' k); congruence.
  - eexists. split; [done|]. simpl. split_and!; [lia|done|lia|done|done|lia|].
    intros k. destruct (covers bs bb k); [done|]. apply Hv'.
Qed.

Lemma covers_disjoint a b k :
  bb_end bs a <= bb_block b \/ bb_end bs b <= bb_block a ->
  covers bs a k = true -> covers bs b k = false.
Proof using. unfold covers. intros ? ?%andb_true_iff. zcases; simpl; done || lia. Qed.

Lemma view_insert a new tl k :
  bb_end bs a <= bb_block new ->
  view bs (a :: new :: tl) k =
    if covers bs new k then Some (src_at bs new k) else view bs (a :: tl) k.
Proof using.
  intros Hle. simpl. destruct (covers bs a k) eqn:Ha, (covers bs new k) eqn:Hn; try done.
  apply (covers_disjoint a new) in Ha; [congruence|auto].
Qed.

Lemma queue_from_spec lo bb new tl :
  wf_from bs lo (bb :: tl) -> wf_bb bs new -> bb_end bs bb <= bb_block new ->
  disjoint_from bs new tl -> total_len (bb :: tl) + bb_len new < 2 ^ 32 ->
  exists l', queue_from bs new bb tl = Done l' /\ wf_from bs lo l' /\
    total_len l' = total_len (bb :: tl) + bb_len new /\
    forall k, view bs l' k =
      if covers bs new k then Some (src_at bs new k) else view bs (bb :: tl) k.
Proof using Hbs.
  revert lo bb. induction tl as [|nx tl IH]; intros lo bb Hwf Hnew Hle Hdis Hlen; simpl.
  - destruct (link_merge_spec lo bb new []) as (l' & -> & Hw & Hl & Hv).
    { simpl in *. naive_solver. }
    { simpl in *. lia. }
    exists l'. split_and!; [done|done|simpl in *; lia|].
    intros k. by rewrite Hv, view_insert.
  - destruct Hwf as (Hlo & Hbb & Hnlo & Hnx & Htl). apply Forall_cons in Hdis as [Hd Hdis].
    pose proof (bb_blocks_pos nx Hnx). pose proof (bb_blocks_pos new Hnew).
    assert (0 < bb_len bb) by apply Hbb.
    destruct (Z.ltb_spec (bb_block nx) (bb_block new)).
    + destruct (IH (bb_end bs bb) nx) as (r & -> & Hw & Hl & Hv);
        [done|done|unfold bb_end in *; lia|done|simpl in *; lia|].
      simpl. eexists. split; [done|]. simpl. split_and!; [done..|simpl in *; lia|].
      intros k. rewrite Hv. destruct (covers bs bb k) eqn:Hc; [|done].
      by rewrite (covers_disjoint bb new k) by auto.
    + destruct (link_merge_spec lo bb new (nx :: tl)) as (l' & -> & Hw & Hl & Hv).
      { simpl. split_and!; [done..| unfold bb_end in *; lia|done|done]. }
      { simpl in *; lia. }
      exists l'. split_and!; [done|done|simpl in *; lia|].
      intros k. by rewrite Hv, view_insert.
Qed.

Lemma queue_spec lo l new :
  wf_from bs lo l -> wf_bb bs new -> lo <= bb_block new -> disjoint_from bs new l ->
  total_len l + bb_len new < 2 ^ 32 ->
  exists l', queue bs l new = Done l' /\ wf_from bs lo l' /\
    total_len l' = total_len l + bb_len new /\
    forall k, view bs l' k =
      if covers bs new k then Some (src_at bs new k) else view bs l k.
Proof using Hbs.
  intros Hwf Hnew Hlo Hdis Hlen. destruct l as [|hd tl]; simpl.
  - eexists; split; [done|]. simpl. split_and!; [done..|lia|]. done.
  - pose proof Hdis as [Hd Hdis']%Forall_cons. pose proof Hwf as (Hl & Hhd & Htl).
    pose proof (bb_blocks_pos hd Hhd). pose proof (bb_blocks_pos new Hnew).
    destruct (Z.ltb_spec (bb_block new) (bb_block hd)).
    + eexists; split; [done|]. simpl.
      split_and!; [done|done|unfold bb_end in *; lia|done|done|lia|done].
    + apply queue_from_spec; try done. unfold bb_end in *; lia.
Qed.

(** Splitting keeps the map; the first part is the longest whole number of
    blocks within [max_len], possibly none. *)
Lemma try_split_spec bb max_len :
  wf_bb bs bb -> is_u32 max_len ->
  exists r, try_split bs bb max_len = Done r /\
    (r = None -> bb_len bb <= max_len) /\
    forall a b, r = Some (a, b) ->
      bb_block a = bb_block bb /\ bb_len a = ALIGN_DOWN max_len bs /\
      bb_len a + bb_len b = bb_len bb /\ bb_end bs a = bb_block b /\
      bb_end bs b = bb_end bs bb /\ wf_bb bs b /\
      forall k, view bs [a; b] k = view bs [bb] k.
Proof using Hbs.
  intros (H0 & Hl & He) Hm. unfold try_split, is_u32 in *. zdec.
  pose proof (Z.div_mod max_len bs ltac:(lia)). pose proof (Z.mod_pos_bound max_len bs Hbs).
  set (q := max_len / bs) in *. unfold ALIGN_DOWN. fold q.
  assert (0 <= q) by (apply Z.div_pos; lia).
  rewrite (u32_small (bs * q)) by (unfold is_u32; lia).
  destruct (Z.leb_spec (bb_len bb) (bs * q)).
  { eexists; split; [done|]. split; [lia|done]. }
  eexists; split; [done|]. split; [done|]. intros a b [= <- <-]. simpl.
  assert (Hq : bs * q / bs = q) by (rewrite Z.mul_comm; apply Z.div_mul; lia).
  unfold wf_bb, bb_end, bb_blocks in *; simpl in *. rewrite Hq.
  set (r := bb_len bb - bs * q) in *.
  assert (Hbl : DIV_ROUND_UP (bb_len bb) bs = q + DIV_ROUND_UP r bs).
  { rewrite <- DIV_ROUND_UP_add_mul by lia. f_equal. unfold r. lia. }
  assert (0 < DIV_ROUND_UP r bs) by (apply DIV_ROUND_UP_pos; lia).
  rewrite DIV_ROUND_UP_mul by lia.
  rewrite !u32_small by (unfold is_u32; lia).
  split_and!; try done; try lia.
  intros k. unfold covers, bb_end, bb_blocks, src_at; simpl.
  rewrite DIV_ROUND_UP_mul by lia. rewrite Hbl.
  destruct (Z.leb_spec (bb_block bb) k); simpl; [|zcases; simpl; done || lia].
  destruct (Z.ltb_spec k (bb_block bb + q)); zdec; simpl.
  - do 2 f_equal. nia.
  - rewrite payload_shift_shift by nia. zcases; simpl; try lia; [|done].
    do 3 f_equal; nia.
Qed.

Lemma view_app l1 l2 k :
  view bs (l1 ++ l2) k = match view bs l1 k with Some x => Some x | None => view bs l2 k end.
Proof using. induction l1 as [|a l1 IH]; simpl; [done|]. by destruct (covers bs a k). Qed.

(** Queueing a block behind everything queued so far, the order in which the
    readers queue, needs no separate disjointness check. *)
Lemma disjoint_from_after lo l new :
  wf_from bs lo l -> (forall k, bb_block new <= k -> view bs l k = None) ->
  0 <= bb_block new -> disjoint_from bs new l.
Proof using Hbs.
  revert lo. induction l as [|bb tl IH]; intros lo; simpl; [by constructor|].
  intros (_ & Hbb & Htl) Hv Hn. constructor.
  - right. pose proof (bb_blocks_pos bb Hbb) as Hp.
    destruct (Z.le_gt_cases (bb_end bs bb) (bb_block new)) as [|Hgt]; [done|].
    specialize (Hv (Z.max (bb_block new) (bb_block bb)) ltac:(lia)).
    unfold covers in Hv. unfold bb_end in *. revert Hv. zdec. simpl. done.
  - apply (IH _ Htl); [|done]. intros k Hk. specialize (Hv k Hk).
    by destruct (covers bs bb k).
Qed.
(** A property of blocks that merging keeps, queueing keeps. *)
Definition merge_stable (P : backed_block -> Prop) : Prop :=
  forall a b ab, P a -> P b -> wf_bb bs a -> wf_bb bs b -> bb_end bs a <= bb_block b ->
    bb_len a + bb_len b < 2 ^ 32 -> try_merge bs a b = Done (Some ab) -> P ab.

Lemma merge_next_Forall P new tl new' tl' :
  merge_stable P -> P new -> Forall P tl -> wf_bb bs new -> wf_from bs (bb_end bs new) tl ->
  bb_len new + total_len tl < 2 ^ 32 -> merge_next bs new tl = Done (new', tl') ->
  P new' /\ Forall P tl'.
Proof using Hbs.
  intros HP Hnew Htl Hwn Hwt Hlen. destruct tl as [|nx t]; simpl; [by intros [= <- <-]|].
  destruct Hwt as (Hle & Hnx & Ht). simpl in Hlen. pose proof (total_len_nonneg _ _ Ht).
  destruct (try_merge bs new nx) as [m|] eqn:Hm; [|done]. cbn [obind]. intros [= Heq].
  apply Forall_cons in Htl as [Hpn Hpt].
  destruct m as [ab|]; injection Heq as <- <-; [|by repeat constructor].
  split; [|done]. eapply HP; [..|exact Hm]; try done. lia.
Qed.

Lemma link_merge_Forall P lo bb new tl l' :
  merge_stable P -> Forall P (bb :: new :: tl) -> wf_from bs lo (bb :: new :: tl) ->
  total_len (bb :: new :: tl) < 2 ^ 32 -> link_merge bs bb new tl = Done l' -> Forall P l'.
Proof using Hbs.
  intros HP (Hpb & (Hpn & Hpt)%Forall_cons)%Forall_cons (Hlo & Hbb & Hle & Hnew & Htl) Hlen.
  simpl in Hlen. assert (0 < bb_len bb) by apply Hbb.
  destruct (merge_next_spec new tl) as (new' & tl' & Hmn & Hb' & Hwf' & Htl' & Hlen' & _);
    [done|done|lia|].
  destruct (merge_next_Forall P new tl new' tl') as [Hp' Hpt']; try done; [lia|].
  pose proof (total_len_nonneg _ _ Htl').
  unfold link_merge. rewrite Hmn. cbn [obind].
  destruct (try_merge bs bb new') as [m|] eqn:Hm; [|done]. cbn [obind]. intros [= <-].
  destruct m as [ab|]; [|by repeat constructor]. constructor; [|done].
  eapply HP; [..|exact Hm]; try done; lia.
Qed.

Lemma queue_from_Forall P lo bb new tl l' :
  merge_stable P -> Forall P (bb :: tl) -> P new -> wf_from bs lo (bb :: tl) -> wf_bb bs new ->
  bb_end bs bb <= bb_block new -> disjoint_from bs new tl ->
  total_len (bb :: tl) + bb_len new < 2 ^ 32 ->
  queue_from bs new bb tl = Done l' -> Forall P l'.
Proof using Hbs.
  intros HP. revert lo bb l'. induction tl as [|nx tl IH]; intros lo bb l' Hp Hpn Hwf Hnew Hle Hdis Hlen;
    cbn [queue_from].
  - apply Forall_cons in Hp as [Hpb _]. apply (link_merge_Forall P lo); [done|by repeat constructor|
      simpl in *; naive_solver|simpl in *; lia].
  - apply Forall_cons in Hp as [Hpb Hpt]. apply Forall_cons in Hdis as [Hd Hdis].
    destruct Hwf as (Hlo & Hbb & Hwf). simpl in Hlen. assert (0 < bb_len bb) by apply Hbb.
    pose proof Hwf as (Hl & Hnx & Htl). pose proof (bb_blocks_pos nx Hnx).
    pose proof (bb_blocks_pos new Hnew). unfold bb_end in Hd.
    destruct (Z.ltb_spec (bb_block nx) (bb_block new)).
    + destruct (queue_from bs new nx tl) as [r|] eqn:Hr; [|done]. cbn [obind]. intros [= <-].
      constructor; [done|]. eapply (IH _ nx); [..|exact Hr]; try done; [unfold bb_end; lia|simpl; lia].
    + apply (link_merge_Forall P lo); [done|apply Forall_cons; split; [done|by constructor]| |simpl; lia].
      simpl. unfold bb_end in *. split_and!; try done; lia.
Qed.

Lemma queue_Forall P lo l new l' :
  merge_stable P -> Forall P l -> P new -> wf_from bs lo l -> wf_bb bs new ->
  disjoint_from bs new l -> total_len l + bb_len new < 2 ^ 32 ->
  queue bs l new = Done l' -> Forall P l'.
Proof using Hbs.
  intros HP Hl Hpn Hwf Hnew Hdis Hlen. destruct l as [|hd tl]; cbn [queue].
  { intros [= <-]. by constructor. }
  pose proof Hwf as (_ & Hhd & _). pose proof (bb_blocks_pos hd Hhd).
  pose proof (bb_blocks_pos new Hnew). apply Forall_cons in Hdis as [Hd Hdis].
  destruct (Z.ltb_spec (bb_block new) (bb_block hd)); [intros [= <-]; by constructor|].
  apply (queue_from_Forall P lo); try done. unfold bb_end in *. lia.
Qed.
End Lemmas.
