(* ===== verification/BackedBlock.v ===== *)
(** * Queued blocks as linked nodes (backed_block.c)

    The routines of backed_block.c on an explicit heap: nodes and duplicated
    file names are cells of finite maps, [NULL] is [None], reading a cell that
    is not allocated is [UseAfterFree], freeing one twice is [DoubleFree].
    The address [calloc], [malloc] and [strdup] return is an argument, so that
    every theorem covers every allocator; a [None] address is a failed
    allocation.  Loops over the links carry the number of allocated nodes plus
    one as fuel, which an acyclic list never exhausts.

    [rep] says that a heap holds a given list; the theorems at the end state
    that each routine transforms it as the functions of BlockList.v do. *)
From Stdlib Require Sorted.
From S2P Require Import Prelude BlockList.

Definition EINVAL : Z := 22.
Definition ENOMEM : Z := 12.

Record node := mk_node { n_bb : backed_block; n_next : option loc }.
Record heap := mk_heap { nodes : gmap loc node; strs : gmap loc string }.

(** [struct backed_block_list]. *)
Record backed_block_list := mk_bbl {
  data_blocks : option loc;
  last_used : option loc;
  block_size : Z
}.

Definition load (h : heap) (p : option loc) : outcome node :=
  match p with
  | None => Crash NullDeref
  | Some x => match nodes h !! x with Some n => Done n | None => Crash UseAfterFree end
  end.

Definition store (h : heap) (x : loc) (n : node) : heap := mk_heap (<[x := n]> (nodes h)) (strs h).

Definition set_next (h : heap) (x : loc) (nx : option loc) : outcome heap :=
  let! n := load h (Some x) in Done (store h x (mk_node (n_bb n) nx)).

Definition loop_fuel (h : heap) : nat := S (size (nodes h)).

(** ** Accessors *)

Definition backed_block_iter_new (bbl : backed_block_list) : option loc := data_blocks bbl.

Definition backed_block_iter_next (h : heap) (bb : option loc) : outcome (option loc) :=
  let! n := load h bb in Done (n_next n).

Definition backed_block_len (h : heap) (bb : option loc) : outcome Z :=
  let! n := load h bb in Done (bb_len (n_bb n)).

Definition backed_block_block (h : heap) (bb : option loc) : outcome Z :=
  let! n := load h bb in Done (bb_block (n_bb n)).

Definition backed_block_data (h : heap) (bb : option loc) : outcome (list byte) :=
  let! n := load h bb in
  match bb_payload (n_bb n) with BLOCK_DATA d => Done d | _ => Crash AssertFail end.

Definition backed_block_filename (h : heap) (bb : option loc) : outcome loc :=
  let! n := load h bb in
  match bb_payload (n_bb n) with BLOCK_FILE f _ => Done f | _ => Crash AssertFail end.

Definition backed_block_fd (h : heap) (bb : option loc) : outcome Z :=
  let! n := load h bb in
  match bb_payload (n_bb n) with BLOCK_FD fd _ => Done fd | _ => Crash AssertFail end.

Definition backed_block_file_offset (h : heap) (bb : option loc) : outcome Z :=
  let! n := load h bb in
  match bb_payload (n_bb n) with
  | BLOCK_FILE _ o => Done o
  | BLOCK_FD _ o => Done o
  | _ => Crash AssertFail
  end.

Definition backed_block_fill_val (h : heap) (bb : option loc) : outcome Z :=
  let! n := load h bb in
  match bb_payload (n_bb n) with BLOCK_FILL v => Done v | _ => Crash AssertFail end.

Definition backed_block_get_type (h : heap) (bb : option loc) : outcome backed_block_type :=
  let! n := load h bb in Done (bb_type (n_bb n)).

(** ** Destruction *)

Definition free_str (h : heap) (x : loc) : outcome heap :=
  match strs h !! x with
  | Some _ => Done (mk_heap (nodes h) (delete x (strs h)))
  | None => Crash DoubleFree
  end.

Definition free_node (h : heap) (x : loc) : outcome heap :=
  match nodes h !! x with
  | Some _ => Done (mk_heap (delete x (nodes h)) (strs h))
  | None => Crash DoubleFree
  end.

Definition backed_block_destroy (h : heap) (x : loc) : outcome heap :=
  let! n := load h (Some x) in
  let! h := match bb_payload (n_bb n) with BLOCK_FILE f _ => free_str h f | _ => Done h end in
  free_node h x.

Definition backed_block_list_new (block_size : Z) : backed_block_list :=
  mk_bbl None None block_size.

Fixpoint destroy_loop (fuel : nat) (h : heap) (bb : option loc) : outcome heap :=
  match fuel, bb with
  | _, None => Done h
  | O, Some _ => Crash OutOfFuel
  | S fuel, Some x =>
      let! n := load h (Some x) in
      let! h := backed_block_destroy h x in
      destroy_loop fuel h (n_next n)
  end.

Definition backed_block_list_destroy (h : heap) (bbl : backed_block_list) : outcome heap :=
  destroy_loop (loop_fuel h) h (data_blocks bbl).

(** ** Moving a segment to another list *)

Fixpoint last_of (fuel : nat) (h : heap) (x : loc) : outcome loc :=
  match fuel with
  | O => Crash OutOfFuel
  | S fuel =>
      let! n := load h (Some x) in
      match n_next n with None => Done x | Some nx => last_of fuel h nx end
  end.

(** [for (bb = from->data_blocks; bb; bb = bb->next) if (bb->next == start) ...] *)
Fixpoint unlink_loop (fuel : nat) (h : heap) (bb : option loc) (start : loc) (after : option loc)
    : outcome heap :=
  match fuel, bb with
  | _, None => Done h
  | O, Some _ => Crash OutOfFuel
  | S fuel, Some x =>
      let! n := load h (Some x) in
      if bool_decide (n_next n = Some start) then set_next h x after
      else unlink_loop fuel h (n_next n) start after
  end.

(** [for (bb = to->data_blocks; ...) if (!bb->next || bb->next->block > start->block) ...] *)
Fixpoint relink_loop (fuel : nat) (h : heap) (bb : option loc) (start end_ : loc) : outcome heap :=
  match fuel, bb with
  | _, None => Done h
  | O, Some _ => Crash OutOfFuel
  | S fuel, Some x =>
      let! n := load h (Some x) in
      let! here := match n_next n with
        | None => Done true
        | Some nx =>
            let! nn := load h (Some nx) in
            let! sn := load h (Some start) in
            Done (bb_block (n_bb sn) <? bb_block (n_bb nn))
        end in
      if (here : bool) then
        let! h := set_next h end_ (n_next n) in
        set_next h x (Some start)
      else relink_loop fuel h (n_next n) start end_
  end.

Definition backed_block_list_move (h : heap) (from to : backed_block_list)
    (start end_ : option loc) : outcome (heap * backed_block_list * backed_block_list) :=
  let start := match start with None => data_blocks from | _ => start end in
  let! end_ := match end_, start with
    | None, Some s => let! e := last_of (loop_fuel h) h s in Done (Some e)
    | _, _ => Done end_
    end in
  match start, end_ with
  | Some s, Some e =>
      let! en := load h (Some e) in
      let from := mk_bbl (data_blocks from) None (block_size from) in
      let to := mk_bbl (data_blocks to) None (block_size to) in
      let! (h, from) :=
        if bool_decide (data_blocks from = Some s)
        then Done (h, mk_bbl (n_next en) None (block_size from))
        else let! h := unlink_loop (loop_fuel h) h (data_blocks from) s (n_next en) in
             Done (h, from) in
      match data_blocks to with
      | None =>
          let! h := set_next h e None in
          Done (h, from, mk_bbl (Some s) None (block_size to))
      | Some _ =>
          let! h := relink_loop (loop_fuel h) h (data_blocks to) s e in
          Done (h, from, to)
      end
  | _, _ => Done (h, from, to)
  end.

(** ** Merging, queueing and splitting *)

Definition merge_bb (h : heap) (bs : Z) (a b : option loc) : outcome (heap * Z) :=
  match a, b with
  | Some xa, Some xb =>
      let! na := load h a in
      let! nb := load h b in
      let! m := try_merge bs (n_bb na) (n_bb nb) in
      match m with
      | None => Done (h, - EINVAL)
      | Some ab =>
          let h := store h xa (mk_node ab (n_next nb)) in
          let! h := backed_block_destroy h xb in
          Done (h, 0)
      end
  | _, _ => Done (h, - EINVAL)
  end.

(** [for (; bb->next && bb->next->block < new_bb->block; bb = bb->next);] *)
Fixpoint search_loop (fuel : nat) (h : heap) (bb : loc) (block : Z) : outcome loc :=
  match fuel with
  | O => Crash OutOfFuel
  | S fuel =>
      let! n := load h (Some bb) in
      match n_next n with
      | None => Done bb
      | Some nx =>
          let! nn := load h (Some nx) in
          if bb_block (n_bb nn) <? block then search_loop fuel h nx block else Done bb
      end
  end.

Definition queue_bb (h : heap) (bbl : backed_block_list) (new_bb : loc)
    : outcome (heap * backed_block_list * Z) :=
  match data_blocks bbl with
  | None => Done (h, mk_bbl (Some new_bb) (last_used bbl) (block_size bbl), 0)
  | Some hd =>
      let! hn := load h (Some hd) in
      let! nn := load h (Some new_bb) in
      if bb_block (n_bb nn) <? bb_block (n_bb hn) then
        let! h := set_next h new_bb (Some hd) in
        Done (h, mk_bbl (Some new_bb) (last_used bbl) (block_size bbl), 0)
      else
        let! start := match last_used bbl with
          | Some lu =>
              let! ln := load h (Some lu) in
              Done (if bb_block (n_bb ln) <? bb_block (n_bb nn) then lu else hd)
          | None => Done hd
          end in
        let! bb := search_loop (loop_fuel h) h start (bb_block (n_bb nn)) in
        let! bn := load h (Some bb) in
        let! h := match n_next bn with
          | None => set_next h bb (Some new_bb)
          | Some nx => let! h := set_next h new_bb (Some nx) in set_next h bb (Some new_bb)
          end in
        let! nn := load h (Some new_bb) in
        let! (h, _) := merge_bb h (block_size bbl) (Some new_bb) (n_next nn) in
        let! (h, _) := merge_bb h (block_size bbl) (Some bb) (Some new_bb) in
        Done (h, mk_bbl (data_blocks bbl) (Some new_bb) (block_size bbl), 0)
  end.

Definition alloc_queue (h : heap) (bbl : backed_block_list) (addr : option loc)
    (bb : backed_block) : outcome (heap * backed_block_list * Z) :=
  match addr with
  | None => Done (h, bbl, - ENOMEM)
  | Some x => queue_bb (store h x (mk_node bb None)) bbl x
  end.

Definition backed_block_add_fill h bbl addr (fill_val len block : Z) :=
  alloc_queue h bbl addr (mk_bb block len (BLOCK_FILL fill_val)).

Definition backed_block_add_data h bbl addr (data : list byte) (len block : Z) :=
  alloc_queue h bbl addr (mk_bb block len (BLOCK_DATA data)).

(** [name] is the address [strdup] returns. *)
Definition backed_block_add_file h bbl addr (name : loc) (filename : string)
    (offset len block : Z) :=
  match addr with
  | None => Done (h, bbl, - ENOMEM)
  | Some _ =>
      let h := mk_heap (nodes h) (<[name := filename]> (strs h)) in
      alloc_queue h bbl addr (mk_bb block len (BLOCK_FILE name offset))
  end.

Definition backed_block_add_fd h bbl addr (fd offset len block : Z) :=
  alloc_queue h bbl addr (mk_bb block len (BLOCK_FD fd offset)).

Definition backed_block_split (h : heap) (bbl : backed_block_list) (bb : loc) (max_len : Z)
    (addr : option loc) : outcome (heap * Z) :=
  let! n := load h (Some bb) in
  let! r := try_split (block_size bbl) (n_bb n) max_len in
  match r with
  | None => Done (h, 0)
  | Some (first, second) =>
      match addr with
      | None => Done (h, - ENOMEM)
      | Some new_bb =>
          let h := store h new_bb (mk_node second (n_next n)) in
          Done (store h bb (mk_node first (Some new_bb)), 0)
      end
  end.

#[global] Arguments merge_bb : simpl never.
#[global] Arguments queue : simpl never.
#[global] Arguments alloc_queue : simpl never.

(** ** List segments *)

(** The nodes from [p] up to [q] are exactly [l]. *)
Fixpoint chain (m : gmap loc node) (p : option loc) (l : list (loc * backed_block))
    (q : option loc) : Prop :=
  match l with
  | [] => p = q
  | (x, b) :: t => p = Some x /\ exists nx, m !! x = Some (mk_node b nx) /\ chain m nx t q
  end.

Definition rep (h : heap) (bbl : backed_block_list) (l : list (loc * backed_block)) : Prop :=
  chain (nodes h) (data_blocks bbl) l None /\ NoDup l.*1.

Definition sorted_blocks (l : list backed_block) : Prop :=
  Sorted.StronglySorted (fun a b => bb_block a < bb_block b) l.

Lemma chain_app m p l1 l2 q :
  chain m p (l1 ++ l2) q <-> exists r, chain m p l1 r /\ chain m r l2 q.
Proof.
  revert p. induction l1 as [|[x b] l1 IH]; intros p; simpl; [naive_solver|].
  setoid_rewrite IH. naive_solver.
Qed.

Lemma chain_frame m m' p l q :
  (forall x, x ∈ l.*1 -> m' !! x = m !! x) -> chain m p l q -> chain m' p l q.
Proof.
  revert p. induction l as [|[x b] l IH]; intros p Hm; simpl; [done|].
  intros (-> & nx & Hx & Hc). split; [done|]. exists nx. split.
  - rewrite Hm; [done|]. set_solver.
  - apply IH; [|done]. intros y Hy. apply Hm. set_solver.
Qed.

Lemma chain_insert m x n p l q :
  x ∉ l.*1 -> chain m p l q -> chain (<[x := n]> m) p l q.
Proof.
  intros Hx. apply chain_frame. intros y Hy. apply lookup_insert_ne. set_solver.
Qed.

Lemma chain_delete m x p l q :
  x ∉ l.*1 -> chain m p l q -> chain (delete x m) p l q.
Proof.
  intros Hx. apply chain_frame. intros y Hy. apply lookup_delete_ne. set_solver.
Qed.

Lemma chain_lookup m p l q x :
  chain m p l q -> x ∈ l.*1 -> is_Some (m !! x).
Proof.
  revert p. induction l as [|[y b] l IH]; intros p; simpl; [set_solver|].
  intros (-> & nx & Hy & Hc) [->|Hx]%elem_of_cons; [by eexists|]. eauto.
Qed.

Lemma chain_subset m p l q :
  chain m p l q -> NoDup l.*1 -> (length l <= size m)%nat.
Proof.
  intros Hc Hnd. rewrite <- (length_fmap fst l), <- size_dom.
  rewrite <- (size_list_to_set (C := gset loc)) by done.
  apply subseteq_size. intros x Hx%elem_of_list_to_set.
  apply elem_of_dom. by eapply chain_lookup.
Qed.

(** The search stops at the node the functional search stops at. *)
Lemma search_loop_spec h fuel x b t block :
  chain (nodes h) (Some x) ((x, b) :: t) None -> (length t < fuel)%nat ->
  exists t1 y c t2,
    (x, b) :: t = t1 ++ (y, c) :: t2 /\ search_loop fuel h x block = Done y /\
    Forall (fun d => bb_block d < block) (tail (t1.*2 ++ [c])) /\
    match t2 with [] => True | (_, d) :: _ => block <= bb_block d end.
Proof.
  revert x b fuel. induction t as [|[y c] t IH]; intros x b fuel Hc Hf;
    (destruct fuel as [|fuel]; [simpl in Hf; lia|]); simpl.
  - destruct Hc as (_ & nx & Hx & Hn). simpl in Hn. subst nx. rewrite Hx. simpl.
    exists [], x, b, []. done.
  - destruct Hc as (_ & nx & Hx & Hc). simpl in Hc.
    pose proof Hc as (-> & nx' & Hy & _). rewrite Hx. simpl. rewrite Hy. simpl.
    destruct (Z.ltb_spec (bb_block c) block).
    + destruct (IH y c fuel) as (t1 & z & d & t2 & Heq & Hs & Hf1 & Hf2);
        [exact Hc|simpl in Hf; lia|].
      exists ((x, b) :: t1), z, d, t2. rewrite Heq, Hs. simpl.
      split_and!; try done.
      destruct t1 as [|[? ?] t1]; simpl in *; injection Heq as <- <- ?; subst; by constructor.
    + by exists [], x, b, ((y, c) :: t).
Qed.

(** ** Functional form of the search *)

Lemma queue_from_split bs new hd tl0 pre bb tl :
  hd :: tl0 = pre ++ bb :: tl ->
  Forall (fun d => bb_block d < bb_block new) (tail (pre ++ [bb])) ->
  match tl with [] => True | d :: _ => bb_block new <= bb_block d end ->
  queue_from bs new hd tl0 = let! r := link_merge bs bb new tl in Done (pre ++ r).
Proof.
  revert hd tl0. induction pre as [|a pre IH]; intros hd tl0 Heq Hlt Hge; simpl in *.
  - injection Heq as -> ->. destruct tl as [|d tl]; simpl.
    + by destruct (link_merge bs bb new []).
    + zdec. by destruct (link_merge bs bb new (d :: tl)).
  - injection Heq as -> ->. destruct pre as [|a' pre]; simpl in *.
    + apply Forall_cons in Hlt as [Hlt _]. zdec.
      rewrite (IH bb tl) by (done || constructor).
      by destruct (link_merge bs bb new tl).
    + apply Forall_cons in Hlt as [Hlt Hlt']. zdec.
      rewrite (IH a' (pre ++ bb :: tl)) by done.
      by destruct (link_merge bs bb new tl).
Qed.

(** ** Merging two linked nodes *)

(** File names are never shared between a queued block and a new one. *)
Definition no_shared_name (new : backed_block) (l : list backed_block) : Prop :=
  match bb_payload new with
  | BLOCK_FILE f _ =>
      Forall (fun b => match bb_payload b with BLOCK_FILE g _ => f <> g | _ => True end) l
  | _ => True
  end.

Definition mergeable_not_file (a b : backed_block) : Prop :=
  match bb_payload a, bb_payload b with
  | BLOCK_FILE f _, BLOCK_FILE g _ => f <> g
  | _, _ => True
  end.

Lemma try_merge_not_file bs a b ab :
  mergeable_not_file a b -> try_merge bs a b = Done (Some ab) ->
  bb_payload ab = bb_payload a /\ bb_block ab = bb_block a /\
  match bb_payload b with BLOCK_FILE _ _ => False | _ => True end.
Proof.
  unfold mergeable_not_file, try_merge. intros Hnf H.
  destruct (bb_block a <? bb_block b); simpl in H; [|done].
  case_bool_decide; [done|]. destruct (bs =? 0); [done|].
  destruct (_ =? bb_block b); simpl in H; [|done].
  destruct (merge_payload _ _ _) eqn:Hmp; simpl in H; [|done].
  injection H as <-. simpl. split_and!; [done..|].
  destruct (bb_payload a), (bb_payload b); simpl in *; try done.
  by rewrite bool_decide_eq_false_2 in Hmp.
Qed.

Lemma merge_bb_spec h bs p P xa a xb b T :
  chain (nodes h) p (P ++ (xa, a) :: (xb, b) :: T) None ->
  NoDup (P ++ (xa, a) :: (xb, b) :: T).*1 -> mergeable_not_file a b ->
  match try_merge bs a b with
  | Crash f => merge_bb h bs (Some xa) (Some xb) = Crash f
  | Done None => merge_bb h bs (Some xa) (Some xb) = Done (h, - EINVAL)
  | Done (Some ab) => exists h', merge_bb h bs (Some xa) (Some xb) = Done (h', 0) /\
      chain (nodes h') p (P ++ (xa, ab) :: T) None /\ nodes h' !! xb = None /\
      strs h' = strs h
  end.
Proof.
  intros Hc Hnd Hnf. apply chain_app in Hc as (r & HP & (-> & nx & Hxa & -> & nx' & Hxb & HT)).
  unfold merge_bb. simpl. rewrite Hxa. simpl. rewrite Hxb. simpl.
  destruct (try_merge bs a b) as [[ab|]|f] eqn:Hm; simpl; [|done..].
  destruct (try_merge_not_file _ _ _ _ Hnf Hm) as (_ & _ & Hnf').
  rewrite fmap_app in Hnd. simpl in Hnd.
  apply NoDup_app in Hnd as (HndP & HP' & [Hxa' Hnd%NoDup_cons]%NoDup_cons).
  destruct Hnd as [Hxb' HndT].
  assert (Hne : xa <> xb) by set_solver.
  unfold backed_block_destroy; simpl. rewrite lookup_insert_ne by done. rewrite Hxb. simpl.
  assert (Hd : match bb_payload b with BLOCK_FILE f _ => free_str (store h xa (mk_node ab nx')) f
                 | _ => Done (store h xa (mk_node ab nx')) end = Done (store h xa (mk_node ab nx')))
    by (destruct (bb_payload b); done).
  rewrite Hd. simpl. unfold free_node; simpl. rewrite lookup_insert_ne by done.
  rewrite Hxb. simpl. eexists; split; [done|]. simpl. split_and!; [|apply lookup_delete_eq|done].
  apply chain_app. exists (Some xa). split.
  - apply chain_delete, chain_insert; [..|done]; set_solver.
  - simpl. split; [done|]. exists nx'. split.
    + rewrite lookup_delete_ne by done. apply lookup_insert_eq.
    + apply chain_delete, chain_insert; [..|done]; set_solver.
Qed.

Lemma link_spec h p P y c T x new :
  chain (nodes h) p (P ++ (y, c) :: T) None -> NoDup (P ++ (y, c) :: T).*1 ->
  nodes h !! x = Some (mk_node new None) -> x ∉ (P ++ (y, c) :: T).*1 ->
  exists nx h1, nodes h !! y = Some (mk_node c nx) /\
    match nx with
    | None => set_next h y (Some x)
    | Some z => let! h := set_next h x (Some z) in set_next h y (Some x)
    end = Done h1 /\
    chain (nodes h1) p (P ++ (y, c) :: (x, new) :: T) None /\ strs h1 = strs h.
Proof.
  intros Hc Hnd Hx Hxl. apply chain_app in Hc as (r & HP & (-> & nx & Hy & HT)).
  rewrite fmap_app in Hnd, Hxl. simpl in Hnd, Hxl.
  apply NoDup_app in Hnd as (HndP & HP' & [Hy' HndT]%NoDup_cons).
  assert (Hne : x <> y) by set_solver.
  exists nx. destruct nx as [z|].
  - unfold set_next; simpl. rewrite Hx. simpl. rewrite lookup_insert_ne by done. rewrite Hy.
    simpl. eexists. split_and!; [done|done| |done]. simpl.
    apply chain_app. exists (Some y). split; [apply chain_insert, chain_insert; set_solver|].
    simpl. split; [done|]. exists (Some x). rewrite lookup_insert_eq. split; [done|].
    split; [done|]. exists (Some z). rewrite lookup_insert_ne by done.
    rewrite lookup_insert_eq. split; [done|]. apply chain_insert, chain_insert; set_solver.
  - unfold set_next; simpl. rewrite Hy. simpl. eexists. split_and!; [done|done| |done]. simpl.
    apply chain_app. exists (Some y). split; [apply chain_insert; set_solver|].
    simpl. split; [done|]. exists (Some x). rewrite lookup_insert_eq. split; [done|].
    split; [done|]. exists None. rewrite lookup_insert_ne by done. split; [done|].
    apply chain_insert; set_solver.
Qed.

Lemma merge_next_heap h bs p P y c x new T :
  chain (nodes h) p (P ++ (y, c) :: (x, new) :: T) None ->
  NoDup (P ++ (y, c) :: (x, new) :: T).*1 -> no_shared_name new T.*2 ->
  exists nx, nodes h !! x = Some (mk_node new nx) /\
  match merge_next bs new T.*2 with
  | Crash f => merge_bb h bs (Some x) nx = Crash f
  | Done (new', tl') => exists h' r T', merge_bb h bs (Some x) nx = Done (h', r) /\
      chain (nodes h') p (P ++ (y, c) :: (x, new') :: T') None /\ T'.*2 = tl' /\
      sublist T'.*1 T.*1 /\ bb_payload new' = bb_payload new /\ strs h' = strs h
  end.
Proof.
  intros Hc Hnd Hns. pose proof Hc as Hc'.
  apply chain_app in Hc' as (r & HP & (-> & ny & Hy & -> & nx & Hx & HT)).
  exists nx. split; [done|]. destruct T as [|[z d] T]; simpl.
  - simpl in HT. subst nx. exists h, (- EINVAL), []. split_and!; done.
  - destruct HT as (-> & nz & Hz & HT).
    assert (Hm : mergeable_not_file new d).
    { unfold mergeable_not_file, no_shared_name in *.
      destruct (bb_payload new); [done| |done..].
      simpl in Hns. apply Forall_cons in Hns as [Hns _]. destruct (bb_payload d); naive_solver. }
    pose proof (merge_bb_spec h bs p (P ++ [(y, c)]) x new z d T) as Hsp.
    rewrite <- !app_assoc in Hsp. specialize (Hsp Hc Hnd Hm).
    destruct (try_merge bs new d) as [[ab|]|f] eqn:Htm; simpl.
    + destruct Hsp as (h' & -> & Hch & _ & Hs). rewrite <- app_assoc in Hch.
      exists h', 0, T. split_and!; try done; [by apply sublist_cons|].
      by eapply try_merge_not_file.
    + exists h, (- EINVAL), ((z, d) :: T). split_and!; done.
    + done.
Qed.

(** The two merges of [queue_bb], on the heap and on the list. *)
Lemma link_merge_heap h bs p P y c x new T :
  chain (nodes h) p (P ++ (y, c) :: (x, new) :: T) None ->
  NoDup (P ++ (y, c) :: (x, new) :: T).*1 -> no_shared_name new (c :: T.*2) ->
  let code :=
    let! nn := load h (Some x) in
    let! (h, _) := merge_bb h bs (Some x) (n_next nn) in
    let! (h, _) := merge_bb h bs (Some y) (Some x) in Done h in
  match link_merge bs c new T.*2 with
  | Crash f => code = Crash f
  | Done l' => exists h' R, code = Done h' /\
      chain (nodes h') p (P ++ R) None /\ R.*2 = l' /\
      NoDup (P ++ R).*1 /\ (x ∈ R.*1 \/ nodes h' !! x = None) /\ strs h' = strs h
  end.
Proof.
  intros Hc Hnd Hns code. subst code.
  assert (Hns' : no_shared_name new T.*2).
  { unfold no_shared_name in *. destruct (bb_payload new); try done.
    by apply Forall_cons in Hns as [_ ?]. }
  destruct (merge_next_heap h bs p P y c x new T Hc Hnd Hns') as (nx & Hx & Hmn).
  simpl. rewrite Hx. simpl. unfold link_merge.
  destruct (merge_next bs new T.*2) as [[new' tl']|f]; simpl; [|by rewrite Hmn].
  destruct Hmn as (h' & r & T' & -> & Hch & <- & Hsub & Hpl & Hs). simpl.
  assert (Hnd' : NoDup (P ++ (y, c) :: (x, new') :: T').*1).
  { eapply sublist_NoDup; [exact Hnd|]. rewrite !fmap_app. simpl.
    by apply sublist_app, sublist_skip, sublist_skip. }
  assert (Hm : mergeable_not_file c new').
  { unfold mergeable_not_file, no_shared_name in *. rewrite Hpl.
    destruct (bb_payload new); destruct (bb_payload c) eqn:Ec; try done.
    apply Forall_cons in Hns as [Hns _]. rewrite Ec in Hns. congruence. }
  pose proof (merge_bb_spec h' bs p P y c x new' T' Hch Hnd' Hm) as Hsp.
  destruct (try_merge bs c new') as [[ab|]|f] eqn:Htm; simpl.
  - destruct Hsp as (h2 & -> & Hch2 & Hfree & Hs2). simpl.
    eexists h2, ((y, ab) :: T'). split_and!; [done|done|done| |by right|congruence].
    eapply sublist_NoDup; [exact Hnd'|]. rewrite !fmap_app. simpl.
    by apply sublist_app, sublist_skip, sublist_cons.
  - rewrite Hsp. simpl. eexists h', ((y, c) :: (x, new') :: T').
    split_and!; [done|done|done|done| |done]. left. simpl. set_solver.
  - by rewrite Hsp.
Qed.

(** ** Queueing refines the functional list *)

(** [last_used] is usable: null, a queued node, or the node being queued. *)
Definition last_used_ok (bbl : backed_block_list) (l : list loc) (new : loc) : Prop :=
  match last_used bbl with None => True | Some lu => lu ∈ l \/ lu = new end.

Lemma sorted_before (l1 : list backed_block) b l2 :
  sorted_blocks (l1 ++ b :: l2) -> Forall (fun a => bb_block a < bb_block b) l1.
Proof.
  induction l1 as [|a l1 IH]; intros Hs; [constructor|].
  apply Sorted.StronglySorted_inv in Hs as [Hs Ha]. constructor; [|auto].
  apply Forall_app in Ha as [_ Ha]. by apply Forall_cons in Ha as [? _].
Qed.

(** Where the search starts: everything passed over is below the new block. *)
Lemma start_spec h bbl hx hd T x new :
  chain (nodes h) (Some hx) ((hx, hd) :: T) None -> sorted_blocks (hd :: T.*2) ->
  nodes h !! x = Some (mk_node new None) ->
  last_used_ok bbl ((hx, hd) :: T).*1 x ->
  exists P s sb Q, (hx, hd) :: T = P ++ (s, sb) :: Q /\
    match last_used bbl with
    | Some lu => let! ln := load h (Some lu) in
                 Done (if bb_block (n_bb ln) <? bb_block new then lu else hx)
    | None => Done hx
    end = Done s /\
    (P = [] \/ Forall (fun d => bb_block d < bb_block new) (P.*2 ++ [sb])).
Proof.
  intros Hc Hs Hx Hlu. unfold last_used_ok in Hlu.
  destruct (last_used bbl) as [lu|]; [|by exists [], hx, hd, T; auto].
  destruct Hlu as [Hin| ->].
  2:{ simpl. rewrite Hx. simpl. zdec. exists [], hx, hd, T. auto. }
  apply list_elem_of_fmap in Hin as ([lu' sb] & -> & Hin). simpl.
  apply list_elem_of_split in Hin as (P & Q & HPQ). rewrite HPQ in Hc.
  apply chain_app in Hc as (r & _ & (_ & nx & Hlu & _)). rewrite Hlu. simpl.
  destruct (Z.ltb_spec (bb_block sb) (bb_block new)).
  - exists P, lu', sb, Q. split_and!; [done|done|]. right.
    apply Forall_app. split; [|by constructor].
    eapply Forall_impl; [eapply (sorted_before _ sb Q.*2)|intros a ?; simpl in *; lia].
    replace (hd :: T.*2) with (P.*2 ++ sb :: Q.*2) in Hs; [done|].
    change (hd :: T.*2) with (((hx, hd) :: T).*2). by rewrite HPQ, fmap_app.
  - exists [], hx, hd, T. auto.
Qed.

Lemma no_shared_name_sub new l l' :
  (forall b, b ∈ l' -> b ∈ l) -> no_shared_name new l -> no_shared_name new l'.
Proof.
  unfold no_shared_name. destruct (bb_payload new); try done.
  intros Hsub HF. rewrite Forall_forall in *. intros b Hb. apply (HF b), Hsub, Hb.
Qed.

(** Link, merge with the successor, merge into the predecessor. *)
Definition queue_tail (h : heap) (bs : Z) (y x : loc) : outcome heap :=
  let! bn := load h (Some y) in
  let! h := match n_next bn with
    | None => set_next h y (Some x)
    | Some nx => let! h := set_next h x (Some nx) in set_next h y (Some x)
    end in
  let! nn := load h (Some x) in
  let! (h, _) := merge_bb h bs (Some x) (n_next nn) in
  let! (h, _) := merge_bb h bs (Some y) (Some x) in Done h.

Lemma queue_tail_spec h bs p P y c T x new :
  chain (nodes h) p (P ++ (y, c) :: T) None -> NoDup (P ++ (y, c) :: T).*1 ->
  nodes h !! x = Some (mk_node new None) -> x ∉ (P ++ (y, c) :: T).*1 ->
  no_shared_name new (c :: T.*2) ->
  match link_merge bs c new T.*2 with
  | Crash f => queue_tail h bs y x = Crash f
  | Done l' => exists h' R, queue_tail h bs y x = Done h' /\
      chain (nodes h') p (P ++ R) None /\ R.*2 = l' /\
      NoDup (P ++ R).*1 /\ (x ∈ R.*1 \/ nodes h' !! x = None) /\ strs h' = strs h
  end.
Proof.
  intros Hc Hnd Hx Hxl Hns. unfold queue_tail.
  destruct (link_spec h p P y c T x new Hc Hnd Hx Hxl) as (nx & h1 & Hy & Hl & Hc1 & Hs1).
  simpl load. rewrite Hy. simpl. rewrite Hl. simpl obind at 1.
  assert (Hnd1 : NoDup (P ++ (y, c) :: (x, new) :: T).*1).
  { rewrite fmap_app in *. simpl in *. apply NoDup_app in Hnd as (HP & HPT & HT).
    apply NoDup_app. split_and!; [done|set_solver|].
    apply NoDup_cons in HT as [Hy' HT]. do 2 (apply NoDup_cons; split; [set_solver|]). done. }
  pose proof (link_merge_heap h1 bs p P y c x new T Hc1 Hnd1 Hns) as Hm. simpl in Hm.
  destruct (link_merge bs c new T.*2) as [l'|f]; [|done].
  destruct Hm as (h' & R & ? & ? & ? & ? & ? & ?). exists h', R.
  split_and!; try done; congruence.
Qed.

(** The functional result of the whole search, seen from the node it stops at. *)
Lemma queue_at_split bs new hd tl0 (P : list (loc * backed_block)) y c T :
  hd :: tl0 = (P ++ (y, c) :: T).*2 -> bb_block hd <= bb_block new ->
  Forall (fun d => bb_block d < bb_block new) (tail (P.*2 ++ [c])) ->
  match T with [] => True | (_, d) :: _ => bb_block new <= bb_block d end ->
  queue bs (hd :: tl0) new = let! r := link_merge bs c new T.*2 in Done (P.*2 ++ r).
Proof.
  intros Heq Hhd Hlt Hge. unfold queue. zdec. apply queue_from_split; [|done|].
  - rewrite Heq, fmap_app. done.
  - by destruct T as [|[? ?] ?].
Qed.

Lemma queue_bb_tail h bbl hx x hd new start y :
  data_blocks bbl = Some hx -> load h (Some hx) = Done hd ->
  load h (Some x) = Done new -> bb_block (n_bb hd) <= bb_block (n_bb new) ->
  match last_used bbl with
  | Some lu => let! ln := load h (Some lu) in
               Done (if bb_block (n_bb ln) <? bb_block (n_bb new) then lu else hx)
  | None => Done hx
  end = Done start ->
  search_loop (loop_fuel h) h start (bb_block (n_bb new)) = Done y ->
  queue_bb h bbl x =
    let! h' := queue_tail h (block_size bbl) y x in
    Done (h', mk_bbl (Some hx) (Some x) (block_size bbl), 0).
Proof.
  intros Hd Hhd Hx Hle Hst Hse. unfold queue_bb, queue_tail. rewrite Hd, Hhd. cbn [obind].
  rewrite Hx. cbn [obind]. zdec. rewrite Hst. cbn [obind]. rewrite Hse. cbn [obind].
  destruct (load h (Some y)) as [bn|]; [|done]. cbn [obind].
  destruct (match n_next bn with None => _ | _ => _ end) as [h1|]; [|done]. cbn [obind].
  destruct (load h1 (Some x)) as [nn|]; [|done]. cbn [obind].
  destruct (merge_bb h1 _ _ _) as [[h2 r2]|]; [|done]. simpl.
  by destruct (merge_bb h2 _ _ _) as [[h3 r3]|].
Qed.

Lemma queue_bb_head h bbl hx hd x new T :
  data_blocks bbl = Some hx ->
  chain (nodes h) (Some hx) ((hx, hd) :: T) None -> nodes h !! x = Some (mk_node new None) ->
  x ∉ ((hx, hd) :: T).*1 -> bb_block new < bb_block hd ->
  exists h', queue_bb h bbl x =
      Done (h', mk_bbl (Some x) (last_used bbl) (block_size bbl), 0) /\
    chain (nodes h') (Some x) ((x, new) :: (hx, hd) :: T) None /\ strs h' = strs h.
Proof.
  intros Hd Hc Hx Hxl Hlt. pose proof Hc as (_ & nx & Hhd & HT).
  unfold queue_bb. rewrite Hd. simpl. rewrite Hhd. simpl. rewrite Hx. simpl. zdec.
  unfold set_next; simpl. rewrite Hx. simpl. eexists; split; [done|]. split; [|done].
  split; [done|]. exists (Some hx). simpl. rewrite lookup_insert_eq. split; [done|].
  apply (chain_insert _ x _ (Some hx) ((hx, hd) :: T)); [done|]. exact Hc.
Qed.

(** [last_used] is null, a queued node, or a node that has been freed. *)
Definition last_used_state (h : heap) (bbl : backed_block_list) (l : list loc) : Prop :=
  match last_used bbl with None => True | Some lu => lu ∈ l \/ nodes h !! lu = None end.

(** What a successful [queue_bb] leaves behind. *)
Definition queued (h : heap) (bbl : backed_block_list) (l' : list backed_block)
    (r : outcome (heap * backed_block_list * Z)) : Prop :=
  exists h' bbl' L', r = Done (h', bbl', 0) /\ rep h' bbl' L' /\ L'.*2 = l' /\
    block_size bbl' = block_size bbl /\ strs h' = strs h /\ last_used_state h' bbl' L'.*1.

Lemma queue_bb_search h bbl hx hd T x new :
  data_blocks bbl = Some hx ->
  chain (nodes h) (Some hx) ((hx, hd) :: T) None -> NoDup ((hx, hd) :: T).*1 ->
  sorted_blocks (hd :: T.*2) -> nodes h !! x = Some (mk_node new None) ->
  x ∉ ((hx, hd) :: T).*1 -> bb_block hd <= bb_block new ->
  last_used_ok bbl ((hx, hd) :: T).*1 x -> no_shared_name new (hd :: T.*2) ->
  match queue (block_size bbl) (hd :: T.*2) new with
  | Crash f => queue_bb h bbl x = Crash f
  | Done l' => queued h bbl l' (queue_bb h bbl x)
  end.
Proof.
  intros Hd Hc Hnd Hs Hx Hxl Hle Hlu Hns.
  destruct (start_spec h bbl hx hd T x new Hc Hs Hx Hlu) as (P0 & s & sb & Q & Heq & Hst & Hpre).
  pose proof Hc as Hc0. rewrite Heq in Hc0. apply chain_app in Hc0 as (r & HP0 & Hcs).
  assert (r = Some s) as -> by apply Hcs.
  destruct (search_loop_spec h (loop_fuel h) s sb Q (bb_block new) Hcs)
    as (t1 & y & c & t2 & Heq2 & Hse & Hlt & Hge).
  { pose proof (chain_subset _ _ _ _ Hc Hnd) as Hsz. rewrite Heq in Hsz.
    rewrite length_app in Hsz. simpl in Hsz. unfold loop_fuel. lia. }
  set (P := P0 ++ t1). assert (HL : (hx, hd) :: T = P ++ (y, c) :: t2).
  { unfold P. by rewrite Heq, Heq2, app_assoc. }
  assert (Hnode : load h (Some hx) = Done (mk_node hd (n_next (default (mk_node hd None) (nodes h !! hx))))).
  { destruct Hc as (_ & nx & Hh & _). simpl. by rewrite Hh. }
  rewrite (queue_bb_tail h bbl hx x _ (mk_node new None) s y Hd Hnode); simpl;
    [|by rewrite Hx|done|done|done].
  rewrite (queue_at_split (block_size bbl) new hd T.*2 P y c t2);
    [|change (hd :: T.*2) with (((hx, hd) :: T).*2); by rewrite HL|done| |done].
  2:{ unfold P. rewrite fmap_app, <- app_assoc. destruct Hpre as [->|Hpre]; [done|].
      apply Forall_app in Hpre as [HF1 HF2]. destruct P0 as [|p0 P0]; [done|]. simpl in *.
      apply Forall_cons in HF1 as [_ HF1]. apply Forall_app. split; [done|].
      destruct t1 as [|[? ?] t1]; simpl in *; injection Heq2 as ? ? ?; subst; constructor; try done;
        by inversion HF2. }
  rewrite HL in Hc, Hnd, Hxl.
  pose proof (queue_tail_spec h (block_size bbl) (Some hx) P y c t2 x new Hc Hnd Hx Hxl) as Hq.
  assert (Hsub : no_shared_name new (c :: t2.*2)).
  { eapply no_shared_name_sub; [|exact Hns]. change (hd :: T.*2) with (((hx, hd) :: T).*2).
    rewrite HL, fmap_app. simpl. set_solver. }
  specialize (Hq Hsub). destruct (link_merge _ c new t2.*2) as [l'|f]; simpl; [|by rewrite Hq].
  destruct Hq as (h' & R & -> & Hch & HR & HndR & Hlast & Hstr). simpl.
  eexists h', _, (P ++ R). split; [done|]. simpl. split_and!; [by split|by rewrite fmap_app, HR|done|done|].
  unfold last_used_state; simpl.
  destruct Hlast as [Hin|]; [left; rewrite fmap_app; set_solver|by right].
Qed.

Lemma alloc_queue_refines h bbl L x new :
  rep h bbl L -> sorted_blocks L.*2 -> nodes h !! x = None ->
  last_used_ok bbl L.*1 x -> no_shared_name new L.*2 ->
  match queue (block_size bbl) L.*2 new with
  | Crash f => alloc_queue h bbl (Some x) new = Crash f
  | Done l' => queued h bbl l' (alloc_queue h bbl (Some x) new)
  end.
Proof.
  intros [Hc Hnd] Hs Hfr Hlu Hns.
  set (h1 := store h x (mk_node new None)). unfold alloc_queue. fold h1.
  assert (Hxl : x ∉ L.*1).
  { intros Hin. destruct (chain_lookup _ _ _ _ _ Hc Hin). congruence. }
  assert (Hc1 : chain (nodes h1) (data_blocks bbl) L None) by (by apply chain_insert).
  assert (Hx1 : nodes h1 !! x = Some (mk_node new None)) by apply lookup_insert_eq.
  destruct L as [|[hx hd] T].
  - simpl in Hc1. unfold queue, queue_bb; simpl. rewrite Hc1.
    eexists h1, _, [(x, new)]. split; [done|]. split_and!; try done.
    + split; [|by apply NoDup_singleton]. simpl. split; [done|]. by exists None.
    + unfold last_used_state, last_used_ok in *; simpl in *.
      destruct (last_used bbl); [|done]. left. set_solver.
  - assert (Hd : data_blocks bbl = Some hx) by apply Hc1. rewrite Hd in Hc1.
    destruct (Z.lt_ge_cases (bb_block new) (bb_block hd)) as [Hlt|Hge].
    + destruct (queue_bb_head h1 bbl hx hd x new T Hd Hc1 Hx1 Hxl Hlt) as (h' & -> & Hc' & Hs').
      unfold queue; simpl. zdec. eexists h', _, ((x, new) :: (hx, hd) :: T).
      split; [done|]. split_and!; try done.
      * split; [done|]. simpl. by apply NoDup_cons.
      * unfold last_used_state, last_used_ok in *; simpl in *.
        destruct (last_used bbl); [|done]. left. set_solver.
    + by apply (queue_bb_search h1 bbl hx hd T x new).
Qed.

(** C38.  The pointer code of [queue_bb] computes the functional insertion.  On a
    heap that holds the sorted list [L], with a fresh node and [last_used]
    null, queued, or equal to the new node, the call returns 0 and leaves the
    list [queue] computes, or fails the assertion [queue] fails. *)
Theorem queue_bb_refines h bbl L x new :
  rep h bbl L -> sorted_blocks L.*2 -> nodes h !! x = None ->
  last_used_ok bbl L.*1 x -> no_shared_name new L.*2 ->
  match queue (block_size bbl) L.*2 new with
  | Crash f => alloc_queue h bbl (Some x) new = Crash f
  | Done l' => queued h bbl l' (alloc_queue h bbl (Some x) new)
  end.
Proof. apply alloc_queue_refines. Qed.

(** ** Sequences of additions under an allocator that reuses freed cells first *)

Lemma wf_from_sorted bs lo l : 0 < bs -> wf_from bs lo l -> sorted_blocks l.
Proof.
  intros Hbs. assert (Hlow : forall l lo, wf_from bs lo l -> Forall (fun b => lo <= bb_block b) l).
  { clear l lo. intros l. induction l as [|b l IH]; intros lo; simpl; [by constructor|].
    intros (Hle & Hb & Hl). constructor; [done|].
    pose proof (bb_blocks_pos bs Hbs b Hb). eapply Forall_impl; [exact (IH _ Hl)|].
    simpl. unfold bb_end. intros; lia. }
  revert lo. induction l as [|b l IH]; intros lo; simpl; [constructor|].
  intros (_ & Hb & Hl). constructor; [by eapply IH|].
  pose proof (bb_blocks_pos bs Hbs b Hb). eapply Forall_impl; [exact (Hlow _ _ Hl)|].
  simpl. unfold bb_end. intros; lia.
Qed.











(** ** Destruction *)

Definition name_of (b : backed_block) : option loc :=
  match bb_payload b with BLOCK_FILE f _ => Some f | _ => None end.

(** Every file name is live and owned by one node. *)
Definition names_owned (h : heap) (l : list backed_block) : Prop :=
  NoDup (omap name_of l) /\ Forall (fun f => is_Some (strs h !! f)) (omap name_of l).

Lemma destroy_head h x b nx l :
  nodes h !! x = Some (mk_node b nx) -> names_owned h (b :: l) ->
  exists s', backed_block_destroy h x = Done (mk_heap (delete x (nodes h)) s') /\
    names_owned (mk_heap (delete x (nodes h)) s') l /\
    forall f, s' !! f = if bool_decide (name_of b = Some f) then None else strs h !! f.
Proof.
  intros Hx [Hnd Hlive]. unfold backed_block_destroy; simpl. rewrite Hx. simpl.
  unfold names_owned, name_of in *. simpl in *. destruct (bb_payload b) as [d|g o|fd o|v] eqn:E;
    simpl in *.
  2:{ apply NoDup_cons in Hnd as [Hg Hnd]. apply Forall_cons in Hlive as [[s Hs] Hlive].
      unfold free_str. rewrite Hs. simpl. unfold free_node; simpl. rewrite Hx.
      eexists; split; [done|]. split; [split; [done|]|].
      - simpl. rewrite Forall_forall in *. intros f Hf. rewrite lookup_delete_ne; [auto|].
        intros ->. done.
      - intros f. rewrite lookup_delete. repeat case_decide; repeat case_bool_decide; congruence. }
  all: unfold free_node; rewrite Hx; eexists; split; [done|]; split; done.
Qed.

Lemma destroy_loop_spec fuel h p L :
  chain (nodes h) p L None -> NoDup L.*1 -> names_owned h L.*2 -> (length L < fuel)%nat ->
  exists h', destroy_loop fuel h p = Done h' /\
    (forall x, nodes h' !! x = if bool_decide (x ∈ L.*1) then None else nodes h !! x) /\
    (forall f, strs h' !! f = if bool_decide (f ∈ omap name_of L.*2) then None else strs h !! f).
Proof.
  revert fuel h p. induction L as [|[x b] L IH]; intros fuel h p Hc Hnd Hown Hf.
  { simpl in Hc. subst p. exists h. split; [by destruct fuel|]. split; intros y;
      (rewrite bool_decide_eq_false_2; [done|apply not_elem_of_nil]). }
  destruct fuel as [|fuel]; [lia|]. destruct Hc as (-> & nx & Hx & Hc).
  apply NoDup_cons in Hnd as [Hxl Hnd].
  destruct (destroy_head h x b nx L.*2 Hx Hown) as (s' & Hd & Hown' & Hs').
  simpl. rewrite Hx. simpl. rewrite Hd. simpl.
  destruct (IH fuel (mk_heap (delete x (nodes h)) s') nx) as (h' & -> & Hn & Hs);
    [by apply chain_delete|done|done|simpl in Hf; lia|].
  exists h'. split_and!; [done| |].
  - intros y. rewrite Hn. simpl. rewrite lookup_delete.
    repeat case_bool_decide; repeat case_decide; set_solver.
  - intros f. rewrite Hs. simpl. rewrite Hs'. destruct (name_of b) as [g|] eqn:Eg; simpl;
      repeat case_bool_decide; set_solver.
Qed.

(**  [backed_block_list_destroy] frees every node and every file name of the
    list exactly once and nothing else, provided each file name has one owner. *)
Theorem list_destroy_frees h bbl L :
  rep h bbl L -> names_owned h L.*2 ->
  exists h', backed_block_list_destroy h bbl = Done h' /\
    (forall x, nodes h' !! x = if bool_decide (x ∈ L.*1) then None else nodes h !! x) /\
    (forall f, strs h' !! f = if bool_decide (f ∈ omap name_of L.*2) then None else strs h !! f).
Proof.
  intros [Hc Hnd] Hown. apply destroy_loop_spec; [done..|].
  pose proof (chain_subset _ _ _ _ Hc Hnd). unfold loop_fuel. lia.
Qed.

(** ** Splitting a queued node *)

(**  [backed_block_split] replaces the node by its two halves in place: the
    list still represents the same map from block numbers to contents. *)
Theorem backed_block_split_refines h bbl P x b T max_len y :
  0 < block_size bbl -> rep h bbl (P ++ (x, b) :: T) -> wf_bb (block_size bbl) b ->
  is_u32 max_len -> nodes h !! y = None ->
  exists h' S, backed_block_split h bbl x max_len (Some y) = Done (h', 0) /\
    rep h' bbl (P ++ S ++ T) /\ strs h' = strs h /\
    (S = [(x, b)] /\ bb_len b <= max_len \/
     exists b1 b2, S = [(x, b1); (y, b2)] /\ bb_len b1 = ALIGN_DOWN max_len (block_size bbl) /\
       bb_len b1 + bb_len b2 = bb_len b) /\
    forall k, view (block_size bbl) S.*2 k = view (block_size bbl) [b] k.
Proof.
  intros Hbs [Hc Hnd] Hwf Hm Hy. pose proof Hc as Hc0.
  apply chain_app in Hc0 as (r & HP & (-> & nx & Hx & HT)).
  unfold backed_block_split; simpl. rewrite Hx. simpl.
  destruct (try_split_spec (block_size bbl) Hbs b max_len Hwf Hm) as (s & -> & Hnone & Hsome).
  simpl. destruct s as [[b1 b2]|].
  2:{ exists h, [(x, b)]. split_and!; try done. left. auto. }
  destruct (Hsome b1 b2 eq_refl) as (Hb1 & Hl1 & Hsum & He1 & He2 & Hwf2 & Hv).
  assert (Hyl : y ∉ (P ++ (x, b) :: T).*1).
  { intros Hin. destruct (chain_lookup _ _ _ _ _ Hc Hin). congruence. }
  rewrite fmap_app in Hnd, Hyl. simpl in Hnd, Hyl.
  apply NoDup_app in Hnd as (HndP & HPT & [HxT HndT]%NoDup_cons).
  assert (Hxy : x <> y) by set_solver.
  eexists _, [(x, b1); (y, b2)]. split; [done|]. split_and!; [split| |right; eauto|done]; [| |done].
  - apply chain_app. exists (Some x). split; [apply chain_insert, chain_insert; set_solver|].
    simpl. split; [done|]. exists (Some y). rewrite lookup_insert_eq. split; [done|].
    split; [done|]. exists nx. rewrite lookup_insert_ne, lookup_insert_eq by done. split; [done|].
    apply chain_insert, chain_insert; set_solver.
  - rewrite fmap_app. simpl. apply NoDup_app. split_and!; [done|set_solver|].
    do 2 (apply NoDup_cons; split; [set_solver|]). done.
Qed.

(** ** Moving a segment between lists *)

(** Where [backed_block_list_move] puts the segment [s], whose first block
    number is [blk], into a list that is not empty: never before its head. *)
Fixpoint move_into (blk : Z) (s l : list (loc * backed_block)) : list (loc * backed_block) :=
  match l with
  | [] => s
  | b :: t =>
      match t with
      | [] => b :: s
      | nx :: _ => if blk <? bb_block nx.2 then b :: s ++ t else b :: move_into blk s t
      end
  end.

Lemma chain_set_next h p l x b q q' :
  chain (nodes h) p (l ++ [(x, b)]) q -> NoDup (l ++ [(x, b)]).*1 ->
  exists h', set_next h x q' = Done h' /\ nodes h' = <[x := mk_node b q']> (nodes h) /\
    strs h' = strs h /\ chain (nodes h') p (l ++ [(x, b)]) q'.
Proof.
  intros Hc Hnd. apply chain_app in Hc as (r & Hl & (-> & nx & Hx & ->)).
  unfold set_next; simpl. rewrite Hx. simpl. eexists; split; [done|]. simpl.
  split_and!; [done..|]. rewrite fmap_app in Hnd. apply NoDup_app in Hnd as (_ & Hn & _).
  apply chain_app. exists (Some x). split; [apply chain_insert; set_solver|].
  simpl. split; [done|]. exists q'. by rewrite lookup_insert_eq.
Qed.

Lemma last_of_spec h fuel x b t :
  chain (nodes h) (Some x) ((x, b) :: t) None -> (length t < fuel)%nat ->
  exists e, last_of fuel h x = Done e /\ last ((x, b) :: t).*1 = Some e.
Proof.
  revert x b fuel. induction t as [|[y c] t IH]; intros x b [|fuel] Hc Hf; simpl in Hf; try lia;
    destruct Hc as (_ & nx & Hx & Hc); simpl; rewrite Hx; simpl.
  - simpl in Hc. subst nx. eauto.
  - pose proof Hc as (-> & _). apply (IH y c fuel); [exact Hc|lia].
Qed.

Lemma unlink_loop_spec h fuel p P0 x b S Q s sb after :
  chain (nodes h) p (P0 ++ [(x, b)]) (Some s) -> chain (nodes h) (Some s) ((s, sb) :: S) after ->
  chain (nodes h) after Q None -> NoDup (P0 ++ (x, b) :: (s, sb) :: S ++ Q).*1 ->
  (length P0 < fuel)%nat ->
  unlink_loop fuel h p s after = set_next h x after.
Proof.
  revert p fuel. induction P0 as [|[y c] P0 IH]; intros p fuel HP HS HQ Hnd Hf.
  - destruct HP as (-> & nx & Hx & ->). destruct fuel as [|fuel]; [simpl in Hf; lia|].
    simpl. rewrite Hx. simpl. by rewrite bool_decide_eq_true_2.
  - destruct HP as (-> & nx & Hy & HP). destruct fuel as [|fuel]; [simpl in Hf; lia|].
    simpl in Hnd. apply NoDup_cons in Hnd as [Hyn Hnd].
    simpl. rewrite Hy. simpl. rewrite bool_decide_eq_false_2.
    + apply (IH nx fuel); try done. simpl in Hf. lia.
    + intros ->. assert (Hin : s ∈ (P0 ++ [(x, b)]).*1).
      { destruct P0 as [|[z d] P0]; simpl in HP; destruct HP as ([= ->] & _); set_solver. }
      change ((x, b) :: (s, sb) :: S ++ Q) with ([(x, b)] ++ (s, sb) :: S ++ Q) in Hnd.
      rewrite app_assoc, fmap_app in Hnd. apply NoDup_app in Hnd as (_ & Hd & _).
      apply (Hd s Hin). set_solver.
Qed.

Lemma relink_loop_spec h fuel p B S0 e eb q s sb S :
  B <> [] -> chain (nodes h) p B None ->
  (s, sb) :: S = S0 ++ [(e, eb)] -> chain (nodes h) (Some s) (S0 ++ [(e, eb)]) q ->
  NoDup (B ++ S0 ++ [(e, eb)]).*1 -> (length B <= fuel)%nat ->
  exists h', relink_loop fuel h p s e = Done h' /\ strs h' = strs h /\
    chain (nodes h') p (move_into (bb_block sb) (S0 ++ [(e, eb)]) B) None /\
    forall y, y ∉ (B ++ S0 ++ [(e, eb)]).*1 -> nodes h' !! y = nodes h !! y.
Proof.
  intros HB. revert p fuel. induction B as [|[x b] T IH]; intros p fuel Hc HS Hcs Hnd Hf; [done|].
  clear HB. destruct fuel as [|fuel]; [simpl in Hf; lia|].
  destruct Hc as (-> & nx & Hx & HT). simpl. rewrite Hx. simpl.
  assert (Hs : exists ns, nodes h !! s = Some (mk_node sb ns)).
  { rewrite <- HS in Hcs. destruct Hcs as (_ & ns & ? & _). eauto. }
  destruct Hs as [ns Hs].
  simpl in Hnd. apply NoDup_cons in Hnd as [Hxn Hnd].
  assert (HndS : NoDup (S0 ++ [(e, eb)]).*1)
    by (rewrite fmap_app in Hnd; by apply NoDup_app in Hnd as (_ & _ & ?)).
  (* inserting right here *)
  assert (Hhere : exists h', (let! h0 := set_next h e nx in set_next h0 x (Some s)) = Done h' /\
      strs h' = strs h /\ chain (nodes h') (Some x) ((x, b) :: (S0 ++ [(e, eb)]) ++ T) None /\
      forall y, y ∉ (((x, b) :: T) ++ S0 ++ [(e, eb)]).*1 -> nodes h' !! y = nodes h !! y).
  { destruct (chain_set_next h (Some s) S0 e eb q nx Hcs HndS) as (h1 & -> & Hn1 & Hs1 & Hc1).
    assert (Hxe : x <> e) by (intros ->; apply Hxn; rewrite !fmap_app; set_solver).
    simpl. unfold set_next; simpl. rewrite Hn1, lookup_insert_ne, Hx by done. simpl.
    eexists; split; [done|]. simpl. split_and!; [done|done| |].
    - exists (Some s). rewrite lookup_insert_eq. split; [done|]. apply chain_app. exists nx. split.
      + apply chain_insert; [rewrite fmap_app in Hxn; set_solver|]. exact Hc1.
      + apply chain_insert; [rewrite fmap_app in Hxn; set_solver|].
        rewrite Hn1. apply chain_insert; [|done]. rewrite !fmap_app in Hnd.
        apply NoDup_app in Hnd as (_ & Hd & _). set_solver.
    - intros y Hy. rewrite !fmap_app in Hy. rewrite Hn1, !lookup_insert_ne; [done|set_solver..]. }
  destruct T as [|[z d] T].
  { simpl in HT. subst nx. simpl. destruct Hhere as (h' & Hh & Hst & Hch & Hfr).
    exists h'. rewrite app_nil_r in Hch. split; [exact Hh|]. split; [done|].
    split; [exact Hch|exact Hfr]. }
  pose proof HT as (-> & nz & Hz & _). rewrite Hz. cbn [obind n_bb]. rewrite Hs. cbn [obind n_bb].
  destruct (bb_block sb <? bb_block d) eqn:Hlt; simpl; rewrite Hlt; [exact Hhere|].
  destruct (IH ltac:(done) (Some z) fuel) as (h' & Hr & Hst & Hch & Hfr); [exact HT|done|done|done|simpl in Hf |- *; lia|].
  exists h'. split; [exact Hr|]. split; [exact Hst|]. split.
  - split; [done|]. exists (Some z). split; [|exact Hch].
    rewrite Hfr; [done|]. exact Hxn.
  - intros y Hy. apply Hfr. set_solver.
Qed.

Lemma move_into_fst blk s l :
  l <> [] -> (move_into blk s l).*1 ≡ₚ (l ++ s).*1.
Proof.
  induction l as [|b t IH]; intros Hl; [done|]. simpl. destruct t as [|nx t]; [done|].
  destruct (blk <? bb_block nx.2); simpl.
  - f_equiv. change (fst nx :: (t ++ s).*1) with (((nx :: t) ++ s).*1).
    rewrite !fmap_app. apply Permutation_app_comm.
  - f_equiv. by apply IH.
Qed.

(** First half of [backed_block_list_move]: take the segment out of [from]. *)
Lemma unlink_segment h from P s sb S0 e eb Q B :
  rep h from (P ++ (S0 ++ [(e, eb)]) ++ Q) -> head (S0 ++ [(e, eb)]) = Some (s, sb) ->
  NoDup ((P ++ (S0 ++ [(e, eb)]) ++ Q) ++ B).*1 ->
  forall p, chain (nodes h) p B None ->
  exists q h1 from1, load h (Some e) = Done (mk_node eb q) /\
    (if bool_decide (data_blocks from = Some s)
     then Done (h, mk_bbl q None (block_size from))
     else let! h0 := unlink_loop (loop_fuel h) h (data_blocks from) s q in
          Done (h0, mk_bbl (data_blocks from) None (block_size from))) = Done (h1, from1) /\
    chain (nodes h1) (data_blocks from1) (P ++ Q) None /\ last_used from1 = None /\
    chain (nodes h1) (Some s) (S0 ++ [(e, eb)]) q /\ chain (nodes h1) p B None /\
    strs h1 = strs h.
Proof.
  intros [Hc Hnd0] Hhd Hnd p HB. pose proof Hc as Hall.
  apply chain_app in Hc as (r & HP & Hc). apply chain_app in Hc as (q & HS & HQ).
  assert (r = Some s) as ->.
  { destruct (S0 ++ [(e, eb)]) as [|[? ?] ?]; [done|]. injection Hhd as -> ->. apply HS. }
  assert (He : nodes h !! e = Some (mk_node eb q)).
  { apply chain_app in HS as (? & _ & (_ & nx & He & ->)). done. }
  exists q. replace (load h (Some e)) with (Done (mk_node eb q)) by (simpl; by rewrite He).
  destruct P as [|[x b] P0 _] using rev_ind.
  { simpl in HP. rewrite bool_decide_eq_true_2 by done. by eexists _, _. }
  assert (Hin : s ∈ (S0 ++ [(e, eb)]).*1).
  { destruct (S0 ++ [(e, eb)]) as [|[? ?] ?]; [done|]. injection Hhd as -> ->. set_solver. }
  rewrite fmap_app in Hnd. apply NoDup_app in Hnd as (_ & HdB & HndB).
  pose proof Hnd0 as Hnd1. rewrite fmap_app in Hnd1. apply NoDup_app in Hnd1 as (HndP & HdP & HndSQ).
  rewrite bool_decide_eq_false_2.
  2:{ intros Heq. rewrite Heq in HP. apply (HdP s); [|rewrite fmap_app; apply elem_of_app; by left].
      destruct P0 as [|[y c] P1]; destruct HP as (Hs & _); injection Hs as ->; simpl; set_solver. }
  destruct (chain_set_next h _ P0 x b (Some s) q HP HndP) as (h1 & Hset & Hn1 & Hs1 & Hc1).
  assert (Hun : unlink_loop (loop_fuel h) h (data_blocks from) s q = set_next h x q).
  { destruct (S0 ++ [(e, eb)]) as [|[s' sb'] S1] eqn:ES; [done|]. injection Hhd as -> ->.
    eapply (unlink_loop_spec h _ _ P0 x b S1 Q s sb); try done.
    - by rewrite <- app_assoc in Hnd0.
    - pose proof (chain_subset _ _ _ _ Hall Hnd0) as Hsz. rewrite !length_app in Hsz.
      simpl in Hsz. unfold loop_fuel. lia. }
  rewrite Hun, Hset. simpl. eexists h1, _. split; [done|]. split; [done|]. simpl.
  assert (Hfr : forall l a c, x ∉ l.*1 -> chain (nodes h) a l c -> chain (nodes h1) a l c).
  { intros l a c Hx Hl. rewrite Hn1. by apply chain_insert. }
  assert (Hx : x ∈ (P0 ++ [(x, b)]).*1) by (rewrite fmap_app; set_solver).
  split_and!; [apply chain_app; exists q; split; [done|]|done| | |done]; apply Hfr; try done.
  - intros Hq. apply (HdP x Hx). rewrite fmap_app. apply elem_of_app. by right.
  - intros Hq. apply (HdP x Hx). rewrite fmap_app. apply elem_of_app. by left.
  - intros Hq. apply (HdB x); [rewrite fmap_app; apply elem_of_app; by left|done].
Qed.

(**  [backed_block_list_move] takes the segment from [start] to [end] (the
    whole list when they are null) out of [from] and links it into [to]: both
    lists stay well linked, no node is lost, and the cached pointers of both
    lists are reset. *)
Theorem backed_block_list_move_refines h from to P s sb S0 e eb Q B st en :
  rep h from (P ++ (S0 ++ [(e, eb)]) ++ Q) -> rep h to B ->
  NoDup ((P ++ (S0 ++ [(e, eb)]) ++ Q) ++ B).*1 ->
  head (S0 ++ [(e, eb)]) = Some (s, sb) ->
  st = Some s \/ (st = None /\ P = []) -> en = Some e \/ (en = None /\ Q = []) ->
  exists h' from' to', backed_block_list_move h from to st en = Done (h', from', to') /\
    rep h' from' (P ++ Q) /\ rep h' to' (move_into (bb_block sb) (S0 ++ [(e, eb)]) B) /\
    last_used from' = None /\ last_used to' = None /\ strs h' = strs h.
Proof.
  intros Hf [HB HndB] Hnd Hhd Hst Hen. pose proof Hf as [Hc Hnd0].
  destruct (unlink_segment h from P s sb S0 e eb Q B Hf Hhd Hnd _ HB)
    as (q & h1 & from1 & Hle & Hun & HPQ & Hlu & HS & HB1 & Hs1).
  unfold backed_block_list_move.
  assert (Est : match st with None => data_blocks from | Some _ => st end = Some s).
  { destruct Hst as [->|[-> ->]]; [done|]. simpl in Hc.
    destruct (S0 ++ [(e, eb)]) as [|[? ?] ?]; [done|]. injection Hhd as -> ->. apply Hc. }
  rewrite Est.
  assert (Een : match en with Some _ => Done en
      | None => let! e0 := last_of (loop_fuel h) h s in Done (Some e0) end = Done (Some e)).
  { destruct Hen as [->|[-> ->]]; [done|]. rewrite app_nil_r in Hc, Hnd0.
    pose proof (chain_subset _ _ _ _ Hc Hnd0) as Hsz.
    apply chain_app in Hc as (r & _ & Hc). destruct (S0 ++ [(e, eb)]) as [|[s' sb'] S1] eqn:ES; [done|].
    injection Hhd as -> ->. assert (r = Some s) as -> by apply Hc.
    destruct (last_of_spec h (loop_fuel h) s sb S1 Hc) as (e' & -> & Hl).
    { rewrite length_app in Hsz. simpl in Hsz. unfold loop_fuel. lia. }
    rewrite <- ES, fmap_app in Hl. change ([(e, eb)].*1) with [e] in Hl.
    rewrite last_snoc in Hl. by injection Hl as ->. }
  rewrite Een. cbn [obind]. rewrite Hle. cbn [obind n_next]. cbn [data_blocks block_size last_used].
  rewrite Hun. cbn [obind].
  pose proof Hnd as Hnd2. rewrite fmap_app in Hnd2. apply NoDup_app in Hnd2 as (_ & HdB & _).
  assert (HndS : NoDup (S0 ++ [(e, eb)]).*1).
  { rewrite !fmap_app in Hnd0. apply NoDup_app in Hnd0 as (_ & _ & Hn).
    apply NoDup_app in Hn as (Hn & _). by rewrite fmap_app. }
  assert (HdPQ : forall y, y ∈ (P ++ Q).*1 -> y ∉ (B ++ S0 ++ [(e, eb)]).*1).
  { clear -Hnd0 HdB. intros y Hy. rewrite fmap_app in Hnd0.
    apply NoDup_app in Hnd0 as (_ & HPS & Hn). rewrite fmap_app in Hn.
    apply NoDup_app in Hn as (_ & HSQ & _).
    specialize (HPS y). specialize (HdB y). specialize (HSQ y).
    repeat (rewrite ?fmap_app in *; rewrite ?elem_of_app in *). naive_solver. }
  assert (HndPQ : NoDup (P ++ Q).*1).
  { eapply sublist_NoDup; [exact Hnd0|]. rewrite !fmap_app. apply sublist_app; [done|].
    by apply sublist_inserts_l. }
  destruct B as [|[bx bb] B'].
  - simpl in HB. rewrite HB.
    destruct (chain_set_next h1 _ S0 e eb q None HS HndS) as (h2 & -> & Hn2 & Hs2 & Hc2).
    simpl. eexists h2, from1, _. split; [done|]. split_and!; try done; [split; [|done]|congruence].
    rewrite Hn2. apply chain_insert; [|done]. intros Hin. apply (HdPQ e Hin).
    rewrite !fmap_app. apply elem_of_app. right.
    apply elem_of_app. right. apply list_elem_of_here.
  - assert (Hd : data_blocks to = Some bx) by apply HB. rewrite Hd. rewrite Hd in HB1.
    destruct (S0 ++ [(e, eb)]) as [|[s' sb'] S1] eqn:ES; [done|]. injection Hhd as -> ->.
    assert (HndBS : NoDup (((bx, bb) :: B') ++ S0 ++ [(e, eb)]).*1).
    { rewrite fmap_app. apply NoDup_app. split_and!; [done| |by rewrite ES].
      intros y Hy HyS. rewrite ES in HyS. apply (HdB y); [|done]. rewrite fmap_app.
      apply elem_of_app. right. rewrite fmap_app. apply elem_of_app. by left. }
    rewrite <- ES in HS.
    destruct (relink_loop_spec h1 (loop_fuel h1) (Some bx) ((bx, bb) :: B') S0 e eb q s sb S1)
      as (h2 & -> & Hs2 & Hc2 & Hfr); [done|done|done|done|done| |].
    { apply (chain_subset _ _ _ _ HB1) in HndB. unfold loop_fuel. lia. }
    cbn [obind]. eexists h2, from1, _. split; [done|]. rewrite ES in Hc2.
    split_and!; [split|split| |done|congruence]; try done.
    + eapply chain_frame; [|exact HPQ]. intros y Hy. apply Hfr. rewrite ES. auto.
    + rewrite move_into_fst by done. by rewrite <- ES.
Qed.

(** ** Two memory errors *)

(**  With an allocator that does not hand out the freed node next, queueing
    three adjacent fill blocks reads freed memory: the second call merges the
    new node into its predecessor and frees it while [last_used] still points
    to it, and the third call reads [last_used->block]. *)
Theorem queue_bb_use_after_free :
  (let h := mk_heap ∅ ∅ in
   let bbl := backed_block_list_new 4096 in
   let! (h, bbl, _) := backed_block_add_fill h bbl (Some 1%positive) 0 4096 0 in
   let! (h, bbl, _) := backed_block_add_fill h bbl (Some 2%positive) 0 4096 1 in
   backed_block_add_fill h bbl (Some 3%positive) 0 4096 2) = Crash UseAfterFree.
Proof. vm_compute. reflexivity. Qed.

(**  Splitting a file-backed block copies the pointer to its name into both
    halves, so destroying the list frees the name twice. *)
Theorem split_file_double_free :
  (let h := mk_heap ∅ ∅ in
   let bbl := backed_block_list_new 4096 in
   let! (h, bbl, _) := backed_block_add_file h bbl (Some 1%positive) 1%positive "system.img" 0 8192 0 in
   let! (h, _) := backed_block_split h bbl 1%positive 4096 (Some 2%positive) in
   backed_block_list_destroy h bbl) = Crash DoubleFree.
Proof. vm_compute. reflexivity. Qed.

(** ** Concrete instances *)

Module Witnesses.
Definition b0 := mk_bb 0 4096 (BLOCK_FILL 7).
Definition b1 := mk_bb 1 4096 (BLOCK_FILL 7).
Definition b5 := mk_bb 5 4096 (BLOCK_FD 3 0).
Definition h0 := mk_heap {[ 1%positive := mk_node b0 (Some 2%positive); 2%positive := mk_node b5 None ]} ∅.
Definition bbl0 := mk_bbl (Some 1%positive) (Some 2%positive) 4096.
Definition l0 := [(1%positive, b0); (2%positive, b5)].

Lemma rep0 : rep h0 bbl0 l0.
Proof.
  split; [|by apply (bool_decide_unpack _)]. simpl. split; [done|].
  exists (Some 2%positive). split; [done|]. split; [done|]. by exists None.
Defined.

Lemma queue_bb_refines_witness :
  queued h0 bbl0 [mk_bb 0 8192 (BLOCK_FILL 7); b5] (alloc_queue h0 bbl0 (Some 3%positive) b1).
Proof.
  refine (queue_bb_refines h0 bbl0 l0 3%positive b1 rep0 _ _ _ _).
  - apply (wf_from_sorted 4096 0); [lia|]. concrete.
  - reflexivity.
  - left. apply (bool_decide_unpack _). reflexivity.
  - exact I.
Defined.


Lemma list_destroy_frees_witness :
  exists h', backed_block_list_destroy h0 bbl0 = Done h' /\
    (forall x, nodes h' !! x = if bool_decide (x ∈ l0.*1) then None else nodes h0 !! x) /\
    (forall f, strs h' !! f = if bool_decide (f ∈ omap name_of l0.*2) then None else strs h0 !! f).
Proof. apply (list_destroy_frees h0 bbl0 l0 rep0). split; constructor. Defined.

Lemma backed_block_split_refines_witness :
  exists h' S, backed_block_split h0 bbl0 2%positive 100 (Some 3%positive) = Done (h', 0) /\
    rep h' bbl0 ([(1%positive, b0)] ++ S ++ []) /\ strs h' = strs h0 /\
    (S = [(2%positive, b5)] /\ bb_len b5 <= 100 \/
     exists c1 c2, S = [(2%positive, c1); (3%positive, c2)] /\
       bb_len c1 = ALIGN_DOWN 100 4096 /\ bb_len c1 + bb_len c2 = bb_len b5) /\
    forall k, view 4096 S.*2 k = view 4096 [b5] k.
Proof.
  apply (backed_block_split_refines h0 bbl0 [(1%positive, b0)] 2%positive b5 [] 100 3%positive).
  - reflexivity.
  - exact rep0.
  - concrete.
  - concrete.
  - reflexivity.
Defined.

Lemma backed_block_list_move_refines_witness :
  exists h' from' to', backed_block_list_move h0 bbl0 (backed_block_list_new 4096) None None
      = Done (h', from', to') /\
    rep h' from' [] /\ rep h' to' l0 /\
    last_used from' = None /\ last_used to' = None /\ strs h' = strs h0.
Proof.
  apply (backed_block_list_move_refines h0 bbl0 (backed_block_list_new 4096)
           [] 1%positive b0 [(1%positive, b0)] 2%positive b5 [] [] None None).
  - exact rep0.
  - split; [reflexivity|constructor].
  - by apply (bool_decide_unpack _).
  - reflexivity.
  - by right.
  - by right.
Defined.
End Witnesses.
