(* ===== verification/SparseFormat.v ===== *)
(** * The sparse image format (sparse_format.h)

    The two on-disk structures as records, with the memory image a little-endian
    machine writes for them and reads back. *)
From S2P Require Import Prelude.

Definition SPARSE_HEADER_MAGIC : Z := 0xed26ff3a.
Definition CHUNK_TYPE_RAW : Z := 0xCAC1.
Definition CHUNK_TYPE_FILL : Z := 0xCAC2.
Definition CHUNK_TYPE_DONT_CARE : Z := 0xCAC3.
Definition CHUNK_TYPE_CRC32 : Z := 0xCAC4.

Definition SPARSE_HEADER_MAJOR_VER : Z := 1.
Definition SPARSE_HEADER_MINOR_VER : Z := 0.
Definition SPARSE_HEADER_LEN : Z := 28.
Definition CHUNK_HEADER_LEN : Z := 12.

Record sparse_header := mk_sparse_header {
  magic : Z;
  major_version : Z;
  minor_version : Z;
  file_hdr_sz : Z;
  chunk_hdr_sz : Z;
  blk_sz : Z;
  total_blks : Z;
  total_chunks : Z;
  image_checksum : Z
}.

Record chunk_header := mk_chunk_header {
  chunk_type : Z;
  reserved1 : Z;
  chunk_sz : Z;
  total_sz : Z
}.

Definition sparse_header_bytes (h : sparse_header) : list byte :=
  le_split 4 (magic h) ++ le_split 2 (major_version h) ++ le_split 2 (minor_version h) ++
  le_split 2 (file_hdr_sz h) ++ le_split 2 (chunk_hdr_sz h) ++ le_split 4 (blk_sz h) ++
  le_split 4 (total_blks h) ++ le_split 4 (total_chunks h) ++ le_split 4 (image_checksum h).

Definition chunk_header_bytes (h : chunk_header) : list byte :=
  le_split 2 (chunk_type h) ++ le_split 2 (reserved1 h) ++
  le_split 4 (chunk_sz h) ++ le_split 4 (total_sz h).

(** The field of [n] bytes at offset [o] of a structure. *)
Definition field (o n : nat) (b : list byte) : Z := le_combine (take n (drop o b)).

Definition sparse_header_of_bytes (b : list byte) : sparse_header :=
  mk_sparse_header (field 0 4 b) (field 4 2 b) (field 6 2 b) (field 8 2 b) (field 10 2 b)
    (field 12 4 b) (field 16 4 b) (field 20 4 b) (field 24 4 b).

Definition chunk_header_of_bytes (b : list byte) : chunk_header :=
  mk_chunk_header (field 0 2 b) (field 2 2 b) (field 4 4 b) (field 8 4 b).

Definition sparse_header_ok (h : sparse_header) : Prop :=
  is_u32 (magic h) /\ is_u16 (major_version h) /\ is_u16 (minor_version h) /\
  is_u16 (file_hdr_sz h) /\ is_u16 (chunk_hdr_sz h) /\ is_u32 (blk_sz h) /\
  is_u32 (total_blks h) /\ is_u32 (total_chunks h) /\ is_u32 (image_checksum h).

Definition chunk_header_ok (h : chunk_header) : Prop :=
  is_u16 (chunk_type h) /\ is_u16 (reserved1 h) /\ is_u32 (chunk_sz h) /\ is_u32 (total_sz h).

(** ** Lemmas *)

Lemma length_le_split n z : length (le_split n z) = n.
Proof. apply LittleEndianList.length_le_split. Qed.

Lemma le_combine_split_u32 z : is_u32 z -> le_combine (le_split 4 z) = z.
Proof. intros H. rewrite LittleEndianList.le_combine_split. by apply Z.mod_small. Qed.

Lemma le_combine_split_u16 z : is_u16 z -> le_combine (le_split 2 z) = z.
Proof. intros H. rewrite LittleEndianList.le_combine_split. by apply Z.mod_small. Qed.

(** A field that starts where the first part ends. *)
Lemma field_here n a b : length a = n -> field 0 n (a ++ b) = le_combine a.
Proof. intros <-. unfold field. by rewrite drop_0, take_app_length. Qed.

Lemma field_skip o n m a b : length a = m -> field (m + o) n (a ++ b) = field o n b.
Proof.
  intros <-. unfold field. rewrite drop_app_ge by lia. do 3 f_equal. lia.
Qed.

Lemma field_here_nil n a : length a = n -> field 0 n a = le_combine a.
Proof. intros <-. unfold field. by rewrite drop_0, firstn_all. Qed.

Lemma field_past o n m a b : length a = m -> (m <= o)%nat -> field o n (a ++ b) = field (o - m) n b.
Proof. intros Ha Ho. rewrite <- (field_skip (o - m) n m a b Ha). f_equal. lia. Qed.

(** Walk over the blocks before a field. *)
Ltac walk :=
  repeat first
    [ rewrite field_here by apply length_le_split
    | rewrite field_here_nil by apply length_le_split
    | match goal with |- context [field ?o ?n (?a ++ ?b)] =>
        rewrite (field_past o n _ a b) by first [apply length_le_split | eassumption | cbn; lia]; cbn [Nat.sub]
      end ].

Ltac solve_fields :=
  repeat first
    [ rewrite field_here by apply length_le_split
    | rewrite field_here_nil by apply length_le_split
    | match goal with
      | |- context [field ?o ?n (le_split ?m ?x ++ ?b)] =>
          replace (field o n (le_split m x ++ b)) with (field (o - m) n b)
            by (symmetry; rewrite <- (field_skip (o - m) n m (le_split m x) b)
                  by apply length_le_split; f_equal; lia); simpl (o - m)%nat
      end ].

Lemma sparse_header_roundtrip h :
  sparse_header_ok h -> sparse_header_of_bytes (sparse_header_bytes h) = h.
Proof.
  intros (? & ? & ? & ? & ? & ? & ? & ? & ?).
  unfold sparse_header_of_bytes, sparse_header_bytes. solve_fields.
  rewrite !le_combine_split_u32, !le_combine_split_u16 by done. by destruct h.
Qed.

Lemma chunk_header_roundtrip h :
  chunk_header_ok h -> chunk_header_of_bytes (chunk_header_bytes h) = h.
Proof.
  intros (? & ? & ? & ?).
  unfold chunk_header_of_bytes, chunk_header_bytes. solve_fields.
  rewrite !le_combine_split_u32, !le_combine_split_u16 by done. by destruct h.
Qed.

Lemma length_sparse_header_bytes h : length (sparse_header_bytes h) = Z.to_nat SPARSE_HEADER_LEN.
Proof. unfold sparse_header_bytes. rewrite !length_app, !length_le_split. done. Qed.

Lemma length_chunk_header_bytes h : length (chunk_header_bytes h) = Z.to_nat CHUNK_HEADER_LEN.
Proof. unfold chunk_header_bytes. rewrite !length_app, !length_le_split. done. Qed.

#[global] Opaque chunk_header_bytes sparse_header_bytes chunk_header_of_bytes
  sparse_header_of_bytes LittleEndianList.le_split LittleEndianList.le_combine.
