(* ===== verification/Posix.v ===== *)
(** * The part of POSIX the image tools use

    Open files with their content and position, files on disk by name, and the
    space left on the device.  [read] may return fewer bytes than asked for
    ([f_burst] bounds one call), [write] stops when the device is full, so the
    retry loops and the error branches of the callers are exercised. *)
From S2P Require Import Prelude.

Definition ENOENT : Z := 2.
Definition EBADF : Z := 9.
Definition EINVAL : Z := 22.
Definition ENOMEM : Z := 12.

Record ofile := mk_ofile {
  f_data : list byte;
  f_pos : Z;
  f_burst : Z
}.

Record world := mk_world {
  w_fds : gmap Z ofile;
  w_files : gmap string (list byte);
  w_space : Z
}.

Definition set_fd (w : world) (fd : Z) (f : ofile) : world :=
  mk_world (<[fd := f]> (w_fds w)) (w_files w) (w_space w).

Definition set_pos (f : ofile) (p : Z) : ofile := mk_ofile (f_data f) p (f_burst f).

Inductive whence := SEEK_SET | SEEK_CUR | SEEK_END.

(** [lseek]: the new position, or -1. *)
Definition lseek (w : world) (fd off : Z) (wh : whence) : world * Z :=
  match w_fds w !! fd with
  | None => (w, -1)
  | Some f =>
      let p := match wh with
        | SEEK_SET => off | SEEK_CUR => f_pos f + off | SEEK_END => blen (f_data f) + off end in
      if p <? 0 then (w, -1) else (set_fd w fd (set_pos f p), p)
  end.

(** [read]: an error, or the bytes read (none at the end of the file). *)
Definition read (w : world) (fd n : Z) : world * (Z + list byte) :=
  match w_fds w !! fd with
  | None => (w, inl (- EBADF))
  | Some f =>
      let b := slice (f_pos f) (Z.min n (f_burst f)) (f_data f) in
      (set_fd w fd (set_pos f (f_pos f + blen b)), inr b)
  end.

(** [write]: the number of bytes written, -1 on an error. *)
Definition write (w : world) (fd : Z) (data : list byte) : world * Z :=
  match w_fds w !! fd with
  | None => (w, -1)
  | Some f =>
      if blen data =? 0 then (w, 0) else
      let b := slice 0 (w_space w) data in
      if blen b =? 0 then (w, -1)
      else
        let f := mk_ofile (write_at (f_data f) (f_pos f) b) (f_pos f + blen b) (f_burst f) in
        (mk_world (<[fd := f]> (w_fds w)) (w_files w) (w_space w - blen b), blen b)
  end.

Definition ftruncate (w : world) (fd len : Z) : world * Z :=
  match w_fds w !! fd with
  | None => (w, -1)
  | Some f =>
      if len <? 0 then (w, -1)
      else (set_fd w fd (mk_ofile (slice 0 len (f_data f ++ zeros (len - blen (f_data f))))
                           (f_pos f) (f_burst f)), 0)
  end.

(** The bytes of a read-only shared mapping.  Behind the end of the file the
    last page reads as zeros; a page further on faults. *)
Definition mmap_bytes (data : list byte) (off len : Z) : outcome (list byte) :=
  if off + len <=? ALIGN (blen data) 4096
  then Done (slice off len (data ++ zeros (ALIGN (blen data) 4096 - blen data)))
  else Crash BusError.

(** [read_all] of output_file.c: [read] until [len] bytes have arrived. *)
Fixpoint read_all_loop (fuel : nat) (w : world) (fd todo : Z) (acc : list byte)
    : world * (Z + list byte) :=
  if todo <=? 0 then (w, inr acc) else
  match fuel with
  | O => (w, inl (- EINVAL))
  | S fuel =>
      match read w fd todo with
      | (w, inl e) => (w, inl e)
      | (w, inr b) =>
          if blen b =? 0 then (w, inl (- EINVAL))
          else read_all_loop fuel w fd (todo - blen b) (acc ++ b)
      end
  end.

Definition read_all (w : world) (fd len : Z) : world * (Z + list byte) :=
  read_all_loop (Z.to_nat len) w fd len [].

(** ** Lemmas *)

Definition file_ok (f : ofile) : Prop := 0 <= f_pos f /\ 0 < f_burst f.

Lemma set_fd_set_fd w fd f g : set_fd (set_fd w fd f) fd g = set_fd w fd g.
Proof. unfold set_fd; simpl. by rewrite insert_insert_eq. Qed.

Lemma lookup_set_fd w fd f : w_fds (set_fd w fd f) !! fd = Some f.
Proof. apply lookup_insert_eq. Qed.

Lemma set_pos_id f : set_pos f (f_pos f) = f.
Proof. by destruct f. Qed.

Lemma set_fd_id w fd f : w_fds w !! fd = Some f -> set_fd w fd f = w.
Proof. intros H. unfold set_fd. rewrite insert_id by done. by destruct w. Qed.

Lemma read_all_loop_ok fuel w fd f todo acc :
  w_fds w !! fd = Some f -> file_ok f -> 0 <= todo <= Z.of_nat fuel ->
  f_pos f + todo <= blen (f_data f) ->
  read_all_loop fuel w fd todo acc =
    (set_fd w fd (set_pos f (f_pos f + todo)), inr (acc ++ slice (f_pos f) todo (f_data f))).
Proof.
  revert w f todo acc. induction fuel as [|fuel IH]; intros w f todo acc Hf [Hp Hb] Ht Hl; simpl.
  - assert (todo = 0) as -> by lia. simpl. rewrite slice_zero_len, app_nil_r, Z.add_0_r, set_pos_id.
    by rewrite set_fd_id.
  - destruct (Z.leb_spec todo 0).
    { assert (todo = 0) as -> by lia. rewrite slice_zero_len, app_nil_r, Z.add_0_r, set_pos_id.
      by rewrite set_fd_id. }
    unfold read. rewrite Hf. set (n := Z.min todo (f_burst f)).
    assert (Hn : 0 < n <= todo) by (unfold n; lia).
    rewrite blen_slice by lia. zdec.
    erewrite IH; [|apply lookup_set_fd|split; simpl; [lia|done]|lia|simpl; lia].
    simpl. rewrite set_fd_set_fd. unfold set_pos; simpl. f_equal.
    + f_equal. f_equal. lia.
    + f_equal. rewrite <- app_assoc. f_equal. rewrite <- slice_add by lia. f_equal. lia.
Qed.

(** [read_all] returns exactly the next [len] bytes, however the kernel cuts
    the reads. *)
Lemma read_all_ok w fd f len :
  w_fds w !! fd = Some f -> file_ok f -> 0 <= len -> f_pos f + len <= blen (f_data f) ->
  read_all w fd len =
    (set_fd w fd (set_pos f (f_pos f + len)), inr (slice (f_pos f) len (f_data f))).
Proof. intros. unfold read_all. by erewrite read_all_loop_ok; [|done|done|lia|lia]. Qed.

Lemma read_all_loop_eof fuel w fd f todo acc :
  w_fds w !! fd = Some f -> file_ok f -> f_pos f <= blen (f_data f) ->
  0 < todo <= Z.of_nat fuel -> blen (f_data f) < f_pos f + todo ->
  exists w', read_all_loop fuel w fd todo acc = (w', inl (- EINVAL)).
Proof.
  revert w f todo acc. induction fuel as [|fuel IH]; intros w f todo acc Hf [Hp Hb] Hple Ht Hl;
    [lia|]. simpl. zdec. unfold read. rewrite Hf. set (n := Z.min todo (f_burst f)).
  assert (Hbl : blen (slice (f_pos f) n (f_data f)) = Z.min n (blen (f_data f) - f_pos f)).
  { unfold slice, blen in *. rewrite length_take, length_drop. lia. }
  rewrite Hbl. destruct (Z.eqb_spec (Z.min n (blen (f_data f) - f_pos f)) 0); [eauto|].
  eapply IH; [apply lookup_set_fd|split; simpl; [|done]|simpl..]; lia.
Qed.

(** Running off the end of the file is an error. *)
Lemma read_all_eof w fd f len :
  w_fds w !! fd = Some f -> file_ok f -> f_pos f <= blen (f_data f) ->
  0 < len -> blen (f_data f) < f_pos f + len ->
  exists w', read_all w fd len = (w', inl (- EINVAL)).
Proof. intros. unfold read_all. eapply read_all_loop_eof; try done; lia. Qed.

Lemma write_ok w fd f data :
  w_fds w !! fd = Some f -> 0 < blen data <= w_space w ->
  write w fd data =
    (mk_world (<[fd := mk_ofile (write_at (f_data f) (f_pos f) data) (f_pos f + blen data) (f_burst f)]>
       (w_fds w)) (w_files w) (w_space w - blen data), blen data).
Proof.
  intros Hf Hs. unfold write. rewrite Hf.
  assert (slice 0 (w_space w) data = data) as ->.
  { rewrite slice_0. apply firstn_all2. unfold blen in Hs. lia. }
  by zdec.
Qed.
