(* ===== verification/OutputFile.v ===== *)
(** * Writing images (output_file.c)

    An [output_file] writes either a sparse image (a header and chunks) or a
    plain one, through a table of operations ([struct output_file_ops]) with
    three implementations: a file descriptor, a gzip stream and a callback.
    The table is the record [output_file_ops]; the chunk writers are generic in
    it, as the C code is through the function pointers.

    The build modelled is the POSIX one ([USE_MMAP]). *)
From S2P Require Import Prelude Crc32 Posix SparseFormat.

Definition INT_MAX : Z := 2 ^ 31 - 1.

(** [struct output_file]: [sparse] stands for the [sparse_ops] pointer, which
    is [&sparse_file_ops] or [&normal_file_ops]; the [ops] pointer is the
    record the functions below take. *)
Record output_file := mk_output_file {
  cur_out_ptr : Z;
  chunk_cnt : Z;
  crc32 : Z;
  sparse_ops : bool;
  use_crc : bool;
  of_block_size : Z;
  of_len : Z;
  zero_buf : list byte;
  fill_buf : list byte
}.

Record output_file_ops (B : Type) := mk_ops {
  op_open : B -> Z -> B * Z;
  op_skip : B -> Z -> B * Z;
  op_pad : B -> Z -> B * Z;
  op_write : B -> list byte -> Z -> B * Z;
  op_close : B -> B
}.
Arguments op_open {B}. Arguments op_skip {B}. Arguments op_pad {B}.
Arguments op_write {B}. Arguments op_close {B}.

(** ** [file_ops]: a file descriptor *)

Definition file_state : Type := world * Z.

Definition file_open (st : file_state) (fd : Z) : file_state * Z := ((st.1, fd), 0).

Definition file_skip (st : file_state) (cnt : Z) : file_state * Z :=
  let '(w, ret) := lseek st.1 st.2 cnt SEEK_CUR in
  if ret <? 0 then ((w, st.2), -1) else ((w, st.2), 0).

Definition file_pad (st : file_state) (len : Z) : file_state * Z :=
  let '(w, ret) := ftruncate st.1 st.2 len in
  if ret <? 0 then ((w, st.2), - EINVAL) else ((w, st.2), 0).

(** A negative [len] is a huge [size_t] for [write]. *)
Definition file_write (st : file_state) (data : list byte) (len : Z) : file_state * Z :=
  if len <? 0 then (st, -1) else
  let '(w, ret) := write st.1 st.2 (slice 0 len data) in
  if ret <? 0 then ((w, st.2), -1)
  else if ret <? len then ((w, st.2), -1)
  else ((w, st.2), 0).

Definition file_close (st : file_state) : file_state := st.

Definition file_ops : output_file_ops file_state :=
  mk_ops _ file_open file_skip file_pad file_write file_close.

(** ** [gz_file_ops]: a zlib stream, zlib being a parameter *)

Record zlib (G : Type) := mk_zlib {
  gzdopen : G -> Z -> option G;
  gzseek : G -> Z -> whence -> G * Z;
  gztell : G -> Z;
  gzwrite : G -> list byte -> G * Z;
  gzclose : G -> G
}.
Arguments gzdopen {G}. Arguments gzseek {G}. Arguments gztell {G}.
Arguments gzwrite {G}. Arguments gzclose {G}.

Section Gz.
Context {G : Type} (z : zlib G).

Definition gz_file_open (g : G) (fd : Z) : G * Z :=
  match gzdopen z g fd with Some g => (g, 0) | None => (g, - EINVAL) end.

Definition gz_file_skip (g : G) (cnt : Z) : G * Z :=
  let '(g, ret) := gzseek z g cnt SEEK_CUR in
  if ret <? 0 then (g, -1) else (g, 0).

Definition gz_file_pad (g : G) (len : Z) : G * Z :=
  let ret := gztell z g in
  if ret <? 0 then (g, -1)
  else if len <=? ret then (g, 0)
  else
    let '(g, ret) := gzseek z g (len - 1) SEEK_SET in
    if ret <? 0 then (g, -1)
    else let '(g, _) := gzwrite z g [Init.Byte.x00] in (g, 0).

Definition gz_file_write (g : G) (data : list byte) (len : Z) : G * Z :=
  let '(g, ret) := gzwrite z g (slice 0 len data) in
  if ret <? 0 then (g, -1) else if ret <? len then (g, -1) else (g, 0).

Definition gz_file_close (g : G) : G := gzclose z g.

Definition gz_file_ops : output_file_ops G :=
  mk_ops _ gz_file_open gz_file_skip gz_file_pad gz_file_write gz_file_close.
End Gz.

(** ** [callback_file_ops]: the caller's write function *)

Section Callback.
(** [write(priv, data, len)]; [None] is the null buffer of a skip. *)
Context {P : Type} (cb_write : P -> option (list byte) -> Z -> P * Z).

Definition callback_file_open (p : P) (fd : Z) : P * Z := (p, 0).

Fixpoint callback_skip_loop (fuel : nat) (p : P) (off : Z) : P * Z :=
  match fuel with
  | O => (p, 0)
  | S fuel =>
      if 0 <? off then
        let to_write := Z.min off INT_MAX in
        let '(p, ret) := cb_write p None to_write in
        if ret <? 0 then (p, ret) else callback_skip_loop fuel p (off - to_write)
      else (p, 0)
  end.

(** Each turn but the last takes [INT_MAX] off [off]. *)
Definition callback_file_skip (p : P) (off : Z) : P * Z :=
  callback_skip_loop (S (Z.to_nat (off / INT_MAX + 1))) p off.

Definition callback_file_pad (p : P) (len : Z) : P * Z := (p, -1).

Definition callback_file_write (p : P) (data : list byte) (len : Z) : P * Z :=
  cb_write p (Some (slice 0 len data)) len.

Definition callback_file_close (p : P) : P := p.

Definition callback_file_ops : output_file_ops P :=
  mk_ops _ callback_file_open callback_file_skip callback_file_pad callback_file_write
    callback_file_close.
End Callback.

(** ** Chunk writers *)

Definition check_div (x : Z) : outcome unit := if x =? 0 then Crash DivByZero else Done tt.

Definition with_crc (o : output_file) (c : Z) : output_file :=
  mk_output_file (cur_out_ptr o) (chunk_cnt o) c (sparse_ops o) (use_crc o)
    (of_block_size o) (of_len o) (zero_buf o) (fill_buf o).

(** [out->cur_out_ptr += n; out->chunk_cnt++]. *)
Definition advance (o : output_file) (n : Z) : output_file :=
  mk_output_file (cur_out_ptr o + n) (u32 (chunk_cnt o + 1)) (crc32 o) (sparse_ops o) (use_crc o)
    (of_block_size o) (of_len o) (zero_buf o) (fill_buf o).

Definition with_fill_buf (o : output_file) (b : list byte) : output_file :=
  mk_output_file (cur_out_ptr o) (chunk_cnt o) (crc32 o) (sparse_ops o) (use_crc o)
    (of_block_size o) (of_len o) (zero_buf o) b.

(** [DIV_ROUND_UP] and [ALIGN] in unsigned 32-bit arithmetic. *)
Definition div_round_up32 (len bs : Z) : Z := u32 (u32 (len + bs) - 1) / bs.
Definition align32 (len bs : Z) : Z := u32 (bs * div_round_up32 len bs).

Section Writers.
Context {B : Type} (ops : output_file_ops B).

Definition write_sparse_skip_chunk (o : output_file) (b : B) (skip_len : Z)
    : outcome (output_file * B * Z) :=
  let! _ := check_div (of_block_size o) in
  if negb (Z.rem skip_len (of_block_size o) =? 0) then Done (o, b, -1) else
  let hdr := mk_chunk_header CHUNK_TYPE_DONT_CARE 0
    (u32 (Z.quot skip_len (of_block_size o))) CHUNK_HEADER_LEN in
  let '(b, ret) := op_write ops b (chunk_header_bytes hdr) CHUNK_HEADER_LEN in
  if ret <? 0 then Done (o, b, -1) else
  Done (advance o skip_len, b, 0).

Definition write_sparse_fill_chunk (o : output_file) (b : B) (len fill_val : Z)
    : outcome (output_file * B * Z) :=
  let! _ := check_div (of_block_size o) in
  let rnd_up_len := s32 (align32 len (of_block_size o)) in
  let hdr := mk_chunk_header CHUNK_TYPE_FILL 0
    (u32 rnd_up_len / of_block_size o) (CHUNK_HEADER_LEN + 4) in
  let '(b, ret) := op_write ops b (chunk_header_bytes hdr) CHUNK_HEADER_LEN in
  if ret <? 0 then Done (o, b, -1) else
  let '(b, ret) := op_write ops b (le_split 4 fill_val) 4 in
  if ret <? 0 then Done (o, b, -1) else
  let o := if use_crc o
    then with_crc o (Nat.iter (Z.to_nat (of_block_size o / 4))
                       (fun c => sparse_crc32 c (le_split 4 fill_val)) (crc32 o))
    else o in
  Done (advance o rnd_up_len, b, 0).

Definition write_sparse_data_chunk (o : output_file) (b : B) (len : Z) (data : list byte)
    : outcome (output_file * B * Z) :=
  let! _ := check_div (of_block_size o) in
  let rnd_up_len := s32 (align32 len (of_block_size o)) in
  let zero_len := s32 (rnd_up_len - len) in
  let hdr := mk_chunk_header CHUNK_TYPE_RAW 0
    (u32 rnd_up_len / of_block_size o) (u32 (CHUNK_HEADER_LEN + rnd_up_len)) in
  let '(b, ret) := op_write ops b (chunk_header_bytes hdr) CHUNK_HEADER_LEN in
  if ret <? 0 then Done (o, b, -1) else
  let '(b, ret) := op_write ops b data (s32 len) in
  if ret <? 0 then Done (o, b, -1) else
  let '(b, ret) := if zero_len =? 0 then (b, 0) else op_write ops b (zero_buf o) zero_len in
  if ret <? 0 then Done (o, b, -1) else
  let o := if use_crc o
    then
      let c := sparse_crc32 (crc32 o) (slice 0 len data) in
      with_crc o (if zero_len =? 0 then c else sparse_crc32 c (slice 0 zero_len (zero_buf o)))
    else o in
  Done (advance o rnd_up_len, b, 0).

(** The result of writing the checksum itself is not looked at. *)
Definition write_sparse_end_chunk (o : output_file) (b : B) : output_file * B * Z :=
  if use_crc o then
    let hdr := mk_chunk_header CHUNK_TYPE_CRC32 0 0 (CHUNK_HEADER_LEN + 4) in
    let '(b, ret) := op_write ops b (chunk_header_bytes hdr) CHUNK_HEADER_LEN in
    if ret <? 0 then (o, b, ret) else
    let '(b, _) := op_write ops b (le_split 4 (crc32 o)) 4 in
    (advance o 0, b, 0)
  else (o, b, 0).

Definition write_normal_data_chunk (o : output_file) (b : B) (len : Z) (data : list byte)
    : outcome (output_file * B * Z) :=
  let! _ := check_div (of_block_size o) in
  let rnd_up_len := align32 len (of_block_size o) in
  let '(b, ret) := op_write ops b data (s32 len) in
  if ret <? 0 then Done (o, b, ret) else
  if len <? rnd_up_len then
    let '(b, ret) := op_skip ops b (rnd_up_len - len) in Done (o, b, ret)
  else Done (o, b, ret).

(** [while (len)] with [write_len = min(len, block_size)]. *)
Fixpoint fill_loop (fuel : nat) (o : output_file) (b : B) (len : Z) : outcome (B * Z) :=
  if len =? 0 then Done (b, 0) else
  match fuel with
  | O => Crash OutOfFuel
  | S fuel =>
      let write_len := Z.min len (of_block_size o) in
      let '(b, ret) := op_write ops b (fill_buf o) (s32 write_len) in
      if ret <? 0 then Done (b, ret) else fill_loop fuel o b (len - write_len)
  end.

(** The fill words written over the start of the buffer. *)
Definition fill_words (bs fill_val : Z) (old : list byte) : list byte :=
  let words := mjoin (replicate (Z.to_nat (bs / 4)) (le_split 4 fill_val)) in
  words ++ drop (length words) old.

Definition write_normal_fill_chunk (o : output_file) (b : B) (len fill_val : Z)
    : outcome (output_file * B * Z) :=
  let o := with_fill_buf o (fill_words (of_block_size o) fill_val (fill_buf o)) in
  let! (b, ret) := fill_loop (Z.to_nat len) o b len in
  Done (o, b, ret).

Definition write_normal_skip_chunk (o : output_file) (b : B) (len : Z) : output_file * B * Z :=
  let '(b, ret) := op_skip ops b len in (o, b, ret).

Definition write_normal_end_chunk (o : output_file) (b : B) : output_file * B * Z :=
  let '(b, ret) := op_pad ops b (of_len o) in (o, b, ret).

(** ** Dispatch through [sparse_ops] *)

Definition write_data_chunk (o : output_file) (b : B) (len : Z) (data : list byte) :=
  if sparse_ops o then write_sparse_data_chunk o b len data
  else write_normal_data_chunk o b len data.

Definition write_fill_chunk (o : output_file) (b : B) (len fill_val : Z) :=
  if sparse_ops o then write_sparse_fill_chunk o b len fill_val
  else write_normal_fill_chunk o b len fill_val.

Definition write_skip_chunk (o : output_file) (b : B) (len : Z)
    : outcome (output_file * B * Z) :=
  if sparse_ops o then write_sparse_skip_chunk o b len
  else Done (write_normal_skip_chunk o b len).

Definition output_file_close (o : output_file) (b : B) : output_file * B :=
  let '(o, b, _) :=
    if sparse_ops o then write_sparse_end_chunk o b else write_normal_end_chunk o b in
  (o, op_close ops b).

Definition new_sparse_header (bs len chunks : Z) (crc : bool) : sparse_header :=
  mk_sparse_header SPARSE_HEADER_MAGIC SPARSE_HEADER_MAJOR_VER SPARSE_HEADER_MINOR_VER
    SPARSE_HEADER_LEN CHUNK_HEADER_LEN bs (u32 (Z.quot len bs))
    (if crc then u32 (u32 chunks + 1) else u32 chunks) 0.

(** [output_file_init]: [None] is a negative return. *)
Definition output_file_init (b : B) (block_size len : Z) (sparse : bool) (chunks : Z)
    (crc : bool) : outcome (option output_file * B) :=
  let o := mk_output_file 0 0 0 sparse crc block_size len (zeros block_size) (zeros block_size) in
  if sparse then
    let! _ := check_div block_size in
    let '(b, ret) := op_write ops b
      (sparse_header_bytes (new_sparse_header block_size len chunks crc)) SPARSE_HEADER_LEN in
    if ret <? 0 then Done (None, b) else Done (Some o, b)
  else Done (Some o, b).

(** The body of [write_fd_chunk] once the content of the mapped file is
    known: map from the page the offset lies in, write, unmap. *)
Definition write_mapped_chunk (o : output_file) (b : B) (len offset : Z) (content : list byte)
    : outcome (output_file * B * Z) :=
  let aligned_offset := Z.land offset (Z.lnot (4096 - 1)) in
  let aligned_diff := offset - aligned_offset in
  let buffer_size := s32 (len + aligned_diff) in
  if buffer_size =? 0 then Done (o, b, - EINVAL)
  else if buffer_size <? 0 then Done (o, b, - ENOMEM)
  else
    let! ptr := mmap_bytes content (aligned_offset + aligned_diff) len in
    write_data_chunk o b len ptr.

(** [world_of] gives the descriptors and files the process sees. *)
Context (world_of : B -> world).

Definition write_fd_chunk (o : output_file) (b : B) (len fd offset : Z)
    : outcome (output_file * B * Z) :=
  match w_fds (world_of b) !! fd with
  | None => Done (o, b, - EBADF)
  | Some f => write_mapped_chunk o b len offset (f_data f)
  end.

Definition write_file_chunk (o : output_file) (b : B) (len : Z) (file : string) (offset : Z)
    : outcome (output_file * B * Z) :=
  match w_files (world_of b) !! file with
  | None => Done (o, b, - ENOENT)
  | Some content => write_mapped_chunk o b len offset content
  end.
End Writers.

(** [output_file_open_callback]. *)
Definition output_file_open_callback {P} (cb : P -> option (list byte) -> Z -> P * Z)
    (priv : P) (block_size len : Z) (sparse : bool) (chunks : Z) (crc : bool)
    : outcome (option output_file * P) :=
  output_file_init (callback_file_ops cb) priv block_size len sparse chunks crc.

(** [output_file_open_fd] for [gz = 0] and for [gz != 0]. *)
Definition output_file_open_fd (w : world) (fd block_size len : Z) (sparse : bool) (chunks : Z)
    (crc : bool) : outcome (option output_file * file_state) :=
  let '(st, _) := op_open file_ops (w, fd) fd in
  output_file_init file_ops st block_size len sparse chunks crc.

Definition output_file_open_fd_gz {G} (z : zlib G) (g : G) (fd block_size len : Z)
    (sparse : bool) (chunks : Z) (crc : bool) : outcome (option output_file * G) :=
  let '(g, _) := op_open (gz_file_ops z) g fd in
  output_file_init (gz_file_ops z) g block_size len sparse chunks crc.
