(* ===== verification/Sparse.v ===== *)
(** * Sparse files (sparse.c)

    A sparse file is a block size, a length and the queued blocks.  The block
    list is the functional list of BlockList.v, which BackedBlock.v proves to
    be what the linked nodes hold; [sf_names] are the strdup'ed file names the
    blocks point to. *)
From S2P Require Import Prelude Crc32 BlockList Posix SparseFormat OutputFile.

Record sparse_file := mk_sparse_file {
  sf_block_size : Z;
  sf_len : Z;
  sf_verbose : bool;
  sf_blocks : list backed_block;
  sf_names : gmap loc string
}.

Definition sparse_file_new (block_size len : Z) : sparse_file :=
  mk_sparse_file block_size len false [] ∅.

Definition with_blocks (s : sparse_file) (l : list backed_block) : sparse_file :=
  mk_sparse_file (sf_block_size s) (sf_len s) (sf_verbose s) l (sf_names s).

Definition queue_block (s : sparse_file) (bb : backed_block) : outcome (sparse_file * Z) :=
  let! l := queue (sf_block_size s) (sf_blocks s) bb in Done (with_blocks s l, 0).

Definition sparse_file_add_data (s : sparse_file) (data : list byte) (len block : Z) :=
  queue_block s (mk_bb block len (BLOCK_DATA data)).

Definition sparse_file_add_fill (s : sparse_file) (fill_val len block : Z) :=
  queue_block s (mk_bb block len (BLOCK_FILL fill_val)).

Definition sparse_file_add_file (s : sparse_file) (filename : string) (file_offset len block : Z) :=
  let name := fresh (dom (sf_names s)) in
  let s := mk_sparse_file (sf_block_size s) (sf_len s) (sf_verbose s) (sf_blocks s)
             (<[name := filename]> (sf_names s)) in
  queue_block s (mk_bb block len (BLOCK_FILE name file_offset)).

Definition sparse_file_add_fd (s : sparse_file) (fd file_offset len block : Z) :=
  queue_block s (mk_bb block len (BLOCK_FD fd file_offset)).

(** ** Counting and writing chunks *)

(** One turn of the loop of [sparse_count_chunks] on [(last_block, chunks)]. *)
Definition count_step (bs : Z) (st : Z * Z) (bb : backed_block) : Z * Z :=
  let '(last_block, chunks) := st in
  let chunks := if last_block <? bb_block bb then u32 (chunks + 1) else chunks in
  (u32 (bb_block bb + div_round_up32 (bb_len bb) bs), u32 (chunks + 1)).

Definition sparse_count_chunks (s : sparse_file) : outcome Z :=
  let! _ := check_div (sf_block_size s) in
  let '(last_block, chunks) := foldl (count_step (sf_block_size s)) (0, 0) (sf_blocks s) in
  Done (if last_block <? Z.quot (sf_len s + sf_block_size s - 1) (sf_block_size s)
        then u32 (chunks + 1) else chunks).

Section Write.
Context {B : Type} (ops : output_file_ops B) (world_of : B -> world).

(** The results of the chunk writers are dropped, as in the code. *)
Definition sparse_file_write_block (names : gmap loc string) (o : output_file) (b : B)
    (bb : backed_block) : outcome (output_file * B) :=
  let! (o, b, _) :=
    match bb_payload bb with
    | BLOCK_DATA data => write_data_chunk ops o b (bb_len bb) data
    | BLOCK_FILE f offset =>
        match names !! f with
        | Some name => write_file_chunk ops world_of o b (bb_len bb) name offset
        | None => Crash UseAfterFree
        end
    | BLOCK_FD fd offset => write_fd_chunk ops world_of o b (bb_len bb) fd offset
    | BLOCK_FILL v => write_fill_chunk ops o b (bb_len bb) v
    end in
  Done (o, b).

Fixpoint write_blocks_loop (names : gmap loc string) (bs : Z) (o : output_file) (b : B)
    (last_block : Z) (l : list backed_block) : outcome (output_file * B * Z) :=
  match l with
  | [] => Done (o, b, last_block)
  | bb :: tl =>
      let! (o, b) :=
        if last_block <? bb_block bb then
          let blocks := u32 (bb_block bb - last_block) in
          let! (o, b, _) := write_skip_chunk ops o b (blocks * bs) in Done (o, b)
        else Done (o, b) in
      let! (o, b) := sparse_file_write_block names o b bb in
      write_blocks_loop names bs o b (u32 (bb_block bb + div_round_up32 (bb_len bb) bs)) tl
  end.

Definition write_all_blocks (s : sparse_file) (o : output_file) (b : B)
    : outcome (output_file * B * Z) :=
  let! (o, b, last_block) :=
    write_blocks_loop (sf_names s) (sf_block_size s) o b 0 (sf_blocks s) in
  let pad := sf_len s - last_block * sf_block_size s in
  if pad <? 0 then Crash AssertFail
  else if 0 <? pad then
    let! (o, b, _) := write_skip_chunk ops o b pad in Done (o, b, 0)
  else Done (o, b, 0).

(** What [sparse_file_write], [sparse_file_callback] and [sparse_file_len]
    do once the output file is open. *)
Definition write_and_close (s : sparse_file) (opened : option output_file * B)
    (fail : Z) : outcome (B * Z) :=
  match opened with
  | (None, b) => Done (b, fail)
  | (Some o, b) =>
      let! (o, b, ret) := write_all_blocks s o b in
      let '(_, b) := output_file_close ops o b in
      Done (b, ret)
  end.
End Write.

(** [sparse_file_write] with [gz = false]. *)
Definition sparse_file_write (s : sparse_file) (w : world) (fd : Z) (sparse crc : bool)
    : outcome (world * Z) :=
  let! chunks := sparse_count_chunks s in
  let! opened := output_file_open_fd w fd (sf_block_size s) (sf_len s) sparse chunks crc in
  let! (st, ret) := write_and_close file_ops fst s opened (- ENOMEM) in
  Done (st.1, ret).

(** [sparse_file_write] with [gz = true]; [w] is what the blocks are read from. *)
Definition sparse_file_write_gz {G} (z : zlib G) (s : sparse_file) (w : world) (g : G) (fd : Z)
    (sparse crc : bool) : outcome (G * Z) :=
  let! chunks := sparse_count_chunks s in
  let! opened := output_file_open_fd_gz z g fd (sf_block_size s) (sf_len s) sparse chunks crc in
  write_and_close (gz_file_ops z) (fun _ => w) s opened (- ENOMEM).

Definition sparse_file_callback {P} (s : sparse_file) (w : world) (sparse crc : bool)
    (cb : P -> option (list byte) -> Z -> P * Z) (priv : P) : outcome (P * Z) :=
  let! chunks := sparse_count_chunks s in
  let! opened := output_file_open_callback cb priv (sf_block_size s) (sf_len s) sparse chunks crc in
  write_and_close (callback_file_ops cb) (fun _ => w) s opened (- ENOMEM).

(** [*count += len]. *)
Definition out_counter_write (count : Z) (data : option (list byte)) (len : Z) : Z * Z :=
  (count + len, 0).

Definition sparse_file_len (s : sparse_file) (w : world) (sparse crc : bool) : outcome Z :=
  let! chunks := sparse_count_chunks s in
  let! opened := output_file_open_callback out_counter_write 0
    (sf_block_size s) (sf_len s) sparse chunks crc in
  match opened with
  | (None, _) => Done (-1)
  | _ =>
      let! (count, ret) :=
        write_and_close (callback_file_ops out_counter_write) (fun _ => w) s opened (-1) in
      Done (if ret <? 0 then -1 else count)
  end.

(** ** Cutting a sparse file into pieces *)

Definition resparse_overhead : Z := SPARSE_HEADER_LEN + 4 * CHUNK_HEADER_LEN + 4.

(** The loop of [move_chunks_up_to_len]: [passed] are the blocks up to
    [last_bb] (none while it is null), [rest] the blocks from [bb] on.  The
    result is the segment to move, what stays, and whether [bb] is not null. *)
Fixpoint move_loop (names : gmap loc string) (w : world) (bs len : Z) (o : output_file)
    (file_len : Z) (passed rest : list backed_block)
    : outcome (list backed_block * list backed_block * bool) :=
  match rest with
  | [] => Done (passed, [], false)
  | bb :: tl =>
      let! (o, count) := sparse_file_write_block (callback_file_ops out_counter_write)
                           (fun _ => w) names o 0 bb in
      if len <? file_len + count then
        if bool_decide (passed = []) || (len / 8 <? len - file_len) then
          let! r := try_split bs bb (u32 (len - file_len)) in
          match r with
          | None => Done (passed ++ [bb], tl, true)
          | Some (b1, b2) => Done (passed ++ [b1], b2 :: tl, true)
          end
        else Done (passed, rest, true)
      else move_loop names w bs len o (file_len + count) (passed ++ [bb]) tl
  end.

(** [to] is the empty file the caller just made: the moved segment. *)
Definition move_chunks_up_to_len (from : sparse_file) (w : world) (to : sparse_file) (len : Z)
    : outcome (sparse_file * sparse_file * bool) :=
  let len := u32 (len - resparse_overhead) in
  let! opened := output_file_open_callback out_counter_write 0
    (sf_block_size to) (sf_len to) true 0 false in
  match opened with
  | (None, _) => Done (from, to, false)
  | (Some o, _) =>
      let! (moved, rest, more) :=
        move_loop (sf_names from) w (sf_block_size from) len o 0 [] (sf_blocks from) in
      Done (with_blocks from rest,
            mk_sparse_file (sf_block_size to) (sf_len to) (sf_verbose to)
              (move_blocks moved (sf_blocks to)) (sf_names from), more)
  end.

(** The do-while loop of [sparse_file_resparse]: [tmp] collects what does not
    fit [out_s], [out] the files made so far. *)
Fixpoint resparse_loop (fuel : nat) (in_s : sparse_file) (w : world) (tmp : list backed_block)
    (max_len out_s_count : Z) (out : list sparse_file) (c : Z)
    : outcome (sparse_file * list backed_block * list sparse_file * Z) :=
  match fuel with
  | O => Crash OutOfFuel
  | S fuel =>
      let s := sparse_file_new (sf_block_size in_s) (sf_len in_s) in
      let! (in_s, s, bb) := move_chunks_up_to_len in_s w s max_len in
      let '(tmp, out) :=
        if c <? out_s_count then (tmp, out ++ [s])
        else (move_blocks (sf_blocks s) tmp, out) in
      if (bb : bool) then resparse_loop fuel in_s w tmp max_len out_s_count out (c + 1)
      else Done (in_s, tmp, out, c + 1)
  end.

Definition sparse_file_resparse (fuel : nat) (in_s : sparse_file) (w : world)
    (max_len out_s_count : Z) : outcome (sparse_file * list sparse_file * Z) :=
  let! (in_s, tmp, out, c) := resparse_loop fuel in_s w [] max_len out_s_count [] 0 in
  Done (with_blocks in_s (move_blocks tmp (sf_blocks in_s)), out, c).

Definition sparse_file_verbose (s : sparse_file) : sparse_file :=
  mk_sparse_file (sf_block_size s) (sf_len s) true (sf_blocks s) (sf_names s).
