(* ===== verification/SparseRead.v ===== *)
(** * Reading images (sparse_read.c)

    [sparse_file_read_sparse] walks the chunks of a sparse image and queues one
    block per data chunk; [sparse_file_read_normal] turns a plain image into
    fill and descriptor-backed blocks.  The optional checksum pointer is an
    option; dereferencing it when it is null is [NullDeref].  Messages printed
    by [verbose_error] are not modelled. *)
From S2P Require Import Prelude Crc32 BlockList Posix SparseFormat OutputFile Sparse.

Definition COPY_BUF_SIZE : Z := 1024 * 1024.

(** [len] bytes of a buffer filled with one 32-bit value. *)
Definition fill_bytes (v len : Z) : list byte :=
  take (Z.to_nat len) (mjoin (replicate (Z.to_nat (DIV_ROUND_UP len 4)) (le_split 4 v))).

(** ** Checksum loops: at most [COPY_BUF_SIZE] bytes per turn *)

Fixpoint crc_file_loop (fuel : nat) (w : world) (fd len crc : Z) : world * (Z + Z) :=
  if len =? 0 then (w, inr crc) else
  match fuel with
  | O => (w, inl (- EINVAL))
  | S fuel =>
      let chunk := Z.min len COPY_BUF_SIZE in
      match read_all w fd chunk with
      | (w, inl e) => (w, inl e)
      | (w, inr buf) => crc_file_loop fuel w fd (len - chunk) (sparse_crc32 crc buf)
      end
  end.

(** The same over a constant buffer; [buf n] is its first [n] bytes. *)
Fixpoint crc_buf_loop (fuel : nat) (buf : Z -> list byte) (len crc : Z) : Z :=
  if len =? 0 then crc else
  match fuel with
  | O => crc
  | S fuel =>
      let chunk := Z.min len COPY_BUF_SIZE in
      crc_buf_loop fuel buf (len - chunk) (sparse_crc32 crc (buf chunk))
  end.

Definition copy_turns (len : Z) : nat := S (Z.to_nat (len / COPY_BUF_SIZE)).

(** ** Chunks *)

Definition process_raw_chunk (s : sparse_file) (w : world) (chunk_size fd offset blocks block : Z)
    (crc : option Z) : outcome (sparse_file * world * option Z * Z) :=
  let len := u32 (blocks * sf_block_size s) in
  let! _ := check_div (sf_block_size s) in
  if negb (chunk_size mod sf_block_size s =? 0) then Done (s, w, crc, - EINVAL)
  else if negb (chunk_size / sf_block_size s =? blocks) then Done (s, w, crc, - EINVAL)
  else
    let! (s, ret) := sparse_file_add_fd s fd offset len block in
    if ret <? 0 then Done (s, w, crc, ret) else
    match crc with
    | Some c =>
        match crc_file_loop (copy_turns len) w fd len c with
        | (w, inl e) => Done (s, w, crc, e)
        | (w, inr c) => Done (s, w, Some c, 0)
        end
    | None => let '(w, _) := lseek w fd len SEEK_CUR in Done (s, w, crc, 0)
    end.

Definition process_fill_chunk (s : sparse_file) (w : world) (chunk_size fd blocks block : Z)
    (crc : option Z) : outcome (sparse_file * world * option Z * Z) :=
  let len := blocks * sf_block_size s in
  if negb (chunk_size =? 4) then Done (s, w, crc, - EINVAL) else
  match read_all w fd 4 with
  | (w, inl e) => Done (s, w, crc, e)
  | (w, inr b) =>
      let fill_val := le_combine b in
      let! (s, ret) := sparse_file_add_fill s fill_val (u32 len) block in
      if ret <? 0 then Done (s, w, crc, ret) else
      Done (s, w, (fun c => crc_buf_loop (copy_turns len) (fill_bytes fill_val) len c) <$> crc, 0)
  end.

Definition process_skip_chunk (s : sparse_file) (chunk_size blocks : Z) (crc : option Z)
    : option Z * Z :=
  if negb (chunk_size =? 0) then (crc, - EINVAL) else
  let len := blocks * sf_block_size s in
  ((fun c => crc_buf_loop (copy_turns len) zeros len c) <$> crc, 0).

Definition process_crc32_chunk (w : world) (fd chunk_size crc32 : Z) : world * Z :=
  if negb (chunk_size =? 4) then (w, - EINVAL) else
  match read_all w fd 4 with
  | (w, inl e) => (w, e)
  | (w, inr b) => if negb (le_combine b =? crc32) then (w, - EINVAL) else (w, 0)
  end.

(** The result is the number of blocks of the chunk, as an [int], or an error;
    an unknown chunk type is reported and counts as no blocks. *)
Definition process_chunk (s : sparse_file) (w : world) (fd offset chunk_hdr_sz : Z)
    (hdr : chunk_header) (cur_block : Z) (crc_ptr : option Z)
    : outcome (sparse_file * world * option Z * Z) :=
  let chunk_data_size := u32 (total_sz hdr - chunk_hdr_sz) in
  if chunk_type hdr =? CHUNK_TYPE_RAW then
    let! (s, w, crc, ret) := process_raw_chunk s w chunk_data_size fd offset
                               (chunk_sz hdr) cur_block crc_ptr in
    Done (s, w, crc, if ret <? 0 then ret else s32 (chunk_sz hdr))
  else if chunk_type hdr =? CHUNK_TYPE_FILL then
    let! (s, w, crc, ret) := process_fill_chunk s w chunk_data_size fd
                               (chunk_sz hdr) cur_block crc_ptr in
    Done (s, w, crc, if ret <? 0 then ret else s32 (chunk_sz hdr))
  else if chunk_type hdr =? CHUNK_TYPE_DONT_CARE then
    let '(crc, ret) := process_skip_chunk s chunk_data_size (chunk_sz hdr) crc_ptr in
    Done (s, w, crc,
          if negb (chunk_data_size =? 0) && (ret <? 0) then ret else s32 (chunk_sz hdr))
  else if chunk_type hdr =? CHUNK_TYPE_CRC32 then
    match crc_ptr with
    | None => Crash NullDeref
    | Some c =>
        let '(w, ret) := process_crc32_chunk w fd chunk_data_size c in
        Done (s, w, crc_ptr, if ret <? 0 then ret else 0)
    end
  else Done (s, w, crc_ptr, 0).

(** [for (i = 0; i < total_chunks; i++)]. *)
Fixpoint read_chunks (n : nat) (s : sparse_file) (w : world) (fd chdr_sz cur_block : Z)
    (crc_ptr : option Z) : outcome (sparse_file * world * (Z + Z)) :=
  match n with
  | O => Done (s, w, inr cur_block)
  | S n =>
      match read_all w fd CHUNK_HEADER_LEN with
      | (w, inl e) => Done (s, w, inl e)
      | (w, inr b) =>
          let w := if CHUNK_HEADER_LEN <? chdr_sz
                   then (lseek w fd (chdr_sz - CHUNK_HEADER_LEN) SEEK_CUR).1 else w in
          let '(w, offset) := lseek w fd 0 SEEK_CUR in
          let! (s, w, crc_ptr, ret) := process_chunk s w fd offset chdr_sz
                                         (chunk_header_of_bytes b) cur_block crc_ptr in
          if ret <? 0 then Done (s, w, inl ret)
          else read_chunks n s w fd chdr_sz (u32 (cur_block + ret)) crc_ptr
      end
  end.

(** The header tests [sparse_file_read_sparse] and [sparse_file_import] share. *)
Definition header_valid (h : sparse_header) : bool :=
  (magic h =? SPARSE_HEADER_MAGIC) && (major_version h =? SPARSE_HEADER_MAJOR_VER) &&
  (SPARSE_HEADER_LEN <=? file_hdr_sz h) && (CHUNK_HEADER_LEN <=? chunk_hdr_sz h).

Definition sparse_file_read_sparse (s : sparse_file) (w : world) (fd : Z) (crc : bool)
    : outcome (sparse_file * world * Z) :=
  let crc_ptr := if crc then Some 0 else None in
  match read_all w fd SPARSE_HEADER_LEN with
  | (w, inl e) => Done (s, w, e)
  | (w, inr b) =>
      let h := sparse_header_of_bytes b in
      if negb (header_valid h) then Done (s, w, - EINVAL) else
      let w := if SPARSE_HEADER_LEN <? file_hdr_sz h
               then (lseek w fd (file_hdr_sz h - SPARSE_HEADER_LEN) SEEK_CUR).1 else w in
      let! (s, w, r) := read_chunks (Z.to_nat (total_chunks h)) s w fd (chunk_hdr_sz h) 0 crc_ptr in
      match r with
      | inl e => Done (s, w, e)
      | inr cur_block =>
          if negb (total_blks h =? cur_block) then Done (s, w, - EINVAL) else Done (s, w, 0)
      end
  end.

(** ** Plain images *)

(** Every 32-bit word of the block equals the first. *)
Definition uniform_block (buf : list byte) (words : Z) : bool :=
  forallb (fun i => bool_decide (slice (4 * Z.of_nat i) 4 buf = slice 0 4 buf))
    (seq 1 (Z.to_nat words - 1)).

Fixpoint read_normal_loop (fuel : nat) (s : sparse_file) (w : world) (fd remain offset block : Z)
    : outcome (sparse_file * world * Z) :=
  if remain <=? 0 then Done (s, w, 0) else
  match fuel with
  | O => Crash OutOfFuel
  | S fuel =>
      let to_read := Z.min remain (sf_block_size s) in
      match read_all w fd to_read with
      | (w, inl e) => Done (s, w, e)
      | (w, inr buf) =>
          let sparse_block :=
            (to_read =? sf_block_size s) && uniform_block buf (sf_block_size s / 4) in
          let! (s, _) :=
            if sparse_block then sparse_file_add_fill s (le_combine (slice 0 4 buf)) to_read block
            else sparse_file_add_fd s fd offset to_read block in
          read_normal_loop fuel s w fd (remain - to_read) (offset + to_read) (u32 (block + 1))
      end
  end.

Definition sparse_file_read_normal (s : sparse_file) (w : world) (fd : Z)
    : outcome (sparse_file * world * Z) :=
  read_normal_loop (Z.to_nat (DIV_ROUND_UP (sf_len s) (sf_block_size s))) s w fd (sf_len s) 0 0.

Definition sparse_file_read (s : sparse_file) (w : world) (fd : Z) (sparse crc : bool)
    : outcome (sparse_file * world * Z) :=
  if crc && negb sparse then Done (s, w, - EINVAL)
  else if sparse then sparse_file_read_sparse s w fd crc
  else sparse_file_read_normal s w fd.

(** ** Importing *)

Definition with_verbose (s : sparse_file) (v : bool) : sparse_file :=
  mk_sparse_file (sf_block_size s) (sf_len s) v (sf_blocks s) (sf_names s).

(** [None] is a null result. *)
Definition sparse_file_import (w : world) (fd : Z) (verbose crc : bool)
    : outcome (world * option sparse_file) :=
  match read_all w fd SPARSE_HEADER_LEN with
  | (w, inl _) => Done (w, None)
  | (w, inr b) =>
      let h := sparse_header_of_bytes b in
      if negb (header_valid h) then Done (w, None) else
      let s := sparse_file_new (blk_sz h) (total_blks h * blk_sz h) in
      let '(w, ret) := lseek w fd 0 SEEK_SET in
      if ret <? 0 then Done (w, None) else
      let! (s, w, ret) := sparse_file_read (with_verbose s verbose) w fd true crc in
      Done (w, if ret <? 0 then None else Some s)
  end.

Definition sparse_file_import_auto (w : world) (fd : Z) (crc : bool)
    : outcome (world * option sparse_file) :=
  let! (w, s) := sparse_file_import w fd true crc in
  match s with
  | Some s => Done (w, Some s)
  | None =>
      let '(w, len) := lseek w fd 0 SEEK_END in
      if len <? 0 then Done (w, None) else
      let '(w, _) := lseek w fd 0 SEEK_SET in
      let! (s, w, ret) := sparse_file_read_normal (sparse_file_new 4096 len) w fd in
      Done (w, if ret <? 0 then None else Some s)
  end.
