(* ===== verification/ImageSpec.v ===== *)
(** * What a sparse file means: the image and its chunks

    The abstract specification of libsparse.  A sparse file denotes a plain
    image: block by block, the bytes its queued source holds, zeros where
    nothing is queued.  The sparse format denotes an image as the concatenation
    of its chunks.  The writer and the reader are proved against these two. *)
From S2P Require Import Prelude BlockList Posix SparseFormat OutputFile Sparse SparseRead.

(** The contents of the descriptors and files blocks may refer to. *)
Record env := mk_env {
  e_fd : Z -> option (list byte);
  e_file : string -> option (list byte)
}.

Definition in_range (off n : Z) (c : list byte) : option (list byte) :=
  if (0 <=? off) && (0 <=? n) && (off + n <=? blen c) then Some (slice off n c) else None.

(** The first [n] bytes a payload stands for. *)
Definition resolve (E : env) (names : gmap loc string) (p : payload) (n : Z) : option (list byte) :=
  match p with
  | BLOCK_DATA d => in_range 0 n d
  | BLOCK_FILE f off =>
      match names !! f with
      | Some name => match e_file E name with Some c => in_range off n c | None => None end
      | None => None
      end
  | BLOCK_FD fd off => match e_fd E fd with Some c => in_range off n c | None => None end
  | BLOCK_FILL v => if 0 <=? n then Some (fill_bytes v n) else None
  end.

Definition block_bytes (E : env) (names : gmap loc string) (bs : Z) (o : option (payload * Z))
    : option (list byte) :=
  match o with
  | None => Some (zeros bs)
  | Some (p, n) =>
      match resolve E names p n with Some d => Some (d ++ zeros (bs - n)) | None => None end
  end.

(** Concatenation of [f lo], [f (lo + 1)], ... *)
Fixpoint image_n (f : Z -> option (list byte)) (lo : Z) (n : nat) : option (list byte) :=
  match n with
  | O => Some []
  | S n =>
      match f lo, image_n f (lo + 1) n with
      | Some d, Some r => Some (d ++ r)
      | _, _ => None
      end
  end.

(** Blocks [lo .. hi-1] of the image of a block list. *)
Definition image (E : env) (names : gmap loc string) (bs : Z) (l : list backed_block) (lo hi : Z)
    : option (list byte) :=
  image_n (fun k => block_bytes E names bs (view bs l k)) lo (Z.to_nat (hi - lo)).

(** The plain image a sparse file denotes. *)
Definition sparse_image (E : env) (s : sparse_file) : option (list byte) :=
  image E (sf_names s) (sf_block_size s) (sf_blocks s) 0 (DIV_ROUND_UP (sf_len s) (sf_block_size s)).

(** ** Chunks *)

Inductive chunk :=
  | CRaw (data : list byte)
  | CFill (v blocks : Z)
  | CSkip (blocks : Z).

Definition chunk_blocks (bs : Z) (c : chunk) : Z :=
  match c with CRaw d => blen d / bs | CFill _ n => n | CSkip n => n end.

Definition chunk_image (bs : Z) (c : chunk) : list byte :=
  match c with CRaw d => d | CFill v n => fill_bytes v (bs * n) | CSkip n => zeros (bs * n) end.

Definition chunk_bytes (bs : Z) (c : chunk) : list byte :=
  match c with
  | CRaw d => chunk_header_bytes (mk_chunk_header CHUNK_TYPE_RAW 0 (blen d / bs)
                (CHUNK_HEADER_LEN + blen d)) ++ d
  | CFill v n => chunk_header_bytes (mk_chunk_header CHUNK_TYPE_FILL 0 n (CHUNK_HEADER_LEN + 4))
                ++ le_split 4 v
  | CSkip n => chunk_header_bytes (mk_chunk_header CHUNK_TYPE_DONT_CARE 0 n CHUNK_HEADER_LEN)
  end.

Definition chunks_image (bs : Z) (cs : list chunk) : list byte := mjoin (chunk_image bs <$> cs).
Definition chunks_bytes (bs : Z) (cs : list chunk) : list byte := mjoin (chunk_bytes bs <$> cs).
Definition chunks_blocks (bs : Z) (cs : list chunk) : Z := foldr (fun c n => chunk_blocks bs c + n) 0 cs.

(** The chunk of one queued block, given its bytes. *)
Definition block_chunk (bs : Z) (bb : backed_block) (d : list byte) : chunk :=
  match bb_payload bb with
  | BLOCK_FILL v => CFill v (bb_blocks bs bb)
  | _ => CRaw (d ++ zeros (bs * bb_blocks bs bb - bb_len bb))
  end.

Definition skip_to (last block : Z) : list chunk :=
  if last <? block then [CSkip (block - last)] else [].

Fixpoint chunks_from (E : env) (names : gmap loc string) (bs last : Z) (l : list backed_block)
    : option (list chunk) :=
  match l with
  | [] => Some []
  | bb :: tl =>
      match resolve E names (bb_payload bb) (bb_len bb), chunks_from E names bs (bb_end bs bb) tl with
      | Some d, Some cs => Some (skip_to last (bb_block bb) ++ block_chunk bs bb d :: cs)
      | _, _ => None
      end
  end.

Fixpoint last_end (bs last : Z) (l : list backed_block) : Z :=
  match l with [] => last | bb :: tl => last_end bs (bb_end bs bb) tl end.

(** All chunks of a sparse file, the skip to its end included. *)
Definition chunks_of (E : env) (s : sparse_file) : option (list chunk) :=
  match chunks_from E (sf_names s) (sf_block_size s) 0 (sf_blocks s) with
  | Some cs => Some (cs ++ skip_to (last_end (sf_block_size s) 0 (sf_blocks s))
                             (DIV_ROUND_UP (sf_len s) (sf_block_size s)))
  | None => None
  end.

(** ** Fill patterns *)

Lemma length_mjoin_replicate n (x : list byte) :
  length (mjoin (replicate n x)) = (n * length x)%nat.
Proof. induction n; simpl; [done|]. rewrite length_app, IHn. done. Qed.

Lemma blen_fill_bytes v n : 0 <= n -> blen (fill_bytes v n) = n.
Proof.
  intros. unfold fill_bytes, blen. rewrite length_take, length_mjoin_replicate, length_le_split.
  pose proof (DIV_ROUND_UP_bounds n 4). lia.
Qed.

Lemma fill_bytes_words v q :
  0 <= q -> fill_bytes v (4 * q) = mjoin (replicate (Z.to_nat q) (le_split 4 v)).
Proof.
  intros. unfold fill_bytes. rewrite DIV_ROUND_UP_mul by lia. apply firstn_all2.
  rewrite length_mjoin_replicate, length_le_split. lia.
Qed.

Lemma fill_bytes_add v q n :
  0 <= q -> 0 <= n -> fill_bytes v (4 * q + n) = fill_bytes v (4 * q) ++ fill_bytes v n.
Proof.
  intros. rewrite (fill_bytes_words v q) by done. unfold fill_bytes at 1.
  rewrite DIV_ROUND_UP_add_mul by lia.
  pose proof (DIV_ROUND_UP_nonneg n 4 ltac:(lia) ltac:(lia)).
  rewrite (Z2Nat.inj_add q), replicate_add, join_app by lia.
  rewrite take_app_ge by (rewrite length_mjoin_replicate, length_le_split; lia).
  f_equal. unfold fill_bytes. f_equal. rewrite length_mjoin_replicate, length_le_split. lia.
Qed.

Lemma fill_bytes_prefix v n m : 0 <= n <= m -> slice 0 n (fill_bytes v m) = fill_bytes v n.
Proof.
  intros. rewrite slice_0. unfold fill_bytes. rewrite take_take.
  replace (Z.to_nat n `min` Z.to_nat m)%nat with (Z.to_nat n) by lia.
  pose proof (DIV_ROUND_UP_bounds n 4). pose proof (DIV_ROUND_UP_bounds m 4).
  replace (Z.to_nat (DIV_ROUND_UP m 4)) with
    (Z.to_nat (DIV_ROUND_UP n 4) + (Z.to_nat (DIV_ROUND_UP m 4) - Z.to_nat (DIV_ROUND_UP n 4)))%nat by lia.
  rewrite replicate_add, join_app. rewrite take_app_le; [done|].
  rewrite length_mjoin_replicate, length_le_split. lia.
Qed.

(** ** Images *)

Lemma image_n_ext f g lo n :
  (forall k, lo <= k < lo + Z.of_nat n -> f k = g k) -> image_n f lo n = image_n g lo n.
Proof.
  revert lo. induction n as [|n IH]; intros lo H; simpl; [done|].
  rewrite H by lia. rewrite (IH (lo + 1)); [done|]. intros k Hk. apply H. lia.
Qed.

Lemma image_n_add f lo a b x y :
  image_n f lo a = Some x -> image_n f (lo + Z.of_nat a) b = Some y ->
  image_n f lo (a + b) = Some (x ++ y).
Proof.
  revert lo x. induction a as [|a IH]; intros lo x; simpl.
  - intros [= <-]. by rewrite Z.add_0_r.
  - destruct (f lo) as [d|]; [|done]. destruct (image_n f (lo + 1) a) as [r|] eqn:E; [|done].
    intros [= <-] Hy. erewrite IH; [|done|].
    + by rewrite app_assoc.
    + rewrite <- Hy. f_equal. lia.
Qed.

Lemma image_add E nm bs l lo mid hi x y :
  lo <= mid <= hi -> image E nm bs l lo mid = Some x -> image E nm bs l mid hi = Some y ->
  image E nm bs l lo hi = Some (x ++ y).
Proof.
  intros Hm Hx Hy. unfold image in *.
  replace (Z.to_nat (hi - lo)) with (Z.to_nat (mid - lo) + Z.to_nat (hi - mid))%nat by lia.
  eapply image_n_add; [done|]. rewrite <- Hy. f_equal. lia.
Qed.

Lemma image_ext E nm nm' bs l l' lo hi :
  (forall k, lo <= k < hi -> block_bytes E nm bs (view bs l k) = block_bytes E nm' bs (view bs l' k)) ->
  image E nm bs l lo hi = image E nm' bs l' lo hi.
Proof. intros H. apply image_n_ext. intros k Hk. apply H. lia. Qed.

Lemma image_empty E nm bs l lo : image E nm bs l lo lo = Some [].
Proof. unfold image. by rewrite Z.sub_diag. Qed.

(** A range in which nothing is queued reads as zeros. *)
Lemma image_gap E nm bs l lo hi :
  0 <= bs -> lo <= hi -> (forall k, lo <= k < hi -> view bs l k = None) ->
  image E nm bs l lo hi = Some (zeros (bs * (hi - lo))).
Proof.
  intros Hbs Hle Hn. unfold image.
  assert (H : forall n lo, (forall k, lo <= k < lo + Z.of_nat n -> view bs l k = None) ->
    image_n (fun k => block_bytes E nm bs (view bs l k)) lo n = Some (zeros (bs * Z.of_nat n))).
  { intros n. induction n as [|n IH]; intros lo' Hv.
    - simpl. by rewrite Z.mul_0_r.
    - cbn [image_n]. rewrite Hv by lia. simpl block_bytes. rewrite IH by (intros; apply Hv; lia).
      rewrite <- zeros_add by nia. do 2 f_equal. lia. }
  rewrite H by (intros; apply Hn; lia). rewrite Z2Nat.id by lia. done.
Qed.

Lemma in_range_Some off n c d :
  in_range off n c = Some d <-> 0 <= off /\ 0 <= n /\ off + n <= blen c /\ d = slice off n c.
Proof.
  unfold in_range. zcases; simpl; split; try (intros [= <-]); try (intros (? & ? & ? & ->)); try done; lia.
Qed.

Lemma resolve_blen E nm p n d : resolve E nm p n = Some d -> 0 <= n /\ blen d = n.
Proof.
  destruct p as [c|f off|fd off|v]; simpl.
  - intros (? & ? & ? & ->)%in_range_Some. split; [done|]. by apply blen_slice.
  - destruct (nm !! f) as [s|]; [|done]. destruct (e_file E s); [|done].
    intros (? & ? & ? & ->)%in_range_Some. split; [done|]. by apply blen_slice.
  - destruct (e_fd E fd); [|done].
    intros (? & ? & ? & ->)%in_range_Some. split; [done|]. by apply blen_slice.
  - destruct (Z.leb_spec 0 n); [|done]. intros [= <-]. split; [done|]. by apply blen_fill_bytes.
Qed.

(** Cutting a payload: a prefix, and what is left behind it. *)
Lemma resolve_cut E nm p q n d :
  0 <= q -> 0 <= n -> resolve E nm p (4 * q + n) = Some d ->
  resolve E nm p (4 * q) = Some (slice 0 (4 * q) d) /\
  resolve E nm (payload_shift p (4 * q)) n = Some (slice (4 * q) n d).
Proof.
  intros Hq Hn H. set (a := 4 * q) in *. assert (0 <= a) by lia.
  destruct p as [c|f off|fd off|v]; simpl in *.
  - apply in_range_Some in H as (_ & _ & Hl & ->). split.
    + apply in_range_Some. rewrite slice_slice by lia. split_and!; done || lia.
    + apply in_range_Some. rewrite slice_slice by lia.
      unfold slice, blen in *. rewrite !drop_drop, !length_drop.
      split_and!; [lia..|]. do 2 f_equal. lia.
  - destruct (nm !! f) as [s|]; [|done]. destruct (e_file E s) as [c|]; [|done].
    apply in_range_Some in H as (? & _ & Hl & ->).
    split; apply in_range_Some; rewrite slice_slice by lia; split_and!; lia || (f_equal; lia).
  - destruct (e_fd E fd) as [c|]; [|done]. apply in_range_Some in H as (? & _ & Hl & ->).
    split; apply in_range_Some; rewrite slice_slice by lia; split_and!; lia || (f_equal; lia).
  - revert H. zdec. intros [= <-]. rewrite fill_bytes_prefix by lia. split; [done|].
    f_equal. unfold a. rewrite fill_bytes_add by done.
    rewrite <- (app_nil_r (fill_bytes v n)) at 2.
    symmetry. rewrite <- (blen_fill_bytes v n Hn) at 1. apply slice_here.
    by rewrite blen_fill_bytes by lia.
Qed.

Lemma slice_split_at {A} a (l : list A) n :
  0 <= a -> 0 <= n -> a + n = blen l -> l = slice 0 a l ++ slice a n l.
Proof.
  intros Ha Hn Hl. transitivity (slice 0 (a + n) l); [rewrite Hl; symmetry; apply slice_all|].
  by rewrite slice_add by lia.
Qed.

(** The image of one queued block is its data, padded to whole blocks. *)
Lemma payload_image E nm bs q n b0 p len d :
  bs = 4 * q -> 0 < q -> bs * Z.of_nat n < len + bs -> len <= bs * Z.of_nat n ->
  resolve E nm p len = Some d ->
  image_n (fun k => block_bytes E nm bs
             (Some (payload_shift p ((k - b0) * bs), Z.min bs (len - (k - b0) * bs)))) b0 n
  = Some (d ++ zeros (bs * Z.of_nat n - len)).
Proof.
  intros Hbs Hq. revert b0 p len d. induction n as [|n IH]; intros b0 p len d Hlt Hle Hd.
  - apply resolve_blen in Hd as [? Hbl]. assert (len = 0) as -> by lia.
    simpl. destruct d; [|unfold blen in Hbl; simpl in Hbl; lia]. by rewrite zeros_nil by lia.
  - cbn [image_n]. assert (Hs0 : payload_shift p ((b0 - b0) * bs) = p).
    { rewrite Z.sub_diag. destruct p; simpl; rewrite ?drop_0, ?Z.add_0_r; done. }
    rewrite Hs0. rewrite Z.sub_diag, Z.mul_0_l, Z.sub_0_r.
    destruct (Z.le_gt_cases len bs) as [Hs|Hs].
    + assert (n = 0%nat) as -> by nia. rewrite Z.min_r by lia. simpl.
      rewrite Hd, app_nil_r. do 4 f_equal. lia.
    + assert (Hd' := Hd). replace len with (4 * q + (len - bs)) in Hd' by lia.
      apply resolve_cut in Hd' as [H1 H2]; [|lia|lia].
      apply resolve_blen in Hd as [_ Hbl]. rewrite <- Hbs in *.
      rewrite Z.min_l by lia. cbn [block_bytes]. rewrite H1. rewrite zeros_nil, app_nil_r by lia.
      rewrite (image_n_ext _ (fun k => block_bytes E nm bs
        (Some (payload_shift (payload_shift p bs) ((k - (b0 + 1)) * bs),
               Z.min bs ((len - bs) - (k - (b0 + 1)) * bs))))).
      2:{ intros k Hk. rewrite payload_shift_shift by nia.
          replace (bs + (k - (b0 + 1)) * bs) with ((k - b0) * bs) by lia.
          by replace (len - bs - (k - (b0 + 1)) * bs) with (len - (k - b0) * bs) by lia. }
      erewrite IH; [|lia|lia|exact H2]. rewrite app_assoc. do 2 f_equal; [|f_equal; lia].
      symmetry. apply slice_split_at; lia.
Qed.

Lemma block_image E nm bs q bb d :
  bs = 4 * q -> 0 < q -> wf_bb bs bb -> resolve E nm (bb_payload bb) (bb_len bb) = Some d ->
  image_n (fun k => block_bytes E nm bs (Some (src_at bs bb k))) (bb_block bb)
    (Z.to_nat (bb_blocks bs bb)) = Some (d ++ zeros (bs * bb_blocks bs bb - bb_len bb)).
Proof.
  intros Hbs Hq (_ & Hl & _) Hd. unfold src_at.
  pose proof (DIV_ROUND_UP_bounds (bb_len bb) bs ltac:(lia)) as Hb.
  pose proof (DIV_ROUND_UP_pos (bb_len bb) bs ltac:(lia) ltac:(lia)) as Hp.
  unfold bb_blocks. erewrite payload_image; [|done|done| | |done]; rewrite ?Z2Nat.id; try lia. done.
Qed.

(** ** The chunks of a block list denote its image *)

Definition chunk_ok (bs : Z) (c : chunk) : Prop :=
  match c with
  | CRaw d => exists n, 0 < n /\ blen d = bs * n
  | CFill _ n => 0 < n
  | CSkip n => 0 < n
  end.

Lemma chunks_image_app bs a b : chunks_image bs (a ++ b) = chunks_image bs a ++ chunks_image bs b.
Proof. unfold chunks_image. by rewrite fmap_app, join_app. Qed.

Lemma chunks_bytes_app bs a b : chunks_bytes bs (a ++ b) = chunks_bytes bs a ++ chunks_bytes bs b.
Proof. unfold chunks_bytes. by rewrite fmap_app, join_app. Qed.

Lemma chunks_blocks_app bs a b : chunks_blocks bs (a ++ b) = chunks_blocks bs a + chunks_blocks bs b.
Proof. induction a as [|c a IH]; simpl; [done|]. unfold chunks_blocks in *. lia. Qed.

Lemma skip_to_spec bs last block :
  last <= block ->
  chunks_image bs (skip_to last block) = zeros (bs * (block - last)) /\
  chunks_blocks bs (skip_to last block) = block - last /\ Forall (chunk_ok bs) (skip_to last block).
Proof.
  intros H. unfold skip_to. destruct (Z.ltb_spec last block).
  - unfold chunks_image. simpl. rewrite app_nil_r. split_and!; [done|lia|].
    constructor; [simpl; lia|constructor].
  - assert (last = block) as -> by lia. rewrite Z.sub_diag, Z.mul_0_r. done.
Qed.

Lemma block_chunk_spec E nm bs q bb d :
  bs = 4 * q -> 0 < q -> wf_bb bs bb -> resolve E nm (bb_payload bb) (bb_len bb) = Some d ->
  chunk_image bs (block_chunk bs bb d) = match bb_payload bb with
    | BLOCK_FILL v => fill_bytes v (bs * bb_blocks bs bb)
    | _ => d ++ zeros (bs * bb_blocks bs bb - bb_len bb) end /\
  chunk_blocks bs (block_chunk bs bb d) = bb_blocks bs bb /\ chunk_ok bs (block_chunk bs bb d).
Proof.
  intros Hbs Hq Hwf Hd. pose proof (bb_blocks_pos bs ltac:(lia) bb Hwf) as Hp.
  apply resolve_blen in Hd as [_ Hbl]. unfold block_chunk.
  pose proof (DIV_ROUND_UP_bounds (bb_len bb) bs ltac:(lia)) as Hb. unfold bb_blocks in *.
  destruct (bb_payload bb); simpl; try done;
    rewrite blen_app, blen_zeros by lia; rewrite Hbl;
    replace (bb_len bb + (bs * DIV_ROUND_UP (bb_len bb) bs - bb_len bb))
      with (DIV_ROUND_UP (bb_len bb) bs * bs) by lia;
    rewrite Z.div_mul by lia; split_and!; try done; eexists; split; done || lia.
Qed.

(** Fill blocks must be whole blocks: the sparse writer rounds them up. *)
Definition fill_aligned (bs : Z) (bb : backed_block) : Prop :=
  match bb_payload bb with BLOCK_FILL _ => bb_len bb mod bs = 0 | _ => True end.

Lemma block_chunk_image E nm bs q bb d :
  bs = 4 * q -> 0 < q -> wf_bb bs bb -> fill_aligned bs bb ->
  resolve E nm (bb_payload bb) (bb_len bb) = Some d ->
  chunk_image bs (block_chunk bs bb d) = d ++ zeros (bs * bb_blocks bs bb - bb_len bb).
Proof.
  intros Hbs Hq Hwf Hfa Hd. destruct (block_chunk_spec E nm bs q bb d Hbs Hq Hwf Hd) as (-> & _ & _).
  unfold fill_aligned in Hfa. destruct (bb_payload bb); try done.
  assert (Heq : bs * bb_blocks bs bb = bb_len bb).
  { apply Z.mod_divide in Hfa as [k Hk]; [|lia]. unfold bb_blocks. rewrite Hk.
    rewrite (Z.mul_comm k), DIV_ROUND_UP_mul; lia. }
  rewrite Heq, Z.sub_diag, zeros_nil, app_nil_r by lia.
  simpl in Hd. destruct (0 <=? bb_len bb); [|done]. by injection Hd.
Qed.

Lemma image_cons E nm bs q last bb tl hi d r :
  bs = 4 * q -> 0 < q -> wf_from bs last (bb :: tl) -> bb_end bs bb <= hi ->
  resolve E nm (bb_payload bb) (bb_len bb) = Some d ->
  image E nm bs tl (bb_end bs bb) hi = Some r ->
  image E nm bs (bb :: tl) last hi =
    Some (zeros (bs * (bb_block bb - last)) ++ (d ++ zeros (bs * bb_blocks bs bb - bb_len bb)) ++ r).
Proof.
  intros Hbs Hq Hwf Hhi Hd Hr. destruct (Hwf) as (Hlo & Hbb & Htl).
  pose proof (bb_blocks_pos bs ltac:(lia) bb Hbb) as Hp.
  eapply (image_add _ _ _ _ _ (bb_block bb)); [unfold bb_end in *; lia| |].
  { apply image_gap; [lia..|]. intros k Hk. simpl. unfold covers. zdec. simpl.
    apply (view_below bs ltac:(lia) _ _ _ Htl). unfold bb_end. lia. }
  eapply (image_add _ _ _ _ _ (bb_end bs bb)); [unfold bb_end in *; lia| |].
  - unfold image. rewrite <- (block_image E nm bs q bb d Hbs Hq Hbb Hd).
    replace (Z.to_nat (bb_end bs bb - bb_block bb)) with (Z.to_nat (bb_blocks bs bb))
      by (unfold bb_end; lia).
    apply image_n_ext. intros k Hk. simpl. unfold covers, bb_end. zdec. done.
  - rewrite <- Hr. apply image_ext. intros k Hk. simpl. unfold covers. zdec.
    by rewrite andb_false_r.
Qed.

Lemma last_end_le bs last l : 0 < bs -> wf_from bs last l -> last <= last_end bs last l.
Proof.
  intros Hbs. revert last. induction l as [|bb tl IH]; intros last; simpl; [lia|].
  intros (? & Hbb & Htl). specialize (IH _ Htl). pose proof (bb_blocks_pos bs Hbs bb Hbb).
  unfold bb_end in *. lia.
Qed.

Lemma chunks_from_spec E nm bs q last l cs :
  bs = 4 * q -> 0 < q -> wf_from bs last l -> Forall (fill_aligned bs) l ->
  chunks_from E nm bs last l = Some cs ->
  image E nm bs l last (last_end bs last l) = Some (chunks_image bs cs) /\
  chunks_blocks bs cs = last_end bs last l - last /\ Forall (chunk_ok bs) cs.
Proof.
  intros Hbs Hq. revert last cs. induction l as [|bb tl IH]; intros last cs Hwf Hfa; simpl.
  { intros [= <-]. rewrite image_empty, Z.sub_diag. done. }
  apply Forall_cons in Hfa as [Hfb Hfa].
  destruct (resolve _ _ _ _) as [d|] eqn:Hd; [|done].
  destruct (chunks_from _ _ _ _ tl) as [cs'|] eqn:Hcs; [|done]. intros [= <-].
  destruct (Hwf) as (Hlo & Hbb & Htl).
  destruct (IH _ _ Htl Hfa Hcs) as (Him & Hbl & Hok).
  pose proof (last_end_le bs _ _ ltac:(lia) Htl) as Hle.
  destruct (skip_to_spec bs last (bb_block bb) Hlo) as (Hs1 & Hs2 & Hs3).
  destruct (block_chunk_spec E nm bs q bb d Hbs Hq Hbb Hd) as (_ & Hb2 & Hb3).
  split_and!.
  - rewrite (image_cons E nm bs q last bb tl _ d (chunks_image bs cs')); try done.
    rewrite chunks_image_app, Hs1. unfold chunks_image at 2. simpl.
    by rewrite (block_chunk_image E nm bs q bb d).
  - rewrite chunks_blocks_app, Hs2. simpl. fold (chunks_blocks bs cs'). unfold bb_end in *. lia.
  - apply Forall_app. split; [done|]. by constructor.
Qed.

Lemma view_beyond bs last l k :
  0 < bs -> wf_from bs last l -> last_end bs last l <= k -> view bs l k = None.
Proof.
  intros Hbs. revert last. induction l as [|bb tl IH]; intros last; simpl; [done|].
  intros (? & Hbb & Htl) Hk. pose proof (last_end_le bs _ _ Hbs Htl).
  unfold covers. zdec. rewrite andb_false_r. eauto.
Qed.

(** The chunks of a sparse file denote its image. *)
Lemma chunks_of_spec E s q cs :
  sf_block_size s = 4 * q -> 0 < q -> wf_from (sf_block_size s) 0 (sf_blocks s) ->
  Forall (fill_aligned (sf_block_size s)) (sf_blocks s) ->
  last_end (sf_block_size s) 0 (sf_blocks s) <= DIV_ROUND_UP (sf_len s) (sf_block_size s) ->
  chunks_of E s = Some cs ->
  sparse_image E s = Some (chunks_image (sf_block_size s) cs) /\
  chunks_blocks (sf_block_size s) cs = DIV_ROUND_UP (sf_len s) (sf_block_size s) /\
  Forall (chunk_ok (sf_block_size s)) cs.
Proof.
  intros Hbs Hq Hwf Hfa Hend. unfold chunks_of.
  destruct (chunks_from _ _ _ _ _) as [cs'|] eqn:Hcs; [|done]. intros [= <-].
  destruct (chunks_from_spec E _ _ q _ _ _ Hbs Hq Hwf Hfa Hcs) as (Him & Hbl & Hok).
  destruct (skip_to_spec (sf_block_size s) _ _ Hend) as (Hs1 & Hs2 & Hs3).
  pose proof (last_end_le (sf_block_size s) _ _ ltac:(lia) Hwf). split_and!.
  - unfold sparse_image. rewrite chunks_image_app, Hs1. eapply image_add; [|done|].
    + split; [done|lia].
    + apply image_gap; [lia..|]. intros k Hk. eapply view_beyond; [|done|]; lia.
  - rewrite chunks_blocks_app, Hs2, Hbl. lia.
  - by apply Forall_app.
Qed.
