(* ===== verification/WriteCorrect.v ===== *)
(** * The writer is correct

    Proved once for every backend that behaves like a byte stream (the class
    [OutputBackend]); the file descriptor, the byte counter of
    [sparse_file_len] and a zlib stream are instances. *)
From S2P Require Import Prelude BlockList Posix SparseFormat OutputFile Sparse SparseRead ImageSpec.

(** The process sees the files of [E]. *)
Definition sees (w : world) (E : env) : Prop :=
  (forall fd c, e_fd E fd = Some c -> exists f, w_fds w !! fd = Some f /\ f_data f = c) /\
  (forall p c, e_file E p = Some c -> w_files w !! p = Some c).

(** What the chunk writers rely on: the backend holds the bytes written so
    far, takes [room] more, and writing leaves the sources alone.  [can_skip]
    says whether holes are part of the promise: sparse images have none. *)
Class OutputBackend {B : Type} (ops : output_file_ops B) (world_of : B -> world) (E : env) := {
  can_skip : bool;
  holds : B -> list byte -> Z -> Prop;
  holds_sees b bytes room : holds b bytes room -> sees (world_of b) E;
  holds_weaken b bytes room room' : room' <= room -> holds b bytes room -> holds b bytes room';
  holds_write b bytes room data len :
    holds b bytes room -> 0 <= len <= blen data -> len <= room -> len < 2 ^ 31 ->
    exists b', op_write ops b data len = (b', 0) /\
      holds b' (bytes ++ slice 0 len data) (room - len);
  holds_skip b bytes room n :
    can_skip = true -> holds b bytes room -> 0 <= n ->
    exists b', op_skip ops b n = (b', 0) /\ holds b' (bytes ++ zeros n) room
}.

(** ** The file descriptor *)

Definition file_holds (E : env) (fd : Z) (st : file_state) (bytes : list byte) (room : Z) : Prop :=
  st.2 = fd /\ exists f, w_fds st.1 !! st.2 = Some f /\ f_pos f = blen bytes /\
    f_data f ++ zeros (blen bytes - blen (f_data f)) = bytes /\
    room <= w_space st.1 /\ e_fd E st.2 = None /\ sees st.1 E.

Lemma sees_insert w E fd f files space :
  e_fd E fd = None -> sees w E -> files = w_files w ->
  sees (mk_world (<[fd := f]> (w_fds w)) files space) E.
Proof.
  intros Hfd [Hf Hn] ->. split; simpl; [|done]. intros fd' c Hc.
  destruct (decide (fd = fd')) as [->|]; [congruence|]. rewrite lookup_insert_ne by done. auto.
Qed.

Lemma file_holds_write E d st bytes room data len :
  file_holds E d st bytes room -> 0 <= len <= blen data -> len <= room -> len < 2 ^ 31 ->
  exists st', file_write st data len = (st', 0) /\
    file_holds E d st' (bytes ++ slice 0 len data) (room - len).
Proof.
  destruct st as [w fd]. intros (Hfd & f & Hf & Hp & Hd & Hr & He & Hs) Hl Hlr _. simpl in *.
  unfold file_write; simpl. zdec.
  assert (Hbl : blen (slice 0 len data) = len) by (apply blen_slice; lia).
  destruct (Z.eq_dec len 0) as [->|Hne].
  { unfold write. rewrite Hf, Hbl. simpl. eexists; split; [done|]. split; [done|]. exists f. simpl.
    rewrite slice_zero_len, app_nil_r. split_and!; try done; lia. }
  rewrite (write_ok w fd f) by (done || lia). rewrite Hbl. zdec. eexists; split; [done|].
  split; [done|]. eexists. simpl. rewrite lookup_insert_eq. split; [done|]. simpl.
  assert (Hlen : blen (f_data f) + blen (zeros (blen bytes - blen (f_data f))) = blen bytes).
  { rewrite <- blen_app. by rewrite Hd. }
  assert (Hge : blen (f_data f) <= blen bytes).
  { pose proof (blen_nonneg (zeros (blen bytes - blen (f_data f)))). lia. }
  assert (Hw : write_at (f_data f) (f_pos f) (slice 0 len data) = bytes ++ slice 0 len data).
  { rewrite Hp. replace (blen bytes) with (blen (f_data f) + (blen bytes - blen (f_data f))) by lia.
    rewrite write_at_gap by lia. rewrite app_assoc. by rewrite Hd. }
  rewrite Hw, blen_app, Hbl, Hp. split_and!; [done| |lia|done|by apply sees_insert].
  rewrite Z.sub_diag, zeros_nil, app_nil_r by lia. done.
Qed.

Lemma file_holds_skip E d st bytes room n :
  file_holds E d st bytes room -> 0 <= n ->
  exists st', file_skip st n = (st', 0) /\ file_holds E d st' (bytes ++ zeros n) room.
Proof.
  destruct st as [w fd]. intros (Hfd & f & Hf & Hp & Hd & Hr & He & Hs) Hn. simpl in *.
  pose proof (blen_nonneg bytes). unfold file_skip, lseek; simpl. rewrite Hf. zdec.
  eexists; split; [done|]. split; [done|]. eexists; simpl. rewrite lookup_insert_eq. split; [done|].
  simpl. rewrite blen_app, blen_zeros by done.
  assert (blen (f_data f) <= blen bytes).
  { pose proof (f_equal blen Hd) as Hl. rewrite blen_app in Hl.
    pose proof (blen_nonneg (zeros (blen bytes - blen (f_data f)))). lia. }
  split_and!; [lia| |done|done|by apply sees_insert].
  replace (blen bytes + n - blen (f_data f)) with (blen bytes - blen (f_data f) + n) by lia.
  rewrite zeros_add, app_assoc by lia. by rewrite Hd.
Qed.

#[export, refine] Instance file_backend (E : env) (fd : Z) : OutputBackend file_ops fst E := {|
  can_skip := true; holds := file_holds E fd; holds_sees := _; holds_weaken := _; holds_write := _; holds_skip := _
|}.
Proof.
  - intros b bytes room (_ & f & _ & _ & _ & _ & _ & ?). done.
  - intros b bytes room room' Hle (? & f & ? & ? & ? & ? & ? & ?). split; [done|]. exists f. split_and!; try done. lia.
  - apply file_holds_write.
  - intros b bytes room n _. apply file_holds_skip.
Defined.

(** Without holes the file holds exactly what was written. *)
Definition file_exact (E : env) (fd : Z) (st : file_state) (bytes : list byte) (room : Z) : Prop :=
  st.2 = fd /\ exists f, w_fds st.1 !! st.2 = Some f /\ f_pos f = blen bytes /\ f_data f = bytes /\
    room <= w_space st.1 /\ e_fd E st.2 = None /\ sees st.1 E.

Lemma file_exact_write E d st bytes room data len :
  file_exact E d st bytes room -> 0 <= len <= blen data -> len <= room -> len < 2 ^ 31 ->
  exists st', file_write st data len = (st', 0) /\
    file_exact E d st' (bytes ++ slice 0 len data) (room - len).
Proof.
  destruct st as [w fd]. intros (Hfd & f & Hf & Hp & Hd & Hr & He & Hs) Hl Hlr _. simpl in *.
  unfold file_write; simpl. zdec.
  assert (Hbl : blen (slice 0 len data) = len) by (apply blen_slice; lia).
  destruct (Z.eq_dec len 0) as [->|Hne].
  { unfold write. rewrite Hf, Hbl. simpl. eexists; split; [done|]. split; [done|]. exists f. simpl.
    rewrite slice_zero_len, app_nil_r. split_and!; try done; lia. }
  rewrite (write_ok w fd f) by (done || lia). rewrite Hbl. zdec. eexists; split; [done|].
  split; [done|]. eexists. simpl. rewrite lookup_insert_eq. split; [done|]. simpl.
  rewrite Hp, Hd, write_at_end, blen_app, Hbl. split_and!; [done|done|lia|done|by apply sees_insert].
Qed.

Definition file_backend_exact (E : env) (fd : Z) : OutputBackend file_ops fst E.
Proof.
  refine {| can_skip := false; holds := file_exact E fd |}.
  - intros b bytes room (_ & f & _ & _ & _ & _ & _ & ?). done.
  - intros b bytes room room' Hle (? & f & ? & ? & ? & ? & ? & ?). split; [done|]. exists f. split_and!; try done. lia.
  - apply file_exact_write.
  - done.
Defined.

(** ** The byte counter *)

Definition counter_holds (w : world) (E : env) (count : Z) (bytes : list byte) (room : Z) : Prop :=
  count = blen bytes /\ sees w E.

Lemma callback_skip_counter fuel p off :
  0 <= off -> off <= INT_MAX * Z.of_nat fuel -> (0 < fuel)%nat ->
  callback_skip_loop out_counter_write fuel p off = (p + off, 0).
Proof.
  assert (0 < INT_MAX) by done.
  revert p off. induction fuel as [|fuel IH]; intros p off H0 Hle Hf; [lia|].
  simpl. destruct (Z.ltb_spec 0 off); [|f_equal; lia]. unfold out_counter_write at 1. simpl.
  destruct (Z.le_gt_cases off INT_MAX).
  - rewrite Z.min_l by lia. rewrite Z.sub_diag. destruct fuel; [done|]. simpl. done.
  - rewrite Z.min_r by lia. destruct fuel as [|fuel]; [lia|]. rewrite IH by lia. f_equal. lia.
Qed.

#[export, refine] Instance counter_backend (w : world) (E : env) :
  OutputBackend (callback_file_ops out_counter_write) (fun _ => w) E := {|
  can_skip := true; holds := counter_holds w E; holds_sees := _; holds_weaken := _; holds_write := _; holds_skip := _
|}.
Proof.
  - by intros b bytes room [_ ?].
  - done.
  - intros b bytes room data len [-> Hs] Hl _ _. simpl. eexists; split; [done|].
    split; [|done]. rewrite blen_app, blen_slice; lia.
  - intros b bytes room n _ [-> Hs] Hn. simpl. unfold callback_file_skip.
    assert (Hi : 0 < INT_MAX) by done.
    pose proof (Z.div_mod n INT_MAX ltac:(lia)). pose proof (Z.mod_pos_bound n INT_MAX Hi).
    assert (0 <= n / INT_MAX) by (apply Z.div_pos; lia).
    rewrite callback_skip_counter by lia. eexists; split; [done|]. split; [|done].
    by rewrite blen_app, blen_zeros.
Defined.

(** ** Chunks *)

Lemma div_round_up32_ok len bs :
  0 < bs < 2 ^ 31 -> 0 < len -> bs * DIV_ROUND_UP len bs < 2 ^ 31 ->
  div_round_up32 len bs = DIV_ROUND_UP len bs.
Proof.
  intros Hbs Hl Hb. pose proof (DIV_ROUND_UP_bounds len bs ltac:(lia)).
  unfold div_round_up32, DIV_ROUND_UP.
  rewrite (u32_small (len + bs)) by (unfold is_u32; lia).
  rewrite u32_small by (unfold is_u32; lia). done.
Qed.

Lemma align32_ok len bs :
  0 < bs < 2 ^ 31 -> 0 < len -> bs * DIV_ROUND_UP len bs < 2 ^ 31 ->
  align32 len bs = bs * DIV_ROUND_UP len bs.
Proof.
  intros Hbs Hl Hb. unfold align32. rewrite div_round_up32_ok by done.
  pose proof (DIV_ROUND_UP_bounds len bs ltac:(lia)). apply u32_small. unfold is_u32. lia.
Qed.

Lemma land_page off : off - Z.land off (Z.lnot (4096 - 1)) = off mod 4096.
Proof.
  change (4096 - 1) with (Z.ones 12). rewrite <- Z.ldiff_land, Z.ldiff_ones_r by lia.
  rewrite Z.shiftr_div_pow2, Z.shiftl_mul_pow2 by lia. change (2 ^ 12) with 4096.
  pose proof (Z.div_mod off 4096). lia.
Qed.

(** What a chunk adds to the output: its encoding, or its bytes. *)
Definition emit (sparse : bool) (bs : Z) (c : chunk) : list byte :=
  if sparse then chunk_bytes bs c else chunk_image bs c.

Definition emit_all (sparse : bool) (bs : Z) (cs : list chunk) : list byte :=
  mjoin (emit sparse bs <$> cs).

Lemma emit_all_app sp bs a b : emit_all sp bs (a ++ b) = emit_all sp bs a ++ emit_all sp bs b.
Proof. unfold emit_all. by rewrite fmap_app, join_app. Qed.

Lemma emit_all_sparse bs cs : emit_all true bs cs = chunks_bytes bs cs.
Proof. done. Qed.

Lemma emit_all_normal bs cs : emit_all false bs cs = chunks_image bs cs.
Proof. done. Qed.

Section Writer.
Context {B : Type} (ops : output_file_ops B) (world_of : B -> world) (E : env).
Context `{!OutputBackend ops world_of E}.
Context (bs q : Z) (sp uc : bool) (olen : Z) (nm : gmap loc string).
Context (Hbs : bs = 4 * q) (Hq : 0 < q) (Hbs31 : bs < 2 ^ 31) (Hskip : sp = false -> can_skip = true).

(** The fields of an open output file the chunk writers do not change. *)
Definition out_inv (o : output_file) : Prop :=
  sparse_ops o = sp /\ use_crc o = uc /\ of_block_size o = bs /\ of_len o = olen /\
  zero_buf o = zeros bs /\ blen (fill_buf o) = bs.

(** A successful call: the output grew by [bytes]. *)
Definition wrote (b : B) (bytes : list byte) (room : Z) (added : list byte)
    (r : outcome (output_file * B * Z)) : Prop :=
  exists o' b', r = Done (o', b', 0) /\ out_inv o' /\
    holds b' (bytes ++ added) (room - blen added).

Lemma out_inv_with_crc o c : out_inv o -> out_inv (with_crc o c).
Proof using. done. Qed.

Lemma out_inv_advance o n : out_inv o -> out_inv (advance o n).
Proof using. done. Qed.

Lemma holds_write_all b bytes room data :
  holds b bytes room -> blen data <= room -> blen data < 2 ^ 31 ->
  exists b', op_write ops b data (blen data) = (b', 0) /\
    holds b' (bytes ++ data) (room - blen data).
Proof using.
  intros Hh Hr Hl. pose proof (blen_nonneg data).
  destruct (holds_write b bytes room data (blen data)) as (b' & Hw & Hh'); [done|lia..|].
  rewrite slice_all in Hh'. eauto.
Qed.

Lemma blen_chunk_header h : blen (chunk_header_bytes h) = CHUNK_HEADER_LEN.
Proof using. unfold blen. by rewrite length_chunk_header_bytes. Qed.

Lemma write_skip_ok o b bytes room n :
  out_inv o -> holds b bytes room -> 0 < n -> bs * n < 2 ^ 31 ->
  blen (emit sp bs (CSkip n)) <= room ->
  wrote b bytes room (emit sp bs (CSkip n)) (write_skip_chunk ops o b (bs * n)).
Proof using All.
  intros Ho Hh Hn H31 Hr. destruct (Ho) as (Hsp & _ & Hob & _). unfold write_skip_chunk.
  rewrite Hsp. destruct sp eqn:Esp; cbn [emit chunk_bytes chunk_image] in *.
  - unfold write_sparse_skip_chunk, check_div. rewrite Hob. zdec. cbn [obind].
    rewrite (Z.mul_comm bs), Z.rem_mul by lia. simpl negb.
    rewrite Z.quot_mul by lia. cbn iota. rewrite u32_small by (unfold is_u32; nia).
    rewrite blen_chunk_header in Hr.
    destruct (holds_write_all b bytes room (chunk_header_bytes
      (mk_chunk_header CHUNK_TYPE_DONT_CARE 0 n CHUNK_HEADER_LEN))) as (b' & Hw & Hh');
      rewrite ?blen_chunk_header in *; [done|done|done|].
    rewrite Hw. simpl. eexists _, b'. split; [done|]. split; [by apply out_inv_advance|].
    by rewrite blen_chunk_header.
  - unfold write_normal_skip_chunk.
    destruct (holds_skip b bytes room (bs * n)) as (b' & Hw & Hh'); [auto|done|nia|].
    rewrite Hw. eexists _, b'. split; [done|]. split; [done|].
    eapply holds_weaken; [|done]. pose proof (blen_nonneg (zeros (bs * n))). lia.
Qed.

Lemma write_data_ok o b bytes room len data :
  out_inv o -> holds b bytes room -> 0 < len <= blen data ->
  bs * DIV_ROUND_UP len bs + 4096 <= 2 ^ 31 ->
  let c := CRaw (slice 0 len data ++ zeros (bs * DIV_ROUND_UP len bs - len)) in
  blen (emit sp bs c) <= room ->
  wrote b bytes room (emit sp bs c) (write_data_chunk ops o b len data).
Proof using All.
  intros Ho Hh Hl H31 c Hr. subst c. destruct (Ho) as (Hsp & Huc & Hob & _ & Hz & _).
  pose proof (DIV_ROUND_UP_bounds len bs ltac:(lia)) as Hd. set (n := DIV_ROUND_UP len bs) in *.
  assert (Hal : align32 len bs = bs * n) by (apply align32_ok; unfold n in *; lia).
  assert (Hbl : blen (slice 0 len data ++ zeros (bs * n - len)) = bs * n).
  { rewrite blen_app, blen_slice, blen_zeros by lia. lia. }
  unfold write_data_chunk. rewrite Hsp. destruct sp eqn:Esp; cbn [emit chunk_bytes chunk_image] in *.
  - unfold write_sparse_data_chunk, check_div. rewrite Hob. zdec. cbn [obind]. rewrite Hal.
    rewrite !(s32_small (bs * n)), !(s32_small len), !(s32_small (bs * n - len)) by lia.
    rewrite (u32_small (bs * n)), u32_small by (unfold is_u32, CHUNK_HEADER_LEN; lia).
    rewrite Hbl in Hr |- *. rewrite blen_app, blen_chunk_header, Hbl in Hr.
    set (h := chunk_header_bytes _) in *.
    assert (Hbh : blen h = CHUNK_HEADER_LEN) by apply blen_chunk_header.
    destruct (holds_write_all b bytes room h) as (b1 & Hw1 & Hh1);
      rewrite ?Hbh in *; [done|unfold CHUNK_HEADER_LEN in *; lia|done|].
    rewrite Hw1. simpl.
    destruct (holds_write b1 _ _ data len Hh1) as (b2 & Hw2 & Hh2); [lia..|].
    rewrite Hw2. simpl.
    assert (Hz3 : exists b3, (if bs * n - len =? 0 then (b2, 0)
               else op_write ops b2 (zero_buf o) (bs * n - len)) = (b3, 0) /\
               holds b3 (((bytes ++ h) ++ slice 0 len data) ++ zeros (bs * n - len))
                 (room - CHUNK_HEADER_LEN - bs * n)).
    { rewrite Hz. destruct (Z.eqb_spec (bs * n - len) 0) as [He|Hne].
      - exists b2. split; [done|]. rewrite He, zeros_nil, app_nil_r by lia.
        eapply holds_weaken; [|done]. lia.
      - destruct (holds_write b2 _ _ (zeros bs) (bs * n - len) Hh2) as (b3 & Hw3 & Hh3);
          [rewrite blen_zeros by lia; lia|lia|lia|].
        exists b3. split; [done|]. eapply holds_weaken; [|].
        2:{ replace (zeros (bs * n - len)) with (slice 0 (bs * n - len) (zeros bs)); [done|].
            rewrite slice_0. unfold zeros. rewrite take_replicate. f_equal. lia. }
        lia. }
    destruct Hz3 as (b3 & Hw3 & Hh3). rewrite Hw3. simpl.
    eexists _, b3. split; [done|]. split.
    + by destruct (use_crc o).
    + rewrite blen_app, Hbl, Hbh. rewrite !app_assoc. eapply holds_weaken; [|exact Hh3]. lia.
  - unfold write_normal_data_chunk, check_div. rewrite Hob. zdec. cbn [obind]. rewrite Hal.
    rewrite s32_small by lia. simpl in Hr. rewrite Hbl in Hr.
    destruct (holds_write b _ _ data len Hh) as (b1 & Hw1 & Hh1); [lia..|].
    rewrite Hw1. simpl. destruct (Z.ltb_spec len (bs * n)).
    + destruct (holds_skip b1 _ _ (bs * n - len) (Hskip eq_refl) Hh1) as (b2 & Hw2 & Hh2); [lia|].
      rewrite Hw2. eexists _, b2. split; [done|]. split; [done|]. simpl. rewrite Hbl.
      rewrite app_assoc. eapply holds_weaken; [|exact Hh2]. lia.
    + assert (bs * n = len) as He by lia.
      eexists _, b1. split; [done|]. split; [done|]. simpl. rewrite Hbl.
      rewrite He, Z.sub_diag, zeros_nil, app_nil_r by lia. eapply holds_weaken; [|exact Hh1]. lia.
Qed.

Lemma fill_words_ok v old : blen old = bs -> fill_words bs v old = fill_bytes v bs.
Proof using Hbs Hq.
  intros Ho. unfold fill_words. rewrite Hbs at 1 2. rewrite (Z.mul_comm 4), Z.div_mul by lia.
  rewrite <- fill_bytes_words by lia. rewrite <- Hbs.
  pose proof (blen_fill_bytes v bs ltac:(lia)). unfold blen in *.
  rewrite drop_ge by lia. apply app_nil_r.
Qed.

Lemma fill_loop_ok fuel o v m b bytes room :
  of_block_size o = bs -> fill_buf o = fill_bytes v bs -> holds b bytes room ->
  (m <= fuel)%nat -> bs * Z.of_nat m <= room ->
  exists b', fill_loop ops fuel o b (bs * Z.of_nat m) = Done (b', 0) /\
    holds b' (bytes ++ fill_bytes v (bs * Z.of_nat m)) (room - bs * Z.of_nat m).
Proof using Hbs Hq Hbs31.
  intros Ho Hf. revert fuel b bytes room. induction m as [|m IH]; intros fuel b bytes room Hh Hm Hr.
  - change (Z.of_nat 0) with 0 in *. rewrite Z.mul_0_r in *. exists b. split; [by destruct fuel|].
    change (fill_bytes v 0) with (@nil byte). rewrite app_nil_r. eapply holds_weaken; [|done]. lia.
  - destruct fuel as [|fuel]; [lia|]. cbn [fill_loop]. zdec. rewrite Ho, Z.min_r by nia.
    rewrite s32_small by lia. rewrite Hf.
    destruct (holds_write b bytes room (fill_bytes v bs) bs Hh) as (b1 & Hw & Hh1);
      [rewrite blen_fill_bytes by lia; lia|nia|lia|].
    rewrite Hw. simpl.
    replace (bs * Z.of_nat (S m) - bs) with (bs * Z.of_nat m) by lia.
    destruct (IH fuel b1 _ _ Hh1) as (b2 & Hl & Hh2); [lia|lia|].
    rewrite Hl. exists b2. split; [done|].
    replace (bs * Z.of_nat (S m)) with (4 * q + bs * Z.of_nat m) by lia.
    rewrite fill_bytes_add by nia. rewrite <- Hbs, app_assoc.
    rewrite fill_bytes_prefix in Hh2 by lia. eapply holds_weaken; [|done]. lia.
Qed.

Lemma write_fill_ok o b bytes room v n :
  out_inv o -> holds b bytes room -> 0 < n -> bs * n < 2 ^ 31 ->
  blen (emit sp bs (CFill v n)) <= room ->
  wrote b bytes room (emit sp bs (CFill v n)) (write_fill_chunk ops o b (bs * n) v).
Proof using All.
  intros Ho Hh Hn H31 Hr. destruct (Ho) as (Hsp & Huc & Hob & Hol & Hz & Hfb).
  unfold write_fill_chunk. rewrite Hsp. destruct sp eqn:Esp; cbn [emit chunk_bytes chunk_image] in *.
  - unfold write_sparse_fill_chunk, check_div. rewrite Hob. zdec. cbn [obind].
    assert (Hdn : DIV_ROUND_UP (bs * n) bs = n) by (apply DIV_ROUND_UP_mul; lia).
    rewrite align32_ok by (rewrite ?Hdn; nia). rewrite Hdn.
    rewrite s32_small by nia. rewrite u32_small by (unfold is_u32; nia).
    rewrite (Z.mul_comm bs n), Z.div_mul by lia.
    assert (Hl4 : blen (le_split 4 v) = 4) by (unfold blen; by rewrite length_le_split).
    rewrite blen_app, blen_chunk_header, Hl4 in Hr.
    set (h := chunk_header_bytes _) in *.
    assert (Hbh : blen h = CHUNK_HEADER_LEN) by apply blen_chunk_header.
    destruct (holds_write_all b bytes room h) as (b1 & Hw1 & Hh1); rewrite ?Hbh in *; [done|lia|done|].
    rewrite Hw1. simpl.
    destruct (holds_write_all b1 _ _ (le_split 4 v) Hh1) as (b2 & Hw2 & Hh2);
      rewrite ?Hl4 in *; [lia|lia|].
    rewrite Hw2. simpl. eexists _, b2. split; [done|]. split; [by destruct (use_crc o)|].
    rewrite blen_app, Hbh, Hl4, app_assoc. eapply holds_weaken; [|exact Hh2]. lia.
  - unfold write_normal_fill_chunk. rewrite Hob, fill_words_ok by done.
    rewrite blen_fill_bytes in Hr by nia.
    set (o' := with_fill_buf o (fill_bytes v bs)).
    replace (bs * n) with (bs * Z.of_nat (Z.to_nat n)) in * by lia.
    destruct (fill_loop_ok (Z.to_nat (bs * Z.of_nat (Z.to_nat n))) o' v (Z.to_nat n) b bytes room)
      as (b' & Hl & Hh'); [done|done|done|nia|done|].
    rewrite Hl. simpl. eexists _, b'. split; [done|]. split.
    + destruct Ho as (Ho1 & _). split_and!; [exact Ho1|exact Huc|exact Hob|exact Hol|exact Hz|].
      apply blen_fill_bytes; lia.
    + by rewrite blen_fill_bytes by lia.
Qed.

Lemma mmap_ok c off len :
  0 <= off -> 0 <= len -> off + len <= blen c -> mmap_bytes c off len = Done (slice off len c).
Proof using.
  intros H1 H2 H3. unfold mmap_bytes, ALIGN.
  pose proof (DIV_ROUND_UP_bounds (blen c) 4096). zdec. by rewrite slice_app_l by lia.
Qed.

Lemma write_mapped_ok o b bytes room len off c :
  out_inv o -> holds b bytes room -> 0 < len -> 0 <= off -> off + len <= blen c ->
  bs * DIV_ROUND_UP len bs + 4096 <= 2 ^ 31 ->
  let ch := CRaw (slice off len c ++ zeros (bs * DIV_ROUND_UP len bs - len)) in
  blen (emit sp bs ch) <= room ->
  wrote b bytes room (emit sp bs ch) (write_mapped_chunk ops o b len off c).
Proof using All.
  intros Ho Hh Hl Ho' Hc H31 ch Hr. unfold write_mapped_chunk.
  rewrite land_page. pose proof (Z.mod_pos_bound off 4096 ltac:(lia)).
  pose proof (DIV_ROUND_UP_bounds len bs ltac:(lia)) as Hd.
  rewrite s32_small by lia. zdec.
  replace (Z.land off (Z.lnot (4096 - 1)) + off mod 4096) with off by (rewrite <- land_page; lia).
  rewrite mmap_ok by lia. cbn [obind].
  assert (Hs : slice 0 len (slice off len c) = slice off len c).
  { rewrite slice_slice by lia. by rewrite Z.add_0_r. }
  pose proof (write_data_ok o b bytes room len (slice off len c)) as Hw.
  rewrite Hs in Hw. apply Hw; try done. rewrite blen_slice by lia. lia.
Qed.

(** One queued block. *)
Lemma write_block_ok o b bytes room bb d :
  out_inv o -> holds b bytes room -> wf_bb bs bb -> fill_aligned bs bb ->
  resolve E nm (bb_payload bb) (bb_len bb) = Some d ->
  bs * bb_blocks bs bb + 4096 <= 2 ^ 31 ->
  blen (emit sp bs (block_chunk bs bb d)) <= room ->
  exists o' b', sparse_file_write_block ops world_of nm o b bb = Done (o', b') /\ out_inv o' /\
    holds b' (bytes ++ emit sp bs (block_chunk bs bb d))
      (room - blen (emit sp bs (block_chunk bs bb d))).
Proof using All.
  intros Ho Hh Hwf Hfa Hd H31 Hr. assert (Hlen : 0 < bb_len bb) by apply Hwf.
  assert (Hgo : forall r, wrote b bytes room (emit sp bs (block_chunk bs bb d)) r ->
    exists o' b', (let! (o, b, _) := r in Done (o, b)) = Done (o', b') /\ out_inv o' /\
      holds b' (bytes ++ emit sp bs (block_chunk bs bb d))
        (room - blen (emit sp bs (block_chunk bs bb d)))).
  { intros r (o' & b' & -> & ? & ?). by exists o', b'. }
  unfold sparse_file_write_block. apply Hgo. clear Hgo.
  pose proof (holds_sees b bytes room Hh) as [Hfds Hfiles].
  unfold block_chunk, fill_aligned, bb_blocks in *.
  destruct (bb_payload bb) as [data|f off|fd off|v]; simpl in Hd.
  - apply in_range_Some in Hd as (_ & _ & Hl & ->). by apply write_data_ok.
  - destruct (nm !! f) as [name|]; [|done]. destruct (e_file E name) as [c|] eqn:He; [|done].
    apply in_range_Some in Hd as (? & _ & Hl & ->).
    unfold write_file_chunk. rewrite (Hfiles _ _ He). by apply write_mapped_ok.
  - destruct (e_fd E fd) as [c|] eqn:He; [|done].
    apply in_range_Some in Hd as (? & _ & Hl & ->).
    unfold write_fd_chunk. destruct (Hfds _ _ He) as (f & -> & <-). by apply write_mapped_ok.
  - apply Z.mod_divide in Hfa as [k Hk]; [|lia]. rewrite Z.mul_comm in Hk.
    rewrite Hk in *. rewrite DIV_ROUND_UP_mul in * by lia. apply write_fill_ok; try done; nia.
Qed.

Lemma write_blocks_loop_ok o b bytes room last l cs :
  out_inv o -> holds b bytes room -> 0 <= last -> wf_from bs last l ->
  Forall (fill_aligned bs) l -> chunks_from E nm bs last l = Some cs ->
  bs * last_end bs last l + 4096 <= 2 ^ 31 -> blen (emit_all sp bs cs) <= room ->
  exists o' b', write_blocks_loop ops world_of nm bs o b last l = Done (o', b', last_end bs last l) /\
    out_inv o' /\ holds b' (bytes ++ emit_all sp bs cs) (room - blen (emit_all sp bs cs)).
Proof using All.
  revert o b bytes room last cs.
  induction l as [|bb tl IH]; intros o b bytes room last cs Ho Hh H0 Hwf Hfa Hcs H31 Hr.
  { injection Hcs as <-. exists o, b. change (emit_all sp bs []) with (@nil byte).
    rewrite app_nil_r, Z.sub_0_r. done. }
  simpl in Hcs. destruct (resolve _ _ _ _) as [d|] eqn:Hd; [|done].
  destruct (chunks_from _ _ _ _ tl) as [cs'|] eqn:Hcs'; [|done]. injection Hcs as <-.
  destruct Hwf as (Hlo & Hbb & Htl). apply Forall_cons in Hfa as [Hfb Hfa].
  pose proof (last_end_le bs _ _ ltac:(lia) Htl) as Hle.
  pose proof (bb_blocks_pos bs ltac:(lia) bb Hbb) as Hp. simpl in H31.
  set (c := block_chunk bs bb d) in *.
  change (c :: cs') with ([c] ++ cs') in Hr |- *. rewrite !emit_all_app, !blen_app in *.
  assert (Hc1 : emit_all sp bs [c] = emit sp bs c) by apply app_nil_r. rewrite Hc1 in *.
  pose proof (blen_nonneg (emit_all sp bs (skip_to last (bb_block bb)))).
  pose proof (blen_nonneg (emit sp bs c)). pose proof (blen_nonneg (emit_all sp bs cs')).
  assert (Hsk : exists o1 b1, (if last <? bb_block bb then
      let! (o, b, _) := write_skip_chunk ops o b (u32 (bb_block bb - last) * bs) in Done (o, b)
      else Done (o, b)) = Done (o1, b1) /\ out_inv o1 /\
      holds b1 (bytes ++ emit_all sp bs (skip_to last (bb_block bb)))
        (room - blen (emit_all sp bs (skip_to last (bb_block bb))))).
  { unfold skip_to in *. destruct (Z.ltb_spec last (bb_block bb)).
    - assert (Hone : emit_all sp bs [CSkip (bb_block bb - last)] = emit sp bs (CSkip (bb_block bb - last)))
        by apply app_nil_r. rewrite Hone in *.
      rewrite u32_small by (destruct Hbb as (? & ? & ?); unfold is_u32, bb_end in *; lia).
      rewrite (Z.mul_comm _ bs).
      destruct (write_skip_ok o b bytes room (bb_block bb - last)) as (o1 & b1 & -> & Ho1 & Hh1);
        [done|done|lia|unfold bb_end in *; nia|lia|]. by exists o1, b1.
    - exists o, b. change (emit_all sp bs []) with (@nil byte). by rewrite app_nil_r, Z.sub_0_r. }
  destruct Hsk as (o1 & b1 & Hs1 & Ho1 & Hh1). cbn [write_blocks_loop]. rewrite Hs1. cbn [obind].
  destruct (write_block_ok o1 b1 _ _ bb d Ho1 Hh1 Hbb Hfb Hd) as (o2 & b2 & -> & Ho2 & Hh2);
    [unfold bb_end in *; nia|unfold c in *; lia|]. cbn [obind].
  rewrite div_round_up32_ok by (destruct Hbb as (? & ? & ?); unfold bb_end, bb_blocks in *; lia || nia).
  rewrite u32_small by (destruct Hbb as (? & ? & ?); unfold is_u32, bb_end, bb_blocks in *; lia).
  destruct (IH o2 b2 _ _ (bb_end bs bb) cs' Ho2 Hh2) as (o3 & b3 & Hl3 & Ho3 & Hh3); try done.
  { destruct Hbb as (? & _). unfold bb_end. lia. }
  { fold c. lia. }
  exists o3, b3. split; [exact Hl3|]. split; [done|]. fold c in Hh3.
  rewrite <- !app_assoc in Hh3. eapply holds_weaken; [|exact Hh3]. lia.
Qed.

Lemma write_all_blocks_ok s o b bytes room cs n :
  sf_block_size s = bs -> sf_names s = nm -> sf_len s = bs * n ->
  out_inv o -> holds b bytes room -> wf_from bs 0 (sf_blocks s) ->
  Forall (fill_aligned bs) (sf_blocks s) -> last_end bs 0 (sf_blocks s) <= n ->
  bs * n + 4096 <= 2 ^ 31 -> chunks_of E s = Some cs -> blen (emit_all sp bs cs) <= room ->
  exists o' b', write_all_blocks ops world_of s o b = Done (o', b', 0) /\ out_inv o' /\
    holds b' (bytes ++ emit_all sp bs cs) (room - blen (emit_all sp bs cs)).
Proof using All.
  intros Hsb Hsn Hsl Ho Hh Hwf Hfa Hend H31 Hcs Hr.
  unfold chunks_of in Hcs. rewrite Hsb, Hsn, Hsl, DIV_ROUND_UP_mul in Hcs by lia.
  destruct (chunks_from _ _ _ _ _) as [cs'|] eqn:Hcs'; [|done]. injection Hcs as <-.
  rewrite emit_all_app, blen_app in *.
  set (e := last_end bs 0 (sf_blocks s)) in *.
  pose proof (blen_nonneg (emit_all sp bs (skip_to e n))).
  destruct (write_blocks_loop_ok o b bytes room 0 (sf_blocks s) cs') as (o1 & b1 & Hl & Ho1 & Hh1);
    try done; [fold e; nia|lia|].
  unfold write_all_blocks. rewrite Hsn, Hsb, Hl. cbn [obind]. fold e. rewrite Hsl.
  replace (bs * n - e * bs) with (bs * (n - e)) by lia.
  destruct (Z.ltb_spec (bs * (n - e)) 0); [nia|]. unfold skip_to in *.
  destruct (Z.ltb_spec e n).
  - destruct (Z.ltb_spec 0 (bs * (n - e))); [|nia].
    assert (Hone : emit_all sp bs [CSkip (n - e)] = emit sp bs (CSkip (n - e))) by apply app_nil_r.
    rewrite Hone in *.
    pose proof (last_end_le bs 0 (sf_blocks s) ltac:(lia) Hwf) as He0. fold e in He0.
    destruct (write_skip_ok o1 b1 _ _ (n - e) Ho1 Hh1) as (o2 & b2 & -> & Ho2 & Hh2);
      [lia|nia|lia|].
    exists o2, b2. split; [done|]. split; [done|]. rewrite <- app_assoc in Hh2.
    eapply holds_weaken; [|exact Hh2]. lia.
  - assert (n - e = 0) as -> by lia. rewrite Z.mul_0_r, Z.ltb_irrefl.
    exists o1, b1. split; [done|]. split; [done|]. change (emit_all sp bs []) with (@nil byte).
    change (blen (@nil byte)) with 0. rewrite app_nil_r. eapply holds_weaken; [|exact Hh1]. lia.
Qed.
End Writer.

(** ** Whole files *)

(** A sparse file that can be written: whole blocks of a multiple of four
    bytes, sorted disjoint queued blocks inside the length, readable sources,
    and an image small enough for the [int] lengths of the writer.  [cs] are
    its chunks. *)
Definition image_ok (E : env) (s : sparse_file) (cs : list chunk) : Prop :=
  sf_block_size s mod 4 = 0 /\ 0 < sf_block_size s < 2 ^ 31 /\
  sf_len s mod sf_block_size s = 0 /\ 0 <= sf_len s /\ sf_len s + 4096 <= 2 ^ 31 /\
  wf_from (sf_block_size s) 0 (sf_blocks s) /\ Forall (fill_aligned (sf_block_size s)) (sf_blocks s) /\
  last_end (sf_block_size s) 0 (sf_blocks s) <= sf_len s / sf_block_size s /\
  chunks_of E s = Some cs.

Lemma image_ok_sizes E s cs :
  image_ok E s cs ->
  exists q n, sf_block_size s = 4 * q /\ 0 < q /\ sf_len s = sf_block_size s * n /\ 0 <= n /\
    sf_len s / sf_block_size s = n /\ DIV_ROUND_UP (sf_len s) (sf_block_size s) = n.
Proof.
  intros (H4 & Hb & Hm & Hl & _). apply Z.mod_divide in H4 as [q Hq]; [|lia].
  apply Z.mod_divide in Hm as [n Hn]; [|lia]. exists q, n.
  rewrite Hn, Z.div_mul by lia. rewrite (Z.mul_comm n), DIV_ROUND_UP_mul by lia.
  split_and!; lia || nia.
Qed.

Lemma chunk_ok_blocks bs c : 0 < bs -> chunk_ok bs c -> 0 < chunk_blocks bs c.
Proof.
  intros Hbs. destruct c as [d| |]; simpl; try lia. intros (n & Hn & ->).
  by rewrite Z.mul_comm, Z.div_mul by lia.
Qed.

Lemma blen_chunks_le bs cs :
  0 < bs -> Forall (chunk_ok bs) cs -> blen cs <= chunks_blocks bs cs.
Proof.
  intros Hbs. induction 1 as [|c cs Hc Hcs IH]; [done|].
  pose proof (chunk_ok_blocks bs c Hbs Hc). unfold blen in *. simpl. fold (chunks_blocks bs cs). lia.
Qed.

Lemma blen_chunks_image bs cs :
  0 < bs -> Forall (chunk_ok bs) cs -> blen (chunks_image bs cs) = bs * chunks_blocks bs cs.
Proof.
  intros Hbs. induction 1 as [|c cs Hc Hcs IH]; [unfold blen; simpl; lia|].
  unfold chunks_image, chunks_blocks in *. cbn [fmap list_fmap mjoin list_join foldr].
  change (blen (chunk_image bs c ++ chunks_image bs cs) = bs * (chunk_blocks bs c + chunks_blocks bs cs)).
  rewrite blen_app. unfold chunks_image. rewrite IH.
  pose proof (chunk_ok_blocks bs c Hbs Hc) as Hp. unfold chunks_blocks.
  destruct c as [d| |]; cbn [chunk_image chunk_blocks] in *.
  - destruct Hc as (n & Hn & Hd). rewrite Hd in *. rewrite Z.mul_comm, Z.div_mul by lia. lia.
  - rewrite blen_fill_bytes by nia. lia.
  - rewrite blen_zeros by nia. lia.
Qed.

Lemma image_ok_chunks E s cs :
  image_ok E s cs ->
  sparse_image E s = Some (chunks_image (sf_block_size s) cs) /\
  chunks_blocks (sf_block_size s) cs = sf_len s / sf_block_size s /\
  Forall (chunk_ok (sf_block_size s)) cs /\ blen cs <= sf_len s / sf_block_size s.
Proof.
  intros Hok. destruct (image_ok_sizes E s cs Hok) as (q & n & Hbs & Hq & Hl & Hn & Hdiv & Hdru).
  destruct Hok as (_ & Hb & _ & _ & _ & Hwf & Hfa & Hend & Hcs).
  destruct (chunks_of_spec E s q cs Hbs Hq Hwf Hfa) as (Him & Hbl & Hck); [lia|done|].
  split_and!; try done; [lia|]. pose proof (blen_chunks_le (sf_block_size s) cs ltac:(lia) Hck). lia.
Qed.

Lemma count_step_chunks E nm bs l last c cs :
  0 < bs < 2 ^ 31 -> 0 <= last -> 0 <= c -> wf_from bs last l ->
  chunks_from E nm bs last l = Some cs -> bs * last_end bs last l < 2 ^ 31 ->
  c + blen cs < 2 ^ 32 ->
  foldl (count_step bs) (last, c) l = (last_end bs last l, c + blen cs).
Proof.
  intros Hbs. revert last c cs. induction l as [|bb tl IH]; intros last c cs H0 Hc Hwf Hcs H31 Hlt.
  { injection Hcs as <-. simpl. f_equal. unfold blen; simpl. lia. }
  simpl in Hcs. destruct (resolve _ _ _ _) as [d|]; [|done].
  destruct (chunks_from _ _ _ _ tl) as [cs'|] eqn:Hcs'; [|done]. injection Hcs as <-.
  destruct Hwf as (Hlo & Hbb & Htl).
  pose proof (last_end_le bs _ _ ltac:(lia) Htl). pose proof (bb_blocks_pos bs ltac:(lia) bb Hbb).
  destruct (Hbb) as (? & ? & ?). simpl in H31.
  cbn [foldl]. unfold count_step at 2.
  rewrite div_round_up32_ok by (unfold bb_end, bb_blocks in *; lia || nia).
  rewrite (u32_small (bb_block bb + _)) by (unfold is_u32, bb_end, bb_blocks in *; lia).
  fold (bb_blocks bs bb). fold (bb_end bs bb).
  rewrite blen_app in Hlt |- *. assert (Hone : blen (block_chunk bs bb d :: cs') = 1 + blen cs')
    by (unfold blen; simpl; lia). rewrite Hone in *.
  pose proof (blen_nonneg cs').
  assert (Hsk : (if last <? bb_block bb then u32 (c + 1) else c) = c + blen (skip_to last (bb_block bb))
    /\ 0 <= blen (skip_to last (bb_block bb))).
  { unfold skip_to in *. destruct (last <? bb_block bb); unfold blen in *; simpl in *; [|lia].
    rewrite u32_small by (unfold is_u32; lia). lia. }
  destruct Hsk as [-> ?]. rewrite u32_small by (unfold is_u32; lia).
  assert (0 <= bb_end bs bb) by (unfold bb_end; lia).
  rewrite (IH (bb_end bs bb) _ cs'); try done; try lia. f_equal. lia.
Qed.

(** The chunk count of the header is the number of chunks written. *)
Lemma count_chunks_ok E s cs :
  image_ok E s cs -> sparse_count_chunks s = Done (blen cs).
Proof.
  intros Hok. pose proof (image_ok_chunks E s cs Hok) as (_ & _ & _ & Hle).
  destruct (image_ok_sizes E s cs Hok) as (q & n & Hbs & Hq & Hl & Hn & Hdiv & Hdru).
  destruct Hok as (_ & Hb & _ & _ & H31 & Hwf & Hfa & Hend & Hcs).
  unfold chunks_of in Hcs. destruct (chunks_from _ _ _ _ _) as [cs'|] eqn:Hcs'; [|done].
  injection Hcs as <-. rewrite blen_app in *. rewrite Hdru, Hdiv in *.
  set (bs := sf_block_size s) in *. set (e := last_end bs 0 (sf_blocks s)) in *.
  pose proof (blen_nonneg cs'). pose proof (blen_nonneg (skip_to e n)).
  assert (n < 2 ^ 31) by nia.
  unfold sparse_count_chunks, check_div. fold bs. zdec. cbn [obind].
  rewrite (count_step_chunks E (sf_names s) bs _ 0 0 cs'); try done; try lia; [|nia].
  fold e. rewrite Z.quot_div_nonneg by lia. unfold DIV_ROUND_UP in Hdru. rewrite Hdru.
  f_equal. unfold skip_to in *. destruct (e <? n); unfold blen in *; simpl in *; [|lia].
  rewrite u32_small by (unfold is_u32; lia). lia.
Qed.

Definition sparse_file_header (s : sparse_file) (chunks : Z) (crc : bool) : list byte :=
  sparse_header_bytes (new_sparse_header (sf_block_size s) (sf_len s) chunks crc).

Lemma blen_sparse_header h : blen (sparse_header_bytes h) = SPARSE_HEADER_LEN.
Proof. unfold blen. by rewrite length_sparse_header_bytes. Qed.

Section Whole.
Context {B : Type} (ops : output_file_ops B) (world_of : B -> world) (E : env).
Context `{!OutputBackend ops world_of E}.
Context (s : sparse_file) (cs : list chunk) (Hok : image_ok E s cs).

(** Opening and writing all blocks of a sparse file. *)
Lemma write_image_ok sp crc b room :
  (sp = false -> can_skip = true) -> holds b [] room ->
  let head := if sp then sparse_file_header s (blen cs) crc else [] in
  blen head + blen (emit_all sp (sf_block_size s) cs) <= room ->
  exists o b1 o' b', output_file_init ops b (sf_block_size s) (sf_len s) sp (blen cs) crc
      = Done (Some o, b1) /\
    write_all_blocks ops world_of s o b1 = Done (o', b', 0) /\
    out_inv (sf_block_size s) sp crc (sf_len s) o' /\
    holds b' (head ++ emit_all sp (sf_block_size s) cs)
      (room - blen head - blen (emit_all sp (sf_block_size s) cs)).
Proof using All.
  intros Hsk Hh head Hr.
  destruct (image_ok_sizes E s cs Hok) as (q & n & Hbs & Hq & Hl & Hn & Hdiv & Hdru).
  destruct Hok as (_ & Hb & _ & _ & H31 & Hwf & Hfa & Hend & Hcs).
  set (bs := sf_block_size s) in *. pose proof (blen_nonneg (emit_all sp bs cs)).
  set (o := mk_output_file 0 0 0 sp crc bs (sf_len s) (zeros bs) (zeros bs)).
  assert (Ho : out_inv bs sp crc (sf_len s) o).
  { split_and!; try done. simpl. apply blen_zeros. lia. }
  assert (Hinit : exists b1, output_file_init ops b bs (sf_len s) sp (blen cs) crc = Done (Some o, b1) /\
            holds b1 head (room - blen head)).
  { unfold output_file_init. destruct sp; subst head.
    - unfold check_div. zdec. cbn [obind].
      destruct (holds_write_all ops world_of E b [] room (sparse_file_header s (blen cs) crc))
        as (b1 & Hw & Hh1); [done|lia|unfold sparse_file_header; by rewrite blen_sparse_header|].
      unfold sparse_file_header in *. fold bs in Hw, Hh1. rewrite blen_sparse_header in *.
      rewrite Hw. simpl. exists b1. by split.
    - exists b. split; [done|]. eapply holds_weaken; [|done]. unfold blen; simpl. lia. }
  destruct Hinit as (b1 & Hin & Hh1).
  destruct (write_all_blocks_ok ops world_of E bs q sp crc (sf_len s) (sf_names s) Hbs Hq
    ltac:(lia) Hsk s o b1 head (room - blen head) cs n) as (o' & b' & Hw & Ho' & Hh');
    try done; try lia.
  eexists o, b1, o', b'. split_and!; try done.
Qed.
End Whole.

(** ** Writing to a file descriptor *)

(** Descriptor [fd] is an empty output file, no source is read from it, and
    the device takes [room] bytes. *)
Definition empty_output (E : env) (w : world) (fd room : Z) : Prop :=
  exists f, w_fds w !! fd = Some f /\ f_data f = [] /\ f_pos f = 0 /\ e_fd E fd = None /\
    room <= w_space w /\ sees w E.

Lemma empty_output_exact E w fd room :
  empty_output E w fd room -> file_exact E fd (w, fd) [] room.
Proof. intros (f & Hf & Hd & Hp & He & Hr & Hs). split; [done|]. exists f. split_and!; done. Qed.

Lemma empty_output_holds E w fd room :
  empty_output E w fd room -> file_holds E fd (w, fd) [] room.
Proof.
  intros (f & Hf & Hd & Hp & He & Hr & Hs). split; [done|]. exists f. simpl. rewrite Hd.
  split_and!; done.
Qed.

Lemma write_sparse_exact E s cs w fd :
  image_ok E s cs ->
  empty_output E w fd (SPARSE_HEADER_LEN + blen (chunks_bytes (sf_block_size s) cs)) ->
  exists w' f', sparse_file_write s w fd true false = Done (w', 0) /\
    w_fds w' !! fd = Some f' /\ sees w' E /\
    f_data f' = sparse_file_header s (blen cs) false ++ chunks_bytes (sf_block_size s) cs.
Proof.
  intros Hok Hout. pose proof (empty_output_exact _ _ _ _ Hout) as Hh.
  destruct (write_image_ok (OutputBackend0 := file_backend_exact E fd) file_ops fst E s cs Hok true false
    (w, fd) _ ltac:(done) Hh) as (o & b1 & o' & b' & Hin & Hw & Ho' & Hh').
  { unfold sparse_file_header. rewrite blen_sparse_header, emit_all_sparse. lia. }
  destruct Hh' as (<- & f' & Hf' & _ & Hd & _ & _ & Hs).
  unfold sparse_file_write. rewrite (count_chunks_ok E s cs Hok). cbn [obind].
  unfold output_file_open_fd. cbn [op_open file_ops file_open fst].
  rewrite Hin. cbn [obind write_and_close]. rewrite Hw. cbn [obind].
  unfold output_file_close, write_sparse_end_chunk. destruct Ho' as (-> & -> & _).
  cbn. exists b'.1, f'. split_and!; done.
Qed.

Lemma write_plain_exact E s cs w fd crc :
  image_ok E s cs -> empty_output E w fd (sf_len s) ->
  exists w' f', sparse_file_write s w fd false crc = Done (w', 0) /\
    w_fds w' !! fd = Some f' /\ sees w' E /\
    f_data f' = chunks_image (sf_block_size s) cs.
Proof.
  intros Hok Hout. pose proof (empty_output_holds _ _ _ _ Hout) as Hh.
  destruct (image_ok_chunks E s cs Hok) as (Him & Hbl & Hck & _).
  destruct (image_ok_sizes E s cs Hok) as (q & n & Hbs & Hq & Hl & Hn & Hdiv & _).
  assert (Hlen : blen (chunks_image (sf_block_size s) cs) = sf_len s).
  { rewrite blen_chunks_image by (done || lia). rewrite Hbl. lia. }
  destruct (write_image_ok (OutputBackend0 := file_backend E fd) file_ops fst E s cs Hok false crc
    (w, fd) _ ltac:(done) Hh) as (o & b1 & o' & b' & Hin & Hw & Ho' & Hh').
  { rewrite emit_all_normal, Hlen. unfold blen. simpl. lia. }
  destruct Hh' as (<- & f' & Hf' & _ & Hd & _ & Hfd & Hs).
  unfold sparse_file_write. rewrite (count_chunks_ok E s cs Hok). cbn [obind].
  unfold output_file_open_fd. cbn [op_open file_ops file_open fst].
  rewrite Hin. cbn [obind write_and_close]. rewrite Hw. cbn [obind].
  unfold output_file_close, write_normal_end_chunk. destruct Ho' as (-> & _ & _ & -> & _).
  cbn [op_pad op_close file_ops file_close]. unfold file_pad, ftruncate. rewrite Hf'.
  rewrite emit_all_normal, app_nil_l, Hlen in Hd. zdec. cbn.
  eexists _, _. split; [done|]. split; [apply lookup_set_fd|]. split; [by apply sees_insert|].
  simpl. rewrite Hd, <- Hlen. apply slice_all.
Qed.

Lemma sparse_file_len_exact E s cs w sp crc :
  image_ok E s cs -> sees w E ->
  sparse_file_len s w sp crc = Done
    (if sp then SPARSE_HEADER_LEN + blen (chunks_bytes (sf_block_size s) cs)
                + (if crc then CHUNK_HEADER_LEN + 4 else 0)
     else sf_len s).
Proof.
  intros Hok Hs. destruct (image_ok_chunks E s cs Hok) as (Him & Hbl & Hck & _).
  destruct (image_ok_sizes E s cs Hok) as (q & n & Hbs & Hq & Hl & Hn & Hdiv & _).
  pose proof (blen_chunks_image (sf_block_size s) cs ltac:(lia) Hck) as Hlen.
  rewrite Hbl, Hdiv, <- Hl in Hlen.
  edestruct (write_image_ok (OutputBackend0 := counter_backend w E)
    (callback_file_ops out_counter_write) (fun _ => w) E s cs Hok sp crc 0)
    as (o & b1 & o' & b' & Hin & Hw & Ho' & Hh'); [done|by split|reflexivity|].
  destruct Hh' as [-> _].
  unfold sparse_file_len. rewrite (count_chunks_ok E s cs Hok). cbn [obind].
  unfold output_file_open_callback. rewrite Hin. cbn [obind write_and_close]. rewrite Hw.
  cbn [obind]. unfold output_file_close, write_sparse_end_chunk, write_normal_end_chunk.
  destruct Ho' as (-> & -> & _ & _). rewrite blen_app.
  destruct sp; [|cbn; rewrite emit_all_normal, Hlen; f_equal; unfold blen; simpl; lia].
  unfold sparse_file_header. rewrite blen_sparse_header, emit_all_sparse.
  destruct crc; cbn -[Z.add]; unfold callback_file_close; f_equal; lia.
Qed.

(** C3.  [sparse_file_write] of a sparse image without checksum succeeds and
    leaves in the file the header, whose chunk count is exact, followed by the
    encoded chunks of the sparse file; the sources are unchanged. *)
Theorem sparse_file_write_sparse E s cs w fd :
  image_ok E s cs ->
  empty_output E w fd (SPARSE_HEADER_LEN + blen (chunks_bytes (sf_block_size s) cs)) ->
  exists w' f', sparse_file_write s w fd true false = Done (w', 0) /\
    w_fds w' !! fd = Some f' /\ sees w' E /\
    f_data f' = sparse_file_header s (blen cs) false ++ chunks_bytes (sf_block_size s) cs.
Proof. apply write_sparse_exact. Qed.

(** C4.  [sparse_file_write] in plain mode (simg2img) succeeds and leaves
    exactly the image the sparse file denotes: every queued source, the zero
    padding of partial blocks, the holes and the tail included. *)
Theorem sparse_file_write_plain E s cs w fd crc :
  image_ok E s cs -> empty_output E w fd (sf_len s) ->
  exists w' f' img, sparse_file_write s w fd false crc = Done (w', 0) /\
    w_fds w' !! fd = Some f' /\ sees w' E /\
    sparse_image E s = Some img /\ f_data f' = img.
Proof.
  intros Hok Hout. destruct (write_plain_exact E s cs w fd crc Hok Hout) as (w' & f' & ? & ? & ? & ?).
  pose proof (image_ok_chunks E s cs Hok) as (Him & _). eauto 10.
Qed.

(**  [sparse_file_len] computes, without writing, the exact size of the
    file [sparse_file_write] produces, in both modes; that much room on the
    device is enough for the write to succeed. *)
Theorem sparse_file_len_predicts_write E s cs w fd sp n :
  image_ok E s cs -> sparse_file_len s w sp false = Done n -> empty_output E w fd n ->
  exists w' f', sparse_file_write s w fd sp false = Done (w', 0) /\
    w_fds w' !! fd = Some f' /\ blen (f_data f') = n.
Proof.
  intros Hok Hlen Hout. assert (Hs : sees w E) by (destruct Hout as (f & ?); tauto).
  rewrite (sparse_file_len_exact E s cs w sp false Hok Hs) in Hlen. injection Hlen as <-.
  destruct sp.
  - rewrite Z.add_0_r in *.
    destruct (write_sparse_exact E s cs w fd Hok Hout) as (w' & f' & ? & ? & _ & Hd).
    exists w', f'. split_and!; try done. rewrite Hd. unfold sparse_file_header. by rewrite blen_app, blen_sparse_header.
  - destruct (write_plain_exact E s cs w fd false Hok Hout) as (w' & f' & ? & ? & _ & Hd).
    exists w', f'. split_and!; try done. rewrite Hd.
    destruct (image_ok_chunks E s cs Hok) as (_ & Hbl & Hck & _).
    destruct (image_ok_sizes E s cs Hok) as (q & m & ? & ? & ? & _ & ? & _).
    rewrite blen_chunks_image by (done || lia). rewrite Hbl. lia.
Qed.

(** ** A concrete image *)
Module WriteWitnesses.
(** Blocks of four bytes: data, a hole, a fill of two blocks, a partial block
    of descriptor 3, a hole. *)
Definition src : list byte := [Init.Byte.x01; Init.Byte.x02; Init.Byte.x03; Init.Byte.x04; Init.Byte.x05].
Definition s0 : sparse_file := mk_sparse_file 4 28 false
  [mk_bb 0 4 (BLOCK_DATA src); mk_bb 2 8 (BLOCK_FILL 7); mk_bb 4 3 (BLOCK_FD 3 2)] ∅.
Definition E0 : env := mk_env (fun fd => if fd =? 3 then Some src else None) (fun _ => None).
Definition w0 : world := mk_world {[ 3 := mk_ofile src 0 2; 4 := mk_ofile [] 0 9 ]} ∅ 1000.
Definition cs0 : list chunk :=
  [CRaw [Init.Byte.x01; Init.Byte.x02; Init.Byte.x03; Init.Byte.x04]; CSkip 1; CFill 7 2;
   CRaw [Init.Byte.x03; Init.Byte.x04; Init.Byte.x05; Init.Byte.x00]; CSkip 2].

Lemma image_ok0 : image_ok E0 s0 cs0.
Proof.
  unfold image_ok. change (sf_blocks s0) with
    [mk_bb 0 4 (BLOCK_DATA src); mk_bb 2 8 (BLOCK_FILL 7); mk_bb 4 3 (BLOCK_FD 3 2)].
  rewrite !Forall_cons, Forall_nil. concrete.
Defined.

Lemma sees0 : sees w0 E0.
Proof.
  split; [|done]. intros fd c. simpl. destruct (Z.eqb_spec fd 3) as [->|]; [|done].
  intros [= <-]. by eexists.
Defined.

Lemma empty_output0 room : room <= 1000 -> empty_output E0 w0 4 room.
Proof. intros Hr. eexists. split; [reflexivity|]. split_and!; try done. apply sees0. Defined.

Lemma sparse_file_write_sparse_witness :
  exists w' f', sparse_file_write s0 w0 4 true false = Done (w', 0) /\
    w_fds w' !! 4 = Some f' /\ sees w' E0 /\
    f_data f' = sparse_file_header s0 5 false ++ chunks_bytes 4 cs0.
Proof.
  apply (sparse_file_write_sparse E0 s0 cs0 w0 4 image_ok0). apply empty_output0. concrete.
Defined.

Lemma sparse_file_write_plain_witness :
  exists w' f' img, sparse_file_write s0 w0 4 false false = Done (w', 0) /\
    w_fds w' !! 4 = Some f' /\ sees w' E0 /\ sparse_image E0 s0 = Some img /\ f_data f' = img.
Proof.
  apply (sparse_file_write_plain E0 s0 cs0 w0 4 false image_ok0). apply empty_output0. concrete.
Defined.

Lemma sparse_file_len_predicts_write_witness :
  exists w' f', sparse_file_write s0 w0 4 true false = Done (w', 0) /\
    w_fds w' !! 4 = Some f' /\ blen (f_data f') = 100.
Proof.
  apply (sparse_file_len_predicts_write E0 s0 cs0 w0 4 true 100 image_ok0).
  - vm_compute. reflexivity.
  - apply empty_output0. lia.
Defined.
End WriteWitnesses.
