(* ===== verification/ReadCorrect.v ===== *)
(** * The readers are correct

    [sparse_file_read] against the image of a sparse file: the blocks queued
    while reading denote the image the chunks (or the plain file) denote, and
    the running checksum is the checksum of that image. *)
From S2P Require Import Prelude Crc32 BlockList Posix SparseFormat OutputFile Sparse SparseRead.
From S2P Require Import ImageSpec WriteCorrect.

(** ** What has been read so far *)

Definition resolves (E : env) (nm : gmap loc string) (bb : backed_block) : Prop :=
  is_Some (resolve E nm (bb_payload bb) (bb_len bb)).

(** The blocks of [s] lie below [cur] and denote [img] there. *)
Record read_upto (E : env) (bs : Z) (s : sparse_file) (cur : Z) (img : list byte) : Prop := {
  ru_bs : sf_block_size s = bs;
  ru_wf : wf_from bs 0 (sf_blocks s);
  ru_above : forall k, cur <= k -> view bs (sf_blocks s) k = None;
  ru_total : total_len (sf_blocks s) <= bs * cur;
  ru_fill : Forall (fill_aligned bs) (sf_blocks s);
  ru_res : Forall (resolves E (sf_names s)) (sf_blocks s);
  ru_img : image E (sf_names s) bs (sf_blocks s) 0 cur = Some img
}.

Lemma in_range_join off a b c x y :
  in_range off a c = Some x -> in_range (off + a) b c = Some y ->
  in_range off (a + b) c = Some (x ++ y).
Proof.
  intros (? & ? & ? & ->)%in_range_Some (? & ? & ? & ->)%in_range_Some.
  apply in_range_Some. split_and!; try lia. by rewrite slice_add by lia.
Qed.

Lemma try_merge_Some bs a b ab :
  try_merge bs a b = Done (Some ab) ->
  merge_payload (bb_len a) (bb_payload a) (bb_payload b) = true /\
  ab = mk_bb (bb_block a) (u32 (bb_len a + bb_len b)) (bb_payload a) /\
  u32 (bb_block a + bb_len a / bs) = bb_block b.
Proof.
  unfold try_merge. destruct (bb_block a <? bb_block b); simpl; [|done].
  case_bool_decide; simpl; [done|]. destruct (bs =? 0); [done|].
  destruct (Z.eqb_spec (u32 (bb_block a + bb_len a / bs)) (bb_block b)); simpl; [|done].
  destruct (merge_payload _ _ _); simpl; [|done]. by intros [= <-].
Qed.

Lemma fill_aligned_stable bs : 0 < bs -> merge_stable bs (fill_aligned bs).
Proof.
  intros Hbs a b ab Ha Hb (_ & Hla & _) (_ & Hlb & _) _ Hlen (Hm & -> & _)%try_merge_Some.
  unfold fill_aligned in *. simpl. rewrite u32_small by (unfold is_u32; lia).
  destruct (bb_payload a), (bb_payload b); simpl in *; try done.
  rewrite Zplus_mod, Ha, Hb. by rewrite Zmod_0_l.
Qed.

Lemma resolves_stable E nm bs : merge_stable bs (resolves E nm).
Proof.
  intros a b ab [x Ha] [y Hb] (_ & Hla & _) (_ & Hlb & _) _ Hlen (Hm & -> & _)%try_merge_Some.
  unfold resolves in *. simpl. rewrite u32_small by (unfold is_u32; lia).
  destruct (bb_payload a) as [| | |], (bb_payload b) as [| | |]; simpl in *; try done.
  - apply andb_true_iff in Hm as [->%bool_decide_eq_true <-%Z.eqb_eq].
    destruct (nm !! _); [|done]. destruct (e_file E _); [|done]. eexists. by eapply in_range_join.
  - apply andb_true_iff in Hm as [->%Z.eqb_eq <-%Z.eqb_eq].
    destruct (e_fd E _); [|done]. eexists. by eapply in_range_join.
  - zdec. eauto.
Qed.

(** [s'] differs from [s] in its blocks only. *)
Definition same_file (s s' : sparse_file) : Prop :=
  sf_len s' = sf_len s /\ sf_names s' = sf_names s /\ sf_verbose s' = sf_verbose s.

(** Queueing the next block extends what has been read by its bytes. *)
Lemma read_upto_queue E bs q s cur img p len d :
  bs = 4 * q -> 0 < q -> read_upto E bs s cur img -> 0 <= cur -> 0 < len ->
  bs * (cur + DIV_ROUND_UP len bs) < 2 ^ 32 -> resolve E (sf_names s) p len = Some d ->
  fill_aligned bs (mk_bb cur len p) ->
  exists s', queue_block s (mk_bb cur len p) = Done (s', 0) /\
    same_file s s' /\
    read_upto E bs s' (cur + DIV_ROUND_UP len bs)
      (img ++ d ++ zeros (bs * DIV_ROUND_UP len bs - len)).
Proof.
  intros Hbs Hq [Hb Hwf Hab Htot Hfill Hres Himg] Hcur Hlen Hlt Hd Hfa.
  pose proof (DIV_ROUND_UP_bounds len bs ltac:(lia)) as Hdr.
  set (n := DIV_ROUND_UP len bs) in *. set (new := mk_bb cur len p).
  assert (Hn : 0 < n) by (apply DIV_ROUND_UP_pos; lia).
  assert (Hnew : wf_bb bs new) by (unfold wf_bb, bb_end, bb_blocks; simpl; fold n; split_and!; nia).
  assert (Hdis : disjoint_from bs new (sf_blocks s)) by (eapply disjoint_from_after; eauto; lia).
  destruct (queue_spec bs ltac:(lia) 0 (sf_blocks s) new) as (l' & Hqu & Hwf' & Htot' & Hv);
    [done|done|done|done|simpl; lia|].
  exists (with_blocks s l'). unfold queue_block. rewrite Hb, Hqu. split_and!; try done.
  assert (Hbn : bb_blocks bs new = n) by done.
  assert (He : bb_end bs new = cur + n) by done.
  split; simpl; try done.
  - intros k Hk. rewrite Hv. unfold covers. rewrite He. zdec. rewrite andb_false_r. apply Hab. lia.
  - rewrite Htot'. simpl. lia.
  - eapply (queue_Forall bs ltac:(lia) _ 0 (sf_blocks s) new); try done;
      [by apply fill_aligned_stable; lia|simpl; lia].
  - eapply (queue_Forall bs ltac:(lia) _ 0 (sf_blocks s) new); try done;
      [apply resolves_stable|by eexists|simpl; lia].
  - eapply (image_add _ _ _ _ 0 cur); [lia| |].
    + rewrite <- Himg. apply image_ext. intros k Hk. rewrite Hv. unfold covers. simpl. by zdec.
    + rewrite <- Hbn. change len with (bb_len new).
      rewrite <- (block_image E (sf_names s) bs q new d) by done. unfold image.
      replace (Z.to_nat _) with (Z.to_nat (bb_blocks bs new)) by (rewrite Hbn; lia).
      apply image_n_ext. intros k Hk. simpl in Hk. rewrite Hv. unfold covers. rewrite He. simpl. by zdec.
Qed.

Lemma read_upto_skip E bs s cur img n :
  0 <= bs -> 0 <= cur -> 0 <= n -> read_upto E bs s cur img ->
  read_upto E bs s (cur + n) (img ++ zeros (bs * n)).
Proof.
  intros Hbs Hcur Hn [Hb Hwf Hab Htot Hfill Hres Himg]. split; try done.
  - intros k Hk. apply Hab. lia.
  - nia.
  - eapply (image_add _ _ _ _ 0 cur); [lia|done|]. rewrite image_gap; [|lia|lia|].
    + do 2 f_equal. lia.
    + intros k Hk. apply Hab. lia.
Qed.

(** ** The checksum loops: the buffer size does not matter *)

Lemma copy_turns_step len :
  COPY_BUF_SIZE < len -> copy_turns len = S (copy_turns (len - COPY_BUF_SIZE)).
Proof.
  intros H. unfold copy_turns. f_equal. unfold COPY_BUF_SIZE in *.
  replace len with (len - 1048576 + 1 * 1048576) at 1 by lia. rewrite Z.div_add by lia.
  assert (0 <= (len - 1048576) / 1048576) by (apply Z.div_pos; lia).
  change (1024 * 1024) with 1048576. lia.
Qed.

Lemma crc_buf_loop_ok buf fuel len crc :
  (forall a b, 0 <= a -> 0 <= b -> a mod 4 = 0 -> buf (a + b) = buf a ++ buf b) -> buf 0 = [] ->
  0 <= len -> (copy_turns len <= fuel)%nat ->
  crc_buf_loop fuel buf len crc = sparse_crc32 crc (buf len).
Proof.
  intros Hadd H0. revert len crc. induction fuel as [|fuel IH]; intros len crc Hl Hf; simpl.
  { unfold copy_turns in Hf. lia. }
  destruct (Z.eqb_spec len 0) as [->|]; [by rewrite H0, sparse_crc32_nil|].
  destruct (Z.le_gt_cases len COPY_BUF_SIZE).
  - rewrite Z.min_l, Z.sub_diag by done. by destruct fuel.
  - rewrite Z.min_r by lia. rewrite copy_turns_step in Hf by done.
    rewrite IH by lia. rewrite <- sparse_crc32_app, <- Hadd by (done || lia). f_equal. f_equal. lia.
Qed.

Lemma crc_buf_loop_zeros len crc :
  0 <= len -> crc_buf_loop (copy_turns len) zeros len crc = sparse_crc32 crc (zeros len).
Proof. intros. apply crc_buf_loop_ok; try done. intros. by apply zeros_add. Qed.

Lemma crc_buf_loop_fill v len crc :
  0 <= len -> crc_buf_loop (copy_turns len) (fill_bytes v) len crc = sparse_crc32 crc (fill_bytes v len).
Proof.
  intros. apply crc_buf_loop_ok; try done.
  intros a b Ha Hb [q ->]%Z.mod_divide; [|done]. rewrite Z.mul_comm. apply fill_bytes_add; lia.
Qed.

Lemma crc_file_loop_ok fuel w fd f len crc :
  w_fds w !! fd = Some f -> file_ok f -> 0 <= len -> f_pos f + len <= blen (f_data f) ->
  (copy_turns len <= fuel)%nat ->
  crc_file_loop fuel w fd len crc =
    (set_fd w fd (set_pos f (f_pos f + len)), inr (sparse_crc32 crc (slice (f_pos f) len (f_data f)))).
Proof.
  revert w f len crc. induction fuel as [|fuel IH]; intros w f len crc Hfd [Hp Hb] Hl Hle Hf; simpl.
  { unfold copy_turns in Hf. lia. }
  destruct (Z.eqb_spec len 0) as [->|].
  { rewrite slice_zero_len, sparse_crc32_nil, Z.add_0_r, set_pos_id. by rewrite set_fd_id. }
  assert (Hc : 0 < COPY_BUF_SIZE) by done.
  rewrite (read_all_ok w fd f) by (done || (split; done) || lia).
  destruct (Z.le_gt_cases len COPY_BUF_SIZE).
  - rewrite Z.min_l, Z.sub_diag by done. by destruct fuel.
  - rewrite Z.min_r by lia. rewrite copy_turns_step in Hf by done.
    erewrite IH; [|apply lookup_set_fd|split; simpl; [lia|done]|simpl; lia..].
    rewrite set_fd_set_fd. unfold set_pos; simpl.
    rewrite <- sparse_crc32_app. f_equal; [do 2 f_equal; lia|].
    rewrite <- slice_add by lia. do 3 f_equal. lia.
Qed.

(** ** Chunks *)

Definition chunk_head (bs : Z) (c : chunk) : chunk_header :=
  match c with
  | CRaw d => mk_chunk_header CHUNK_TYPE_RAW 0 (blen d / bs) (CHUNK_HEADER_LEN + blen d)
  | CFill v n => mk_chunk_header CHUNK_TYPE_FILL 0 n (CHUNK_HEADER_LEN + 4)
  | CSkip n => mk_chunk_header CHUNK_TYPE_DONT_CARE 0 n CHUNK_HEADER_LEN
  end.

Definition chunk_body (c : chunk) : list byte :=
  match c with CRaw d => d | CFill v _ => le_split 4 v | CSkip _ => [] end.

Lemma chunk_bytes_split bs c : chunk_bytes bs c = chunk_header_bytes (chunk_head bs c) ++ chunk_body c.
Proof. destruct c; simpl; [done..|]. by rewrite app_nil_r. Qed.

Lemma fill_bytes_u32 v n : fill_bytes (le_combine (le_split 4 v)) n = fill_bytes v n.
Proof.
  unfold fill_bytes. do 3 f_equal. rewrite LittleEndianList.le_combine_split.
  symmetry. apply LittleEndianList.le_split_mod.
Qed.

Section Chunks.
Context (E : env) (bs q fd : Z) (data : list byte).
Context (Hbs : bs = 4 * q) (Hq : 0 < q) (HE : e_fd E fd = Some data).

Lemma process_raw_chunk_ok s w f cur img d n crc pre post :
  read_upto E bs s cur img -> 0 <= cur -> 0 < n -> blen d = bs * n -> bs * (cur + n) < 2 ^ 31 ->
  w_fds w !! fd = Some f -> file_ok f -> f_data f = data ->
  data = pre ++ d ++ post -> f_pos f = blen pre ->
  exists s', process_raw_chunk s w (blen d) fd (f_pos f) n cur crc =
      Done (s', set_fd w fd (set_pos f (f_pos f + blen d)), (fun x => sparse_crc32 x d) <$> crc, 0) /\
    same_file s s' /\ read_upto E bs s' (cur + n) (img ++ d).
Proof using All.
  intros Hru Hcur Hn Hd H31 Hf Hok Hdat Heq Hpos.
  pose proof (ru_bs _ _ _ _ _ Hru) as Hsb. pose proof (blen_nonneg pre). pose proof (blen_nonneg post).
  assert (Hlen : blen data = blen pre + (blen d + blen post)) by (rewrite Heq, !blen_app; lia).
  assert (Hsl : slice (blen pre) (blen d) data = d) by (rewrite Heq; by apply slice_here).
  assert (Hdr : DIV_ROUND_UP (blen d) bs = n) by (rewrite Hd; apply DIV_ROUND_UP_mul; lia).
  destruct (read_upto_queue E bs q s cur img (BLOCK_FD fd (f_pos f)) (blen d) d)
    as (s' & Hqu & Hsf & Hru'); rewrite ?Hdr; try done; try nia.
  { simpl. rewrite HE, Hpos. apply in_range_Some. split_and!; try lia; try nia. done. }
  exists s'. unfold process_raw_chunk, check_div, sparse_file_add_fd. rewrite Hsb. zdec. cbn [obind].
  rewrite (Z.mul_comm n bs), <- Hd, u32_small by (unfold is_u32; nia).
  assert (blen d mod bs = 0) as -> by (rewrite Hd, Z.mul_comm; apply Z.mod_mul; lia).
  assert (blen d / bs = n) as -> by (rewrite Hd, Z.mul_comm; apply Z.div_mul; lia).
  rewrite Z.eqb_refl. cbn [negb Z.eqb]. rewrite Hqu. cbn [obind]. zdec.
  rewrite Hdr, Hd, Z.sub_diag, zeros_nil, app_nil_r in Hru' by lia.
  destruct crc as [c|]; cbn [fmap option_fmap option_map].
  - rewrite (crc_file_loop_ok _ w fd f) by (done || (rewrite ?Hdat, ?Hpos; nia)).
    rewrite Hdat, Hpos, Hsl. by split_and!.
  - unfold lseek. rewrite Hf. zdec. by split_and!.
Qed.

Lemma process_fill_chunk_ok s w f cur img v n crc pre post :
  read_upto E bs s cur img -> 0 <= cur -> 0 < n -> bs * (cur + n) < 2 ^ 31 ->
  w_fds w !! fd = Some f -> file_ok f -> f_data f = data ->
  data = pre ++ le_split 4 v ++ post -> f_pos f = blen pre ->
  exists s', process_fill_chunk s w 4 fd n cur crc =
      Done (s', set_fd w fd (set_pos f (f_pos f + 4)),
            (fun x => sparse_crc32 x (fill_bytes v (bs * n))) <$> crc, 0) /\
    same_file s s' /\ read_upto E bs s' (cur + n) (img ++ fill_bytes v (bs * n)).
Proof using All.
  intros Hru Hcur Hn H31 Hf Hok Hdat Heq Hpos.
  pose proof (ru_bs _ _ _ _ _ Hru) as Hsb. pose proof (blen_nonneg pre). pose proof (blen_nonneg post).
  assert (H4 : blen (le_split 4 v) = 4) by (unfold blen; by rewrite length_le_split).
  assert (Hlen : blen data = blen pre + (4 + blen post)) by (rewrite Heq, !blen_app; lia).
  assert (Hsl : slice (blen pre) 4 data = le_split 4 v) by (rewrite Heq, <- H4; by apply slice_here).
  assert (Hdr : DIV_ROUND_UP (bs * n) bs = n) by (apply DIV_ROUND_UP_mul; lia).
  destruct (read_upto_queue E bs q s cur img (BLOCK_FILL (le_combine (le_split 4 v))) (bs * n)
    (fill_bytes v (bs * n))) as (s' & Hqu & Hsf & Hru'); rewrite ?Hdr; try done; try nia.
  { simpl. zdec. by rewrite fill_bytes_u32. }
  { unfold fill_aligned; simpl. rewrite Z.mul_comm. apply Z.mod_mul. lia. }
  exists s'. unfold process_fill_chunk. rewrite (read_all_ok w fd f) by (done || (rewrite ?Hdat, ?Hpos; lia)).
  rewrite Hdat, Hpos, Hsl. cbn [Z.eqb Pos.eqb negb]. unfold sparse_file_add_fill.
  rewrite Hsb, (Z.mul_comm n bs), u32_small by (unfold is_u32; nia). rewrite Hqu. cbn [obind]. zdec.
  rewrite Hdr, Z.sub_diag, zeros_nil, app_nil_r in Hru' by lia.
  split_and!; try done. do 3 f_equal. destruct crc; cbn [fmap option_fmap option_map]; [|done].
  by rewrite crc_buf_loop_fill, fill_bytes_u32 by nia.
Qed.

Lemma process_chunk_ok s w f cur img c crc pre post :
  read_upto E bs s cur img -> 0 <= cur -> chunk_ok bs c -> bs * (cur + chunk_blocks bs c) < 2 ^ 31 ->
  w_fds w !! fd = Some f -> file_ok f -> f_data f = data ->
  data = pre ++ chunk_body c ++ post -> f_pos f = blen pre ->
  exists s', process_chunk s w fd (f_pos f) CHUNK_HEADER_LEN (chunk_head bs c) cur crc =
      Done (s', set_fd w fd (set_pos f (f_pos f + blen (chunk_body c))),
            (fun x => sparse_crc32 x (chunk_image bs c)) <$> crc, chunk_blocks bs c) /\
    same_file s s' /\ read_upto E bs s' (cur + chunk_blocks bs c) (img ++ chunk_image bs c).
Proof using All.
  intros Hru Hcur Hc H31 Hf Hok Hdat Heq Hpos.
  pose proof (chunk_ok_blocks bs c ltac:(lia) Hc) as Hn.
  assert (Hs32 : s32 (chunk_blocks bs c) = chunk_blocks bs c) by (apply s32_small; nia).
  pose proof (ru_bs _ _ _ _ _ Hru) as Hsb.
  destruct c as [d|v n|n]; cbn [chunk_body chunk_image chunk_blocks chunk_head] in *;
    unfold process_chunk; cbn [chunk_type chunk_sz total_sz].
  - destruct Hc as (n & Hn' & Hd). assert (Hdn : blen d / bs = n) by (rewrite Hd, Z.mul_comm; apply Z.div_mul; lia).
    rewrite Hdn in *. rewrite (u32_small (CHUNK_HEADER_LEN + blen d - CHUNK_HEADER_LEN)) by (unfold is_u32; nia).
    replace (CHUNK_HEADER_LEN + blen d - CHUNK_HEADER_LEN) with (blen d) by lia.
    destruct (process_raw_chunk_ok s w f cur img d n crc pre post) as (s' & Hp & ?); try done.
    exists s'. cbn [Z.eqb CHUNK_TYPE_RAW Pos.eqb]. change (CHUNK_TYPE_RAW =? CHUNK_TYPE_RAW) with true.
    cbn iota. rewrite Hp. cbn [obind]. zdec. by rewrite Hs32.
  - destruct (process_fill_chunk_ok s w f cur img v n crc pre post) as (s' & Hp & ?); try done.
    exists s'. change (CHUNK_TYPE_FILL =? CHUNK_TYPE_RAW) with false.
    change (CHUNK_TYPE_FILL =? CHUNK_TYPE_FILL) with true. cbn iota.
    change (u32 (CHUNK_HEADER_LEN + 4 - CHUNK_HEADER_LEN)) with 4.
    rewrite Hp. cbn [obind]. zdec. rewrite Hs32. unfold blen at 1. by rewrite length_le_split.
  - exists s. change (CHUNK_TYPE_DONT_CARE =? CHUNK_TYPE_RAW) with false.
    change (CHUNK_TYPE_DONT_CARE =? CHUNK_TYPE_FILL) with false.
    change (CHUNK_TYPE_DONT_CARE =? CHUNK_TYPE_DONT_CARE) with true. cbn iota.
    change (u32 (CHUNK_HEADER_LEN - CHUNK_HEADER_LEN)) with 0. unfold process_skip_chunk.
    cbn [Z.eqb negb andb]. rewrite Hs32, Hsb, (Z.mul_comm n bs). change (blen (@nil byte)) with 0.
    rewrite Z.add_0_r, set_pos_id, set_fd_id by done.
    split; [|split; [done|apply read_upto_skip; (done || lia)]].
    do 3 f_equal. destruct crc; cbn [fmap option_fmap option_map]; [|done]. by rewrite crc_buf_loop_zeros by nia.
Qed.

Lemma chunk_head_ok c n :
  chunk_ok bs c -> 0 <= n -> bs * (n + chunk_blocks bs c) < 2 ^ 31 -> chunk_header_ok (chunk_head bs c).
Proof using Hbs Hq.
  intros Hc Hn H31. pose proof (chunk_ok_blocks bs c ltac:(lia) Hc) as Hp.
  unfold chunk_header_ok, is_u16, is_u32.
  assert (Hd : match c with CRaw d => blen d = bs * (blen d / bs) | _ => True end).
  { destruct c as [d| |]; try done. destruct Hc as (k & _ & Hd).
    rewrite Hd at 2. rewrite (Z.mul_comm bs k), Z.div_mul by lia. lia. }
  destruct c as [d|v m|m]; cbn [chunk_head chunk_type reserved1 chunk_sz total_sz chunk_blocks] in *;
    unfold CHUNK_TYPE_RAW, CHUNK_TYPE_FILL, CHUNK_TYPE_DONT_CARE, CHUNK_HEADER_LEN; split_and!; nia.
Qed.

(** Reading the chunks [cs] queues blocks that denote their image; reading
    goes on behind them. *)
Lemma read_chunks_ok cs : forall k s w f cur img crc pre post,
  read_upto E bs s cur img -> 0 <= cur -> Forall (chunk_ok bs) cs ->
  bs * (cur + chunks_blocks bs cs) < 2 ^ 31 ->
  w_fds w !! fd = Some f -> file_ok f -> f_data f = data ->
  data = pre ++ chunks_bytes bs cs ++ post -> f_pos f = blen pre ->
  exists s', same_file s s' /\
    read_upto E bs s' (cur + chunks_blocks bs cs) (img ++ chunks_image bs cs) /\
    read_chunks (length cs + k) s w fd CHUNK_HEADER_LEN cur crc =
    read_chunks k s' (set_fd w fd (set_pos f (f_pos f + blen (chunks_bytes bs cs)))) fd CHUNK_HEADER_LEN
      (cur + chunks_blocks bs cs) ((fun x => sparse_crc32 x (chunks_image bs cs)) <$> crc).
Proof using All.
  induction cs as [|c cs IH]; intros k s w f cur img crc pre post Hru Hcur Hcs H31 Hf Hok Hdat Heq Hpos.
  { exists s. split; [done|]. simpl. change (blen (chunks_bytes bs [])) with 0.
    rewrite !Z.add_0_r, set_pos_id, set_fd_id by done. change (chunks_image bs []) with (@nil byte).
    rewrite app_nil_r. split; [done|]. f_equal. destruct crc; simpl; [|done]. by rewrite sparse_crc32_nil. }
  apply Forall_cons in Hcs as [Hc Hcs].
  change (chunks_bytes bs (c :: cs)) with (chunk_bytes bs c ++ chunks_bytes bs cs) in *.
  change (chunks_image bs (c :: cs)) with (chunk_image bs c ++ chunks_image bs cs).
  change (chunks_blocks bs (c :: cs)) with (chunk_blocks bs c + chunks_blocks bs cs) in *.
  pose proof (chunk_ok_blocks bs c ltac:(lia) Hc) as Hn.
  pose proof (blen_chunks_le bs cs ltac:(lia) Hcs). pose proof (blen_nonneg cs).
  assert (H31c : bs * (cur + chunk_blocks bs c) < 2 ^ 31) by nia.
  rewrite chunk_bytes_split in *. rewrite <- !app_assoc in Heq.
  set (hdr := chunk_header_bytes (chunk_head bs c)) in *.
  assert (Hh : blen hdr = CHUNK_HEADER_LEN) by apply blen_chunk_header.
  assert (Hlen : blen data = blen pre + (CHUNK_HEADER_LEN + blen (chunk_body c ++ chunks_bytes bs cs ++ post)))
    by (rewrite Heq, !blen_app; lia).
  pose proof (blen_nonneg (chunk_body c ++ chunks_bytes bs cs ++ post)). pose proof (blen_nonneg pre).
  set (w1 := set_fd w fd (set_pos f (f_pos f + CHUNK_HEADER_LEN))).
  set (f1 := set_pos f (f_pos f + CHUNK_HEADER_LEN)).
  destruct (process_chunk_ok s w1 f1 cur img c crc (pre ++ hdr) (chunks_bytes bs cs ++ post))
    as (s1 & Hp & Hsf1 & Hru1); try done.
  { apply lookup_set_fd. }
  { destruct Hok. split; simpl; [unfold CHUNK_HEADER_LEN; lia|done]. }
  { by rewrite <- app_assoc. }
  { simpl. rewrite blen_app. lia. }
  set (w2 := set_fd w1 fd (set_pos f1 (f_pos f1 + blen (chunk_body c)))) in *.
  destruct (IH k s1 w2 (set_pos f1 (f_pos f1 + blen (chunk_body c))) (cur + chunk_blocks bs c)
    (img ++ chunk_image bs c) ((fun x => sparse_crc32 x (chunk_image bs c)) <$> crc)
    (pre ++ hdr ++ chunk_body c) post) as (s' & Hsf & Hru' & Hr); try done.
  { lia. }
  { by rewrite <- Z.add_assoc. }
  { apply lookup_set_fd. }
  { pose proof (blen_nonneg (chunk_body c)). destruct Hok. split; simpl; [unfold CHUNK_HEADER_LEN; lia|done]. }
  { by rewrite <- !app_assoc. }
  { simpl. rewrite !blen_app. lia. }
  exists s'. split; [unfold same_file in *; naive_solver congruence|].
  rewrite Z.add_assoc, app_assoc. split; [done|].
  cbn [length plus read_chunks].
  rewrite (read_all_ok w fd f) by (done || (rewrite ?Hdat; lia)). rewrite Z.ltb_irrefl.
  fold f1. change (set_fd w fd f1) with w1. unfold lseek at 1.
  assert (Hw1 : w_fds w1 !! fd = Some f1) by apply lookup_set_fd. rewrite Hw1, Z.add_0_r.
  destruct Hok as [Hok1 Hok2]. unfold CHUNK_HEADER_LEN in *.
  destruct (Z.ltb_spec (f_pos f1) 0); [simpl in *; lia|].
  rewrite set_pos_id, set_fd_id by done.
  rewrite Hdat, Hpos, Heq, <- Hh, slice_here by done. unfold hdr at 2.
  rewrite chunk_header_roundtrip by (by apply (chunk_head_ok c cur)).
  rewrite Hh, Hp. cbn [obind]. zdec. rewrite u32_small by (unfold is_u32; nia). rewrite Hr.
  f_equal.
  - unfold w2, w1. rewrite !set_fd_set_fd. unfold set_pos; simpl. do 2 f_equal.
    rewrite !blen_app. lia.
  - destruct crc; cbn [fmap option_fmap option_map]; [|done]. by rewrite sparse_crc32_app.
Qed.
End Chunks.

(** ** Whole sparse images *)

(** The header of an image made of the chunks [cs] and [extra] more. *)
Definition image_header (bs : Z) (cs : list chunk) (extra : Z) : sparse_header :=
  mk_sparse_header SPARSE_HEADER_MAGIC SPARSE_HEADER_MAJOR_VER SPARSE_HEADER_MINOR_VER
    SPARSE_HEADER_LEN CHUNK_HEADER_LEN bs (chunks_blocks bs cs) (blen cs + extra) 0.

(** Chunks that fit the 31-bit lengths of the library. *)
Definition chunks_ok (bs : Z) (cs : list chunk) : Prop :=
  bs mod 4 = 0 /\ 0 < bs < 2 ^ 31 /\ Forall (chunk_ok bs) cs /\ bs * chunks_blocks bs cs + 4096 <= 2 ^ 31.

Lemma chunks_ok_bounds bs cs :
  chunks_ok bs cs ->
  exists q, bs = 4 * q /\ 0 < q /\ 0 <= blen cs <= chunks_blocks bs cs /\
    bs * chunks_blocks bs cs < 2 ^ 31 /\ chunks_blocks bs cs < 2 ^ 31.
Proof.
  intros (H4 & Hb & Hck & H31). apply Z.mod_divide in H4 as [q Hq]; [|done]. exists q.
  pose proof (blen_chunks_le bs cs ltac:(lia) Hck). pose proof (blen_nonneg cs).
  split_and!; try lia; nia.
Qed.

Lemma image_header_ok bs cs extra :
  chunks_ok bs cs -> 0 <= extra <= 1 -> sparse_header_ok (image_header bs cs extra).
Proof.
  intros Hok He. destruct (chunks_ok_bounds bs cs Hok) as (q & ? & ? & ? & ? & ?).
  destruct Hok as (_ & ? & _).
  unfold sparse_header_ok, is_u16, is_u32; cbn [image_header magic major_version minor_version
    file_hdr_sz chunk_hdr_sz blk_sz total_blks total_chunks image_checksum].
  unfold SPARSE_HEADER_MAGIC, SPARSE_HEADER_MAJOR_VER, SPARSE_HEADER_MINOR_VER, SPARSE_HEADER_LEN,
    CHUNK_HEADER_LEN. split_and!; lia.
Qed.

Lemma image_header_valid bs cs extra : header_valid (image_header bs cs extra) = true.
Proof. done. Qed.

(** Descriptor [fd] is open at the start of a file that holds [data]. *)
Definition reads (w : world) (fd : Z) (data : list byte) : Prop :=
  exists f, w_fds w !! fd = Some f /\ f_data f = data /\ f_pos f = 0 /\ 0 < f_burst f.

Definition env_of (fd : Z) (data : list byte) : env :=
  mk_env (fun fd' => if fd' =? fd then Some data else None) (fun _ => None).

Section Importing.
Context (bs : Z) (cs : list chunk) (extra fd : Z) (rest : list byte).
Context (Hok : chunks_ok bs cs) (Hextra : 0 <= extra <= 1).

Definition image_data : list byte :=
  sparse_header_bytes (image_header bs cs extra) ++ chunks_bytes bs cs ++ rest.

Lemma slice_header : slice 0 SPARSE_HEADER_LEN image_data = sparse_header_bytes (image_header bs cs extra).
Proof using.
  unfold image_data. rewrite <- (blen_sparse_header (image_header bs cs extra)).
  apply (slice_here 0 []). done.
Qed.

Lemma image_data_len :
  blen image_data = SPARSE_HEADER_LEN + (blen (chunks_bytes bs cs) + blen rest).
Proof using. unfold image_data. by rewrite !blen_app, blen_sparse_header. Qed.

Lemma read_sparse_ok E w f s crc :
  e_fd E fd = Some image_data -> w_fds w !! fd = Some f -> f_data f = image_data -> f_pos f = 0 ->
  0 < f_burst f -> sf_block_size s = bs -> sf_blocks s = [] ->
  exists s', same_file s s' /\ read_upto E bs s' (chunks_blocks bs cs) (chunks_image bs cs) /\
    sparse_file_read_sparse s w fd crc =
    let! (s, w, r) := read_chunks (Z.to_nat extra) s'
      (set_fd w fd (set_pos f (SPARSE_HEADER_LEN + blen (chunks_bytes bs cs)))) fd CHUNK_HEADER_LEN
      (chunks_blocks bs cs) (if crc then Some (sparse_crc32 0 (chunks_image bs cs)) else None) in
    match r with
    | inl e => Done (s, w, e)
    | inr cur => if negb (chunks_blocks bs cs =? cur) then Done (s, w, - EINVAL) else Done (s, w, 0)
    end.
Proof using Hok Hextra.
  intros HE Hf Hd Hp Hb Hsb Hbl.
  destruct (chunks_ok_bounds bs cs Hok) as (q & Hbs & Hq & Hlen & H31 & Hn).
  destruct Hok as (_ & _ & Hck & _). pose proof image_data_len as Hdl.
  pose proof (blen_nonneg (chunks_bytes bs cs)). pose proof (blen_nonneg rest).
  set (w1 := set_fd w fd (set_pos f SPARSE_HEADER_LEN)).
  destruct (read_chunks_ok E bs q fd image_data Hbs Hq HE cs (Z.to_nat extra) s w1
    (set_pos f SPARSE_HEADER_LEN) 0 [] (if crc then Some 0 else None)
    (sparse_header_bytes (image_header bs cs extra)) rest) as (s' & Hsf & Hru & Hr); try done.
  { split; rewrite ?Hbl; simpl; try done; lia. }
  { apply lookup_set_fd. }
  exists s'. split; [done|]. split; [done|]. unfold sparse_file_read_sparse.
  assert (Hfo : file_ok f) by (split; lia).
  rewrite (read_all_ok w fd f) by (done || (rewrite Hp, ?Hd, ?Hdl; lia)).
  rewrite Hd, Hp, slice_header, sparse_header_roundtrip by (by apply image_header_ok).
  rewrite image_header_valid. cbn [negb file_hdr_sz chunk_hdr_sz total_chunks total_blks image_header].
  rewrite Z.ltb_irrefl. replace (Z.to_nat (blen cs + extra)) with (length cs + Z.to_nat extra)%nat
    by (unfold blen; lia).
  rewrite Z.add_0_l. fold w1. rewrite Hr. unfold w1. rewrite set_fd_set_fd. simpl.
  by destruct crc.
Qed.

Lemma import_ok w verbose crc :
  reads w fd image_data ->
  exists s' w', sf_block_size s' = bs /\ sf_len s' = bs * chunks_blocks bs cs /\ sf_verbose s' = verbose /\
    read_upto (env_of fd image_data) bs s' (chunks_blocks bs cs) (chunks_image bs cs) /\
    (exists f, w' = set_fd w fd f /\ f_data f = image_data /\ file_ok f /\
      f_pos f = SPARSE_HEADER_LEN + blen (chunks_bytes bs cs)) /\
    sparse_file_import w fd verbose crc =
    let! (s, w, r) := read_chunks (Z.to_nat extra) s' w' fd CHUNK_HEADER_LEN
      (chunks_blocks bs cs) (if crc then Some (sparse_crc32 0 (chunks_image bs cs)) else None) in
    Done (w, match r with
      | inl e => if e <? 0 then None else Some s
      | inr cur => if negb (chunks_blocks bs cs =? cur) then None else Some s end).
Proof using Hok Hextra.
  intros (f & Hf & Hd & Hp & Hb). pose proof image_data_len as Hdl.
  pose proof (blen_nonneg (chunks_bytes bs cs)). pose proof (blen_nonneg rest).
  set (w1 := set_fd w fd f).
  set (s0 := with_verbose (sparse_file_new bs (chunks_blocks bs cs * bs)) verbose).
  destruct (read_sparse_ok (env_of fd image_data) w1 f s0 crc) as (s' & (Hl & Hn & Hv) & Hru & Hr);
    try done.
  { simpl. by rewrite Z.eqb_refl. }
  { apply lookup_set_fd. }
  exists s', (set_fd w1 fd (set_pos f (SPARSE_HEADER_LEN + blen (chunks_bytes bs cs)))).
  split; [apply Hru|]. split; [rewrite Hl; simpl; lia|]. split; [done|]. split; [done|].
  split; cycle 1.
  - unfold sparse_file_import. assert (Hfo : file_ok f) by (split; lia).
    rewrite (read_all_ok w fd f) by (done || (rewrite Hp, ?Hd, ?Hdl; lia)).
    rewrite Hd, Hp, slice_header, sparse_header_roundtrip by (by apply image_header_ok).
    rewrite image_header_valid. cbn [negb blk_sz total_blks image_header].
    unfold lseek at 1. rewrite lookup_set_fd. cbn [Z.ltb Z.compare]. rewrite set_fd_set_fd.
    unfold set_pos. simpl f_data. simpl f_burst.
    assert (mk_ofile (f_data f) 0 (f_burst f) = f) as -> by (destruct f; simpl in *; congruence).
    cbn iota. fold w1 s0. unfold sparse_file_read. rewrite andb_false_r, Hr.
    destruct (read_chunks _ _ _ _ _ _ _) as [[[s2 w2] [e|c]]|e]; cbn [obind]; try done.
    by destruct (negb (chunks_blocks bs cs =? c)).
  - eexists. split; [apply set_fd_set_fd|]. simpl. split_and!; try done. split; simpl; [|done].
    unfold SPARSE_HEADER_LEN. lia.
Qed.
End Importing.




(** ** Plain images *)

Lemma words_replicate (w : list byte) n : forall buf,
  length w = 4%nat -> length buf = (4 * n)%nat ->
  (forall i, (i < n)%nat -> take 4 (drop (4 * i) buf) = w) -> buf = mjoin (replicate n w).
Proof.
  intros buf Hw. revert buf. induction n as [|n IH]; intros buf Hl Hi; simpl.
  { by apply nil_length_inv. }
  rewrite <- (take_drop 4 buf). f_equal.
  - rewrite <- (Hi 0%nat) by lia. by rewrite Nat.mul_0_r, drop_0.
  - apply IH; [rewrite length_drop; lia|]. intros i Hin. rewrite drop_drop, <- (Hi (S i)) by lia.
    do 2 f_equal. lia.
Qed.

(** A block all of whose words are equal is a fill block. *)
Lemma uniform_block_fill buf q :
  0 < q -> blen buf = 4 * q -> uniform_block buf q = true ->
  buf = fill_bytes (le_combine (slice 0 4 buf)) (4 * q).
Proof.
  intros Hq Hl Hu. rewrite fill_bytes_words by lia.
  assert (H4 : length (slice 0 4 buf) = 4%nat).
  { rewrite slice_0, length_take. unfold blen in Hl. lia. }
  assert (le_split 4 (le_combine (slice 0 4 buf)) = slice 0 4 buf) as ->.
  { rewrite <- H4 at 1. apply LittleEndianList.split_le_combine. }
  apply words_replicate; [done|unfold blen in Hl; lia|]. intros i Hi.
  destruct i as [|i]; [done|]. unfold uniform_block in Hu. rewrite forallb_forall in Hu.
  specialize (Hu (S i)). rewrite bool_decide_eq_true in Hu. unfold slice in Hu at 1.
  rewrite <- Hu; [f_equal; f_equal; lia|]. apply in_seq. lia.
Qed.

Section Normal.
Context (E : env) (bs q fd len : Z) (data : list byte).
Context (Hbs : bs = 4 * q) (Hq : 0 < q) (HE : e_fd E fd = Some data).
Context (Hlen : 0 <= len <= blen data) (H31 : bs * DIV_ROUND_UP len bs < 2 ^ 31).

Lemma read_normal_loop_ok fuel : forall s w f block,
  read_upto E bs s block (slice 0 (bs * block) data) -> 0 <= block -> bs * block <= len ->
  w_fds w !! fd = Some f -> file_ok f -> f_data f = data -> f_pos f = bs * block ->
  DIV_ROUND_UP len bs - block <= Z.of_nat fuel ->
  exists s' w', read_normal_loop fuel s w fd (len - bs * block) (bs * block) block = Done (s', w', 0) /\
    same_file s s' /\ (exists p, w' = set_fd w fd (set_pos f p)) /\
    read_upto E bs s' (DIV_ROUND_UP len bs) (slice 0 len data ++ zeros (bs * DIV_ROUND_UP len bs - len)).
Proof using All.
  pose proof (DIV_ROUND_UP_bounds len bs ltac:(lia)) as Hdr. set (n := DIV_ROUND_UP len bs) in *.
  induction fuel as [|fuel IH]; intros s w f block Hru Hb0 Hble Hf Hok Hdat Hpos Hfuel; simpl.
  all: destruct (Z.leb_spec (len - bs * block) 0) as [Hz|Hz].
  1,3: assert (bs * block = len) by lia; assert (block = n) by nia; subst block;
       eexists _, _; split; [done|]; split; [done|]; split;
       [exists (f_pos f); by rewrite set_pos_id, set_fd_id|]; rewrite H, Z.sub_diag, zeros_nil, app_nil_r by lia;
       by rewrite H in Hru.
  { exfalso. nia. }
  pose proof (ru_bs _ _ _ _ _ Hru) as Hsb. rewrite Hsb.
  set (m := Z.min (len - bs * block) bs). assert (Hm : 0 < m <= bs) by lia.
  rewrite (read_all_ok w fd f) by (done || (rewrite ?Hdat, ?Hpos; lia)).
  rewrite Hdat, Hpos. set (buf := slice (bs * block) m data).
  assert (Hbuf : blen buf = m) by (apply blen_slice; lia || nia).
  assert (Hblk : block < n) by nia.
  assert (Hstep : exists s', (if (m =? bs) && uniform_block buf (bs / 4)
      then sparse_file_add_fill s (le_combine (slice 0 4 buf)) m block
      else sparse_file_add_fd s fd (bs * block) m block) = Done (s', 0) /\ same_file s s' /\
      read_upto E bs s' (block + 1) (slice 0 (bs * block) data ++ buf ++ zeros (bs - m))).
  { assert (Hd1 : DIV_ROUND_UP m bs = 1) by (apply DIV_ROUND_UP_unique; lia).
    destruct ((m =? bs) && uniform_block buf (bs / 4)) eqn:Hsp.
    - apply andb_true_iff in Hsp as [Hmb%Z.eqb_eq Hu].
      replace (bs / 4) with q in Hu by (rewrite Hbs, Z.mul_comm, Z.div_mul; lia).
      apply uniform_block_fill in Hu; [|done|lia].
      destruct (read_upto_queue E bs q s block (slice 0 (bs * block) data) (BLOCK_FILL (le_combine (slice 0 4 buf))) m buf)
        as (s' & Hqu & Hsf & Hru'); try done; rewrite ?Hd1; try lia; try nia.
      { simpl. zdec. rewrite Hu at 2. do 2 f_equal. lia. }
      { unfold fill_aligned; simpl. rewrite Hmb. apply Z.mod_same. lia. }
      rewrite Hd1, Z.mul_1_r in Hru'. exists s'. by split_and!.
    - destruct (read_upto_queue E bs q s block (slice 0 (bs * block) data) (BLOCK_FD fd (bs * block)) m buf)
        as (s' & Hqu & Hsf & Hru'); try done; rewrite ?Hd1; try lia; try nia.
      { simpl. rewrite HE. apply in_range_Some. split_and!; lia || nia || done. }
      rewrite Hd1, Z.mul_1_r in Hru'. exists s'. by split_and!. }
  destruct Hstep as (s1 & -> & Hsf1 & Hru1). cbn [obind].
  rewrite u32_small by (unfold is_u32; nia).
  assert (Hsl : slice 0 (bs * block + m) data = slice 0 (bs * block) data ++ buf).
  { rewrite slice_add by (lia || nia). by rewrite Z.add_0_l. }
  set (f1 := set_pos f (bs * block + m)).
  assert (Hsf : forall s', same_file s1 s' -> same_file s s') by (unfold same_file in *; intuition congruence).
  destruct (Z.le_gt_cases bs (len - bs * block)).
  - assert (m = bs) as Hmb by lia. rewrite Hmb in *.
    replace (len - bs * block - bs) with (len - bs * (block + 1)) by lia.
    rewrite Z.sub_diag, zeros_nil, app_nil_r, <- Hsl in Hru1 by lia.
    replace (bs * block + bs) with (bs * (block + 1)) in * by lia.
    destruct (IH s1 (set_fd w fd f1) f1 (block + 1)) as (s' & w' & Hr & ? & [p ->] & ?); try done; try lia.
    { apply lookup_set_fd. }
    { destruct Hok. split; simpl; [nia|done]. }
    { simpl. lia. }
    eexists s', _. split_and!; auto; [exact Hr|]. exists p. by rewrite set_fd_set_fd.
  - assert (m = len - bs * block) as Hmb by lia. rewrite Hmb, Z.sub_diag in *.
    assert (block + 1 = n) by nia. assert (bs * block + (len - bs * block) = len) as Hl by lia.
    rewrite Hl in *.
    exists s1, (set_fd w fd f1). split; [by destruct fuel|]. split; [by apply Hsf|]. split; [by eexists|].
    rewrite Hsl, <- app_assoc. replace (bs * n - len) with (bs - (len - bs * block)) by nia.
    by rewrite H0 in Hru1.
Qed.

Lemma read_normal_ok s w :
  sf_block_size s = bs -> sf_len s = len -> sf_blocks s = [] -> reads w fd data ->
  exists s' w', sparse_file_read_normal s w fd = Done (s', w', 0) /\ same_file s s' /\
    (exists f, w' = set_fd w fd f /\ f_data f = data) /\ read_upto E bs s' (DIV_ROUND_UP len bs) (slice 0 len data ++ zeros (bs * DIV_ROUND_UP len bs - len)).
Proof using All.
  intros Hsb Hsl Hbl (f & Hf & Hd & Hp & Hb).
  assert (Hn : 0 <= DIV_ROUND_UP len bs) by (apply DIV_ROUND_UP_nonneg; lia).
  destruct (read_normal_loop_ok (Z.to_nat (DIV_ROUND_UP len bs)) s w f 0) as (s' & w' & Hr & Hsf & [p Hw] & Hru); try done;
    try (simpl; lia).
  { rewrite Z.mul_0_r, slice_zero_len. split; rewrite ?Hbl; simpl; try done; lia. }
  { split; lia. }
  exists s', w'. split_and!; try done; [|by eexists]. unfold sparse_file_read_normal. rewrite Hsb, Hsl.
  rewrite Z.mul_0_r, Z.sub_0_r in Hr. exact Hr.
Qed.
End Normal.

(** ** The readers' theorems *)


(** The checksum chunk the writer appends. *)
Definition crc_chunk (crc : Z) : list byte :=
  chunk_header_bytes (mk_chunk_header CHUNK_TYPE_CRC32 0 0 (CHUNK_HEADER_LEN + 4)) ++ le_split 4 crc.

Lemma read_crc_chunk data pre post s w fd f cur crc v :
  w_fds w !! fd = Some f -> file_ok f -> f_data f = data ->
  data = pre ++ crc_chunk v ++ post -> f_pos f = blen pre -> is_u32 cur -> is_u32 v ->
  exists w', read_chunks 1 s w fd CHUNK_HEADER_LEN cur (Some crc) =
    Done (s, w', if v =? crc then inr cur else inl (- EINVAL)) /\
  read_chunks 1 s w fd CHUNK_HEADER_LEN cur None = Crash NullDeref.
Proof.
  intros Hf Hok Hdat Heq Hpos Hcur Hv. unfold crc_chunk in Heq. rewrite <- app_assoc in Heq.
  set (hd := mk_chunk_header CHUNK_TYPE_CRC32 0 0 (CHUNK_HEADER_LEN + 4)) in *.
  assert (Hh : blen (chunk_header_bytes hd) = CHUNK_HEADER_LEN) by apply blen_chunk_header.
  assert (H4 : blen (le_split 4 v) = 4) by (unfold blen; by rewrite length_le_split).
  pose proof (blen_nonneg post). pose proof (blen_nonneg pre). destruct Hok as [Hok1 Hok2].
  assert (Hl : blen data = blen pre + (CHUNK_HEADER_LEN + (4 + blen post))) by (rewrite Heq, !blen_app; lia).
  set (f1 := set_pos f (f_pos f + CHUNK_HEADER_LEN)). set (w1 := set_fd w fd f1).
  assert (Hr : read_all w fd CHUNK_HEADER_LEN = (w1, inr (chunk_header_bytes hd))).
  { rewrite (read_all_ok w fd f); [|done|by split|done|rewrite Hdat; lia]. unfold w1, f1. do 2 f_equal.
    rewrite Hdat, Heq, <- Hh. apply slice_here. lia. }
  assert (Hw1 : w_fds w1 !! fd = Some f1) by apply lookup_set_fd.
  assert (Hr2 : read_all w1 fd 4 = (set_fd w1 fd (set_pos f1 (f_pos f1 + 4)), inr (le_split 4 v))).
  { rewrite (read_all_ok w1 fd f1); [|done|split; simpl; [unfold CHUNK_HEADER_LEN; lia|done]|done|simpl; rewrite Hdat; lia].
    do 2 f_equal. simpl. rewrite Hdat, Heq, app_assoc, <- H4. apply slice_here. rewrite blen_app. lia. }
  assert (Hls : lseek w1 fd 0 SEEK_CUR = (w1, f_pos f1)).
  { unfold lseek. rewrite Hw1, Z.add_0_r. destruct (Z.ltb_spec (f_pos f1) 0); [simpl in *; unfold CHUNK_HEADER_LEN in *; lia|].
    by rewrite set_pos_id, set_fd_id. }
  eexists. cbn [read_chunks]. rewrite Hr, Z.ltb_irrefl, Hls, chunk_header_roundtrip by done.
  unfold process_chunk. cbn [chunk_type hd total_sz chunk_sz].
  change (CHUNK_TYPE_CRC32 =? CHUNK_TYPE_RAW) with false. change (CHUNK_TYPE_CRC32 =? CHUNK_TYPE_FILL) with false.
  change (CHUNK_TYPE_CRC32 =? CHUNK_TYPE_DONT_CARE) with false. change (CHUNK_TYPE_CRC32 =? CHUNK_TYPE_CRC32) with true.
  cbn iota. split; [|done]. change (u32 (CHUNK_HEADER_LEN + 4 - CHUNK_HEADER_LEN)) with 4.
  unfold process_crc32_chunk. rewrite Hr2, le_combine_split_u32 by done. cbn [Z.eqb Pos.eqb negb].
  destruct (v =? crc); cbn; [|done]. rewrite Z.add_0_r, u32_small by done. done.
Qed.


(**  Finding: importing an image that ends in a checksum chunk without
    asking for verification (as simg2img and simg2simg do) dereferences the
    null checksum pointer, whatever the image. *)
Theorem import_crc_chunk_null_deref bs cs fd v rest w verbose :
  chunks_ok bs cs -> is_u32 v -> reads w fd (image_data bs cs 1 (crc_chunk v ++ rest)) ->
  sparse_file_import w fd verbose false = Crash NullDeref.
Proof.
  intros Hok Hv Hrd. destruct (import_ok bs cs 1 fd _ Hok ltac:(lia) w verbose false Hrd)
    as (s' & ? & Hb & Hl & _ & Hru & (f & -> & Hd & Hfo & Hp) & ->).
  destruct (chunks_ok_bounds bs cs Hok) as (q & ? & ? & ? & ? & ?).
  destruct (read_crc_chunk _ (sparse_header_bytes (image_header bs cs 1) ++ chunks_bytes bs cs) rest
    s' (set_fd w fd f) fd f (chunks_blocks bs cs) 0 v (lookup_set_fd _ _ _) Hfo Hd) as (w2 & _ & Hr).
  { unfold image_data. by rewrite <- app_assoc. }
  { by rewrite blen_app, blen_sparse_header. }
  { unfold is_u32. lia. }
  { done. }
  change (Z.to_nat 1) with 1%nat. by rewrite Hr.
Qed.

(**  Reading a plain image ([sparse = false]): the sparse file denotes
    the first [sf_len] bytes of the file, padded with zeros to a whole block;
    blocks of equal words become fill blocks, the others refer to the file. *)
Theorem sparse_file_read_plain_image bs len fd data s w :
  bs mod 4 = 0 -> 0 < bs -> 0 <= len <= blen data -> bs * DIV_ROUND_UP len bs < 2 ^ 31 ->
  sf_block_size s = bs -> sf_len s = len -> sf_blocks s = [] -> reads w fd data ->
  exists w' s', sparse_file_read s w fd false false = Done (s', w', 0) /\ same_file s s' /\
    wf_from bs 0 (sf_blocks s') /\
    sparse_image (env_of fd data) s' = Some (slice 0 len data ++ zeros (bs * DIV_ROUND_UP len bs - len)).
Proof.
  intros [q Hq]%Z.mod_divide Hbs Hl H31 Hsb Hsl Hbl Hrd; [|done].
  destruct (read_normal_ok (env_of fd data) bs q fd len data) with (s := s) (w := w)
    as (s' & w' & Hr & Hsf & _ & Hru); try done; try lia.
  { simpl. by rewrite Z.eqb_refl. }
  exists w', s'. split_and!; try done; [apply Hru|]. destruct Hsf as (Hl' & _).
  unfold sparse_image. rewrite Hl', Hsl, (ru_bs _ _ _ _ _ Hru). apply Hru.
Qed.

(** ** Concrete images *)
Module ReadWitnesses.
Import WriteWitnesses.

Lemma chunks_ok0 : chunks_ok 4 cs0.
Proof.
  unfold chunks_ok. split_and!; try (concrete || done). unfold cs0.
  repeat constructor; simpl; try lia; exists 1; by split.
Defined.

(** The image of [cs0], read three bytes at a time, with [rest] behind it. *)
Definition img_world (extra : Z) (rest : list byte) : world :=
  mk_world {[ 5 := mk_ofile (image_data 4 cs0 extra rest) 0 3 ]} ∅ 0.

Lemma reads0 extra rest : reads (img_world extra rest) 5 (image_data 4 cs0 extra rest).
Proof. eexists. split; [reflexivity|]. by split_and!. Defined.



Lemma import_crc_chunk_null_deref_witness :
  sparse_file_import (img_world 1 (crc_chunk 99 ++ [])) 5 false false = Crash NullDeref.
Proof.
  apply (import_crc_chunk_null_deref 4 cs0 5 99 [] _ false chunks_ok0); [|apply reads0].
  unfold is_u32. lia.
Defined.

Lemma sparse_file_read_plain_image_witness :
  exists w' s', sparse_file_read (sparse_file_new 4 5) w0 3 false false = Done (s', w', 0) /\
    same_file (sparse_file_new 4 5) s' /\ wf_from 4 0 (sf_blocks s') /\
    sparse_image (env_of 3 src) s' = Some (slice 0 5 src ++ zeros (4 * DIV_ROUND_UP 5 4 - 5)).
Proof.
  apply (sparse_file_read_plain_image 4 5 3 src); try done.
  eexists. split; [reflexivity|]. by split_and!.
Defined.
End ReadWitnesses.
