(* ===== verification/Tools.v ===== *)
(** * The image tools (img2simg.c, simg2img.c, append2simg.c, simg2simg.c)

    The bodies of the [main] functions on descriptors that are already open;
    the exit status is the result. *)
From S2P Require Import Prelude BlockList Posix SparseFormat OutputFile Sparse SparseRead.

(** [img2simg]: [exit(-1)] leaves nothing written behind the failing call. *)
Definition img2simg (w : world) (inp out block_size : Z) : outcome (world * Z) :=
  if (block_size <? 1024) || negb (block_size mod 4 =? 0) then Done (w, -1) else
  let '(w, len) := lseek w inp 0 SEEK_END in
  let '(w, _) := lseek w inp 0 SEEK_SET in
  let s := sparse_file_verbose (sparse_file_new block_size len) in
  let! (s, w, ret) := sparse_file_read s w inp false false in
  if negb (ret =? 0) then Done (w, -1) else
  let! (w, ret) := sparse_file_write s w out true false in
  Done (w, if negb (ret =? 0) then -1 else 0).

(** [simg2img]: every input is written over the same output, from its start. *)
Fixpoint simg2img (w : world) (ins : list Z) (out : Z) : outcome (world * Z) :=
  match ins with
  | [] => Done (w, 0)
  | inp :: ins =>
      let! (w, s) := sparse_file_import w inp true false in
      match s with
      | None => Done (w, -1)
      | Some s =>
          let '(w, _) := lseek w out 0 SEEK_SET in
          let! (w, ret) := sparse_file_write s w out false false in
          if ret <? 0 then Done (w, -1) else simg2img w ins out
      end
  end.

(** [append2simg]: [output] is the image, [tmp] the file renamed over it. *)
Definition append2simg (w : world) (output input tmp : Z) : outcome (world * Z) :=
  let! (w, s) := sparse_file_import_auto w output true in
  match s with
  | None => Done (w, -1)
  | Some s =>
      let '(w, input_len) := lseek w input 0 SEEK_END in
      if input_len <? 0 then Done (w, -1) else
      let! _ := check_div (sf_block_size s) in
      if negb (input_len mod sf_block_size s =? 0) then Done (w, -1) else
      let '(w, _) := lseek w input 0 SEEK_SET in
      let output_block := s32 (Z.quot (sf_len s) (sf_block_size s)) in
      let! (s, ret) := sparse_file_add_fd s input 0 (u32 input_len) (u32 output_block) in
      if ret <? 0 then Done (w, -1) else
      let s := mk_sparse_file (sf_block_size s) (sf_len s + input_len) (sf_verbose s)
                 (sf_blocks s) (sf_names s) in
      let '(w, _) := lseek w output 0 SEEK_SET in
      let! (w, ret) := sparse_file_write s w tmp true false in
      Done (w, if ret <? 0 then -1 else 0)
  end.

(** [simg2simg]: one output file per piece; [outs] are the descriptors [open]
    returns for them, in order. *)
Fixpoint write_pieces (w : world) (pieces : list sparse_file) (outs : list Z) : outcome (world * Z) :=
  match pieces, outs with
  | [], _ => Done (w, 0)
  | _, [] => Done (w, -1)
  | s :: pieces, out :: outs =>
      let! (w, ret) := sparse_file_write s w out true false in
      if negb (ret =? 0) then Done (w, -1) else write_pieces w pieces outs
  end.

Definition simg2simg (fuel : nat) (w : world) (inp : Z) (outs : list Z) (max_size : Z) : outcome (world * Z) :=
  let! (w, s) := sparse_file_import w inp true false in
  match s with
  | None => Done (w, -1)
  | Some s =>
      let! (s, _, files) := sparse_file_resparse fuel s w (u32 max_size) 0 in
      if files <? 0 then Done (w, -1) else
      let! (s, out_s, files) := sparse_file_resparse fuel s w (u32 max_size) files in
      if files <? 0 then Done (w, -1) else
      write_pieces w out_s outs
  end.
