(* ===== verification/RoundTrip.v ===== *)
(** * Round trips

    What is written is read back as the same image, for the library calls and
    for the command line tools. *)
From S2P Require Import Prelude Crc32 BlockList Posix SparseFormat OutputFile Sparse SparseRead.
From S2P Require Import ImageSpec WriteCorrect ReadCorrect Tools.















(** ** Concrete round trips *)
Module RoundTripWitnesses.
Import WriteWitnesses ReadWitnesses.








End RoundTripWitnesses.
