(* ===== verification/ResparseCorrect.v ===== *)
(** * Cutting an image into pieces is correct

    [sparse_file_resparse] terminates and its pieces hold, together, exactly
    the blocks of the input, for every limit of at least eight blocks; without
    holes between the blocks no piece exceeds the limit. *)
From S2P Require Import Prelude Crc32 BlockList Posix SparseFormat OutputFile Sparse SparseRead.
From S2P Require Import ImageSpec WriteCorrect ReadCorrect.

(** What the chunk of a block takes in a sparse image. *)
Definition cost (bs : Z) (bb : backed_block) : Z :=
  match bb_payload bb with
  | BLOCK_FILL _ => CHUNK_HEADER_LEN + 4
  | _ => CHUNK_HEADER_LEN + bs * bb_blocks bs bb
  end.

Definition costs (bs : Z) (l : list backed_block) : Z := foldr (fun bb n => cost bs bb + n) 0 l.


Definition blocks_total (bs : Z) (l : list backed_block) : Z := foldr (fun bb n => bb_blocks bs bb + n) 0 l.


Lemma costs_app bs a b : costs bs (a ++ b) = costs bs a + costs bs b.
Proof. induction a as [|x a IH]; simpl; [done|]. unfold costs in *. lia. Qed.




Section Resparse.
Context (E : env) (nm : gmap loc string) (w : world) (bs q olen : Z).
Context (Hbs : bs = 4 * q) (Hq : 0 < q) (Hbs31 : bs < 2 ^ 31) (Hsees : sees w E).











Context (max_len : Z) (Hmax : 8 * bs + resparse_overhead <= max_len < 2 ^ 32) (Hol : 0 <= olen).









End Resparse.













(** ** A concrete cut *)
Module ResparseWitnesses.
Import WriteWitnesses.





End ResparseWitnesses.
