(* ===== verification/Findings.v ===== *)
(** * Where the library falls short of its contract

    Each theorem runs the code on a concrete input a caller can produce. *)
From S2P Require Import Prelude Crc32 BlockList Posix SparseFormat OutputFile Sparse SparseRead.
From S2P Require Import ImageSpec WriteCorrect ReadCorrect Tools.

(** ** Cutting images *)

(** Two raw blocks of 16 bytes. *)
Definition raw2 : sparse_file := mk_sparse_file 16 32 false [mk_bb 0 32 (BLOCK_FD 3 0)] ∅.
Definition raw2_world : world := mk_world {[ 3 := mk_ofile (zeros 32) 0 1 ]} ∅ 0.

Lemma move_stuck :
  move_chunks_up_to_len raw2 raw2_world (sparse_file_new 16 32) 90 =
    Done (raw2, mk_sparse_file 16 32 false [mk_bb 0 0 (BLOCK_FD 3 0)] ∅, true).
Proof. vm_compute. reflexivity. Qed.

Lemma resparse_loop_stuck fuel tmp c :
  resparse_loop fuel raw2 raw2_world tmp 90 0 [] c = Crash OutOfFuel \/ c < 0.
Proof.
  revert tmp c. induction fuel as [|fuel IH]; intros tmp c; [by left|].
  destruct (Z.lt_ge_cases c 0); [by right|]. left. cbn [resparse_loop].
  change (sf_block_size raw2) with 16. change (sf_len raw2) with 32. rewrite move_stuck. cbn [obind].
  zdec. cbn [sf_blocks]. destruct (IH (move_blocks [mk_bb 0 0 (BLOCK_FD 3 0)] tmp) (c + 1)) as [->|]; [done|lia].
Qed.

(**  Finding: with a limit that leaves less than one block,
    [sparse_file_resparse] splits off empty blocks for ever. *)
Theorem resparse_diverges fuel :
  sparse_file_resparse fuel raw2 raw2_world 90 0 = Crash OutOfFuel.
Proof.
  unfold sparse_file_resparse. destruct (resparse_loop_stuck fuel [] 0) as [->|]; [done|lia].
Qed.

(** Five blocks with holes between them. *)
Definition holes : sparse_file := mk_sparse_file 4 40 false
  ((fun k => mk_bb (2 * k) 4 (BLOCK_FD 3 0)) <$> [0; 1; 2; 3; 4]) ∅.

(** Finding: the skip chunks of the holes are not counted, and a piece is
    larger than the limit. *)
Theorem resparse_holes_exceed_limit :
  exists s out, sparse_file_resparse 20 holes raw2_world 160 5 = Done (s, out, 1) /\
    exists p, out = [p] /\ sparse_file_len p raw2_world true false = Done 168.
Proof. eexists _, _. split; [vm_compute; reflexivity|]. eexists. split; [reflexivity|]. vm_compute. reflexivity. Qed.

(** Finding: a limit below the fixed overhead wraps around to about 4 GiB. *)
Theorem resparse_limit_wraps :
  exists s out, sparse_file_resparse 20 raw2 raw2_world 79 5 = Done (s, out, 1) /\
    exists p, out = [p] /\ sparse_file_len p raw2_world true false = Done 72.
Proof. eexists _, _. split; [vm_compute; reflexivity|]. eexists. split; [reflexivity|]. vm_compute. reflexivity. Qed.

(** ** Queueing *)

(** Finding: merging two adjacent fill blocks of 2 GiB wraps the length to 0:
    the blocks are lost. *)
Theorem merge_len_wraps :
  try_merge 4096 (mk_bb 0 (2 ^ 31) (BLOCK_FILL 0)) (mk_bb 524288 (2 ^ 31) (BLOCK_FILL 0)) =
    Done (Some (mk_bb 0 0 (BLOCK_FILL 0))).
Proof. vm_compute. reflexivity. Qed.

(** ** Writing and reading back *)

Definition out_world (space : Z) : world := mk_world {[ 4 := mk_ofile [] 0 100 ]} ∅ space.

(** Write [s] to descriptor 4 and import what was written. *)
Definition write_and_import (s : sparse_file) (space : Z) (crc : bool) : outcome (Z * option sparse_file) :=
  let! (w, ret) := sparse_file_write s (out_world space) 4 true crc in
  let '(w, _) := lseek w 4 0 SEEK_SET in
  let! (w, r) := sparse_file_import w 4 true crc in
  Done (ret, r).

(** Finding: the writer adds one block of a fill chunk to the checksum and
    nothing for a skip chunk, the reader all of their bytes: an image written
    with a checksum is rejected when the checksum is verified. *)
Theorem crc_of_fill_rejected :
  write_and_import (mk_sparse_file 4 8 false [mk_bb 0 8 (BLOCK_FILL 7)] ∅) 1000 true = Done (0, None).
Proof. vm_compute. reflexivity. Qed.

Theorem crc_of_skip_rejected :
  write_and_import (mk_sparse_file 4 8 false [mk_bb 0 4 (BLOCK_FILL 7)] ∅) 1000 true = Done (0, None).
Proof. vm_compute. reflexivity. Qed.

(** Finding: img2simg of a file whose length is not a multiple of the block
    size fails the assertion [pad >= 0]: the last, partial block is queued but
    not part of the length. *)
Theorem img2simg_partial_block_aborts :
  img2simg (mk_world {[ 3 := mk_ofile (zeros 1500) 0 4096; 4 := mk_ofile [] 0 1 ]} ∅ 100000) 3 4 1024
    = Crash AssertFail.
Proof. vm_compute. reflexivity. Qed.

(** Finding: a length that ends inside a block behind the last queued one: the
    skip chunk is counted in the header but refused by the chunk writer, and the
    image cannot be read. *)
Theorem partial_tail_rejected :
  write_and_import (mk_sparse_file 4 6 false [mk_bb 0 4 (BLOCK_FILL 7)] ∅) 1000 false = Done (0, None).
Proof. vm_compute. reflexivity. Qed.

(** Finding: the results of the chunk writers are dropped: on a full device
    [sparse_file_write] reports success with only the header written. *)
Theorem full_device_reports_success :
  exists w f, sparse_file_write (mk_sparse_file 4 8 false [mk_bb 0 8 (BLOCK_FILL 7)] ∅) (out_world 28) 4 true false
    = Done (w, 0) /\ w_fds w !! 4 = Some f /\ blen (f_data f) = 28.
Proof. eexists _, _. split; [vm_compute; reflexivity|]. split; [reflexivity|]. vm_compute. reflexivity. Qed.
