(* ===== verification/HashCtx.v ===== *)
(** * Incremental hashing (libmincrypt, hash-internal.h, sha.c, sha256.c)

    SHA-1 and SHA-256 share the context [HASH_CTX] and, up to the compression
    function and the number of words, the code of [update] and [final].  Both
    are modelled here over a compression function; Sha.v instantiates them.
    The specification is the padding and the block iteration of FIPS 180. *)
From S2P Require Import Prelude.

(** [HASH_CTX]; the method table [f] is which algorithm initialised it. *)
Inductive HASH_VTAB := SHA_VTAB | SHA256_VTAB.

Record HASH_CTX := mk_ctx {
  f : HASH_VTAB;
  count : Z;
  buf : list byte;
  state : list Z
}.

(** [update] and [final] over the compression function of the algorithm. *)
Section Update.
Context (transform : list Z -> list byte -> list Z).

(** One turn of the loop of [update]: [buf[i++] = b], and a full buffer is
    compressed. *)
Definition update_byte (st : list Z * list byte * nat) (b : byte) : list Z * list byte * nat :=
  let '(s, bf, i) := st in
  let bf := <[i := b]> bf in
  if Nat.eqb (S i) 64 then (transform s bf, bf, 0%nat) else (s, bf, S i).

Definition update (c : HASH_CTX) (data : list byte) : HASH_CTX :=
  let i := Z.to_nat (Z.land (count c) 63) in
  let '(s, bf, _) := foldl update_byte (state c, buf c, i) data in
  mk_ctx (f c) (u64 (count c + blen data)) bf s.

(** [while ((ctx->count & 63) != 56)]. *)
Fixpoint pad_loop (fuel : nat) (c : HASH_CTX) : outcome HASH_CTX :=
  if Z.land (count c) 63 =? 56 then Done c else
  match fuel with
  | O => Crash OutOfFuel
  | S fuel => pad_loop fuel (update c [Init.Byte.x00])
  end.

(** [(uint8_t)(cnt >> ((7 - i) * 8))]. *)
Definition length_byte (cnt : Z) (i : nat) : byte := byte_of_Z (u8 (Z.shiftr cnt ((7 - Z.of_nat i) * 8))).

(** The four bytes of a state word, most significant first. *)
Definition word_bytes (w : Z) : list byte :=
  [byte_of_Z (u8 (Z.shiftr w 24)); byte_of_Z (u8 (Z.shiftr w 16));
   byte_of_Z (u8 (Z.shiftr w 8)); byte_of_Z (u8 w)].

(** [final]: the digest overwrites the start of the buffer. *)
Definition final (words : nat) (c : HASH_CTX) : outcome (HASH_CTX * list byte) :=
  let cnt := u64 (count c * 8) in
  let c := update c [Init.Byte.x80] in
  let! c := pad_loop 64 c in
  let c := foldl (fun c i => update c [length_byte cnt i]) c (seq 0 8) in
  let digest := mjoin (word_bytes <$> take words (state c)) in
  let bf := digest ++ drop (length digest) (buf c) in
  Done (mk_ctx (f c) (count c) bf (state c), bf).
End Update.

(** ** The specification: FIPS 180 padding and iteration *)

Fixpoint blocks_n (n : nat) (m : list byte) : list (list byte) :=
  match n with O => [] | S n => take 64 m :: blocks_n n (drop 64 m) end.

(** The whole blocks of a message and what is left behind them. *)
Definition full_blocks (m : list byte) : list (list byte) := blocks_n (length m / 64) m.
Definition tail_of (m : list byte) : list byte := drop (64 * (length m / 64)) m.

(** [n] as [k] bytes, most significant first. *)
Definition be_bytes (k : nat) (n : Z) : list byte := rev (le_split k n).

(** One bit, zeros up to 8 bytes before a block boundary, the length in bits. *)
Definition padding (len : Z) : list byte :=
  Init.Byte.x80 :: zeros ((55 - len) mod 64) ++ be_bytes 8 (8 * len).

(** The digest of a message: iterate the compression function over the padded
    message, write out the words. *)
Definition iterated_hash (compress : list Z -> list byte -> list Z) (iv : list Z) (words : nat)
    (m : list byte) : list byte :=
  mjoin (be_bytes 4 <$> take words (foldl compress iv (full_blocks (m ++ padding (blen m))))).

(** ** Lemmas *)

Lemma blocks_n_app n m k :
  (64 * n <= length m)%nat -> blocks_n (n + k) m = blocks_n n m ++ blocks_n k (drop (64 * n) m).
Proof.
  revert m. induction n as [|n IH]; intros m Hl; [done|]. cbn [plus blocks_n app]. f_equal.
  rewrite IH by (rewrite length_drop; lia). rewrite drop_drop. do 3 f_equal. lia.
Qed.

Lemma blocks_n_app_l n a b : (64 * n <= length a)%nat -> blocks_n n (a ++ b) = blocks_n n a.
Proof.
  revert a. induction n as [|n IH]; intros a Hl; [done|]. cbn [blocks_n].
  rewrite take_app_le by lia. f_equal. rewrite drop_app_le by lia. apply IH. rewrite length_drop. lia.
Qed.

Lemma div64 n : (64 * (n / 64) <= n)%nat.
Proof. pose proof (Nat.div_mod n 64). lia. Qed.

Lemma length_tail m : length (tail_of m) = (length m mod 64)%nat.
Proof. unfold tail_of. rewrite length_drop. pose proof (Nat.div_mod (length m) 64). lia. Qed.

(** One more byte: it joins the tail, or completes a block. *)
Lemma add_byte_tail m b :
  (length m mod 64 <> 63)%nat ->
  full_blocks (m ++ [b]) = full_blocks m /\ tail_of (m ++ [b]) = tail_of m ++ [b].
Proof.
  intros Hm. unfold full_blocks, tail_of. rewrite length_app. simpl length.
  pose proof (Nat.div_mod (length m) 64 ltac:(lia)). pose proof (Nat.mod_upper_bound (length m) 64 ltac:(lia)).
  assert ((length m + 1) / 64 = length m / 64)%nat as ->.
  { symmetry. apply (Nat.div_unique _ _ _ (length m mod 64 + 1)); lia. }
  rewrite blocks_n_app_l by lia. split; [done|]. rewrite drop_app_le by lia. done.
Qed.

Lemma add_byte_block m b :
  (length m mod 64 = 63)%nat ->
  full_blocks (m ++ [b]) = full_blocks m ++ [tail_of m ++ [b]] /\ tail_of (m ++ [b]) = [].
Proof.
  intros Hm. unfold full_blocks, tail_of. rewrite length_app. simpl length.
  pose proof (Nat.div_mod (length m) 64 ltac:(lia)).
  assert ((length m + 1) / 64 = length m / 64 + 1)%nat as ->.
  { symmetry. apply (Nat.div_unique _ _ _ 0); lia. }
  rewrite blocks_n_app by (rewrite length_app; simpl length; lia). rewrite blocks_n_app_l by lia.
  split.
  - cbn [blocks_n]. do 2 f_equal. rewrite drop_app_le by lia. apply firstn_all2.
    rewrite length_app, length_drop. simpl length. lia.
  - apply drop_ge. rewrite length_app. simpl length. lia.
Qed.

(** ** Big-endian bytes *)

Lemma byte_of_u8 z : byte_of_Z (u8 z) = byte_of_Z z.
Proof.
  apply Byte.byte.unsigned_inj. rewrite !Byte.byte.unsigned_of_Z. unfold Byte.byte.wrap, u8.
  by rewrite Z.mod_mod.
Qed.

Lemma word_bytes_be w : word_bytes w = be_bytes 4 w.
Proof.
  unfold word_bytes, be_bytes. rewrite !byte_of_u8. unfold LittleEndianList.le_split; cbn [rev app].
  by rewrite !Z.shiftr_shiftr by lia.
Qed.

Lemma length_bytes_be n : length_byte n <$> seq 0 8 = be_bytes 8 n.
Proof.
  unfold length_byte, be_bytes. unfold LittleEndianList.le_split; cbn [seq fmap list_fmap rev app].
  rewrite !byte_of_u8, !Z.shiftr_shiftr by lia. cbn. by rewrite Z.shiftr_0_r.
Qed.

Lemma length_be_bytes k n : length (be_bytes k n) = k.
Proof. unfold be_bytes. rewrite length_rev. apply LittleEndianList.length_le_split. Qed.

Lemma land_63 n : Z.land n 63 = n mod 64.
Proof. change 63 with (Z.ones 6). by rewrite Z.land_ones by lia. Qed.

Lemma u64_mod64 n : u64 n mod 64 = n mod 64.
Proof.
  unfold u64. replace (2 ^ 64) with (64 * 2 ^ 58) by done.
  rewrite Z.rem_mul_r by lia. rewrite (Z.mul_comm 64 (_ mod _)), Z.mod_add, Z.mod_mod by lia. done.
Qed.

(** ** The context holds the message *)

Section Correct.
Context (transform : list Z -> list byte -> list Z) (iv : list Z).

Record ctx_for (m : list byte) (c : HASH_CTX) : Prop := {
  cf_count : count c = u64 (blen m);
  cf_buf : length (buf c) = 64%nat;
  cf_tail : take (length m mod 64) (buf c) = tail_of m;
  cf_state : state c = foldl transform iv (full_blocks m)
}.

Lemma cf_index m c : ctx_for m c -> Z.to_nat (Z.land (count c) 63) = (length m mod 64)%nat.
Proof using.
  intros H. rewrite land_63, (cf_count _ _ H), u64_mod64. unfold blen.
  change 64 with (Z.of_nat 64). rewrite <- Nat2Z.inj_mod. apply Nat2Z.id.
Qed.

Lemma update_bytes_ok data : forall m s bf,
  length bf = 64%nat -> take (length m mod 64) bf = tail_of m -> s = foldl transform iv (full_blocks m) ->
  exists bf', foldl (update_byte transform) (s, bf, (length m mod 64)%nat) data =
      (foldl transform iv (full_blocks (m ++ data)), bf', (length (m ++ data) mod 64)%nat) /\
    length bf' = 64%nat /\ take (length (m ++ data) mod 64) bf' = tail_of (m ++ data).
Proof using.
  induction data as [|b data IH]; intros m s bf Hl Ht ->.
  { exists bf. by rewrite app_nil_r. }
  pose proof (Nat.mod_upper_bound (length m) 64 ltac:(lia)) as Hm. set (i := (length m mod 64)%nat) in *.
  replace (m ++ b :: data) with ((m ++ [b]) ++ data) by (by rewrite <- app_assoc).
  assert (Htake : take (S i) (<[i := b]> bf) = tail_of m ++ [b]).
  { rewrite (take_S_r _ _ b) by (apply list_lookup_insert_eq; lia). rewrite take_insert_ge by lia. by rewrite Ht. }
  assert (Hlen : (length (m ++ [b]) mod 64 = if Nat.eqb (S i) 64 then 0 else S i)%nat).
  { rewrite length_app. simpl length. pose proof (Nat.div_mod (length m) 64 ltac:(lia)). fold i in H.
    destruct (Nat.eqb_spec (S i) 64).
    - symmetry. apply (Nat.mod_unique _ _ (length m / 64 + 1)); lia.
    - symmetry. apply (Nat.mod_unique _ _ (length m / 64)); lia. }
  cbn [foldl]. unfold update_byte at 2.
  destruct (Nat.eqb_spec (S i) 64) as [H63|H63].
  - destruct (add_byte_block m b) as [Hfb Htl]; [fold i; lia|].
    destruct (IH (m ++ [b]) (transform (foldl transform iv (full_blocks m)) (<[i := b]> bf)) (<[i := b]> bf))
      as (bf' & Hf & ?); [by rewrite length_insert|by rewrite Hlen, Htl| |].
    { rewrite Hfb, foldl_app. simpl. f_equal. rewrite <- Htake. symmetry. apply firstn_all2.
      rewrite length_insert. lia. }
    rewrite Hlen in Hf. exists bf'. by rewrite Hf.
  - destruct (add_byte_tail m b) as [Hfb Htl]; [fold i; lia|].
    destruct (IH (m ++ [b]) (foldl transform iv (full_blocks m)) (<[i := b]> bf))
      as (bf' & Hf & ?); [by rewrite length_insert|by rewrite Hlen, Htl|by rewrite Hfb|].
    rewrite Hlen in Hf. exists bf'. by rewrite Hf.
Qed.

(** [update] appends to the message, whatever the pieces. *)
Lemma update_ok m c data :
  ctx_for m c -> ctx_for (m ++ data) (update transform c data) /\ f (update transform c data) = f c.
Proof using.
  intros H. unfold update. rewrite (cf_index m c H).
  destruct (update_bytes_ok data m (state c) (buf c)) as (bf' & -> & Hl & Ht); [apply H..|].
  split; [|done]. split; simpl; try done. rewrite (cf_count _ _ H), blen_app. unfold u64.
  by rewrite Zplus_mod_idemp_l.
Qed.

Lemma pad_loop_ok fuel : forall m c,
  ctx_for m c -> (56 - blen m) mod 64 <= Z.of_nat fuel ->
  exists c', pad_loop transform fuel c = Done c' /\ ctx_for (m ++ zeros ((56 - blen m) mod 64)) c' /\ f c' = f c.
Proof using.
  induction fuel as [|fuel IH]; intros m c H Hf; cbn [pad_loop];
    rewrite land_63, (cf_count _ _ H), u64_mod64;
    pose proof (Z.mod_pos_bound (56 - blen m) 64 ltac:(lia)) as Hb;
    pose proof (Z.div_mod (blen m) 64 ltac:(lia)) as Hdm;
    pose proof (Z.mod_pos_bound (blen m) 64 ltac:(lia)) as Hmb.
  all: destruct (Z.eqb_spec (blen m mod 64) 56) as [He|Hne];
    [exists c; assert ((56 - blen m) mod 64 = 0) as ->
      by (symmetry; apply (Z.mod_unique _ _ (- (blen m / 64))); lia);
     by rewrite zeros_nil, app_nil_r by lia|].
  { exfalso. pose proof (Z.div_mod (56 - blen m) 64 ltac:(lia)) as H2.
    assert ((56 - blen m) mod 64 = 0) as H0 by lia. lia. }
  destruct (update_ok m c [Init.Byte.x00] H) as [Hu Hfu].
  assert (Hstep : (56 - blen m) mod 64 = 1 + (56 - blen (m ++ [Init.Byte.x00])) mod 64).
  { rewrite blen_app. change (blen [Init.Byte.x00]) with 1.
    set (r := (56 - (blen m + 1)) mod 64). pose proof (Z.mod_pos_bound (56 - (blen m + 1)) 64 ltac:(lia)) as Hr.
    pose proof (Z.div_mod (56 - (blen m + 1)) 64 ltac:(lia)) as Hr2. fold r in Hr, Hr2.
    symmetry. apply (Z.mod_unique _ _ ((56 - (blen m + 1)) / 64)); [|lia]. left.
    assert (r <> 63); [|lia]. intros Hr63. apply Hne.
    symmetry. apply (Z.mod_unique _ _ (- ((56 - (blen m + 1)) / 64) - 2)); lia. }
  destruct (IH _ _ Hu) as (c' & -> & Hc' & Hf'); [lia|]. exists c'. split; [done|].
  split; [|congruence]. rewrite Hstep, zeros_add by (pose proof (Z.mod_pos_bound (56 - blen (m ++ [Init.Byte.x00])) 64); lia).
  by rewrite app_assoc.
Qed.

Lemma update_list_ok (g : nat -> byte) ix : forall m c,
  ctx_for m c -> ctx_for (m ++ (g <$> ix)) (foldl (fun c i => update transform c [g i]) c ix) /\
    f (foldl (fun c i => update transform c [g i]) c ix) = f c.
Proof using.
  induction ix as [|i ix IH]; intros m c H; simpl; [by rewrite app_nil_r|].
  destruct (update_ok m c [g i] H) as [Hu Hfu]. destruct (IH _ _ Hu) as [Hc Hf].
  rewrite <- app_assoc in Hc. split; [done|congruence].
Qed.

(** [final] returns the digest at the start of the buffer. *)
Lemma final_ok words m c :
  ctx_for m c -> blen m < 2 ^ 61 -> (forall m, (words <= length (foldl transform iv (full_blocks m)))%nat) ->
  exists c' bf, final transform words c = Done (c', bf) /\ f c' = f c /\
    take (4 * words) bf = iterated_hash transform iv words m.
Proof using.
  intros H Hlt Hwords. pose proof (blen_nonneg m).
  assert (Hcnt : u64 (count c * 8) = 8 * blen m).
  { rewrite (cf_count _ _ H). unfold u64. rewrite (Z.mod_small (blen m)) by lia. rewrite Z.mod_small; lia. }
  unfold final. rewrite Hcnt. destruct (update_ok m c [Init.Byte.x80] H) as [Hu Hfu].
  destruct (pad_loop_ok 64 _ _ Hu) as (c1 & -> & Hc1 & Hf1).
  { pose proof (Z.mod_pos_bound (56 - blen (m ++ [Init.Byte.x80])) 64). lia. }
  cbn [obind]. destruct (update_list_ok (length_byte (8 * blen m)) (seq 0 8) _ _ Hc1) as [Hc2 Hf2].
  set (c2 := foldl _ c1 _) in *. eexists _, _. split; [reflexivity|]. split; [cbn [f]; congruence|].
  assert (Hm : ((m ++ [Init.Byte.x80]) ++ zeros ((56 - blen (m ++ [Init.Byte.x80])) mod 64)) ++
    (length_byte (8 * blen m) <$> seq 0 8) = m ++ padding (blen m)).
  { rewrite <- !app_assoc. unfold padding. f_equal. cbn [app]. f_equal. rewrite length_bytes_be. do 3 f_equal.
    rewrite blen_app. change (blen [Init.Byte.x80]) with 1. lia. }
  rewrite Hm in Hc2. rewrite (cf_state _ _ Hc2). unfold iterated_hash.
  rewrite (list_fmap_ext word_bytes (be_bytes 4)) by (intros; apply word_bytes_be).
  rewrite take_app_length'; [done|].
  assert (Hj : forall l : list Z, length (mjoin (be_bytes 4 <$> l)) = (4 * length l)%nat).
  { induction l as [|x l IHl]; [done|].
    change (mjoin (be_bytes 4 <$> x :: l)) with (be_bytes 4 x ++ mjoin (be_bytes 4 <$> l)).
    rewrite length_app, length_be_bytes, IHl. simpl length. lia. }
  rewrite Hj, length_take. specialize (Hwords (m ++ padding (blen m))). lia.
Qed.
End Correct.
