(* ===== verification/Sha.v ===== *)
(** * SHA-1 and SHA-256 (libmincrypt sha.c, sha256.c)

    The compression functions with the operations the code uses, the
    specification in the notation of FIPS 180, and the theorems that the code
    computes the standard's digests, in one call or piece by piece. *)
From S2P Require Import Prelude HashCtx.

(** ** Words *)

(** The macros [rol], [ror] and [shr] on 32-bit values. *)
Definition rol (bits v : Z) : Z := Z.lor (u32 (Z.shiftl v bits)) (Z.shiftr v (32 - bits)).
Definition ror (v bits : Z) : Z := Z.lor (Z.shiftr v bits) (u32 (Z.shiftl v (32 - bits))).
Definition shr (v bits : Z) : Z := Z.shiftr v bits.

(** [tmp = *p++ << 24; tmp |= *p++ << 16; tmp |= *p++ << 8; tmp |= *p++]. *)
Fixpoint load_words (n : nat) (b : list byte) : list Z :=
  match n, b with
  | S n, b0 :: b1 :: b2 :: b3 :: r =>
      Z.lor (Z.lor (Z.lor (Z.shiftl (byte_to_Z b0) 24) (Z.shiftl (byte_to_Z b1) 16))
               (Z.shiftl (byte_to_Z b2) 8)) (byte_to_Z b3) :: load_words n r
  | _, _ => []
  end.

(** [w !! t] for indices the loops keep in range. *)
Definition at_ (w : list Z) (t : nat) : Z := nth t w 0.

(** ** SHA-1 *)

(** [for(; t < 80; t++) W[t] = ...]: [n] turns from [t = length w]. *)
Fixpoint sha1_expand (n : nat) (w : list Z) : list Z :=
  match n with
  | O => w
  | S n =>
      let t := length w in
      sha1_expand n (w ++ [rol 1 (Z.lxor (Z.lxor (Z.lxor (at_ w (t - 3)) (at_ w (t - 8)))
                                            (at_ w (t - 14))) (at_ w (t - 16)))])
  end.

Definition sha1_round (w : list Z) (v : Z * Z * Z * Z * Z) (t : nat) : Z * Z * Z * Z * Z :=
  let '(A, B, C, D, E) := v in
  let tmp := u32 (rol 5 A + E + at_ w t) in
  let tmp :=
    if (t <? 20)%nat then u32 (tmp + u32 (Z.lxor D (Z.land B (Z.lxor C D)) + 0x5A827999))
    else if (t <? 40)%nat then u32 (tmp + u32 (Z.lxor (Z.lxor B C) D + 0x6ED9EBA1))
    else if (t <? 60)%nat then u32 (tmp + u32 (Z.lor (Z.land B C) (Z.land D (Z.lor B C)) + 0x8F1BBCDC))
    else u32 (tmp + u32 (Z.lxor (Z.lxor B C) D + 0xCA62C1D6)) in
  (tmp, A, rol 30 B, C, D).

(** [SHA1_Transform]: only the first five state words are used. *)
Definition SHA1_Transform (state : list Z) (buf : list byte) : list Z :=
  let w := sha1_expand 64 (load_words 16 buf) in
  match state with
  | s0 :: s1 :: s2 :: s3 :: s4 :: r =>
      let '(A, B, C, D, E) := foldl (sha1_round w) (s0, s1, s2, s3, s4) (seq 0 80) in
      u32 (s0 + A) :: u32 (s1 + B) :: u32 (s2 + C) :: u32 (s3 + D) :: u32 (s4 + E) :: r
  | _ => state
  end.

Definition SHA_iv : list Z := [0x67452301; 0xEFCDAB89; 0x98BADCFE; 0x10325476; 0xC3D2E1F0].

(** [SHA_init] leaves the buffer and the unused state words as they were. *)
Definition SHA_init (c : HASH_CTX) : HASH_CTX :=
  mk_ctx SHA_VTAB 0 (buf c) (SHA_iv ++ drop 5 (state c)).
Definition SHA_update : HASH_CTX -> list byte -> HASH_CTX := update SHA1_Transform.
Definition SHA_final : HASH_CTX -> outcome (HASH_CTX * list byte) := final SHA1_Transform 5.
Definition SHA_DIGEST_SIZE : nat := 20.

(** [SHA_hash]: [c] is the uninitialised context on the stack. *)
Definition SHA_hash (c : HASH_CTX) (data : list byte) : outcome (list byte) :=
  let! (_, b) := SHA_final (SHA_update (SHA_init c) data) in Done (take SHA_DIGEST_SIZE b).

(** ** SHA-256 *)

(** A row of the table [K] is four constants. *)
Definition K_row (r : Z) : list Z :=
  [Z.shiftr r 96; u32 (Z.shiftr r 64); u32 (Z.shiftr r 32); u32 r].

Definition K : list Z := Eval cbv in flat_map K_row
  [0x428a2f9871374491b5c0fbcfe9b5dba5; 0x3956c25b59f111f1923f82a4ab1c5ed5;
   0xd807aa9812835b01243185be550c7dc3; 0x72be5d7480deb1fe9bdc06a7c19bf174;
   0xe49b69c1efbe47860fc19dc6240ca1cc; 0x2de92c6f4a7484aa5cb0a9dc76f988da;
   0x983e5152a831c66db00327c8bf597fc7; 0xc6e00bf3d5a7914706ca635114292967;
   0x27b70a852e1b21384d2c6dfc53380d13; 0x650a7354766a0abb81c2c92e92722c85;
   0xa2bfe8a1a81a664bc24b8b70c76c51a3; 0xd192e819d6990624f40e3585106aa070;
   0x19a4c1161e376c082748774c34b0bcb5; 0x391c0cb34ed8aa4a5b9cca4f682e6ff3;
   0x748f82ee78a5636f84c878148cc70208; 0x90befffaa4506cebbef9a3f7c67178f2].

Fixpoint sha256_expand (n : nat) (w : list Z) : list Z :=
  match n with
  | O => w
  | S n =>
      let t := length w in
      let x := at_ w (t - 15) in
      let y := at_ w (t - 2) in
      let s0 := Z.lxor (Z.lxor (ror x 7) (ror x 18)) (shr x 3) in
      let s1 := Z.lxor (Z.lxor (ror y 17) (ror y 19)) (shr y 10) in
      sha256_expand n (w ++ [u32 (at_ w (t - 16) + s0 + at_ w (t - 7) + s1)])
  end.

Definition regs : Type := Z * Z * Z * Z * Z * Z * Z * Z.

Definition sha256_round (w : list Z) (v : regs) (t : nat) : regs :=
  let '(A, B, C, D, E, F, G, H) := v in
  let s0 := Z.lxor (Z.lxor (ror A 2) (ror A 13)) (ror A 22) in
  let maj := Z.lxor (Z.lxor (Z.land A B) (Z.land A C)) (Z.land B C) in
  let t2 := u32 (s0 + maj) in
  let s1 := Z.lxor (Z.lxor (ror E 6) (ror E 11)) (ror E 25) in
  let ch := Z.lxor (Z.land E F) (Z.land (u32 (Z.lnot E)) G) in
  let t1 := u32 (H + s1 + ch + at_ K t + at_ w t) in
  (u32 (t1 + t2), A, B, C, u32 (D + t1), E, F, G).

Definition SHA256_Transform (state : list Z) (buf : list byte) : list Z :=
  let w := sha256_expand 48 (load_words 16 buf) in
  match state with
  | s0 :: s1 :: s2 :: s3 :: s4 :: s5 :: s6 :: s7 :: r =>
      let '(A, B, C, D, E, F, G, H) :=
        foldl (sha256_round w) (s0, s1, s2, s3, s4, s5, s6, s7) (seq 0 64) in
      u32 (s0 + A) :: u32 (s1 + B) :: u32 (s2 + C) :: u32 (s3 + D) ::
      u32 (s4 + E) :: u32 (s5 + F) :: u32 (s6 + G) :: u32 (s7 + H) :: r
  | _ => state
  end.

Definition SHA256_iv : list Z :=
  [0x6a09e667; 0xbb67ae85; 0x3c6ef372; 0xa54ff53a; 0x510e527f; 0x9b05688c; 0x1f83d9ab; 0x5be0cd19].

Definition SHA256_init (c : HASH_CTX) : HASH_CTX :=
  mk_ctx SHA256_VTAB 0 (buf c) (SHA256_iv ++ drop 8 (state c)).
Definition SHA256_update : HASH_CTX -> list byte -> HASH_CTX := update SHA256_Transform.
Definition SHA256_final : HASH_CTX -> outcome (HASH_CTX * list byte) := final SHA256_Transform 8.
Definition SHA256_DIGEST_SIZE : nat := 32.
Definition SHA256_hash (c : HASH_CTX) (data : list byte) : outcome (list byte) :=
  let! (_, b) := SHA256_final (SHA256_update (SHA256_init c) data) in Done (take SHA256_DIGEST_SIZE b).

(** ** The method table *)

Definition HASH_init (c : HASH_CTX) : HASH_CTX :=
  match f c with SHA_VTAB => SHA_init c | SHA256_VTAB => SHA256_init c end.
Definition HASH_update (c : HASH_CTX) (data : list byte) : HASH_CTX :=
  match f c with SHA_VTAB => SHA_update c data | SHA256_VTAB => SHA256_update c data end.
Definition HASH_final (c : HASH_CTX) : outcome (HASH_CTX * list byte) :=
  match f c with SHA_VTAB => SHA_final c | SHA256_VTAB => SHA256_final c end.
Definition HASH_size (c : HASH_CTX) : nat :=
  match f c with SHA_VTAB => SHA_DIGEST_SIZE | SHA256_VTAB => SHA256_DIGEST_SIZE end.

(** ** The specification (FIPS 180-4) *)

Module FIPS.
Definition ROTL (n x : Z) : Z := (x * 2 ^ n + x / 2 ^ (32 - n)) mod 2 ^ 32.
Definition ROTR (n x : Z) : Z := ROTL (32 - n) x.
Definition SHR (n x : Z) : Z := x / 2 ^ n.
Definition Ch (x y z : Z) : Z := Z.lxor (Z.land x y) (Z.land (Z.lnot x) z).
Definition Parity (x y z : Z) : Z := Z.lxor (Z.lxor x y) z.
Definition Maj (x y z : Z) : Z := Z.lxor (Z.lxor (Z.land x y) (Z.land x z)) (Z.land y z).
Definition add (a b : Z) : Z := (a + b) mod 2 ^ 32.

(** The words of a block are big-endian numbers. *)
Fixpoint words (n : nat) (b : list byte) : list Z :=
  match n with O => [] | S n => le_combine (rev (take 4 b)) :: words n (drop 4 b) end.

(** The message schedule, newest word first. *)
Definition sched1 (r : list Z) : list Z :=
  ROTL 1 (Z.lxor (Z.lxor (Z.lxor (nth 2 r 0) (nth 7 r 0)) (nth 13 r 0)) (nth 15 r 0)) :: r.
Definition W1 (b : list byte) : list Z := rev (Nat.iter 64 sched1 (rev (words 16 b))).

Definition f1 (t : nat) (x y z : Z) : Z :=
  if (t <? 20)%nat then Ch x y z else if (t <? 40)%nat then Parity x y z
  else if (t <? 60)%nat then Maj x y z else Parity x y z.
Definition K1 (t : nat) : Z :=
  if (t <? 20)%nat then 0x5a827999 else if (t <? 40)%nat then 0x6ed9eba1
  else if (t <? 60)%nat then 0x8f1bbcdc else 0xca62c1d6.

Definition step1 (w : list Z) (v : Z * Z * Z * Z * Z) (t : nat) : Z * Z * Z * Z * Z :=
  let '(a, b, c, d, e) := v in
  (add (add (add (add (ROTL 5 a) (f1 t b c d)) e) (K1 t)) (nth t w 0), a, ROTL 30 b, c, d).

Definition compress1 (h : list Z) (b : list byte) : list Z :=
  match h with
  | [h0; h1; h2; h3; h4] =>
      let '(a, b, c, d, e) := foldl (step1 (W1 b)) (h0, h1, h2, h3, h4) (seq 0 80) in
      [add a h0; add b h1; add c h2; add d h3; add e h4]
  | _ => h
  end.

Definition sigma0 (x : Z) : Z := Z.lxor (Z.lxor (ROTR 7 x) (ROTR 18 x)) (SHR 3 x).
Definition sigma1 (x : Z) : Z := Z.lxor (Z.lxor (ROTR 17 x) (ROTR 19 x)) (SHR 10 x).
Definition Sigma0 (x : Z) : Z := Z.lxor (Z.lxor (ROTR 2 x) (ROTR 13 x)) (ROTR 22 x).
Definition Sigma1 (x : Z) : Z := Z.lxor (Z.lxor (ROTR 6 x) (ROTR 11 x)) (ROTR 25 x).

Definition sched256 (r : list Z) : list Z :=
  add (add (add (sigma1 (nth 1 r 0)) (nth 6 r 0)) (sigma0 (nth 14 r 0))) (nth 15 r 0) :: r.
Definition W256 (b : list byte) : list Z := rev (Nat.iter 48 sched256 (rev (words 16 b))).

Definition step256 (w : list Z) (v : regs) (t : nat) : regs :=
  let '(a, b, c, d, e, f, g, h) := v in
  let T1 := add (add (add (add h (Sigma1 e)) (Ch e f g)) (nth t K 0)) (nth t w 0) in
  let T2 := add (Sigma0 a) (Maj a b c) in
  (add T1 T2, a, b, c, add d T1, e, f, g).

Definition compress256 (h : list Z) (b : list byte) : list Z :=
  match h with
  | [h0; h1; h2; h3; h4; h5; h6; h7] =>
      let '(a, b, c, d, e, f, g, h) := foldl (step256 (W256 b)) (h0, h1, h2, h3, h4, h5, h6, h7) (seq 0 64) in
      [add a h0; add b h1; add c h2; add d h3; add e h4; add f h5; add g h6; add h h7]
  | _ => h
  end.

Definition sha1 (m : list byte) : list byte := iterated_hash compress1 SHA_iv 5 m.
Definition sha256 (m : list byte) : list byte := iterated_hash compress256 SHA256_iv 8 m.
End FIPS.

(** ** Words of 32 bits *)

Lemma is_u32_bits x : is_u32 x <-> 0 <= x /\ forall i, 32 <= i -> Z.testbit x i = false.
Proof.
  unfold is_u32. split.
  - intros [H0 Hlt]. split; [done|]. intros i Hi.
    rewrite <- (Z.mod_small x (2 ^ 32)) by lia. apply Z.mod_pow2_bits_high. lia.
  - intros [H0 Hb]. split; [done|]. destruct (Z.eq_dec x 0) as [->|]; [lia|].
    apply Z.log2_lt_pow2; [lia|]. destruct (Z.lt_ge_cases (Z.log2 x) 32) as [|Hge]; [done|].
    specialize (Hb _ Hge). rewrite Z.bit_log2 in Hb by lia. done.
Qed.

Lemma u32_bitwise (op : Z -> Z -> Z) (g : bool -> bool -> bool) :
  (forall x y i, Z.testbit (op x y) i = g (Z.testbit x i) (Z.testbit y i)) -> g false false = false ->
  (forall x y, 0 <= x -> 0 <= y -> 0 <= op x y) ->
  forall x y, is_u32 x -> is_u32 y -> is_u32 (op x y).
Proof.
  intros Hop Hg Hp x y [Hx Hxb]%is_u32_bits [Hy Hyb]%is_u32_bits. apply is_u32_bits.
  split; [by apply Hp|]. intros i Hi. by rewrite Hop, Hxb, Hyb.
Qed.

Lemma u32_lxor x y : is_u32 x -> is_u32 y -> is_u32 (Z.lxor x y).
Proof. apply (u32_bitwise Z.lxor xorb); [apply Z.lxor_spec|done|]. intros. apply Z.lxor_nonneg. tauto. Qed.

Lemma u32_lor x y : is_u32 x -> is_u32 y -> is_u32 (Z.lor x y).
Proof. apply (u32_bitwise Z.lor orb); [apply Z.lor_spec|done|]. intros. by apply Z.lor_nonneg. Qed.

Lemma u32_land x y : is_u32 x -> is_u32 y -> is_u32 (Z.land x y).
Proof. apply (u32_bitwise Z.land andb); [apply Z.land_spec|done|]. intros. apply Z.land_nonneg. auto. Qed.

Lemma u32_shiftr x n : 0 <= n -> is_u32 x -> is_u32 (Z.shiftr x n).
Proof.
  intros Hn [Hx Hb]%is_u32_bits. apply is_u32_bits. split; [by apply Z.shiftr_nonneg|].
  intros i Hi. rewrite Z.shiftr_spec by lia. apply Hb. lia.
Qed.

#[export] Hint Resolve u32_range u32_lxor u32_lor u32_land u32_shiftr : u32.

Lemma u32_rol n x : 0 <= n <= 32 -> is_u32 x -> is_u32 (rol n x).
Proof. intros. unfold rol. auto with u32 lia. Qed.

(** A rotation is the sum of the two parts. *)
Lemma rol_ROTL n x : 0 <= n <= 32 -> is_u32 x -> rol n x = FIPS.ROTL n x.
Proof.
  intros Hn Hx. unfold rol, FIPS.ROTL, u32. rewrite Z.shiftl_mul_pow2, Z.shiftr_div_pow2 by lia.
  set (lo := x / 2 ^ (32 - n)).
  assert (Hlo : 0 <= lo < 2 ^ n).
  { unfold lo, is_u32 in *. pose proof (Z.pow_pos_nonneg 2 (32 - n) ltac:(lia) ltac:(lia)).
    split; [apply Z.div_pos; lia|]. apply Z.div_lt_upper_bound; [lia|].
    rewrite <- Z.pow_add_r by lia. replace (32 - n + n) with 32 by lia. lia. }
  assert (Hland : Z.land ((x * 2 ^ n) mod 2 ^ 32) lo = 0).
  { apply Z.bits_inj'. intros i Hi. rewrite Z.land_spec, Z.bits_0.
    destruct (Z.lt_ge_cases i n).
    - rewrite (Z.mod_pow2_bits_low _ 32), Z.mul_pow2_bits_low by lia. done.
    - rewrite <- (Z.mod_small lo (2 ^ n)), (Z.mod_pow2_bits_high lo n) by lia. apply andb_false_r. }
  pose proof (Z.add_lor_land ((x * 2 ^ n) mod 2 ^ 32) lo) as Hsum. rewrite Hland, Z.add_0_r in Hsum.
  rewrite Hsum, <- (Z.mod_small ((x * 2 ^ n) mod 2 ^ 32 + lo) (2 ^ 32)), Zplus_mod_idemp_l; [done|].
  rewrite <- Hsum. apply u32_lor; [apply u32_range|]. unfold is_u32.
  assert (2 ^ n <= 2 ^ 32) by (apply Z.pow_le_mono_r; lia). lia.
Qed.

Lemma ror_ROTR n x : 0 <= n <= 32 -> is_u32 x -> ror x n = FIPS.ROTR n x.
Proof.
  intros Hn Hx. unfold FIPS.ROTR. rewrite <- rol_ROTL by (done || lia). unfold ror, rol.
  rewrite Z.lor_comm. do 2 f_equal. lia.
Qed.

Lemma u32_ror n x : 0 <= n <= 32 -> is_u32 x -> is_u32 (ror x n).
Proof. intros. unfold ror. auto with u32 lia. Qed.

#[export] Hint Resolve u32_rol u32_ror : u32.

(** The shorter forms of the round functions. *)
Lemma Ch_sha1 b c d : Z.lxor d (Z.land b (Z.lxor c d)) = FIPS.Ch b c d.
Proof.
  apply Z.bits_inj'. intros i Hi. unfold FIPS.Ch. rewrite !Z.lxor_spec, !Z.land_spec, Z.lxor_spec, Z.lnot_spec by done.
  by destruct (Z.testbit b i), (Z.testbit c i), (Z.testbit d i).
Qed.

Lemma Maj_sha1 b c d : Z.lor (Z.land b c) (Z.land d (Z.lor b c)) = FIPS.Maj b c d.
Proof.
  apply Z.bits_inj'. intros i Hi. unfold FIPS.Maj. rewrite !Z.lxor_spec, !Z.lor_spec, !Z.land_spec, Z.lor_spec.
  by destruct (Z.testbit b i), (Z.testbit c i), (Z.testbit d i).
Qed.

Lemma Ch_sha256 e f g : is_u32 g -> Z.lxor (Z.land e f) (Z.land (u32 (Z.lnot e)) g) = FIPS.Ch e f g.
Proof.
  intros [_ Hg]%is_u32_bits. unfold FIPS.Ch. f_equal. apply Z.bits_inj'. intros i Hi. rewrite !Z.land_spec.
  unfold u32. destruct (Z.lt_ge_cases i 32); [by rewrite Z.mod_pow2_bits_low by lia|].
  rewrite Hg by done. by rewrite !andb_false_r.
Qed.

Lemma u32_word b0 b1 b2 b3 :
  is_u32 (Z.lor (Z.lor (Z.lor (Z.shiftl (byte_to_Z b0) 24) (Z.shiftl (byte_to_Z b1) 16))
            (Z.shiftl (byte_to_Z b2) 8)) (byte_to_Z b3)).
Proof.
  assert (H : forall b n, 0 <= n <= 24 -> is_u32 (Z.shiftl (byte_to_Z b) n)).
  { intros b n Hn. pose proof (Byte.byte.unsigned_range b). rewrite Z.shiftl_mul_pow2 by lia. unfold is_u32.
    assert (2 ^ n <= 2 ^ 24) by (apply Z.pow_le_mono_r; lia). pose proof (Z.pow_pos_nonneg 2 n). nia. }
  pose proof (H b3 0 ltac:(lia)) as H3. rewrite Z.shiftl_0_r in H3.
  pose proof (H b0 24 ltac:(lia)). pose proof (H b1 16 ltac:(lia)). pose proof (H b2 8 ltac:(lia)).
  auto with u32.
Qed.

Lemma load_words_FIPS n : forall b,
  (4 * n <= length b)%nat ->
  load_words n b = FIPS.words n b /\ Forall is_u32 (load_words n b) /\ length (load_words n b) = n.
Proof.
  induction n as [|n IH]; intros b Hl; [by repeat constructor|].
  destruct b as [|b0 [|b1 [|b2 [|b3 r]]]]; simpl in Hl; try lia.
  destruct (IH r) as (He & Hf & Hn); [lia|]. cbn [load_words FIPS.words take drop length]. rewrite He, drop_0, take_0.
  split; [|split; [constructor; [apply u32_word|by rewrite <- He]|by rewrite <- He, Hn]].
  f_equal. unfold LittleEndianList.le_combine; cbn [rev app].
  rewrite !Z.shiftl_lor, !Z.shiftl_shiftl, Z.shiftl_0_l, Z.lor_0_r by lia.
  rewrite <- !Z.lor_assoc. rewrite (Z.lor_comm (byte_to_Z b3)). rewrite <- !Z.lor_assoc.
  apply Z.bits_inj'. intros i Hi. rewrite !Z.lor_spec.
  change (8 + (8 + 8)) with 24. change (8 + 8) with 16.
  by destruct (Z.testbit (Z.shiftl (byte_to_Z b0) 24) i), (Z.testbit (Z.shiftl (byte_to_Z b1) 16) i),
    (Z.testbit (Z.shiftl (byte_to_Z b2) 8) i), (Z.testbit (byte_to_Z b3) i).
Qed.

(** ** The schedules *)

Lemma at_u32 w t : Forall is_u32 w -> is_u32 (at_ w t).
Proof.
  intros H. unfold at_. destruct (Nat.lt_ge_cases t (length w)).
  - rewrite Forall_forall in H. apply H. apply list_elem_of_In. by apply nth_In.
  - rewrite nth_overflow by done. unfold is_u32. lia.
Qed.
#[export] Hint Resolve at_u32 : u32.

Lemma nth_rev_at w k : (k < length w)%nat -> nth k (rev w) 0 = at_ w (length w - S k).
Proof. intros. by rewrite rev_nth. Qed.

Lemma expand_iter (expand : nat -> list Z -> list Z) (step : list Z -> list Z) (next : list Z -> Z) :
  (forall w, expand 0%nat w = w) -> (forall n w, expand (S n) w = expand n (w ++ [next w])) ->
  (forall w, (16 <= length w)%nat -> Forall is_u32 w -> step (rev w) = next w :: rev w /\ is_u32 (next w)) ->
  forall n w, (16 <= length w)%nat -> Forall is_u32 w ->
    expand n w = rev (Nat.iter n step (rev w)) /\ Forall is_u32 (expand n w).
Proof.
  intros H0 HS Hstep. induction n as [|n IH]; intros w Hl Hu.
  { rewrite H0. simpl. by rewrite rev_involutive. }
  rewrite HS. destruct (Hstep w Hl Hu) as [Hs Hn].
  destruct (IH (w ++ [next w])) as [He Hf].
  { rewrite length_app. lia. }
  { apply Forall_app. by split; [|constructor]. }
  split; [|done]. rewrite He, Nat.iter_succ_r, Hs. by rewrite rev_app_distr.
Qed.

(** Sums modulo 2^32, reduced at different places. *)
Ltac sum32 :=
  unfold FIPS.add, u32;
  repeat first
    [ rewrite Zplus_mod_idemp_l | rewrite Zplus_mod_idemp_r
    | rewrite <- !Z.add_assoc; rewrite Zplus_mod_idemp_l
    | rewrite !Z.add_assoc; rewrite Zplus_mod_idemp_r ];
  f_equal; lia.

(** The word each schedule appends. *)
Definition next1 (w : list Z) : Z :=
  let t := length w in
  rol 1 (Z.lxor (Z.lxor (Z.lxor (at_ w (t - 3)) (at_ w (t - 8))) (at_ w (t - 14))) (at_ w (t - 16))).

Definition next256 (w : list Z) : Z :=
  let t := length w in
  let x := at_ w (t - 15) in
  let y := at_ w (t - 2) in
  u32 (at_ w (t - 16) + Z.lxor (Z.lxor (ror x 7) (ror x 18)) (shr x 3) + at_ w (t - 7) +
       Z.lxor (Z.lxor (ror y 17) (ror y 19)) (shr y 10)).

Lemma next1_FIPS w :
  (16 <= length w)%nat -> Forall is_u32 w -> FIPS.sched1 (rev w) = next1 w :: rev w /\ is_u32 (next1 w).
Proof.
  intros Hw Hu. unfold FIPS.sched1, next1. rewrite !nth_rev_at by lia.
  rewrite <- rol_ROTL by (lia || auto with u32). split; [done|]. apply u32_rol; [lia|]. auto with u32.
Qed.

Lemma next256_FIPS w :
  (16 <= length w)%nat -> Forall is_u32 w -> FIPS.sched256 (rev w) = next256 w :: rev w /\ is_u32 (next256 w).
Proof.
  intros Hw Hu. unfold FIPS.sched256, next256. rewrite !nth_rev_at by lia. split; [|apply u32_range]. f_equal.
  unfold FIPS.sigma0, FIPS.sigma1, FIPS.add, FIPS.SHR. rewrite <- !ror_ROTR by (lia || auto with u32).
  unfold shr. rewrite !Z.shiftr_div_pow2 by lia. sum32.
Qed.

Lemma sha1_schedule b :
  length b = 64%nat ->
  sha1_expand 64 (load_words 16 b) = FIPS.W1 b /\ Forall is_u32 (FIPS.W1 b).
Proof.
  intros Hb. destruct (load_words_FIPS 16 b) as (He & Hu & Hl); [lia|]. unfold FIPS.W1. rewrite <- He.
  destruct (expand_iter sha1_expand FIPS.sched1 next1 (fun w => eq_refl) (fun n w => eq_refl) next1_FIPS
    64 (load_words 16 b)) as [Hx Hf]; [rewrite Hl; lia|exact Hu|].
  rewrite <- Hx. by split.
Qed.

Lemma sha256_schedule b :
  length b = 64%nat ->
  sha256_expand 48 (load_words 16 b) = FIPS.W256 b /\ Forall is_u32 (FIPS.W256 b).
Proof.
  intros Hb. destruct (load_words_FIPS 16 b) as (He & Hu & Hl); [lia|]. unfold FIPS.W256. rewrite <- He.
  destruct (expand_iter sha256_expand FIPS.sched256 next256 (fun w => eq_refl) (fun n w => eq_refl) next256_FIPS
    48 (load_words 16 b)) as [Hx Hf]; [rewrite Hl; lia|exact Hu|].
  rewrite <- Hx. by split.
Qed.

(** ** The compression functions *)

Definition regs5_ok (v : Z * Z * Z * Z * Z) : Prop :=
  let '(a, b, c, d, e) := v in is_u32 a /\ is_u32 b /\ is_u32 c /\ is_u32 d /\ is_u32 e.

Lemma sha1_round_FIPS w v t :
  regs5_ok v -> sha1_round w v t = FIPS.step1 w v t /\ regs5_ok (sha1_round w v t).
Proof.
  destruct v as [[[[a b] c] d] e]. intros (Ha & Hb & Hc & Hd & He).
  unfold sha1_round, FIPS.step1, FIPS.f1, FIPS.K1, at_.
  rewrite Ch_sha1, Maj_sha1, <- !rol_ROTL by (done || lia). unfold FIPS.Parity.
  split; [|destruct (t <? 20)%nat, (t <? 40)%nat, (t <? 60)%nat; simpl; auto 10 with u32 lia].
  do 4 f_equal.
  destruct (t <? 20)%nat; [sum32|]. destruct (t <? 40)%nat; [sum32|]. destruct (t <? 60)%nat; sum32.
Qed.

Lemma foldl_rounds {V} (ok : V -> Prop) (g h : V -> nat -> V) l : forall v,
  (forall v t, ok v -> g v t = h v t /\ ok (g v t)) -> ok v -> foldl g v l = foldl h v l /\ ok (foldl g v l).
Proof.
  induction l as [|t l IH]; intros v Hgh Hok; simpl; [done|].
  destruct (Hgh v t Hok) as [Heq Hok']. destruct (IH (g v t) Hgh Hok') as [He Ho]. by rewrite <- Heq.
Qed.

Lemma SHA1_Transform_FIPS h r b :
  length h = 5%nat -> Forall is_u32 h -> length b = 64%nat ->
  SHA1_Transform (h ++ r) b = FIPS.compress1 h b ++ r /\
  length (FIPS.compress1 h b) = 5%nat /\ Forall is_u32 (FIPS.compress1 h b).
Proof.
  intros Hl Hu Hb. destruct h as [|h0 [|h1 [|h2 [|h3 [|h4 [|]]]]]]; try done.
  rewrite !Forall_cons in Hu. destruct Hu as (H0 & H1 & H2 & H3 & H4 & _).
  unfold SHA1_Transform, FIPS.compress1. cbn [app]. destruct (sha1_schedule b Hb) as [-> _].
  destruct (foldl_rounds regs5_ok (sha1_round (FIPS.W1 b)) (FIPS.step1 (FIPS.W1 b)) (seq 0 80)
    (h0, h1, h2, h3, h4) (sha1_round_FIPS _)) as [-> _]; [by split_and!|].
  destruct (foldl _ _ _) as [[[[a b'] c] d] e]. unfold FIPS.add, u32. cbn [app length].
  split; [by rewrite (Z.add_comm h0), (Z.add_comm h1), (Z.add_comm h2), (Z.add_comm h3), (Z.add_comm h4)|].
  split; [done|]. repeat constructor; apply u32_range.
Qed.

Definition regs8_ok (v : regs) : Prop :=
  let '(a, b, c, d, e, f, g, h) := v in
  is_u32 a /\ is_u32 b /\ is_u32 c /\ is_u32 d /\ is_u32 e /\ is_u32 f /\ is_u32 g /\ is_u32 h.

Lemma sha256_round_FIPS w v t :
  regs8_ok v -> sha256_round w v t = FIPS.step256 w v t /\ regs8_ok (sha256_round w v t).
Proof.
  destruct v as [[[[[[[a b] c] d] e] f'] g] h]. intros (Ha & Hb & Hc & Hd & He & Hf & Hg & Hh).
  unfold sha256_round, FIPS.step256, FIPS.Sigma0, FIPS.Sigma1, at_.
  rewrite Ch_sha256, <- !ror_ROTR by (done || lia).
  set (s1 := Z.lxor (Z.lxor (ror e 6) (ror e 11)) (ror e 25)).
  assert (u32 (h + s1 + FIPS.Ch e f' g + nth t K 0 + nth t w 0) =
    FIPS.add (FIPS.add (FIPS.add (FIPS.add h s1) (FIPS.Ch e f' g)) (nth t K 0)) (nth t w 0)) as -> by sum32.
  split; [done|]. unfold FIPS.add. simpl. auto 12 with u32.
Qed.

Lemma SHA256_Transform_FIPS h r b :
  length h = 8%nat -> Forall is_u32 h -> length b = 64%nat ->
  SHA256_Transform (h ++ r) b = FIPS.compress256 h b ++ r /\
  length (FIPS.compress256 h b) = 8%nat /\ Forall is_u32 (FIPS.compress256 h b).
Proof.
  intros Hl Hu Hb. destruct h as [|h0 [|h1 [|h2 [|h3 [|h4 [|h5 [|h6 [|h7 [|]]]]]]]]]; try done.
  rewrite !Forall_cons in Hu. destruct Hu as (H0 & H1 & H2 & H3 & H4 & H5 & H6 & H7 & _).
  unfold SHA256_Transform, FIPS.compress256. cbn [app]. destruct (sha256_schedule b Hb) as [-> _].
  destruct (foldl_rounds regs8_ok (sha256_round (FIPS.W256 b)) (FIPS.step256 (FIPS.W256 b)) (seq 0 64)
    (h0, h1, h2, h3, h4, h5, h6, h7) (sha256_round_FIPS _)) as [-> _]; [by split_and!|].
  destruct (foldl _ _ _) as [[[[[[[a b'] c] d] e] f'] g] h]. unfold FIPS.add, u32. cbn [app length].
  split; [by rewrite (Z.add_comm h0), (Z.add_comm h1), (Z.add_comm h2), (Z.add_comm h3), (Z.add_comm h4),
    (Z.add_comm h5), (Z.add_comm h6), (Z.add_comm h7)|].
  split; [done|]. repeat constructor; apply u32_range.
Qed.

(** ** From blocks to messages *)

Lemma blocks_length n : forall m, (64 * n <= length m)%nat -> Forall (fun b => length b = 64%nat) (blocks_n n m).
Proof.
  induction n as [|n IH]; intros m Hl; simpl; constructor.
  - rewrite length_take. lia.
  - apply IH. rewrite length_drop. lia.
Qed.

(** A compression function that works on the first words of the state. *)
Definition compresses (n : nat) (T C : list Z -> list byte -> list Z) : Prop :=
  forall h r b, length h = n -> Forall is_u32 h -> length b = 64%nat ->
    T (h ++ r) b = C h b ++ r /\ length (C h b) = n /\ Forall is_u32 (C h b).

Lemma compresses_blocks n T C h r m :
  compresses n T C -> length h = n -> Forall is_u32 h ->
  foldl T (h ++ r) (full_blocks m) = foldl C h (full_blocks m) ++ r /\
  length (foldl C h (full_blocks m)) = n.
Proof.
  intros HTC. unfold full_blocks. pose proof (blocks_length (length m / 64) m (div64 _)) as Hb.
  revert h. induction Hb as [|b bl Hb Hbl IH]; intros h Hl Hu; simpl; [done|].
  destruct (HTC h r b Hl Hu Hb) as (-> & Hl' & Hu'). by apply IH.
Qed.

Lemma iterated_hash_lift n T C h r m :
  compresses n T C -> length h = n -> Forall is_u32 h ->
  iterated_hash T (h ++ r) n m = iterated_hash C h n m.
Proof.
  intros HTC Hl Hu. unfold iterated_hash.
  destruct (compresses_blocks n T C h r (m ++ padding (blen m)) HTC Hl Hu) as [-> Hn].
  rewrite take_app_le by lia. by rewrite firstn_all2 by lia.
Qed.

(** Any sequence of updates, then [final]. *)
Lemma pieces_ok n T C h r c pieces :
  compresses n T C -> length h = n -> Forall is_u32 h -> length (buf c) = 64%nat -> blen (mjoin pieces) < 2 ^ 61 ->
  count c = 0 -> state c = h ++ r ->
  exists c' b, final T n (foldl (update T) c pieces) = Done (c', b) /\ f c' = f c /\
    take (4 * n) b = iterated_hash C h n (mjoin pieces).
Proof.
  intros HTC Hl Hu Hb Hlt Hc Hs.
  assert (H0 : ctx_for T (h ++ r) [] c) by (split; done).
  assert (Hall : forall ps m c, ctx_for T (h ++ r) m c ->
    ctx_for T (h ++ r) (m ++ mjoin ps) (foldl (update T) c ps) /\ f (foldl (update T) c ps) = f c).
  { induction ps as [|p ps IH]; intros m d Hd; simpl; [by rewrite app_nil_r|].
    destruct (update_ok T (h ++ r) m d p Hd) as [Hu' Hf]. destruct (IH _ _ Hu') as [Hc' Hf'].
    change (mjoin (p :: ps)) with (p ++ mjoin ps). rewrite app_assoc. split; [done|congruence]. }
  destruct (Hall pieces [] c H0) as [Hcf Hf]. simpl in Hcf.
  destruct (final_ok T (h ++ r) n _ _ Hcf Hlt) as (c' & b & Hfin & Hf' & Ht).
  { intros m. destruct (compresses_blocks n T C h r m HTC Hl Hu) as [-> Hn]. rewrite length_app. lia. }
  exists c', b. split; [done|]. split; [congruence|]. by rewrite Ht, (iterated_hash_lift n T C).
Qed.

(** The digest the standard defines for an algorithm. *)
Definition digest_of (a : HASH_VTAB) : list byte -> list byte :=
  match a with SHA_VTAB => FIPS.sha1 | SHA256_VTAB => FIPS.sha256 end.

Lemma iv_u32 : Forall is_u32 SHA_iv /\ Forall is_u32 SHA256_iv.
Proof. split; repeat constructor; done. Qed.

Lemma length_sha1 m : length (FIPS.sha1 m) = 20%nat.
Proof.
  unfold FIPS.sha1, iterated_hash.
  destruct (compresses_blocks 5 SHA1_Transform FIPS.compress1 SHA_iv [] (m ++ padding (blen m))
    SHA1_Transform_FIPS eq_refl (proj1 iv_u32)) as [_ Hl].
  set (st := foldl FIPS.compress1 SHA_iv _) in *. rewrite firstn_all2 by lia.
  destruct st as [|a [|b [|c [|d [|e [|]]]]]]; try done.
Qed.

Lemma foldl_update_f T c pieces : f (foldl (update T) c pieces) = f c.
Proof.
  revert c. induction pieces as [|p ps IH]; intros c; cbn [foldl]; [done|]. rewrite IH. unfold update.
  by destruct (foldl _ _ p) as [[? ?] ?].
Qed.

Lemma foldl_HASH_update c pieces :
  foldl HASH_update c pieces =
    match f c with SHA_VTAB => foldl SHA_update c pieces | SHA256_VTAB => foldl SHA256_update c pieces end.
Proof.
  revert c. induction pieces as [|p ps IH]; intros c; cbn [foldl]; [by destruct (f c)|].
  rewrite IH. unfold HASH_update. destruct (f c) eqn:Hf.
  - assert (f (SHA_update c p) = f c) as -> by apply (foldl_update_f _ c [p]). by rewrite Hf.
  - assert (f (SHA256_update c p) = f c) as -> by apply (foldl_update_f _ c [p]). by rewrite Hf.
Qed.

(** C29.  Hashing a message piece by piece through the method table: whatever
    the pieces and whatever the context held before, the digest is the one
    FIPS 180 defines for the concatenation, for SHA-1 and for SHA-256. *)
Theorem hash_incremental c pieces :
  length (buf c) = 64%nat -> blen (mjoin pieces) < 2 ^ 61 ->
  exists c' b, HASH_final (foldl HASH_update (HASH_init c) pieces) = Done (c', b) /\
    take (HASH_size c) b = digest_of (f c) (mjoin pieces).
Proof.
  intros Hb Hlt. rewrite foldl_HASH_update. destruct iv_u32 as [H1 H2].
  unfold HASH_init, HASH_final, HASH_size, digest_of. destruct (f c).
  - destruct (pieces_ok 5 SHA1_Transform FIPS.compress1 SHA_iv (drop 5 (state c)) (SHA_init c) pieces
      SHA1_Transform_FIPS eq_refl H1 Hb Hlt eq_refl eq_refl) as (c' & b & Hfin & Hf & Ht).
    exists c', b. split; [|exact Ht]. cbn [f SHA_init].
    assert (f (foldl SHA_update (SHA_init c) pieces) = SHA_VTAB) as -> by apply foldl_update_f. exact Hfin.
  - destruct (pieces_ok 8 SHA256_Transform FIPS.compress256 SHA256_iv (drop 8 (state c)) (SHA256_init c) pieces
      SHA256_Transform_FIPS eq_refl H2 Hb Hlt eq_refl eq_refl) as (c' & b & Hfin & Hf & Ht).
    exists c', b. split; [|exact Ht]. cbn [f SHA256_init].
    assert (f (foldl SHA256_update (SHA256_init c) pieces) = SHA256_VTAB) as -> by apply foldl_update_f. exact Hfin.
Qed.

Lemma hash_one_call c data :
  length (buf c) = 64%nat -> blen data < 2 ^ 31 ->
  SHA_hash c data = Done (FIPS.sha1 data) /\ SHA256_hash c data = Done (FIPS.sha256 data).
Proof.
  intros Hb Hlt. destruct iv_u32 as [H1 H2].
  assert (Hj : mjoin [data] = data) by apply app_nil_r.
  split.
  - destruct (pieces_ok 5 SHA1_Transform FIPS.compress1 SHA_iv (drop 5 (state c)) (SHA_init c) [data]
      SHA1_Transform_FIPS eq_refl H1 Hb) as (c' & b & Hfin & _ & Ht); [rewrite Hj; lia|reflexivity|reflexivity|].
    rewrite Hj in Ht. unfold SHA_hash, SHA_final, SHA_update. cbn [foldl] in Hfin. rewrite Hfin. cbn [obind].
    unfold FIPS.sha1. by rewrite <- Ht.
  - destruct (pieces_ok 8 SHA256_Transform FIPS.compress256 SHA256_iv (drop 8 (state c)) (SHA256_init c) [data]
      SHA256_Transform_FIPS eq_refl H2 Hb) as (c' & b & Hfin & _ & Ht); [rewrite Hj; lia|reflexivity|reflexivity|].
    rewrite Hj in Ht. unfold SHA256_hash, SHA256_final, SHA256_update. cbn [foldl] in Hfin. rewrite Hfin. cbn [obind].
    unfold FIPS.sha256. by rewrite <- Ht.
Qed.

(**  The one-call functions compute the digests of FIPS 180, whatever the
    uninitialised context on the stack holds; they terminate. *)
Theorem SHA_hash_correct c data :
  length (buf c) = 64%nat -> blen data < 2 ^ 31 ->
  SHA_hash c data = Done (FIPS.sha1 data) /\ SHA256_hash c data = Done (FIPS.sha256 data).
Proof. apply hash_one_call. Qed.

(** ** Test vectors and witnesses *)
Module ShaWitnesses.
Definition abc : list byte := [Init.Byte.x61; Init.Byte.x62; Init.Byte.x63].
Definition junk : HASH_CTX := mk_ctx SHA256_VTAB 5 (replicate 64 Init.Byte.xaa) (replicate 8 1).

Definition number (r : outcome (list byte)) : Z :=
  match r with Done l => le_combine (rev l) | Crash _ => -1 end.

Example sha1_abc : number (SHA_hash junk abc) = 0xa9993e364706816aba3e25717850c26c9cd0d89d.
Proof. vm_compute. reflexivity. Qed.

Example sha256_abc : number (SHA256_hash junk abc) =
  0xba7816bf8f01cfea414140de5dae2223b00361a396177a9cb410ff61f20015ad.
Proof. vm_compute. reflexivity. Qed.

Lemma hash_incremental_witness :
  exists c' b, HASH_final (foldl HASH_update (HASH_init junk) [abc; []; abc]) = Done (c', b) /\
    take (HASH_size junk) b = digest_of (f junk) (mjoin [abc; []; abc]).
Proof.
  refine (hash_incremental junk [abc; []; abc] _ _); [reflexivity|].
  change (blen (mjoin [abc; []; abc])) with 6. lia.
Defined.

Lemma SHA_hash_correct_witness :
  SHA_hash junk abc = Done (FIPS.sha1 abc) /\ SHA256_hash junk abc = Done (FIPS.sha256 abc).
Proof.
  refine (SHA_hash_correct junk abc _ _); [reflexivity|]. change (blen abc) with 3. lia.
Defined.
End ShaWitnesses.
