(* ===== verification/CStrings.v ===== *)
(** * C strings and the conversions the tools use

    Arguments and file names are [string]s (no NUL inside); character arrays
    are byte lists.  [strtoul], the printf conversions and [basename] are the
    ones of the C library (LP64). *)
From S2P Require Import Prelude.
From Stdlib Require Import Ascii.

Definition bytes_of (s : string) : list byte := String.list_byte_of_string s.

(** The string a character array holds: the bytes before the first NUL. *)
Fixpoint cstr (b : list byte) : list byte :=
  match b with
  | [] => []
  | c :: r => if bool_decide (c = Init.Byte.x00) then [] else c :: cstr r
  end.

(** [strncpy(dst, src, n)] into an array of [n] bytes. *)
Definition strncpy (src : list byte) (n : Z) : list byte :=
  take (Z.to_nat n) src ++ zeros (n - blen src).

(** ** strtoul *)

Definition is_space (c : ascii) : bool :=
  let n := nat_of_ascii c in Nat.eqb n 32 || ((9 <=? n)%nat && (n <=? 13)%nat).

Definition digit_val (c : ascii) : option Z :=
  let n := Z.of_nat (nat_of_ascii c) in
  if (48 <=? n) && (n <=? 57) then Some (n - 48)
  else if (97 <=? n) && (n <=? 122) then Some (n - 87)
  else if (65 <=? n) && (n <=? 90) then Some (n - 55)
  else None.

Fixpoint skip_spaces (s : string) : string :=
  match s with
  | String c r => if is_space c then skip_spaces r else s
  | EmptyString => s
  end.

Fixpoint digits (base acc : Z) (s : string) : Z :=
  match s with
  | EmptyString => acc
  | String c r =>
      match digit_val c with
      | Some d => if d <? base then digits base (acc * base + d) r else acc
      | None => acc
      end
  end.

Definition ULONG_MAX : Z := 2 ^ 64 - 1.

Definition strtoul (s : string) (base : Z) : Z :=
  let s := skip_spaces s in
  let '(neg, s) :=
    match s with
    | String "-"%char r => (true, r)
    | String "+"%char r => (false, r)
    | _ => (false, s)
    end in
  let s := match s with
    | String "0"%char (String "x"%char r) | String "0"%char (String "X"%char r) =>
        if base =? 16 then r else s
    | _ => s
    end in
  let v := digits base 0 s in
  if ULONG_MAX <? v then ULONG_MAX else if neg : bool then u64 (- v) else v.

(** ** printf *)

Definition digit_byte (d : Z) : byte := byte_of_Z (if d <? 10 then 48 + d else 87 + d).

(** [n] digits, most significant first. *)
Fixpoint fixed_digits (base : Z) (n : nat) (v : Z) : list byte :=
  match n with
  | O => []
  | S n => fixed_digits base n (v / base) ++ [digit_byte (v mod base)]
  end.

(** ["%08x"] of an unsigned value. *)
Definition hex8 (v : Z) : list byte := fixed_digits 16 8 v.

Fixpoint dec_loop (fuel : nat) (v : Z) (acc : list byte) : list byte :=
  match fuel with
  | O => acc
  | S fuel =>
      let acc := digit_byte (v mod 10) :: acc in
      if v / 10 =? 0 then acc else dec_loop fuel (v / 10) acc
  end.

(** ["%d"] of an unsigned value, read as [int]; ten digits are enough. *)
Definition dec (v : Z) : list byte :=
  let v := s32 v in
  if v <? 0 then Init.Byte.x2d :: dec_loop 10 (- v) [] else dec_loop 10 v [].

(** ** basename *)

Fixpoint split_slash (cur : string) (s : string) : list string :=
  match s with
  | EmptyString => [cur]
  | String c r =>
      if Ascii.eqb c "/"%char then cur :: split_slash EmptyString r
      else split_slash (cur +:+ String c EmptyString) r
  end.

Definition basename (path : string) : string :=
  match path with
  | EmptyString => "."
  | _ =>
      match List.filter (fun c => negb (String.eqb c "")) (split_slash "" path) with
      | [] => "/"
      | parts => List.last parts ""
      end
  end%string.

Example basename_ex : basename "out/boot.img" = "boot.img"%string /\ basename "/a/b/" = "b"%string
  /\ basename "//" = "/"%string /\ basename "x" = "x"%string.
Proof. done. Qed.

Example strtoul_ex : strtoul "  0x10008000" 16 = 0x10008000 /\ strtoul "2048k" 10 = 2048
  /\ strtoul "-1" 16 = 2 ^ 64 - 1 /\ strtoul "" 10 = 0.
Proof. by vm_compute. Qed.

Example hex8_ex : hex8 0x1000beef = bytes_of "1000beef" /\ dec 2048 = bytes_of "2048" /\ dec 0 = bytes_of "0".
Proof. by vm_compute. Qed.

(** ** Lemmas *)

Lemma blen_strncpy src n : 0 <= n -> blen (strncpy src n) = n.
Proof.
  intros Hn. unfold strncpy. rewrite blen_app. unfold blen at 1. rewrite length_take.
  destruct (Z.le_gt_cases n (blen src)).
  - rewrite zeros_nil by lia. unfold blen in *. simpl. lia.
  - rewrite blen_zeros by lia. unfold blen in *. lia.
Qed.

Lemma cstr_app_nul a b :
  Forall (fun c => c <> Init.Byte.x00) a -> cstr (a ++ Init.Byte.x00 :: b) = a.
Proof.
  induction 1 as [|c a Hc Ha IH]; simpl; [done|]. case_bool_decide; [done|]. by rewrite IH.
Qed.

(** A copied string with room for its NUL is read back, whatever follows. *)
Lemma cstr_strncpy src n rest :
  Forall (fun c => c <> Init.Byte.x00) src -> blen src < n -> cstr (strncpy src n ++ rest) = src.
Proof.
  intros Hs Hn. unfold strncpy. rewrite firstn_all2 by (unfold blen in *; lia).
  assert (zeros (n - blen src) = Init.Byte.x00 :: zeros (n - blen src - 1)) as ->.
  { replace (n - blen src) with (1 + (n - blen src - 1)) at 1 by lia. by rewrite zeros_add by lia. }
  rewrite <- app_assoc. by apply cstr_app_nul.
Qed.
