(* ===== verification/BootImg.v ===== *)
(** * Boot images (mkbootimg.c, unpackbootimg.c, bootimg.h)

    [mkbootimg] packs a kernel, a ramdisk, an optional second stage and an
    optional device tree behind a one-page header; [unpackbootimg] takes such an
    image apart.  Files are a map from names to contents; the output of
    mkbootimg goes through [write] on a device with limited space. *)
From S2P Require Import Prelude Posix SparseFormat CStrings HashCtx Sha.

(** ** The header (bootimg.h) *)

Definition BOOT_MAGIC : list byte := bytes_of "ANDROID!".
Definition BOOT_MAGIC_SIZE : Z := 8.
Definition BOOT_NAME_SIZE : Z := 16.
Definition BOOT_ARGS_SIZE : Z := 512.
Definition BOOT_EXTRA_ARGS_SIZE : Z := 1024.

Record boot_img_hdr := mk_hdr {
  h_magic : list byte;
  kernel_size : Z; kernel_addr : Z;
  ramdisk_size : Z; ramdisk_addr : Z;
  second_size : Z; second_addr : Z;
  tags_addr : Z; page_size : Z; dt_size : Z; unused : Z;
  h_name : list byte;
  h_cmdline : list byte;
  h_id : list byte;
  extra_cmdline : list byte
}.

Definition HDR_SIZE : Z := 1632.

(** The structure in memory, little endian, no padding. *)
Definition hdr_bytes (h : boot_img_hdr) : list byte :=
  h_magic h ++ le_split 4 (kernel_size h) ++ le_split 4 (kernel_addr h) ++
  le_split 4 (ramdisk_size h) ++ le_split 4 (ramdisk_addr h) ++
  le_split 4 (second_size h) ++ le_split 4 (second_addr h) ++
  le_split 4 (tags_addr h) ++ le_split 4 (page_size h) ++ le_split 4 (dt_size h) ++
  le_split 4 (unused h) ++ h_name h ++ h_cmdline h ++ h_id h ++ extra_cmdline h.

Definition bytes_at (o n : nat) (b : list byte) : list byte := take n (drop o b).

Definition hdr_of_bytes (b : list byte) : boot_img_hdr :=
  mk_hdr (bytes_at 0 8 b) (field 8 4 b) (field 12 4 b) (field 16 4 b) (field 20 4 b)
    (field 24 4 b) (field 28 4 b) (field 32 4 b) (field 36 4 b) (field 40 4 b) (field 44 4 b)
    (bytes_at 48 16 b) (bytes_at 64 512 b) (bytes_at 576 32 b) (bytes_at 608 1024 b).

Definition hdr_ok (h : boot_img_hdr) : Prop :=
  length (h_magic h) = 8%nat /\ is_u32 (kernel_size h) /\ is_u32 (kernel_addr h) /\
  is_u32 (ramdisk_size h) /\ is_u32 (ramdisk_addr h) /\ is_u32 (second_size h) /\
  is_u32 (second_addr h) /\ is_u32 (tags_addr h) /\ is_u32 (page_size h) /\ is_u32 (dt_size h) /\
  is_u32 (unused h) /\ length (h_name h) = 16%nat /\ length (h_cmdline h) = 512%nat /\
  length (h_id h) = 32%nat /\ length (extra_cmdline h) = 1024%nat.

(** ** mkbootimg: arguments *)

Record options := mk_options {
  o_bootimg : option string; o_kernel : option string; o_ramdisk : option string;
  o_second : option string; o_dt : option string;
  o_cmdline : string; o_board : string;
  o_pagesize : Z; o_base : Z;
  o_kernel_offset : Z; o_ramdisk_offset : Z; o_second_offset : Z; o_tags_offset : Z
}.

Definition default_options : options :=
  mk_options None None None None None "" "" 2048 0x10000000 0x00008000 0x01000000 0x00f00000 0x00000100.

Definition page_size_supported (p : Z) : bool :=
  (p =? 2048) || (p =? 4096) || (p =? 8192) || (p =? 16384).

(** One option with its value; [inl] is the exit status. *)
Definition parse_arg (o : options) (arg val : string) : Z + options :=
  let '(mk_options bi k r s d c b ps ba ko ro so to_) := o in
  if String.eqb arg "--output" || String.eqb arg "-o" then inr (mk_options (Some val) k r s d c b ps ba ko ro so to_)
  else if String.eqb arg "--kernel" then inr (mk_options bi (Some val) r s d c b ps ba ko ro so to_)
  else if String.eqb arg "--ramdisk" then inr (mk_options bi k (Some val) s d c b ps ba ko ro so to_)
  else if String.eqb arg "--second" then inr (mk_options bi k r (Some val) d c b ps ba ko ro so to_)
  else if String.eqb arg "--cmdline" then inr (mk_options bi k r s d val b ps ba ko ro so to_)
  else if String.eqb arg "--base" then inr (mk_options bi k r s d c b ps (u32 (strtoul val 16)) ko ro so to_)
  else if String.eqb arg "--kernel_offset" then inr (mk_options bi k r s d c b ps ba (u32 (strtoul val 16)) ro so to_)
  else if String.eqb arg "--ramdisk_offset" then inr (mk_options bi k r s d c b ps ba ko (u32 (strtoul val 16)) so to_)
  else if String.eqb arg "--second_offset" then inr (mk_options bi k r s d c b ps ba ko ro (u32 (strtoul val 16)) to_)
  else if String.eqb arg "--tags_offset" then inr (mk_options bi k r s d c b ps ba ko ro so (u32 (strtoul val 16)))
  else if String.eqb arg "--board" then inr (mk_options bi k r s d c val ps ba ko ro so to_)
  else if String.eqb arg "--pagesize" then
    let p := u32 (strtoul val 10) in
    if page_size_supported p then inr (mk_options bi k r s d c b p ba ko ro so to_) else inl (-1)
  else if String.eqb arg "--dt" then inr (mk_options bi k r s (Some val) c b ps ba ko ro so to_)
  else inl 1.

Fixpoint parse_args (o : options) (args : list string) : Z + options :=
  match args with
  | [] => inr o
  | [_] => inl 1
  | arg :: val :: rest =>
      match parse_arg o arg val with
      | inl e => inl e
      | inr o => parse_args o rest
      end
  end.

(** ** mkbootimg: the image *)

(** [load_file]: the size is an [int]. *)
Definition load_file (fs : gmap string (list byte)) (fn : string) : option (list byte) :=
  match fs !! fn with
  | None => None
  | Some c => let sz := s32 (blen c) in if sz <? 0 then None else Some (slice 0 sz c)
  end.

Definition write_padding (w : world) (fd pagesize itemsize : Z) : world * Z :=
  let pagemask := u32 (pagesize - 1) in
  if Z.land itemsize pagemask =? 0 then (w, 0) else
  let count := u32 (pagesize - Z.land itemsize pagemask) in
  let '(w, n) := write w fd (zeros count) in
  (w, if n =? count then 0 else -1).

(** Write an item and its padding; [None] is [goto fail]. *)
Definition write_item (w : world) (fd pagesize : Z) (item : list byte) : option world :=
  let '(w, n) := write w fd item in
  if negb (n =? blen item) then None else
  let '(w, ret) := write_padding w fd pagesize (blen item) in
  if negb (ret =? 0) then None else Some w.

Fixpoint write_items (w : world) (fd pagesize : Z) (items : list (list byte)) : option world :=
  match items with
  | [] => Some w
  | i :: items =>
      match write_item w fd pagesize i with Some w => write_items w fd pagesize items | None => None end
  end.

Definition bytes_or_empty (d : option (list byte)) : list byte := default [] d.

(** The hash of the contents. *)
Definition image_id (c : HASH_CTX) (k r s d : option (list byte)) : outcome (list byte) :=
  let part c x :=
    SHA_update (SHA_update c (bytes_or_empty x)) (le_split 4 (blen (bytes_or_empty x))) in
  let c := part (part (part (SHA_init c) k) r) s in
  let c := match d with Some _ => part c d | None => c end in
  let! (_, sha) := SHA_final c in
  Done (take SHA_DIGEST_SIZE sha).

Definition make_hdr (o : options) (k r s d : option (list byte)) (id : list byte) : boot_img_hdr :=
  let cmd := bytes_of (o_cmdline o) in
  mk_hdr BOOT_MAGIC
    (blen (bytes_or_empty k)) (u32 (o_base o + o_kernel_offset o))
    (blen (bytes_or_empty r)) (u32 (o_base o + o_ramdisk_offset o))
    (blen (bytes_or_empty s)) (u32 (o_base o + o_second_offset o))
    (u32 (o_base o + o_tags_offset o)) (o_pagesize o) (blen (bytes_or_empty d)) 0
    (strncpy (bytes_of (o_board o)) BOOT_NAME_SIZE)
    (strncpy cmd (BOOT_ARGS_SIZE - 1) ++ [Init.Byte.x00])
    (id ++ zeros 12)
    (if BOOT_ARGS_SIZE - 1 <=? blen cmd
     then strncpy (drop (Z.to_nat (BOOT_ARGS_SIZE - 1)) cmd) BOOT_EXTRA_ARGS_SIZE
     else zeros BOOT_EXTRA_ARGS_SIZE).

(** An optional input: [Some None] is "not given", [None] "could not load". *)
Definition load_opt (fs : gmap string (list byte)) (fn : option string) : option (option (list byte)) :=
  match fn with
  | None => Some None
  | Some fn => match load_file fs fn with Some d => Some (Some d) | None => None end
  end.

(** [main] behind the arguments: the exit status and the image left on disk.
    [c] is the uninitialised hash context, [space] what the device takes,
    [creatable] whether the output can be opened. *)
Definition mkbootimg (c : HASH_CTX) (fs : gmap string (list byte)) (space : Z) (creatable : bool)
    (o : options) : outcome (Z * option (list byte)) :=
  match o_bootimg o, o_kernel o, o_ramdisk o with
  | Some _, Some kernel_fn, Some ramdisk_fn =>
      if BOOT_NAME_SIZE <=? blen (bytes_of (o_board o)) then Done (1, None) else
      if BOOT_ARGS_SIZE + BOOT_EXTRA_ARGS_SIZE - 2 <? blen (bytes_of (o_cmdline o)) then Done (1, None) else
      match load_file fs kernel_fn,
            (if String.eqb ramdisk_fn "NONE" then Some None else load_opt fs (Some ramdisk_fn)),
            load_opt fs (o_second o), load_opt fs (o_dt o) with
      | Some k, Some r, Some s, Some d =>
          let! id := image_id c (Some k) r s d in
          if negb creatable then Done (1, None) else
          let h := make_hdr o (Some k) r s d id in
          let items := [hdr_bytes h; k; bytes_or_empty r] ++ option_list s ++ option_list d in
          match write_items (mk_world {[ 3 := mk_ofile [] 0 1 ]} ∅ space) 3 (o_pagesize o) items with
          | Some w => Done (0, f_data <$> w_fds w !! 3)
          | None => Done (1, None)
          end
      | _, _, _, _ => Done (1, None)
      end
  | _, _, _ => Done (1, None)
  end.

(** The whole program. *)
Definition mkbootimg_main (c : HASH_CTX) (fs : gmap string (list byte)) (space : Z) (creatable : bool)
    (args : list string) : outcome (Z * option (list byte)) :=
  match parse_args default_options args with
  | inl e => Done (e, None)
  | inr o => mkbootimg c fs space creatable o
  end.

(** ** unpackbootimg *)

(** The open image, what has been extracted, and [total_read]. *)
Record unpack := mk_unpack {
  u_data : list byte;
  u_pos : Z;
  u_files : gmap string (list byte);
  total_read : Z
}.

(** [fread(buf, n, 1, f)]: what arrives, and the position behind it. *)
Definition fread (u : unpack) (n : Z) : unpack * list byte :=
  let b := slice (u_pos u) n (u_data u) in
  (mk_unpack (u_data u) (u_pos u + blen b) (u_files u) (total_read u), b).

Definition count_read (u : unpack) (n : Z) : unpack :=
  mk_unpack (u_data u) (u_pos u) (u_files u) (s32 (total_read u + n)).

Definition put_file (u : unpack) (name : string) (content : list byte) : unpack :=
  mk_unpack (u_data u) (u_pos u) (<[name := content]> (u_files u)) (total_read u).

(** [read_padding]: the buffer has [pagesize] bytes. *)
Definition read_padding (u : unpack) (itemsize pagesize : Z) : outcome (unpack * Z) :=
  let pagemask := u32 (pagesize - 1) in
  if Z.land itemsize pagemask =? 0 then Done (u, 0) else
  let count := u32 (pagesize - Z.land itemsize pagemask) in
  let '(u, b) := fread u count in
  if pagesize <? blen b then Crash BufferOverflow else Done (u, s32 count).

Definition write_string_to_file (u : unpack) (file : string) (s : list byte) : unpack :=
  put_file u file (s ++ [Init.Byte.x0a]).

(** [dump_to_file]: a short read leaves part of the buffer undefined. *)
Definition dump_to_file (u : unpack) (target : string) (length : Z) : outcome unpack :=
  let '(u, b) := fread u length in
  if blen b <? length then Crash UninitRead
  else Done (count_read (put_file u target b) length).

Definition PATH_MAX : Z := 4096.

(** [sprintf(tmp, "%s/%s", directory, basename(filename)); strcat(tmp, suffix)]. *)
Definition path (directory base suffix : string) : outcome string :=
  let p := (directory +:+ "/" +:+ base +:+ suffix)%string in
  if PATH_MAX <=? Z.of_nat (String.length p) then Crash BufferOverflow else Done p.

(** The command line array read as a string runs on into [id] and
    [extra_cmdline] when it has no NUL. *)
Definition cmdline_string (h : boot_img_hdr) : list byte :=
  cstr (h_cmdline h ++ h_id h ++ extra_cmdline h).

Definition kernel_base (h : boot_img_hdr) : Z := u32 (kernel_addr h - 0x00008000).

(** [creat_repack_sricpt]: the text goes through a buffer of 1024 bytes. *)
Definition repack_script (h : boot_img_hdr) (kernel_filename dt_filename base : string) : outcome (list byte) :=
  let s := bytes_of "#!/bin/sh" ++ [Init.Byte.x0a; Init.Byte.x0a] ++
    bytes_of "mkbootimg --kernel ./" ++ bytes_of kernel_filename ++
    bytes_of " --dt ./" ++ bytes_of dt_filename ++
    bytes_of " --cmdline '" ++ cmdline_string h ++
    bytes_of "' --base 0x" ++ hex8 (kernel_base h) ++
    bytes_of " --pagesize " ++ dec (page_size h) ++
    bytes_of " --ramdisk ./ramdisk.img -o ./" ++ bytes_of base ++ [Init.Byte.x0a] in
  if 1024 <=? blen s then Crash BufferOverflow else Done s.

(** [main] behind the arguments ([pagesize] is 0 unless given): the files
    after the run. *)
Definition unpackbootimg (fs : gmap string (list byte)) (filename directory : string) (pagesize : Z)
    : outcome unpack :=
  match fs !! filename with
  | None => Crash NullDeref
  | Some data =>
      let base := basename filename in
      let '(u, b) := fread (mk_unpack data 0 fs 0) HDR_SIZE in
      let h := hdr_of_bytes (b ++ zeros (HDR_SIZE - blen b)) in
      let pagesize := if pagesize =? 0 then s32 (page_size h) else pagesize in
      let! tmp := path directory base "-cmdline" in
      let u := write_string_to_file u tmp (cmdline_string h) in
      let! tmp := path directory base "-base" in
      let u := write_string_to_file u tmp (bytes_of "0x" ++ hex8 (kernel_base h)) in
      let! tmp := path directory base "-pagesize" in
      let u := write_string_to_file u tmp (dec (page_size h)) in
      let u := count_read u HDR_SIZE in
      let! (u, n) := read_padding u HDR_SIZE pagesize in
      let u := count_read u n in
      let! tmp := path directory base "-zImage" in
      let! u := dump_to_file u tmp (kernel_size h) in
      let kernel_filename := basename tmp in
      let! (u, n) := read_padding u (kernel_size h) pagesize in
      let u := count_read u n in
      let! tmp := path directory base "-ramdisk.gz" in
      let! u := dump_to_file u tmp (ramdisk_size h) in
      let! (u, n) := read_padding u (ramdisk_size h) pagesize in
      let u := count_read u n in
      let! tmp := path directory base "-dt.img" in
      let! u := dump_to_file u tmp (dt_size h) in
      let dt_filename := basename tmp in
      let! (u, n) := read_padding u (dt_size h) pagesize in
      let u := count_read u n in
      let repack := (directory +:+ "/" +:+ "repack.sh")%string in
      let! script := repack_script h kernel_filename dt_filename base in
      Done (put_file u repack script)
  end.
