(* ===== verification/BootImgCorrect.v ===== *)
(** * Boot images: layout, identifier and round trip *)
From S2P Require Import Prelude Posix SparseFormat CStrings HashCtx Sha BootImg.

(** ** The header *)

Lemma bytes_at_here n a b : length a = n -> bytes_at 0 n (a ++ b) = a.
Proof. intros <-. unfold bytes_at. by rewrite drop_0, take_app_length. Qed.

Lemma bytes_at_all n a : length a = n -> bytes_at 0 n a = a.
Proof. intros <-. unfold bytes_at. by rewrite drop_0, firstn_all. Qed.

Lemma bytes_at_skip o n m a b : length a = m -> bytes_at (m + o) n (a ++ b) = bytes_at o n b.
Proof. intros <-. unfold bytes_at. rewrite drop_app_ge by lia. do 2 f_equal. lia. Qed.

Lemma hdr_roundtrip h : hdr_ok h -> hdr_of_bytes (hdr_bytes h) = h.
Proof.
  intros (Hm & ? & ? & ? & ? & ? & ? & ? & ? & ? & ? & Hn & Hc & Hi & He).
  pose proof (length_le_split 4) as Hle. unfold hdr_bytes, hdr_of_bytes.
  unfold field.
  repeat match goal with |- context [take ?n (drop ?o ?b)] => change (take n (drop o b)) with (bytes_at o n b) end.
  repeat match goal with
  | |- context [bytes_at (S ?o) ?n (?a ++ ?b)] =>
      let m := match a with
        | le_split 4 _ => constr:(4%nat) | h_magic _ => constr:(8%nat) | h_name _ => constr:(16%nat)
        | h_cmdline _ => constr:(512%nat) | h_id _ => constr:(32%nat) end in
      let o' := eval vm_compute in (S o - m)%nat in
      change (bytes_at (S o) n (a ++ b)) with (bytes_at (m + o') n (a ++ b));
      rewrite (bytes_at_skip o' n m a b) by (apply Hle || done)
  end.
  rewrite !bytes_at_here by (apply Hle || done). rewrite bytes_at_all by done.
  rewrite !le_combine_split_u32 by done. by destruct h.
Qed.

Lemma blen_hdr h : hdr_ok h -> blen (hdr_bytes h) = HDR_SIZE.
Proof.
  intros (Hm & ? & ? & ? & ? & ? & ? & ? & ? & ? & ? & Hn & Hc & Hi & He).
  unfold hdr_bytes, blen. rewrite !length_app, !length_le_split, Hm, Hn, Hc, Hi, He. done.
Qed.

(** ** Pages *)

(** An item padded to whole pages. *)
Definition pad_page (ps : Z) (d : list byte) : list byte := d ++ zeros (ALIGN (blen d) ps - blen d).
Definition pages (ps : Z) (items : list (list byte)) : list byte := mjoin (pad_page ps <$> items).

Lemma page_mask ps x : page_size_supported ps = true -> Z.land x (u32 (ps - 1)) = x mod ps.
Proof.
  unfold page_size_supported. rewrite !orb_true_iff, !Z.eqb_eq.
  intros [[[->| ->]| ->]| ->].
  - exact (Z.land_ones x 11 ltac:(lia)).
  - exact (Z.land_ones x 12 ltac:(lia)).
  - exact (Z.land_ones x 13 ltac:(lia)).
  - exact (Z.land_ones x 14 ltac:(lia)).
Qed.

Lemma page_size_range ps : page_size_supported ps = true -> 2048 <= ps <= 16384.
Proof. unfold page_size_supported. rewrite !orb_true_iff, !Z.eqb_eq. lia. Qed.

Lemma align_pad x ps :
  0 < ps -> ALIGN x ps - x = if x mod ps =? 0 then 0 else ps - x mod ps.
Proof.
  intros Hp. pose proof (Z.div_mod x ps ltac:(lia)) as Hd. pose proof (Z.mod_pos_bound x ps Hp). unfold ALIGN.
  destruct (Z.eqb_spec (x mod ps) 0) as [H0|H0].
  - rewrite (DIV_ROUND_UP_unique x ps (x / ps)); lia.
  - rewrite (DIV_ROUND_UP_unique x ps (x / ps + 1)); lia.
Qed.

Lemma blen_pad_page ps d : 0 < ps -> blen (pad_page ps d) = ALIGN (blen d) ps.
Proof.
  intros Hp. unfold pad_page. pose proof (DIV_ROUND_UP_bounds (blen d) ps Hp). unfold ALIGN.
  rewrite blen_app, blen_zeros by lia. lia.
Qed.

Lemma write_append w fd data b x :
  w_fds w !! fd = Some (mk_ofile data (blen data) b) -> blen x <= w_space w ->
  exists w', write w fd x = (w', blen x) /\
    w_fds w' !! fd = Some (mk_ofile (data ++ x) (blen (data ++ x)) b) /\ w_space w' = w_space w - blen x.
Proof.
  intros Hf Hs. pose proof (blen_nonneg x). destruct (Z.eq_dec (blen x) 0) as [H0|H0].
  - destruct x; [|unfold blen in H0; simpl in H0; lia]. exists w. unfold write. rewrite Hf, app_nil_r.
    simpl. split_and!; try done. unfold blen; simpl; lia.
  - rewrite (write_ok w fd _ x Hf) by lia. eexists. split; [done|]. simpl. rewrite lookup_insert_eq.
    rewrite write_at_end, blen_app. done.
Qed.

Lemma write_item_ok w fd ps data b x :
  page_size_supported ps = true ->
  w_fds w !! fd = Some (mk_ofile data (blen data) b) -> blen (pad_page ps x) <= w_space w -> blen x < 2 ^ 31 ->
  exists w', write_item w fd ps x = Some w' /\
    w_fds w' !! fd = Some (mk_ofile (data ++ pad_page ps x) (blen (data ++ pad_page ps x)) b) /\
    w_space w' = w_space w - blen (pad_page ps x).
Proof.
  intros Hps Hf Hs Hx. pose proof (page_size_range ps Hps) as Hr. rewrite blen_pad_page in * by lia.
  pose proof (DIV_ROUND_UP_bounds (blen x) ps ltac:(lia)) as Hb. fold (ALIGN (blen x) ps) in Hb.
  destruct (write_append w fd data b x Hf) as (w1 & Hw1 & Hf1 & Hs1); [unfold ALIGN in *; lia|].
  unfold write_item. rewrite Hw1, Z.eqb_refl. cbn [negb]. unfold write_padding. rewrite (page_mask ps) by done.
  pose proof (align_pad (blen x) ps ltac:(lia)) as Hal. unfold pad_page. rewrite Hal, app_assoc.
  pose proof (Z.mod_pos_bound (blen x) ps ltac:(lia)).
  destruct (Z.eqb_spec (blen x mod ps) 0) as [H0|H0].
  - exists w1. rewrite zeros_nil, app_nil_r by lia. split_and!; [done|done|lia].
  - rewrite u32_small by (unfold is_u32; lia).
    destruct (write_append w1 fd (data ++ x) b (zeros (ps - blen x mod ps)) Hf1) as (w2 & Hw2 & Hf2 & Hs2).
    { rewrite blen_zeros by lia. lia. }
    rewrite Hw2. rewrite blen_zeros in * by lia. rewrite Z.eqb_refl. exists w2.
    split_and!; [done|done|lia].
Qed.

Lemma write_items_ok ps fd b items : forall w data,
  page_size_supported ps = true ->
  w_fds w !! fd = Some (mk_ofile data (blen data) b) -> blen (pages ps items) <= w_space w ->
  Forall (fun x => blen x < 2 ^ 31) items ->
  exists w', write_items w fd ps items = Some w' /\
    w_fds w' !! fd = Some (mk_ofile (data ++ pages ps items) (blen (data ++ pages ps items)) b).
Proof.
  induction items as [|x items IH]; intros w data Hps Hf Hs Hx; simpl.
  { exists w. change (pages ps []) with (@nil byte). by rewrite app_nil_r. }
  apply Forall_cons in Hx as [Hx Hxs].
  change (pages ps (x :: items)) with (pad_page ps x ++ pages ps items) in *. rewrite blen_app in Hs.
  pose proof (blen_nonneg (pages ps items)).
  destruct (write_item_ok w fd ps data b x Hps Hf) as (w1 & -> & Hf1 & Hs1); [lia|done|].
  rewrite app_assoc. apply IH; try done. lia.
Qed.

Lemma write_short w fd data b x :
  w_fds w !! fd = Some (mk_ofile data (blen data) b) -> 0 <= w_space w < blen x ->
  (write w fd x).2 <> blen x.
Proof.
  intros Hf Hs. unfold write. rewrite Hf. zdec.
  assert (Hb : blen (slice 0 (w_space w) x) = w_space w) by (apply blen_slice; lia).
  rewrite Hb. destruct (w_space w =? 0); simpl; lia.
Qed.

Lemma write_item_short w fd ps data b x :
  page_size_supported ps = true ->
  w_fds w !! fd = Some (mk_ofile data (blen data) b) -> 0 <= w_space w < blen (pad_page ps x) -> blen x < 2 ^ 31 ->
  write_item w fd ps x = None.
Proof.
  intros Hps Hf Hs Hx. pose proof (page_size_range ps Hps) as Hr. rewrite blen_pad_page in Hs by lia.
  unfold write_item. destruct (Z.le_gt_cases (blen x) (w_space w)) as [Hle|Hgt].
  - destruct (write_append w fd data b x Hf Hle) as (w1 & Hw1 & Hf1 & Hs1). rewrite Hw1, Z.eqb_refl. cbn [negb].
    unfold write_padding. rewrite (page_mask ps) by done.
    pose proof (align_pad (blen x) ps ltac:(lia)) as Hal. pose proof (Z.mod_pos_bound (blen x) ps ltac:(lia)).
    destruct (Z.eqb_spec (blen x mod ps) 0); [lia|]. rewrite u32_small by (unfold is_u32; lia).
    pose proof (write_short w1 fd _ b (zeros (ps - blen x mod ps)) Hf1) as Hsh.
    rewrite blen_zeros in Hsh by lia. specialize (Hsh ltac:(lia)).
    destruct (write w1 fd _) as [w2 wr]. simpl in Hsh. by destruct (Z.eqb_spec wr (ps - blen x mod ps)).
  - pose proof (write_short w fd _ b x Hf) as Hsh. specialize (Hsh ltac:(lia)).
    destruct (write w fd x) as [w1 n]. simpl in Hsh. by destruct (Z.eqb_spec n (blen x)).
Qed.

Lemma write_items_short ps fd b items : forall w data,
  page_size_supported ps = true ->
  w_fds w !! fd = Some (mk_ofile data (blen data) b) -> 0 <= w_space w < blen (pages ps items) ->
  Forall (fun x => blen x < 2 ^ 31) items -> write_items w fd ps items = None.
Proof.
  induction items as [|x items IH]; intros w data Hps Hf Hs Hx; simpl.
  { unfold blen in Hs; simpl in Hs. lia. }
  apply Forall_cons in Hx as [Hx Hxs].
  change (pages ps (x :: items)) with (pad_page ps x ++ pages ps items) in *. rewrite blen_app in Hs.
  destruct (Z.le_gt_cases (blen (pad_page ps x)) (w_space w)).
  - destruct (write_item_ok w fd ps data b x Hps Hf) as (w1 & -> & Hf1 & Hs1); [lia|done|].
    eapply IH; try done. lia.
  - rewrite (write_item_short w fd ps data b x); try done. lia.
Qed.

(** ** The identifier *)

(** What the identifier is the SHA-1 of. *)
Definition sized (d : list byte) : list byte := d ++ le_split 4 (blen d).
Definition hashed (k : list byte) (r s d : option (list byte)) : list byte :=
  sized k ++ sized (bytes_or_empty r) ++ sized (bytes_or_empty s) ++
  match d with Some d => sized d | None => [] end.

Definition input_ok (d : option (list byte)) : Prop := blen (bytes_or_empty d) < 2 ^ 31.

Lemma image_id_ok c k r s d :
  length (buf c) = 64%nat -> blen k < 2 ^ 31 -> input_ok r -> input_ok s -> input_ok d ->
  image_id c (Some k) r s d = Done (FIPS.sha1 (hashed k r s d)).
Proof.
  intros Hb Hk Hr Hs Hd. unfold input_ok in *.
  set (le x := le_split 4 (blen (bytes_or_empty x))).
  set (ps := [k; le (Some k); bytes_or_empty r; le r; bytes_or_empty s; le s] ++
             match d with Some d => [d; le (Some d)] | None => [] end).
  assert (Hj : mjoin ps = hashed k r s d).
  { unfold ps, hashed, sized, le. destruct d; cbn; rewrite <- ?app_assoc; by rewrite ?app_nil_r. }
  assert (Hle : forall x, blen (le x) = 4) by (intros; unfold le, blen at 1; by rewrite length_le_split).
  destruct (pieces_ok 5 SHA1_Transform FIPS.compress1 SHA_iv (drop 5 (state c)) (SHA_init c) ps
    SHA1_Transform_FIPS eq_refl (proj1 iv_u32) Hb) as (c' & b & Hfin & _ & Ht); [|reflexivity..|].
  { unfold ps. destruct d; cbn; rewrite ?blen_app, ?Hle; simpl in Hd; change (blen (@nil byte)) with 0; lia. }
  assert (Hid : image_id c (Some k) r s d =
    (let! (_, sha) := final SHA1_Transform 5 (foldl (update SHA1_Transform) (SHA_init c) ps) in
     Done (take SHA_DIGEST_SIZE sha))) by (unfold ps; by destruct d).
  rewrite Hid, Hfin. cbn [obind]. f_equal. unfold FIPS.sha1. by rewrite <- Hj, <- Ht.
Qed.

(** ** mkbootimg *)

(** The options name inputs that load to [k], [r], [s] and [d], within the
    limits of the header. *)
Record bootable (fs : gmap string (list byte)) (o : options) (k : list byte) (r s d : option (list byte)) : Prop := {
  bo_out : is_Some (o_bootimg o);
  bo_names : exists kn rn, o_kernel o = Some kn /\ o_ramdisk o = Some rn /\ load_file fs kn = Some k /\
    (if String.eqb rn "NONE" then Some None else load_opt fs (Some rn)) = Some r;
  bo_second : load_opt fs (o_second o) = Some s;
  bo_dt : load_opt fs (o_dt o) = Some d;
  bo_board : blen (bytes_of (o_board o)) < BOOT_NAME_SIZE;
  bo_cmdline : blen (bytes_of (o_cmdline o)) <= BOOT_ARGS_SIZE + BOOT_EXTRA_ARGS_SIZE - 2;
  bo_page : page_size_supported (o_pagesize o) = true
}.

Lemma load_file_small fs fn d : load_file fs fn = Some d -> blen d < 2 ^ 31.
Proof.
  unfold load_file. destruct (fs !! fn) as [c|]; [|done]. destruct (Z.ltb_spec (s32 (blen c)) 0) as [|H]; [done|].
  intros [= <-]. assert (s32 (blen c) < 2 ^ 31).
  { unfold s32. destruct (Z.ltb_spec (blen c mod 2 ^ 32) (2 ^ 31)); [done|].
    pose proof (Z.mod_pos_bound (blen c) (2 ^ 32)). lia. }
  assert (blen (slice 0 (s32 (blen c)) c) <= s32 (blen c)); [|lia].
  unfold slice, blen at 1. rewrite length_take. lia.
Qed.

Lemma load_opt_small fs fn d : load_opt fs fn = Some d -> input_ok d.
Proof.
  unfold load_opt, input_ok. destruct fn as [fn|]; [|by intros [= <-]].
  destruct (load_file fs fn) as [x|] eqn:Hx; [|done]. intros [= <-]. by apply (load_file_small fs fn).
Qed.

Lemma bootable_small fs o k r s d :
  bootable fs o k r s d -> blen k < 2 ^ 31 /\ input_ok r /\ input_ok s /\ input_ok d.
Proof.
  intros [_ (kn & rn & _ & _ & Hk & Hr) Hs Hd _ _ _]. split_and!; [by eapply load_file_small| |by eapply load_opt_small..].
  destruct (String.eqb rn "NONE"); [by injection Hr as <-|]. by eapply load_opt_small.
Qed.

Definition header_of (o : options) (k : list byte) (r s d : option (list byte)) : boot_img_hdr :=
  make_hdr o (Some k) r s d (FIPS.sha1 (hashed k r s d)).

Definition boot_image (o : options) (k : list byte) (r s d : option (list byte)) : list byte :=
  pages (o_pagesize o) ([hdr_bytes (header_of o k r s d); k; bytes_or_empty r] ++ option_list s ++ option_list d).

Lemma header_ok fs o k r s d : bootable fs o k r s d -> hdr_ok (header_of o k r s d).
Proof.
  intros Hbt. destruct (bootable_small _ _ _ _ _ _ Hbt) as (Hk & Hr & Hs & Hd).
  destruct Hbt as [_ _ _ _ Hbd Hcm Hpg]. pose proof (page_size_range _ Hpg). unfold input_ok in *.
  assert (Hlen : forall src n, 0 <= n -> length (strncpy src n) = Z.to_nat n).
  { intros src n Hn. pose proof (blen_strncpy src n Hn). unfold blen in *. lia. }
  pose proof (blen_nonneg k). pose proof (blen_nonneg (bytes_or_empty r)).
  pose proof (blen_nonneg (bytes_or_empty s)). pose proof (blen_nonneg (bytes_or_empty d)).
  unfold hdr_ok, header_of, make_hdr; cbn [h_magic kernel_size kernel_addr ramdisk_size ramdisk_addr second_size
    second_addr tags_addr page_size dt_size unused h_name h_cmdline h_id extra_cmdline].
  assert (Hu : forall x, 0 <= x < 2 ^ 31 -> is_u32 x) by (unfold is_u32; lia).
  split; [done|].
  do 10 (split; [first [apply u32_range | apply Hu; unfold bytes_or_empty in *; simpl in *; lia]|]).
  split; [by rewrite Hlen|]. split; [by rewrite length_app, Hlen|]. split; [by rewrite length_app, length_sha1|].
  destruct (_ <=? _); [by rewrite Hlen|]. unfold zeros. by rewrite length_replicate.
Qed.

Lemma mkbootimg_ok c fs space o k r s d :
  bootable fs o k r s d -> length (buf c) = 64%nat -> 0 <= space ->
  mkbootimg c fs space true o =
    Done (if blen (boot_image o k r s d) <=? space then (0, Some (boot_image o k r s d)) else (1, None)).
Proof.
  intros Hbt Hb Hsp. destruct (bootable_small _ _ _ _ _ _ Hbt) as (Hk & Hr & Hs & Hd).
  pose proof (blen_hdr _ (header_ok _ _ _ _ _ _ Hbt)) as Hhl.
  destruct Hbt as [[out Ho] (kn & rn & Hkn & Hrn & Hlk & Hlr) Hls Hld Hbd Hcm Hpg].
  unfold mkbootimg. rewrite Ho, Hkn, Hrn, Hlk, Hlr, Hls, Hld. zdec.
  rewrite image_id_ok by done. cbn [obind negb].
  set (w0 := mk_world _ _ _). set (items := _ ++ _).
  assert (Hit : Forall (fun x => blen x < 2 ^ 31) items).
  { unfold items, input_ok in *. repeat (apply Forall_app; split).
    - repeat constructor; [|done|done]. unfold header_of in Hhl. rewrite Hhl. done.
    - destruct s; simpl in *; repeat constructor; done.
    - destruct d; simpl in *; repeat constructor; done. }
  assert (Hf0 : w_fds w0 !! 3 = Some (mk_ofile [] (blen (@nil byte)) 1)) by done.
  change (boot_image o k r s d) with (pages (o_pagesize o) items).
  destruct (Z.leb_spec (blen (pages (o_pagesize o) items)) space).
  - destruct (write_items_ok (o_pagesize o) 3 1 items w0 [] Hpg Hf0) as (w' & -> & Hf'); [done|done|].
    by rewrite Hf'.
  - by rewrite (write_items_short (o_pagesize o) 3 1 items w0 []).
Qed.

Definition page_count (ps : Z) (d : list byte) : Z := DIV_ROUND_UP (blen d) ps.

Lemma blen_pages ps items :
  0 < ps -> blen (pages ps items) = ps * foldr (fun d n => page_count ps d + n) 0 items.
Proof.
  intros Hp. induction items as [|d items IH]; [unfold blen; simpl; lia|].
  change (pages ps (d :: items)) with (pad_page ps d ++ pages ps items).
  rewrite blen_app, blen_pad_page, IH by done. simpl. unfold ALIGN, page_count. lia.
Qed.

Lemma pages_empty_last ps l : 0 < ps -> pages ps (l ++ [[]]) = pages ps l.
Proof.
  intros Hp. unfold pages. rewrite fmap_app, join_app.
  assert (pad_page ps [] = []) as Hn.
  { unfold pad_page. change (blen (@nil byte)) with 0. unfold ALIGN.
    rewrite (DIV_ROUND_UP_unique 0 ps 0) by lia. by rewrite Z.mul_0_r. }
  change (mjoin (pad_page ps <$> [[]])) with (pad_page ps [] ++ []). by rewrite Hn, !app_nil_r.
Qed.

Lemma pages_item ps a x b :
  0 < ps -> slice (blen (pages ps a)) (blen x) (pages ps (a ++ x :: b)) = x.
Proof.
  intros Hp. unfold pages. rewrite fmap_app, join_app.
  change (mjoin (pad_page ps <$> x :: b)) with (pad_page ps x ++ mjoin (pad_page ps <$> b)).
  unfold pad_page at 3. rewrite <- app_assoc. by apply slice_here.
Qed.

(** C31.  mkbootimg writes the image bootimg.h describes and exits with 0: one
    page of header, then kernel, ramdisk, second stage and device tree, each
    from the page behind the previous one, nothing else; the header holds the
    sizes, the addresses and the SHA-1 of the contents. *)
Theorem mkbootimg_layout c fs space o k r s d :
  bootable fs o k r s d -> length (buf c) = 64%nat -> blen (boot_image o k r s d) <= space ->
  let ps := o_pagesize o in
  let n := page_count ps k in
  let m := page_count ps (bytes_or_empty r) in
  let os := page_count ps (bytes_or_empty s) in
  let p := page_count ps (bytes_or_empty d) in
  exists img, mkbootimg c fs space true o = Done (0, Some img) /\
    hdr_of_bytes (slice 0 HDR_SIZE img) = header_of o k r s d /\
    slice ps (blen k) img = k /\
    slice (ps * (1 + n)) (blen (bytes_or_empty r)) img = bytes_or_empty r /\
    slice (ps * (1 + n + m)) (blen (bytes_or_empty s)) img = bytes_or_empty s /\
    slice (ps * (1 + n + m + os)) (blen (bytes_or_empty d)) img = bytes_or_empty d /\
    blen img = ps * (1 + n + m + os + p).
Proof.
  intros Hbt Hb Hsp ps n m os p. pose proof (blen_nonneg (boot_image o k r s d)).
  pose proof (header_ok _ _ _ _ _ _ Hbt) as Hh. pose proof (blen_hdr _ Hh) as Hhl.
  pose proof (page_size_range _ (bo_page _ _ _ _ _ _ Hbt)) as Hps.
  exists (boot_image o k r s d). rewrite (mkbootimg_ok _ fs _ _ k r s d) by (done || lia). zdec. split; [done|].
  assert (Hempty : page_count ps [] = 0) by (unfold page_count; change (blen (@nil byte)) with 0; apply DIV_ROUND_UP_unique; unfold ps; lia).
  assert (Hhp : page_count ps (hdr_bytes (header_of o k r s d)) = 1).
  { unfold page_count. rewrite Hhl. apply DIV_ROUND_UP_unique; unfold HDR_SIZE, ps; lia. }
  assert (Hps0 : 0 < ps) by (unfold ps; lia).
  set (h := header_of o k r s d) in *.
  assert (Hat : forall a x b, [hdr_bytes h; k; bytes_or_empty r] ++ option_list s ++ option_list d = a ++ x :: b ->
    slice (ps * foldr (fun d n => page_count ps d + n) 0 a) (blen x) (boot_image o k r s d) = x).
  { intros a x b Heq. unfold boot_image. fold ps h. rewrite Heq, <- blen_pages by done. by apply pages_item. }
  split_and!.
  - rewrite <- Hhl. pose proof (Hat [] (hdr_bytes h) _ eq_refl) as H0. simpl in H0. rewrite Z.mul_0_r in H0.
    rewrite H0. by apply hdr_roundtrip.
  - pose proof (Hat [hdr_bytes h] k _ eq_refl) as H0. simpl in H0. rewrite Hhp, Z.add_0_r, Z.mul_1_r in H0. done.
  - pose proof (Hat [hdr_bytes h; k] (bytes_or_empty r) _ eq_refl) as H0. simpl in H0.
    rewrite Hhp, Z.add_0_r in H0. done.
  - destruct s as [s|]; simpl; [|apply slice_zero_len].
    pose proof (Hat [hdr_bytes h; k; bytes_or_empty r] s _ eq_refl) as H0. simpl in H0.
    rewrite Hhp, Z.add_0_r, !Z.add_assoc in H0. done.
  - destruct d as [d|]; simpl; [|apply slice_zero_len].
    assert (1 + n + m + os = foldr (fun d n => page_count ps d + n) 0
      ([hdr_bytes h; k; bytes_or_empty r] ++ option_list s)) as ->.
    { destruct s; simpl; rewrite Hhp; fold n m; unfold os; simpl; rewrite ?Hempty; lia. }
    apply (Hat _ d []). by rewrite <- app_assoc.
  - unfold boot_image. fold ps h. rewrite blen_pages by done. simpl. rewrite Hhp. fold n m. unfold os, p.
    destruct s, d; simpl; rewrite ?Hempty; lia.
Qed.

(**  mkbootimg leaves a complete image or none: on a device with less
    room than the image needs it exits with status 1 and removes the file. *)
Theorem mkbootimg_all_or_nothing c fs space o k r s d :
  bootable fs o k r s d -> length (buf c) = 64%nat -> 0 <= space ->
  mkbootimg c fs space true o = Done (0, Some (boot_image o k r s d)) /\ blen (boot_image o k r s d) <= space \/
  mkbootimg c fs space true o = Done (1, None) /\ space < blen (boot_image o k r s d).
Proof.
  intros Hbt Hb Hsp. rewrite (mkbootimg_ok _ fs _ _ k r s d) by done.
  destruct (Z.leb_spec (blen (boot_image o k r s d)) space); [left|right]; by split.
Qed.

(** ** unpackbootimg *)

(** The next item of the image goes to its file. *)
Lemma dump_ok u t pre x post :
  u_data u = pre ++ x ++ post -> u_pos u = blen pre ->
  dump_to_file u t (blen x) =
    Done (mk_unpack (u_data u) (blen pre + blen x) (<[t := x]> (u_files u)) (s32 (total_read u + blen x))).
Proof.
  intros Hd Hp. unfold dump_to_file, fread. rewrite Hd, Hp, slice_here by done. rewrite Z.ltb_irrefl. done.
Qed.

(** [read_padding] moves on to the next page. *)
Lemma read_padding_ok u ps pre x post :
  page_size_supported ps = true -> u_data u = pre ++ pad_page ps x ++ post -> u_pos u = blen pre + blen x ->
  exists n, read_padding u (blen x) ps =
    Done (mk_unpack (u_data u) (blen (pre ++ pad_page ps x)) (u_files u) (total_read u), n).
Proof.
  intros Hps Hd Hp. pose proof (page_size_range ps Hps) as Hr. unfold read_padding. rewrite (page_mask ps) by done.
  rewrite blen_app, blen_pad_page by lia.
  pose proof (align_pad (blen x) ps ltac:(lia)) as Hal. pose proof (Z.mod_pos_bound (blen x) ps ltac:(lia)).
  destruct (Z.eqb_spec (blen x mod ps) 0).
  - exists 0. destruct u as [ud up uf ut]; simpl in *. do 3 f_equal. lia.
  - rewrite u32_small by (unfold is_u32; lia). unfold fread.
    assert (Hsl : slice (u_pos u) (ps - blen x mod ps) (u_data u) = zeros (ps - blen x mod ps)).
    { rewrite Hd, Hp. unfold pad_page. rewrite Hal.
      replace (pre ++ (x ++ zeros (ps - blen x mod ps)) ++ post)
        with ((pre ++ x) ++ zeros (ps - blen x mod ps) ++ post) by (by rewrite <- !app_assoc).
      rewrite <- (blen_zeros (ps - blen x mod ps)) at 1 by lia. apply slice_here. by rewrite blen_app. }
    rewrite Hsl, blen_zeros by lia. zdec. eexists. do 3 f_equal. lia.
Qed.

Lemma cmdline_text o k r s d id :
  Forall (fun c => c <> Init.Byte.x00) (bytes_of (o_cmdline o)) ->
  cmdline_string (make_hdr o k r s d id) = take 511 (bytes_of (o_cmdline o)).
Proof.
  intros Hn. unfold cmdline_string. cbn [make_hdr h_cmdline h_id extra_cmdline].
  set (cmd := bytes_of (o_cmdline o)) in *. change (BOOT_ARGS_SIZE - 1) with 511.
  rewrite <- !app_assoc. destruct (Z.lt_ge_cases (blen cmd) 511).
  - rewrite cstr_strncpy by done. rewrite firstn_all2; [done|]. unfold blen in *. lia.
  - unfold strncpy. rewrite (zeros_nil (511 - blen cmd)), app_nil_r by lia. cbn [app].
    apply cstr_app_nul. by apply Forall_take.
Qed.

Definition out_name (directory base suffix : string) : string := (directory +:+ "/" +:+ base +:+ suffix)%string.

Lemma length_append (a b : string) : String.length (a +:+ b) = (String.length a + String.length b)%nat.
Proof. induction a as [|x a IH]; simpl; [done|]. by rewrite IH. Qed.

Lemma path_ok directory base suffix :
  Z.of_nat (String.length directory + String.length base) < PATH_MAX - 16 -> (String.length suffix <= 11)%nat ->
  path directory base suffix = Done (out_name directory base suffix).
Proof.
  intros Hl Hs. unfold path. fold (out_name directory base suffix).
  assert (Z.of_nat (String.length (out_name directory base suffix)) < PATH_MAX); [|by zdec].
  unfold out_name. rewrite !length_append. simpl. unfold PATH_MAX in *. lia.
Qed.

(** The files unpackbootimg makes of an image with header [h]. *)
Definition unpacked (fs : gmap string (list byte)) (directory base : string) (h : boot_img_hdr)
    (k r d script : list byte) : gmap string (list byte) :=
  <[(directory +:+ "/" +:+ "repack.sh")%string := script]>
  (<[out_name directory base "-dt.img" := d]>
  (<[out_name directory base "-ramdisk.gz" := r]>
  (<[out_name directory base "-zImage" := k]>
  (<[out_name directory base "-pagesize" := dec (page_size h) ++ [Init.Byte.x0a]]>
  (<[out_name directory base "-base" := (bytes_of "0x" ++ hex8 (kernel_base h)) ++ [Init.Byte.x0a]]>
  (<[out_name directory base "-cmdline" := cmdline_string h ++ [Init.Byte.x0a]]> fs)))))).

Lemma unpack_ok fs filename directory ps h k r d script :
  page_size_supported ps = true -> hdr_ok h -> page_size h = ps ->
  kernel_size h = blen k -> ramdisk_size h = blen r -> dt_size h = blen d ->
  fs !! filename = Some (pages ps [hdr_bytes h; k; r; d]) ->
  Z.of_nat (String.length directory + String.length (basename filename)) < PATH_MAX - 16 ->
  repack_script h (basename (out_name directory (basename filename) "-zImage"))
    (basename (out_name directory (basename filename) "-dt.img")) (basename filename) = Done script ->
  exists u, unpackbootimg fs filename directory 0 = Done u /\
    u_files u = unpacked fs directory (basename filename) h k r d script.
Proof.
  intros Hps Hh Hpg Hk Hr Hd Hfs Hpath Hscript. pose proof (page_size_range ps Hps) as Hpr.
  pose proof (blen_hdr h Hh) as Hhl. set (base := basename filename) in *.
  set (data := pages ps [hdr_bytes h; k; r; d]) in *.
  set (P1 := pad_page ps (hdr_bytes h)). set (P2 := P1 ++ pad_page ps k). set (P3 := P2 ++ pad_page ps r).
  assert (Hdata : data = P3 ++ pad_page ps d ++ []).
  { unfold data, pages, P3, P2, P1. cbn. rewrite !app_nil_r. by rewrite <- !app_assoc. }
  assert (Hd1 : data = [] ++ pad_page ps (hdr_bytes h) ++ pad_page ps k ++ pad_page ps r ++ pad_page ps d).
  { rewrite Hdata, app_nil_r. unfold P3, P2, P1. by rewrite <- !app_assoc. }
  assert (Hd2 : data = P1 ++ pad_page ps k ++ pad_page ps r ++ pad_page ps d) by done.
  assert (Hd3 : data = P2 ++ pad_page ps r ++ pad_page ps d).
  { unfold P2. rewrite Hd2. by rewrite <- app_assoc. }
  assert (Hrd : slice 0 HDR_SIZE data = hdr_bytes h).
  { rewrite Hd1, <- Hhl. unfold pad_page at 1. rewrite <- app_assoc. by apply slice_here. }
  assert (Hpad : forall pre x post fl tr, data = pre ++ pad_page ps x ++ post ->
    exists n, read_padding (mk_unpack data (blen pre + blen x) fl tr) (blen x) ps =
      Done (mk_unpack data (blen (pre ++ pad_page ps x)) fl tr, n)).
  { intros pre x post fl tr Heq. by apply (read_padding_ok (mk_unpack data _ fl tr) ps pre x post). }
  assert (Hdump : forall pre x post t fl tr, data = pre ++ pad_page ps x ++ post ->
    dump_to_file (mk_unpack data (blen pre) fl tr) t (blen x) =
      Done (mk_unpack data (blen pre + blen x) (<[t := x]> fl) (s32 (tr + blen x)))).
  { intros pre x post t fl tr Heq. unfold pad_page in Heq. rewrite <- app_assoc in Heq.
    by apply (dump_ok (mk_unpack data (blen pre) fl tr) t pre x (zeros (ALIGN (blen x) ps - blen x) ++ post)). }
  unfold unpackbootimg. rewrite Hfs. fold base. unfold fread at 1. cbn [u_pos u_data u_files total_read].
  rewrite Hrd, Hhl, Z.sub_diag, (zeros_nil 0), app_nil_r, hdr_roundtrip by done. cbn [Z.eqb].
  rewrite Hpg, (s32_small ps) by lia. rewrite !path_ok by (done || (simpl; lia)). cbn [obind].
  unfold write_string_to_file, put_file, count_read. cbn [u_pos u_data u_files total_read].
  rewrite Hk, Hr, Hd, <- Hhl.
  destruct (fun fl tr => Hpad [] (hdr_bytes h) _ fl tr Hd1) with
    (fl := <[out_name directory base "-pagesize" := dec ps ++ [Init.Byte.x0a]]>
      (<[out_name directory base "-base" := (bytes_of "0x" ++ hex8 (kernel_base h)) ++ [Init.Byte.x0a]]>
       (<[out_name directory base "-cmdline" := cmdline_string h ++ [Init.Byte.x0a]]> fs)))
    (tr := s32 (0 + blen (hdr_bytes h))) as [n1 Hn1].
  change (blen (@nil byte)) with 0 in Hn1. rewrite Hn1. cbn [obind u_pos u_data u_files total_read].
  rewrite app_nil_l. fold P1. rewrite (Hdump P1 k _ _ _ _ Hd2). cbn [obind].
  match goal with |- context [read_padding (mk_unpack data _ ?fl ?tr) _ _] =>
    destruct (Hpad P1 k _ fl tr Hd2) as [n2 ->] end.
  cbn [obind u_pos u_data u_files total_read]. fold P2. rewrite (Hdump P2 r _ _ _ _ Hd3). cbn [obind].
  match goal with |- context [read_padding (mk_unpack data _ ?fl ?tr) _ _] =>
    destruct (Hpad P2 r _ fl tr Hd3) as [n3 ->] end.
  cbn [obind u_pos u_data u_files total_read]. fold P3. rewrite (Hdump P3 d _ _ _ _ Hdata). cbn [obind].
  match goal with |- context [read_padding (mk_unpack data _ ?fl ?tr) _ _] =>
    destruct (Hpad P3 d _ fl tr Hdata) as [n4 ->] end.
  cbn [obind u_pos u_data u_files total_read]. rewrite Hscript. cbn [obind].
  eexists. split; [reflexivity|]. cbn [u_files]. unfold unpacked. by rewrite Hpg.
Qed.

(** C30.  An image made by mkbootimg without a second stage is taken apart by
    unpackbootimg into the kernel, the ramdisk and the device tree it was made
    of, the first 511 bytes of the command line, the base address and the page
    size, as long as the names and the repack script fit their buffers. *)
Theorem mkbootimg_unpackbootimg c fs space o k r d fs2 filename directory script :
  bootable fs o k r None d -> length (buf c) = 64%nat -> blen (boot_image o k r None d) <= space ->
  Forall (fun c => c <> Init.Byte.x00) (bytes_of (o_cmdline o)) ->
  Z.of_nat (String.length directory + String.length (basename filename)) < PATH_MAX - 16 ->
  let h := header_of o k r None d in
  repack_script h (basename (out_name directory (basename filename) "-zImage"))
    (basename (out_name directory (basename filename) "-dt.img")) (basename filename) = Done script ->
  exists img u, mkbootimg c fs space true o = Done (0, Some img) /\
    unpackbootimg (<[filename := img]> fs2) filename directory 0 = Done u /\
    u_files u = unpacked (<[filename := img]> fs2) directory (basename filename) h
                  k (bytes_or_empty r) (bytes_or_empty d) script /\
    cmdline_string h = take 511 (bytes_of (o_cmdline o)) /\
    kernel_base h = u32 (u32 (o_base o + o_kernel_offset o) - 0x8000) /\ page_size h = o_pagesize o.
Proof.
  intros Hbt Hb Hsp Hnul Hpath h Hscript. pose proof (blen_nonneg (boot_image o k r None d)).
  exists (boot_image o k r None d). rewrite (mkbootimg_ok _ fs _ _ k r None d) by (done || lia). zdec.
  assert (Himg : boot_image o k r None d = pages (o_pagesize o) [hdr_bytes h; k; bytes_or_empty r; bytes_or_empty d]).
  { unfold boot_image. fold h. destruct d as [d|]; [reflexivity|].
    pose proof (page_size_range _ (bo_page _ _ _ _ _ _ Hbt)).
    symmetry. apply (pages_empty_last (o_pagesize o) [hdr_bytes h; k; bytes_or_empty r]). lia. }
  destruct (unpack_ok (<[filename := boot_image o k r None d]> fs2) filename directory (o_pagesize o) h k
    (bytes_or_empty r) (bytes_or_empty d) script) as (u & Hu & Hf); try done.
  { apply Hbt. }
  { by apply (header_ok fs). }
  { rewrite lookup_insert_eq. by rewrite Himg. }
  exists u. split_and!; try done. by apply cmdline_text.
Qed.

(** ** Concrete images *)
Module BootImgWitnesses.

Definition stack_ctx : HASH_CTX := mk_ctx SHA256_VTAB 5 (replicate 64 Init.Byte.xaa) (replicate 8 1).

Definition inputs : gmap string (list byte) :=
  {[ "k"%string := bytes_of "kernel!"; "r"%string := bytes_of "ramdisk";
     "d"%string := bytes_of "devtree"; "s"%string := bytes_of "second" ]}.

Definition plain : options :=
  mk_options (Some "boot.img"%string) (Some "k"%string) (Some "r"%string) None (Some "d"%string)
    "console=ttyS0" "hammer" 2048 0x10000000 0x8000 0x1000000 0xf00000 0x100.

Definition staged : options :=
  mk_options (Some "boot.img"%string) (Some "k"%string) (Some "r"%string) (Some "s"%string) (Some "d"%string)
    "console=ttyS0" "hammer" 2048 0x10000000 0x8000 0x1000000 0xf00000 0x100.

Lemma plain_bootable :
  bootable inputs plain (bytes_of "kernel!") (Some (bytes_of "ramdisk")) None (Some (bytes_of "devtree")).
Proof.
  split; [by eexists| |reflexivity|reflexivity|reflexivity|discriminate|reflexivity].
  exists "k"%string, "r"%string. split_and!; reflexivity.
Qed.

Lemma staged_bootable :
  bootable inputs staged (bytes_of "kernel!") (Some (bytes_of "ramdisk")) (Some (bytes_of "second"))
    (Some (bytes_of "devtree")).
Proof.
  split; [by eexists| |reflexivity|reflexivity|reflexivity|discriminate|reflexivity].
  exists "k"%string, "r"%string. split_and!; reflexivity.
Qed.

Lemma staged_size :
  blen (boot_image staged (bytes_of "kernel!") (Some (bytes_of "ramdisk")) (Some (bytes_of "second"))
    (Some (bytes_of "devtree"))) = 10240.
Proof. vm_compute. reflexivity. Qed.

Lemma plain_size :
  blen (boot_image plain (bytes_of "kernel!") (Some (bytes_of "ramdisk")) None
    (Some (bytes_of "devtree"))) = 8192.
Proof. vm_compute. reflexivity. Qed.

Lemma mkbootimg_layout_witness :
  exists img, mkbootimg stack_ctx inputs 10240 true staged = Done (0, Some img) /\
    slice 2048 7 img = bytes_of "kernel!" /\ slice 8192 7 img = bytes_of "devtree".
Proof.
  destruct (mkbootimg_layout stack_ctx inputs 10240 staged _ _ _ _ staged_bootable eq_refl) as
    (img & Hrun & _ & Hk & _ & _ & Hd & _).
  - rewrite staged_size. apply Z.le_refl.
  - exists img. exact (conj Hrun (conj Hk Hd)).
Defined.

Lemma mkbootimg_all_or_nothing_witness :
  mkbootimg stack_ctx inputs 10239 true staged = Done (1, None).
Proof.
  destruct (mkbootimg_all_or_nothing stack_ctx inputs 10239 staged _ _ _ _ staged_bootable eq_refl) as
    [[_ H]|[H _]].
  - lia.
  - rewrite staged_size in H. lia.
  - exact H.
Defined.

Definition repacked : list byte :=
  match repack_script
    (header_of plain (bytes_of "kernel!") (Some (bytes_of "ramdisk")) None (Some (bytes_of "devtree")))
    (basename (out_name "out" (basename "boot.img") "-zImage"))
    (basename (out_name "out" (basename "boot.img") "-dt.img")) (basename "boot.img") with
  | Done s => s | _ => []
  end.

Lemma mkbootimg_unpackbootimg_witness :
  exists img u, mkbootimg stack_ctx inputs 8192 true plain = Done (0, Some img) /\
    unpackbootimg {[ "boot.img"%string := img ]} "boot.img" "out" 0 = Done u /\
    u_files u !! "out/boot.img-dt.img"%string = Some (bytes_of "devtree").
Proof.
  destruct (mkbootimg_unpackbootimg stack_ctx inputs 8192 plain _ _ _ ∅ "boot.img" "out" repacked
    plain_bootable eq_refl) as (img & u & Hm & Hu & Hf & _).
  - rewrite plain_size. apply Z.le_refl.
  - cbn. repeat (constructor; [discriminate|]). constructor.
  - vm_compute. reflexivity.
  - vm_compute. reflexivity.
  - exists img, u. refine (conj Hm (conj Hu _)). rewrite Hf. reflexivity.
Defined.

(** The device tree that comes out when the image made with options [o] is
    taken apart again. *)
Definition unpacked_dt (o : options) : option (list byte) :=
  match mkbootimg stack_ctx inputs 10240 true o with
  | Done (0, Some img) =>
      match unpackbootimg {[ "boot.img"%string := img ]} "boot.img" "out" 0 with
      | Done u => u_files u !! "out/boot.img-dt.img"%string
      | Crash _ => None
      end
  | _ => None
  end.

(**  An image with a second stage does not survive: mkbootimg puts the
    second stage between ramdisk and device tree, unpackbootimg expects the
    device tree right behind the ramdisk and extracts the second stage in its
    place. *)
Theorem unpackbootimg_second_stage :
  unpacked_dt plain = Some (bytes_of "devtree") /\
  unpacked_dt staged = Some (bytes_of "second" ++ [Init.Byte.x00]).
Proof. split; vm_compute; reflexivity. Qed.

End BootImgWitnesses.
