(* ===== verification/Words.v ===== *)
(** * Multi-word integers: the value of a list of 32-bit words, congruences *)
From Stdlib Require Import Znumtheory.
From S2P Require Import Prelude.

(** ** The value of a word array *)

Fixpoint val (l : list Z) : Z :=
  match l with [] => 0 | x :: l => x + 2 ^ 32 * val l end.

(** The weight of word [k]. *)
Definition weight (k : nat) : Z := 2 ^ (32 * Z.of_nat k).

Lemma weight_S k : weight (S k) = 2 ^ 32 * weight k.
Proof. unfold weight. rewrite <- Z.pow_add_r by lia. f_equal. lia. Qed.

Lemma weight_pos k : 0 < weight k.
Proof. unfold weight. apply Z.pow_pos_nonneg; lia. Qed.

Lemma val_bound l : Forall is_u32 l -> 0 <= val l < weight (length l).
Proof.
  induction 1 as [|x l Hx Hl IH]; cbn [val length]; [done|]. rewrite weight_S. unfold is_u32 in Hx.
  pose proof (weight_pos (length l)). nia.
Qed.

Lemma val_app a b : val (a ++ b) = val a + weight (length a) * val b.
Proof.
  induction a as [|x a IH]; cbn [val length app]; [unfold weight; simpl; lia|]. rewrite weight_S, IH. lia.
Qed.

Lemma val_replicate k : val (replicate k 0) = 0.
Proof. induction k as [|k IH]; cbn [replicate val]; lia. Qed.

Lemma hi_lo x : x = u32 x + 2 ^ 32 * Z.shiftr x 32.
Proof. unfold u32. rewrite Z.shiftr_div_pow2 by lia. pose proof (Z.div_mod x (2 ^ 32)). lia. Qed.

Lemma hi_bound x y : 0 <= x < 2 ^ 32 * y -> 0 <= Z.shiftr x 32 < y.
Proof.
  intros H. rewrite Z.shiftr_div_pow2 by lia. split; [apply Z.div_pos; lia|].
  apply Z.div_lt_upper_bound; lia.
Qed.

Lemma val_inj a : forall b,
  length a = length b -> Forall is_u32 a -> Forall is_u32 b -> val a = val b -> a = b.
Proof.
  induction a as [|x a IH]; intros [|y b] Hl Ha Hb; try done. cbn [val]. intros Hv.
  apply Forall_cons_1 in Ha as [Hx Ha]. apply Forall_cons_1 in Hb as [Hy Hb]. unfold is_u32 in *.
  f_equal; [lia|]. apply IH; [by injection Hl|done|done|]. lia.
Qed.

(** A product of words and two more words fit 64 bits. *)
Lemma mac_bound a b c d :
  is_u32 a -> is_u32 b -> is_u32 c -> is_u32 d -> 0 <= c + a * b + d < 2 ^ 64.
Proof.
  unfold is_u32. intros Ha Hb Hc Hd. assert (a * b <= (2 ^ 32 - 1) * (2 ^ 32 - 1)) by nia. nia.
Qed.

Lemma hi_u32 x : 0 <= x < 2 ^ 64 -> is_u32 (Z.shiftr x 32).
Proof. intros H. apply hi_bound. change (2 ^ 32 * 2 ^ 32) with (2 ^ 64). done. Qed.

(** Congruence modulo [N], as an equivalence to rewrite with. *)
Definition cong (N a b : Z) : Prop := exists q, a = b + q * N.

#[export] Instance cong_equiv N : Equivalence (cong N).
Proof.
  split.
  - intros a. exists 0. lia.
  - intros a b [q ->]. exists (- q). lia.
  - intros a b c [q ->] [r ->]. exists (q + r). lia.
Qed.

#[export] Instance cong_mul N : Proper (cong N ==> cong N ==> cong N) Z.mul.
Proof. intros a b [q ->] c d [r ->]. exists (b * r + q * d + q * r * N). lia. Qed.

#[export] Instance cong_add N : Proper (cong N ==> cong N ==> cong N) Z.add.
Proof. intros a b [q ->] c d [r ->]. exists (q + r). lia. Qed.

#[export] Instance cong_sub N : Proper (cong N ==> cong N ==> cong N) Z.sub.
Proof. intros a b [q ->] c d [r ->]. exists (q - r). lia. Qed.

#[export] Instance cong_pow N k : Proper (cong N ==> cong N) (fun x => x ^ Z.of_nat k).
Proof.
  intros a b H. induction k as [|k IH]; [done|].
  rewrite !Nat2Z.inj_succ, !Z.pow_succ_r by lia. by rewrite IH, H.
Qed.

Lemma cong_mod N a b : 0 < N -> cong N a b <-> a mod N = b mod N.
Proof.
  intros HN. split.
  - intros [q ->]. by rewrite Z_mod_plus_full.
  - intros H. exists (a / N - b / N). pose proof (Z.div_mod a N). pose proof (Z.div_mod b N). lia.
Qed.

(** The number a byte string stands for, most significant byte first. *)
Definition be_val (b : list byte) : Z := foldl (fun v x => 2 ^ 8 * v + byte_to_Z x) 0 b.

Lemma be_val_snoc b x : be_val (b ++ [x]) = 2 ^ 8 * be_val b + byte_to_Z x.
Proof. unfold be_val. by rewrite foldl_app. Qed.

Lemma be_val_inj a : forall b, length a = length b -> be_val a = be_val b -> a = b.
Proof.
  induction a as [|x a IH] using rev_ind; intros b Hl Hv.
  { destruct b; [done|discriminate]. }
  rewrite length_app in Hl. cbn in Hl. destruct b as [|y b _] using rev_ind; [cbn in Hl; lia|].
  rewrite length_app in Hl. cbn in Hl. rewrite !be_val_snoc in Hv.
  pose proof (Byte.byte.unsigned_range x). pose proof (Byte.byte.unsigned_range y).
  rewrite (IH b) by lia. do 2 f_equal. apply Byte.byte.unsigned_inj. lia.
Qed.
