(* ===== verification/Rsa.v ===== *)
(** * RSA signature verification (libmincrypt rsa.c, rsa.h)

    Multi-word integers are lists of 32-bit words, least significant first, of
    the [key->len] words [RSA_verify] insists on; the 64-bit accumulators wrap
    where the code's do.  The specification is modular exponentiation on [Z]
    and the PKCS #1 v1.5 encoding the comments of the source spell out. *)
From S2P Require Import Prelude HashCtx Sha.

(** ** The key *)

Definition RSANUMBYTES : Z := 256.
Definition RSANUMWORDS : Z := RSANUMBYTES / 4.

Record RSAPublicKey := mk_key {
  k_len : Z;
  n0inv : Z;
  k_n : list Z;
  k_rr : list Z;
  exponent : Z
}.

(** The words of the modulus the loops run over. *)
Definition mod_words (key : RSAPublicKey) : list Z := take (Z.to_nat (k_len key)) (k_n key).

(** ** Arithmetic on word arrays *)

(** [A += (uint64_t)a[i] - key->n[i]; a[i] = (uint32_t)A; A >>= 32]. *)
Fixpoint subM_loop (A : Z) (a n : list Z) : list Z :=
  match a, n with
  | ai :: a, ni :: n =>
      let A := s64 (A + u64 (ai - ni)) in
      u32 A :: subM_loop (Z.shiftr A 32) a n
  | _, _ => a
  end.

Definition subM (key : RSAPublicKey) (a : list Z) : list Z := subM_loop 0 a (mod_words key).

(** Most significant word first. *)
Fixpoint geM_loop (a n : list Z) : bool :=
  match a, n with
  | ai :: a, ni :: n => if ai <? ni then false else if ni <? ai then true else geM_loop a n
  | _, _ => true
  end.

Definition geM (key : RSAPublicKey) (a : list Z) : bool :=
  geM_loop (rev (take (Z.to_nat (k_len key)) a)) (rev (mod_words key)).

(** [for (i = 1; i < key->len; ++i)]: the words [c[i - 1]], and [A] and [B]
    behind the loop. *)
Fixpoint montMulAdd_loop (a d0 A B : Z) (n b c : list Z) : list Z * Z * Z :=
  match n, b, c with
  | ni :: n, bi :: b, ci :: c =>
      let A := u64 (Z.shiftr A 32 + a * bi + ci) in
      let B := u64 (Z.shiftr B 32 + d0 * ni + u32 A) in
      let '(ws, A', B') := montMulAdd_loop a d0 A B n b c in
      (u32 B :: ws, A', B')
  | _, _, _ => ([], A, B)
  end.

Definition montMulAdd (key : RSAPublicKey) (c : list Z) (a : Z) (b : list Z) : list Z :=
  match mod_words key, b, c with
  | ni :: n, b0 :: b, c0 :: c =>
      let A := u64 (a * b0 + c0) in
      let d0 := u32 (u32 A * n0inv key) in
      let B := u64 (d0 * ni + u32 A) in
      let '(ws, A, B) := montMulAdd_loop a d0 A B n b c in
      let A := u64 (Z.shiftr A 32 + Z.shiftr B 32) in
      let c := ws ++ [u32 A] in
      if negb (Z.shiftr A 32 =? 0) then subM key c else c
  | _, _, _ => c
  end.

(** What the array [c] held before is overwritten with zeros. *)
Definition montMul (key : RSAPublicKey) (a b : list Z) : list Z :=
  foldl (fun c ai => montMulAdd key c ai b) (replicate (Z.to_nat (k_len key)) 0)
    (take (Z.to_nat (k_len key)) a).

(** ** Exponentiation *)

Definition byte_at (b : list byte) (i : nat) : Z := byte_to_Z (nth i b Init.Byte.x00).

Definition word_at (b : list byte) (i : nat) : Z :=
  Z.lor (Z.lor (Z.lor (u32 (Z.shiftl (byte_at b i) 24)) (Z.shiftl (byte_at b (i + 1)) 16))
           (Z.shiftl (byte_at b (i + 2)) 8)) (byte_at b (i + 3)).

(** Big endian bytes to little endian words. *)
Definition words_of_bytes (n : nat) (b : list byte) : list Z :=
  (fun i => word_at b ((n - 1 - i) * 4)) <$> seq 0 n.

Definition bytes_of_words (w : list Z) : list byte := mjoin (word_bytes <$> rev w).

(** [for (i = 0; i < 16; i += 2)]. *)
Fixpoint square_loop (key : RSAPublicKey) (n : nat) (aR : list Z) : list Z :=
  match n with
  | O => aR
  | S n =>
      let aaR := montMul key aR aR in
      square_loop key n (montMul key aaR aaR)
  end.

(** The result goes back into [inout]; with any other exponent [aaa] is null. *)
Definition modpow (key : RSAPublicKey) (inout : list byte) : outcome (list byte) :=
  let a := words_of_bytes (Z.to_nat (k_len key)) inout in
  let! aaa :=
    if exponent key =? 65537 then
      let aR := montMul key a (k_rr key) in
      Done (montMul key (square_loop key 8 aR) a)
    else if exponent key =? 3 then
      let aR := montMul key a (k_rr key) in
      let aaR := montMul key aR aR in
      Done (montMul key aaR a)
    else Crash NullDeref in
  let aaa := if geM key aaa then subM key aaa else aaa in
  Done (bytes_of_words aaa).

(** ** Verification *)

Definition kExpectedPadShaRsa2048 : list byte :=
  be_bytes 20 0xdcbdbe42d5f5a72e6efcf55daf9dea687cfbf167.
Definition kExpectedPadSha256Rsa2048 : list byte :=
  be_bytes 32 0xab288d8ad7d95992baccf86720e1152e398d8036d66ff0fd90e87d8be17c8759.

Definition byte_xor (a b : byte) : byte := byte_of_Z (Z.lxor (byte_to_Z a) (byte_to_Z b)).

(** [for (i = len - hash_len; i < len; ++i) buf[i] ^= *hash++]. *)
Definition xor_tail (b hash : list byte) (hash_len : Z) : list byte :=
  let k := Z.to_nat (blen b - hash_len) in
  take k b ++ zip_with byte_xor (drop k b) hash.

(** [signature] and [hash] have [len] and [hash_len] bytes; [c] is the
    uninitialised hash context on the stack. *)
Definition RSA_verify (c : HASH_CTX) (key : RSAPublicKey) (signature : list byte) (len : Z)
    (hash : list byte) (hash_len : Z) : outcome Z :=
  if negb (k_len key =? RSANUMWORDS) then Done 0 else
  if negb (len =? RSANUMBYTES) then Done 0 else
  if negb (hash_len =? Z.of_nat SHA_DIGEST_SIZE) && negb (hash_len =? Z.of_nat SHA256_DIGEST_SIZE) then Done 0 else
  if negb (exponent key =? 3) && negb (exponent key =? 65537) then Done 0 else
  let! b := modpow key (slice 0 len signature) in
  let b := xor_tail b hash hash_len in
  let! (padding_hash, digest) :=
    if hash_len =? Z.of_nat SHA_DIGEST_SIZE
    then let! d := SHA_hash c b in Done (kExpectedPadShaRsa2048, d)
    else let! d := SHA256_hash c b in Done (kExpectedPadSha256Rsa2048, d) in
  Done (if bool_decide (digest = padding_hash) then 1 else 0).
