(* ===== verification/RsaCorrect.v ===== *)
(** * RSA: Montgomery arithmetic, exponentiation and verification are correct *)
From Stdlib Require Import Znumtheory Zpow_facts.
From S2P Require Import Prelude Words HashCtx Sha Rsa.

(** ** Subtraction and comparison *)

Lemma s64_add_u64 A d : - 2 ^ 62 <= A + d < 2 ^ 62 -> s64 (A + u64 d) = A + d.
Proof.
  intros H. unfold s64, u64. rewrite Zplus_mod_idemp_r.
  destruct (Z.lt_ge_cases (A + d) 0).
  - assert ((A + d) mod 2 ^ 64 = A + d + 2 ^ 64) as ->
      by (symmetry; apply (Zmod_unique _ _ (-1)); lia).
    zdec. lia.
  - rewrite Z.mod_small by lia. by zdec.
Qed.

Lemma subM_loop_ok a : forall n A,
  length a = length n -> Forall is_u32 a -> Forall is_u32 n -> -1 <= A <= 0 ->
  length (subM_loop A a n) = length a /\ Forall is_u32 (subM_loop A a n) /\
  exists borrow, -1 <= borrow <= 0 /\
    val (subM_loop A a n) + weight (length a) * borrow = val a - val n + A.
Proof.
  induction a as [|x a IH]; intros [|y n] A Hl Ha Hn HA; try discriminate; cbn [subM_loop val length].
  { split_and!; [done|constructor|]. exists A. change (weight 0) with 1. lia. }
  apply Forall_cons_1 in Ha as [Hx Ha]. apply Forall_cons_1 in Hn as [Hy Hn]. unfold is_u32 in Hx, Hy.
  rewrite s64_add_u64 by lia. set (B := A + (x - y)).
  assert (HB : -1 <= Z.shiftr B 32 <= 0).
  { rewrite Z.shiftr_div_pow2 by lia. unfold B. split; [apply Z.div_le_lower_bound; lia|].
    apply Z.lt_succ_r. apply Z.div_lt_upper_bound; lia. }
  destruct (IH n (Z.shiftr B 32)) as (Hl' & Hu & b & Hb & Heq); [by injection Hl|done..|].
  split_and!; [lia|constructor; [apply u32_range|done]|].
  exists b. split; [done|]. rewrite weight_S. pose proof (hi_lo B). unfold B in *. nia.
Qed.

Lemma geM_loop_ok a : forall n,
  length a = length n -> Forall is_u32 a -> Forall is_u32 n ->
  geM_loop a n = (val (rev n) <=? val (rev a)).
Proof.
  induction a as [|x a IH]; intros [|y n] Hl Ha Hn; try discriminate; [done|]. cbn [geM_loop rev].
  apply Forall_cons_1 in Ha as [Hx Ha]. apply Forall_cons_1 in Hn as [Hy Hn]. injection Hl as Hl.
  rewrite IH, !val_app, !length_rev, Hl by done. cbn [val]. rewrite !Z.mul_0_r, !Z.add_0_r.
  pose proof (val_bound (rev a) ltac:(by apply Forall_rev)) as Hva.
  pose proof (val_bound (rev n) ltac:(by apply Forall_rev)) as Hvn.
  rewrite !length_rev, ?Hl in *. rewrite ?Hl in Hva. pose proof (weight_pos (length n)).
  destruct (Z.ltb_spec x y); [symmetry; apply Z.leb_gt; nia|].
  destruct (Z.ltb_spec y x); [symmetry; apply Z.leb_le; nia|].
  assert (x = y) as -> by lia. destruct (Z.leb_spec (val (rev n)) (val (rev a))); symmetry;
    [apply Z.leb_le|apply Z.leb_gt]; lia.
Qed.

(** ** Montgomery multiplication *)

Lemma montMulAdd_loop_ok a d0 n : forall b c A B,
  length b = length n -> length c = length n -> is_u32 a -> is_u32 d0 ->
  Forall is_u32 n -> Forall is_u32 b -> Forall is_u32 c -> 0 <= A < 2 ^ 64 -> 0 <= B < 2 ^ 64 ->
  exists ws A' B', montMulAdd_loop a d0 A B n b c = (ws, A', B') /\
    length ws = length n /\ Forall is_u32 ws /\ 0 <= A' < 2 ^ 64 /\ 0 <= B' < 2 ^ 64 /\
    val ws + weight (length n) * (Z.shiftr A' 32 + Z.shiftr B' 32) =
      Z.shiftr A 32 + Z.shiftr B 32 + a * val b + val c + d0 * val n.
Proof.
  induction n as [|y n IH]; intros [|x b] [|z c] A B Hb Hc Ha Hd Hn Hfb Hfc HA HB; try discriminate.
  { exists [], A, B. split_and!; try (done || lia). cbn [val length]. change (weight 0) with 1. lia. }
  cbn [montMulAdd_loop].
  apply Forall_cons_1 in Hn as [Hy Hn]. apply Forall_cons_1 in Hfb as [Hx Hfb]. apply Forall_cons_1 in Hfc as [Hz Hfc].
  pose proof (hi_u32 A HA) as HhA. pose proof (hi_u32 B HB) as HhB.
  pose proof (mac_bound a x (Z.shiftr A 32) z Ha Hx HhA Hz) as H1. rewrite (u64_small (_ + _ + _)) by done.
  set (A1 := Z.shiftr A 32 + a * x + z) in *.
  pose proof (mac_bound d0 y (Z.shiftr B 32) (u32 A1) Hd Hy HhB (u32_range _)) as H2.
  rewrite (u64_small (_ + _ + u32 A1)) by done. set (B1 := Z.shiftr B 32 + d0 * y + u32 A1) in *.
  destruct (IH b c A1 B1) as (ws & A' & B' & Hrun & Hl & Hu & HA' & HB' & Heq); try done; [by injection Hb|by injection Hc|].
  rewrite Hrun. exists (u32 B1 :: ws), A', B'. cbn [length val].
  split_and!; [done|lia|constructor; [apply u32_range|done]|lia..|].
  rewrite weight_S. pose proof (hi_lo A1) as EA. pose proof (hi_lo B1) as EB.
  assert (A1 = Z.shiftr A 32 + a * x + z) by done. assert (B1 = Z.shiftr B 32 + d0 * y + u32 A1) by done.
  clearbody A1 B1. clear -EA EB Heq H H0. nia.
Qed.

Section Montgomery.
Context (key : RSAPublicKey) (k : nat).
Context (Hlen : k_len key = Z.of_nat (S k)) (Hn : length (k_n key) = S k) (Hnu : Forall is_u32 (k_n key)).
Context (Hinv : cong (2 ^ 32) (n0inv key * hd 0 (k_n key)) (-1)).

Let N := val (k_n key).
Let W := weight (S k).

Lemma mod_words_all : mod_words key = k_n key.
Proof. unfold mod_words. rewrite Hlen, Nat2Z.id, <- Hn. apply firstn_all. Qed.

(** The lowest word of [c + a * b + d0 * n] is zero. *)
Lemma low_zero a b0 c0 n0 n : k_n key = n0 :: n ->
  let A := a * b0 + c0 in u32 (u32 (u32 A * n0inv key) * n0 + u32 A) = 0.
Proof.
  intros Heq A. rewrite Heq in Hinv. cbn [hd] in Hinv.
  assert (cong (2 ^ 32) (u32 (u32 A * n0inv key) * n0 + u32 A) 0) as Hc.
  { assert (forall x, cong (2 ^ 32) (u32 x) x) as Hu
      by (intros x; apply cong_mod; [lia|]; apply Z.mod_mod; lia).
    rewrite !Hu. rewrite <- (Z.mul_assoc A), Hinv. exists 0. lia. }
  apply cong_mod in Hc; [|lia]. exact Hc.
Qed.

(** Before the conditional subtraction: [S'] is the last [A]. *)
Lemma montMulAdd_total c a b :
  length c = S k -> length b = S k -> Forall is_u32 c -> Forall is_u32 b -> is_u32 a ->
  exists ws S' d0,
    montMulAdd key c a b =
      (if negb (Z.shiftr S' 32 =? 0) then subM key (ws ++ [u32 S']) else ws ++ [u32 S']) /\
    length ws = k /\ Forall is_u32 ws /\ 0 <= S' < 2 ^ 32 * 2 /\ is_u32 d0 /\
    2 ^ 32 * (val ws + weight k * S') = val c + a * val b + d0 * N.
Proof.
  intros Hc Hb Hcu Hbu Ha. unfold montMulAdd. rewrite mod_words_all. pose proof (low_zero a) as Hlow.
  pose proof Hnu as Hnu'. pose proof Hn as Hn'. assert (HN : N = val (k_n key)) by done. clearbody N.
  destruct (k_n key) as [|n0 n]; [discriminate|]. destruct b as [|b0 b]; [discriminate|].
  destruct c as [|c0 c]; [discriminate|]. specialize (Hlow b0 c0 n0 n eq_refl). cbn [val] in *.
  apply Forall_cons_1 in Hcu as [Hc0 Hcu]. apply Forall_cons_1 in Hbu as [Hb0 Hbu].
  apply Forall_cons_1 in Hnu' as [Hn0 Hnu']. injection Hc as Hc. injection Hb as Hb. injection Hn' as Hl.
  pose proof (mac_bound a b0 0 c0 Ha Hb0 ltac:(unfold is_u32; lia) Hc0) as HA. rewrite Z.add_0_l in HA.
  rewrite (u64_small (a * b0 + c0)) by exact HA. set (d0 := u32 (u32 (a * b0 + c0) * n0inv key)) in *.
  assert (Hd0 : is_u32 d0) by apply u32_range.
  pose proof (mac_bound d0 n0 0 (u32 (a * b0 + c0)) Hd0 Hn0 ltac:(unfold is_u32; lia) (u32_range _)) as HB.
  rewrite Z.add_0_l in HB. rewrite (u64_small (d0 * n0 + u32 (a * b0 + c0))) by exact HB.
  destruct (montMulAdd_loop_ok a d0 n b c _ _ ltac:(lia) ltac:(lia) Ha Hd0 Hnu' Hbu Hcu HA HB)
    as (ws & A' & B' & -> & Hws & Hwu & HA' & HB' & Heq).
  pose proof (hi_u32 A' HA') as HhA. pose proof (hi_u32 B' HB') as HhB. unfold is_u32 in HhA, HhB.
  exists ws, (Z.shiftr A' 32 + Z.shiftr B' 32), d0. rewrite u64_small by lia.
  split; [done|]. split; [lia|]. split; [done|]. split; [lia|]. split; [done|].
  rewrite <- Hl, Heq, HN. pose proof (hi_lo (a * b0 + c0)) as E1. pose proof (hi_lo (d0 * n0 + u32 (a * b0 + c0))) as E2.
  cbv zeta in Hlow. fold d0 in Hlow. rewrite Hlow in E2. clear -E1 E2. lia.
Qed.

Lemma N_bound : 0 <= N < W.
Proof. unfold N, W. rewrite <- Hn. by apply val_bound. Qed.

Lemma montMulAdd_ok c a b :
  length c = S k -> length b = S k -> Forall is_u32 c -> Forall is_u32 b -> is_u32 a ->
  length (montMulAdd key c a b) = S k /\ Forall is_u32 (montMulAdd key c a b) /\
  cong N (2 ^ 32 * val (montMulAdd key c a b)) (val c + a * val b).
Proof.
  intros Hc Hb Hcu Hbu Ha.
  destruct (montMulAdd_total c a b) as (ws & S' & d0 & -> & Hws & Hwu & HS' & Hd0 & Htotal); try assumption.
  pose proof (hi_lo S') as HS. pose proof (hi_bound S' 2 HS') as Hhi.
  assert (Hval : val (ws ++ [u32 S']) = val ws + weight k * u32 S').
  { rewrite val_app, Hws. cbn [val]. lia. }
  assert (Hlen' : length (ws ++ [u32 S']) = S k) by (rewrite length_app, Hws; cbn [length]; lia).
  assert (Hfor : Forall is_u32 (ws ++ [u32 S'])).
  { apply Forall_app. split; [done|]. constructor; [apply u32_range|constructor]. }
  destruct (Z.eqb_spec (Z.shiftr S' 32) 0) as [Hz|Hz]; cbn [negb].
  - split; [done|]. split; [done|]. exists d0. rewrite Hval. rewrite Hz in HS. rewrite <- Htotal. nia.
  - unfold subM. rewrite mod_words_all.
    destruct (subM_loop_ok (ws ++ [u32 S']) (k_n key) 0) as (Hl1 & Hu1 & bw & Hbw & Hsub); [lia|done|done|lia|].
    split; [lia|]. split; [done|]. pose proof (val_bound _ Hu1) as Hb1.
    set (r := val (subM_loop 0 (ws ++ [u32 S']) (k_n key))) in *. clearbody r.
    pose proof (val_bound _ Hcu) as Hvc. pose proof (val_bound _ Hbu) as Hvb. pose proof N_bound as HvN.
    rewrite Hval, Hlen' in Hsub. rewrite Hl1, Hlen' in Hb1. rewrite Hc in Hvc. rewrite Hb in Hvb.
    fold W in Hsub, Hb1, Hvc, Hvb. fold N in Hsub. assert (HW : W = 2 ^ 32 * weight k) by apply weight_S.
    assert (Hs1 : Z.shiftr S' 32 = 1) by lia. rewrite Hs1 in HS. unfold is_u32 in Ha, Hd0.
    assert (Hab : a * val b <= (2 ^ 32 - 1) * (W - 1)) by (apply Z.mul_le_mono_nonneg; lia).
    assert (HdN : d0 * N <= (2 ^ 32 - 1) * N) by (apply Z.mul_le_mono_nonneg_r; lia).
    clear Hs1 Hz Hhi. clearbody N W. assert (bw = -1) as -> by nia.
    exists (d0 - 2 ^ 32). nia.
Qed.

(** An array of the right shape. *)
Definition array (a : list Z) : Prop := length a = S k /\ Forall is_u32 a.

Lemma montMul_fold b : array b -> forall l c, array c -> Forall is_u32 l ->
  array (foldl (fun c ai => montMulAdd key c ai b) c l) /\
  cong N (weight (length l) * val (foldl (fun c ai => montMulAdd key c ai b) c l)) (val c + val l * val b).
Proof.
  intros [Hb Hbu]. induction l as [|x l IH]; intros c Hc Hl; cbn [foldl length val].
  { split; [done|]. change (weight 0) with 1. by rewrite Z.mul_1_l, Z.mul_0_l, Z.add_0_r. }
  apply Forall_cons_1 in Hl as [Hx Hl]. destruct (montMulAdd_ok c x b) as (H1 & H2 & H3); try done; [apply Hc..|].
  destruct (IH (montMulAdd key c x b) (conj H1 H2) Hl) as [Ha Hv]. split; [exact Ha|].
  rewrite weight_S, <- Z.mul_assoc, Hv, Z.mul_add_distr_l, H3. exists 0. lia.
Qed.

(** [montMul] divides by [R]: [R * c] is congruent to [a * b]. *)
Lemma montMul_ok a b : array a -> array b ->
  array (montMul key a b) /\ cong N (W * val (montMul key a b)) (val a * val b).
Proof.
  intros [Ha Hau] Hb. unfold montMul. rewrite Hlen, Nat2Z.id, (firstn_all2 (n := S k)) by lia.
  destruct (montMul_fold b Hb a (replicate (S k) 0)) as [H1 H2]; [|done|].
  { split; [apply length_replicate|]. apply Forall_replicate. unfold is_u32. lia. }
  split; [exact H1|]. rewrite Ha, val_replicate, Z.add_0_l in H2. exact H2.
Qed.

(** [R] and the modulus have no common factor. *)
Lemma weight_coprime : rel_prime N W.
Proof.
  destruct Hinv as [q Hq]. unfold W, weight. rewrite Z.pow_mul_r by lia.
  apply rel_prime_Zpower_r; [lia|]. split; [apply Z.divide_1_l..|]. intros x Hx Hy.
  unfold N in Hx. destruct (k_n key) as [|n0 n]; [discriminate|]. cbn [hd val] in *.
  replace 1 with ((q + n0inv key * val n) * 2 ^ 32 - n0inv key * (n0 + 2 ^ 32 * val n)) by lia.
  by apply Z.divide_sub_r; apply Z.divide_mul_r.
Qed.

Lemma cong_cancel x y : cong N (W * x) (W * y) -> cong N x y.
Proof.
  intros [q Hq]. destruct (Gauss N W (x - y)) as [r Hr]; [exists q; lia|apply weight_coprime|].
  exists r. lia.
Qed.

(** [v] stands for [x]: [v] is congruent to [x * R]. *)
Definition stands (x : Z) (v : list Z) : Prop := array v /\ cong N (val v) (x * W).

Lemma montMul_stands x y u v : stands x u -> stands y v -> stands (x * y) (montMul key u v).
Proof.
  intros [Hu Hx] [Hv Hy]. destruct (montMul_ok u v Hu Hv) as [Ha Hm]. split; [done|].
  apply cong_cancel. rewrite Hm, Hx, Hy. exists 0. lia.
Qed.

Lemma montMul_out x u a : stands x u -> array a -> array (montMul key u a) /\ cong N (val (montMul key u a)) (x * val a).
Proof.
  intros [Hu Hx] Ha. destruct (montMul_ok u a Hu Ha) as [Hr Hm]. split; [done|].
  apply cong_cancel. rewrite Hm, Hx. exists 0. lia.
Qed.

Lemma square_loop_ok n : forall x v, stands x v -> stands (x ^ (4 ^ Z.of_nat n)) (square_loop key n v).
Proof.
  induction n as [|n IH]; intros x v Hv; cbn [square_loop].
  { change (4 ^ Z.of_nat 0) with 1. by rewrite Z.pow_1_r. }
  rewrite Nat2Z.inj_succ, Z.pow_succ_r, Z.pow_mul_r by lia.
  replace (x ^ 4) with (x * x * (x * x)) by lia. apply IH. by repeat apply montMul_stands.
Qed.

Lemma subM_reduces a : array a -> val a < 2 * N ->
  let r := if geM key a then subM key a else a in array r /\ val r = val a mod N.
Proof.
  intros [Ha Hau] Hlt r. unfold r, geM, subM. rewrite mod_words_all, Hlen, Nat2Z.id, firstn_all2 by lia.
  rewrite geM_loop_ok by (rewrite ?length_rev; try lia; by apply Forall_rev). rewrite !rev_involutive. fold N.
  destruct (subM_loop_ok a (k_n key) 0) as (H1 & H2 & bw & Hbw & Hv); [lia|done|done|lia|]. fold N in Hv.
  pose proof (val_bound _ H2) as Hb. rewrite H1, Ha in Hb. rewrite Ha in Hv. fold W in Hb, Hv.
  pose proof (val_bound _ Hau) as Hba. pose proof N_bound.
  destruct (Z.leb_spec N (val a)).
  - split; [split; [lia|done]|]. assert (bw = 0) as -> by nia. apply (Zmod_unique _ _ 1); lia.
  - split; [done|]. symmetry. apply Z.mod_small. lia.
Qed.
End Montgomery.

(** ** Bytes *)

Lemma byte_at_range b i : 0 <= byte_at b i < 2 ^ 8.
Proof. apply Byte.byte.unsigned_range. Qed.

Lemma word_at_val b i :
  word_at b i = 2 ^ 24 * byte_at b i + 2 ^ 16 * byte_at b (i + 1) + 2 ^ 8 * byte_at b (i + 2) + byte_at b (i + 3).
Proof.
  unfold word_at. pose proof (byte_at_range b i). pose proof (byte_at_range b (i + 1)).
  pose proof (byte_at_range b (i + 2)). pose proof (byte_at_range b (i + 3)).
  rewrite !Z.shiftl_mul_pow2 by lia. unfold u32. rewrite (Z.mod_small (_ * 2 ^ 24)) by lia.
  rewrite (Z.mul_comm _ (2 ^ 24)), lor_low by lia.
  replace (2 ^ 24 * byte_at b i + byte_at b (i + 1) * 2 ^ 16)
    with (2 ^ 16 * (2 ^ 8 * byte_at b i + byte_at b (i + 1))) by lia. rewrite lor_low by lia.
  replace (2 ^ 16 * (2 ^ 8 * byte_at b i + byte_at b (i + 1)) + byte_at b (i + 2) * 2 ^ 8)
    with (2 ^ 8 * (2 ^ 16 * byte_at b i + 2 ^ 8 * byte_at b (i + 1) + byte_at b (i + 2))) by lia.
  rewrite lor_low by lia. lia.
Qed.

Lemma take_S_byte b i : (i < length b)%nat -> take (S i) b = take i b ++ [nth i b Init.Byte.x00].
Proof.
  intros Hi. destruct (nth_lookup_or_length b i Init.Byte.x00) as [Hl|Hl]; [|lia].
  by apply take_S_r.
Qed.

Lemma be_val_take b i : (i < length b)%nat -> be_val (take (S i) b) = 2 ^ 8 * be_val (take i b) + byte_at b i.
Proof. intros Hi. by rewrite take_S_byte, be_val_snoc. Qed.

Lemma words_of_bytes_ok n : forall b, (4 * n <= length b)%nat ->
  length (words_of_bytes n b) = n /\ Forall is_u32 (words_of_bytes n b) /\
  val (words_of_bytes n b) = be_val (take (4 * n) b).
Proof.
  induction n as [|n IH]; intros b Hl; [by repeat constructor|]. destruct (IH b) as (H1 & H2 & H3); [lia|].
  assert (Heq : words_of_bytes (S n) b = word_at b (4 * n) :: words_of_bytes n b).
  { unfold words_of_bytes. cbn [seq]. rewrite fmap_cons, <- fmap_S_seq, <- list_fmap_compose. f_equal; [f_equal; lia|].
    apply list_fmap_ext. intros _ i _. cbn. do 2 f_equal. lia. }
  rewrite Heq. cbn [val length]. split; [lia|]. rewrite word_at_val.
  pose proof (byte_at_range b (4 * n)). pose proof (byte_at_range b (4 * n + 1)).
  pose proof (byte_at_range b (4 * n + 2)). pose proof (byte_at_range b (4 * n + 3)).
  split; [constructor; [unfold is_u32; lia|done]|]. rewrite H3.
  replace (4 * S n)%nat with (S (S (S (S (4 * n))))) by lia. rewrite !be_val_take by lia.
  replace (S (S (S (4 * n)))) with (4 * n + 3)%nat by lia. replace (S (S (4 * n))) with (4 * n + 2)%nat by lia.
  replace (S (4 * n)) with (4 * n + 1)%nat by lia. lia.
Qed.

Lemma byte_of_val x : byte_to_Z (byte_of_Z (u8 x)) = x mod 2 ^ 8.
Proof. unfold u8. rewrite Byte.byte.unsigned_of_Z. unfold Byte.byte.wrap. apply Z.mod_mod. lia. Qed.

Lemma bytes_of_words_ok w : Forall is_u32 w ->
  length (bytes_of_words w) = (4 * length w)%nat /\ be_val (bytes_of_words w) = val w.
Proof.
  induction 1 as [|x w Hx Hw [IHl IHv]]; [done|]. unfold bytes_of_words in *. cbn [rev].
  rewrite fmap_app, join_app. set (l := mjoin (word_bytes <$> rev w)) in *. clearbody l.
  change (mjoin (word_bytes <$> [x])) with (word_bytes x ++ []). rewrite app_nil_r.
  split; [rewrite length_app, IHl; cbn [length word_bytes]; lia|]. unfold word_bytes.
  match goal with |- context [?l ++ [?a; ?b; ?c; ?d]] =>
    replace (l ++ [a; b; c; d]) with ((((l ++ [a]) ++ [b]) ++ [c]) ++ [d]) by (by rewrite <- !app_assoc) end.
  rewrite !be_val_snoc, IHv, !byte_of_val, !Z.shiftr_div_pow2 by lia. cbn [val]. unfold is_u32 in Hx.
  assert (forall n, 0 <= n -> x / 2 ^ n = 2 ^ 8 * (x / 2 ^ (n + 8)) + (x / 2 ^ n) mod 2 ^ 8) as Hd.
  { intros n Hn. rewrite Z.pow_add_r, <- Z.div_div by lia. apply Z.div_mod. lia. }
  pose proof (Hd 0 ltac:(lia)) as E0. pose proof (Hd 8 ltac:(lia)) as E1. pose proof (Hd 16 ltac:(lia)) as E2.
  rewrite Z.pow_0_r, Z.div_1_r in E0. rewrite (Z.mod_small (x / 2 ^ 24)).
  2: { split; [apply Z.div_pos; lia|]. apply Z.div_lt_upper_bound; lia. }
  change (0 + 8) with 8 in E0. change (8 + 8) with 16 in E1. change (16 + 8) with 24 in E2. lia.
Qed.

(** ** Exponentiation *)

(** A key as DumpPublicKey makes it: 2048 bits, [n0inv = -1 / n mod 2^32] and
    [rr = R^2 mod n]. *)
Record key_ok (key : RSAPublicKey) : Prop := {
  ko_len : k_len key = RSANUMWORDS;
  ko_n : length (k_n key) = 64%nat;
  ko_nu : Forall is_u32 (k_n key);
  ko_inv : cong (2 ^ 32) (n0inv key * hd 0 (k_n key)) (-1);
  ko_rr : length (k_rr key) = 64%nat;
  ko_rru : Forall is_u32 (k_rr key);
  ko_R2 : cong (val (k_n key)) (val (k_rr key)) (2 ^ 2048 * 2 ^ 2048);
  ko_top : 2 ^ 2047 <= val (k_n key);
  ko_exp : exponent key = 3 \/ exponent key = 65537
}.

(** What the two ladders leave in [aaa], before the last reduction. *)
Lemma ladder_ok key a : key_ok key -> array 63 a ->
  exists aaa, (if exponent key =? 65537 then
      Done (montMul key (square_loop key 8 (montMul key a (k_rr key))) a)
    else if exponent key =? 3 then
      Done (montMul key (montMul key (montMul key a (k_rr key)) (montMul key a (k_rr key))) a)
    else Crash NullDeref) = Done aaa /\
    array 63 aaa /\ cong (val (k_n key)) (val aaa) (val a ^ exponent key).
Proof.
  intros [Hl Hn Hnu Hinv Hr Hru HR2 _ Hexp] Ha.
  assert (Hl' : k_len key = Z.of_nat 64) by (rewrite Hl; reflexivity).
  assert (HaR : stands key 63 (val a) (montMul key a (k_rr key))).
  { destruct (montMul_ok key 63 Hl' Hn Hnu Hinv a (k_rr key) Ha (conj Hr Hru)) as [H1 H2]. split; [exact H1|].
    apply (cong_cancel key 63 Hl' Hn Hnu Hinv). rewrite H2, HR2. exists 0. change (weight 64) with (2 ^ 2048). lia. }
  set (aR := montMul key a (k_rr key)) in *. clearbody aR.
  pose proof (montMul_out key 63 Hl' Hn Hnu Hinv) as Hout.
  destruct Hexp as [-> | ->].
  - assert (3 =? 65537 = false) as -> by reflexivity. rewrite Z.eqb_refl.
    pose proof (montMul_stands key 63 Hl' Hn Hnu Hinv _ _ _ _ HaR HaR) as Hsq.
    destruct (Hout _ _ a Hsq Ha) as [H1 H2]. eexists. split; [reflexivity|]. split; [exact H1|].
    rewrite H2. exists 0. replace (val a ^ 3) with (val a * val a * val a) by lia. lia.
  - rewrite Z.eqb_refl. pose proof (square_loop_ok key 63 Hl' Hn Hnu Hinv 8 _ _ HaR) as Hsq.
    destruct (Hout _ _ a Hsq Ha) as [H1 H2]. eexists. split; [reflexivity|]. split; [exact H1|].
    rewrite H2. change (4 ^ Z.of_nat 8) with 65536. change 65537 with (Z.succ 65536).
    rewrite Z.pow_succ_r, Z.mul_comm by lia. reflexivity.
Qed.

Lemma modpow_ok key inout : key_ok key -> length inout = 256%nat ->
  exists out, modpow key inout = Done out /\ length out = 256%nat /\
    be_val out = be_val inout ^ exponent key mod val (k_n key).
Proof.
  intros Hk Hio. pose proof Hk as [Hl Hn Hnu Hinv _ _ _ Htop _].
  assert (Hl' : k_len key = Z.of_nat 64) by (rewrite Hl; reflexivity).
  unfold modpow. rewrite Hl', Nat2Z.id.
  destruct (words_of_bytes_ok 64 inout) as (H1 & H2 & H3); [lia|]. rewrite (firstn_all2 (n := (4 * 64)%nat)) in H3 by lia.
  set (a := words_of_bytes 64 inout) in *. destruct (ladder_ok key a Hk (conj H1 H2)) as (aaa & -> & Haaa & Hc).
  cbn [obind]. pose proof (val_bound _ (proj2 Haaa)) as Hb. rewrite (proj1 Haaa) in Hb.
  change (weight 64) with (2 * 2 ^ 2047) in Hb.
  destruct (subM_reduces key 63 Hl' Hn Hnu aaa Haaa) as [Hr Hv]; [lia|].
  set (r := if geM key aaa then subM key aaa else aaa) in *. clearbody r.
  destruct (bytes_of_words_ok r (proj2 Hr)) as [Hbl Hbv]. rewrite (proj1 Hr) in Hbl.
  exists (bytes_of_words r). split; [reflexivity|]. split; [exact Hbl|]. rewrite Hbv, Hv, <- H3.
  apply cong_mod in Hc; [exact Hc|]. assert (0 < 2 ^ 2047) by reflexivity. lia.
Qed.

(** C9.  [modpow] is modular exponentiation: for a well-formed 2048-bit key
    with exponent 3 or 65537 it replaces the 256 bytes of a number by those of
    its power modulo [n]; the Montgomery representation, the conditional
    subtractions and the 64-bit carries never show. *)
Theorem modpow_correct key inout : key_ok key -> length inout = 256%nat ->
  exists out, modpow key inout = Done out /\ length out = 256%nat /\
    be_val out = be_val inout ^ exponent key mod val (k_n key).
Proof. apply modpow_ok. Qed.

(** ** Verification *)

(** The DER prefix of a digest (the end of the tables in the comments). *)
Definition digest_info (alg : HASH_VTAB) : list byte :=
  match alg with
  | SHA_VTAB => be_bytes 15 0x3021300906052b0e03021a05000414
  | SHA256_VTAB => be_bytes 19 0x3031300d060960864801650304020105000420
  end.

Definition digest_size (alg : HASH_VTAB) : nat :=
  match alg with SHA_VTAB => SHA_DIGEST_SIZE | SHA256_VTAB => SHA256_DIGEST_SIZE end.

(** The padding before the digest: 00 01 ff ... ff 00 and the prefix. *)
Definition pkcs1_prefix (alg : HASH_VTAB) : list byte :=
  [Init.Byte.x00; Init.Byte.x01] ++
  replicate (253 - length (digest_info alg) - digest_size alg) Init.Byte.xff ++
  [Init.Byte.x00] ++ digest_info alg.

(** The encoded message of PKCS #1 v1.5 for a 2048-bit key. *)
Definition pkcs1 (alg : HASH_VTAB) (hash : list byte) : list byte := pkcs1_prefix alg ++ hash.

(** The table of the comments, with zeros at the place of the digest. *)
Definition pkcs1_blank (alg : HASH_VTAB) : list byte := pkcs1 alg (zeros (Z.of_nat (digest_size alg))).

Definition expected (alg : HASH_VTAB) : list byte :=
  match alg with SHA_VTAB => kExpectedPadShaRsa2048 | SHA256_VTAB => kExpectedPadSha256Rsa2048 end.

Lemma length_pkcs1_prefix alg : length (pkcs1_prefix alg) = (256 - digest_size alg)%nat.
Proof. by destruct alg. Qed.

(** The constants of the source are the digests of the tables. *)
Lemma expected_blank alg : digest_of alg (pkcs1_blank alg) = expected alg.
Proof. destruct alg; vm_compute; reflexivity. Qed.

Lemma byte_xor_val a b : byte_to_Z (byte_xor a b) = Z.lxor (byte_to_Z a) (byte_to_Z b).
Proof.
  unfold byte_xor. rewrite Byte.byte.unsigned_of_Z. unfold Byte.byte.wrap. apply Z.bits_inj'. intros i Hi.
  pose proof (Byte.byte.unsigned_range a). pose proof (Byte.byte.unsigned_range b).
  destruct (Z.lt_ge_cases i 8); [by rewrite Z.mod_pow2_bits_low by lia|].
  rewrite Z.mod_pow2_bits_high, Z.lxor_spec by lia.
  rewrite <- (Z.mod_small (byte_to_Z a) (2 ^ 8)), <- (Z.mod_small (byte_to_Z b) (2 ^ 8)) by lia.
  by rewrite !Z.mod_pow2_bits_high by lia.
Qed.

Lemma byte_xor_cancel a b : byte_xor (byte_xor a b) b = a.
Proof. apply Byte.byte.unsigned_inj. rewrite !byte_xor_val, Z.lxor_assoc, Z.lxor_nilpotent. apply Z.lxor_0_r. Qed.

Lemma byte_xor_self a : byte_xor a a = Init.Byte.x00.
Proof. apply Byte.byte.unsigned_inj. by rewrite byte_xor_val, Z.lxor_nilpotent. Qed.

Lemma zip_xor_cancel a : forall b, length a = length b -> zip_with byte_xor (zip_with byte_xor a b) b = a.
Proof. induction a as [|x a IH]; intros [|y b] Hl; try done. cbn. rewrite byte_xor_cancel, IH; [done|]. by injection Hl. Qed.

Lemma zip_xor_self a : zip_with byte_xor a a = replicate (length a) Init.Byte.x00.
Proof. induction a as [|x a IH]; [done|]. cbn. by rewrite byte_xor_self, IH. Qed.

(** Only the digest part changes, and changing it twice restores it. *)
Lemma xor_tail_app p h hash : length h = length hash ->
  xor_tail (p ++ h) hash (blen hash) = p ++ zip_with byte_xor h hash.
Proof.
  intros Hl. unfold xor_tail. rewrite blen_app. unfold blen. rewrite Hl.
  replace (Z.to_nat _) with (length p) by lia. by rewrite take_app_length, drop_app_length.
Qed.

Lemma xor_tail_blank alg em hash : length em = 256%nat -> length hash = digest_size alg ->
  xor_tail em hash (blen hash) = pkcs1_blank alg <-> em = pkcs1 alg hash.
Proof.
  intros He Hh. assert (Hsz : (digest_size alg <= 256)%nat) by (destruct alg; cbv; lia).
  pose proof (length_pkcs1_prefix alg) as Hp. unfold pkcs1_blank, pkcs1, zeros. rewrite Nat2Z.id. split.
  - intros Hx. rewrite <- (take_drop (256 - digest_size alg) em) in Hx |- *.
    assert (length (drop (256 - digest_size alg) em) = length hash) as Hd by (rewrite length_drop; lia).
    rewrite xor_tail_app in Hx by done. apply app_inj_1 in Hx as [-> Hz]; [|rewrite length_take; lia].
    f_equal. rewrite <- (zip_xor_cancel (drop _ em) hash), Hz, <- Hh by done.
    rewrite <- zip_xor_self. by rewrite zip_xor_cancel.
  - intros ->. rewrite xor_tail_app by done. by rewrite zip_xor_self, Hh.
Qed.

(** [RSA_verify] on arguments it supports. *)
Lemma RSA_verify_ok c alg key signature hash :
  key_ok key -> length (buf c) = 64%nat -> length signature = 256%nat -> length hash = digest_size alg ->
  exists em, length em = 256%nat /\ be_val em = be_val signature ^ exponent key mod val (k_n key) /\
    RSA_verify c key signature 256 hash (blen hash) =
      Done (if bool_decide (digest_of alg (xor_tail em hash (blen hash)) = digest_of alg (pkcs1_blank alg))
            then 1 else 0).
Proof.
  intros Hk Hb Hs Hh. destruct (modpow_ok key signature Hk Hs) as (em & Hrun & Hl & Hv).
  exists em. split; [exact Hl|]. split; [exact Hv|]. rewrite expected_blank. unfold RSA_verify.
  rewrite (ko_len _ Hk), Z.eqb_refl. change (256 =? RSANUMBYTES) with true. cbn [negb].
  assert (Hsl : slice 0 256 signature = signature).
  { rewrite slice_0, firstn_all2; [done|]. rewrite Hs. done. }
  rewrite Hsl, Hrun. cbn [obind].
  assert (Hxl : blen (xor_tail em hash (blen hash)) < 2 ^ 31).
  { unfold xor_tail. rewrite blen_app. unfold blen. rewrite length_take, length_zip_with, length_drop. lia. }
  destruct (hash_one_call c _ Hb Hxl) as [H1 H2].
  assert (negb (exponent key =? 3) && negb (exponent key =? 65537) = false) as ->
    by (destruct (ko_exp _ Hk) as [-> | ->]; reflexivity).
  destruct alg; (assert (Hhl : blen hash = Z.of_nat (digest_size _)) by (unfold blen; rewrite Hh; reflexivity)).
  - rewrite Hhl in *. cbn [digest_size]. rewrite Z.eqb_refl. cbn [negb andb].
    cbn [digest_size] in H1. rewrite H1. reflexivity.
  - rewrite Hhl in *. cbn [digest_size].
    assert (Z.of_nat SHA256_DIGEST_SIZE =? Z.of_nat SHA_DIGEST_SIZE = false) as -> by reflexivity.
    rewrite Z.eqb_refl. cbn [negb andb]. cbn [digest_size] in H2. rewrite H2. reflexivity.
Qed.

Lemma RSA_verify_valid c alg key signature hash :
  key_ok key -> length (buf c) = 64%nat -> length signature = 256%nat -> length hash = digest_size alg ->
  be_val signature ^ exponent key mod val (k_n key) = be_val (pkcs1 alg hash) ->
  RSA_verify c key signature 256 hash (blen hash) = Done 1.
Proof.
  intros Hk Hb Hs Hh Hvalid. destruct (RSA_verify_ok c alg key signature hash) as (em & Hl & Hv & ->); try done.
  assert (em = pkcs1 alg hash) as Hem.
  { apply be_val_inj; [|congruence]. unfold pkcs1. rewrite length_app, length_pkcs1_prefix, Hl, Hh. by destruct alg. }
  apply (xor_tail_blank alg em hash Hl Hh) in Hem. rewrite Hem. by rewrite bool_decide_true.
Qed.

(** C10.  [RSA_verify] accepts every valid signature: if the power of the
    signature is the PKCS #1 v1.5 encoding of the hash, it returns 1. *)
Theorem RSA_verify_accepts c alg key signature hash :
  key_ok key -> length (buf c) = 64%nat -> length signature = 256%nat -> length hash = digest_size alg ->
  be_val signature ^ exponent key mod val (k_n key) = be_val (pkcs1 alg hash) ->
  RSA_verify c key signature 256 hash (blen hash) = Done 1.
Proof. apply RSA_verify_valid. Qed.


(** ** A key and a signature *)
Module RsaWitnesses.
Definition stack_ctx : HASH_CTX := mk_ctx SHA256_VTAB 5 (replicate 64 Init.Byte.xaa) (replicate 8 1).

Fixpoint words_of_Z (k : nat) (v : Z) : list Z :=
  match k with O => [] | S k => Z.land v (Z.ones 32) :: words_of_Z k (Z.shiftr v 32) end.

(** A digest, and a modulus for which the cube of [root] is its encoding. *)
Definition hash_1 : list byte := be_bytes 20 0x874d46fd3ee3a4c3f4d2ca9c2db3fa9e0582ba8b.
Definition root : Z := 0xb89ba24891 * 2 ^ 643.
Definition modulus : Z := root * root * root - be_val (pkcs1 SHA_VTAB hash_1).
Definition R_squared : Z :=
  0x50f7b02f15c8e0a5a78a3ef55ed458e60df1c4be32507942eaf3d50994d681db015dcc72798ac0c8aab2ea9f7693f613d45f46b730d639bd53317b4d47d3c316b9ba059e2674d17b8b4c5f021bfcc25f06380e6aac0e7adde47799e59ef790474abe1afa3010ceb660693a6eeaf9558e3bf08e0b31216cb8699f3a6adb710e899b1e8469a0b2a6d65b6fcd77629d534f3b2eee54fb68bd2854dfa78dac1faf0b926a4ef038b8126fc289b58869d7654fe0634d6eff3ab2f94e27cc7a96a3d9f2af7b2cf53b0d335ebffb1ddbd0c7cbe354b3d96b3280c1c288e979aaaffeeb4e5afab718c5ae9bfcceb1f8d35427f831d831ea4d3a75251cd79bd1323a5b3928.
Definition R_quotient : Z :=
  0x15558e397b99d47edbef255f8d19d4877ad1e68dc9d7faaf2df495271b9a8dfe6c9cdad3e87d44752458d7ac158c96e277090570501e917af522e3d646561d0f86865dd8a0b21213161087e2870bbfda0096f89751eb3666050c05426a9a8ece70670aed1e687f8ebfe2e3d7b95f6f4a79f82c790dfc82e76c5d50a5d1c7cb237e6a20e8e151ba84703064a48b054932f89582e8e0ca01bbab0abf94d841c73732402bd48b19c305a75469dc1c732699d3f9e126cd88b0768d4810c3a97d0583d9c42a9c30ed14e0f5a9dc5c2b3fcd4a5ee59026bd0b4ee0d483b1c112e49bdbc402d031764ed487ca15cd571288876a6db4a31a4b4010a7e787c63d3615c5878.
Definition key_3 : RSAPublicKey :=
  mk_key 64 0xdb945d23 (words_of_Z 64 modulus) (words_of_Z 64 R_squared) 3.
Definition signature_1 : list byte := be_bytes 256 root.

Definition u32b (x : Z) : bool := (0 <=? x) && (x <? 2 ^ 32).

Lemma u32b_Forall l : forallb u32b l = true -> Forall is_u32 l.
Proof. rewrite forallb_forall, Forall_forall. intros H x Hx%list_elem_of_In%H. unfold u32b, is_u32 in *. lia. Qed.

Lemma key_3_ok : key_ok key_3.
Proof.
  split; [reflexivity|reflexivity| | |reflexivity| | | |left; reflexivity].
  - apply u32b_Forall. vm_compute. reflexivity.
  - apply cong_mod; [lia|]. vm_compute. reflexivity.
  - apply u32b_Forall. vm_compute. reflexivity.
  - exists (- R_quotient). vm_compute. reflexivity.
  - vm_compute. discriminate.
Qed.

Lemma signature_1_power :
  be_val signature_1 ^ exponent key_3 mod val (k_n key_3) = be_val (pkcs1 SHA_VTAB hash_1).
Proof.
  symmetry. apply (Zmod_unique _ _ 1); [vm_compute; split; [discriminate|reflexivity]|].
  vm_compute. reflexivity.
Qed.

Lemma modpow_correct_witness :
  exists out, modpow key_3 signature_1 = Done out /\ length out = 256%nat /\
    be_val out = be_val (pkcs1 SHA_VTAB hash_1).
Proof.
  destruct (modpow_correct key_3 signature_1 key_3_ok eq_refl) as (out & H1 & H2 & H3).
  exists out. split; [exact H1|]. split; [exact H2|]. rewrite H3. exact signature_1_power.
Defined.

Lemma RSA_verify_accepts_witness : RSA_verify stack_ctx key_3 signature_1 256 hash_1 20 = Done 1.
Proof.
  exact (RSA_verify_accepts stack_ctx SHA_VTAB key_3 signature_1 hash_1 key_3_ok eq_refl eq_refl eq_refl
    signature_1_power).
Defined.

End RsaWitnesses.
