(* ===== verification/Hashmap.v ===== *)
(** * Hash maps (libcutils hashmap.c)

    Chained buckets, a power of two of them, doubled when the load factor
    exceeds 3/4.  The chain of a bucket is a list of entries in link order.
    Keys are pointers: [K] with decidable equality is their identity; the
    caller's [hash] and [equals], which the map stores at creation, are
    parameters whose contract is the class [KeyContract]. *)
From S2P Require Import Prelude.

(** What a caller promises about the functions it hands to [hashmapCreate]. *)
Class KeyContract {K : Type} (hash : K -> Z) (equals : K -> K -> bool) : Prop := {
  equals_refl a : equals a a = true;
  equals_sym a b : equals a b = equals b a;
  equals_trans a b c : equals a b = true -> equals b c = true -> equals a c = true;
  equals_hash a b : equals a b = true -> hash a = hash b
}.

Record Entry (K V : Type) := mk_entry { key : K; e_hash : Z; value : V }.
Arguments mk_entry {K V}.
Arguments key {K V}.
Arguments e_hash {K V}.
Arguments value {K V}.

Record Hashmap (K V : Type) := mk_map { buckets : list (list (Entry K V)); bucketCount : Z; size : Z }.
Arguments mk_map {K V}.
Arguments buckets {K V}.
Arguments bucketCount {K V}.
Arguments size {K V}.

(** [calloc(n, sizeof(Entry pointer))]: fails when memory is short ([ok]) or the
    size exceeds what an object can have. *)
Definition calloc_pointers (ok : bool) (n : Z) : bool := ok && (n * 8 <? 2 ^ 63).

(** [while (map->bucketCount <= minimumBucketCount) map->bucketCount <<= 1]. *)
Fixpoint bucket_loop (fuel : nat) (minimum count : Z) : outcome Z :=
  if count <=? minimum then
    match fuel with
    | O => Crash OutOfFuel
    | S fuel => bucket_loop fuel minimum (u64 (Z.shiftl count 1))
    end
  else Done count.

(** Result [None] is the null pointer. *)
Definition hashmapCreate {K V : Type} (malloc_ok calloc_ok : bool) (initialCapacity : Z) : outcome (option (Hashmap K V)) :=
  if negb malloc_ok then Done None else
  let minimumBucketCount := u64 (initialCapacity * 4) / 3 in
  let! count := bucket_loop 64 minimumBucketCount 1 in
  if negb (calloc_pointers calloc_ok count) then Done None else
  Done (Some (mk_map (replicate (Z.to_nat count) []) count 0)).

(** Doug Lea's secondary hash, on [int]. *)
Definition mix (h : Z) : Z :=
  let h := s32 (h + Z.lnot (s32 (Z.shiftl h 9))) in
  let h := s32 (Z.lxor (u32 h) (Z.shiftr (u32 h) 14)) in
  let h := s32 (h + s32 (Z.shiftl h 4)) in
  s32 (Z.lxor (u32 h) (Z.shiftr (u32 h) 10)).

(** [((size_t) hash) & (bucketCount - 1)]. *)
Definition calculateIndex (count h : Z) : Z := Z.land (u64 h) (u64 (count - 1)).

(** [h = h * 31 + *data] over the bytes of a key. *)
Definition hashmapHash (data : list byte) : Z :=
  foldl (fun h b => s32 (h * 31 + s8 (byte_to_Z b))) (s32 (blen data)) data.

(** Keys that are pointers to [int], read through the memory [mem]. *)
Definition hashmapIntHash {P : Type} (mem : P -> Z) (k : P) : Z := mem k.
Definition hashmapIntEquals {P : Type} (mem : P -> Z) (a b : P) : bool := mem a =? mem b.

#[export] Instance int_keys {P} (mem : P -> Z) : KeyContract (hashmapIntHash mem) (hashmapIntEquals mem).
Proof. split; unfold hashmapIntHash, hashmapIntEquals; intros; try lia. Qed.

Section Operations.
Context {K V : Type} `{EqDecision K} (hash : K -> Z) (equals : K -> K -> bool) (null : V).

Definition hashKey (k : K) : Z := mix (hash k).

Definition hashmapSize (m : Hashmap K V) : Z := size m.

Definition equalKeys (keyA : K) (hashA : Z) (keyB : K) (hashB : Z) : bool :=
  if bool_decide (keyA = keyB) then true
  else if negb (hashA =? hashB) then false
  else equals keyA keyB.

(** The chain a key belongs to. *)
Definition chain_of (m : Hashmap K V) (h : Z) : list (Entry K V) :=
  default [] (buckets m !! Z.to_nat (calculateIndex (bucketCount m) h)).

Definition set_chain (m : Hashmap K V) (h : Z) (c : list (Entry K V)) (n : Z) : Hashmap K V :=
  mk_map (<[Z.to_nat (calculateIndex (bucketCount m) h) := c]> (buckets m)) (bucketCount m) n.

(** One entry moves to the front of its new chain. *)
Definition rehash (count : Z) (bs : list (list (Entry K V))) (e : Entry K V) : list (list (Entry K V)) :=
  let i := Z.to_nat (calculateIndex count (e_hash e)) in <[i := e :: default [] (bs !! i)]> bs.

Definition expandIfNecessary (calloc_ok : bool) (m : Hashmap K V) : Hashmap K V :=
  if u64 (bucketCount m * 3) / 4 <? size m then
    let newBucketCount := u64 (Z.shiftl (bucketCount m) 1) in
    if negb (calloc_pointers calloc_ok newBucketCount) then m else
    let newBuckets :=
      foldl (fun bs chain => foldl (rehash newBucketCount) bs chain)
        (replicate (Z.to_nat newBucketCount) []) (buckets m) in
    mk_map newBuckets newBucketCount (size m)
  else m.

(** Walk the chain: the chain with the value replaced and the old value, or
    [None] at its end. *)
Fixpoint replace_loop (k : K) (h : Z) (v : V) (c : list (Entry K V)) : option (list (Entry K V) * V) :=
  match c with
  | [] => None
  | e :: c =>
      if equalKeys (key e) (e_hash e) k h then Some (mk_entry (key e) (e_hash e) v :: c, value e)
      else match replace_loop k h v c with Some (c, old) => Some (e :: c, old) | None => None end
  end.

(** Link a new entry at the end of the chain. *)
Definition add_entry (calloc_ok : bool) (m : Hashmap K V) (k : K) (h : Z) (v : V) : Hashmap K V :=
  expandIfNecessary calloc_ok (set_chain m h (chain_of m h ++ [mk_entry k h v]) (u64 (size m + 1))).

Definition hashmapPut (malloc_ok calloc_ok : bool) (m : Hashmap K V) (k : K) (v : V) : Hashmap K V * V :=
  let h := hashKey k in
  match replace_loop k h v (chain_of m h) with
  | Some (c, old) => (set_chain m h c (size m), old)
  | None => if negb malloc_ok then (m, null) else (add_entry calloc_ok m k h v, null)
  end.

(** The entry of the chain with an equal key. *)
Definition find_entry (k : K) (h : Z) (c : list (Entry K V)) : option (Entry K V) :=
  snd <$> list_find (fun e => equalKeys (key e) (e_hash e) k h = true) c.

Definition hashmapGet (m : Hashmap K V) (k : K) : V :=
  let h := hashKey k in
  match find_entry k h (chain_of m h) with Some e => value e | None => null end.

Definition hashmapContainsKey (m : Hashmap K V) (k : K) : bool :=
  let h := hashKey k in bool_decide (is_Some (find_entry k h (chain_of m h))).

(** [initialValue] runs on the caller's [context]; it is called only for a new
    entry that could be allocated. *)
Definition hashmapMemoize {C : Type} (malloc_ok calloc_ok : bool) (m : Hashmap K V) (k : K)
    (initialValue : K -> C -> C * V) (context : C) : Hashmap K V * C * V :=
  let h := hashKey k in
  match find_entry k h (chain_of m h) with
  | Some e => (m, context, value e)
  | None =>
      if negb malloc_ok then (m, context, null) else
      let '(context, v) := initialValue k context in
      (add_entry calloc_ok m k h v, context, v)
  end.

Fixpoint remove_loop (k : K) (h : Z) (c : list (Entry K V)) : option (list (Entry K V) * V) :=
  match c with
  | [] => None
  | e :: c =>
      if equalKeys (key e) (e_hash e) k h then Some (c, value e)
      else match remove_loop k h c with Some (c, v) => Some (e :: c, v) | None => None end
  end.

Definition hashmapRemove (m : Hashmap K V) (k : K) : Hashmap K V * V :=
  let h := hashKey k in
  match remove_loop k h (chain_of m h) with
  | Some (c, v) => (set_chain m h c (u64 (size m - 1)), v)
  | None => (m, null)
  end.

(** [callback] runs on the caller's [context] until it returns false; the
    result is whether every entry was visited. *)
Fixpoint each_loop {C : Type} (callback : K -> V -> C -> C * bool) (c : list (Entry K V)) (context : C) : C * bool :=
  match c with
  | [] => (context, true)
  | e :: c =>
      let '(context, go) := callback (key e) (value e) context in
      if negb go then (context, false) else each_loop callback c context
  end.

Fixpoint hashmapForEach_loop {C : Type} (callback : K -> V -> C -> C * bool) (bs : list (list (Entry K V))) (context : C) : C :=
  match bs with
  | [] => context
  | c :: bs =>
      let '(context, go) := each_loop callback c context in
      if negb go then context else hashmapForEach_loop callback bs context
  end.

Definition hashmapForEach {C : Type} (m : Hashmap K V) (callback : K -> V -> C -> C * bool) (context : C) : C :=
  hashmapForEach_loop callback (buckets m) context.

Definition hashmapCurrentCapacity (m : Hashmap K V) : Z := u64 (bucketCount m * 3) / 4.

(** Entries that have a successor. *)
Fixpoint chain_collisions (c : list (Entry K V)) (n : Z) : Z :=
  match c with
  | [] => n
  | e :: c => chain_collisions c (match c with [] => n | _ => u64 (n + 1) end)
  end.

Definition hashmapCountCollisions (m : Hashmap K V) : Z :=
  foldl (fun n c => chain_collisions c n) 0 (buckets m).

(** The entries [hashmapFree] frees, in order. *)
Definition hashmapFree (m : Hashmap K V) : list (Entry K V) :=
  foldl (fun freed c => foldl (fun freed e => freed ++ [e]) freed c) [] (buckets m).
End Operations.
