(* ===== verification/HashmapCorrect.v ===== *)
(** * Hash maps implement finite maps

    The representation invariant [map_ok] and its preservation, the operations
    against lookup in the collected entries, and the refinement: any run of
    operations gives the results of the same run on a [gmap]. *)
From S2P Require Import Prelude Hashmap.

(** ** Indices *)

Lemma calculateIndex_mod b h : 0 <= b < 64 -> calculateIndex (2 ^ b) h = h mod 2 ^ b.
Proof.
  intros Hb. unfold calculateIndex, u64. pose proof (Z.pow_pos_nonneg 2 b). pose proof (Z.pow_lt_mono_r 2 b 64).
  rewrite (Z.mod_small (2 ^ b - 1)) by lia.
  replace (2 ^ b - 1) with (Z.ones b) by (rewrite Z.ones_equiv; lia). rewrite Z.land_ones by lia.
  symmetry. apply Znumtheory.Zmod_div_mod; [lia|lia|]. exists (2 ^ (64 - b)). rewrite <- Z.pow_add_r by lia. f_equal. lia.
Qed.

(** ** Lists of entries up to permutation *)
Section Entries.
Context {K V : Type} (equals : K -> K -> bool).

(** No two entries have equal keys. *)
Fixpoint uniq (es : list (Entry K V)) : Prop :=
  match es with
  | [] => True
  | e :: es => Forall (fun e' => equals (key e) (key e') = false) es /\ uniq es
  end.

(** The specification of lookup. *)
Definition find (es : list (Entry K V)) (k : K) : option V :=
  (fun p => value p.2) <$> list_find (fun e => equals (key e) k = true) es.

Lemma find_nil k : find [] k = None.
Proof. done. Qed.

Lemma find_cons e es k : find (e :: es) k = if equals (key e) k then Some (value e) else find es k.
Proof.
  unfold find. cbn [list_find]. destruct (equals (key e) k) eqn:He.
  - by rewrite decide_True by done.
  - rewrite decide_False by congruence. by destruct (list_find _ es) as [[? ?]|].
Qed.

Context (equals_sym' : forall a b, equals a b = equals b a).
Context (equals_trans' : forall a b c, equals a b = true -> equals b c = true -> equals a c = true).

Lemma equals_congr a b c : equals a b = true -> equals a c = equals b c.
Proof.
  intros H. destruct (equals a c) eqn:H1, (equals b c) eqn:H2; try done.
  - rewrite equals_sym' in H. by rewrite (equals_trans' b a c H H1) in H2.
  - by rewrite (equals_trans' a b c H H2) in H1.
Qed.

#[export] Instance uniq_perm : Proper ((≡ₚ) ==> iff) uniq.
Proof.
  assert (forall a b, a ≡ₚ b -> uniq a -> uniq b) as H.
  { induction 1 as [|e a b Hab IH|x y a|a b c _ IH1 _ IH2]; cbn [uniq]; [done| | |by auto].
    - intros [Hf Hu]. split; [by rewrite <- Hab|by apply IH].
    - intros [Hf [Hf' Hu]]. apply Forall_cons_1 in Hf as [Hxy Hf]. rewrite equals_sym' in Hxy.
      split_and!; [by constructor|done|done]. }
  intros a b Hab. split; apply H; done.
Qed.

Lemma uniq_app a b : uniq (a ++ b) -> uniq a /\ uniq b.
Proof. induction a as [|e a IH]; cbn [uniq app]; [done|]. rewrite Forall_app. naive_solver. Qed.

(** Lookup does not see the order of the entries. *)
Lemma find_perm a b k : uniq a -> a ≡ₚ b -> find a k = find b k.
Proof.
  intros Hu Hab. revert Hu. induction Hab as [|e a b Hab IH|x y a|a b c Hab IH1 Hbc IH2]; intros Hu; [done| | |].
  - rewrite !find_cons. by rewrite IH by apply Hu.
  - rewrite !find_cons. destruct Hu as [Hf _]. apply Forall_cons_1 in Hf as [Hxy _].
    destruct (equals (key y) k) eqn:Hy, (equals (key x) k) eqn:Hx; try done.
    rewrite equals_sym' in Hx. by rewrite (equals_trans' _ _ _ Hy Hx) in Hxy.
  - rewrite IH1 by done. apply IH2. by rewrite <- Hab.
Qed.

Lemma find_None es k : Forall (fun e => equals (key e) k = false) es <-> find es k = None.
Proof.
  induction es as [|e es IH]; [split; [done|constructor]|]. rewrite find_cons, Forall_cons, IH.
  destruct (equals (key e) k); naive_solver.
Qed.

Lemma find_congr es k k' : equals k k' = true -> find es k = find es k'.
Proof.
  intros Hk. induction es as [|e es IH]; [done|]. rewrite !find_cons, IH, !(equals_sym' (key e)).
  by rewrite (equals_congr _ _ (key e) Hk).
Qed.

(** A key removed. *)
Lemma find_remove e es k k' : uniq (e :: es) -> equals (key e) k = true ->
  find es k' = if equals k k' then None else find (e :: es) k'.
Proof.
  intros [Hf _] He. rewrite find_cons, (equals_congr _ _ k' He). destruct (equals k k') eqn:Hk; [|done].
  apply find_None. eapply Forall_impl; [done|]. intros e' He'. cbn in He'.
  rewrite (equals_congr _ _ (key e') He) in He'. rewrite equals_sym'.
  by rewrite <- (equals_congr _ _ (key e') Hk).
Qed.
End Entries.

(** ** Buckets *)

Lemma bucket_perm {A} (bs : list (list A)) i c c' : bs !! i = Some c ->
  mjoin bs ≡ₚ c ++ mjoin (delete i bs) /\ mjoin (<[i := c']> bs) ≡ₚ c' ++ mjoin (delete i bs).
Proof.
  revert i. induction bs as [|b bs IH]; intros [|i] Hi; try done.
  - injection Hi as ->. by split.
  - destruct (IH i Hi) as [H1 H2].
    change (mjoin (b :: bs)) with (b ++ mjoin bs). change (mjoin (<[S i := c']> (b :: bs))) with (b ++ mjoin (<[i := c']> bs)).
    change (mjoin (delete (S i) (b :: bs))) with (b ++ mjoin (delete i bs)).
    rewrite H1, H2. split; by rewrite Permutation_app_swap_app.
Qed.

Section Correct.
Context {K V : Type} `{EqDecision K} (hash : K -> Z) (equals : K -> K -> bool) (null : V).
Context `{!KeyContract hash equals}.

Abbreviation map := (Hashmap K V).
Abbreviation entry := (Entry K V).
Abbreviation hashK := (hashKey hash).
Abbreviation uniq := (uniq equals).
Abbreviation find := (find equals).

Definition entries (m : map) : list entry := mjoin (buckets m).

(** Every entry is in the chain its hash selects, under its own hash. *)
Definition placed (count : Z) (bs : list (list entry)) : Prop :=
  forall i c, bs !! i = Some c ->
    Forall (fun e => e_hash e = hashK (key e) /\ Z.to_nat (calculateIndex count (e_hash e)) = i) c.

(** The representation invariant. *)
Record map_ok (m : map) : Prop := {
  mo_count : exists b, 0 <= b < 60 /\ bucketCount m = 2 ^ b;
  mo_length : length (buckets m) = Z.to_nat (bucketCount m);
  mo_placed : placed (bucketCount m) (buckets m);
  mo_uniq : uniq (entries m);
  mo_size : size m = blen (entries m);
  mo_range : size m < 2 ^ 64
}.

Lemma index_lt b h : 0 <= b < 60 -> (Z.to_nat (calculateIndex (2 ^ b) h) < Z.to_nat (2 ^ b))%nat.
Proof.
  intros Hb. rewrite calculateIndex_mod by lia. pose proof (Z.pow_pos_nonneg 2 b).
  pose proof (Z.mod_pos_bound h (2 ^ b)). lia.
Qed.

(** Comparing entry and key is comparing keys. *)
Lemma equalKeys_equals a b : equalKeys equals a (hashK a) b (hashK b) = equals a b.
Proof.
  unfold equalKeys. case_bool_decide as Heq; [subst; by rewrite (equals_refl (hash := hash))|].
  destruct (Z.eqb_spec (hashK a) (hashK b)) as [|Hne]; [done|]. cbn [negb].
  destruct (equals a b) eqn:He; [|done]. destruct Hne. unfold hashKey. by rewrite (equals_hash (hash := hash) _ _ He).
Qed.

(** The chain of a hash and what is in the other chains. *)
Lemma bucket_chain_lookup m h : map_ok m ->
  buckets m !! Z.to_nat (calculateIndex (bucketCount m) h) = Some (chain_of m h).
Proof.
  intros [(b & Hb & Hc) Hl _ _ _ _]. unfold chain_of.
  destruct (lookup_lt_is_Some_2 (buckets m) (Z.to_nat (calculateIndex (bucketCount m) h))) as [c Hx].
  { rewrite Hl, Hc. by apply index_lt. }
  by rewrite Hx.
Qed.

Definition others (m : map) (h : Z) : list entry :=
  mjoin (delete (Z.to_nat (calculateIndex (bucketCount m) h)) (buckets m)).

Lemma entries_chain m h : map_ok m -> entries m ≡ₚ chain_of m h ++ others m h.
Proof. intros Hm. by apply (bucket_perm _ _ _ []), bucket_chain_lookup. Qed.

Lemma entries_set_chain m h c n : map_ok m -> entries (set_chain m h c n) ≡ₚ c ++ others m h.
Proof. intros Hm. unfold entries, set_chain. cbn [buckets]. by apply (bucket_perm _ _ (chain_of m h)), bucket_chain_lookup. Qed.

(** A key can only be found in its own chain. *)
Lemma others_miss m k : map_ok m -> find (others m (hashK k)) k = None.
Proof.
  intros Hm. apply find_None. unfold others. apply Forall_forall. intros e He.
  apply list_elem_of_join in He as (c & Hec & Hc). apply list_elem_of_lookup in Hc as [j Hj].
  assert (exists i, i <> Z.to_nat (calculateIndex (bucketCount m) (hashK k)) /\ buckets m !! i = Some c) as (i & Hi & Hci).
  { set (p := Z.to_nat (calculateIndex (bucketCount m) (hashK k))) in *.
    destruct (decide (j < p)%nat).
    - exists j. split; [lia|]. by rewrite list_lookup_delete_lt in Hj.
    - exists (S j). split; [lia|]. by rewrite list_lookup_delete_ge in Hj by lia. }
  pose proof (mo_placed m Hm i c Hci) as Hp. rewrite Forall_forall in Hp. destruct (Hp e Hec) as [Hh Hidx].
  destruct (equals (key e) k) eqn:Heq; [|done]. exfalso. apply Hi. rewrite <- Hidx, Hh. unfold hashKey.
  by rewrite (equals_hash (hash := hash) _ _ Heq).
Qed.

Lemma chain_equalKeys m k e : map_ok m -> e ∈ chain_of m (hashK k) ->
  equalKeys equals (key e) (e_hash e) k (hashK k) = equals (key e) k.
Proof.
  intros Hm He. pose proof (mo_placed m Hm _ _ (bucket_chain_lookup m (hashK k) Hm)) as Hp.
  rewrite Forall_forall in Hp. destruct (Hp e He) as [-> _]. apply equalKeys_equals.
Qed.

Lemma find_app (a b : list entry) k : find (a ++ b) k = match find a k with Some v => Some v | None => find b k end.
Proof.
  induction a as [|e a IH]; [done|]. cbn [app]. rewrite !find_cons, IH. by destruct (equals (key e) k).
Qed.

Lemma find_entries m k : map_ok m -> find (entries m) k = find (chain_of m (hashK k)) k.
Proof.
  intros Hm. rewrite (find_perm equals (equals_sym (hash := hash)) (equals_trans (hash := hash)) _ _ k (mo_uniq m Hm) (entries_chain m (hashK k) Hm)).
  rewrite find_app, others_miss by done. by destruct (find _ k).
Qed.

(** Shorthands for the facts about entry lists under the contract. *)
Lemma find_perm' (a b : list entry) k : uniq a -> a ≡ₚ b -> find a k = find b k.
Proof. apply find_perm; [apply (equals_sym (hash := hash))|apply (equals_trans (hash := hash))]. Qed.

Lemma uniq_perm' (a b : list entry) : a ≡ₚ b -> uniq a -> uniq b.
Proof. intros H. by rewrite (uniq_perm equals (equals_sym (hash := hash)) a b H). Qed.

(** *** Reading *)

Lemma find_entry_value m k : map_ok m ->
  value <$> find_entry equals k (hashK k) (chain_of m (hashK k)) = find (entries m) k.
Proof.
  intros Hm. rewrite find_entries by done. pose proof (chain_equalKeys m k) as Heq.
  assert (forall c, c ⊆ chain_of m (hashK k) -> value <$> find_entry equals k (hashK k) c = find c k) as H; [|by apply H].
  unfold find_entry. induction c as [|e c IH]; intros Hc; [done|]. rewrite find_cons. cbn [list_find].
  rewrite (Heq e Hm) by (apply Hc; by left). destruct (equals (key e) k) eqn:He.
  - by rewrite decide_True by done.
  - rewrite decide_False by congruence. rewrite <- IH by (intros x Hx; apply Hc; by right).
    by destruct (list_find _ c) as [[? ?]|].
Qed.

Lemma hashmapGet_ok m k : map_ok m -> hashmapGet hash equals null m k = default null (find (entries m) k).
Proof. intros Hm. unfold hashmapGet. rewrite <- find_entry_value by done. by destruct (find_entry _ _ _ _). Qed.

Lemma hashmapContainsKey_ok m k : map_ok m ->
  hashmapContainsKey hash equals m k = bool_decide (is_Some (find (entries m) k)).
Proof.
  intros Hm. unfold hashmapContainsKey. rewrite <- find_entry_value by done. apply bool_decide_ext.
  destruct (find_entry _ _ _ _); cbn; split; intros [? [=]]; by eexists.
Qed.

(** *** Writing *)

(** Changing one chain keeps the invariant if the new chain belongs there. *)
Lemma set_chain_ok m h c n : map_ok m ->
  Forall (fun e => e_hash e = hashK (key e) /\
    calculateIndex (bucketCount m) (e_hash e) = calculateIndex (bucketCount m) h) c ->
  uniq (c ++ others m h) -> n = blen (c ++ others m h) -> n < 2 ^ 64 -> map_ok (set_chain m h c n).
Proof.
  intros Hm Hc Hu Hn Hr. pose proof (entries_set_chain m h c n Hm) as Hp.
  pose proof (bucket_chain_lookup m h Hm) as Hlk. split.
  - apply (mo_count m Hm).
  - cbn [set_chain buckets bucketCount]. rewrite length_insert. apply (mo_length m Hm).
  - cbn [set_chain buckets bucketCount]. intros i c' Hi. apply list_lookup_insert_Some in Hi as [(<- & <- & _)|[_ Hi]].
    + eapply Forall_impl; [done|]. intros e [H1 H2]. by rewrite H2.
    + by apply (mo_placed m Hm).
  - by apply (uniq_perm' (c ++ others m h)).
  - unfold blen. rewrite Hp. exact Hn.
  - exact Hr.
Qed.

Lemma chain_placed m h : map_ok m ->
  Forall (fun e => e_hash e = hashK (key e) /\
    calculateIndex (bucketCount m) (e_hash e) = calculateIndex (bucketCount m) h) (chain_of m h).
Proof.
  intros Hm. eapply Forall_impl; [apply (mo_placed m Hm _ _ (bucket_chain_lookup m h Hm))|].
  intros e [H1 H2]. split; [done|]. destruct (mo_count m Hm) as (b & Hb & Hc). rewrite Hc in *.
  rewrite !calculateIndex_mod in * by lia. pose proof (Z.pow_pos_nonneg 2 b).
  pose proof (Z.mod_pos_bound h (2 ^ b)). pose proof (Z.mod_pos_bound (e_hash e) (2 ^ b)). lia.
Qed.

Lemma replace_loop_spec k h v (c : list entry) :
  match replace_loop equals k h v c with
  | Some (c', old) => exists l e r, c = l ++ e :: r /\ c' = l ++ mk_entry (key e) (e_hash e) v :: r /\
      old = value e /\ equalKeys equals (key e) (e_hash e) k h = true
  | None => Forall (fun e => equalKeys equals (key e) (e_hash e) k h = false) c
  end.
Proof.
  induction c as [|e c IH]; cbn [replace_loop]; [constructor|].
  destruct (equalKeys equals (key e) (e_hash e) k h) eqn:He; [by exists [], e, c|].
  destruct (replace_loop equals k h v c) as [[c' old]|]; [|by constructor].
  destruct IH as (l & e' & r & -> & -> & H). by exists (e :: l), e', r.
Qed.

Lemma remove_loop_spec k h (c : list entry) :
  match remove_loop equals k h c with
  | Some (c', old) => exists l e r, c = l ++ e :: r /\ c' = l ++ r /\
      old = value e /\ equalKeys equals (key e) (e_hash e) k h = true
  | None => Forall (fun e => equalKeys equals (key e) (e_hash e) k h = false) c
  end.
Proof.
  induction c as [|e c IH]; cbn [remove_loop]; [constructor|].
  destruct (equalKeys equals (key e) (e_hash e) k h) eqn:He; [by exists [], e, c|].
  destruct (remove_loop equals k h c) as [[c' old]|]; [|by constructor].
  destruct IH as (l & e' & r & -> & -> & H). by exists (e :: l), e', r.
Qed.

(** The result of an update of key [k]: the invariant, and lookup everywhere. *)
Definition updated (m m' : map) (k : K) (o : option V) : Prop :=
  map_ok m' /\ forall k', find (entries m') k' = if equals k k' then o else find (entries m) k'.

Lemma rehash_chains count (bss : list (list entry)) : forall bs,
  foldl (fun bs chain => foldl (rehash count) bs chain) bs bss = foldl (rehash count) bs (mjoin bss).
Proof.
  induction bss as [|c bss IH]; intros bs; cbn [foldl]; [done|].
  change (mjoin (c :: bss)) with (c ++ mjoin bss). by rewrite foldl_app, IH.
Qed.

Lemma rehash_all b : 0 <= b < 60 -> forall es (bs : list (list entry)),
  length bs = Z.to_nat (2 ^ b) -> placed (2 ^ b) bs -> Forall (fun e => e_hash e = hashK (key e)) es ->
  let bs' := foldl (rehash (2 ^ b)) bs es in
  length bs' = Z.to_nat (2 ^ b) /\ placed (2 ^ b) bs' /\ mjoin bs' ≡ₚ es ++ mjoin bs.
Proof.
  intros Hb. induction es as [|e es IH]; intros bs Hl Hp He; cbn [foldl]; [done|].
  apply Forall_cons_1 in He as [He Hes]. set (i := Z.to_nat (calculateIndex (2 ^ b) (e_hash e))).
  destruct (lookup_lt_is_Some_2 bs i) as [c Hci]; [rewrite Hl; by apply index_lt|].
  assert (Hre : rehash (2 ^ b) bs e = <[i := e :: c]> bs) by (unfold rehash; fold i; by rewrite Hci).
  rewrite Hre. destruct (IH (<[i := e :: c]> bs)) as (H1 & H2 & H3); [by rewrite length_insert| |done|].
  - intros j c' Hj. apply list_lookup_insert_Some in Hj as [(<- & <- & _)|[_ Hj]]; [|by apply Hp].
    constructor; [done|]. by apply Hp.
  - split_and!; [done|done|]. rewrite H3. destruct (bucket_perm bs i c (e :: c) Hci) as [-> ->].
    cbn [app]. by rewrite <- Permutation_middle.
Qed.

Lemma entries_hash m : map_ok m -> Forall (fun e => e_hash e = hashK (key e)) (entries m).
Proof.
  intros Hm. apply Forall_forall. intros e He. apply list_elem_of_join in He as (c & Hec & Hcb).
  apply list_elem_of_lookup in Hcb as [i Hi]. pose proof (mo_placed m Hm i c Hi) as Hp.
  rewrite Forall_forall in Hp. by apply Hp.
Qed.

Lemma expand_ok calloc_ok m : map_ok m ->
  map_ok (expandIfNecessary calloc_ok m) /\ entries (expandIfNecessary calloc_ok m) ≡ₚ entries m.
Proof.
  intros Hm. unfold expandIfNecessary. destruct (_ <? _); [|done].
  destruct (mo_count m Hm) as (b & Hb & Hc).
  assert (u64 (Z.shiftl (bucketCount m) 1) = 2 ^ (b + 1)) as ->.
  { rewrite Hc, Z.shiftl_mul_pow2, Z.pow_add_r by lia. change (2 ^ 1) with 2. apply Z.mod_small.
    pose proof (Z.pow_pos_nonneg 2 b). pose proof (Z.pow_lt_mono_r 2 b 60). lia. }
  destruct (calloc_pointers calloc_ok (2 ^ (b + 1))) eqn:Hcal; cbn [negb]; [|done].
  assert (Hb1 : 0 <= b + 1 < 60).
  { unfold calloc_pointers in Hcal. apply andb_true_iff in Hcal as [_ Hlt]. apply Z.ltb_lt in Hlt. split; [lia|].
    apply (Z.pow_lt_mono_r_iff 2); lia. }
  rewrite rehash_chains. fold (entries m).
  destruct (rehash_all (b + 1) Hb1 (entries m) (replicate (Z.to_nat (2 ^ (b + 1))) [])) as (H1 & H2 & H3);
    [apply length_replicate| |by apply entries_hash|].
  { intros i c Hi. apply lookup_replicate in Hi as [-> _]. constructor. }
  assert (mjoin (replicate (Z.to_nat (2 ^ (b + 1))) (@nil entry)) = []) as Hnil
    by (clear; induction (Z.to_nat (2 ^ (b + 1))); cbn; done).
  rewrite Hnil, app_nil_r in H3. split; [|exact H3]. split; cbn [bucketCount buckets size].
  - by exists (b + 1).
  - exact H1.
  - exact H2.
  - by apply (uniq_perm' (entries m)), (mo_uniq m Hm).
  - rewrite (mo_size m Hm). unfold blen, entries at 2. cbn [buckets]. by rewrite H3.
  - apply (mo_range m Hm).
Qed.

Lemma add_entry_ok calloc_ok m k v : map_ok m -> size m < 2 ^ 64 - 1 -> find (entries m) k = None ->
  updated m (add_entry calloc_ok m k (hashK k) v) k (Some v) /\
  size (add_entry calloc_ok m k (hashK k) v) = size m + 1.
Proof.
  intros Hm Hsz Hnone. set (e := mk_entry k (hashK k) v).
  set (m1 := set_chain m (hashK k) (chain_of m (hashK k) ++ [e]) (u64 (size m + 1))).
  assert (Hp : (chain_of m (hashK k) ++ [e]) ++ others m (hashK k) ≡ₚ e :: entries m).
  { rewrite (entries_chain m (hashK k) Hm), <- app_assoc. cbn [app]. by rewrite <- Permutation_middle. }
  assert (Hsize : u64 (size m + 1) = size m + 1).
  { apply Z.mod_small. pose proof (mo_size m Hm). pose proof (blen_nonneg (entries m)). lia. }
  assert (Hu : uniq (e :: entries m)).
  { split; [|apply (mo_uniq m Hm)]. apply find_None in Hnone. eapply Forall_impl; [done|]. intros x Hx. cbn [e key].
    by rewrite (equals_sym (hash := hash)). }
  assert (Hm1 : map_ok m1).
  { apply set_chain_ok; [done| | | |lia].
    - apply Forall_app. split; [by apply chain_placed|]. by repeat constructor.
    - by apply (uniq_perm' (e :: entries m)).
    - rewrite Hsize, (mo_size m Hm). unfold blen. rewrite Hp. cbn [length]. lia. }
  assert (Hp1 : entries m1 ≡ₚ e :: entries m) by (unfold m1; by rewrite entries_set_chain).
  unfold add_entry. fold e m1. destruct (expand_ok calloc_ok m1 Hm1) as [Hm2 Hp2]. split; [split; [done|]|].
  - intros k'. rewrite (find_perm' _ (e :: entries m)); [|apply (mo_uniq _ Hm2)|by rewrite Hp2]. by rewrite find_cons.
  - rewrite (mo_size _ Hm2), (mo_size m Hm). unfold blen. rewrite Hp2, Hp1. cbn [length]. lia.
Qed.

(** An entry with an equal key in the chain: the rest of the map around it. *)
Lemma chain_hit m k l e r : map_ok m -> chain_of m (hashK k) = l ++ e :: r ->
  equalKeys equals (key e) (e_hash e) k (hashK k) = true ->
  let rest := (l ++ r) ++ others m (hashK k) in
  equals (key e) k = true /\ entries m ≡ₚ e :: rest /\ find (entries m) k = Some (value e) /\ uniq (e :: rest).
Proof.
  intros Hm Hc He rest. rewrite (chain_equalKeys m k e Hm) in He by (rewrite Hc; set_solver).
  assert (Hp : entries m ≡ₚ e :: rest).
  { rewrite (entries_chain m (hashK k) Hm), Hc. unfold rest. rewrite <- !app_assoc. cbn [app]. by rewrite <- Permutation_middle. }
  split; [done|]. split; [done|]. pose proof (mo_uniq m Hm) as Hu.
  split; [|by apply (uniq_perm' (entries m))]. rewrite (find_perm' _ _ k Hu Hp), find_cons. by rewrite He.
Qed.

Lemma chain_miss m k : map_ok m ->
  Forall (fun e => equalKeys equals (key e) (e_hash e) k (hashK k) = false) (chain_of m (hashK k)) ->
  find (entries m) k = None.
Proof.
  intros Hm Hf. rewrite find_entries by done. apply find_None. rewrite Forall_forall in *. intros e He.
  rewrite <- (chain_equalKeys m k e Hm He). by apply Hf.
Qed.

Lemma hashmapPut_ok malloc_ok calloc_ok m k v : map_ok m -> size m < 2 ^ 64 - 1 ->
  let '(m', old) := hashmapPut hash equals null malloc_ok calloc_ok m k v in
  old = default null (find (entries m) k) /\ size m' <= size m + 1 /\
  (if malloc_ok || bool_decide (is_Some (find (entries m) k)) then updated m m' k (Some v) else m' = m).
Proof.
  intros Hm Hsz. unfold hashmapPut. pose proof (replace_loop_spec k (hashK k) v (chain_of m (hashK k))) as Hs.
  destruct (replace_loop equals k (hashK k) v (chain_of m (hashK k))) as [[c old]|].
  - destruct Hs as (l & e & r & Hc & -> & -> & He). destruct (chain_hit m k l e r Hm Hc He) as (Hek & Hp & Hfind & Hu).
    rewrite Hfind. rewrite orb_true_r. split; [done|]. split; [cbn; lia|].
    set (e' := mk_entry (key e) (e_hash e) v). set (rest := (l ++ r) ++ others m (hashK k)) in *.
    assert (Hp' : (l ++ e' :: r) ++ others m (hashK k) ≡ₚ e' :: rest).
    { unfold rest. rewrite <- !app_assoc. cbn [app]. by rewrite <- Permutation_middle. }
    assert (Hu' : uniq (e' :: rest)) by exact Hu.
    assert (Hok : map_ok (set_chain m (hashK k) (l ++ e' :: r) (size m))).
    { apply set_chain_ok; [done| |by apply (uniq_perm' (e' :: rest))| |apply (mo_range m Hm)].
      - pose proof (chain_placed m (hashK k) Hm) as Hpl. rewrite Hc in Hpl.
        apply Forall_app in Hpl as [H1 H2]. apply Forall_cons_1 in H2 as [H2 H3].
        apply Forall_app. split; [done|]. constructor; [exact H2|done].
      - rewrite (mo_size m Hm). unfold blen. by rewrite Hp, Hp'. }
    split; [done|]. intros k'. rewrite (find_perm' _ (e' :: rest)); [|apply (mo_uniq _ Hok)|by rewrite entries_set_chain].
    rewrite (find_perm' _ (e :: rest) k' (mo_uniq m Hm) Hp), !find_cons. cbn [e' key value].
    rewrite (equals_congr equals (equals_sym (hash := hash)) (equals_trans (hash := hash)) _ _ k' Hek). by destruct (equals k k').
  - apply chain_miss in Hs; [|done]. rewrite Hs. destruct malloc_ok; cbn [negb orb].
    + destruct (add_entry_ok calloc_ok m k v Hm Hsz Hs) as [H1 H2]. split; [done|]. split; [lia|exact H1].
    + split; [done|]. split; [lia|done].
Qed.

Lemma hashmapRemove_ok m k : map_ok m ->
  let '(m', old) := hashmapRemove hash equals null m k in
  old = default null (find (entries m) k) /\ size m' <= size m /\ updated m m' k None.
Proof.
  intros Hm. unfold hashmapRemove. pose proof (remove_loop_spec k (hashK k) (chain_of m (hashK k))) as Hs.
  destruct (remove_loop equals k (hashK k) (chain_of m (hashK k))) as [[c old]|].
  - destruct Hs as (l & e & r & Hc & -> & -> & He). destruct (chain_hit m k l e r Hm Hc He) as (Hek & Hp & Hfind & Hu).
    rewrite Hfind. set (rest := (l ++ r) ++ others m (hashK k)) in *.
    assert (Hsize : size m = blen rest + 1) by (rewrite (mo_size m Hm); unfold blen; rewrite Hp; cbn [length]; lia).
    assert (Hdec : u64 (size m - 1) = size m - 1).
    { apply Z.mod_small. pose proof (blen_nonneg rest). pose proof (mo_range m Hm). lia. }
    assert (Hok : map_ok (set_chain m (hashK k) (l ++ r) (u64 (size m - 1)))).
    { pose proof (mo_range m Hm). apply set_chain_ok; [done| |apply Hu|unfold rest in *; lia|lia].
      pose proof (chain_placed m (hashK k) Hm) as Hpl. rewrite Hc in Hpl.
      apply Forall_app in Hpl as [H1 H2]. apply Forall_cons_1 in H2 as [_ H3]. by apply Forall_app. }
    split; [done|]. split; [cbn [set_chain size]; lia|]. split; [done|]. intros k'.
    rewrite (find_perm' _ rest); [|apply (mo_uniq _ Hok)|by rewrite entries_set_chain].
    rewrite (find_perm' _ (e :: rest) k' (mo_uniq m Hm) Hp).
    by apply (find_remove equals (equals_sym (hash := hash)) (equals_trans (hash := hash))).
  - apply chain_miss in Hs; [|done]. rewrite Hs. split; [done|]. split; [lia|]. split; [done|].
    intros k'. destruct (equals k k') eqn:Hk; [|done].
    by rewrite <- (find_congr equals (equals_sym (hash := hash)) (equals_trans (hash := hash)) _ _ _ Hk).
Qed.

(** [hashmapMemoize] is a lookup, and a put of the computed value if that fails. *)
Lemma hashmapMemoize_ok {C} malloc_ok calloc_ok m k (init : K -> C -> C * V) ctx : map_ok m -> size m < 2 ^ 64 - 1 ->
  let '(m', ctx', v) := hashmapMemoize hash equals null malloc_ok calloc_ok m k init ctx in
  size m' <= size m + 1 /\
  match find (entries m) k with
  | Some v0 => v = v0 /\ ctx' = ctx /\ m' = m
  | None =>
      if malloc_ok then (ctx', v) = init k ctx /\ updated m m' k (Some v)
      else v = null /\ ctx' = ctx /\ m' = m
  end.
Proof.
  intros Hm Hsz. unfold hashmapMemoize. pose proof (find_entry_value m k Hm) as Hf.
  destruct (find_entry equals k (hashK k) (chain_of m (hashK k))) as [e|]; cbn in Hf; rewrite <- Hf.
  - split; [lia|done].
  - destruct malloc_ok; cbn [negb]; [|split; [lia|done]]. destruct (init k ctx) as [ctx' v].
    destruct (add_entry_ok calloc_ok m k v Hm Hsz) as [H1 H2]; [done|]. split; [lia|done].
Qed.

(** *** Creation *)

Lemma empty_ok b : 0 <= b < 60 -> map_ok (mk_map (replicate (Z.to_nat (2 ^ b)) []) (2 ^ b) 0) /\
  entries (mk_map (replicate (Z.to_nat (2 ^ b)) []) (2 ^ b) 0) = [].
Proof.
  intros Hb. assert (mjoin (replicate (Z.to_nat (2 ^ b)) (@nil entry)) = []) as Hnil
    by (clear; induction (Z.to_nat (2 ^ b)); cbn; done).
  split; [|exact Hnil]. split; cbn [bucketCount buckets size].
  - by exists b.
  - apply length_replicate.
  - intros i c Hi. apply lookup_replicate in Hi as [-> _]. constructor.
  - unfold entries. cbn [buckets]. by rewrite Hnil.
  - unfold entries. cbn [buckets]. by rewrite Hnil.
  - lia.
Qed.
End Correct.

Lemma bucket_loop_ok fuel : forall minimum j, 0 <= j <= 63 -> 0 <= minimum < 2 ^ 63 -> 63 - j <= Z.of_nat fuel ->
  exists b, bucket_loop fuel minimum (2 ^ j) = Done (2 ^ b) /\ j <= b <= 63 /\ minimum < 2 ^ b /\
    (j < b -> 2 ^ (b - 1) <= minimum).
Proof.
  induction fuel as [|fuel IH]; intros minimum j Hj Hmin Hf; cbn [bucket_loop].
  - assert (j = 63) as -> by lia. zdec. exists 63. split_and!; [done|lia..].
  - destruct (Z.leb_spec (2 ^ j) minimum) as [Hle|Hgt]; [|exists j; split_and!; [done|lia..]].
    assert (j < 63) by (apply (Z.pow_lt_mono_r_iff 2); lia).
    assert (u64 (Z.shiftl (2 ^ j) 1) = 2 ^ (j + 1)) as ->.
    { rewrite Z.shiftl_mul_pow2, <- Z.pow_add_r by lia. apply Z.mod_small.
      pose proof (Z.pow_pos_nonneg 2 (j + 1)). pose proof (Z.pow_lt_mono_r 2 (j + 1) 64). lia. }
    destruct (IH minimum (j + 1)) as (b & Hrun & Hb & Hlt & Hprev); [lia..|]. exists b. split_and!; [done|lia..|].
    intros _. destruct (decide (j + 1 = b)) as [<-|]; [|apply Hprev; lia]. by replace (j + 1 - 1) with j by lia.
Qed.

(** [hashmapCreate] ends, and what it returns is an empty map with more than
    4/3 of the requested capacity, a power of two. *)
Lemma hashmapCreate_ok {K V} `{EqDecision K} (hash : K -> Z) equals malloc_ok calloc_ok cap : 0 <= cap < 2 ^ 62 ->
  exists r, hashmapCreate (K := K) (V := V) malloc_ok calloc_ok cap = Done r /\
    match r with
    | None => True
    | Some m => map_ok hash equals m /\ entries m = [] /\ size m = 0 /\ cap * 4 / 3 < bucketCount m
    end.
Proof.
  intros Hcap. unfold hashmapCreate. destruct malloc_ok; cbn [negb]; [|by exists None].
  assert (u64 (cap * 4) = cap * 4) as -> by (apply Z.mod_small; lia).
  destruct (bucket_loop_ok 64 (cap * 4 / 3) 0) as (b & Hrun & Hb & Hlt & _); [lia| |lia|].
  { split; [apply Z.div_pos; lia|]. apply Z.div_lt_upper_bound; lia. }
  change (2 ^ 0) with 1 in Hrun. rewrite Hrun. cbn [obind].
  destruct (calloc_pointers calloc_ok (2 ^ b)) eqn:Hc; cbn [negb]; [|by exists None].
  assert (Hb1 : 0 <= b < 60).
  { unfold calloc_pointers in Hc. apply andb_true_iff in Hc as [_ Hc]. apply Z.ltb_lt in Hc. split; [lia|].
    apply (Z.pow_lt_mono_r_iff 2); lia. }
  eexists. split; [reflexivity|]. cbn beta iota. destruct (empty_ok hash equals (V := V) b Hb1) as [H1 H2]. by split_and!.
Qed.

(** ** Refinement of finite maps *)
Section Refinement.
Context {K V A : Type} `{EqDecision K, Countable A} (hash : K -> Z) (equals : K -> K -> bool) (null : V).
Context (abs : K -> A) (abs_spec : forall a b, equals a b = bool_decide (abs a = abs b)).
Context `{!KeyContract hash equals}.

Abbreviation map := (Hashmap K V).

(** The finite map an entry list stands for: keys up to [abs]. *)
Definition bindings (es : list (Entry K V)) : list (A * V) := (fun e => (abs (key e), value e)) <$> es.
Definition abs_map (m : map) : gmap A V := list_to_map (bindings (entries m)).

Lemma bindings_NoDup es : uniq equals es -> NoDup (bindings es).*1.
Proof.
  induction es as [|e es IH]; cbn [uniq]; [constructor|]. intros [Hf Hu].
  change (NoDup (abs (key e) :: (bindings es).*1)). apply NoDup_cons. split; [|by apply IH].
  unfold bindings. rewrite <- list_fmap_compose.
  intros (e' & Heq & He')%list_elem_of_fmap.
  rewrite Forall_forall in Hf. specialize (Hf e' He'). rewrite abs_spec in Hf. cbn in Heq.
  by rewrite Heq, bool_decide_true in Hf.
Qed.

Lemma abs_lookup es k : list_to_map (M := gmap A V) (bindings es) !! abs k = find equals es k.
Proof.
  induction es as [|e es IH]; [done|]. cbn [bindings fmap list_fmap list_to_map foldr]. rewrite find_cons, abs_spec.
  case_bool_decide as Heq; [rewrite Heq; by rewrite lookup_insert_eq|].
  cbn. rewrite lookup_insert_ne by done. exact IH.
Qed.

Lemma abs_key es a v : list_to_map (M := gmap A V) (bindings es) !! a = Some v -> exists k, a = abs k.
Proof.
  intros Hl%elem_of_list_to_map_2. apply list_elem_of_fmap in Hl as (e & [= -> _] & _). by eexists.
Qed.

(** Maps over abstracted keys are equal if they agree on all keys. *)
Lemma abs_ext (g1 g2 : gmap A V) :
  (forall a v, g1 !! a = Some v -> exists k, a = abs k) -> (forall a v, g2 !! a = Some v -> exists k, a = abs k) ->
  (forall k, g1 !! abs k = g2 !! abs k) -> g1 = g2.
Proof.
  intros H1 H2 Heq. apply map_eq. intros a. apply option_eq. intros v. split; intros Hv.
  - destruct (H1 _ _ Hv) as [k ->]. by rewrite <- Heq.
  - destruct (H2 _ _ Hv) as [k ->]. by rewrite Heq.
Qed.

Lemma abs_updated m m' k o : updated hash equals m m' k o ->
  abs_map m' = match o with Some v => <[abs k := v]> (abs_map m) | None => delete (abs k) (abs_map m) end.
Proof.
  intros [_ Hf]. apply abs_ext.
  - apply abs_key.
  - intros a v. destruct o as [w|].
    + intros [[<- _]|[_ Ha]]%lookup_insert_Some; [by eexists|by apply abs_key in Ha].
    + intros [_ Ha]%lookup_delete_Some. by apply abs_key in Ha.
  - intros k'. unfold abs_map. rewrite abs_lookup, Hf, abs_spec. case_bool_decide as Heq.
    + rewrite Heq. destruct o; by rewrite ?lookup_insert_eq, ?lookup_delete_eq.
    + rewrite <- abs_lookup. destruct o; by rewrite ?lookup_insert_ne, ?lookup_delete_ne.
Qed.

Lemma abs_size m : map_ok hash equals m -> size m = Z.of_nat (base.size (abs_map m)).
Proof.
  intros Hm. rewrite (mo_size _ _ _ Hm). unfold abs_map, blen.
  rewrite map_size_list_to_map by (apply bindings_NoDup, (mo_uniq _ _ _ Hm)).
  unfold bindings. by rewrite length_fmap.
Qed.

(** Calls of the interface and what they return. *)
Inductive call :=
  | Put (malloc_ok calloc_ok : bool) (k : K) (v : V)
  | Get (k : K) | ContainsKey (k : K) | Remove (k : K) | Size
  | Memoize (malloc_ok calloc_ok : bool) (k : K) (v : V).

Inductive result := Pointer (v : V) | Boolean (b : bool) | Number (n : Z).

Definition run_call (m : map) (c : call) : map * result :=
  match c with
  | Put mo co k v => let '(m, old) := hashmapPut hash equals null mo co m k v in (m, Pointer old)
  | Get k => (m, Pointer (hashmapGet hash equals null m k))
  | ContainsKey k => (m, Boolean (hashmapContainsKey hash equals m k))
  | Remove k => let '(m, old) := hashmapRemove hash equals null m k in (m, Pointer old)
  | Size => (m, Number (hashmapSize m))
  | Memoize mo co k v =>
      let '(m, _, v) := hashmapMemoize hash equals null mo co m k (fun _ (_ : unit) => (tt, v)) tt in (m, Pointer v)
  end.

(** The same calls on a finite map; a failing [malloc] leaves it alone. *)
Definition spec_call (g : gmap A V) (c : call) : gmap A V * result :=
  match c with
  | Put mo _ k v =>
      (if mo || bool_decide (is_Some (g !! abs k)) then <[abs k := v]> g else g, Pointer (default null (g !! abs k)))
  | Get k => (g, Pointer (default null (g !! abs k)))
  | ContainsKey k => (g, Boolean (bool_decide (is_Some (g !! abs k))))
  | Remove k => (delete (abs k) g, Pointer (default null (g !! abs k)))
  | Size => (g, Number (Z.of_nat (base.size g)))
  | Memoize mo _ k v =>
      match g !! abs k with
      | Some w => (g, Pointer w)
      | None => if mo then (<[abs k := v]> g, Pointer v) else (g, Pointer null)
      end
  end.

Fixpoint run_calls {S} (step : S -> call -> S * result) (s : S) (cs : list call) : S * list result :=
  match cs with
  | [] => (s, [])
  | c :: cs => let '(s, r) := step s c in let '(s, rs) := run_calls step s cs in (s, r :: rs)
  end.

Lemma call_refines m c : map_ok hash equals m -> size m < 2 ^ 64 - 1 ->
  let '(m', r) := run_call m c in
  map_ok hash equals m' /\ size m' <= size m + 1 /\ (abs_map m', r) = spec_call (abs_map m) c.
Proof.
  intros Hm Hsz. assert (Hlk : forall k, abs_map m !! abs k = find equals (entries m) k) by (intros k; apply abs_lookup).
  destruct c as [mo co k v|k|k|k| |mo co k v]; cbn [run_call spec_call]; rewrite ?Hlk.
  - pose proof (hashmapPut_ok hash equals null mo co m k v Hm Hsz) as Hput.
    destruct (hashmapPut _ _ _ _ _ _ _ _) as [m' old]. destruct Hput as (-> & Hs & Hu).
    destruct (mo || bool_decide (is_Some (find equals (entries m) k))); [|by subst].
    split; [apply Hu|]. split; [done|]. by rewrite (abs_updated m m' k _ Hu).
  - split; [done|]. split; [lia|]. by rewrite hashmapGet_ok.
  - split; [done|]. split; [lia|]. by rewrite (hashmapContainsKey_ok hash).
  - pose proof (hashmapRemove_ok hash equals null m k Hm) as Hrem.
    destruct (hashmapRemove _ _ _ _ _) as [m' old]. destruct Hrem as (-> & Hs & Hu).
    split; [apply Hu|]. split; [lia|]. by rewrite (abs_updated m m' k _ Hu).
  - split; [done|]. split; [lia|]. unfold hashmapSize. by rewrite abs_size.
  - pose proof (hashmapMemoize_ok hash equals null mo co m k (fun _ (_ : unit) => (tt, v)) tt Hm Hsz) as Hmem.
    destruct (hashmapMemoize _ _ _ _ _ _ _ _ _) as [[m' u] w]. destruct Hmem as [Hs Hmem].
    destruct (find equals (entries m) k) as [v0|].
    + destruct Hmem as (-> & _ & ->). by split_and!.
    + destruct mo.
      * destruct Hmem as [[= -> ->] Hu]. split; [apply Hu|]. split; [done|]. by rewrite (abs_updated m m' k _ Hu).
      * destruct Hmem as (-> & _ & ->). by split_and!.
Qed.

Lemma calls_refine cs : forall m, map_ok hash equals m -> size m + blen cs < 2 ^ 64 ->
  let '(m', rs) := run_calls run_call m cs in
  map_ok hash equals m' /\ (abs_map m', rs) = run_calls spec_call (abs_map m) cs.
Proof.
  induction cs as [|c cs IH]; intros m Hm Hsz; cbn [run_calls]; [done|].
  assert (blen (c :: cs) = blen cs + 1) as Hl by (unfold blen; cbn [length]; lia).
  pose proof (blen_nonneg cs). pose proof (call_refines m c Hm ltac:(lia)) as Hc.
  destruct (run_call m c) as [m1 r]. destruct Hc as (Hm1 & Hs1 & Hc). rewrite <- Hc.
  specialize (IH m1 Hm1 ltac:(lia)). destruct (run_calls run_call m1 cs) as [m2 rs]. destruct IH as [Hm2 IH].
  rewrite <- IH. done.
Qed.

(** C32.  A hash map is a finite map: whatever calls follow [hashmapCreate],
    however often the table grows, and whichever allocations fail, each call
    returns what the same call returns on a finite map keyed by what [equals]
    compares. *)
Theorem hashmap_refines_gmap cs malloc_ok calloc_ok cap m :
  0 <= cap < 2 ^ 62 -> blen cs < 2 ^ 64 -> hashmapCreate malloc_ok calloc_ok cap = Done (Some m) ->
  (run_calls run_call m cs).2 = (run_calls spec_call ∅ cs).2.
Proof.
  intros Hcap Hcs Hm. destruct (hashmapCreate_ok (V := V) hash equals malloc_ok calloc_ok cap Hcap) as (r & Hr & Hok).
  rewrite Hr in Hm. injection Hm as ->. destruct Hok as (Hok & He & Hs & _).
  pose proof (calls_refine cs m Hok ltac:(lia)) as H1. destruct (run_calls run_call m cs) as [m' rs].
  destruct H1 as [_ H1]. unfold abs_map at 2 in H1. rewrite He in H1. cbn in H1. by rewrite <- H1.
Qed.

(** *** Iteration *)

(** Visit a list until the callback says stop. *)
Fixpoint visit {C} (callback : K -> V -> C -> C * bool) (l : list (K * V)) (ctx : C) : C :=
  match l with
  | [] => ctx
  | (k, v) :: l => let '(ctx, go) := callback k v ctx in if go then visit callback l ctx else ctx
  end.

Lemma each_loop_visit {C} (callback : K -> V -> C -> C * bool) c : forall ctx rest,
  visit callback (((fun e => (key e, value e)) <$> c) ++ rest) ctx =
    (let '(ctx, go) := each_loop callback c ctx in if go then visit callback rest ctx else ctx).
Proof.
  induction c as [|e c IH]; intros ctx rest; [done|]. cbn. destruct (callback (key e) (value e) ctx) as [ctx' []]; [|done].
  apply IH.
Qed.

Lemma forEach_visit {C} (callback : K -> V -> C -> C * bool) bs : forall ctx,
  hashmapForEach_loop callback bs ctx = visit callback ((fun e => (key e, value e)) <$> mjoin bs) ctx.
Proof.
  induction bs as [|c bs IH]; intros ctx; [done|]. change (mjoin (c :: bs)) with (c ++ mjoin bs).
  rewrite fmap_app, each_loop_visit. cbn [hashmapForEach_loop].
  destruct (each_loop callback c ctx) as [ctx' []]; cbn [negb]; [apply IH|done].
Qed.

(**  [hashmapForEach] calls the callback once for each binding of the map,
    in some order, up to the first call that returns false. *)
Theorem hashmapForEach_visits {C} m (callback : K -> V -> C -> C * bool) ctx :
  map_ok hash equals m ->
  exists l, (fun kv => (abs kv.1, kv.2)) <$> l ≡ₚ map_to_list (abs_map m) /\
    hashmapForEach m callback ctx = visit callback l ctx.
Proof.
  intros Hm. exists ((fun e => (key e, value e)) <$> entries m). split; [|apply forEach_visit].
  rewrite <- list_fmap_compose. unfold abs_map.
  rewrite map_to_list_to_map by (apply bindings_NoDup, (mo_uniq _ _ _ Hm)). done.
Qed.
End Refinement.

(** ** Load factor and collisions *)
Section Load.
Context {K V : Type} `{EqDecision K} (hash : K -> Z) (equals : K -> K -> bool) (null : V).
Context `{!KeyContract hash equals}.

Lemma capacity_pow b : 0 <= b < 60 -> u64 (2 ^ b * 3) / 4 = 2 ^ b * 3 / 4.
Proof.
  intros Hb. unfold u64. rewrite Z.mod_small; [done|]. pose proof (Z.pow_pos_nonneg 2 b).
  pose proof (Z.pow_le_mono_r 2 b 60). lia.
Qed.

Lemma expand_load (m : Hashmap K V) : (exists b, 0 <= b < 59 /\ bucketCount m = 2 ^ b) ->
  size m <= bucketCount m * 3 / 4 + 1 ->
  size (expandIfNecessary true m) <= hashmapCurrentCapacity (expandIfNecessary true m).
Proof.
  intros (b & Hb & Hc) Hs. unfold expandIfNecessary, hashmapCurrentCapacity. rewrite Hc, capacity_pow in * by lia.
  destruct (Z.ltb_spec (2 ^ b * 3 / 4) (size m)) as [Hlt|Hle]; [|rewrite Hc, capacity_pow by lia; done].
  assert (u64 (Z.shiftl (2 ^ b) 1) = 2 ^ (b + 1)) as ->.
  { rewrite Z.shiftl_mul_pow2, Z.pow_add_r by lia. change (2 ^ 1) with 2. apply Z.mod_small.
    pose proof (Z.pow_pos_nonneg 2 b). pose proof (Z.pow_lt_mono_r 2 b 60). lia. }
  assert (Hcal : calloc_pointers true (2 ^ (b + 1)) = true).
  { unfold calloc_pointers. cbn [andb]. apply Z.ltb_lt. pose proof (Z.pow_lt_mono_r 2 (b + 1) 60). lia. }
  rewrite Hcal. cbn [negb size bucketCount]. rewrite capacity_pow by lia. rewrite Z.pow_add_r by lia. change (2 ^ 1) with 2.
  pose proof (Z.pow_pos_nonneg 2 b ltac:(lia) ltac:(lia)). set (x := 2 ^ b) in *. clearbody x.
  apply Z.div_le_lower_bound; [lia|]. pose proof (Z.div_mod (x * 3) 4). pose proof (Z.mod_pos_bound (x * 3) 4). lia.
Qed.

(**  The load factor: while memory lasts, a put keeps the number of
    entries within three quarters of the number of buckets. *)
Theorem hashmapPut_load_factor malloc_ok m k v :
  map_ok hash equals m -> bucketCount m < 2 ^ 59 -> size m <= hashmapCurrentCapacity m ->
  let m' := (hashmapPut hash equals null malloc_ok true m k v).1 in size m' <= hashmapCurrentCapacity m'.
Proof.
  intros Hm Hbc Hs. destruct (mo_count _ _ _ Hm) as (b & Hb & Hc). unfold hashmapPut.
  destruct (replace_loop _ _ _ _ _) as [[c old]|]; [exact Hs|]. destruct malloc_ok; cbn [negb fst]; [|exact Hs].
  unfold hashmapCurrentCapacity in Hs. rewrite Hc, capacity_pow in Hs by lia. unfold add_entry. apply expand_load.
  - exists b. split; [|done]. split; [lia|]. apply (Z.pow_lt_mono_r_iff 2); lia.
  - cbn [set_chain size bucketCount]. rewrite Hc. pose proof (mo_size _ _ _ Hm). pose proof (blen_nonneg (entries m)).
    unfold u64. pose proof (Z.mod_le (size m + 1) (2 ^ 64)). lia.
Qed.

Lemma chain_collisions_ok (c : list (Entry K V)) : forall n, 0 <= n -> n + blen c < 2 ^ 64 ->
  chain_collisions c n = n + blen c - (if bool_decide (c = []) then 0 else 1).
Proof.
  induction c as [|e c IH]; intros n Hn Hlt; cbn [chain_collisions]; [rewrite bool_decide_true by done; unfold blen; cbn [length]; lia|].
  rewrite bool_decide_false by done. assert (blen (e :: c) = blen c + 1) as Hl by (unfold blen; cbn [length]; lia).
  pose proof (blen_nonneg c). destruct c as [|e' c]; [cbn [chain_collisions]; unfold blen; cbn [length]; lia|].
  unfold u64. rewrite Z.mod_small, IH, bool_decide_false by (done || lia). lia.
Qed.

Lemma collisions_ok (bs : list (list (Entry K V))) : forall n, 0 <= n -> n + blen (mjoin bs) < 2 ^ 64 ->
  foldl (fun n c => chain_collisions c n) n bs = n + blen (mjoin bs) - blen (filter (fun c => c <> []) bs).
Proof.
  induction bs as [|c bs IH]; intros n Hn Hlt; cbn [foldl]; [unfold blen; cbn [mjoin list_join length filter list_filter]; lia|].
  change (mjoin (c :: bs)) with (c ++ mjoin bs) in *. rewrite blen_app in *. pose proof (blen_nonneg (mjoin bs)).
  pose proof (blen_nonneg c). rewrite chain_collisions_ok by lia. rewrite filter_cons. case_bool_decide as Hc.
  - subst. rewrite decide_False by (intros []; done). rewrite IH by lia. cbn. lia.
  - rewrite decide_True by done. assert (0 < blen c) by (destruct c; [done|unfold blen; cbn [length]; lia]).
    rewrite IH by lia. assert (forall l : list (list (Entry K V)), blen (c :: l) = blen l + 1) as -> by (intros l; unfold blen; cbn [length]; lia). lia.
Qed.

(**  [hashmapCountCollisions] counts the entries that share a bucket with
    an earlier one: all entries but one per occupied bucket. *)
Theorem hashmapCountCollisions_correct (m : Hashmap K V) : map_ok hash equals m ->
  hashmapCountCollisions m = size m - blen (filter (fun c => c <> []) (buckets m)).
Proof.
  intros Hm. pose proof (mo_size _ _ _ Hm) as Hs. pose proof (mo_range _ _ _ Hm). unfold entries in Hs.
  unfold hashmapCountCollisions. rewrite collisions_ok by lia. lia.
Qed.
End Load.

(** ** Integer keys *)
Module HashmapWitnesses.

(** Keys are the addresses 0, 1, 2, ... of a memory of integers. *)
Definition mem (p : nat) : Z := nth p [5; 7; 5; -3; 12; 1; 2] 0.

Abbreviation ihash := (hashmapIntHash mem).
Abbreviation iequals := (hashmapIntEquals mem).

Lemma mem_spec a b : iequals a b = bool_decide (mem a = mem b).
Proof. unfold hashmapIntEquals. case_bool_decide; lia. Qed.

Definition session : list (call (K := nat) (V := Z)) :=
  [Put true true 0%nat 10; Put true true 1%nat 11; Put true true 2%nat 12; Get 0%nat; Size; Put false true 3%nat 13;
   ContainsKey 3%nat; Put true false 4%nat 14; Put true true 5%nat 15; Memoize true true 6%nat 16; Remove 2%nat;
   Get 0%nat; Get 4%nat; Size].

Definition session_results : list (result (V := Z)) :=
  [Pointer 0; Pointer 0; Pointer 10; Pointer 12; Number 2; Pointer 0; Boolean false; Pointer 0; Pointer 0; Pointer 16;
   Pointer 12; Pointer 0; Pointer 14; Number 4].

Definition fresh : Hashmap nat Z := mk_map [[]; []] 2 0.

Definition grown : Hashmap nat Z := (run_calls (run_call ihash iequals 0) fresh session).1.

Lemma grown_ok : map_ok ihash iequals grown.
Proof.
  split.
  - exists 3. split; [lia|]. vm_compute. reflexivity.
  - vm_compute. reflexivity.
  - intros i c Hi. destruct i as [|[|[|[|[|[|[|[|i]]]]]]]]; vm_compute in Hi; try discriminate; injection Hi as <-;
      repeat constructor.
  - vm_compute. repeat constructor.
  - vm_compute. reflexivity.
  - vm_compute. reflexivity.
Qed.

Lemma hashmap_refines_gmap_witness :
  (run_calls (run_call ihash iequals 0) fresh session).2 = session_results /\
  (run_calls (spec_call 0 mem) (∅ : gmap Z Z) session).2 = session_results.
Proof.
  assert (H : (run_calls (run_call ihash iequals 0) fresh session).2 =
    (run_calls (spec_call 0 mem) (∅ : gmap Z Z) session).2).
  { apply (hashmap_refines_gmap ihash iequals 0 mem mem_spec session true true 1 fresh); [lia|reflexivity|reflexivity]. }
  rewrite <- H. split; vm_compute; reflexivity.
Defined.

Lemma hashmapForEach_visits_witness :
  exists l, (fun kv => (mem kv.1, kv.2)) <$> l ≡ₚ map_to_list (abs_map (A := Z) mem grown) /\
    hashmapForEach grown (fun _ v n => (n + v, true)) 0 = visit (fun _ v n => (n + v, true)) l 0.
Proof.
  exact (hashmapForEach_visits ihash iequals mem mem_spec grown (fun _ v n => (n + v, true)) 0 grown_ok).
Defined.

Lemma hashmapPut_load_factor_witness :
  let m' := (hashmapPut ihash iequals 0 true true grown 3%nat 99).1 in size m' <= hashmapCurrentCapacity m'.
Proof.
  apply (hashmapPut_load_factor ihash iequals 0 true grown 3%nat 99 grown_ok); vm_compute; [reflexivity|discriminate].
Defined.

Lemma hashmapCountCollisions_correct_witness :
  hashmapCountCollisions grown = 4 - blen (filter (fun c => c <> []) (buckets grown)).
Proof. exact (hashmapCountCollisions_correct ihash iequals grown grown_ok). Defined.
End HashmapWitnesses.
