(* ===== verification/Utf.v ===== *)
(** * UTF-8 and UTF-16 (libcutils strdup16to8.c, strdup8to16.c)

    Java's modified UTF-8: each UTF-16 unit on its own, zero as two bytes.  A
    pointer into a string is the memory from there on, a list of bytes; reading
    behind its end is [OutOfBounds].  UTF-16 units are 16-bit numbers; the
    output of the copying functions is the list of what they store. *)
From S2P Require Import Prelude.

Definition SIZE_MAX : Z := 2 ^ 64 - 1.

(** ** UTF-16 to UTF-8 *)

(** What one unit adds to the length. *)
Definition unit_len (uic : Z) : Z :=
  if 0x07ff <? uic then 3 else if (0x7f <? uic) || (uic =? 0) then 2 else 1.

Fixpoint len_fast (units : list Z) (utf8Len : Z) : Z :=
  match units with
  | [] => utf8Len
  | uic :: units => len_fast units (u64 (utf8Len + unit_len uic))
  end.

Fixpoint len_paranoid (units : list Z) (utf8Len : Z) : Z :=
  match units with
  | [] => if utf8Len =? SIZE_MAX then SIZE_MAX - 1 else utf8Len
  | uic :: units =>
      let utf8Cur := utf8Len in
      let utf8Len := u64 (utf8Len + unit_len uic) in
      if utf8Len <? utf8Cur then SIZE_MAX - 1 else len_paranoid units utf8Len
  end.

(** [units] are the [len] units of the string. *)
Definition strnlen16to8 (units : list Z) : Z :=
  if blen units <? (SIZE_MAX - 1) / 3 then len_fast units 0 else len_paranoid units 0.

Definition char_of (x : Z) : byte := byte_of_Z (u8 x).

(** The bytes stored, the terminating NUL included. *)
Fixpoint strncpy16to8 (units : list Z) : list byte :=
  match units with
  | [] => [Init.Byte.x00]
  | uic :: units =>
      if 0x07ff <? uic then
        char_of (Z.lor (Z.shiftr uic 12) 0xe0) ::
        char_of (Z.lor (Z.land (Z.shiftr uic 6) 0x3f) 0x80) ::
        char_of (Z.lor (Z.land uic 0x3f) 0x80) :: strncpy16to8 units
      else if (0x7f <? uic) || (uic =? 0) then
        char_of (Z.lor (Z.shiftr uic 6) 0xc0) ::
        char_of (Z.lor (Z.land uic 0x3f) 0x80) :: strncpy16to8 units
      else if uic =? 0 then [char_of uic; Init.Byte.x00]
      else char_of uic :: strncpy16to8 units
  end.

(** [None] is the null pointer; the copy must fit the [len + 1] bytes. *)
Definition strndup16to8 (malloc_ok : bool) (s : option (list Z)) : outcome (option (list byte)) :=
  match s with
  | None => Done None
  | Some units =>
      let len := strnlen16to8 units in
      if SIZE_MAX - 1 <=? len then Done None else
      if negb malloc_ok then Done None else
      let ret := strncpy16to8 units in
      if len + 1 <? blen ret then Crash BufferOverflow else Done (Some ret)
  end.

(** ** UTF-8 to UTF-16 *)

Definition UTF16_REPLACEMENT_CHAR : Z := 0xfffd.
Definition UNICODE_UPPER_LIMIT : Z := 0x10fffd.

(** On a [char] promoted to [int]. *)
Definition UTF8_SEQ_LENGTH (ch : Z) : Z :=
  Z.land (Z.shiftr 0xe5000000 (Z.land (Z.shiftr ch 3) 0x1e)) 3 + 1.

Definition UTF8_SHIFT_AND_MASK (unicode b : Z) : Z := Z.lor (u32 (Z.shiftl unicode 6)) (Z.land 0x3f b).

(** The masks are [char]s as well: [0xff] is -1. *)
Definition leaderMask (i : Z) : Z := nth (Z.to_nat i) [-1; 0x1f; 0x0f; 0x07] 0.

(** A [char] read as [int]. *)
Definition char_val (b : byte) : Z := s8 (byte_to_Z b).

(** [strlen8to16]: up to the NUL. *)
Fixpoint strlen8to16_loop (mem : list byte) (len expected : Z) : outcome Z :=
  match mem with
  | [] => Crash OutOfBounds
  | b :: mem =>
      let ic := char_val b in
      if ic =? 0 then Done len
      else if Z.land ic 0xc0 =? 0x80 then
        let expected := expected - 1 in
        strlen8to16_loop mem (if expected <? 0 then u64 (len + 1) else len) expected
      else
        let expected := UTF8_SEQ_LENGTH ic - 1 in
        strlen8to16_loop mem (if expected =? 3 then u64 (u64 (len + 1) + 1) else u64 (len + 1)) expected
  end.

Definition strlen8to16 (utf8Str : list byte) : outcome Z := strlen8to16_loop utf8Str 0 0.

(** The loop over the [seq_len - 1] bytes behind the lead byte. *)
Fixpoint sequence_loop (n : nat) (ret : Z) (mem : list byte) : outcome (list byte * Z) :=
  match n with
  | O => Done (mem, ret)
  | S n =>
      match mem with
      | [] => Crash OutOfBounds
      | b :: rest =>
          if char_val b =? 0 then Done (mem, UTF16_REPLACEMENT_CHAR)
          else if negb (Z.land (char_val b) 0xc0 =? 0x80) then Done (mem, UTF16_REPLACEMENT_CHAR)
          else sequence_loop n (UTF8_SHIFT_AND_MASK ret (char_val b)) rest
      end
  end.

(** The pointer afterwards and the character. *)
Definition getUtf32FromUtf8 (mem : list byte) : outcome (list byte * Z) :=
  match mem with
  | [] => Crash OutOfBounds
  | b :: rest =>
      let ch := char_val b in
      if Z.land ch 0xc0 =? 0x80 then Done (rest, UTF16_REPLACEMENT_CHAR) else
      let seq_len := UTF8_SEQ_LENGTH ch in
      let ret := u32 (Z.land ch (leaderMask (seq_len - 1))) in
      if ch =? 0 then Done (mem, ret) else
      sequence_loop (Z.to_nat (seq_len - 1)) ret rest
  end.

(** The units stored for a character. *)
Definition store_char (ret : Z) : list Z :=
  if ret <=? 0xffff then [u16 ret]
  else if ret <=? UNICODE_UPPER_LIMIT then
    [u16 (Z.lor 0xd800 (Z.shiftr (u32 (ret - 0x10000)) 10)); u16 (Z.lor 0xdc00 (Z.land (u32 (ret - 0x10000)) 0x3ff))]
  else [UTF16_REPLACEMENT_CHAR].

(** The loop up to the NUL. *)
Fixpoint strcpy8to16_loop (fuel : nat) (mem : list byte) : outcome (list Z) :=
  match mem with
  | [] => Crash OutOfBounds
  | b :: _ =>
      if char_val b =? 0 then Done [] else
      match fuel with
      | O => Crash OutOfFuel
      | S fuel =>
          let! (mem, ret) := getUtf32FromUtf8 mem in
          let! out := strcpy8to16_loop fuel mem in
          Done (store_char ret ++ out)
      end
  end.

Definition strcpy8to16 (utf8Str : list byte) : outcome (list Z) := strcpy8to16_loop (length utf8Str) utf8Str.

(** [while (utf8Str < end)]: [remaining] is [end - utf8Str]. *)
Fixpoint strcpylen8to16_loop (fuel : nat) (mem : list byte) (remaining : Z) : outcome (list Z) :=
  if remaining <=? 0 then Done [] else
  match fuel with
  | O => Crash OutOfFuel
  | S fuel =>
      let! (rest, ret) := getUtf32FromUtf8 mem in
      let! out := strcpylen8to16_loop fuel rest (remaining - (blen mem - blen rest)) in
      Done (store_char ret ++ out)
  end.

Definition strcpylen8to16 (fuel : nat) (utf8Str : list byte) (len : Z) : outcome (list Z) :=
  strcpylen8to16_loop fuel utf8Str len.

(** The result of [malloc] is not tested: without memory the copy goes to the
    null pointer. *)
Definition strdup8to16 (malloc_ok : bool) (s : option (list byte)) : outcome (option (list Z)) :=
  match s with
  | None => Done None
  | Some s =>
      let! len := strlen8to16 s in
      if negb (len =? 0) && (SIZE_MAX / len <? 2) then Done None else
      let! ret := strcpy8to16 s in
      if negb malloc_ok then (match ret with [] => Done None | _ => Crash NullDeref end) else
      if len <? blen ret then Crash BufferOverflow else Done (Some ret)
  end.
