(* ===== verification/UtfCorrect.v ===== *)
(** * UTF conversion: exact lengths, no overflow, round trips *)
From S2P Require Import Prelude Utf.

Lemma is_u16_u16 x : is_u16 x -> u16 x = x.
Proof. apply Z.mod_small. Qed.

Lemma char_of_val x : 0 <= x < 2 ^ 8 -> byte_to_Z (char_of x) = x.
Proof.
  intros H. unfold char_of, u8. rewrite Byte.byte.unsigned_of_Z. unfold Byte.byte.wrap.
  rewrite Z.mod_mod by lia. apply Z.mod_small. done.
Qed.

(** ** Bytes by their leading bits *)

(** What the code computes from a byte of each class. *)
Definition class_ok (v : Z) : bool :=
  let ch := s8 v in
  let cont := Z.land ch 0xc0 =? 0x80 in
  if v <? 1 then (ch =? 0) && negb cont && (UTF8_SEQ_LENGTH ch =? 1)
  else if v <? 0x80 then negb (ch =? 0) && negb cont && (UTF8_SEQ_LENGTH ch =? 1) && (Z.land ch (-1) =? v)
  else if v <? 0xc0 then negb (ch =? 0) && cont && (Z.land 0x3f ch =? v - 0x80)
  else if v <? 0xe0 then negb (ch =? 0) && negb cont && (UTF8_SEQ_LENGTH ch =? 2) && (Z.land ch 0x1f =? v - 0xc0)
  else if v <? 0xf0 then negb (ch =? 0) && negb cont && (UTF8_SEQ_LENGTH ch =? 3) && (Z.land ch 0x0f =? v - 0xe0)
  else negb (ch =? 0) && negb cont && (UTF8_SEQ_LENGTH ch =? 4) && (Z.land ch 0x07 =? v mod 8).

Lemma class_all v : 0 <= v < 2 ^ 8 -> class_ok v = true.
Proof. apply by_bytes. vm_compute. reflexivity. Qed.

(** [class b] opens the facts of byte [b], whose range [lia] knows. *)
Ltac class b :=
  let H := fresh "Hcl" in
  pose proof (class_all (byte_to_Z b) (Byte.byte.unsigned_range b)) as H;
  unfold class_ok in H; fold (char_val b) in H;
  repeat match type of H with context [?x <? ?y] =>
    first [rewrite (proj2 (Z.ltb_lt x y)) in H by lia | rewrite (proj2 (Z.ltb_ge x y)) in H by lia] end;
  rewrite ?andb_true_iff, ?negb_true_iff, ?Z.eqb_eq, ?Z.eqb_neq in H.

Definition is_cont (b : byte) : Prop := 0x80 <= byte_to_Z b < 0xc0.

Lemma sequence_cont n ret b rest : is_cont b -> 0 <= ret < 2 ^ 26 ->
  sequence_loop (S n) ret (b :: rest) = sequence_loop n (2 ^ 6 * ret + (byte_to_Z b - 0x80)) rest.
Proof.
  intros Hb Hr. unfold is_cont in Hb. class b. destruct Hcl as [[H1 H2] H3]. cbn [sequence_loop].
  rewrite (proj2 (Z.eqb_neq _ _) H1), H2, Z.eqb_refl. cbn [negb]. f_equal. unfold UTF8_SHIFT_AND_MASK.
  rewrite H3, Z.shiftl_mul_pow2, (Z.mul_comm ret) by lia. unfold u32. rewrite Z.mod_small by lia. apply lor_low; lia.
Qed.

(** Lead bytes. *)
Lemma get_ascii b rest : 1 <= byte_to_Z b < 0x80 -> getUtf32FromUtf8 (b :: rest) = Done (rest, byte_to_Z b).
Proof.
  intros Hb. class b. destruct Hcl as [[[H1 H2] H3] H4]. unfold getUtf32FromUtf8.
  rewrite (proj2 (Z.eqb_neq _ _) H1), (proj2 (Z.eqb_neq _ _) H2), H3. change (leaderMask (1 - 1)) with (-1). rewrite H4.
  cbn [Z.to_nat sequence_loop Z.sub Z.add Z.opp Z.pos_sub]. unfold u32. rewrite Z.mod_small by lia. done.
Qed.

Lemma get_lead b rest seq_len base :
  (0xc0 <= byte_to_Z b < 0xe0 /\ seq_len = 2%nat /\ base = 0xc0) \/
  (0xe0 <= byte_to_Z b < 0xf0 /\ seq_len = 3%nat /\ base = 0xe0) \/
  (0xf0 <= byte_to_Z b < 0xf8 /\ seq_len = 4%nat /\ base = 0xf0) ->
  getUtf32FromUtf8 (b :: rest) = sequence_loop (seq_len - 1) (byte_to_Z b - base) rest.
Proof.
  intros Hb. unfold getUtf32FromUtf8.
  destruct Hb as [(Hb & -> & ->)|[(Hb & -> & ->)|(Hb & -> & ->)]]; class b; destruct Hcl as [[[H1 H2] H3] H4];
    rewrite (proj2 (Z.eqb_neq _ _) H1), (proj2 (Z.eqb_neq _ _) H2), H3.
  - change (leaderMask (2 - 1)) with 0x1f. rewrite H4. unfold u32. by rewrite Z.mod_small by lia.
  - change (leaderMask (3 - 1)) with 0x0f. rewrite H4. unfold u32. by rewrite Z.mod_small by lia.
  - change (leaderMask (4 - 1)) with 0x07. rewrite H4. unfold u32. pose proof (Z.mod_pos_bound (byte_to_Z b) 8). rewrite Z.mod_small by lia.
    f_equal. symmetry. apply (Zmod_unique _ _ 30); lia.
Qed.

(** ** Encodings of one character *)

Definition enc2 (c : Z) : list byte := [char_of (0xc0 + c / 2 ^ 6); char_of (0x80 + c mod 2 ^ 6)].
Definition enc3 (c : Z) : list byte :=
  [char_of (0xe0 + c / 2 ^ 12); char_of (0x80 + (c / 2 ^ 6) mod 2 ^ 6); char_of (0x80 + c mod 2 ^ 6)].
Definition enc4 (c : Z) : list byte :=
  [char_of (0xf0 + c / 2 ^ 18); char_of (0x80 + (c / 2 ^ 12) mod 2 ^ 6); char_of (0x80 + (c / 2 ^ 6) mod 2 ^ 6);
   char_of (0x80 + c mod 2 ^ 6)].

(** Java's encoding of a UTF-16 unit, and the UTF-8 of a Unicode character. *)
Definition mutf8 (u : Z) : list byte :=
  if (1 <=? u) && (u <=? 0x7f) then [char_of u] else if u <=? 0x7ff then enc2 u else enc3 u.
Definition utf8 (c : Z) : list byte :=
  if c <=? 0x7f then [char_of c] else if c <=? 0x7ff then enc2 c else if c <=? 0xffff then enc3 c else enc4 c.
(** The UTF-16 of a Unicode character. *)
Definition utf16 (c : Z) : list Z :=
  if c <=? 0xffff then [c] else [0xd800 + (c - 0x10000) / 2 ^ 10; 0xdc00 + (c - 0x10000) mod 2 ^ 10].

Lemma div_range c n m : 0 <= c < 2 ^ (n + m) -> 0 <= n -> 0 <= m -> 0 <= c / 2 ^ n < 2 ^ m.
Proof.
  intros Hc Hn Hm. rewrite Z.pow_add_r in Hc by done. split; [apply Z.div_pos; lia|].
  apply Z.div_lt_upper_bound; lia.
Qed.

Lemma low6 c : 0 <= c mod 2 ^ 6 < 2 ^ 6.
Proof. apply Z.mod_pos_bound. lia. Qed.

Lemma split6 c n : 0 <= n -> c / 2 ^ n = 2 ^ 6 * (c / 2 ^ (n + 6)) + (c / 2 ^ n) mod 2 ^ 6.
Proof. intros Hn. rewrite Z.pow_add_r, <- Z.div_div by lia. apply Z.div_mod. lia. Qed.

Lemma get_enc2 c rest : 0 <= c < 2 ^ 11 -> getUtf32FromUtf8 (enc2 c ++ rest) = Done (rest, c).
Proof.
  intros Hc. pose proof (div_range c 6 5 Hc) as H1. pose proof (low6 c). pose proof (split6 c 0 ltac:(lia)) as E0.
  rewrite Z.pow_0_r, Z.div_1_r in E0. change (0 + 6) with 6 in E0. cbn [enc2 app].
  rewrite (get_lead _ _ 2 0xc0) by (left; rewrite char_of_val by lia; lia). cbn [Nat.sub].
  rewrite sequence_cont by (unfold is_cont; rewrite ?char_of_val by lia; lia). cbn [sequence_loop].
  rewrite !char_of_val by lia. do 2 f_equal. lia.
Qed.

Lemma get_enc3 c rest : 0 <= c < 2 ^ 16 -> getUtf32FromUtf8 (enc3 c ++ rest) = Done (rest, c).
Proof.
  intros Hc. pose proof (div_range c 12 4 Hc) as H1. pose proof (low6 c). pose proof (low6 (c / 2 ^ 6)).
  pose proof (split6 c 0 ltac:(lia)) as E0. pose proof (split6 c 6 ltac:(lia)) as E1.
  rewrite Z.pow_0_r, Z.div_1_r in E0. change (0 + 6) with 6 in E0. change (6 + 6) with 12 in E1. cbn [enc3 app].
  rewrite (get_lead _ _ 3 0xe0) by (right; left; rewrite char_of_val by lia; lia). cbn [Nat.sub].
  rewrite !sequence_cont by (unfold is_cont; rewrite ?char_of_val by lia; lia). cbn [sequence_loop].
  rewrite !char_of_val by lia. do 2 f_equal. lia.
Qed.

Lemma get_enc4 c rest : 0 <= c < 2 ^ 21 -> getUtf32FromUtf8 (enc4 c ++ rest) = Done (rest, c).
Proof.
  intros Hc. pose proof (div_range c 18 3 Hc) as H1. pose proof (low6 c). pose proof (low6 (c / 2 ^ 6)).
  pose proof (low6 (c / 2 ^ 12)). pose proof (split6 c 0 ltac:(lia)) as E0. pose proof (split6 c 6 ltac:(lia)) as E1.
  pose proof (split6 c 12 ltac:(lia)) as E2. rewrite Z.pow_0_r, Z.div_1_r in E0. change (0 + 6) with 6 in E0.
  change (6 + 6) with 12 in E1. change (12 + 6) with 18 in E2. cbn [enc4 app].
  rewrite (get_lead _ _ 4 0xf0) by (right; right; rewrite char_of_val by lia; lia). cbn [Nat.sub].
  rewrite !sequence_cont by (unfold is_cont; rewrite ?char_of_val by lia; lia). cbn [sequence_loop].
  rewrite !char_of_val by lia. do 2 f_equal. lia.
Qed.

Lemma get_mutf8 u rest : is_u16 u -> getUtf32FromUtf8 (mutf8 u ++ rest) = Done (rest, u).
Proof.
  intros Hu. unfold is_u16 in Hu. unfold mutf8.
  destruct (Z.leb_spec 1 u), (Z.leb_spec u 0x7f); cbn [andb];
    [cbn [app]; rewrite get_ascii by (rewrite char_of_val by lia; lia); by rewrite char_of_val by lia| | |];
    (destruct (Z.leb_spec u 0x7ff); [apply get_enc2; lia|apply get_enc3; lia]).
Qed.

Lemma get_utf8 c rest : 1 <= c < 2 ^ 21 -> getUtf32FromUtf8 (utf8 c ++ rest) = Done (rest, c).
Proof.
  intros Hc. unfold utf8. destruct (Z.leb_spec c 0x7f).
  { cbn [app]. rewrite get_ascii by (rewrite char_of_val by lia; lia); by rewrite char_of_val by lia. }
  destruct (Z.leb_spec c 0x7ff); [apply get_enc2; lia|].
  destruct (Z.leb_spec c 0xffff); [apply get_enc3; lia|apply get_enc4; lia].
Qed.

(** What [strncpy16to8] stores for a unit. *)
Lemma strncpy16to8_cons u us : is_u16 u -> strncpy16to8 (u :: us) = mutf8 u ++ strncpy16to8 us.
Proof.
  intros Hu. unfold is_u16 in Hu. pose proof (low6 u). pose proof (low6 (u / 2 ^ 6)).
  assert (Hl : forall x, Z.land x 0x3f = x mod 2 ^ 6) by (intros x; apply (Z.land_ones x 6); lia).
  assert (H80 : forall x, 0 <= x < 2 ^ 6 -> Z.lor x 0x80 = 0x80 + x)
    by (intros x Hx; rewrite Z.lor_comm; apply (lor_low 2 x 6); lia).
  cbn [strncpy16to8]. unfold mutf8. rewrite !Hl, !Z.shiftr_div_pow2 by lia.
  destruct (Z.ltb_spec 0x07ff u).
  - zdec. cbn [andb app]. pose proof (div_range u 12 4). rewrite !H80 by lia.
    rewrite (Z.lor_comm _ 0xe0), (lor_low 14 _ 4) by lia. reflexivity.
  - destruct (Z.ltb_spec 0x7f u); cbn [orb].
    + zdec. cbn [andb app]. pose proof (div_range u 6 5). rewrite H80 by lia.
      rewrite (Z.lor_comm _ 0xc0), (lor_low 6 _ 5) by lia. reflexivity.
    + destruct (Z.eqb_spec u 0) as [->|]; [reflexivity|]. by zdec.
Qed.

(** ** Round trips *)

Lemma nonzero b : 1 <= byte_to_Z b -> char_val b =? 0 = false.
Proof.
  intros Hb. apply Z.eqb_neq. pose proof (Byte.byte.unsigned_range b) as Hr. unfold char_val, s8.
  rewrite (Z.mod_small (byte_to_Z b)) by lia. zcases; lia.
Qed.

Lemma copy_step fuel b mem rest c : 1 <= byte_to_Z b -> getUtf32FromUtf8 (b :: mem) = Done (rest, c) ->
  strcpy8to16_loop (S fuel) (b :: mem) = let! out := strcpy8to16_loop fuel rest in Done (store_char c ++ out).
Proof. intros Hb Hg. cbn [strcpy8to16_loop]. rewrite nonzero, Hg by done. reflexivity. Qed.

(** A code in which every character starts with a byte that is not NUL and is
    read back by [getUtf32FromUtf8] is copied character by character. *)
Lemma copy_code (enc : Z -> list byte) (ok : Z -> Prop) :
  (forall c, ok c -> exists b e, enc c = b :: e /\ 1 <= byte_to_Z b) ->
  (forall c rest, ok c -> getUtf32FromUtf8 (enc c ++ rest) = Done (rest, c)) ->
  forall cs junk fuel, Forall ok cs -> (length (mjoin (enc <$> cs)) <= fuel)%nat ->
    strcpy8to16_loop fuel (mjoin (enc <$> cs) ++ Init.Byte.x00 :: junk) = Done (mjoin (store_char <$> cs)).
Proof.
  intros Hhd Hget. induction cs as [|c cs IH]; intros junk fuel Hok Hf.
  { destruct fuel; reflexivity. }
  apply Forall_cons_1 in Hok as [Hc Hcs]. destruct (Hhd c Hc) as (b & e & He & Hb).
  change (mjoin (enc <$> c :: cs)) with (enc c ++ mjoin (enc <$> cs)) in *. rewrite He, length_app in Hf. cbn [length] in Hf.
  destruct fuel as [|fuel]; [lia|]. rewrite <- app_assoc. pose proof (Hget c (mjoin (enc <$> cs) ++ Init.Byte.x00 :: junk) Hc) as Hg.
  rewrite He in Hg |- *. cbn [app] in Hg |- *. rewrite (copy_step fuel b _ _ c Hb Hg), IH by (done || lia). reflexivity.
Qed.

Lemma mutf8_head u : is_u16 u -> exists b e, mutf8 u = b :: e /\ 1 <= byte_to_Z b.
Proof.
  intros Hu. unfold is_u16 in Hu. unfold mutf8, enc2, enc3. pose proof (div_range u 12 4). pose proof (div_range u 6 10).
  destruct (Z.leb_spec 1 u), (Z.leb_spec u 0x7f); cbn [andb];
    [eexists _, _; split; [reflexivity|rewrite char_of_val by lia; lia]| | |];
    (destruct (Z.leb_spec u 0x7ff); [pose proof (div_range u 6 5)|];
      (eexists _, _; split; [reflexivity|rewrite char_of_val by lia; lia])).
Qed.

Lemma utf8_head c : 1 <= c < 2 ^ 21 -> exists b e, utf8 c = b :: e /\ 1 <= byte_to_Z b.
Proof.
  intros Hc. unfold utf8, enc2, enc3, enc4.
  destruct (Z.leb_spec c 0x7f); [|destruct (Z.leb_spec c 0x7ff); [pose proof (div_range c 6 5)|
    destruct (Z.leb_spec c 0xffff); [pose proof (div_range c 12 4)|pose proof (div_range c 18 3)]]];
  (eexists _, _; split; [reflexivity|rewrite char_of_val by lia; lia]).
Qed.

Lemma strncpy16to8_join us : Forall is_u16 us -> strncpy16to8 us = mjoin (mutf8 <$> us) ++ [Init.Byte.x00].
Proof.
  induction 1 as [|u us Hu Hus IH]; [reflexivity|]. rewrite strncpy16to8_cons, IH by done.
  change (mjoin (mutf8 <$> u :: us)) with (mutf8 u ++ mjoin (mutf8 <$> us)). by rewrite app_assoc.
Qed.

Lemma store_unit us : Forall is_u16 us -> mjoin (store_char <$> us) = us.
Proof.
  induction 1 as [|u us Hu Hus IH]; [done|]. change (mjoin (store_char <$> u :: us)) with (store_char u ++ mjoin (store_char <$> us)).
  rewrite IH. unfold store_char. unfold is_u16 in Hu. zdec. cbn [app]. by rewrite is_u16_u16.
Qed.

(** C33.  Java strings survive: any sequence of UTF-16 units, zeros and lone
    surrogates included, comes back from [strcpy8to16] unchanged after
    [strncpy16to8], whatever follows the NUL in memory. *)
Theorem utf16_utf8_roundtrip us junk : Forall is_u16 us -> strcpy8to16 (strncpy16to8 us ++ junk) = Done us.
Proof.
  intros Hus. unfold strcpy8to16. rewrite strncpy16to8_join, <- app_assoc by done. cbn [app].
  rewrite (copy_code mutf8 is_u16 mutf8_head get_mutf8) by (done || rewrite length_app; lia).
  by rewrite store_unit.
Qed.

Lemma store_utf16 c : 1 <= c <= UNICODE_UPPER_LIMIT -> store_char c = utf16 c.
Proof.
  unfold UNICODE_UPPER_LIMIT. intros Hc. unfold store_char, utf16. destruct (Z.leb_spec c 0xffff).
  { by rewrite is_u16_u16 by (unfold is_u16; lia). }
  unfold UNICODE_UPPER_LIMIT, u32, u16. rewrite (Z.mod_small (c - 0x10000)) by lia. zdec.
  rewrite Z.shiftr_div_pow2, (Z.land_ones _ 10) by lia. pose proof (Z.mod_pos_bound (c - 0x10000) (2 ^ 10)).
  pose proof (div_range (c - 0x10000) 10 10 ltac:(lia)). rewrite (lor_low 54 _ 10), (lor_low 55 _ 10) by lia.
  rewrite !Z.mod_small by lia. reflexivity.
Qed.

(** C34.  Valid UTF-8 is decoded: for any sequence of Unicode characters up to
    U+10FFFD, in standard UTF-8, [strcpy8to16] stores their UTF-16, surrogate
    pairs for the characters above U+FFFF. *)
Theorem strcpy8to16_unicode cs junk : Forall (fun c => 1 <= c <= UNICODE_UPPER_LIMIT) cs ->
  strcpy8to16 (mjoin (utf8 <$> cs) ++ Init.Byte.x00 :: junk) = Done (mjoin (utf16 <$> cs)).
Proof.
  intros Hcs. unfold strcpy8to16.
  rewrite (copy_code utf8 (fun c => 1 <= c <= UNICODE_UPPER_LIMIT)); [|intros c Hc|intros c rest Hc|done|rewrite length_app; lia].
  - f_equal. f_equal. apply Forall_fmap_ext_1. eapply Forall_impl; [done|]. intros c. apply store_utf16.
  - apply utf8_head. unfold UNICODE_UPPER_LIMIT in Hc. lia.
  - apply get_utf8. unfold UNICODE_UPPER_LIMIT in Hc. lia.
Qed.

(** ** Lengths *)

Definition total_len (us : list Z) : Z := foldr (fun u n => unit_len u + n) 0 us.

Lemma unit_len_pos u : 1 <= unit_len u <= 3.
Proof. unfold unit_len. destruct (_ <? _); [lia|]. destruct (_ || _); lia. Qed.

Lemma total_len_bound us : blen us <= total_len us <= 3 * blen us.
Proof.
  induction us as [|u us IH]; cbn [total_len foldr]; [unfold blen; cbn [length]; lia|]. fold (total_len us). pose proof (unit_len_pos u).
  unfold blen in *. cbn [length]. lia.
Qed.

Lemma len_fast_ok us : forall n, 0 <= n -> n + total_len us < 2 ^ 64 -> len_fast us n = n + total_len us.
Proof.
  induction us as [|u us IH]; intros n Hn Hlt; cbn [len_fast total_len foldr] in *; [lia|]. fold (total_len us) in *.
  pose proof (unit_len_pos u). pose proof (total_len_bound us). pose proof (blen_nonneg us).
  unfold u64. rewrite Z.mod_small, IH by lia. lia.
Qed.

Lemma len_paranoid_ok us : forall n, 0 <= n <= SIZE_MAX ->
  len_paranoid us n = Z.min (n + total_len us) (SIZE_MAX - 1).
Proof.
  unfold SIZE_MAX. induction us as [|u us IH]; intros n Hn; cbn [len_paranoid total_len foldr].
  { destruct (Z.eqb_spec n SIZE_MAX) as [->|Hne]; unfold SIZE_MAX in *; lia. }
  fold (total_len us). pose proof (unit_len_pos u). pose proof (total_len_bound us). pose proof (blen_nonneg us).
  unfold u64. destruct (Z.lt_ge_cases (n + unit_len u) (2 ^ 64)).
  - rewrite Z.mod_small by lia. zdec. rewrite IH by lia. lia.
  - assert ((n + unit_len u) mod 2 ^ 64 = n + unit_len u - 2 ^ 64) as ->
      by (symmetry; apply (Zmod_unique _ _ 1); lia).
    zdec. unfold SIZE_MAX. lia.
Qed.

Lemma blen_strncpy16to8 us : Forall is_u16 us -> blen (strncpy16to8 us) = total_len us + 1.
Proof.
  induction 1 as [|u us Hu Hus IH]; [reflexivity|]. rewrite strncpy16to8_cons, blen_app, IH by done.
  cbn [total_len foldr]. fold (total_len us). enough (blen (mutf8 u) = unit_len u) by lia.
  unfold mutf8, unit_len, is_u16 in *. destruct (Z.ltb_spec 0x07ff u); [by zdec|].
  destruct (Z.ltb_spec 0x7f u); cbn [orb]; [by zdec|]. destruct (Z.eqb_spec u 0) as [->|]; [reflexivity|]. by zdec.
Qed.

Lemma strnlen16to8_total us : strnlen16to8 us = Z.min (total_len us) (SIZE_MAX - 1).
Proof.
  unfold strnlen16to8. pose proof (total_len_bound us). pose proof (blen_nonneg us).
  destruct (Z.ltb_spec (blen us) ((SIZE_MAX - 1) / 3)) as [Hlt|Hge].
  - assert (3 * ((SIZE_MAX - 1) / 3) <= SIZE_MAX - 1) by (apply Z.mul_div_le; lia). unfold SIZE_MAX in *.
    rewrite len_fast_ok by lia. lia.
  - rewrite len_paranoid_ok by (unfold SIZE_MAX; lia). lia.
Qed.

(**  [strnlen16to8] is exact: the number of bytes of the UTF-8 form,
    capped at [SIZE_MAX - 1]; neither path overflows. *)
Theorem strnlen16to8_exact us : Forall is_u16 us ->
  strnlen16to8 us = Z.min (blen (strncpy16to8 us) - 1) (SIZE_MAX - 1).
Proof. intros Hus. by rewrite blen_strncpy16to8, Z.add_simpl_r, strnlen16to8_total. Qed.

(** *** The buffer of [strdup8to16] *)

Definition contb (b : byte) : bool := (0x80 <=? byte_to_Z b) && (byte_to_Z b <? 0xc0).

(** The bytes of a sequence, by its lead byte. *)
Definition seq_len (b : byte) : Z :=
  let v := byte_to_Z b in if v <? 0xc0 then 1 else if v <? 0xe0 then 2 else if v <? 0xf0 then 3 else 4.

(** What [strlen8to16] counts from a byte on. *)
Fixpoint cnt (s : list byte) (expected : Z) : Z :=
  match s with
  | [] => 0
  | b :: s =>
      if contb b then (if expected - 1 <? 0 then 1 else 0) + cnt s (expected - 1)
      else (if seq_len b =? 4 then 2 else 1) + cnt s (seq_len b - 1)
  end.

Definition nz (b : byte) : Prop := b <> Init.Byte.x00.

Lemma nz_val b : nz b -> 1 <= byte_to_Z b.
Proof.
  intros Hb. pose proof (Byte.byte.unsigned_range b). destruct (Z.eq_dec (byte_to_Z b) 0) as [H0|]; [|lia].
  destruct Hb. by apply Byte.byte.unsigned_inj.
Qed.

(** What the code computes of a byte that is not NUL. *)
Lemma byte_facts b : nz b -> (Z.land (char_val b) 0xc0 =? 0x80) = contb b /\
  (contb b = false -> UTF8_SEQ_LENGTH (char_val b) = seq_len b /\
    0 <= Z.land (char_val b) (leaderMask (seq_len b - 1)) < 2 ^ (8 - (if seq_len b =? 1 then 1 else seq_len b + 1))).
Proof.
  intros Hb%nz_val. pose proof (Byte.byte.unsigned_range b) as Hr. unfold contb, seq_len.
  pose proof (Z.mod_pos_bound (byte_to_Z b) 8).
  assert (0x01 <= byte_to_Z b < 0x80 \/ 0x80 <= byte_to_Z b < 0xc0 \/ 0xc0 <= byte_to_Z b < 0xe0 \/
    0xe0 <= byte_to_Z b < 0xf0 \/ 0xf0 <= byte_to_Z b) as [Hv|[Hv|[Hv|[Hv|Hv]]]] by lia; class b; zdec; cbn [andb].
  - destruct Hcl as [[[_ H2] H3] H4]. split; [done|]. intros _. split; [done|].
    change (leaderMask (1 - 1)) with (-1). rewrite H4. cbn. lia.
  - destruct Hcl as [[_ H2] _]. split; done.
  - destruct Hcl as [[[_ H2] H3] H4]. split; [done|]. intros _. split; [done|].
    change (leaderMask (2 - 1)) with 0x1f. rewrite H4. cbn. lia.
  - destruct Hcl as [[[_ H2] H3] H4]. split; [done|]. intros _. split; [done|].
    change (leaderMask (3 - 1)) with 0x0f. rewrite H4. cbn. lia.
  - destruct Hcl as [[[_ H2] H3] H4]. split; [done|]. intros _. split; [done|].
    change (leaderMask (4 - 1)) with 0x07. rewrite H4. cbn. lia.
Qed.

Section Memory.
(** The memory behind the string: its NUL and whatever follows. *)
Context (junk : list byte).
Let z := Init.Byte.x00 :: junk.

Definition starts_cont (s : list byte) : bool := match s with [] => false | b :: _ => contb b end.

Lemma sequence_spec n : forall ret s k, Forall nz s -> 0 <= ret < 2 ^ k -> 0 <= k -> k + 6 * Z.of_nat n <= 32 ->
  exists cs s' r, s = cs ++ s' /\ sequence_loop n ret (s ++ z) = Done (s' ++ z, r) /\
    forallb contb cs = true /\ (length cs <= n)%nat /\
    ((length cs = n /\ 0 <= r < 2 ^ (k + 6 * Z.of_nat n)) \/ (r = UTF16_REPLACEMENT_CHAR /\ starts_cont s' = false)).
Proof.
  induction n as [|n IH]; intros ret s k Hs Hr Hk Hb.
  { exists [], s, ret. split_and!; try done. left. split; [done|]. by rewrite Z.add_0_r. }
  destruct s as [|b s]; cbn [app sequence_loop].
  { exists [], [], UTF16_REPLACEMENT_CHAR. split_and!; try (done || cbn; lia); by right. }
  apply Forall_cons_1 in Hs as [Hb0 Hs]. rewrite (nonzero b) by (by apply nz_val).
  destruct (byte_facts b Hb0) as [Hc _]. rewrite Hc. destruct (contb b) eqn:Hcb; cbn [negb].
  2: { exists [], (b :: s), UTF16_REPLACEMENT_CHAR. split_and!; try (done || cbn; lia). right. split; [done|]. exact Hcb. }
  assert (Hstep : UTF8_SHIFT_AND_MASK ret (char_val b) = 2 ^ 6 * ret + (byte_to_Z b - 0x80)).
  { unfold contb in Hcb. apply andb_true_iff in Hcb as [H1 H2]. apply Z.leb_le in H1. apply Z.ltb_lt in H2. class b.
    destruct Hcl as [_ H3]. unfold UTF8_SHIFT_AND_MASK. rewrite H3, Z.shiftl_mul_pow2, (Z.mul_comm ret) by lia.
    pose proof (Z.pow_le_mono_r 2 k 26). unfold u32. rewrite Z.mod_small by lia. apply lor_low; lia. }
  assert (Hnext : 0 <= UTF8_SHIFT_AND_MASK ret (char_val b) < 2 ^ (k + 6)).
  { rewrite Hstep, Z.pow_add_r by lia. unfold contb in Hcb. apply andb_true_iff in Hcb as [H1 H2].
    apply Z.leb_le in H1. apply Z.ltb_lt in H2. lia. }
  destruct (IH _ s (k + 6) Hs Hnext) as (cs & s' & r & -> & Hrun & Hf & Hl & Hor); [lia..|].
  exists (b :: cs), s', r. cbn [app forallb length]. rewrite Hcb, Hf. split; [done|]. split; [done|]. split; [done|]. split; [lia|].
  destruct Hor as [[Hl' Hr']|Hor]; [left|by right]. split; [lia|].
  by replace (k + 6 * Z.of_nat (S n)) with (k + 6 + 6 * Z.of_nat n) by lia.
Qed.

Lemma cnt_conts cs s e : forallb contb cs = true -> Z.of_nat (length cs) <= e ->
  cnt (cs ++ s) e = cnt s (e - Z.of_nat (length cs)).
Proof.
  revert e. induction cs as [|b cs IH]; intros e Hf He; cbn [app cnt forallb length] in *; [by rewrite Z.sub_0_r|].
  apply andb_true_iff in Hf as [-> Hf]. rewrite (proj2 (Z.ltb_ge (e - 1) 0)), IH by (done || lia).
  rewrite Z.add_0_l. f_equal. lia.
Qed.

Lemma strlen_cnt s : forall len e, Forall nz s -> 0 <= len -> len + 2 * blen s < 2 ^ 64 ->
  strlen8to16_loop (s ++ z) len e = Done (len + cnt s e) /\ 0 <= cnt s e <= 2 * blen s.
Proof.
  induction s as [|b s IH]; intros len e Hs Hlen Hlt; cbn [app strlen8to16_loop cnt].
  { cbn. by rewrite Z.add_0_r. }
  apply Forall_cons_1 in Hs as [Hb Hs]. rewrite (nonzero b) by (by apply nz_val).
  destruct (byte_facts b Hb) as [-> Hseq]. assert (blen (b :: s) = blen s + 1) as Hl by (unfold blen; cbn [length]; lia).
  pose proof (blen_nonneg s). destruct (contb b) eqn:Hc.
  - destruct (Z.ltb_spec (e - 1) 0).
    + unfold u64. rewrite Z.mod_small by lia. destruct (IH (len + 1) (e - 1) Hs) as [-> H1]; [lia..|]. split; [f_equal; lia|lia].
    + destruct (IH len (e - 1) Hs) as [-> H1]; [lia..|]. split; [f_equal; lia|lia].
  - destruct (Hseq eq_refl) as [-> _]. unfold u64.
    assert ((seq_len b - 1 =? 3) = (seq_len b =? 4)) as -> by (destruct (Z.eqb_spec (seq_len b) 4); lia).
    destruct (seq_len b =? 4); rewrite !Z.mod_small by (rewrite ?Z.mod_small by lia; lia).
    + destruct (IH (len + 1 + 1) (seq_len b - 1) Hs) as [-> H1]; [lia..|]. split; [f_equal; lia|lia].
    + destruct (IH (len + 1) (seq_len b - 1) Hs) as [-> H1]; [lia..|]. split; [f_equal; lia|lia].
Qed.

Lemma store_len r : 0 <= r -> blen (store_char r) <= 2 /\ (r < 2 ^ 16 -> blen (store_char r) = 1).
Proof. intros Hr. unfold store_char, blen. zcases; cbn [length]; lia. Qed.

(** One character: the memory shrinks, and what is stored has been counted. *)
Lemma get_counted b s e : Forall nz (b :: s) -> (0 < e -> contb b = false) ->
  exists s' r e', getUtf32FromUtf8 ((b :: s) ++ z) = Done (s' ++ z, r) /\ (length s' <= length s)%nat /\ Forall nz s' /\
    (0 < e' -> starts_cont s' = false) /\ blen (store_char r) + cnt s' e' <= cnt (b :: s) e.
Proof.
  intros Hs He. apply Forall_cons_1 in Hs as [Hb Hs]. destruct (byte_facts b Hb) as [Hc Hseq].
  cbn [app getUtf32FromUtf8 cnt]. rewrite Hc. destruct (contb b) eqn:Hcb.
  { exists s, UTF16_REPLACEMENT_CHAR, (e - 1). split_and!; [done|lia|done|lia|].
    rewrite (proj2 (Z.ltb_lt (e - 1) 0)); [change (blen (store_char UTF16_REPLACEMENT_CHAR)) with 1; lia|]. destruct (Z.lt_ge_cases 0 e); [|lia]. by specialize (He ltac:(lia)). }
  destruct (Hseq eq_refl) as [-> Hret]. rewrite (nonzero b) by (by apply nz_val).
  set (ret := Z.land (char_val b) (leaderMask (seq_len b - 1))) in *.
  set (k := 8 - (if seq_len b =? 1 then 1 else seq_len b + 1)) in *.
  assert (Hk : 3 <= k <= 7 /\ 1 <= seq_len b <= 4 /\ (seq_len b <= 3 -> k + 6 * (seq_len b - 1) <= 16) /\ k + 6 * (seq_len b - 1) <= 32).
  { unfold k, seq_len. zcases; cbn; lia. }
  assert (u32 ret = ret) as -> by (apply Z.mod_small; pose proof (Z.pow_le_mono_r 2 k 7); lia).
  destruct (sequence_spec (Z.to_nat (seq_len b - 1)) ret s k Hs Hret) as (cs & s' & r & -> & Hrun & Hf & Hl & Hor); [lia..|].
  apply Forall_app in Hs as [_ Hs']. exists s', r, (seq_len b - 1 - Z.of_nat (length cs)).
  rewrite Hrun, cnt_conts by (done || lia). rewrite length_app. split_and!; [done|lia|done| |].
  - destruct Hor as [[Hlen _]|[_ H]]; [lia|done].
  - destruct Hor as [[Hlen Hr]|[-> _]].
    + destruct (store_len r) as [H1 H2]; [lia|]. destruct (Z.eqb_spec (seq_len b) 4); [lia|]. rewrite H2; [lia|].
      pose proof (Z.pow_le_mono_r 2 (k + 6 * Z.of_nat (Z.to_nat (seq_len b - 1))) 16). lia.
    + change (blen (store_char UTF16_REPLACEMENT_CHAR)) with 1. destruct (seq_len b =? 4); lia.
Qed.

Lemma copy_counted fuel : forall s e, Forall nz s -> (length s <= fuel)%nat -> (0 < e -> starts_cont s = false) ->
  exists out, strcpy8to16_loop fuel (s ++ z) = Done out /\ blen out <= cnt s e.
Proof.
  induction fuel as [|fuel IH]; intros s e Hs Hf He.
  { destruct s; [|cbn in Hf; lia]. by exists []. }
  destruct s as [|b s]; [by exists []|]. destruct (get_counted b s e Hs He) as (s' & r & e' & Hg & Hl & Hs' & He' & Hcnt).
  destruct (IH s' e' Hs') as (out & Hout & Hle); [cbn in Hf; lia|done|]. exists (store_char r ++ out). split.
  - cbn [app] in *. rewrite (copy_step fuel b (s ++ z) (s' ++ z) r), Hout; [done| |done].
    apply nz_val. by apply Forall_cons_1 in Hs as [? _].
  - rewrite blen_app. lia.
Qed.
End Memory.

Lemma strdup8to16_ok s junk : Forall nz s -> blen s < 2 ^ 61 ->
  exists n out, strlen8to16 (s ++ Init.Byte.x00 :: junk) = Done n /\
    strcpy8to16 (s ++ Init.Byte.x00 :: junk) = Done out /\ blen out <= n <= 2 * blen s /\
    strdup8to16 true (Some (s ++ Init.Byte.x00 :: junk)) = Done (Some out).
Proof.
  intros Hs Hlt. destruct (strlen_cnt junk s 0 0 Hs) as [Hn Hb]; [lia..|].
  destruct (copy_counted junk (length (s ++ Init.Byte.x00 :: junk)) s 0 Hs) as (out & Hout & Hle); [rewrite length_app; lia|lia|].
  exists (cnt s 0), out. unfold strdup8to16, strlen8to16, strcpy8to16. rewrite Hn, Hout, Z.add_0_l. cbn [obind].
  split_and!; [done|done|lia|lia|]. assert (negb (cnt s 0 =? 0) && (SIZE_MAX / cnt s 0 <? 2) = false) as ->.
  { destruct (Z.eqb_spec (cnt s 0) 0); [done|]. cbn [negb andb]. apply Z.ltb_ge. apply Z.div_le_lower_bound; unfold SIZE_MAX; lia. }
  cbn [negb]. by zdec.
Qed.


Lemma mutf8_nz us : Forall is_u16 us -> Forall nz (mjoin (mutf8 <$> us)).
Proof.
  assert (Hc : forall x, 1 <= x < 2 ^ 8 -> nz (char_of x)).
  { intros x Hx H. apply (f_equal byte_to_Z) in H. rewrite char_of_val in H by lia. cbn in H. lia. }
  induction 1 as [|u us Hu Hus IH]; [constructor|].
  change (mjoin (mutf8 <$> u :: us)) with (mutf8 u ++ mjoin (mutf8 <$> us)). apply Forall_app. split; [|done].
  unfold is_u16 in Hu. unfold mutf8, enc2, enc3. pose proof (div_range u 12 4). pose proof (low6 u). pose proof (low6 (u / 2 ^ 6)).
  destruct (Z.leb_spec 1 u), (Z.leb_spec u 0x7f); cbn [andb]; [repeat constructor; apply Hc; lia| | |];
    (destruct (Z.leb_spec u 0x7ff); [pose proof (div_range u 6 5)|]; repeat constructor; apply Hc; lia).
Qed.

(**  The allocating functions compose: while memory lasts, [strdup8to16]
    of what [strndup16to8] returns is the original string, and both copies fit
    the buffers their lengths were computed for. *)
Theorem strndup16to8_strdup8to16 us : Forall is_u16 us -> blen us < 2 ^ 59 ->
  exists b, strndup16to8 true (Some us) = Done (Some b) /\ strdup8to16 true (Some b) = Done (Some us).
Proof.
  intros Hus Hlt. exists (strncpy16to8 us). pose proof (total_len_bound us) as Ht. pose proof (blen_nonneg us).
  pose proof (blen_strncpy16to8 us Hus) as Hl. split.
  - unfold strndup16to8. rewrite strnlen16to8_total, Hl, Z.min_l by (unfold SIZE_MAX; lia). unfold SIZE_MAX. cbn [negb]. by zdec.
  - rewrite strncpy16to8_join in * by done. rewrite blen_app in Hl. change (blen [Init.Byte.x00]) with 1 in Hl.
    destruct (strdup8to16_ok (mjoin (mutf8 <$> us)) [] (mutf8_nz us Hus)) as (n & out & _ & Hcopy & _ & ->); [lia|].
    unfold strcpy8to16 in Hcopy.
    rewrite (copy_code mutf8 is_u16 mutf8_head get_mutf8) in Hcopy by (done || rewrite length_app; lia).
    rewrite store_unit in Hcopy by done. by injection Hcopy as <-.
Qed.

(**  Finding: [strcpylen8to16] does not get past a NUL inside the given
    length: [getUtf32FromUtf8] returns without moving on, and the loop stores
    zeros for ever. *)
Theorem strcpylen8to16_diverges fuel mem len : 0 < len ->
  strcpylen8to16 fuel (Init.Byte.x00 :: mem) len = Crash OutOfFuel.
Proof.
  intros Hlen. unfold strcpylen8to16. induction fuel as [|fuel IH]; cbn [strcpylen8to16_loop]; zdec; [done|].
  change (getUtf32FromUtf8 (Init.Byte.x00 :: mem)) with (Done (Init.Byte.x00 :: mem, 0)). cbn [obind].
  by rewrite Z.sub_diag, Z.sub_0_r, IH.
Qed.

(** Finding: without memory [strdup8to16] copies to the null pointer. *)
Theorem strdup8to16_no_memory :
  strdup8to16 false (Some [Init.Byte.x41; Init.Byte.x00]) = Crash NullDeref.
Proof. reflexivity. Qed.

Module UtfWitnesses.
Definition units : list Z := [0x41; 0; 0x7ff; 0x800; 0xd83d; 0xde00; 0xffff; 0xdc00].

Lemma units_ok : Forall is_u16 units.
Proof. repeat constructor; discriminate. Qed.

Lemma utf16_utf8_roundtrip_witness : strcpy8to16 (strncpy16to8 units ++ [Init.Byte.xff]) = Done units.
Proof. exact (utf16_utf8_roundtrip units [Init.Byte.xff] units_ok). Defined.

Lemma strcpy8to16_unicode_witness :
  strcpy8to16 (mjoin (utf8 <$> [0x41; 0xe9; 0x20ac; 0x1f600]) ++ [Init.Byte.x00]) =
    Done [0x41; 0xe9; 0x20ac; 0xd83d; 0xde00].
Proof.
  refine (strcpy8to16_unicode [0x41; 0xe9; 0x20ac; 0x1f600] [] _). repeat constructor; discriminate.
Defined.

Lemma strnlen16to8_exact_witness : strnlen16to8 units = 20.
Proof. exact (strnlen16to8_exact units units_ok). Defined.



Lemma strndup16to8_strdup8to16_witness :
  exists b, strndup16to8 true (Some units) = Done (Some b) /\ strdup8to16 true (Some b) = Done (Some units).
Proof. refine (strndup16to8_strdup8to16 units units_ok _). reflexivity. Defined.

Lemma strcpylen8to16_diverges_witness :
  strcpylen8to16 1000 [Init.Byte.x00; Init.Byte.x41] 2 = Crash OutOfFuel.
Proof. refine (strcpylen8to16_diverges 1000 [Init.Byte.x41] 2 _). reflexivity. Defined.
End UtfWitnesses.
