(* ===== verification/Zip.v ===== *)
(** * ZIP archives (libzipfile centraldir.c, zipfile.c)

    An archive is a buffer; pointers into it are offsets, and reading outside
    it is [OutOfBounds].  The list of entries is in link order, last entry of
    the directory first.  zlib's [inflate] is a parameter.  [malloc] of the
    entries is taken to succeed, as the code takes it to. *)
From S2P Require Import Prelude CStrings.

Definition CD_SIGNATURE : Z := 0x06054b50.
Definition EOCD_LEN : Z := 22.
Definition MAX_COMMENT_LEN : Z := 65535.
Definition MAX_EOCD_SEARCH : Z := MAX_COMMENT_LEN + EOCD_LEN.
Definition ENTRY_SIGNATURE : Z := 0x02014b50.
Definition ENTRY_LEN : Z := 46.
Definition LFH_SIZE : Z := 30.

Record Zipentry := mk_zipentry {
  fileNameLength : Z;
  fileName : option Z;
  compressionMethod : Z;
  uncompressedSize : Z;
  compressedSize : Z;
  ze_data : Z
}.

Record Zipfile := mk_zipfile {
  z_buf : list byte;
  disknum : Z; diskWithCentralDir : Z; entryCount : Z; totalEntryCount : Z;
  centralDirSize : Z; centralDirOffest : Z; commentLen : Z; z_comment : option Z;
  z_entries : list Zipentry
}.

(** One byte of the buffer. *)
Definition get (b : list byte) (i : Z) : outcome Z :=
  if (i <? 0) || (blen b <=? i) then Crash OutOfBounds else Done (byte_to_Z (nth (Z.to_nat i) b Init.Byte.x00)).

Definition read_le_int (b : list byte) (p : Z) : outcome Z :=
  let! b0 := get b p in let! b1 := get b (p + 1) in let! b2 := get b (p + 2) in let! b3 := get b (p + 3) in
  Done (u32 (Z.lor (Z.lor (Z.lor b0 (Z.shiftl b1 8)) (Z.shiftl b2 16)) (Z.shiftl b3 24))).

Definition read_le_short (b : list byte) (p : Z) : outcome Z :=
  let! b0 := get b p in let! b1 := get b (p + 1) in
  Done (Z.lor b0 (Z.shiftl b1 8)).

(** [None] is the error result. *)
Definition read_central_dir_values (file : Zipfile) (eocd len : Z) : outcome (option Zipfile) :=
  if len <? EOCD_LEN then Done None else
  let b := z_buf file in
  let! disknum := read_le_short b (eocd + 0x04) in
  let! diskWithCentralDir := read_le_short b (eocd + 0x06) in
  let! entryCount := read_le_short b (eocd + 0x08) in
  let! totalEntryCount := read_le_short b (eocd + 0x0a) in
  let! centralDirSize := read_le_int b (eocd + 0x0c) in
  let! centralDirOffest := read_le_int b (eocd + 0x10) in
  let! commentLen := read_le_short b (eocd + 0x14) in
  let file comment := mk_zipfile b disknum diskWithCentralDir entryCount totalEntryCount centralDirSize
                        centralDirOffest commentLen comment (z_entries file) in
  if 0 <? commentLen then
    if len <? EOCD_LEN + commentLen then Done None else Done (Some (file (Some (eocd + EOCD_LEN))))
  else Done (Some (file None)).

(** The entry and the pointer behind it; the length the caller passes is never
    updated. *)
Definition read_central_directory_entry (file : Zipfile) (p len : Z) : outcome (option (Zipentry * Z)) :=
  if len <? ENTRY_LEN then Done None else
  let b := z_buf file in
  let! sig := read_le_int b p in
  if negb (sig =? ENTRY_SIGNATURE) then Done None else
  let! method := read_le_short b (p + 0x0a) in
  let! csize := read_le_int b (p + 0x14) in
  let! usize := read_le_int b (p + 0x18) in
  let! nameLength := read_le_short b (p + 0x1c) in
  let! extraFieldLength := read_le_short b (p + 0x1e) in
  let! fileCommentLength := read_le_short b (p + 0x20) in
  let! localHeaderRelOffset := read_le_int b (p + 0x2a) in
  let p := p + ENTRY_LEN in
  let name := if negb (nameLength =? 0) then Some p else None in
  let p := p + nameLength + extraFieldLength + fileCommentLength in
  let! extraFieldLength := read_le_short b (localHeaderRelOffset + 0x1c) in
  let dataOffset := u32 (localHeaderRelOffset + LFH_SIZE + nameLength + extraFieldLength) in
  Done (Some (mk_zipentry nameLength name method usize csize dataOffset, p)).

(** The scan backwards from the end: [fuel] positions from [p] down. *)
Fixpoint eocd_search (fuel : nat) (b : list byte) (p start : Z) : outcome (option Z) :=
  if p <? start then Done None else
  match fuel with
  | O => Crash OutOfFuel
  | S fuel =>
      let! b0 := get b p in
      let! found := if b0 =? 0x50 then let! sig := read_le_int b p in Done (sig =? CD_SIGNATURE) else Done false in
      if (found : bool) then Done (Some p) else eocd_search fuel b (p - 1) start
  end.

Definition with_entries (file : Zipfile) (es : list Zipentry) : Zipfile :=
  mk_zipfile (z_buf file) (disknum file) (diskWithCentralDir file) (entryCount file) (totalEntryCount file)
    (centralDirSize file) (centralDirOffest file) (commentLen file) (z_comment file) es.

(** [for (i = 0; i < file->totalEntryCount; i++)]. *)
Fixpoint read_entries (n : nat) (file : Zipfile) (p len : Z) : outcome (option Zipfile) :=
  match n with
  | O => Done (Some file)
  | S n =>
      let! r := read_central_directory_entry file p len in
      match r with
      | None => Done None
      | Some (e, p) =>
          read_entries n (with_entries file (e :: z_entries file)) p len
      end
  end.

Definition read_central_dir (file : Zipfile) : outcome (option Zipfile) :=
  let b := z_buf file in
  let bufsize := blen b in
  if bufsize <? EOCD_LEN then Done None else
  let start := if MAX_EOCD_SEARCH <? bufsize then bufsize - MAX_EOCD_SEARCH else 0 in
  let! r := eocd_search (Z.to_nat (bufsize - start)) b (bufsize - 4) start in
  match r with
  | None => Done None
  | Some eocd =>
      let! r := read_central_dir_values file eocd (bufsize - eocd) in
      match r with
      | None => Done None
      | Some file =>
          if negb (disknum file =? 0) || negb (diskWithCentralDir file =? 0)
             || negb (entryCount file =? totalEntryCount file) then Done None else
          let p := centralDirOffest file in
          read_entries (Z.to_nat (totalEntryCount file)) file p (bufsize - p)
      end
  end.

(** [None] is the null pointer. *)
Definition init_zipfile (malloc_ok : bool) (data : list byte) : outcome (option Zipfile) :=
  if negb malloc_ok then Done None else read_central_dir (mk_zipfile data 0 0 0 0 0 0 0 None []).

(** [memcmp] as far as the first difference: is it 0? *)
Fixpoint memcmp_eq (n : nat) (a : list byte) (b : list byte) (p : Z) : outcome bool :=
  match n with
  | O => Done true
  | S n =>
      match a with
      | [] => Crash OutOfBounds
      | x :: a =>
          let! y := get b p in
          if byte_to_Z x =? y then memcmp_eq n a b (p + 1) else Done false
      end
  end.

(** The region a file name pointer points to; null only with length 0. *)
Definition name_ptr (e : Zipentry) : Z := default 0 (fileName e).

(** [entryName] is the memory of the caller's string. *)
Fixpoint lookup_loop (b entryName : list byte) (es : list Zipentry) : outcome (option Zipentry) :=
  match es with
  | [] => Done None
  | e :: es =>
      let! same := memcmp_eq (Z.to_nat (fileNameLength e)) entryName b (name_ptr e) in
      if (same : bool) then Done (Some e) else lookup_loop b entryName es
  end.

Definition lookup_zipentry (file : Zipfile) (entryName : list byte) : outcome (option Zipentry) :=
  lookup_loop (z_buf file) entryName (z_entries file).

Definition get_zipentry_size (e : Zipentry) : Z := uncompressedSize e.

(** [memcpy] from the buffer. *)
Definition copy_from (b : list byte) (p n : Z) : outcome (list byte) :=
  if (n =? 0) || ((0 <=? p) && (p + n <=? blen b)) then Done (slice p n b) else Crash OutOfBounds.

Definition get_zipentry_name (b : list byte) (e : Zipentry) : outcome (list byte) :=
  let l := s32 (fileNameLength e) in
  let! s := copy_from b (name_ptr e) l in Done (s ++ [Init.Byte.x00]).

Section Decompress.
(** zlib: raw inflate of an input into an output of a given size.  [None] is a
    failing [inflateInit2]; else what was produced and whether the stream ended. *)
Context (inflate : list byte -> Z -> option (list byte * bool)).

Definition STORED : Z := 0.
Definition DEFLATED : Z := 8.

(** The result, and what was stored at [out]. *)
Definition uninflate (unlen : Z) (input : list byte) : Z * list byte :=
  match inflate input (u32 unlen) with
  | None => (-1, [])
  | Some (out, true) => (0, out)
  | Some (out, false) => (-1, out)
  end.

(** [bufsize] is the size of the caller's buffer. *)
Definition decompress_zipentry (b : list byte) (e : Zipentry) (bufsize : Z) : outcome (Z * list byte) :=
  if compressionMethod e =? STORED then
    let! d := copy_from b (ze_data e) (uncompressedSize e) in
    if bufsize <? uncompressedSize e then Crash BufferOverflow else Done (0, d)
  else if compressionMethod e =? DEFLATED then
    let! d := copy_from b (ze_data e) (compressedSize e) in
    Done (uninflate bufsize d)
  else Done (-1, []).
End Decompress.

(** The text [dump_zipfile] prints. *)
Fixpoint dump_loop (n : nat) (b : list byte) (es : list Zipentry) : outcome (list byte) :=
  match n with
  | O => Done []
  | S n =>
      match es with
      | [] => Crash NullDeref
      | e :: es =>
          let! name := copy_from b (name_ptr e) (fileNameLength e) in
          let! rest := dump_loop n b es in
          Done (bytes_of "  file " ++ [Init.Byte.x22] ++ name ++ [Init.Byte.x22; Init.Byte.x0a] ++ rest)
      end
  end.

Definition dump_zipfile (file : Zipfile) : outcome (list byte) :=
  let! rest := dump_loop (Z.to_nat (entryCount file)) (z_buf file) (z_entries file) in
  Done (bytes_of "entryCount=" ++ dec (entryCount file) ++ [Init.Byte.x0a] ++ rest).

(** The cookie is null or points to an entry: the list from there on. *)
Definition pointer_to (es : list Zipentry) : option (list Zipentry) :=
  match es with [] => None | _ => Some es end.

Definition iterate_zipfile (file : Zipfile) (cookie : option (list Zipentry)) : option (list Zipentry) :=
  match cookie with
  | None => pointer_to (z_entries file)
  | Some es => pointer_to (tl es)
  end.

(** The entries [release_zipfile] frees, in order. *)
Fixpoint release_loop (es : list Zipentry) : list Zipentry :=
  match es with [] => [] | e :: es => e :: release_loop es end.

Definition release_zipfile (file : Zipfile) : list Zipentry := release_loop (z_entries file).
