(* ===== verification/ZipCorrect.v ===== *)
(** * ZIP archives: parsing is the inverse of the archive format

    The specification is an encoder: members with their local headers, the
    central directory and its end record, as the format lays them out.  The
    fields the code does not look at are arbitrary bytes. *)
From S2P Require Import Prelude SparseFormat CStrings Zip.

(** ** Reading little-endian fields *)

Lemma get_at pre x post : get (pre ++ x :: post) (blen pre) = Done (byte_to_Z x).
Proof.
  unfold get. pose proof (blen_nonneg pre). rewrite blen_app. unfold blen at 3. cbn [length]. zdec. cbn [orb].
  unfold blen. by rewrite Nat2Z.id, nth_middle.
Qed.

Lemma get_at_off pre l i x : l !! i = Some x -> forall post, get (pre ++ l ++ post) (blen pre + Z.of_nat i) = Done (byte_to_Z x).
Proof.
  intros Hi post. apply list_elem_of_split_length in Hi as (l1 & l2 & -> & Hl1).
  replace (pre ++ (l1 ++ x :: l2) ++ post) with ((pre ++ l1) ++ x :: (l2 ++ post)) by (by rewrite <- !app_assoc).
  rewrite <- (get_at (pre ++ l1) x (l2 ++ post)). f_equal. rewrite blen_app. unfold blen. lia.
Qed.

Lemma le_combine4 b0 b1 b2 b3 :
  Z.lor (Z.lor (Z.lor (byte_to_Z b0) (Z.shiftl (byte_to_Z b1) 8)) (Z.shiftl (byte_to_Z b2) 16)) (Z.shiftl (byte_to_Z b3) 24)
  = le_combine [b0; b1; b2; b3].
Proof.
  with_strategy transparent [LittleEndianList.le_combine] unfold LittleEndianList.le_combine.
  rewrite !Z.shiftl_lor, !Z.shiftl_shiftl, Z.shiftl_0_l, Z.lor_0_r by lia.
  change (8 + (8 + 8)) with 24. change (8 + 8) with 16. by rewrite <- !Z.lor_assoc.
Qed.

Lemma le_combine2 b0 b1 : Z.lor (byte_to_Z b0) (Z.shiftl (byte_to_Z b1) 8) = le_combine [b0; b1].
Proof.
  with_strategy transparent [LittleEndianList.le_combine] unfold LittleEndianList.le_combine.
  by rewrite Z.shiftl_0_l, Z.lor_0_r.
Qed.

Lemma read_le_int_at pre r post o : (o + 4 <= length r)%nat ->
  read_le_int (pre ++ r ++ post) (blen pre + Z.of_nat o) = Done (field o 4 r).
Proof.
  intros Ho. unfold field. destruct (drop o r) as [|b0 [|b1 [|b2 [|b3 l]]]] eqn:Hd;
    try (apply (f_equal length) in Hd; rewrite length_drop in Hd; cbn in Hd; lia).
  assert (Hlk : forall i x, (b0 :: b1 :: b2 :: b3 :: l) !! i = Some x -> r !! (o + i)%nat = Some x)
    by (intros i x Hi; by rewrite <- Hd, lookup_drop in Hi).
  unfold read_le_int. rewrite (get_at_off pre r o b0) by (rewrite <- (Nat.add_0_r o); by apply Hlk). cbn [obind].
  replace (blen pre + Z.of_nat o + 1) with (blen pre + Z.of_nat (o + 1)) by lia. rewrite (get_at_off pre r _ b1) by (by apply Hlk).
  replace (blen pre + Z.of_nat o + 2) with (blen pre + Z.of_nat (o + 2)) by lia. rewrite (get_at_off pre r _ b2) by (by apply Hlk).
  replace (blen pre + Z.of_nat o + 3) with (blen pre + Z.of_nat (o + 3)) by lia. rewrite (get_at_off pre r _ b3) by (by apply Hlk).
  cbn [obind take]. rewrite le_combine4. f_equal. apply Z.mod_small.
  exact (LittleEndianList.le_combine_bound [b0; b1; b2; b3]).
Qed.

Lemma read_le_short_at pre r post o : (o + 2 <= length r)%nat ->
  read_le_short (pre ++ r ++ post) (blen pre + Z.of_nat o) = Done (field o 2 r).
Proof.
  intros Ho. unfold field. destruct (drop o r) as [|b0 [|b1 l]] eqn:Hd;
    try (apply (f_equal length) in Hd; rewrite length_drop in Hd; cbn in Hd; lia).
  assert (Hlk : forall i x, (b0 :: b1 :: l) !! i = Some x -> r !! (o + i)%nat = Some x)
    by (intros i x Hi; by rewrite <- Hd, lookup_drop in Hi).
  unfold read_le_short. rewrite (get_at_off pre r o b0) by (rewrite <- (Nat.add_0_r o); by apply Hlk). cbn [obind].
  replace (blen pre + Z.of_nat o + 1) with (blen pre + Z.of_nat (o + 1)) by lia. rewrite (get_at_off pre r _ b1) by (by apply Hlk).
  cbn [obind take]. by rewrite le_combine2.
Qed.

(** ** The format *)

Record member := mk_member {
  m_name : list byte; m_method : Z; m_usize : Z; m_payload : list byte;
  m_extra : list byte; m_remark : list byte; m_lextra : list byte;
  (** version and flags; time, date and checksum; disk and attributes *)
  m_version : list byte; m_stamp : list byte; m_attr : list byte;
  (** the local header up to the name length *)
  m_local : list byte
}.

Definition local_header (m : member) : list byte :=
  le_split 4 0x04034b50 ++ m_local m ++ le_split 2 (blen (m_name m)) ++ le_split 2 (blen (m_lextra m)).
Definition local_file (m : member) : list byte := local_header m ++ m_name m ++ m_lextra m ++ m_payload m.

Definition central_header (m : member) (off : Z) : list byte :=
  le_split 4 ENTRY_SIGNATURE ++ m_version m ++ le_split 2 (m_method m) ++ m_stamp m ++
  le_split 4 (blen (m_payload m)) ++ le_split 4 (m_usize m) ++ le_split 2 (blen (m_name m)) ++
  le_split 2 (blen (m_extra m)) ++ le_split 2 (blen (m_remark m)) ++ m_attr m ++ le_split 4 off.
Definition central_entry (m : member) (off : Z) : list byte :=
  central_header m off ++ m_name m ++ m_extra m ++ m_remark m.

Fixpoint locals (ms : list member) : list byte :=
  match ms with [] => [] | m :: ms => local_file m ++ locals ms end.
Fixpoint centrals (off : Z) (ms : list member) : list byte :=
  match ms with [] => [] | m :: ms => central_entry m off ++ centrals (off + blen (local_file m)) ms end.

Definition end_record (n size off : Z) (comment : list byte) : list byte :=
  le_split 4 CD_SIGNATURE ++ le_split 2 0 ++ le_split 2 0 ++ le_split 2 n ++ le_split 2 n ++
  le_split 4 size ++ le_split 4 off ++ le_split 2 (blen comment).

Definition archive (ms : list member) (comment : list byte) : list byte :=
  locals ms ++ centrals 0 ms ++
  end_record (blen ms) (blen (centrals 0 ms)) (blen (locals ms)) comment ++ comment.

Record member_ok (m : member) : Prop := {
  mm_name : blen (m_name m) < 2 ^ 16;
  mm_method : is_u16 (m_method m);
  mm_usize : is_u32 (m_usize m);
  mm_payload : blen (m_payload m) < 2 ^ 32;
  mm_extra : blen (m_extra m) < 2 ^ 16;
  mm_remark : blen (m_remark m) < 2 ^ 16;
  mm_lextra : blen (m_lextra m) < 2 ^ 16;
  mm_version : length (m_version m) = 6%nat;
  mm_stamp : length (m_stamp m) = 8%nat;
  mm_attr : length (m_attr m) = 8%nat;
  mm_local : length (m_local m) = 22%nat
}.

(** Entry [e] of the buffer [b] is member [m]. *)
Record holds (b : list byte) (m : member) (e : Zipentry) : Prop := {
  ho_length : fileNameLength e = blen (m_name m);
  ho_name : slice (name_ptr e) (blen (m_name m)) b = m_name m;
  ho_name_in : 0 <= name_ptr e /\ (m_name m <> [] -> name_ptr e + blen (m_name m) <= blen b);
  ho_method : compressionMethod e = m_method m;
  ho_usize : uncompressedSize e = m_usize m;
  ho_csize : compressedSize e = blen (m_payload m);
  ho_data : slice (ze_data e) (blen (m_payload m)) b = m_payload m;
  ho_data_in : 0 <= ze_data e /\ ze_data e + blen (m_payload m) <= blen b
}.

(** ** Fields of the headers *)

Lemma field_central m off : member_ok m -> is_u32 off ->
  let h := central_header m off in
  length h = 46%nat /\ field 0 4 h = ENTRY_SIGNATURE /\ field 10 2 h = m_method m /\
  field 20 4 h = blen (m_payload m) /\ field 24 4 h = m_usize m /\ field 28 2 h = blen (m_name m) /\
  field 30 2 h = blen (m_extra m) /\ field 32 2 h = blen (m_remark m) /\ field 42 4 h = off.
Proof.
  intros [Hn Hm Hu Hp He Hr _ Hv Hs Ha _] Hoff h. pose proof (blen_nonneg (m_name m)). pose proof (blen_nonneg (m_payload m)).
  pose proof (blen_nonneg (m_extra m)). pose proof (blen_nonneg (m_remark m)). unfold h, central_header.
  split; [rewrite !length_app, !length_le_split, Hv, Hs, Ha; done|].
  split_and!; walk; (apply le_combine_split_u32 || apply le_combine_split_u16); unfold is_u16, is_u32 in *;
    (done || lia || (cbv; split; [discriminate|reflexivity])).
Qed.

Lemma field_local m : member_ok m -> length (local_header m) = 30%nat /\ field 28 2 (local_header m) = blen (m_lextra m).
Proof.
  intros [_ _ _ _ _ _ Hl _ _ _ Hh]. pose proof (blen_nonneg (m_lextra m)). unfold local_header.
  split; [rewrite !length_app, !length_le_split, Hh; done|]. walk. apply le_combine_split_u16. unfold is_u16. lia.
Qed.

Lemma field_end n size off comment : is_u16 n -> is_u32 size -> is_u32 off -> blen comment < 2 ^ 16 ->
  let h := end_record n size off comment in
  length h = 22%nat /\ field 0 4 h = CD_SIGNATURE /\ field 4 2 h = 0 /\ field 6 2 h = 0 /\ field 8 2 h = n /\ field 10 2 h = n /\
  field 12 4 h = size /\ field 16 4 h = off /\ field 20 2 h = blen comment.
Proof.
  intros Hn Hs Ho Hc h. pose proof (blen_nonneg comment). unfold h, end_record.
  split; [rewrite !length_app, !length_le_split; done|].
  split_and!; walk; (apply le_combine_split_u32 || apply le_combine_split_u16); unfold is_u16, is_u32 in *;
    (done || lia || (cbv; split; [discriminate|reflexivity])).
Qed.

(** ** One entry of the directory *)

(** The entry the code makes of member [m] with header at [p] and local header
    at [off]. *)
Definition entry_of (m : member) (p off : Z) : Zipentry :=
  mk_zipentry (blen (m_name m)) (if negb (blen (m_name m) =? 0) then Some (p + ENTRY_LEN) else None)
    (m_method m) (m_usize m) (blen (m_payload m)) (off + LFH_SIZE + blen (m_name m) + blen (m_lextra m)).

Lemma entry_holds b m pre post lpre lpost : member_ok m -> is_u32 (blen lpre) ->
  b = pre ++ central_entry m (blen lpre) ++ post -> b = lpre ++ local_file m ++ lpost ->
  holds b m (entry_of m (blen pre) (blen lpre)).
Proof.
  intros Hm Hoff Hc Hl. destruct (field_central m (blen lpre) Hm Hoff) as (H46 & _). destruct (field_local m Hm) as [H30 _].
  assert (Hh1 : blen (central_header m (blen lpre)) = ENTRY_LEN) by (unfold blen at 1; by rewrite H46).
  assert (Hh2 : blen (local_header m) = LFH_SIZE) by (unfold blen at 1; by rewrite H30).
  assert (Hn : b = (pre ++ central_header m (blen lpre)) ++ m_name m ++ (m_extra m ++ m_remark m ++ post))
    by (rewrite Hc; unfold central_entry; by rewrite <- !app_assoc).
  assert (Hd : b = (lpre ++ local_header m ++ m_name m ++ m_lextra m) ++ m_payload m ++ lpost)
    by (rewrite Hl; unfold local_file; by rewrite <- !app_assoc).
  pose proof (f_equal blen Hn) as L1. pose proof (f_equal blen Hd) as L2. rewrite !blen_app in L1, L2.
  pose proof (blen_nonneg pre). pose proof (blen_nonneg lpre). pose proof (blen_nonneg lpost). pose proof (blen_nonneg (m_name m)).
  pose proof (blen_nonneg (m_lextra m)). pose proof (blen_nonneg (m_extra m)). pose proof (blen_nonneg (m_remark m)).
  pose proof (blen_nonneg post). unfold ENTRY_LEN, LFH_SIZE in *.
  split; cbn [entry_of fileNameLength fileName compressionMethod uncompressedSize compressedSize ze_data]; try reflexivity.
  - unfold name_ptr. cbn [entry_of fileName]. destruct (Z.eqb_spec (blen (m_name m)) 0) as [Hz|Hz]; cbn [negb from_option id].
    + rewrite Hz, slice_zero_len. destruct (m_name m); [done|unfold blen in Hz; cbn in Hz; lia].
    + rewrite Hn at 1. apply slice_here. rewrite blen_app. unfold ENTRY_LEN. lia.
  - unfold name_ptr. cbn [entry_of fileName]. unfold ENTRY_LEN. destruct (Z.eqb_spec (blen (m_name m)) 0) as [Hz|Hz]; cbn [negb from_option id].
    + split; [lia|]. intros Hne. destruct (m_name m); [done|unfold blen in Hz; cbn in Hz; lia].
    + split; [lia|]. intros _. lia.
  - rewrite Hd at 1. apply slice_here. rewrite !blen_app. unfold LFH_SIZE. lia.
  - unfold LFH_SIZE. pose proof (blen_nonneg (m_payload m)). lia.
Qed.

Lemma entry_ok file m pre post lpre lpost len :
  member_ok m -> z_buf file = pre ++ central_entry m (blen lpre) ++ post -> z_buf file = lpre ++ local_file m ++ lpost ->
  blen (z_buf file) < 2 ^ 32 -> ENTRY_LEN <= len ->
  read_central_directory_entry file (blen pre) len =
    Done (Some (entry_of m (blen pre) (blen lpre), blen (pre ++ central_entry m (blen lpre)))).
Proof.
  intros Hm Hc Hl Hb Hlen. pose proof (blen_nonneg lpre). pose proof (blen_nonneg lpost).
  assert (Hoff : is_u32 (blen lpre)) by (unfold is_u32; rewrite Hl, blen_app in Hb; pose proof (blen_nonneg (local_file m ++ lpost)); lia).
  destruct (field_central m (blen lpre) Hm Hoff) as (H46 & F0 & F10 & F20 & F24 & F28 & F30 & F32 & F42).
  destruct (field_local m Hm) as [H30 FL]. set (b := z_buf file) in *.
  assert (Hb1 : b = pre ++ central_header m (blen lpre) ++ (m_name m ++ m_extra m ++ m_remark m ++ post))
    by (rewrite Hc; unfold central_entry; by rewrite <- !app_assoc).
  assert (Hb2 : b = lpre ++ local_header m ++ (m_name m ++ m_lextra m ++ m_payload m ++ lpost))
    by (rewrite Hl; unfold local_file; by rewrite <- !app_assoc).
  assert (Hri : forall o v, 0 <= o <= 42 -> field (Z.to_nat o) 4 (central_header m (blen lpre)) = v ->
    read_le_int b (blen pre + o) = Done v)
    by (intros o v Ho <-; rewrite Hb1, <- (Z2Nat.id o) at 1 by lia; apply read_le_int_at; lia).
  assert (Hrs : forall o v, 0 <= o <= 44 -> field (Z.to_nat o) 2 (central_header m (blen lpre)) = v ->
    read_le_short b (blen pre + o) = Done v)
    by (intros o v Ho <-; rewrite Hb1, <- (Z2Nat.id o) at 1 by lia; apply read_le_short_at; lia).
  pose proof (f_equal blen Hb2) as L2. rewrite !blen_app in L2.
  assert (Hh2 : blen (local_header m) = 30) by (unfold blen at 1; by rewrite H30).
  assert (RL : read_le_short b (blen lpre + 28) = Done (blen (m_lextra m)))
    by (rewrite Hb2, <- FL; apply (read_le_short_at lpre (local_header m) _ 28); lia).
  pose proof (blen_nonneg (m_name m)). pose proof (blen_nonneg (m_lextra m)). pose proof (blen_nonneg (m_payload m)).
  assert (R0 : read_le_int b (blen pre) = Done ENTRY_SIGNATURE) by (rewrite <- (Z.add_0_r (blen pre)); apply (Hri 0); [lia|exact F0]).
  unfold read_central_directory_entry. fold b. unfold ENTRY_LEN in Hlen. rewrite (proj2 (Z.ltb_ge len ENTRY_LEN)) by (unfold ENTRY_LEN; lia).
  rewrite R0. cbn [obind]. rewrite Z.eqb_refl. cbn [negb].
  rewrite (Hrs 10 _ ltac:(lia) F10), (Hri 20 _ ltac:(lia) F20), (Hri 24 _ ltac:(lia) F24), (Hrs 28 _ ltac:(lia) F28),
    (Hrs 30 _ ltac:(lia) F30), (Hrs 32 _ ltac:(lia) F32), (Hri 42 _ ltac:(lia) F42). cbn [obind].
  rewrite RL. cbn [obind]. unfold entry_of, u32. rewrite Z.mod_small by (unfold LFH_SIZE; lia).
  do 4 f_equal. unfold central_entry. rewrite !blen_app. unfold blen at 6. rewrite H46. unfold ENTRY_LEN. lia.
Qed.

(** ** The whole directory *)

Lemma entries_ok ms : forall file lpre cpre E len, Forall member_ok ms ->
  z_buf file = lpre ++ locals ms ++ cpre ++ centrals (blen lpre) ms ++ E ->
  blen (z_buf file) < 2 ^ 32 -> ENTRY_LEN <= len ->
  exists es, read_entries (length ms) file (blen (lpre ++ locals ms ++ cpre)) len =
      Done (Some (with_entries file (rev es ++ z_entries file))) /\ Forall2 (holds (z_buf file)) ms es.
Proof.
  induction ms as [|m ms IH]; intros file lpre cpre E len Hms Hb Hlt Hlen.
  { exists []. split; [|constructor]. by destruct file. }
  apply Forall_cons_1 in Hms as [Hm Hms]. cbn [locals centrals] in Hb.
  set (pre := lpre ++ (local_file m ++ locals ms) ++ cpre).
  set (rest := centrals (blen lpre + blen (local_file m)) ms ++ E).
  assert (Hc : z_buf file = pre ++ central_entry m (blen lpre) ++ rest)
    by (rewrite Hb; unfold pre, rest; by rewrite <- !app_assoc).
  assert (Hl : z_buf file = lpre ++ local_file m ++ (locals ms ++ cpre ++ (central_entry m (blen lpre)) ++ rest))
    by (rewrite Hb; unfold rest; by rewrite <- !app_assoc).
  set (e := entry_of m (blen pre) (blen lpre)).
  destruct (IH (with_entries file (e :: z_entries file)) (lpre ++ local_file m) (cpre ++ central_entry m (blen lpre)) E len Hms)
    as (es & Hrun & Hes); [|done|done|].
  { cbn [with_entries z_buf]. rewrite Hb, blen_app. by rewrite <- !app_assoc. }
  exists (e :: es). cbn [read_entries length locals]. fold pre. rewrite (entry_ok file m pre rest lpre _ len Hm Hc Hl Hlt Hlen).
  cbn [obind]. split.
  - assert (Hp : blen (pre ++ central_entry m (blen lpre)) =
        blen ((lpre ++ local_file m) ++ locals ms ++ cpre ++ central_entry m (blen lpre)))
      by (unfold pre; f_equal; by rewrite <- !app_assoc).
    rewrite Hp. fold e. cbn [rev]. rewrite Hrun. cbn [with_entries z_entries]. do 3 f_equal. by rewrite <- app_assoc.
  - constructor; [|exact Hes]. apply (entry_holds _ m pre rest lpre _ Hm) with (2 := Hc) (3 := Hl).
    pose proof (blen_nonneg lpre). pose proof (f_equal blen Hl) as Hx. rewrite blen_app in Hx. unfold is_u32.
    pose proof (blen_nonneg (local_file m ++ locals ms ++ cpre ++ central_entry m (blen lpre) ++ rest)). lia.
Qed.

Lemma get_in b p : 0 <= p < blen b -> exists v, get b p = Done v.
Proof. intros Hp. unfold get. zdec. cbn [orb]. by eexists. Qed.

Lemma read_le_int_in b p : 0 <= p -> p + 4 <= blen b -> exists v, read_le_int b p = Done v.
Proof.
  intros H0 H4. unfold read_le_int. destruct (get_in b p) as [v0 ->]; [lia|]. destruct (get_in b (p + 1)) as [v1 ->]; [lia|].
  destruct (get_in b (p + 2)) as [v2 ->]; [lia|]. destruct (get_in b (p + 3)) as [v3 ->]; [lia|]. by eexists.
Qed.

Lemma eocd_search_ok fuel : forall b p start eocd,
  0 <= start <= eocd -> eocd <= p -> p + 4 <= blen b -> p - eocd < Z.of_nat fuel ->
  get b eocd = Done 0x50 -> read_le_int b eocd = Done CD_SIGNATURE ->
  (forall q, eocd < q <= p -> read_le_int b q <> Done CD_SIGNATURE) ->
  eocd_search fuel b p start = Done (Some eocd).
Proof.
  induction fuel as [|fuel IH]; intros b p start eocd Hs Hp Hb Hf Hg Hr Hno; [lia|]. cbn [eocd_search].
  rewrite (proj2 (Z.ltb_ge p start)) by lia. destruct (Z.eq_dec p eocd) as [->|Hne].
  - rewrite Hg. cbn [obind]. rewrite Z.eqb_refl, Hr. cbn [obind]. by rewrite Z.eqb_refl.
  - destruct (get_in b p) as [v ->]; [lia|]. destruct (read_le_int_in b p) as [w Hw]; [lia..|]. cbn [obind].
    assert (w =? CD_SIGNATURE = false) as Hws.
    { apply Z.eqb_neq. intros ->. apply (Hno p); [lia|done]. }
    rewrite Hw. cbn [obind]. rewrite Hws. destruct (v =? 0x50); cbn [obind]; (apply IH; try done; try lia; intros q Hq; apply Hno; lia).
Qed.

(** No end-of-directory signature behind the record itself. *)
Definition unambiguous (ms : list member) (comment : list byte) : Prop :=
  forall q, blen (locals ms ++ centrals 0 ms) < q <= blen (archive ms comment) - 4 ->
    read_le_int (archive ms comment) q <> Done CD_SIGNATURE.

Lemma centrals_len ms : Forall member_ok ms -> forall off, 0 <= off -> off + blen (locals ms) < 2 ^ 32 ->
  ms <> [] -> ENTRY_LEN <= blen (centrals off ms).
Proof.
  intros Hms off Ho Hlt Hne. destruct ms as [|m ms]; [done|]. apply Forall_cons_1 in Hms as [Hm _]. cbn [locals centrals] in *.
  rewrite blen_app in Hlt. pose proof (blen_nonneg (local_file m)). pose proof (blen_nonneg (locals ms)).
  destruct (field_central m off Hm) as [H46 _]; [unfold is_u32; lia|]. unfold central_entry. rewrite !blen_app.
  unfold blen at 1. rewrite H46. pose proof (blen_nonneg (m_name m)). pose proof (blen_nonneg (m_extra m)).
  pose proof (blen_nonneg (m_remark m)). pose proof (blen_nonneg (centrals (off + blen (local_file m)) ms)). unfold ENTRY_LEN. lia.
Qed.

(** Reading the end record. *)
Lemma end_values file pre n size off comment :
  let R := end_record n size off comment in
  z_buf file = pre ++ R ++ comment -> is_u16 n -> is_u32 size -> is_u32 off -> blen comment < 2 ^ 16 ->
  get (z_buf file) (blen pre) = Done 0x50 /\ read_le_int (z_buf file) (blen pre) = Done CD_SIGNATURE /\
  read_central_dir_values file (blen pre) (blen (z_buf file) - blen pre) =
    Done (Some (mk_zipfile (z_buf file) 0 0 n n size off (blen comment)
      (if 0 <? blen comment then Some (blen pre + EOCD_LEN) else None) (z_entries file))).
Proof.
  intros R Hb Hn Hs Ho Hc. set (b := z_buf file) in *.
  destruct (field_end n size off comment Hn Hs Ho Hc) as (H22 & F0 & F4 & F6 & F8 & F10 & F12 & F16 & F20).
  fold R in H22, F0, F4, F6, F8, F10, F12, F16, F20. pose proof (blen_nonneg pre). pose proof (blen_nonneg comment).
  assert (Hl : blen b - blen pre = EOCD_LEN + blen comment)
    by (rewrite Hb, !blen_app; unfold blen at 2; rewrite H22; unfold EOCD_LEN; lia).
  assert (Hri : forall o v, 0 <= o <= 18 -> field (Z.to_nat o) 4 R = v -> read_le_int b (blen pre + o) = Done v)
    by (intros o v Hx <-; rewrite Hb, <- (Z2Nat.id o) at 1 by lia; apply read_le_int_at; lia).
  assert (Hrs : forall o v, 0 <= o <= 20 -> field (Z.to_nat o) 2 R = v -> read_le_short b (blen pre + o) = Done v)
    by (intros o v Hx <-; rewrite Hb, <- (Z2Nat.id o) at 1 by lia; apply read_le_short_at; lia).
  split; [|split].
  - rewrite Hb, <- (Z.add_0_r (blen pre)). apply (get_at_off pre R 0 Init.Byte.x50). vm_compute. reflexivity.
  - rewrite <- (Z.add_0_r (blen pre)). apply (Hri 0); [lia|exact F0].
  - unfold read_central_dir_values. fold b. rewrite Hl, (proj2 (Z.ltb_ge (EOCD_LEN + blen comment) EOCD_LEN)) by lia.
    rewrite (Hrs 4 _ ltac:(lia) F4), (Hrs 6 _ ltac:(lia) F6), (Hrs 8 _ ltac:(lia) F8), (Hrs 10 _ ltac:(lia) F10),
      (Hri 12 _ ltac:(lia) F12), (Hri 16 _ ltac:(lia) F16), (Hrs 20 _ ltac:(lia) F20). cbn [obind].
    destruct (0 <? blen comment); [|done]. by rewrite Z.ltb_irrefl.
Qed.

Lemma init_ok ms comment : Forall member_ok ms -> blen ms < 2 ^ 16 -> blen comment < 2 ^ 16 ->
  blen (archive ms comment) < 2 ^ 32 -> unambiguous ms comment ->
  exists f, init_zipfile true (archive ms comment) = Done (Some f) /\ z_buf f = archive ms comment /\
    entryCount f = blen ms /\ Forall2 (holds (archive ms comment)) ms (rev (z_entries f)).
Proof.
  intros Hms Hn Hcm Hlt Hun. set (b := archive ms comment) in *. set (L := locals ms). set (C := centrals 0 ms).
  pose proof (blen_nonneg ms). pose proof (blen_nonneg comment). pose proof (blen_nonneg L). pose proof (blen_nonneg C).
  set (R := end_record (blen ms) (blen C) (blen L) comment).
  assert (Hb : b = (L ++ C) ++ R ++ comment) by (unfold b, archive; fold L C R; by rewrite <- !app_assoc).
  assert (HR : blen R = EOCD_LEN) by (unfold blen at 1; unfold R, end_record; by rewrite !length_app, !length_le_split).
  assert (Hlen : blen b = blen (L ++ C) + EOCD_LEN + blen comment) by (rewrite Hb, (blen_app (L ++ C)), (blen_app R), HR; lia).
  pose proof (blen_app L C) as Hlc. unfold EOCD_LEN in Hlen.
  destruct (end_values (mk_zipfile b 0 0 0 0 0 0 0 None []) (L ++ C) (blen ms) (blen C) (blen L) comment Hb)
    as (Hg & Hsig & Hval); [unfold is_u16, is_u32; lia..|]. cbn [z_buf z_entries] in Hg, Hsig, Hval.
  unfold init_zipfile. cbn [negb]. unfold read_central_dir. cbn [z_buf]. rewrite (proj2 (Z.ltb_ge (blen b) EOCD_LEN)) by (unfold EOCD_LEN; lia).
  set (start := if MAX_EOCD_SEARCH <? blen b then blen b - MAX_EOCD_SEARCH else 0).
  assert (Hst : 0 <= start <= blen (L ++ C)).
  { unfold start, MAX_EOCD_SEARCH, MAX_COMMENT_LEN, EOCD_LEN. destruct (Z.ltb_spec (65535 + 22) (blen b)); lia. }
  rewrite (eocd_search_ok _ b (blen b - 4) start (blen (L ++ C))) by (try done; lia). cbn [obind].
  rewrite Hval. cbn [obind disknum diskWithCentralDir entryCount totalEntryCount centralDirOffest]. rewrite Z.eqb_refl. cbn [Z.eqb negb orb].
  set (file := mk_zipfile b 0 0 (blen ms) (blen ms) (blen C) (blen L) (blen comment) _ []).
  assert (Hn' : Z.to_nat (blen ms) = length ms) by (unfold blen; lia). rewrite Hn'.
  assert (Hcase : ms = [] \/ ms <> []) by (destruct ms; auto). destruct Hcase as [Hnil|Hne].
  { exists file. rewrite Z.eqb_refl, Hnil. cbn [negb length read_entries]. split; [reflexivity|]. split; [reflexivity|]. split; [exact (f_equal blen Hnil)|constructor]. }
  rewrite Z.eqb_refl. cbn [negb]. pose proof (centrals_len ms Hms 0 ltac:(lia) ltac:(fold L; lia) Hne) as Hcl. fold C in Hcl.
  destruct (entries_ok ms file [] [] (R ++ comment) (blen b - blen L) Hms) as (es & Hrun & Hes); [|done|lia|].
  { cbn [file z_buf app]. rewrite Hb. cbn [blen length app]. by rewrite <- app_assoc. }
  cbn [app] in Hrun. fold L in Hrun. rewrite app_nil_r in Hrun. rewrite Hrun. eexists. split; [reflexivity|].
  cbn [with_entries z_entries z_buf entryCount file]. rewrite app_nil_r, rev_involutive. by repeat split.
Qed.

(** ** Looking a name up *)

Definition no_nul (s : list byte) : Prop := Init.Byte.x00 ∉ s.

Lemma get_slice b p x n : 0 <= p -> slice p (blen (x :: n)) b = x :: n ->
  get b p = Done (byte_to_Z x) /\ slice (p + 1) (blen n) b = n.
Proof.
  intros Hp Hs. unfold slice, blen in *. rewrite !Nat2Z.id in *. cbn [length] in Hs.
  destruct (drop (Z.to_nat p) b) as [|y l] eqn:Hd; [done|]. cbn [take] in Hs. injection Hs as -> Hs.
  assert (Hk : b !! Z.to_nat p = Some x) by (rewrite <- (Nat.add_0_r (Z.to_nat p)), <- lookup_drop, Hd; done).
  split.
  - unfold get. apply lookup_lt_Some in Hk as Hl. unfold blen. zdec. cbn [orb]. do 2 f_equal. by apply nth_lookup_Some.
  - replace (Z.to_nat (p + 1)) with (Z.to_nat p + 1)%nat by lia. by rewrite <- drop_drop, Hd.
Qed.

(** [memcmp] of a name of the archive with a C string decides the prefix order. *)
Lemma memcmp_prefix mn : forall name junk b p, no_nul mn -> 0 <= p -> slice p (blen mn) b = mn ->
  memcmp_eq (length mn) (name ++ Init.Byte.x00 :: junk) b p = Done (bool_decide (mn `prefix_of` name)).
Proof.
  induction mn as [|x mn IH]; intros name junk b p Hn Hp Hs; cbn [memcmp_eq length].
  { rewrite bool_decide_true by apply prefix_nil. done. }
  apply not_elem_of_cons in Hn as [Hx Hn]. apply get_slice in Hs as [Hg Hs]; [|done]. rewrite Hg.
  destruct name as [|y name]; cbn [app obind].
  - rewrite bool_decide_false by apply prefix_nil_not. by destruct x.
  - destruct (Z.eqb_spec (byte_to_Z y) (byte_to_Z x)) as [He|He].
    + apply Byte.byte.unsigned_inj in He as ->. rewrite (IH name junk b (p + 1) Hn ltac:(lia) Hs). f_equal.
      apply bool_decide_ext. split; [apply prefix_cons|apply prefix_cons_inv_2].
    + rewrite bool_decide_false; [done|]. intros Hpre%prefix_cons_inv_1. by subst.
Qed.

(** The last member of a list whose name is a prefix of [name]. *)
Definition last_prefix (name : list byte) (ms : list member) (m : member) : Prop :=
  m_name m `prefix_of` name /\
  exists ms1 ms2, ms = ms1 ++ m :: ms2 /\ Forall (fun m' => ~ m_name m' `prefix_of` name) ms2.

(** The loop over the entries in link order: the archive order reversed. *)
Lemma lookup_loop_ok b name junk es : forall ms, Forall2 (holds b) ms es -> Forall (fun m => no_nul (m_name m)) ms ->
  (exists m e, lookup_loop b (name ++ Init.Byte.x00 :: junk) es = Done (Some e) /\ holds b m e /\ last_prefix name (rev ms) m) \/
  (lookup_loop b (name ++ Init.Byte.x00 :: junk) es = Done None /\ Forall (fun m => ~ m_name m `prefix_of` name) ms).
Proof.
  induction es as [|e es IH]; intros ms Hms Hn; destruct ms as [|m ms]; try (by inversion Hms).
  { right. by split. }
  apply Forall2_cons in Hms as [Hm Hms]. apply Forall_cons_1 in Hn as [Hnm Hn]. cbn [lookup_loop].
  rewrite (ho_length _ _ _ Hm). replace (Z.to_nat (blen (m_name m))) with (length (m_name m)) by (unfold blen; lia).
  rewrite memcmp_prefix by (try done; apply Hm). cbn [obind]. case_bool_decide as Hp.
  - left. exists m, e. do 2 (split; [done|]). split; [done|]. cbn [rev]. exists (rev ms), []. by split.
  - destruct (IH ms Hms Hn) as [(m' & e' & Hr & Hh & Hpre & ms1 & ms2 & Hsp & Hno)|[Hr Hno]].
    + left. exists m', e'. do 2 (split; [done|]). split; [done|]. cbn [rev]. exists ms1, (ms2 ++ [m]).
      split; [by rewrite Hsp, <- app_assoc|]. apply Forall_app. split; [done|]. by repeat constructor.
    + right. split; [done|]. by constructor.
Qed.

Lemma Forall2_rev_l {A B} (P : A -> B -> Prop) l k : Forall2 P l (rev k) -> Forall2 P (rev l) k.
Proof.
  intros H. apply Forall2_reverse in H. unfold reverse in H. by rewrite <- !rev_alt, rev_involutive in H.
Qed.

(** What the theorems ask of an archive. *)
Record archive_ok (ms : list member) (comment : list byte) : Prop := {
  ao_members : Forall member_ok ms;
  ao_names : Forall (fun m => no_nul (m_name m)) ms;
  ao_count : blen ms < 2 ^ 16;
  ao_comment : blen comment < 2 ^ 16;
  ao_size : blen (archive ms comment) < 2 ^ 32;
  ao_end : unambiguous ms comment
}.

Lemma lookup_ok ms comment name junk : archive_ok ms comment ->
  exists f, init_zipfile true (archive ms comment) = Done (Some f) /\ z_buf f = archive ms comment /\
    ((exists m e, lookup_zipentry f (name ++ Init.Byte.x00 :: junk) = Done (Some e) /\ holds (z_buf f) m e /\ last_prefix name ms m) \/
     (lookup_zipentry f (name ++ Init.Byte.x00 :: junk) = Done None /\ Forall (fun m => ~ m_name m `prefix_of` name) ms)).
Proof.
  intros [Hms Hn Hc Hcm Hlt Hun]. destruct (init_ok ms comment Hms Hc Hcm Hlt Hun) as (f & Hi & Hb & _ & Hh).
  exists f. split; [done|]. split; [done|]. rewrite Hb. unfold lookup_zipentry. rewrite Hb.
  apply Forall2_rev_l in Hh. apply Forall_rev in Hn as Hn'.
  destruct (lookup_loop_ok (archive ms comment) name junk (z_entries f) (rev ms)) as [(m & e & Hr & Hm & Hl)|[Hr Hno]]; [done..| |].
  - left. exists m, e. by rewrite rev_involutive in Hl.
  - right. split; [done|]. apply Forall_rev in Hno. by rewrite rev_involutive in Hno.
Qed.

(** ** Extraction *)

Lemma slice_copy b p n : 0 <= p -> p + n <= blen b -> copy_from b p n = Done (slice p n b).
Proof. intros Hp Hn. unfold copy_from. zdec. cbn [andb]. by rewrite orb_true_r. Qed.


Lemma deflated_ok inflate b m e bufsize : holds b m e -> m_method m = DEFLATED ->
  decompress_zipentry inflate b e bufsize = Done (uninflate inflate bufsize (m_payload m)).
Proof.
  intros Hh Hs. unfold decompress_zipentry. rewrite (ho_method _ _ _ Hh), Hs. cbn [STORED DEFLATED Z.eqb].
  destruct (ho_data_in _ _ _ Hh) as [H0 H1]. rewrite (ho_csize _ _ _ Hh), slice_copy by lia. cbn [obind].
  by rewrite (ho_data _ _ _ Hh).
Qed.



(** ** Theorems *)

(** C36. Reading an archive back: for every archive laid out by the format,
    [init_zipfile] succeeds, and its entries, which it links in reverse, are
    the members: names, methods, sizes and the places of the data. *)
Theorem init_zipfile_archive ms comment : archive_ok ms comment ->
  exists f, init_zipfile true (archive ms comment) = Done (Some f) /\ z_buf f = archive ms comment /\
    entryCount f = blen ms /\ Forall2 (holds (archive ms comment)) ms (rev (z_entries f)).
Proof. intros [Hms _ Hc Hcm Hlt Hun]. by apply init_ok. Qed.

(** [lookup_zipentry] on a C string never reads outside it, and finds the
    last member of the archive whose name is a prefix of the string (not only
    an equal name); null when there is none. *)
Theorem lookup_zipentry_archive ms comment name junk : archive_ok ms comment ->
  exists f, init_zipfile true (archive ms comment) = Done (Some f) /\ z_buf f = archive ms comment /\
    ((exists m e, lookup_zipentry f (name ++ Init.Byte.x00 :: junk) = Done (Some e) /\ holds (z_buf f) m e /\ last_prefix name ms m) \/
     (lookup_zipentry f (name ++ Init.Byte.x00 :: junk) = Done None /\ Forall (fun m => ~ m_name m `prefix_of` name) ms)).
Proof. apply lookup_ok. Qed.


Module ZipWitnesses.
Definition zeros (n : nat) : list byte := repeat Init.Byte.x00 n.
Definition stored (name data : String.string) : member :=
  mk_member (bytes_of name) STORED (blen (bytes_of data)) (bytes_of data) [] [] [] (zeros 6) (zeros 8) (zeros 8) (zeros 22).
Definition ms1 : list member := [stored "a" "hello"].
Definition foo : member := stored "foo" "hi".

Lemma unambiguous_check ms comment :
  forallb (fun i => match read_le_int (archive ms comment) (blen (locals ms ++ centrals 0 ms) + 1 + Z.of_nat i) with
                    | Done v => negb (v =? CD_SIGNATURE) | Crash _ => true end)
    (seq 0 (Z.to_nat (blen (archive ms comment) - 4 - blen (locals ms ++ centrals 0 ms)))) = true ->
  unambiguous ms comment.
Proof.
  intros Hf q Hq Hr. rewrite forallb_forall in Hf.
  specialize (Hf (Z.to_nat (q - 1 - blen (locals ms ++ centrals 0 ms)))). rewrite Z2Nat.id in Hf by lia.
  replace (blen (locals ms ++ centrals 0 ms) + 1 + (q - 1 - blen (locals ms ++ centrals 0 ms))) with q in Hf by lia.
  rewrite Hr, Z.eqb_refl in Hf. discriminate Hf. apply in_seq. lia.
Qed.

Lemma stored_member name data : blen (bytes_of name) < 2 ^ 16 -> blen (bytes_of data) < 2 ^ 32 -> member_ok (stored name data).
Proof.
  intros Hn Hd. pose proof (blen_nonneg (bytes_of data)). pose proof (blen_nonneg (bytes_of name)).
  split; cbn; unfold is_u16, is_u32, blen in *; cbn; try done; try lia.
Qed.

Lemma archive_ok_ex : archive_ok (ms1 ++ foo :: []) (bytes_of "zip").
Proof.
  split.
  - repeat constructor; by apply stored_member.
  - repeat constructor; cbn; unfold no_nul; cbn; set_solver.
  - done.
  - done.
  - vm_compute. done.
  - apply unambiguous_check. vm_compute. reflexivity.
Qed.

Lemma init_zipfile_archive_witness : exists f, init_zipfile true (archive (ms1 ++ [foo]) (bytes_of "zip")) = Done (Some f) /\
  entryCount f = 2.
Proof.
  destruct (init_zipfile_archive _ _ archive_ok_ex) as (f & Hi & _ & Hc & _). exists f. split; [exact Hi|exact Hc].
Defined.

(** "foobar" finds "foo". *)
Lemma lookup_zipentry_archive_witness : exists f m e, init_zipfile true (archive (ms1 ++ [foo]) (bytes_of "zip")) = Done (Some f) /\
  lookup_zipentry f (bytes_of "foobar" ++ [Init.Byte.x00]) = Done (Some e) /\ holds (z_buf f) m e /\
  last_prefix (bytes_of "foobar") (ms1 ++ [foo]) m.
Proof.
  destruct (lookup_zipentry_archive _ _ (bytes_of "foobar") [] archive_ok_ex) as (f & Hi & _ & [(m & e & Hl & Hh & Hp)|[_ Hn]]).
  - exists f, m, e. exact (conj Hi (conj Hl (conj Hh Hp))).
  - exfalso. apply Forall_app in Hn as [_ Hn]. apply Forall_cons_1 in Hn as [Hn _]. apply Hn. by exists (bytes_of "bar").
Defined.


(** A local header offset outside the buffer is dereferenced. *)
Lemma init_zipfile_out_of_bounds :
  init_zipfile true (central_entry foo (2 ^ 31) ++ end_record 1 49 0 []) = Crash OutOfBounds.
Proof. vm_compute. reflexivity. Qed.
End ZipWitnesses.
