(* ===== verification/Ext4Alloc.v ===== *)
(** * The ext4 allocator (ext4_utils: allocate.c, allocate.h, ext4_utils.c)

    The global variables [aux_info] and [info] are the constants of the
    section Allocator and the state [fs]; regions are cells of a heap with
    their [next] and [prev] pointers.  The message macro [error] ends the run
    by [longjmp] unless [force] is set, so a computation has three ends: a
    result, the jump ([Exit]) or undefined behaviour ([Fault]).  What is handed
    to libsparse is recorded as the sequence of calls, with the buffers by
    name: their contents may still change before the image is written.
    [malloc] and [calloc] are taken to succeed. *)
From S2P Require Import Prelude.

Abbreviation rloc := positive.

(** ** Data *)

Record fs_info := mk_info {
  i_len : Z; block_size : Z; blocks_per_group : Z; inodes_per_group : Z; inode_size : Z;
  feat_ro_compat : Z; bg_desc_reserve_blocks : Z
}.

(** The numbers of [aux_info]. *)
Record fs_aux_info := mk_aux {
  first_data_block : Z; len_blocks : Z; inode_table_blocks : Z; groups : Z; bg_desc_blocks : Z;
  default_i_flags : Z; blocks_per_ind : Z; blocks_per_dind : Z; blocks_per_tind : Z
}.

Record region := mk_region {
  r_block : Z; r_len : Z; r_bg : Z; r_next : option rloc; r_prev : option rloc
}.

(** [block_bitmap] is the start of [bitmaps], [inode_bitmap] its second half. *)
Record block_group_info := mk_bg {
  bg_first_block : Z; header_blocks : Z; data_blocks_used : Z; has_superblock : bool;
  bitmaps : list Z; inode_table : bool;
  bg_free_blocks : Z; first_free_block : Z; bg_free_inodes : Z; first_free_inode : Z;
  bg_flags : Z; used_dirs : Z
}.

Record region_list := mk_rl {
  rl_first : option rloc; rl_last : option rloc; rl_iter : option rloc; partial_iter : Z
}.

Record block_allocation := mk_alloc { al_list : region_list; oob_list : region_list }.

(** The fields of an inode the program uses, and the bytes stored behind the
    structure, in the rest of the inode's slot; further bytes are zero. *)
Record ext4_inode := mk_inode {
  i_size_lo : Z; i_blocks_lo : Z; i_flags : Z; i_block : list byte; i_file_acl_lo : Z;
  i_size_high : Z; l_i_blocks_high : Z;
  i_mode : Z; i_links_count : Z; i_uid : Z; i_gid : Z; i_atime : Z; i_ctime : Z; i_mtime : Z;
  i_extra_isize : Z; i_xattr : list byte
}.
Definition zero_inode : ext4_inode := mk_inode 0 0 0 (zeros 60) 0 0 0 0 0 0 0 0 0 0 0 [].

(** Assignments to the fields. *)
Definition set_size (i : ext4_inode) (lo high : Z) : ext4_inode :=
  mk_inode lo (i_blocks_lo i) (i_flags i) (i_block i) (i_file_acl_lo i) high (l_i_blocks_high i) (i_mode i) (i_links_count i)
    (i_uid i) (i_gid i) (i_atime i) (i_ctime i) (i_mtime i) (i_extra_isize i) (i_xattr i).
Definition set_blocks (i : ext4_inode) (lo high : Z) : ext4_inode :=
  mk_inode (i_size_lo i) lo (i_flags i) (i_block i) (i_file_acl_lo i) (i_size_high i) high (i_mode i) (i_links_count i)
    (i_uid i) (i_gid i) (i_atime i) (i_ctime i) (i_mtime i) (i_extra_isize i) (i_xattr i).
Definition set_flags (i : ext4_inode) (flags : Z) : ext4_inode :=
  mk_inode (i_size_lo i) (i_blocks_lo i) flags (i_block i) (i_file_acl_lo i) (i_size_high i) (l_i_blocks_high i) (i_mode i)
    (i_links_count i) (i_uid i) (i_gid i) (i_atime i) (i_ctime i) (i_mtime i) (i_extra_isize i) (i_xattr i).
Definition set_i_block (i : ext4_inode) (d : list byte) : ext4_inode :=
  mk_inode (i_size_lo i) (i_blocks_lo i) (i_flags i) d (i_file_acl_lo i) (i_size_high i) (l_i_blocks_high i) (i_mode i)
    (i_links_count i) (i_uid i) (i_gid i) (i_atime i) (i_ctime i) (i_mtime i) (i_extra_isize i) (i_xattr i).
Definition set_file_acl (i : ext4_inode) (b : Z) : ext4_inode :=
  mk_inode (i_size_lo i) (i_blocks_lo i) (i_flags i) (i_block i) b (i_size_high i) (l_i_blocks_high i) (i_mode i)
    (i_links_count i) (i_uid i) (i_gid i) (i_atime i) (i_ctime i) (i_mtime i) (i_extra_isize i) (i_xattr i).
Definition set_mode (i : ext4_inode) (mode links : Z) : ext4_inode :=
  mk_inode (i_size_lo i) (i_blocks_lo i) (i_flags i) (i_block i) (i_file_acl_lo i) (i_size_high i) (l_i_blocks_high i) mode
    links (i_uid i) (i_gid i) (i_atime i) (i_ctime i) (i_mtime i) (i_extra_isize i) (i_xattr i).
Definition set_owner (i : ext4_inode) (uid gid time : Z) : ext4_inode :=
  mk_inode (i_size_lo i) (i_blocks_lo i) (i_flags i) (i_block i) (i_file_acl_lo i) (i_size_high i) (l_i_blocks_high i) (i_mode i)
    (i_links_count i) uid gid time time time (i_extra_isize i) (i_xattr i).
Definition set_xattr (i : ext4_inode) (extra_isize : Z) (d : list byte) : ext4_inode :=
  mk_inode (i_size_lo i) (i_blocks_lo i) (i_flags i) (i_block i) (i_file_acl_lo i) (i_size_high i) (l_i_blocks_high i) (i_mode i)
    (i_links_count i) (i_uid i) (i_gid i) (i_atime i) (i_ctime i) (i_mtime i) extra_isize d.

(** An inode by group and index in its table. *)
Abbreviation inode_ptr := (Z * Z)%type.

(** Buffers handed to libsparse: the bitmaps and the inode table of a group,
    and the buffers allocated on the way, by number. *)
Inductive buffer := BgBitmaps (bg : Z) | BgInodeTable (bg : Z) | Buf (n : nat).

(** Calls of [sparse_file_add_data] and [sparse_file_add_file]. *)
Inductive queued :=
  | QData (p : buffer) (off len block : Z)
  | QFile (filename : string) (off len block : Z).

Record fs := mk_fs {
  bgs : list block_group_info;
  heap : gmap rloc region;
  ext4_sparse_file : list queued;
  xattrs : list (inode_ptr * nat);
  inodes : gmap inode_ptr ext4_inode;
  bufs : list (list byte)
}.

(** ** Computations *)

Inductive result (A : Type) :=
  | Ok (a : A) (s : fs)
  | Exit (s : fs)
  | Fault (f : fault).
Arguments Ok {A} a s.
Arguments Exit {A} s.
Arguments Fault {A} f.

Definition fsM (A : Type) : Type := fs -> result A.
#[export] Instance fsM_ret : MRet fsM := fun A a s => Ok a s.
#[export] Instance fsM_bind : MBind fsM := fun A B k m s =>
  match m s with Ok a s => k a s | Exit s => Exit s | Fault f => Fault f end.

Definition fault_with {A} (f : fault) : fsM A := fun _ => Fault f.
Definition lift {A} (o : outcome A) : fsM A := fun s =>
  match o with Done a => Ok a s | Crash f => Fault f end.
Definition get_state : fsM fs := fun s => Ok s s.

Definition get_bg (i : Z) : fsM block_group_info := fun s =>
  match bgs s !! Z.to_nat i with Some bg => Ok bg s | None => Fault OutOfBounds end.
Definition put_bg (i : Z) (bg : block_group_info) : fsM unit := fun s =>
  Ok tt (mk_fs (<[Z.to_nat i := bg]> (bgs s)) (heap s) (ext4_sparse_file s) (xattrs s) (inodes s) (bufs s)).

Definition with_heap (s : fs) (h : gmap rloc region) : fs :=
  mk_fs (bgs s) h (ext4_sparse_file s) (xattrs s) (inodes s) (bufs s).

Definition new_region (r : region) : fsM rloc := fun s =>
  let p := fresh (dom (heap s)) in Ok p (with_heap s (<[p := r]> (heap s))).
Definition load (p : option rloc) : fsM region := fun s =>
  match p with
  | None => Fault NullDeref
  | Some p => match heap s !! p with Some r => Ok r s | None => Fault UseAfterFree end
  end.
Definition store (p : option rloc) (r : region) : fsM unit := fun s =>
  match p with
  | None => Fault NullDeref
  | Some p => match heap s !! p with Some _ => Ok tt (with_heap s (<[p := r]> (heap s))) | None => Fault UseAfterFree end
  end.
Definition free_region (p : option rloc) : fsM unit := fun s =>
  match p with
  | None => Ok tt s
  | Some p => match heap s !! p with Some _ => Ok tt (with_heap s (delete p (heap s))) | None => Fault DoubleFree end
  end.

Definition queue (q : queued) : fsM unit := fun s =>
  Ok tt (mk_fs (bgs s) (heap s) (ext4_sparse_file s ++ [q]) (xattrs s) (inodes s) (bufs s)).
Definition calloc (n : Z) : fsM nat := fun s =>
  Ok (length (bufs s)) (mk_fs (bgs s) (heap s) (ext4_sparse_file s) (xattrs s) (inodes s) (bufs s ++ [zeros n])).
(** Store bytes in a buffer. *)
Definition poke (p : nat) (off : Z) (d : list byte) : fsM unit := fun s =>
  match bufs s !! p with
  | Some b => if off + blen d <=? blen b
              then Ok tt (mk_fs (bgs s) (heap s) (ext4_sparse_file s) (xattrs s) (inodes s) (<[p := write_at b off d]> (bufs s)))
              else Fault BufferOverflow
  | None => Fault UseAfterFree
  end.
Definition read_inode (p : inode_ptr) : fsM ext4_inode := fun s => Ok (default zero_inode (inodes s !! p)) s.
Definition write_inode (p : inode_ptr) (i : ext4_inode) : fsM unit := fun s =>
  Ok tt (mk_fs (bgs s) (heap s) (ext4_sparse_file s) (xattrs s) (<[p := i]> (inodes s)) (bufs s)).
Definition update_inode (p : inode_ptr) (f : ext4_inode -> ext4_inode) : fsM unit := i ← read_inode p; write_inode p (f i).

Definition with_next (r : region) (n : option rloc) : region := mk_region (r_block r) (r_len r) (r_bg r) n (r_prev r).
Definition with_prev (r : region) (p : option rloc) : region := mk_region (r_block r) (r_len r) (r_bg r) (r_next r) p.
Definition with_len (r : region) (l : Z) : region := mk_region (r_block r) l (r_bg r) (r_next r) (r_prev r).

(** ** Bitmaps *)

Definition EXT4_ALLOCATE_FAILED : Z := 2 ^ 32 - 1.
Definition EXT4_BG_INODE_UNINIT : Z := 1.
Definition EXT4_FEATURE_RO_COMPAT_SPARSE_SUPER : Z := 1.
Definition EXT4_NOATIME_FL : Z := 0x80.
Definition EXT4_XATTR_MAGIC : Z := 0xEA020000.

Definition bm_byte (bm : list Z) (i : Z) : outcome Z :=
  match bm !! Z.to_nat i with Some v => Done v | None => Crash OutOfBounds end.
Definition bm_set (bm : list Z) (i v : Z) : list Z := <[Z.to_nat i := v]> bm.

Definition bitmap_get_bit (bm : list Z) (bit : Z) : outcome Z :=
  let! v := bm_byte bm (bit / 8) in
  Done (if negb (Z.land v (Z.shiftl 1 (bit mod 8)) =? 0) then 1 else 0).

Definition bitmap_clear_bit (bm : list Z) (bit : Z) : outcome (list Z) :=
  let! v := bm_byte bm (bit / 8) in
  Done (bm_set bm (bit / 8) (u8 (Z.land v (Z.lnot (Z.shiftl 1 (bit mod 8)))))).

Definition bitmap_set_bit (bm : list Z) (bit : Z) : outcome (list Z * Z) :=
  let! v := bm_byte bm (bit / 8) in
  if negb (Z.land v (Z.shiftl 1 (bit mod 8)) =? 0) then Done (bm, 1)
  else Done (bm_set bm (bit / 8) (Z.lor v (Z.shiftl 1 (bit mod 8))), 0).

Definition bitmap_set_8_bits (bm : list Z) (bit : Z) : outcome (list Z * Z) :=
  let! v := bm_byte bm (bit / 8) in Done (bm_set bm (bit / 8) 0xFF, v).

(** The three loops of [reserve_blocks] on [(i, block)]: bits up to a byte
    boundary, whole bytes, the remaining bits.  [None] is a block that was
    reserved already. *)
Fixpoint reserve_head (fuel : nat) (bm : list Z) (num i block : Z) : outcome (list Z * option (Z * Z)) :=
  if (i <? num) && negb (block mod 8 =? 0) then
    match fuel with
    | O => Crash OutOfFuel
    | S fuel =>
        let! (bm, r) := bitmap_set_bit bm block in
        if negb (r =? 0) then Done (bm, None) else reserve_head fuel bm num (u32 (i + 1)) (u32 (block + 1))
    end
  else Done (bm, Some (i, block)).

Fixpoint reserve_bytes (fuel : nat) (bm : list Z) (num i block : Z) : outcome (list Z * option (Z * Z)) :=
  if u32 (i + 8) <=? Z.land num (u32 (Z.lnot 7)) then
    match fuel with
    | O => Crash OutOfFuel
    | S fuel =>
        let! (bm, r) := bitmap_set_8_bits bm block in
        if negb (r =? 0) then Done (bm, None) else reserve_bytes fuel bm num (u32 (i + 8)) (u32 (block + 8))
    end
  else Done (bm, Some (i, block)).

Fixpoint reserve_tail (fuel : nat) (bm : list Z) (num i block : Z) : outcome (list Z * bool) :=
  if i <? num then
    match fuel with
    | O => Crash OutOfFuel
    | S fuel =>
        let! (bm, r) := bitmap_set_bit bm block in
        if negb (r =? 0) then Done (bm, false) else reserve_tail fuel bm num (u32 (i + 1)) (u32 (block + 1))
    end
  else Done (bm, true).

Definition mark_blocks (bm : list Z) (start num : Z) : outcome (list Z * bool) :=
  let! (bm, r) := reserve_head (Z.to_nat num) bm num 0 start in
  match r with
  | None => Done (bm, false)
  | Some (i, block) =>
      let! (bm, r) := reserve_bytes (Z.to_nat num) bm num i block in
      match r with
      | None => Done (bm, false)
      | Some (i, block) => reserve_tail (Z.to_nat num) bm num i block
      end
  end.

(** The loop of [free_blocks], from [block] down. *)
Fixpoint clear_blocks (n : nat) (bm : list Z) (block : Z) : outcome (list Z) :=
  match n with
  | O => Done bm
  | S n => let! bm := bitmap_clear_bit bm block in clear_blocks n bm (u32 (block - 1))
  end.

Definition with_bitmaps (bg : block_group_info) (bm : list Z) : block_group_info :=
  mk_bg (bg_first_block bg) (header_blocks bg) (data_blocks_used bg) (has_superblock bg) bm (inode_table bg)
    (bg_free_blocks bg) (first_free_block bg) (bg_free_inodes bg) (first_free_inode bg) (bg_flags bg) (used_dirs bg).

(** The bitmap with the free count and the first free block. *)
Definition with_blocks (bg : block_group_info) (bm : list Z) (free first : Z) : block_group_info :=
  mk_bg (bg_first_block bg) (header_blocks bg) (data_blocks_used bg) (has_superblock bg) bm (inode_table bg)
    free first (bg_free_inodes bg) (first_free_inode bg) (bg_flags bg) (used_dirs bg).

(** ** Backup superblocks *)

(** [while (a > b)]; [a / b < a], so [a] turns are enough. *)
Fixpoint is_power_of_loop (fuel : nat) (a b : Z) : bool :=
  if b <? a then
    match fuel with
    | O => false
    | S fuel => if negb (a mod b =? 0) then false else is_power_of_loop fuel (a / b) b
    end
  else a =? b.
Definition is_power_of (a b : Z) : bool := is_power_of_loop (Z.to_nat a) a b.

Section Allocator.
Context (force : bool) (info : fs_info).

Definition ext4_bg_has_super_block (bg : Z) : bool :=
  if Z.land (feat_ro_compat info) EXT4_FEATURE_RO_COMPAT_SPARSE_SUPER =? 0 then true
  else if (bg =? 0) || (bg =? 1) then true
  else is_power_of bg 3 || is_power_of bg 5 || is_power_of bg 7.

(** The numbers [ext4_create_fs_aux_info] computes. *)
Definition ext4_create_fs_aux_info : fs_aux_info :=
  let first_data_block := if 1024 <? block_size info then 0 else 1 in
  let len_blocks := u64 (Z.quot (i_len info) (block_size info)) in
  let inode_table_blocks := u32 (u32 (inodes_per_group info * inode_size info) + block_size info - 1) / block_size info in
  let groups := u32 (u64 (u64 (len_blocks - first_data_block) + blocks_per_group info - 1) / blocks_per_group info) in
  let blocks_per_ind := block_size info / 4 in
  let blocks_per_dind := u32 (blocks_per_ind * blocks_per_ind) in
  let blocks_per_tind := u32 (blocks_per_dind * blocks_per_dind) in
  let bg_desc_blocks := u32 (u64 (groups * 32 + block_size info - 1) / block_size info) in
  let last_group_size := u32 (len_blocks mod blocks_per_group info) in
  let last_header_size :=
    if ext4_bg_has_super_block (s32 (groups - 1))
    then u32 (2 + inode_table_blocks + 1 + bg_desc_blocks + bg_desc_reserve_blocks info)
    else u32 (2 + inode_table_blocks) in
  if (0 <? last_group_size) && (last_group_size <? last_header_size)
  then mk_aux first_data_block (u64 (len_blocks - last_group_size)) inode_table_blocks (u32 (groups - 1)) bg_desc_blocks
         EXT4_NOATIME_FL blocks_per_ind blocks_per_dind blocks_per_tind
  else mk_aux first_data_block len_blocks inode_table_blocks groups bg_desc_blocks
         EXT4_NOATIME_FL blocks_per_ind blocks_per_dind blocks_per_tind.

Context (aux : fs_aux_info).

(** The message, and the jump unless [force]. *)
Definition error : fsM unit := fun s => if force then Ok tt s else Exit s.

(** ** Blocks of a group *)

Definition get_free_blocks (bg : Z) : fsM Z := b ← get_bg bg; mret (bg_free_blocks b).

Definition reserve_blocks (n start num : Z) : fsM Z :=
  bg ← get_bg n;
  if bg_free_blocks bg <? num then mret (-1) else
  '(bm, ok) ← lift (mark_blocks (bitmaps bg) start num);
  _ ← put_bg n (with_bitmaps bg bm);
  if negb ok then _ ← error; mret (-1) else
  _ ← put_bg n (with_blocks bg bm (u32 (bg_free_blocks bg - num))
        (if start =? first_free_block bg then u32 (start + num) else first_free_block bg));
  mret 0.

Definition free_blocks (n num_blocks : Z) : fsM unit :=
  bg ← get_bg n;
  bm ← lift (clear_blocks (Z.to_nat num_blocks) (bitmaps bg) (u32 (first_free_block bg - 1)));
  put_bg n (with_blocks bg bm (u32 (bg_free_blocks bg + num_blocks)) (u32 (first_free_block bg - num_blocks))).

(** The blocks of the superblock copy and the descriptors. *)
Definition super_blocks : Z := 1 + bg_desc_blocks aux + bg_desc_reserve_blocks info.

Definition init_bg (i : Z) : fsM unit :=
  let has := ext4_bg_has_super_block (s32 i) in
  let header_blocks := s32 (2 + inode_table_blocks aux + (if has then super_blocks else 0)) in
  let first := u32 (first_data_block aux + i * blocks_per_group info) in
  let block := u32 (if has then first + super_blocks else first) in
  _ ← put_bg i (mk_bg first header_blocks 0 has (replicate (Z.to_nat (2 * block_size info)) 0) false
        (blocks_per_group info) 0 (inodes_per_group info) 1 EXT4_BG_INODE_UNINIT 0);
  _ ← queue (QData (BgBitmaps i) 0 (u32 (2 * block_size info)) block);
  r ← reserve_blocks i 0 (u32 header_blocks);
  _ ← (if r <? 0 then error else mret tt);
  if len_blocks aux <? u32 (first + blocks_per_group info) then
    let overrun := u32 (u32 (first + blocks_per_group info) - len_blocks aux) in
    _ ← reserve_blocks i (u32 (blocks_per_group info - overrun)) overrun; mret tt
  else mret tt.

Fixpoint init_bgs (gs : list nat) : fsM unit :=
  match gs with
  | [] => mret tt
  | i :: gs => _ ← init_bg (Z.of_nat i); init_bgs gs
  end.

Definition zero_bg : block_group_info := mk_bg 0 0 0 false [] false 0 0 0 0 0 0.

Definition block_allocator_init : fsM unit :=
  _ ← (fun s => Ok tt (mk_fs (replicate (Z.to_nat (groups aux)) zero_bg) (heap s) (ext4_sparse_file s)
                         (xattrs s) (inodes s) (bufs s)) : result unit);
  init_bgs (seq 0 (Z.to_nat (groups aux))).

Definition block_allocator_free : fsM unit := fun s =>
  Ok tt (mk_fs [] (heap s) (ext4_sparse_file s) (xattrs s) (inodes s) (bufs s)).

(** ** Allocation *)

Definition add_used (bg : block_group_info) (len : Z) : block_group_info :=
  mk_bg (bg_first_block bg) (header_blocks bg) (s32 (data_blocks_used bg + len)) (has_superblock bg) (bitmaps bg)
    (inode_table bg) (bg_free_blocks bg) (first_free_block bg) (bg_free_inodes bg) (first_free_inode bg)
    (bg_flags bg) (used_dirs bg).

Definition ext4_allocate_blocks_from_block_group (len bg_num : Z) : fsM Z :=
  free ← get_free_blocks bg_num;
  if free <? len then mret EXT4_ALLOCATE_FAILED else
  bg ← get_bg bg_num;
  let block := first_free_block bg in
  r ← reserve_blocks bg_num block len;
  if r <? 0 then _ ← error; mret EXT4_ALLOCATE_FAILED else
  bg ← get_bg bg_num;
  _ ← put_bg bg_num (add_used bg len);
  mret (u32 (bg_first_block bg + block)).

Fixpoint allocate_block_loop (gs : list nat) : fsM Z :=
  match gs with
  | [] => mret EXT4_ALLOCATE_FAILED
  | i :: gs =>
      block ← ext4_allocate_blocks_from_block_group 1 (Z.of_nat i);
      if negb (block =? EXT4_ALLOCATE_FAILED) then mret block else allocate_block_loop gs
  end.
Definition allocate_block : fsM Z := allocate_block_loop (seq 0 (Z.to_nat (groups aux))).

(** One turn of the search on [(found_bg, found_bg_len)]. *)
Definition best_step (len : Z) (found : Z * Z) (i bg_len : Z) : Z * Z :=
  let '(found_bg, found_bg_len) := found in
  if ((len <=? bg_len) && ((found_bg_len =? 0) || (bg_len <? found_bg_len)))
     || ((found_bg_len <? len) && (found_bg_len <? bg_len))
  then (i, bg_len) else (found_bg, found_bg_len).

Fixpoint best_loop (len : Z) (gs : list nat) (found : Z * Z) : fsM (Z * Z) :=
  match gs with
  | [] => mret found
  | i :: gs => bg ← get_bg (Z.of_nat i); best_loop len gs (best_step len found (Z.of_nat i) (bg_free_blocks bg))
  end.

Definition ext4_allocate_best_fit_partial (len : Z) : fsM (option rloc) :=
  '(found_bg, found_bg_len) ← best_loop len (seq 0 (Z.to_nat (groups aux))) (0, 0);
  if negb (found_bg_len =? 0) then
    let allocate_len := Z.min len found_bg_len in
    block ← ext4_allocate_blocks_from_block_group allocate_len found_bg;
    if block =? EXT4_ALLOCATE_FAILED then _ ← error; mret None else
    p ← new_region (mk_region block allocate_len (s32 found_bg) None None);
    mret (Some p)
  else _ ← error; mret None.

(** The loop on [(first_reg, prev_reg, len)]; every region has at least one
    block, so [len] turns are enough. *)
Fixpoint best_fit_loop (fuel : nat) (first_reg prev_reg : option rloc) (len : Z) : fsM (option rloc) :=
  if len =? 0 then mret first_reg else
  match fuel with
  | O => fault_with OutOfFuel
  | S fuel =>
      reg ← ext4_allocate_best_fit_partial len;
      match reg with
      | None => mret None
      | Some _ =>
          let first_reg := match first_reg with None => reg | _ => first_reg end in
          _ ← (match prev_reg with
               | None => mret tt
               | Some _ =>
                   pr ← load prev_reg; _ ← store prev_reg (with_next pr reg);
                   r ← load reg; store reg (with_prev r prev_reg)
               end);
          r ← load reg;
          best_fit_loop fuel first_reg reg (u32 (len - r_len r))
      end
  end.
Definition ext4_allocate_best_fit (len : Z) : fsM (option rloc) := best_fit_loop (Z.to_nat len) None None len.

Definition create_allocation : block_allocation := mk_alloc (mk_rl None None None 0) (mk_rl None None None 0).

(** [last] is set to the first region, as in the code. *)
Definition allocate_blocks (len : Z) : fsM (option block_allocation) :=
  reg ← ext4_allocate_best_fit len;
  match reg with
  | None => mret None
  | Some _ => mret (Some (mk_alloc (mk_rl reg reg reg 0) (oob_list create_allocation)))
  end.

(** ** Inodes *)

Definition allocate_bg_inode_table (n : Z) : fsM unit :=
  bg ← get_bg n;
  if inode_table bg then mret tt else
  let block := u32 (bg_first_block bg + 2 + (if has_superblock bg then super_blocks else 0)) in
  _ ← queue (QData (BgInodeTable n) 0 (u32 (inode_table_blocks aux * block_size info)) block);
  put_bg n (mk_bg (bg_first_block bg) (header_blocks bg) (data_blocks_used bg) (has_superblock bg) (bitmaps bg) true
    (bg_free_blocks bg) (first_free_block bg) (bg_free_inodes bg) (first_free_inode bg)
    (Z.land (bg_flags bg) (u16 (Z.lnot EXT4_BG_INODE_UNINIT))) (used_dirs bg)).

Definition get_inode (inode : Z) : fsM inode_ptr :=
  let inode := u32 (inode - 1) in
  let bg := s32 (inode / inodes_per_group info) in
  _ ← allocate_bg_inode_table bg;
  mret (bg, inode mod inodes_per_group info).

Definition get_free_inodes (bg : Z) : fsM Z := b ← get_bg bg; mret (bg_free_inodes b).

(** The bits [first + i - 1] of the inode bitmap, for [n] values of [i]. *)
Fixpoint mark_inodes (n : nat) (bm : list Z) (first i : Z) : outcome (list Z) :=
  match n with
  | O => Done bm
  | S n =>
      let inode := u32 (first + i - 1) in
      let! v := bm_byte bm (block_size info + inode / 8) in
      mark_inodes n (bm_set bm (block_size info + inode / 8) (Z.lor v (Z.shiftl 1 (inode mod 8)))) first (u32 (i + 1))
  end.

Definition reserve_inodes (n num : Z) : fsM Z :=
  free ← get_free_inodes n;
  if free <? num then mret EXT4_ALLOCATE_FAILED else
  bg ← get_bg n;
  bm ← lift (mark_inodes (Z.to_nat num) (bitmaps bg) (first_free_inode bg) 0);
  let inode := first_free_inode bg in
  _ ← put_bg n (mk_bg (bg_first_block bg) (header_blocks bg) (data_blocks_used bg) (has_superblock bg) bm (inode_table bg)
        (bg_free_blocks bg) (first_free_block bg) (u32 (bg_free_inodes bg - num)) (u32 (first_free_inode bg + num))
        (bg_flags bg) (used_dirs bg));
  mret inode.

Fixpoint allocate_inode_loop (gs : list nat) : fsM Z :=
  match gs with
  | [] => mret EXT4_ALLOCATE_FAILED
  | i :: gs =>
      inode ← reserve_inodes (Z.of_nat i) 1;
      if negb (inode =? EXT4_ALLOCATE_FAILED) then mret (u32 (Z.of_nat i * inodes_per_group info + inode))
      else allocate_inode_loop gs
  end.
Definition allocate_inode : fsM Z := allocate_inode_loop (seq 0 (Z.to_nat (groups aux))).

Definition add_directory (inode : Z) : fsM unit :=
  let n := s32 (u32 (inode - 1) / inodes_per_group info) in
  bg ← get_bg n;
  put_bg n (mk_bg (bg_first_block bg) (header_blocks bg) (data_blocks_used bg) (has_superblock bg) (bitmaps bg) (inode_table bg)
    (bg_free_blocks bg) (first_free_block bg) (bg_free_inodes bg) (first_free_inode bg) (bg_flags bg) (u16 (used_dirs bg + 1))).

Definition get_directories (n : Z) : fsM Z := bg ← get_bg n; mret (used_dirs bg).
Definition get_bg_flags (n : Z) : fsM Z := bg ← get_bg n; mret (bg_flags bg).

(** ** Extended attribute blocks *)

Fixpoint xattr_find_loop (l : list (inode_ptr * nat)) (inode : inode_ptr) : option nat :=
  match l with
  | [] => None
  | (i, header) :: l => if bool_decide (i = inode) then Some header else xattr_find_loop l inode
  end.
Definition xattr_list_find (inode : inode_ptr) : fsM (option nat) := fun s => Ok (xattr_find_loop (xattrs s) inode) s.
Definition xattr_list_insert (inode : inode_ptr) (header : nat) : fsM unit := fun s =>
  Ok tt (mk_fs (bgs s) (heap s) (ext4_sparse_file s) ((inode, header) :: xattrs s) (inodes s) (bufs s)).

(** [sparse_file_add_data] is taken to succeed. *)
Definition get_xattr_block_for_inode (inode : inode_ptr) : fsM nat :=
  found ← xattr_list_find inode;
  match found with
  | Some block => mret block
  | None =>
      block_num ← allocate_block;
      block ← calloc (block_size info);
      _ ← poke block 0 (le_split 4 EXT4_XATTR_MAGIC);
      _ ← poke block 4 (le_split 4 1);
      _ ← poke block 8 (le_split 4 1);
      _ ← update_inode inode (fun i => set_file_acl (set_blocks i (u32 (i_blocks_lo i + block_size info / 512)) (l_i_blocks_high i)) block_num);
      _ ← queue (QData (Buf block) 0 (block_size info) block_num);
      _ ← xattr_list_insert inode block;
      mret block
  end.
End Allocator.

(** ** Region lists *)

Definition region_list_remove (list : region_list) (reg : option rloc) : fsM region_list :=
  r ← load reg;
  _ ← (match r_prev r with
       | None => mret tt
       | Some _ => p ← load (r_prev r); store (r_prev r) (with_next p (r_next r))
       end);
  _ ← (match r_next r with
       | None => mret tt
       | Some _ => n ← load (r_next r); store (r_next r) (with_prev n (r_prev r))
       end);
  let first := if bool_decide (rl_first list = reg) then r_next r else rl_first list in
  let last := if bool_decide (rl_last list = reg) then r_prev r else rl_last list in
  r ← load reg;
  _ ← store reg (with_prev (with_next r None) None);
  mret (mk_rl first last (rl_iter list) (partial_iter list)).

Definition region_list_append (list : region_list) (reg : option rloc) : fsM region_list :=
  match rl_first list with
  | None =>
      r ← load reg; _ ← store reg (with_prev r None);
      r ← load reg; _ ← store reg (with_next r None);
      mret (mk_rl reg reg reg 0)
  | Some _ =>
      l ← load (rl_last list); _ ← store (rl_last list) (with_next l reg);
      r ← load reg; _ ← store reg (with_prev r (rl_last list));
      r ← load reg; _ ← store reg (with_next r None);
      mret (mk_rl (rl_first list) reg (rl_iter list) (partial_iter list))
  end.

Definition append_region (alloc : block_allocation) (block len bg_num : Z) : fsM block_allocation :=
  reg ← new_region (mk_region block len bg_num None None);
  l ← region_list_append (al_list alloc) (Some reg);
  mret (mk_alloc l (oob_list alloc)).

(** Walks over the links of a list; the heap bounds the number of turns. *)
Section Walk.
Context {A : Type} (f : A -> region -> A).

Fixpoint walk_loop (fuel : nat) (a : A) (reg : option rloc) : fsM A :=
  match reg with
  | None => mret a
  | Some _ =>
      match fuel with
      | O => fault_with OutOfFuel
      | S fuel => r ← load reg; walk_loop fuel (f a r) (r_next r)
      end
  end.
Definition walk (a : A) (reg : option rloc) : fsM A := s ← get_state; walk_loop (S (size (heap s))) a reg.
End Walk.

Definition block_allocation_num_regions (alloc : block_allocation) : fsM Z :=
  i ← walk (fun i _ => u32 (i + 1)) 0 (rl_first (al_list alloc)); mret (s32 i).

Definition block_allocation_len (alloc : block_allocation) : fsM Z :=
  i ← walk (fun i r => u32 (i + r_len r)) 0 (rl_first (al_list alloc)); mret (s32 i).

(** [get_block] and [get_oob_block] from the iterator on. *)
Fixpoint get_block_loop (fuel : nat) (reg : option rloc) (block : Z) : fsM Z :=
  match reg with
  | None => mret EXT4_ALLOCATE_FAILED
  | Some _ =>
      match fuel with
      | O => fault_with OutOfFuel
      | S fuel =>
          r ← load reg;
          if block <? r_len r then mret (u32 (r_block r + block)) else get_block_loop fuel (r_next r) (u32 (block - r_len r))
      end
  end.
Definition get_block_of (list : region_list) (block : Z) : fsM Z :=
  s ← get_state; get_block_loop (S (size (heap s))) (rl_iter list) (u32 (block + partial_iter list)).
Definition get_block (alloc : block_allocation) (block : Z) : fsM Z := get_block_of (al_list alloc) block.
Definition get_oob_block (alloc : block_allocation) (block : Z) : fsM Z := get_block_of (oob_list alloc) block.

(** The block and the length. *)
Definition get_region (alloc : block_allocation) : fsM (Z * Z) :=
  r ← load (rl_iter (al_list alloc)); mret (r_block r, u32 (r_len r - partial_iter (al_list alloc))).

Definition set_iter (alloc : block_allocation) (iter : option rloc) (partial : Z) : block_allocation :=
  mk_alloc (mk_rl (rl_first (al_list alloc)) (rl_last (al_list alloc)) iter partial) (oob_list alloc).

Definition get_next_region (alloc : block_allocation) : fsM block_allocation :=
  r ← load (rl_iter (al_list alloc)); mret (set_iter alloc (r_next r) 0).

Definition last_region (alloc : block_allocation) : bool := bool_decide (rl_iter (al_list alloc) = None).

Definition rewind_alloc (alloc : block_allocation) : block_allocation := set_iter alloc (rl_first (al_list alloc)) 0.

(** [last] is not moved when a region before the last one remains. *)
Fixpoint reduce_loop (fuel : nat) (alloc : block_allocation) (len : Z) : fsM block_allocation :=
  if len =? 0 then mret alloc else
  match fuel with
  | O => fault_with OutOfFuel
  | S fuel =>
      let last_reg := rl_last (al_list alloc) in
      r ← load last_reg;
      if len <? r_len r then
        _ ← free_blocks (r_bg r) len;
        _ ← store last_reg (with_len r (u32 (r_len r - len)));
        reduce_loop fuel alloc 0
      else
        _ ← free_blocks (r_bg r) (r_len r);
        let len := u32 (len - r_len r) in
        l ← (match r_prev r with
             | Some _ => p ← load (r_prev r); _ ← store (r_prev r) (with_next p None); mret (al_list alloc)
             | None => mret (mk_rl None None None 0)
             end);
        _ ← free_region last_reg;
        reduce_loop fuel (mk_alloc l (oob_list alloc)) len
  end.
Definition reduce_allocation (alloc : block_allocation) (len : Z) : fsM block_allocation :=
  s ← get_state; reduce_loop (S (size (heap s))) alloc len.

(** [while (reg && len >= reg->len)]. *)
Fixpoint split_search (fuel : nat) (reg : option rloc) (len : Z) : fsM (option rloc * Z) :=
  match reg with
  | None => mret (None, len)
  | Some _ =>
      match fuel with
      | O => fault_with OutOfFuel
      | S fuel =>
          r ← load reg;
          if r_len r <=? len then split_search fuel (r_next r) (u32 (len - r_len r)) else mret (reg, len)
      end
  end.

Definition do_split_allocation (alloc : block_allocation) (len : Z) : fsM (block_allocation * option rloc) :=
  s ← get_state;
  '(reg, len) ← split_search (S (size (heap s))) (rl_iter (al_list alloc)) len;
  match reg with
  | None => mret (alloc, None)
  | Some _ =>
      if 0 <? len then
        r ← load reg;
        new ← new_region (mk_region (u32 (r_block r + len)) (u32 (r_len r - len)) (r_bg r) (r_next r) reg);
        _ ← store reg (with_len (with_next r (Some new)) len);
        mret (set_iter alloc (Some new) (partial_iter (al_list alloc)), rl_iter (al_list alloc))
      else mret (alloc, reg)
  end.

Definition split_allocation (alloc : block_allocation) (len : Z) : fsM (block_allocation * option rloc) :=
  '(alloc, _) ← do_split_allocation alloc (partial_iter (al_list alloc));
  '(alloc, middle) ← do_split_allocation alloc len;
  mret (set_iter alloc (rl_iter (al_list alloc)) 0, middle).

Fixpoint move_oob (fuel : nat) (alloc : block_allocation) (oob : option rloc) : fsM block_allocation :=
  match oob with
  | None => mret alloc
  | Some _ =>
      if bool_decide (oob = rl_iter (al_list alloc)) then mret alloc else
      match fuel with
      | O => fault_with OutOfFuel
      | S fuel =>
          r ← load oob;
          l ← region_list_remove (al_list alloc) oob;
          o ← region_list_append (oob_list alloc) oob;
          move_oob fuel (mk_alloc l o) (r_next r)
      end
  end.

Definition reserve_oob_blocks (alloc : block_allocation) (blocks : Z) : fsM (block_allocation * Z) :=
  '(alloc, oob) ← split_allocation alloc (u32 blocks);
  match oob with
  | None => mret (alloc, -1)
  | Some _ => s ← get_state; alloc ← move_oob (S (size (heap s))) alloc oob; mret (alloc, 0)
  end.

(** The iterator itself is not moved, only [partial_iter].  [blocks] is an
    [int]; the comparison and the difference are unsigned. *)
Fixpoint advance_loop (fuel : nat) (list : region_list) (reg : option rloc) (blocks : Z) : fsM (region_list * Z) :=
  match reg with
  | None => mret (list, if 0 <? blocks then -1 else 0)
  | Some _ =>
      if blocks <=? 0 then mret (list, 0) else
      match fuel with
      | O => fault_with OutOfFuel
      | S fuel =>
          r ← load reg;
          if u32 (partial_iter list + blocks) <? r_len r
          then mret (mk_rl (rl_first list) (rl_last list) (rl_iter list) (u32 (partial_iter list + blocks)), 0)
          else advance_loop fuel (mk_rl (rl_first list) (rl_last list) (rl_iter list) 0) (r_next r)
                 (s32 (blocks - u32 (r_len r - partial_iter list)))
      end
  end.
Definition advance_list_ptr (list : region_list) (blocks : Z) : fsM (region_list * Z) :=
  s ← get_state; advance_loop (S (size (heap s))) list (rl_iter list) blocks.

Definition advance_blocks (alloc : block_allocation) (blocks : Z) : fsM (block_allocation * Z) :=
  '(l, r) ← advance_list_ptr (al_list alloc) blocks; mret (mk_alloc l (oob_list alloc), r).
Definition advance_oob_blocks (alloc : block_allocation) (blocks : Z) : fsM (block_allocation * Z) :=
  '(l, r) ← advance_list_ptr (oob_list alloc) blocks; mret (mk_alloc (al_list alloc) l, r).

(** [region_list_append] clears the link the loop goes on with. *)
Fixpoint append_loop (fuel : nat) (list : region_list) (reg : option rloc) : fsM region_list :=
  match reg with
  | None => mret list
  | Some _ =>
      match fuel with
      | O => fault_with OutOfFuel
      | S fuel => list ← region_list_append list reg; r ← load reg; append_loop fuel list (r_next r)
      end
  end.

Definition append_oob_allocation (force : bool) (aux : fs_aux_info) (alloc : block_allocation) (len : Z)
    : fsM (block_allocation * Z) :=
  reg ← ext4_allocate_best_fit force aux len;
  match reg with
  | None => _ ← error force; mret (alloc, -1)
  | Some _ => s ← get_state; o ← append_loop (S (size (heap s))) (oob_list alloc) reg; mret (mk_alloc (al_list alloc) o, 0)
  end.

Fixpoint free_regions (fuel : nat) (reg : option rloc) : fsM unit :=
  match reg with
  | None => mret tt
  | Some _ =>
      match fuel with
      | O => fault_with OutOfFuel
      | S fuel => r ← load reg; _ ← free_region reg; free_regions fuel (r_next r)
      end
  end.
Definition free_alloc (alloc : block_allocation) : fsM unit :=
  s ← get_state;
  _ ← free_regions (S (size (heap s))) (rl_first (al_list alloc));
  free_regions (S (size (heap s))) (rl_first (oob_list alloc)).
