(* ===== verification/Ext4Bits.v ===== *)
(** * Bitmaps of the ext4 allocator

    The bit operations and the loops of [reserve_blocks] and [free_blocks]
    against the set of bits they are meant to change. *)
From S2P Require Import Prelude Ext4Alloc.

(** ** Bits *)

Definition bit (bm : list Z) (i : Z) : bool := Z.testbit (nth (Z.to_nat (i / 8)) bm 0) (i mod 8).

Definition is_byte (v : Z) : Prop := 0 <= v < 2 ^ 8.

(** [bm'] is [bm] with the bits from [a] to [b] set. *)
Record marked (bm bm' : list Z) (a b : Z) : Prop := {
  mk_length : length bm' = length bm;
  mk_bytes : Forall is_byte bm';
  mk_bits : forall j, 0 <= j -> bit bm' j = ((a <=? j) && (j <? b)) || bit bm j
}.

(** The bits from [a] to [b] are clear; one of them is set. *)
Definition clear (bm : list Z) (a b : Z) : Prop := forall j, a <= j < b -> bit bm j = false.
Definition taken (bm : list Z) (a b : Z) : Prop := exists j, a <= j < b /\ bit bm j = true.

Lemma marked_refl bm a b : Forall is_byte bm -> b <= a -> marked bm bm a b.
Proof. intros Hb Hab. split; [done..|]. intros j Hj. destruct (Z.leb_spec a j), (Z.ltb_spec j b); try done; lia. Qed.

Lemma marked_trans bm bm1 bm2 a b c : marked bm bm1 a b -> marked bm1 bm2 b c -> a <= b <= c -> marked bm bm2 a c.
Proof.
  intros [L1 _ H1] [L2 B2 H2] Habc. split; [congruence|done|]. intros j Hj. rewrite H2, H1 by done.
  destruct (Z.leb_spec a j), (Z.ltb_spec j b), (Z.leb_spec b j), (Z.ltb_spec j c), (bit bm j); try done; lia.
Qed.

Lemma bm_byte_in bm i : 0 <= i -> i / 8 < blen bm -> bm_byte bm (i / 8) = Done (nth (Z.to_nat (i / 8)) bm 0).
Proof.
  intros Hi Hl. unfold bm_byte, blen in *. pose proof (Z.div_pos i 8 Hi ltac:(lia)).
  destruct (lookup_lt_is_Some_2 bm (Z.to_nat (i / 8))) as [v Hv]; [lia|]. by rewrite Hv, (nth_lookup_Some _ _ _ _ Hv).
Qed.

Lemma nth_bm_set bm i v k : 0 <= i -> (Z.to_nat i < length bm)%nat ->
  nth k (bm_set bm i v) 0 = if decide (k = Z.to_nat i) then v else nth k bm 0.
Proof.
  intros Hi Hl. unfold bm_set. case_decide as Hk.
  - subst k. apply nth_lookup_Some. by apply list_lookup_insert_eq.
  - destruct (decide (k < length bm)%nat) as [Hin|Hout].
    + destruct (lookup_lt_is_Some_2 bm k Hin) as [w Hw]. rewrite (nth_lookup_Some _ _ _ _ Hw).
      apply nth_lookup_Some. by rewrite list_lookup_insert_ne by congruence.
    + rewrite !nth_overflow; [done|lia|rewrite length_insert; lia].
Qed.

Lemma nth_is_byte bm k : Forall is_byte bm -> is_byte (nth k bm 0).
Proof. intros H. destruct (nth_in_or_default k bm 0) as [Hin| ->]; [|by split]. by rewrite List.Forall_forall in H; apply H. Qed.

Lemma bit_div_mod i k : 0 <= k < 8 -> (8 * i + k) / 8 = i /\ (8 * i + k) mod 8 = k.
Proof. intros Hk. split; [symmetry; apply (Z.div_unique _ _ _ k)|symmetry; apply (Z.mod_unique _ _ i)]; lia. Qed.

(** Testing a byte with a mask is testing the bit. *)
Lemma mask_bit v k : 0 <= k -> negb (Z.land v (Z.shiftl 1 k) =? 0) = Z.testbit v k.
Proof.
  intros Hk. rewrite Z.shiftl_1_l. destruct (Z.testbit v k) eqn:Ht.
  - apply negb_true_iff, Z.eqb_neq. intros H0. apply (f_equal (fun x => Z.testbit x k)) in H0.
    by rewrite Z.land_spec, Ht, Z.pow2_bits_true, Z.bits_0 in H0 by lia.
  - apply negb_false_iff, Z.eqb_eq. apply Z.bits_inj'. intros n Hn. rewrite Z.land_spec, Z.bits_0, Z.pow2_bits_eqb by lia.
    destruct (Z.eqb_spec k n) as [->|]; [by rewrite Ht|]. by rewrite andb_false_r.
Qed.

Lemma lor_byte v k : is_byte v -> 0 <= k < 8 -> is_byte (Z.lor v (Z.shiftl 1 k)).
Proof.
  intros Hv Hk. unfold is_byte in *. rewrite Z.shiftl_1_l.
  assert (Hp : 2 ^ k < 2 ^ 8) by (apply Z.pow_lt_mono_r; lia). pose proof (Z.pow_pos_nonneg 2 k).
  assert (0 <= Z.lor v (2 ^ k)) by (apply Z.lor_nonneg; lia).
  destruct (Z.eq_dec (Z.lor v (2 ^ k)) 0) as [->|Hne]; [lia|]. split; [done|]. apply Z.log2_lt_pow2; [lia|].
  rewrite Z.log2_lor, Z.log2_pow2 by lia. destruct (Z.eq_dec v 0) as [->|]; [cbn; lia|].
  pose proof (proj1 (Z.log2_lt_pow2 v 8 ltac:(lia))). lia.
Qed.

(** Replacing one byte. *)
Lemma bit_bm_set bm i v j : 0 <= i -> i < blen bm -> 0 <= j ->
  bit (bm_set bm i v) j = if j / 8 =? i then Z.testbit v (j mod 8) else bit bm j.
Proof.
  intros Hi Hl Hj. unfold bit, blen in *. pose proof (Z.div_pos j 8 Hj ltac:(lia)). rewrite nth_bm_set by lia.
  destruct (Z.eqb_spec (j / 8) i) as [->|Hne]; [by rewrite decide_True|]. rewrite decide_False; [done|lia].
Qed.

Lemma bm_set_bytes bm i v : Forall is_byte bm -> is_byte v -> Forall is_byte (bm_set bm i v).
Proof. intros. by apply Forall_insert. Qed.

(** Setting a bit of a byte. *)
Lemma or_bit_marked bm i : Forall is_byte bm -> 0 <= i -> i / 8 < blen bm ->
  marked bm (bm_set bm (i / 8) (Z.lor (nth (Z.to_nat (i / 8)) bm 0) (Z.shiftl 1 (i mod 8)))) i (i + 1).
Proof.
  intros Hb Hi Hl. pose proof (Z.mod_pos_bound i 8 ltac:(lia)) as Hm. pose proof (Z.div_pos i 8 Hi ltac:(lia)).
  split; [apply length_insert|by apply bm_set_bytes; [|apply lor_byte; [apply nth_is_byte|]]|].
  intros j Hj. rewrite bit_bm_set by done. destruct (Z.eqb_spec (j / 8) (i / 8)) as [He|Hne].
  - rewrite Z.lor_spec, Z.shiftl_1_l, Z.pow2_bits_eqb by lia. unfold bit. rewrite He, orb_comm. f_equal.
    pose proof (Z.div_mod i 8). pose proof (Z.div_mod j 8).
    destruct (Z.eqb_spec (i mod 8) (j mod 8)), (Z.leb_spec i j), (Z.ltb_spec j (i + 1)); try done; lia.
  - destruct (Z.leb_spec i j), (Z.ltb_spec j (i + 1)); try done. assert (i = j) by lia. congruence.
Qed.

Lemma bitmap_set_bit_ok bm i : Forall is_byte bm -> 0 <= i -> i / 8 < blen bm ->
  if bit bm i then bitmap_set_bit bm i = Done (bm, 1)
  else exists bm', bitmap_set_bit bm i = Done (bm', 0) /\ marked bm bm' i (i + 1).
Proof.
  intros Hb Hi Hl. unfold bitmap_set_bit. rewrite bm_byte_in by done. cbn [obind].
  pose proof (Z.mod_pos_bound i 8 ltac:(lia)) as Hm. rewrite mask_bit by lia. fold (bit bm i).
  destruct (bit bm i); [done|]. eexists. split; [done|]. by apply or_bit_marked.
Qed.

Lemma testbit_255 k : 0 <= k < 8 -> Z.testbit 0xFF k = true.
Proof. intros Hk. change 0xFF with (Z.ones 8). by apply Z.ones_spec_low. Qed.

Lemma byte_zero v : is_byte v -> (forall k, 0 <= k < 8 -> Z.testbit v k = false) -> v = 0.
Proof.
  intros Hv Hk. apply Z.bits_inj'. intros n Hn. rewrite Z.bits_0. destruct (Z.ltb_spec n 8); [by apply Hk|].
  destruct (Z.eq_dec v 0) as [->|]; [apply Z.bits_0|]. apply Z.bits_above_log2; [unfold is_byte in *; lia|].
  pose proof (proj1 (Z.log2_lt_pow2 v 8 ltac:(unfold is_byte in *; lia))). unfold is_byte in *. lia.
Qed.

Lemma byte_some v : is_byte v -> v <> 0 -> exists k, 0 <= k < 8 /\ Z.testbit v k = true.
Proof.
  intros Hv Hne. unfold is_byte in *. exists (Z.log2 v). split; [|apply Z.bit_log2; lia].
  pose proof (Z.log2_nonneg v). pose proof (proj1 (Z.log2_lt_pow2 v 8 ltac:(lia))). lia.
Qed.

Lemma bitmap_set_8_bits_ok bm i : Forall is_byte bm -> 0 <= i -> i mod 8 = 0 -> i / 8 < blen bm ->
  exists bm' r, bitmap_set_8_bits bm i = Done (bm', r) /\ (r = 0 -> marked bm bm' i (i + 8) /\ clear bm i (i + 8)) /\
    (r <> 0 -> taken bm i (i + 8)).
Proof.
  intros Hb Hi H8 Hl. unfold bitmap_set_8_bits. rewrite bm_byte_in by done. cbn [obind].
  pose proof (Z.div_mod i 8 ltac:(lia)) as Hdm. pose proof (Z.div_pos i 8 Hi ltac:(lia)).
  eexists _, _. split; [done|]. split; intros Hr.
  - split; [split; [apply length_insert|by apply bm_set_bytes|]|]; intros j Hj;
      [|unfold bit; replace (j / 8) with (i / 8) by (apply (Z.div_unique_pos j 8 (i / 8) (j - i)); lia); by rewrite Hr, Z.bits_0].
    rewrite bit_bm_set by done. pose proof (Z.div_mod j 8 ltac:(lia)). pose proof (Z.mod_pos_bound j 8 ltac:(lia)).
    destruct (Z.eqb_spec (j / 8) (i / 8)) as [He|Hne].
    + rewrite testbit_255 by lia. destruct (Z.leb_spec i j), (Z.ltb_spec j (i + 8)); try done; lia.
    + destruct (Z.leb_spec i j), (Z.ltb_spec j (i + 8)); try done. exfalso. apply Hne. lia.
  - destruct (byte_some (nth (Z.to_nat (i / 8)) bm 0)) as (k & Hk & Ht); [by apply nth_is_byte|done|]. exists (i + k).
    split; [lia|]. unfold bit. replace (i + k) with (8 * (i / 8) + k) by lia. by destruct (bit_div_mod (i / 8) k Hk) as [-> ->].
Qed.

(** ** Reserving blocks *)

Lemma land_not7 n : 0 <= n < 2 ^ 32 -> Z.land n (u32 (Z.lnot 7)) = 8 * (n / 8).
Proof.
  intros Hn. change (u32 (Z.lnot 7)) with (Z.shiftl (Z.ones 29) 3).
  replace (8 * (n / 8)) with (Z.shiftl (Z.shiftr n 3) 3)
    by (rewrite Z.shiftl_mul_pow2, Z.shiftr_div_pow2 by lia; apply Z.mul_comm).
  apply Z.bits_inj'. intros k Hk. rewrite Z.land_spec, !Z.shiftl_spec by lia. destruct (Z.ltb_spec k 3) as [H3|H3].
  - rewrite !(Z.testbit_neg_r _ (k - 3)) by lia. apply andb_false_r.
  - rewrite Z.shiftr_spec, Z.testbit_ones_nonneg by lia. replace (k - 3 + 3) with k by lia.
    destruct (Z.ltb_spec (k - 3) 29) as [Hlt|Hge]; [apply andb_true_r|]. rewrite andb_false_r. symmetry.
    destruct (Z.eq_dec n 0) as [->|]; [apply Z.bits_0|]. apply Z.bits_above_log2; [lia|].
    pose proof (proj1 (Z.log2_lt_pow2 n 32 ltac:(lia))). lia.
Qed.

Lemma marked_taken bm bm' a b c d : marked bm bm' a b -> 0 <= a <= b -> b <= c -> taken bm' c d -> taken bm a d.
Proof.
  intros Hm Ha Hbc (j & Hj & Ht). exists j. rewrite (mk_bits _ _ _ _ Hm) in Ht by lia.
  destruct (Z.ltb_spec j b); [lia|]. rewrite andb_false_r in Ht. split; [lia|done].
Qed.

Lemma marked_clear bm bm' a b c d : marked bm bm' a b -> 0 <= a -> clear bm a b -> clear bm' c d -> b = c -> clear bm a d.
Proof.
  intros Hm Ha H1 H2 -> j Hj. destruct (Z.ltb_spec j c); [apply H1; lia|]. pose proof (H2 j ltac:(lia)) as H3.
  rewrite (mk_bits _ _ _ _ Hm) in H3 by lia. by apply orb_false_iff in H3 as [_ H3].
Qed.

(** What a loop from [(i, block)] leaves: it stops at [(i + k, block + k)]
    with the blocks in between marked, or has met a reserved block. *)
Definition progress (bm bm' : list Z) (num i block : Z) (r : option (Z * Z)) (stop : Z -> Prop) : Prop :=
  match r with
  | Some (i', block') => exists k, 0 <= k /\ i' = i + k /\ i' <= num /\ block' = block + k /\ stop k /\
      marked bm bm' block (block + k) /\ clear bm block (block + k)
  | None => taken bm block (block + (num - i))
  end.

Section Loops.
Context (num : Z).

(** The loops stay inside the bitmap. *)
Definition inside (bm : list Z) (i block : Z) : Prop :=
  Forall is_byte bm /\ 0 <= i <= num /\ 0 <= block /\ block + (num - i) <= 8 * blen bm /\ 8 * blen bm <= 2 ^ 31 /\ num <= 2 ^ 31.

Lemma inside_div bm i block : inside bm i block -> i < num -> block / 8 < blen bm.
Proof. intros (_ & Hi & Hb & Hr & _) Hlt. apply Z.div_lt_upper_bound; lia. Qed.

Lemma progress_step bm bm1 bm' i block n r (stop stop' : Z -> Prop) :
  marked bm bm1 block (block + n) -> clear bm block (block + n) -> 0 <= block -> 0 <= n -> i + n <= num ->
  (forall k, stop k -> stop' (n + k)) -> progress bm1 bm' num (i + n) (block + n) r stop -> progress bm bm' num i block r stop'.
Proof.
  intros Hm Hc Hb Hn Hi Hs. destruct r as [[i' b']|]; cbn [progress].
  - intros (k & Hk & -> & Hle & -> & Hst & Hm' & Hc'). exists (n + k).
    replace (block + (n + k)) with (block + n + k) by lia.
    split_and!; [lia|lia|lia|lia|by apply Hs|by eapply marked_trans; [done..|lia]|by eapply marked_clear; [done..|]].
  - intros Ht. eapply marked_taken in Ht; [|done|lia|lia]. by replace (block + (num - i)) with (block + n + (num - (i + n))) by lia.
Qed.

Lemma marked_inside bm bm' i block n : inside bm i block -> marked bm bm' block (block + n) -> 0 <= n -> i + n <= num ->
  inside bm' (i + n) (block + n).
Proof.
  intros (_ & Hi & Hb & Hr & Hl & Hnum) [Hlen Hby _] Hn Hin. unfold inside, blen in *. rewrite Hlen. split; [done|]. lia.
Qed.

Lemma progress_stop bm i block (stop : Z -> Prop) : inside bm i block -> stop 0 -> progress bm bm num i block (Some (i, block)) stop.
Proof.
  intros (Hby & Hi & Hb & _) Hs. exists 0. rewrite !Z.add_0_r. split_and!; try done; try lia.
  - apply marked_refl; [done|lia].
  - intros j Hj. lia.
Qed.

(** One bit, as the head and the tail take it. *)
Lemma bit_step bm i block : inside bm i block -> i < num ->
  exists bm1 r, bitmap_set_bit bm block = Done (bm1, r) /\
    ((r = 1 /\ taken bm block (block + (num - i))) \/
     (r = 0 /\ marked bm bm1 block (block + 1) /\ clear bm block (block + 1) /\ inside bm1 (i + 1) (block + 1))).
Proof.
  intros Hin Hlt. pose proof Hin as (Hby & Hi & Hb & Hr & Hl & Hnum). pose proof (inside_div bm i block Hin Hlt) as Hd.
  pose proof (bitmap_set_bit_ok bm block Hby Hb Hd) as Hs. destruct (bit bm block) eqn:Hbit.
  - exists bm, 1. split; [done|]. left. split; [done|]. exists block. split; [lia|done].
  - destruct Hs as (bm1 & -> & Hm). exists bm1, 0. split; [done|]. right. split; [done|]. split; [done|].
    split; [|by eapply marked_inside; [| |lia|lia]]. intros j Hj. by assert (j = block) as -> by lia.
Qed.

Lemma reserve_head_ok fuel : forall bm i block, inside bm i block -> num - i <= Z.of_nat fuel ->
  exists bm' r, reserve_head fuel bm num i block = Done (bm', r) /\
    progress bm bm' num i block r (fun k => i + k = num \/ (block + k) mod 8 = 0).
Proof.
  induction fuel as [|fuel IH]; intros bm i block Hin Hf; cbn [reserve_head];
    (destruct (Z.ltb_spec i num) as [Hlt|Hge]; cbn [andb];
      [|eexists _, _; split; [done|]; apply progress_stop; [done|]; destruct Hin as (_ & ? & _); lia]); [lia|].
  destruct (Z.eqb_spec (block mod 8) 0) as [H8|H8]; cbn [negb].
  { eexists _, _. split; [done|]. apply progress_stop; [done|]. right. by rewrite Z.add_0_r. }
  destruct (bit_step bm i block Hin Hlt) as (bm1 & r & -> & [[-> Ht]|(-> & Hm & Hc & Hin1)]); cbn [obind Z.eqb negb].
  { by eexists _, None. }
  pose proof Hin as (_ & Hi & Hb & Hr & Hl & Hnum). rewrite !u32_small by (unfold is_u32; lia).
  destruct (IH bm1 (i + 1) (block + 1) Hin1 ltac:(lia)) as (bm' & r & -> & Hp). eexists _, _. split; [done|].
  eapply progress_step; [done..|lia|lia|lia| |done]. cbn. intros k Hk. by rewrite !Z.add_assoc.
Qed.

Lemma reserve_tail_ok fuel : forall bm i block, inside bm i block -> num - i <= Z.of_nat fuel ->
  exists bm' ok, reserve_tail fuel bm num i block = Done (bm', ok) /\
    progress bm bm' num i block (if (ok : bool) then Some (num, block + (num - i)) else None) (fun _ => True).
Proof.
  induction fuel as [|fuel IH]; intros bm i block Hin Hf; cbn [reserve_tail]; pose proof Hin as (_ & Hi & Hb & Hr & Hl & Hnum);
    (destruct (Z.ltb_spec i num) as [Hlt|Hge];
      [|assert (i = num) as -> by lia; eexists _, true; split; [done|]; rewrite Z.sub_diag, Z.add_0_r; by apply progress_stop]); [lia|].
  destruct (bit_step bm i block Hin Hlt) as (bm1 & r & -> & [[-> Ht]|(-> & Hm & Hc & Hin1)]); cbn [obind Z.eqb negb].
  { by eexists _, false. }
  rewrite !u32_small by (unfold is_u32; lia).
  destruct (IH bm1 (i + 1) (block + 1) Hin1 ltac:(lia)) as (bm' & ok & -> & Hp). eexists _, _. split; [done|].
  replace (block + (num - i)) with (block + 1 + (num - (i + 1))) by lia.
  by eapply progress_step; [done..|lia|lia|lia| |done].
Qed.

Lemma reserve_bytes_ok fuel : forall bm i block, inside bm i block -> (i = num \/ block mod 8 = 0) -> num - i <= Z.of_nat fuel ->
  exists bm' r, reserve_bytes fuel bm num i block = Done (bm', r) /\ progress bm bm' num i block r (fun _ => True).
Proof.
  induction fuel as [|fuel IH]; intros bm i block Hin H8 Hf; cbn [reserve_bytes]; pose proof Hin as (Hby & Hi & Hb & Hr & Hl & Hnum);
    rewrite u32_small by (unfold is_u32; lia); rewrite land_not7 by lia; pose proof (Z.div_mod num 8 ltac:(lia)); pose proof (Z.mod_pos_bound num 8 ltac:(lia));
    (destruct (Z.leb_spec (i + 8) (8 * (num / 8))) as [Hle|Hgt];
      [|eexists _, _; split; [done|]; by apply progress_stop]); [lia|].
  destruct H8 as [H8|H8]; [lia|].
  destruct (bitmap_set_8_bits_ok bm block Hby Hb H8) as (bm1 & r & -> & Hz & Hnz); [by apply (inside_div bm i); [|lia]|]. cbn [obind].
  destruct (Z.eqb_spec r 0) as [Hr0|Hr0]; cbn [negb].
  - rewrite !u32_small by (unfold is_u32; lia). destruct (Hz Hr0) as [Hm Hc]. assert (Hin1 : inside bm1 (i + 8) (block + 8)) by (eapply marked_inside; [done|done|lia|lia]).
    destruct (IH bm1 (i + 8) (block + 8) Hin1) as (bm' & r' & -> & Hp).
    { right. rewrite Z.add_mod, H8, Z.mod_same by lia. done. }
    { lia. }
    eexists _, _. split; [done|]. by eapply progress_step; [done..|lia|lia|lia| |done].
  - eexists _, None. split; [done|]. destruct (Hnz Hr0) as (j & Hj & Ht). exists j. split; [lia|done].
Qed.
End Loops.

Lemma progress_last bm bm' num i block (stop : Z -> Prop) : progress bm bm' num i block (Some (num, block + (num - i))) stop ->
  marked bm bm' block (block + (num - i)) /\ clear bm block (block + (num - i)).
Proof. intros (k & _ & Hk & _ & _ & _ & H). by replace k with (num - i) in H by lia. Qed.

(** [mark_blocks] does what marking bit by bit does: it succeeds if and only if
    all the blocks are free. *)
Lemma mark_blocks_ok bm start num : Forall is_byte bm -> 0 <= start -> 0 <= num -> start + num <= 8 * blen bm ->
  8 * blen bm <= 2 ^ 31 ->
  exists bm' ok, mark_blocks bm start num = Done (bm', ok) /\
    if (ok : bool) then marked bm bm' start (start + num) /\ clear bm start (start + num) else taken bm start (start + num).
Proof.
  intros Hby Hs Hn Hr Hl. unfold mark_blocks. assert (Hin : inside num bm 0 start) by (unfold inside; split; [done|lia]).
  destruct (reserve_head_ok num (Z.to_nat num) bm 0 start Hin ltac:(lia)) as (bm1 & r1 & -> & H1). cbn [obind].
  assert (Hnum : start + num = start + (num - 0)) by lia. rewrite Hnum.
  destruct r1 as [[i1 b1]|]; [|by exists bm1, false].
  pose proof H1 as (k & Hk & -> & Hle & -> & Hst & Hm1 & Hc1).
  assert (Hin1 : inside num bm1 (0 + k) (start + k)) by (by eapply marked_inside; [| |lia|lia]).
  destruct (reserve_bytes_ok num (Z.to_nat num) bm1 (0 + k) (start + k) Hin1 Hst ltac:(lia)) as (bm2 & r2 & -> & H2). cbn [obind].
  destruct r2 as [[i2 b2]|].
  - pose proof H2 as (k2 & Hk2 & -> & Hle2 & -> & _ & Hm2 & Hc2).
    assert (Hin2 : inside num bm2 (0 + k + k2) (start + k + k2)) by (by eapply marked_inside; [| |lia|lia]).
    destruct (reserve_tail_ok num (Z.to_nat num) bm2 _ _ Hin2 ltac:(lia)) as (bm3 & ok & -> & H3). exists bm3, ok. split; [done|].
    assert (H13 : progress bm bm3 num 0 start (if ok then Some (num, start + (num - 0)) else None) (fun _ => True)).
    { apply (progress_step num bm bm1 bm3 0 start k _ (fun _ => True) (fun _ => True)); [done|done|done|done|lia|intros; exact I|].
      replace (start + (num - 0)) with (start + k + (num - (0 + k))) by lia.
      apply (progress_step num bm1 bm2 bm3 _ _ k2 _ (fun _ => True) (fun _ => True)); [done|done|lia|done|lia|intros; exact I|].
      by replace (start + k + (num - (0 + k))) with (start + k + k2 + (num - (0 + k + k2))) by lia. }
    destruct ok; [by apply progress_last in H13|done].
  - exists bm2, false. split; [done|]. apply (marked_taken bm bm1 start (start + k) (start + k)); [done|lia|lia|].
    cbn [progress] in H2. by replace (start + (num - 0)) with (start + k + (num - (0 + k))) by lia.
Qed.

(** ** Returning blocks *)

Lemma clear_bit_byte v k : is_byte v -> 0 <= k -> u8 (Z.land v (Z.lnot (Z.shiftl 1 k))) = Z.clearbit v k.
Proof.
  intros Hv Hk. unfold Z.clearbit. rewrite Z.shiftl_1_l, Z.ldiff_land. unfold u8, is_byte in *.
  rewrite <- Z.land_ones, <- Z.land_assoc, (Z.land_comm (Z.lnot _)), Z.land_assoc, Z.land_ones, (Z.mod_small v) by lia. done.
Qed.

(** [bm'] is [bm] with the bits from [a] to [b] cleared. *)
Record cleared (bm bm' : list Z) (a b : Z) : Prop := {
  cl_length : length bm' = length bm;
  cl_bytes : Forall is_byte bm';
  cl_bits : forall j, 0 <= j -> bit bm' j = negb ((a <=? j) && (j <? b)) && bit bm j
}.

Lemma clearbit_byte v k : is_byte v -> 0 <= k -> is_byte (Z.clearbit v k).
Proof. intros Hv Hk. rewrite <- clear_bit_byte by done. apply Z.mod_pos_bound. lia. Qed.

Lemma bitmap_clear_bit_ok bm i : Forall is_byte bm -> 0 <= i -> i / 8 < blen bm ->
  exists bm', bitmap_clear_bit bm i = Done bm' /\ cleared bm bm' i (i + 1).
Proof.
  intros Hb Hi Hl. unfold bitmap_clear_bit. rewrite bm_byte_in by done. cbn [obind].
  pose proof (Z.mod_pos_bound i 8 ltac:(lia)). pose proof (Z.div_pos i 8 Hi ltac:(lia)).
  rewrite clear_bit_byte by (try apply nth_is_byte; done || lia). eexists. split; [done|].
  split; [apply length_insert|by apply bm_set_bytes; [|apply clearbit_byte; [apply nth_is_byte|lia]]|].
  intros j Hj. rewrite bit_bm_set by done. destruct (Z.eqb_spec (j / 8) (i / 8)) as [He|Hne].
  - pose proof (Z.mod_pos_bound j 8 ltac:(lia)). rewrite Z.clearbit_eqb by lia. unfold bit. rewrite He, andb_comm. f_equal.
    pose proof (Z.div_mod i 8). pose proof (Z.div_mod j 8).
    destruct (Z.eqb_spec (i mod 8) (j mod 8)), (Z.leb_spec i j), (Z.ltb_spec j (i + 1)); try done; lia.
  - destruct (Z.leb_spec i j), (Z.ltb_spec j (i + 1)); try done. assert (i = j) by lia. congruence.
Qed.

Lemma clear_blocks_ok n : forall bm block, Forall is_byte bm -> block < 8 * blen bm -> 8 * blen bm <= 2 ^ 31 ->
  Z.of_nat n <= block + 1 ->
  exists bm', clear_blocks n bm (u32 block) = Done bm' /\ cleared bm bm' (block + 1 - Z.of_nat n) (block + 1).
Proof.
  induction n as [|n IH]; intros bm block Hb Hlt Hl Hn; cbn [clear_blocks].
  { exists bm. split; [done|]. split; [done..|]. intros j Hj.
    destruct (Z.leb_spec (block + 1 - Z.of_nat 0) j), (Z.ltb_spec j (block + 1)); try done; lia. }
  rewrite u32_small by (unfold is_u32; lia).
  destruct (bitmap_clear_bit_ok bm block Hb) as (bm1 & -> & [L1 B1 C1]); [lia|apply Z.div_lt_upper_bound; lia|]. cbn [obind].
  assert (Hbl : blen bm1 = blen bm) by (unfold blen; by rewrite L1).
  destruct (IH bm1 (block - 1)) as (bm' & -> & [L2 B2 C2]); [done|lia|lia|lia|]. exists bm'. split; [done|].
  split; [congruence|done|]. intros j Hj. rewrite C2, C1 by done.
  destruct (Z.leb_spec (block - 1 + 1 - Z.of_nat n) j), (Z.ltb_spec j (block - 1 + 1)), (Z.leb_spec block j), (Z.ltb_spec j (block + 1)),
    (Z.leb_spec (block + 1 - Z.of_nat (S n)) j), (bit bm j); try done; lia.
Qed.
