(* ===== verification/Ext4AllocCorrect.v ===== *)
(** * The ext4 allocator hands out free blocks, each once

    The invariant of a block group, the best-fit search, and allocation as a
    whole: the regions of an allocation are free blocks, disjoint from each
    other and from everything handed out before. *)
From S2P Require Import Prelude Ext4Alloc Ext4Bits.

(** ** Running computations *)

Lemma bind_Ok {A B} (m : fsM A) (k : A -> fsM B) s a s' : m s = Ok a s' -> (x ← m; k x) s = k a s'.
Proof. intros H. unfold mbind, fsM_bind. by rewrite H. Qed.

Lemma bind_Exit {A B} (m : fsM A) (k : A -> fsM B) s s' : m s = Exit s' -> (x ← m; k x) s = Exit s'.
Proof. intros H. unfold mbind, fsM_bind. by rewrite H. Qed.

(** Run the first computation of a sequence, by equation [H]. *)
Ltac run H := erewrite bind_Ok by (exact H || (eapply H; eauto)); cbv beta iota.

Definition set_bg (s : fs) (i : nat) (bg : block_group_info) : fs :=
  mk_fs (<[i := bg]> (bgs s)) (heap s) (ext4_sparse_file s) (xattrs s) (inodes s) (bufs s).

Lemma get_bg_ok s i bg : bgs s !! i = Some bg -> get_bg (Z.of_nat i) s = Ok bg s.
Proof. intros H. unfold get_bg. by rewrite Nat2Z.id, H. Qed.

Lemma put_bg_ok s i bg : put_bg (Z.of_nat i) bg s = Ok tt (set_bg s i bg).
Proof. unfold put_bg. by rewrite Nat2Z.id. Qed.

Lemma set_bg_twice s i bg bg' : set_bg (set_bg s i bg) i bg' = set_bg s i bg'.
Proof. unfold set_bg. cbn. by rewrite list_insert_insert_eq. Qed.

Lemma set_bg_lookup s i bg bg' : bgs s !! i = Some bg -> bgs (set_bg s i bg') !! i = Some bg'.
Proof. intros H. cbn. apply list_lookup_insert_eq. by eapply lookup_lt_Some. Qed.

(** ** Linked regions *)

(** Block, length and group of a region. *)
Abbreviation extent := (Z * Z * Z)%type.

(** The cells from [p] to [e], each with its [prev] pointer. *)
Fixpoint seg (h : gmap rloc region) (p prev : option rloc) (l : list (rloc * extent)) (e : option rloc) : Prop :=
  match l with
  | [] => p = e
  | (q, (b, n, g)) :: l => p = Some q /\ exists nx, h !! q = Some (mk_region b n g nx prev) /\ seg h nx (Some q) l e
  end.

Definition last_loc (prev : option rloc) (l : list (rloc * extent)) : option rloc :=
  match last l with Some (q, _) => Some q | None => prev end.

Lemma last_loc_cons prev q x l : last_loc prev ((q, x) :: l) = last_loc (Some q) l.
Proof. unfold last_loc. rewrite last_cons. by destruct (last l). Qed.

Lemma seg_frame h q r l : forall p prev e, q ∉ l.*1 -> seg h p prev l e -> seg (<[q := r]> h) p prev l e.
Proof.
  induction l as [|[q' [[b n] g]] l IH]; intros p prev e Hq Hs; [done|]. rewrite fmap_cons in Hq. apply not_elem_of_cons in Hq as [Hne Hq]. cbn in Hne.
  destruct Hs as (-> & nx & Hh & Hs). split; [done|]. exists nx. split; [by rewrite lookup_insert_ne by congruence|]. by apply IH.
Qed.

(** Appending a cell behind the last one. *)
Lemma seg_snoc h q x nx p b n g l : forall first prev, seg h first prev (l ++ [(q, x)]) None -> NoDup (l ++ [(q, x)]).*1 ->
  p ∉ (l ++ [(q, x)]).*1 -> h !! q = Some nx ->
  seg (<[p := mk_region b n g None (Some q)]> (<[q := with_next nx (Some p)]> h)) first prev ((l ++ [(q, x)]) ++ [(p, (b, n, g))]) None.
Proof.
  induction l as [|[q' [[b' n'] g']] l IH]; intros first prev Hs Hnd Hp Hq.
  - destruct x as [[b' n'] g']. destruct Hs as (-> & nx' & Hh & ->). cbn in Hp. apply not_elem_of_cons in Hp as [Hne _].
    rewrite Hq in Hh. injection Hh as ->. split; [done|]. exists (Some p). split.
    + by rewrite lookup_insert_ne, lookup_insert_eq by congruence.
    + split; [done|]. exists None. split; [by rewrite lookup_insert_eq|done].
  - destruct Hs as (-> & nx' & Hh & Hs). rewrite <- app_comm_cons, fmap_cons in Hnd, Hp. cbn in Hnd, Hp. apply NoDup_cons in Hnd as [Hnin Hnd]. apply not_elem_of_cons in Hp as [Hne Hp].
    split; [done|]. exists nx'. split; [|by apply IH]. rewrite !lookup_insert_ne; [done| |done].
    intros ->. apply Hnin. rewrite fmap_app. apply elem_of_app. right. by left.
Qed.

Lemma seg_last h l q x : forall first prev, seg h first prev (l ++ [(q, x)]) None -> exists r, h !! q = Some r.
Proof.
  induction l as [|[q' [[b n] g]] l IH]; intros first prev.
  - destruct x as [[b n] g]. intros (_ & nx & Hh & _). by eexists.
  - intros (_ & nx & _ & Hs). by eapply IH.
Qed.

Lemma seg_dom h l : forall p prev e q, seg h p prev l e -> q ∈ l.*1 -> q ∈ dom h.
Proof.
  induction l as [|[q' [[b n] g]] l IH]; intros p prev e q Hs Hq; [by apply not_elem_of_nil in Hq|].
  destruct Hs as (-> & nx & Hh & Hs). rewrite fmap_cons in Hq. apply elem_of_cons in Hq as [->|Hq]; [by eapply elem_of_dom_2|by eapply IH].
Qed.

Lemma load_ok s q r : heap s !! q = Some r -> load (Some q) s = Ok r s.
Proof. intros H. unfold load. by rewrite H. Qed.
Lemma store_ok s q r r' : heap s !! q = Some r -> store (Some q) r' s = Ok tt (with_heap s (<[q := r']> (heap s))).
Proof. intros H. unfold store. by rewrite H. Qed.

(** The statements of [ext4_allocate_best_fit] that link a new region [p]. *)
Definition link (prev_reg reg : option rloc) : fsM unit :=
  match prev_reg with
  | None => mret tt
  | Some _ =>
      pr ← load prev_reg; _ ← store prev_reg (with_next pr reg);
      r ← load reg; store reg (with_prev r prev_reg)
  end.

Lemma link_ok s h first l p b n g : seg h first None l None -> NoDup l.*1 -> p ∉ dom h ->
  heap s = <[p := mk_region b n g None None]> h ->
  exists h', link (last_loc None l) (Some p) s = Ok tt (with_heap s h') /\
    seg h' (match first with None => Some p | _ => first end) None (l ++ [(p, (b, n, g))]) None /\
    (exists pv, h' !! p = Some (mk_region b n g None pv)) /\ forall q, q ∉ l.*1 -> q <> p -> h' !! q = h !! q.
Proof.
  intros Hs Hnd Hp Hh. destruct (decide (l = [])) as [->|Hne].
  - exists (heap s). cbn in Hs. subst first. split; [by destruct s|]. rewrite Hh. split; [|split].
    + split; [done|]. exists None. by rewrite lookup_insert_eq.
    + exists None. by rewrite lookup_insert_eq.
    + intros q _ Hq. by rewrite lookup_insert_ne.
  - destruct l as [|[q x] l0 _] using rev_ind; [done|]. destruct (seg_last h l0 q x first None Hs) as [r Hr].
    assert (Hpl : p ∉ (l0 ++ [(q, x)]).*1) by (intros Hin; apply Hp; by eapply seg_dom).
    assert (Hpq : p <> q) by (intros ->; apply Hp; by eapply elem_of_dom_2).
    assert (Hll : last_loc None (l0 ++ [(q, x)]) = Some q) by (unfold last_loc; by rewrite last_snoc).
    exists (<[p := mk_region b n g None (Some q)]> (<[q := with_next r (Some p)]> h)).
    split; [|split; [|split]].
    + assert (Hq : heap s !! q = Some r) by (by rewrite Hh, lookup_insert_ne).
      set (s1 := with_heap s (<[q := with_next r (Some p)]> (heap s))).
      assert (Hp1 : heap s1 !! p = Some (mk_region b n g None None)) by (cbn; by rewrite Hh, lookup_insert_ne, lookup_insert_eq).
      rewrite Hll. cbn [link]. run (load_ok s q r Hq). run (store_ok s q r (with_next r (Some p)) Hq). fold s1.
      run (load_ok s1 p _ Hp1). rewrite (store_ok s1 p _ _ Hp1). unfold s1, with_heap. cbn.
      by rewrite Hh, (insert_insert_ne _ q p), insert_insert_eq by done.
    + assert (Hf : first <> None) by (destruct l0 as [|[q' [[b' n'] g']] l0]; [destruct x as [[? ?] ?]|]; by destruct Hs as (-> & _)).
      destruct first; [|done]. by apply seg_snoc.
    + exists (Some q). by rewrite lookup_insert_eq.
    + intros q' Hq' Hne'. rewrite fmap_app in Hq'. rewrite !lookup_insert_ne; [done| |done]. intros ->. apply Hq'.
      apply elem_of_app. right. by left.
Qed.

Section Groups.
Context (force : bool) (info : fs_info) (aux : fs_aux_info).

(** Sizes mke2fs and make_ext4fs use. *)
Record geometry : Prop := {
  ge_bs : 0 < block_size info <= 2 ^ 16;
  ge_bpg : 0 < blocks_per_group info <= 8 * block_size info;
  ge_first : 0 <= first_data_block aux;
  ge_groups : 0 <= groups aux < 2 ^ 31;
  ge_end : first_data_block aux + groups aux * blocks_per_group info < 2 ^ 32
}.

(** A group: the blocks below [first_free_block] are used, so are those from
    [limit] on, the others are free and counted. *)
Record bg_ok (bg : block_group_info) : Prop := {
  go_length : length (bitmaps bg) = Z.to_nat (2 * block_size info);
  go_bytes : Forall is_byte (bitmaps bg);
  go_blocks : exists limit, 0 <= first_free_block bg <= limit /\ limit <= blocks_per_group info /\
    bg_free_blocks bg = limit - first_free_block bg /\
    forall j, 0 <= j < blocks_per_group info -> bit (bitmaps bg) j = (j <? first_free_block bg) || (limit <=? j)
}.

Record fs_ok (s : fs) : Prop := {
  fo_groups : length (bgs s) = Z.to_nat (groups aux);
  fo_bg : forall i bg, bgs s !! i = Some bg ->
    bg_ok bg /\ bg_first_block bg = first_data_block aux + Z.of_nat i * blocks_per_group info
}.

(** Block [b] of the filesystem is marked as used. *)
Definition used (s : fs) (b : Z) : Prop :=
  exists i bg, bgs s !! i = Some bg /\ bg_first_block bg <= b < bg_first_block bg + blocks_per_group info /\
    bit (bitmaps bg) (b - bg_first_block bg) = true.

Definition frees (s : fs) : list Z := bg_free_blocks <$> bgs s.
Definition total_free (s : fs) : Z := foldr Z.add 0 (frees s).

Context (Hge : geometry).

Lemma bg_ok_len bg : bg_ok bg -> blen (bitmaps bg) = 2 * block_size info.
Proof. intros Hb. unfold blen. rewrite (go_length _ Hb). pose proof (ge_bs Hge). lia. Qed.

(** The group after [len] blocks were taken at its first free block. *)
Definition after (bg : block_group_info) (bm : list Z) (len : Z) : block_group_info :=
  with_blocks bg bm (bg_free_blocks bg - len) (first_free_block bg + len).

(** Reserving free blocks anywhere in a group. *)
Lemma reserve_blocks_at s i bg start num : bgs s !! i = Some bg -> Forall is_byte (bitmaps bg) ->
  blen (bitmaps bg) = 2 * block_size info -> 0 <= start -> 0 <= num <= bg_free_blocks bg -> bg_free_blocks bg < 2 ^ 32 ->
  start + num <= blocks_per_group info -> clear (bitmaps bg) start (start + num) ->
  exists bm, reserve_blocks force (Z.of_nat i) start num s = Ok 0 (set_bg s i (with_blocks bg bm (bg_free_blocks bg - num)
      (if start =? first_free_block bg then start + num else first_free_block bg))) /\
    marked (bitmaps bg) bm start (start + num).
Proof.
  intros Hi Hby Hbl Hst Hnum Hf Hle Hclear. pose proof (ge_bs Hge) as Hbs. pose proof (ge_bpg Hge) as Hbpg.
  unfold reserve_blocks. run (get_bg_ok s i bg Hi). rewrite (proj2 (Z.ltb_ge _ _)) by lia.
  destruct (mark_blocks_ok (bitmaps bg) start num Hby) as (bm & ok & Hmk & Hok); [lia..|].
  destruct ok; [destruct Hok as [Hm Hc]|destruct Hok as (j & Hj & Ht); by rewrite Hclear in Ht].
  exists bm. split; [|done].
  assert (Hlift : lift (mark_blocks (bitmaps bg) start num) s = Ok (bm, true) s) by (unfold lift; by rewrite Hmk).
  run Hlift. run (put_bg_ok s i (with_bitmaps bg bm)). cbn [negb]. run (put_bg_ok (set_bg s i (with_bitmaps bg bm)) i).
  rewrite set_bg_twice. by rewrite !u32_small by (unfold is_u32; lia).
Qed.

Lemma reserve_blocks_ok s i bg len : bgs s !! i = Some bg -> bg_ok bg -> 0 <= len <= bg_free_blocks bg ->
  exists bm, reserve_blocks force (Z.of_nat i) (first_free_block bg) len s = Ok 0 (set_bg s i (after bg bm len)) /\
    marked (bitmaps bg) bm (first_free_block bg) (first_free_block bg + len) /\
    clear (bitmaps bg) (first_free_block bg) (first_free_block bg + len) /\ bg_ok (after bg bm len).
Proof.
  intros Hi Hbg Hlen. pose proof Hbg as [Hl Hby (limit & Hff & Hlim & Hfree & Hbits)].
  pose proof (bg_ok_len bg Hbg) as Hbl. pose proof (ge_bs Hge) as Hbs. pose proof (ge_bpg Hge) as Hbpg.
  assert (Hclear : clear (bitmaps bg) (first_free_block bg) (first_free_block bg + len)).
  { intros j Hj. rewrite Hbits by lia. destruct (Z.ltb_spec j (first_free_block bg)), (Z.leb_spec limit j); try done; lia. }
  destruct (reserve_blocks_at s i bg (first_free_block bg) len Hi Hby Hbl) as (bm & Hr & Hm); [lia..|done|].
  rewrite Z.eqb_refl in Hr. exists bm. split; [exact Hr|]. split; [done|]. split; [done|].
  destruct Hm as [Hml Hmb Hmbits]. split; cbn; [congruence|done|]. exists limit. split_and!; try lia.
  intros j Hj. rewrite Hmbits, Hbits by lia.
  destruct (Z.leb_spec (first_free_block bg) j), (Z.ltb_spec j (first_free_block bg)), (Z.ltb_spec j (first_free_block bg + len)),
    (Z.leb_spec limit j); try done; lia.
Qed.

(** What the block operations leave alone in a group: its place, and all that
    concerns inodes. *)
Record keep_bg (bg bg' : block_group_info) : Prop := {
  kb_first : bg_first_block bg' = bg_first_block bg;
  kb_super : has_superblock bg' = has_superblock bg;
  kb_table : inode_table bg' = inode_table bg;
  kb_inodes : bg_free_inodes bg' = bg_free_inodes bg /\ first_free_inode bg' = first_free_inode bg;
  kb_flags : bg_flags bg' = bg_flags bg /\ used_dirs bg' = used_dirs bg;
  kb_bits : forall j, 8 * block_size info <= j -> bit (bitmaps bg') j = bit (bitmaps bg) j
}.
#[export] Instance keep_bg_refl : Reflexive keep_bg.
Proof. by split. Qed.
#[export] Instance keep_bg_trans : Transitive keep_bg.
Proof.
  intros a b c [A1 A2 A3 [A4 A5] [A6 A7] A8] [B1 B2 B3 [B4 B5] [B6 B7] B8]. split; [congruence..|split; congruence|split; congruence|].
  intros j Hj. by rewrite B8, A8.
Qed.
Definition keeps (s s' : fs) : Prop := Forall2 keep_bg (bgs s) (bgs s').
#[export] Instance keeps_refl : Reflexive keeps.
Proof. intros s. unfold keeps. reflexivity. Qed.
#[export] Instance keeps_trans : Transitive keeps.
Proof. intros a b c. unfold keeps. apply transitivity. Qed.

Lemma keeps_set_bg s i bg bg' : bgs s !! i = Some bg -> keep_bg bg bg' -> keeps s (set_bg s i bg').
Proof.
  intros Hi Hk. unfold keeps. cbn. rewrite <- (list_insert_id (bgs s) i bg Hi) at 1. apply Forall2_insert; [reflexivity|done].
Qed.

(** Handing out [len] blocks of group [i]: the state and the first block. *)
Definition taken_from (s : fs) (i : nat) (len : Z) (b : Z) (s' : fs) : Prop :=
  exists bg bg', bgs s !! i = Some bg /\ s' = set_bg s i bg' /\ b = bg_first_block bg + first_free_block bg /\
    bg_first_block bg' = bg_first_block bg /\ bg_ok bg' /\ bg_free_blocks bg' = bg_free_blocks bg - len /\
    0 <= first_free_block bg /\ first_free_block bg + len <= blocks_per_group info /\
    marked (bitmaps bg) (bitmaps bg') (first_free_block bg) (first_free_block bg + len) /\
    clear (bitmaps bg) (first_free_block bg) (first_free_block bg + len) /\ first_free_block bg' = first_free_block bg + len /\
    keep_bg bg bg'.

Lemma first_block_bound s i bg : fs_ok s -> bgs s !! i = Some bg ->
  0 <= bg_first_block bg /\ bg_first_block bg + blocks_per_group info < 2 ^ 32.
Proof.
  intros Hs Hi. destruct (fo_bg s Hs i bg Hi) as [_ ->]. apply lookup_lt_Some in Hi. rewrite (fo_groups s Hs) in Hi.
  pose proof (ge_first Hge). pose proof (ge_groups Hge). pose proof (ge_end Hge). pose proof (ge_bpg Hge). nia.
Qed.

Lemma allocate_from_group_ok s i bg len : fs_ok s -> bgs s !! i = Some bg -> 0 <= len <= bg_free_blocks bg ->
  exists b s', ext4_allocate_blocks_from_block_group force len (Z.of_nat i) s = Ok b s' /\ taken_from s i len b s'.
Proof.
  intros Hs Hi Hlen. destruct (fo_bg s Hs i bg Hi) as [Hbg _]. pose proof (first_block_bound s i bg Hs Hi) as Hfb.
  pose proof Hbg as [_ _ (limit & Hff & Hlim & Hfree & _)].
  destruct (reserve_blocks_ok s i bg len Hi Hbg Hlen) as (bm & Hr & Hm & Hc & Hok).
  unfold ext4_allocate_blocks_from_block_group.
  assert (Hgf : get_free_blocks (Z.of_nat i) s = Ok (bg_free_blocks bg) s) by (unfold get_free_blocks; by run (get_bg_ok s i bg Hi)).
  run Hgf. rewrite (proj2 (Z.ltb_ge _ _)) by lia. run (get_bg_ok s i bg Hi). run Hr. cbn [Z.ltb Z.compare].
  run (get_bg_ok (set_bg s i (after bg bm len)) i (after bg bm len) (set_bg_lookup s i bg _ Hi)).
  run (put_bg_ok (set_bg s i (after bg bm len)) i). rewrite set_bg_twice.
  exists (bg_first_block bg + first_free_block bg), (set_bg s i (add_used (after bg bm len) len)). split.
  - unfold mret, fsM_ret. f_equal. cbn. rewrite u32_small; [done|]. unfold is_u32. lia.
  - exists bg, (add_used (after bg bm len) len). destruct Hok as [Ho1 Ho2 Ho3]. split_and!; try done; [lia..|].
    split; try done. intros j Hj. cbn. pose proof (ge_bs Hge). pose proof (ge_bpg Hge). rewrite (mk_bits _ _ _ _ Hm) by lia.
    destruct (Z.ltb_spec j (first_free_block bg + len)); [lia|]. by rewrite andb_false_r.
Qed.

Lemma lookup_set_bg s i bg bg' k x : bgs s !! i = Some bg -> bgs (set_bg s i bg') !! k = Some x ->
  (k = i /\ x = bg') \/ (k <> i /\ bgs s !! k = Some x).
Proof.
  intros Hi Hk. destruct (decide (k = i)) as [->|Hne].
  - rewrite (set_bg_lookup s i bg bg' Hi) in Hk. injection Hk as <-. by left.
  - right. split; [done|]. cbn in Hk. by rewrite list_lookup_insert_ne in Hk.
Qed.

Lemma taken_from_fs_ok s i len b s' : fs_ok s -> taken_from s i len b s' -> fs_ok s'.
Proof.
  intros Hs (bg & bg' & Hi & -> & _ & Hf & Hok & _). destruct (fo_bg s Hs i bg Hi) as [_ Hfb].
  split; [cbn; rewrite length_insert; apply Hs|]. intros k x Hk.
  destruct (lookup_set_bg s i bg bg' k x Hi Hk) as [[-> ->]|[_ Hx]]; [|by apply Hs]. split; [done|]. by rewrite Hf.
Qed.

(** The blocks handed out, and no others, have become used; they were free. *)
Lemma taken_from_used s i len b s' : fs_ok s -> taken_from s i len b s' ->
  (forall x, used s' x <-> used s x \/ b <= x < b + len) /\ (forall x, b <= x < b + len -> ~ used s x).
Proof.
  intros Hs (bg & bg' & Hi & -> & -> & Hf & Hok & _ & Hff & Hle & Hm & Hc & _). destruct (fo_bg s Hs i bg Hi) as [_ Hfb].
  pose proof (ge_bpg Hge) as Hbpg.
  assert (Huniq : forall k x y, bgs s !! k = Some x -> bg_first_block x <= y < bg_first_block x + blocks_per_group info ->
    bg_first_block bg <= y < bg_first_block bg + blocks_per_group info -> k = i).
  { intros k x y Hk Hy Hy'. destruct (fo_bg s Hs k x Hk) as [_ Hkb]. rewrite Hkb, Hfb in *. nia. }
  split.
  - intros x. split.
    + intros (k & y & Hk & Hx & Hbit). destruct (lookup_set_bg s i bg bg' k y Hi Hk) as [[-> ->]|[Hne Hy]].
      * rewrite Hf in *. rewrite (mk_bits _ _ _ _ Hm) in Hbit by lia. apply orb_true_iff in Hbit as [Hr|Hb].
        -- right. apply andb_true_iff in Hr as [H1%Z.leb_le H2%Z.ltb_lt]. lia.
        -- left. by exists i, bg.
      * left. by exists k, y.
    + intros [(k & y & Hk & Hx & Hbit)|Hx].
      * destruct (decide (k = i)) as [->|Hne].
        -- rewrite Hi in Hk. injection Hk as <-. exists i, bg'. split; [by apply (set_bg_lookup s i bg)|]. rewrite Hf. split; [done|].
           rewrite (mk_bits _ _ _ _ Hm), Hbit by lia. by rewrite orb_true_r.
        -- exists k, y. split; [|done]. cbn. by rewrite list_lookup_insert_ne.
      * exists i, bg'. split; [by apply (set_bg_lookup s i bg)|]. rewrite Hf. split; [lia|].
        rewrite (mk_bits _ _ _ _ Hm) by lia. apply orb_true_iff. left. apply andb_true_iff. split; [apply Z.leb_le|apply Z.ltb_lt]; lia.
  - intros x Hx (k & y & Hk & Hxy & Hbit). assert (k = i) as -> by (apply (Huniq k y x); [done..|lia]).
    rewrite Hi in Hk. injection Hk as <-. rewrite Hc in Hbit by lia. done.
Qed.

Lemma taken_from_free s i len b s' : taken_from s i len b s' -> total_free s' = total_free s - len.
Proof.
  intros (bg & bg' & Hi & -> & _ & _ & _ & Hf & _). unfold total_free, frees. cbn [set_bg bgs]. revert i Hi.
  induction (bgs s) as [|x l IH]; intros [|i] Hi; cbn in Hi; try discriminate.
  - injection Hi as ->. cbn. lia.
  - change (<[S i := bg']> (x :: l)) with (x :: <[i := bg']> l). rewrite !fmap_cons. cbn [foldr]. rewrite (IH i Hi). lia.
Qed.

(** *** The search *)

(** Group [i] with [n] free blocks is the best fit for [len] among the free
    counts [l]: the smallest that is large enough, else the largest; [n = 0]
    if nothing is free. *)
Definition best_fit (l : list Z) (len : Z) (found : Z * Z) : Prop :=
  let '(i, n) := found in
  0 <= n /\ (0 < n -> 0 <= i /\ l !! Z.to_nat i = Some n) /\
  (len <= n -> Forall (fun m => len <= m -> n <= m) l) /\ (n < len -> Forall (fun m => m <= n) l).

Lemma best_step_ok l len found m : 0 < len -> 0 <= m -> best_fit l len found ->
  best_fit (l ++ [m]) len (best_step len found (Z.of_nat (length l)) m).
Proof.
  intros Hlen Hm. destruct found as [i n]. intros (Hn & Hi & Hle & Hgt). unfold best_step.
  assert (Hnew : (l ++ [m]) !! Z.to_nat (Z.of_nat (length l)) = Some m) by (by rewrite Nat2Z.id, list_lookup_middle).
  destruct (Z.leb_spec len m), (Z.eqb_spec n 0), (Z.ltb_spec m n), (Z.ltb_spec n len), (Z.ltb_spec n m); cbn [andb orb]; try lia;
    (split; [lia|]; split;
      [first [intros _; split; [lia|exact Hnew]
             |intros Hpos; destruct (Hi Hpos) as [Hi0 Hli]; split; [done|by apply lookup_app_l_Some]]|]);
    (split; intros Hc; try lia; apply Forall_app; (split; [|by repeat constructor; lia]));
    first [eapply Forall_impl; [by apply Hgt|]; cbn; lia | eapply Forall_impl; [by apply Hle|]; cbn; lia].
Qed.

Lemma best_loop_ok s len k : 0 < len -> Forall (fun m => 0 <= m) (frees s) -> forall n found,
  (n + k = length (bgs s))%nat -> best_fit (take n (frees s)) len found ->
  exists found', best_loop len (seq n k) found s = Ok found' s /\ best_fit (frees s) len found'.
Proof.
  intros Hlen Hpos. induction k as [|k IH]; intros n found Hnk Hb; cbn [seq best_loop].
  { exists found. split; [done|]. rewrite take_ge in Hb; [done|]. unfold frees. rewrite length_fmap. lia. }
  destruct (lookup_lt_is_Some_2 (bgs s) n) as [bg Hbg]; [lia|]. run (get_bg_ok s n bg Hbg).
  assert (Hf : frees s !! n = Some (bg_free_blocks bg)) by (unfold frees; by rewrite list_lookup_fmap, Hbg).
  apply IH; [lia|]. rewrite (take_S_r _ _ _ Hf).
  assert (Hlt : length (take n (frees s)) = n) by (rewrite length_take; unfold frees; rewrite length_fmap; lia).
  rewrite <- Hlt at 2. apply best_step_ok; [done| |done]. rewrite Forall_forall in Hpos. apply Hpos. by eapply list_elem_of_lookup_2.
Qed.

Lemma frees_pos s : fs_ok s -> Forall (fun m => 0 <= m) (frees s).
Proof.
  intros Hs. apply Forall_fmap, Forall_lookup. intros i bg Hi. cbn. destruct (fo_bg s Hs i bg Hi) as [[_ _ (limit & Hff & _ & -> & _)] _]. lia.
Qed.

Lemma best_search s len : fs_ok s -> 0 < len ->
  exists found, best_loop len (seq 0 (Z.to_nat (groups aux))) (0, 0) s = Ok found s /\ best_fit (frees s) len found.
Proof.
  intros Hs Hlen. apply best_loop_ok; [done|by apply frees_pos|rewrite (fo_groups s Hs); lia|].
  rewrite take_0. split; [lia|]. split; [lia|]. split; [lia|]. constructor.
Qed.

Lemma sum_le_0 l : Forall (fun m => m <= 0) l -> foldr Z.add 0 l <= 0.
Proof. induction 1; cbn; lia. Qed.

Lemma sum_elem l i n : Forall (fun m => 0 <= m) l -> l !! i = Some n -> n <= foldr Z.add 0 l.
Proof.
  intros Hl. revert i. induction Hl as [|x l Hx Hl IH]; intros [|i] Hi; cbn in *; try discriminate.
  - injection Hi as ->. clear IH. assert (0 <= foldr Z.add 0 l) by (induction Hl; cbn; lia). lia.
  - pose proof (IH i Hi). lia.
Qed.

(** A turn of the allocation: a region of the best group, or none if no block
    is free. *)
Lemma best_fit_partial_ok s len : fs_ok s -> 0 < len < 2 ^ 32 -> 0 < total_free s ->
  exists i n b s1 s', best_fit (frees s) len (Z.of_nat i, n) /\ 0 < n /\ taken_from s i (Z.min len n) b s1 /\
    let p := fresh (dom (heap s)) in
    s' = with_heap s1 (<[p := mk_region b (Z.min len n) (Z.of_nat i) None None]> (heap s1)) /\
    ext4_allocate_best_fit_partial force aux len s = Ok (Some p) s'.
Proof.
  intros Hs Hlen Hfree. destruct (best_search s len Hs) as ([i n] & Hbl & Hbest); [lia|]. pose proof Hbest as (Hn & Hi & _ & Hgt).
  assert (Hpos : 0 < n).
  { destruct (Z.ltb_spec 0 n) as [|Hle]; [done|]. assert (n = 0) as -> by lia.
    pose proof (sum_le_0 _ (Hgt ltac:(lia))). unfold total_free in Hfree. lia. }
  destruct (Hi Hpos) as [Hi0 Hli]. destruct (Z_of_nat_complete i Hi0) as [k ->]. rewrite Nat2Z.id in Hli. unfold frees in Hli. rewrite list_lookup_fmap in Hli.
  destruct (bgs s !! k) as [bg|] eqn:Hbg; [|done]. cbn in Hli. injection Hli as Hn'.
  destruct (allocate_from_group_ok s k bg (Z.min len n) Hs Hbg ltac:(lia)) as (b & s1 & Hal & Htk).
  exists k, n, b, s1. eexists. split; [done|]. split; [done|]. split; [done|]. cbv zeta.
  assert (Hheap : heap s1 = heap s) by (by destruct Htk as (? & ? & _ & -> & _)).
  split; [done|]. unfold ext4_allocate_best_fit_partial. run Hbl. rewrite (proj2 (Z.eqb_neq _ _)) by lia. cbn [negb]. run Hal.
  assert (Hb : b <> EXT4_ALLOCATE_FAILED).
  { destruct Htk as (bg0 & bg' & Hbg0 & _ & -> & _ & _ & _ & _ & Hle & _). pose proof (first_block_bound s _ _ Hs Hbg0).
    unfold EXT4_ALLOCATE_FAILED. lia. }
  rewrite (proj2 (Z.eqb_neq _ _)) by done.
  assert (Hs32 : s32 (Z.of_nat k) = Z.of_nat k).
  { apply s32_small. apply lookup_lt_Some in Hbg. rewrite (fo_groups s Hs) in Hbg. pose proof (ge_groups Hge). lia. }
  rewrite Hs32, <- Hheap. reflexivity.
Qed.

(** *** A whole allocation *)

Definition blocks_of (l : list extent) : list Z := l ≫= fun '(b, n, _) => seqZ b n.
Definition blocks_len (l : list extent) : Z := foldr (fun '(_, n, _) a => n + a) 0 l.

Lemma blocks_of_app l k : blocks_of (l ++ k) = blocks_of l ++ blocks_of k.
Proof. apply bind_app. Qed.

Lemma blocks_len_app l k : blocks_len (l ++ k) = blocks_len l + blocks_len k.
Proof. unfold blocks_len. induction l as [|[[b n] g] l IH]; cbn; lia. Qed.

(** The region lies in its group. *)
Definition in_group (x : extent) : Prop :=
  let '(b, n, g) := x in
  0 < n /\ 0 <= g < groups aux /\ first_data_block aux + g * blocks_per_group info <= b /\
  b + n <= first_data_block aux + (g + 1) * blocks_per_group info.

(** Between [s] and [s'] exactly the regions [l] were handed out, and their
    blocks were free. *)
Record handed (s : fs) (l : list extent) (s' : fs) : Prop := {
  ha_ok : fs_ok s';
  ha_in : Forall in_group l;
  ha_nodup : NoDup (blocks_of l);
  ha_free : forall x, x ∈ blocks_of l -> ~ used s x;
  ha_used : forall x, used s' x <-> used s x \/ x ∈ blocks_of l;
  ha_total : total_free s' = total_free s - blocks_len l;
  ha_keeps : keeps s s'
}.

Lemma handed_nil s : fs_ok s -> handed s [] s.
Proof.
  intros Hs. split; [done|constructor|constructor| | |cbn; lia|reflexivity].
  - intros x Hx. by apply not_elem_of_nil in Hx.
  - intros x. split; [by left|]. intros [Hx|Hx]; [done|by apply not_elem_of_nil in Hx].
Qed.

Lemma handed_one s i n b s' : fs_ok s -> 0 < n -> taken_from s i n b s' -> handed s [(b, n, Z.of_nat i)] s'.
Proof.
  intros Hs Hn Ht. pose proof (taken_from_used s i n b s' Hs Ht) as [Hu Hf].
  assert (Hel : forall x, x ∈ blocks_of [(b, n, Z.of_nat i)] <-> b <= x < b + n).
  { intros x. cbn. rewrite app_nil_r. apply elem_of_seqZ. }
  split.
  - by eapply taken_from_fs_ok.
  - constructor; [|constructor]. destruct Ht as (bg & bg' & Hi & _ & -> & _ & _ & _ & Hff & Hle & _).
    destruct (fo_bg s Hs i bg Hi) as [_ ->]. apply lookup_lt_Some in Hi. rewrite (fo_groups s Hs) in Hi. cbn. lia.
  - cbn. rewrite app_nil_r. apply NoDup_seqZ.
  - intros x. rewrite Hel. apply Hf.
  - intros x. by rewrite Hel.
  - rewrite (taken_from_free s i n b s' Ht). cbn. lia.
  - destruct Ht as (bg & bg' & Hi & -> & Ht). apply (keeps_set_bg s i bg); [done|apply Ht].
Qed.

Lemma handed_trans s l s1 k s2 : handed s l s1 -> handed s1 k s2 -> handed s (l ++ k) s2.
Proof.
  intros [O1 I1 N1 F1 U1 T1 K1] [O2 I2 N2 F2 U2 T2 K2]. split.
  - done.
  - by apply Forall_app.
  - rewrite blocks_of_app. apply NoDup_app. split; [done|]. split; [|done]. intros x Hx Hk. apply (F2 x Hk). apply U1. by right.
  - intros x. rewrite blocks_of_app, elem_of_app. intros [Hx|Hx]; [by apply F1|]. intros Hu. apply (F2 x Hx), U1. by left.
  - intros x. rewrite U2, U1, blocks_of_app, elem_of_app. tauto.
  - rewrite T2, T1, blocks_len_app. lia.
  - by transitivity s1.
Qed.

(** Only the groups matter. *)
Lemma handed_bgs s l s1 s2 : bgs s1 = bgs s2 -> handed s l s1 -> handed s l s2.
Proof.
  intros He [[O1 O2] I1 N1 F1 U1 T1 K1]. unfold used, total_free, frees, keeps in *.
  split; [split; by rewrite <- He|done..|unfold used; by rewrite <- He|unfold total_free, frees; by rewrite <- He|unfold keeps; by rewrite <- He].
Qed.
Lemma handed_bgs_l s1 s2 l s : bgs s1 = bgs s2 -> handed s1 l s -> handed s2 l s.
Proof.
  intros He [O1 I1 N1 F1 U1 T1 K1]. unfold used, total_free, frees, keeps in *.
  split; [done|done|done|..]; unfold used, total_free, frees, keeps; by rewrite <- He.
Qed.
Lemma fs_ok_bgs s1 s2 : bgs s1 = bgs s2 -> fs_ok s1 -> fs_ok s2.
Proof. intros He [O1 O2]. split; by rewrite <- He. Qed.

(** Nothing but the groups and the heap changes. *)
Definition same_rest (s s' : fs) : Prop :=
  ext4_sparse_file s' = ext4_sparse_file s /\ xattrs s' = xattrs s /\ inodes s' = inodes s /\ bufs s' = bufs s.

Lemma same_rest_trans s s1 s2 : same_rest s s1 -> same_rest s1 s2 -> same_rest s s2.
Proof. unfold same_rest. intuition congruence. Qed.

(** The list built so far. *)
Definition linked (s : fs) (first : option rloc) (l : list (rloc * extent)) : Prop :=
  seg (heap s) first None l None /\ NoDup l.*1.

(** The cells outside [l] are left alone, and none of them is in [k]. *)
Definition framed (s : fs) (l : list (rloc * extent)) (s' : fs) (k : list (rloc * extent)) : Prop :=
  forall q, q ∉ l.*1 -> q ∈ dom (heap s) -> heap s' !! q = heap s !! q /\ q ∉ k.*1.

(** The region ends at the first free block of its group; the group has no free
    blocks. *)
Definition ends_at (s : fs) (x : extent) : Prop :=
  let '(b, n, g) := x in exists bg, bgs s !! Z.to_nat g = Some bg /\ bg_first_block bg + first_free_block bg = b + n.
Definition exhausted (s : fs) (x : extent) : Prop :=
  let '(b, n, g) := x in exists bg, bgs s !! Z.to_nat g = Some bg /\ bg_first_block bg + first_free_block bg = b + n /\ bg_free_blocks bg = 0.

Lemma exhausted_ends s x : exhausted s x -> ends_at s x.
Proof. destruct x as [[b n] g]. intros (bg & H1 & H2 & _). by exists bg. Qed.

Lemma exhausted_bgs s s' x : bgs s' = bgs s -> exhausted s x -> exhausted s' x.
Proof. destruct x as [[b n] g]. intros He. unfold exhausted. by rewrite He. Qed.

Lemma ends_at_bgs s s' x : bgs s' = bgs s -> ends_at s x -> ends_at s' x.
Proof. destruct x as [[b n] g]. intros He. unfold ends_at. by rewrite He. Qed.

Lemma taken_from_end s i m b s' : taken_from s i m b s' ->
  ends_at s' (b, m, Z.of_nat i) /\ (frees s !! i = Some m -> exhausted s' (b, m, Z.of_nat i)) /\
  (0 < default 0 (frees s !! i) -> forall x, exhausted s x -> exhausted s' x).
Proof.
  intros (bg & bg' & Hi & -> & -> & Hf & _ & Hfree & _ & _ & _ & _ & Hff). unfold frees. rewrite list_lookup_fmap, Hi. cbn.
  assert (Hl : bgs (set_bg s i bg') !! i = Some bg') by (by apply (set_bg_lookup s i bg)). split_and!.
  - exists bg'. rewrite Nat2Z.id. split; [done|]. lia.
  - intros [= <-]. exists bg'. rewrite Nat2Z.id. split; [done|]. lia.
  - intros Hpos [[b' n'] g'] (bg2 & H1 & H2 & H3). exists bg2. split; [|done]. cbn. destruct (decide (Z.to_nat g' = i)) as [He|Hne].
    + rewrite He, Hi in H1. injection H1 as <-. lia.
    + by rewrite list_lookup_insert_ne.
Qed.

(** One turn of the loop, while there are free blocks. *)
Lemma best_fit_turn fuel s len first l : fs_ok s -> 0 < len < 2 ^ 32 -> 0 < total_free s -> linked s first l ->
  exists x s1, let '(p, (b, m, g)) := x in let first1 := match first with None => Some p | _ => first end in
    best_fit_loop force aux (S fuel) first (last_loc None l) len s =
      best_fit_loop force aux fuel first1 (last_loc None (l ++ [x])) (len - m) s1 /\
    0 < m <= len /\ (m < len -> forall n, n ∈ frees s -> n <= m) /\ linked s1 first1 (l ++ [x]) /\ handed s [(b, m, g)] s1 /\
    same_rest s s1 /\ framed s l s1 [x] /\ ends_at s1 (b, m, g) /\ (m < len -> exhausted s1 (b, m, g)) /\
    (forall y, exhausted s y -> exhausted s1 y) /\ (forall y, exhausted s y -> 0 <= y.2 -> y.2 <> g).
Proof.
  intros Hs Hlen Hfree [Hseg Hnd].
  destruct (best_fit_partial_ok s len Hs Hlen Hfree) as (i & n & b & s1 & s2 & Hbest & Hn & Htk & Hs2 & Hrun).
  set (p := fresh (dom (heap s))) in *. set (m := Z.min len n) in *. assert (Hm : 0 < m <= len) by lia.
  assert (Hp : p ∉ dom (heap s)) by apply is_fresh.
  assert (Hs1 : heap s1 = heap s /\ same_rest s s1) by (by destruct Htk as (? & ? & _ & -> & _)). destruct Hs1 as [Hh1 Hr1].
  destruct (link_ok s2 (heap s) first l p b m (Z.of_nat i) Hseg Hnd Hp) as (h' & Hlink & Hseg' & (pv & Hpv) & Hfr); [by rewrite Hs2, Hh1|].
  pose proof (handed_one s i m b s1 Hs ltac:(lia) Htk) as Hone.
  set (s3 := with_heap s2 h') in *. assert (Hb3 : bgs s1 = bgs s3) by (unfold s3; by rewrite Hs2).
  apply (handed_bgs _ _ _ _ Hb3) in Hone. assert (Hpl : p ∉ l.*1) by (intros Hin; apply Hp; by eapply seg_dom).
  exists (p, (b, m, Z.of_nat i)), s3. cbv zeta.
  destruct (taken_from_end s i m b s1 Htk) as (He1 & He2 & He3). destruct Hbest as (_ & Hbi & _ & Hmax). destruct (Hbi Hn) as [_ Hli].
  rewrite Nat2Z.id in Hli. split_and!; [|lia|lia| | |done| | |by apply (ends_at_bgs s1)| | |].
  - cbn [best_fit_loop]. rewrite (proj2 (Z.eqb_neq len 0)) by lia. run Hrun.
    change (match last_loc None l with None => mret tt | Some _ => _ end) with (link (last_loc None l) (Some p)). run Hlink.
    fold s3. run (load_ok s3 p _ Hpv). cbn [r_len]. rewrite u32_small by (unfold is_u32; lia).
    unfold last_loc at 1. by rewrite last_snoc.
  - intros Hlt n' Hin. assert (m = n) as -> by lia.
    pose proof (Hmax ltac:(lia)) as Hall. rewrite Forall_forall in Hall. by apply Hall.
  - split; [exact Hseg'|]. rewrite fmap_app. apply NoDup_app. split; [done|]. split; [|by apply NoDup_singleton]. intros q Hq Hin.
    apply list_elem_of_singleton in Hin. by subst.
  - unfold s3. rewrite Hs2. exact Hr1.
  - intros q Hq Hd. assert (Hqp : q <> p) by congruence. split; [by apply Hfr|]. intros Hin. by apply list_elem_of_singleton in Hin.
  - intros Hlt. apply (exhausted_bgs s1); [done|]. apply He2. rewrite Hli. f_equal. lia.
  - intros y Hy. apply (exhausted_bgs s1); [done|]. apply He3; [|done]. rewrite Hli. exact Hn.
  - intros [[b' n'] g'] (bg & H1 & _ & H0) Hg' Heq. cbn in Heq. subst g'. rewrite Nat2Z.id in H1. unfold frees in Hli.
    rewrite list_lookup_fmap, H1 in Hli. cbn in Hli. injection Hli as Hli. lia.
Qed.

Lemma framed_trans s l s1 x s2 k : framed s l s1 [x] -> framed s1 (l ++ [x]) s2 k -> framed s l s2 (x :: k).
Proof.
  intros H1 H2 q Hq Hd. destruct (H1 q Hq Hd) as [E1 N1]. destruct (H2 q) as [E2 N2].
  - rewrite fmap_app, elem_of_app. tauto.
  - apply elem_of_dom. rewrite E1. by apply elem_of_dom.
  - split; [congruence|]. rewrite fmap_cons. apply not_elem_of_cons. split; [|done]. intros ->. apply N1. by left.
Qed.

(** The loop with the list [l] linked so far: it appends [l'], whose blocks
    were free and now are used. *)
Lemma best_fit_loop_ok fuel : forall s len first l, fs_ok s -> 0 <= len <= total_free s -> len < 2 ^ 32 -> len <= Z.of_nat fuel ->
  linked s first l -> Forall (ends_at s) l.*2 -> (0 < len -> Forall (exhausted s) l.*2) -> NoDup l.*2.*2 -> Forall (Z.le 0) l.*2.*2 ->
  exists l' first' s', best_fit_loop force aux fuel first (last_loc None l) len s = Ok first' s' /\
    linked s' first' (l ++ l') /\ handed s l'.*2 s' /\ blocks_len l'.*2 = len /\ same_rest s s' /\ framed s l s' l' /\
    Forall (ends_at s') (l ++ l').*2 /\ NoDup (l ++ l').*2.*2.
Proof.
  induction fuel as [|fuel IH]; intros s len first l Hs Hlen H32 Hfuel Hl Hends Hexh Hng Hpos;
    (destruct (Z.eq_dec len 0) as [->|Hne];
      [exists [], first, s; rewrite app_nil_r; split_and!; try done; [by apply handed_nil|intros q Hq Hd; split; [done|apply not_elem_of_nil]]|]); [lia|].
  destruct (best_fit_turn fuel s len first l Hs ltac:(lia) ltac:(lia) Hl) as ([p [[b m] g]] & s1 & -> & Hm & _ & Hl1 & Hone & Hr1 & Hf1 & He1 & He2 & He3 & He4).
  destruct (IH s1 (len - m) (match first with None => Some p | _ => first end) (l ++ [(p, (b, m, g))])) as (l' & first' & s' & -> & Hl' & Hh & Hlen' & Hrest & Hframe & Hends' & Hng'); [by eapply ha_ok| | | |done| | | | |].
  { rewrite (ha_total _ _ _ Hone). cbn. lia. }
  { lia. }
  { lia. }
  { rewrite fmap_app. apply Forall_app. split; [|by repeat constructor]. eapply Forall_impl; [by apply Hexh; lia|]. intros y Hy.
    by apply exhausted_ends, He3. }
  { intros Hpos1. rewrite fmap_app. apply Forall_app. split; [|repeat constructor; apply He2; lia]. eapply Forall_impl; [by apply Hexh; lia|]. exact He3. }
  { rewrite !fmap_app. apply NoDup_app. split; [done|]. split; [|by apply NoDup_singleton]. intros g' Hg' Hin. apply list_elem_of_singleton in Hin as ->.
    apply list_elem_of_fmap in Hg' as (y & Hy & Hyin). specialize (Hexh ltac:(lia)). rewrite Forall_forall in Hexh. rewrite Forall_forall in Hpos.
    apply (He4 y); [by apply Hexh| |done]. apply Hpos, list_elem_of_fmap. by exists y. }
  { rewrite !fmap_app. apply Forall_app. split; [done|]. repeat constructor. cbn. pose proof (ha_in _ _ _ Hone) as Hig.
    apply Forall_cons_1 in Hig as [(_ & Hg0 & _) _]. lia. }
  exists ((p, (b, m, g)) :: l'), first', s'. rewrite <- app_assoc in Hl', Hends', Hng'.
  split_and!; [done|done|by apply (handed_trans s [_] s1)|change (m + blocks_len l'.*2 = len); lia
    |by apply (same_rest_trans s s1)|by eapply framed_trans|done|done].
Qed.

Lemma total_free_nonneg s : fs_ok s -> 0 <= total_free s.
Proof. intros Hs. unfold total_free. induction (frees_pos s Hs); cbn; lia. Qed.

(** Without enough blocks everything that is free is taken before the loop
    gives up. *)
Lemma best_fit_loop_fails fuel : forall s len first l, fs_ok s -> total_free s < len < 2 ^ 32 -> len <= Z.of_nat fuel -> linked s first l ->
  exists s', best_fit_loop force aux fuel first (last_loc None l) len s = (if force then Ok None s' else Exit s') /\
    fs_ok s' /\ total_free s' = 0.
Proof.
  induction fuel as [|fuel IH]; intros s len first l Hs Hlen Hfuel Hl; pose proof (total_free_nonneg s Hs) as Hpos; [lia|].
  destruct (Z.eq_dec (total_free s) 0) as [Hz|Hnz].
  - exists s. split; [|done]. cbn [best_fit_loop]. rewrite (proj2 (Z.eqb_neq len 0)) by lia.
    destruct (best_search s len Hs ltac:(lia)) as ([i n] & Hbl & Hn & Hi & _).
    assert (n = 0) as ->.
    { destruct (Z.ltb_spec 0 n) as [Hlt|]; [|lia]. destruct (Hi Hlt) as [_ Hin].
      pose proof (sum_elem _ _ _ (frees_pos s Hs) Hin). unfold total_free in Hz. lia. }
    unfold ext4_allocate_best_fit_partial, mbind, fsM_bind. rewrite Hbl. unfold error. by destruct force.
  - destruct (best_fit_turn fuel s len first l Hs ltac:(lia) ltac:(lia) Hl) as ([p [[b m] g]] & s1 & -> & Hm & _ & Hl1 & Hone & _).
    pose proof (ha_total _ _ _ Hone) as Ht. pose proof (total_free_nonneg s1 (ha_ok _ _ _ Hone)). cbn in Ht.
    apply (IH s1 (len - m) _ _ (ha_ok _ _ _ Hone)); [lia|lia|exact Hl1].
Qed.

(** An allocation holds the regions [l], from its first to its last one. *)
Definition alloc_holds (s : fs) (a : block_allocation) (l : list (rloc * extent)) : Prop :=
  linked s (rl_first (al_list a)) l /\ rl_iter (al_list a) = rl_first (al_list a) /\ partial_iter (al_list a) = 0 /\
  oob_list a = mk_rl None None None 0.

(** The first region is as large as the largest group allows, and every region
    ends where its group's free blocks begin. *)
Lemma allocate_blocks_full s len : fs_ok s -> 0 < len <= total_free s -> len < 2 ^ 32 ->
  exists a p b m g l s', allocate_blocks force aux len s = Ok (Some a) s' /\ alloc_holds s' a ((p, (b, m, g)) :: l) /\
    rl_last (al_list a) = rl_first (al_list a) /\
    handed s ((p, (b, m, g)) :: l).*2 s' /\ blocks_len ((p, (b, m, g)) :: l).*2 = len /\ same_rest s s' /\ framed s [] s' ((p, (b, m, g)) :: l) /\
    Forall (ends_at s') ((p, (b, m, g)) :: l).*2 /\ (forall n, n ∈ frees s -> Z.min len n <= m) /\
    NoDup ((p, (b, m, g)) :: l).*2.*2.
Proof.
  intros Hs Hlen H32. assert (Hnil : linked s None []) by (split; [done|constructor]).
  destruct (best_fit_turn (Z.to_nat (len - 1)) s len None [] Hs ltac:(lia) ltac:(lia) Hnil)
    as ([p [[b m] g]] & s1 & Hrun1 & Hm & Hmax & Hl1 & Hone & Hr1 & Hf1 & He1 & He2 & _ & _). cbn [app] in *.
  destruct (best_fit_loop_ok (Z.to_nat (len - 1)) s1 (len - m) (Some p) [(p, (b, m, g))] (ha_ok _ _ _ Hone))
    as (l & first & s' & Hrun2 & Hl2 & Hh2 & Hlen2 & Hr2 & Hf2 & Hends & Hng);
    [|lia|lia|exact Hl1|by repeat constructor|by repeat constructor; apply He2; lia|by apply NoDup_singleton| |].
  { rewrite (ha_total _ _ _ Hone). cbn. lia. }
  { repeat constructor. pose proof (ha_in _ _ _ Hone) as Hig. apply Forall_cons_1 in Hig as [(_ & Hg0 & _) _]. cbn. lia. }
  destruct Hl2 as [Hseg Hnd]. pose proof Hseg as (-> & _).
  exists (mk_alloc (mk_rl (Some p) (Some p) (Some p) 0) (oob_list create_allocation)), p, b, m, g, l, s'.
  split_and!; try done.
  - unfold allocate_blocks, ext4_allocate_best_fit. replace (Z.to_nat len) with (S (Z.to_nat (len - 1))) by lia.
    change None with (last_loc None []) at 2. assert (Hrun : best_fit_loop force aux (S (Z.to_nat (len - 1))) None (last_loc None []) len s = Ok (Some p) s')
      by (by rewrite Hrun1). by run Hrun.
  - by apply (handed_trans s [_] s1).
  - change (m + blocks_len l.*2 = len). lia.
  - by apply (same_rest_trans s s1).
  - by apply (framed_trans s [] s1 (p, (b, m, g)) s' l).
  - intros n Hn. destruct (Z.ltb_spec m len) as [Hlt|]; [|lia]. pose proof (Hmax Hlt n Hn). lia.
Qed.

Lemma allocate_blocks_ok s len : fs_ok s -> 0 < len <= total_free s -> len < 2 ^ 32 ->
  exists a l s', allocate_blocks force aux len s = Ok (Some a) s' /\ alloc_holds s' a l /\ handed s l.*2 s' /\
    blocks_len l.*2 = len /\ same_rest s s' /\ framed s [] s' l.
Proof.
  intros Hs Hlen H32. destruct (allocate_blocks_full s len Hs Hlen H32) as (a & p & b & m & g & l & s' & Hr & Hh & _ & H1 & H2 & H3 & H4 & _).
  by exists a, ((p, (b, m, g)) :: l), s'.
Qed.

(** ** The layout of a new filesystem *)

(** Blocks in front of the data of group [g], and the blocks that exist. *)
Definition header (g : Z) : Z :=
  2 + inode_table_blocks aux + (if ext4_bg_has_super_block info g then super_blocks info aux else 0).
Definition group_start (g : Z) : Z := first_data_block aux + g * blocks_per_group info.
Definition group_size (g : Z) : Z := Z.min (blocks_per_group info) (len_blocks aux - group_start g).

Record layout : Prop := {
  la_tables : 0 <= inode_table_blocks aux;
  la_super : 0 <= super_blocks info aux;
  la_len : 0 <= len_blocks aux < 2 ^ 32;
  la_header : forall g, 0 <= g < groups aux -> header g <= group_size g
}.
Context (Hla : layout).

(** A group as [init_bg] leaves it. *)
Record new_group (g : Z) (bg : block_group_info) : Prop := {
  ng_ok : bg_ok bg;
  ng_start : bg_first_block bg = group_start g;
  ng_free : bg_free_blocks bg = group_size g - header g;
  ng_bits : forall j, 0 <= j < blocks_per_group info -> bit (bitmaps bg) j = (j <? header g) || (group_size g <=? j);
  ng_inodes : bg_free_inodes bg = inodes_per_group info /\ first_free_inode bg = 1;
  ng_super : has_superblock bg = ext4_bg_has_super_block info g;
  ng_inode_bits : clear (bitmaps bg) (8 * block_size info) (16 * block_size info)
}.

Definition add_queued (s : fs) (q : list queued) : fs :=
  mk_fs (bgs s) (heap s) (ext4_sparse_file s ++ q) (xattrs s) (inodes s) (bufs s).

(** Where the bitmaps of a group go. *)
Definition bitmaps_at (g : Z) : queued :=
  QData (BgBitmaps g) 0 (2 * block_size info)
    (group_start g + if ext4_bg_has_super_block info g then super_blocks info aux else 0).

Lemma bit_zeros n j : bit (replicate n 0) j = false.
Proof. unfold bit. assert (nth (Z.to_nat (j / 8)) (replicate n 0) 0 = 0) as ->; [|apply Z.bits_0].
  destruct (nth_in_or_default (Z.to_nat (j / 8)) (replicate n 0) 0) as [Hin|]; [|done].
  by apply list_elem_of_In, elem_of_replicate in Hin as [-> _].
Qed.

Lemma new_group_intro g bg : header g <= group_size g -> 0 <= header g -> length (bitmaps bg) = Z.to_nat (2 * block_size info) -> Forall is_byte (bitmaps bg) ->
  (forall j, 0 <= j < 16 * block_size info -> bit (bitmaps bg) j = (j <? header g) || ((group_size g <=? j) && (j <? blocks_per_group info))) ->
  bg_first_block bg = group_start g -> bg_free_blocks bg = group_size g - header g ->
  (first_free_block bg = header g \/ (header g = group_size g /\ first_free_block bg = blocks_per_group info)) ->
  bg_free_inodes bg = inodes_per_group info -> first_free_inode bg = 1 -> has_superblock bg = ext4_bg_has_super_block info g -> new_group g bg.
Proof.
  intros Hle Hh0 Hlen Hby Hbits Hst Hfree Hff Hin Hfi Hsu. pose proof (ge_bs Hge). pose proof (ge_bpg Hge).
  assert (Hbits' : forall j, 0 <= j < blocks_per_group info -> bit (bitmaps bg) j = (j <? header g) || (group_size g <=? j)).
  { intros j Hj. rewrite Hbits by lia. rewrite (proj2 (Z.ltb_lt j (blocks_per_group info))) by lia. by rewrite andb_true_r. }
  assert (Hgs : group_size g <= blocks_per_group info) by apply Z.le_min_l.
  split; [|done|done|exact Hbits'|done|done|].
  - split; [done|done|]. destruct Hff as [->|[Heq ->]].
    + exists (group_size g). split_and!; [lia..|]. exact Hbits'.
    + exists (blocks_per_group info). split_and!; [lia..|]. intros j Hj. rewrite Hbits' by done.
      destruct (Z.ltb_spec j (header g)), (Z.leb_spec (group_size g) j), (Z.ltb_spec j (blocks_per_group info)); try done; lia.
  - intros j Hj. rewrite Hbits by lia. destruct (Z.ltb_spec j (header g)), (Z.ltb_spec j (blocks_per_group info)); lia.
Qed.

Lemma init_bg_ok s i : (i < Z.to_nat (groups aux))%nat -> (i < length (bgs s))%nat ->
  exists bg, new_group (Z.of_nat i) bg /\
    init_bg force info aux (Z.of_nat i) s = Ok tt (set_bg (add_queued s [bitmaps_at (Z.of_nat i)]) i bg).
Proof.
  intros Hg Hi. set (g := Z.of_nat i). pose proof (ge_bs Hge) as Hbs. pose proof (ge_bpg Hge) as Hbpg. pose proof (ge_first Hge) as Hfi.
  pose proof (ge_end Hge) as Hend. pose proof (ge_groups Hge) as Hgr. destruct Hla as [Hit Hsu Hlen Hhd].
  assert (Hg0 : 0 <= g < groups aux) by lia. specialize (Hhd g Hg0).
  assert (Hst : 0 <= group_start g /\ group_start g + blocks_per_group info < 2 ^ 32) by (unfold group_start; nia).
  unfold init_bg. cbv zeta. rewrite (s32_small g) by lia.
  assert (Hh : s32 (2 + inode_table_blocks aux + (if ext4_bg_has_super_block info g then super_blocks info aux else 0)) = header g).
  { apply s32_small. fold (header g). unfold header, group_size in *. destruct (ext4_bg_has_super_block info g); lia. }
  rewrite Hh. fold (group_start g). rewrite (u32_small (group_start g)) by (unfold is_u32; lia).
  assert (Hh0 : 0 <= header g) by (unfold header; destruct (ext4_bg_has_super_block info g); lia).
  set (bm0 := replicate (Z.to_nat (2 * block_size info)) 0).
  set (bg0 := mk_bg (group_start g) (header g) 0 (ext4_bg_has_super_block info g) bm0 false (blocks_per_group info) 0 (inodes_per_group info) 1
    EXT4_BG_INODE_UNINIT 0).
  set (s2 := set_bg (add_queued s [bitmaps_at g]) i bg0). run (put_bg_ok s i bg0).
  assert (Hsup : group_start g + (if ext4_bg_has_super_block info g then super_blocks info aux else 0) < 2 ^ 32)
    by (unfold header, group_size in Hhd; destruct (ext4_bg_has_super_block info g); lia).
  assert (Hqu : u32 (if ext4_bg_has_super_block info g then group_start g + super_blocks info aux else group_start g) =
    group_start g + (if ext4_bg_has_super_block info g then super_blocks info aux else 0))
    by (destruct (ext4_bg_has_super_block info g); rewrite u32_small by (unfold is_u32; lia); lia).
  rewrite Hqu, (u32_small (2 * block_size info)) by (unfold is_u32; lia). fold (bitmaps_at g).
  erewrite (bind_Ok (queue _) _ _ tt s2) by reflexivity.
  assert (Hl0 : bgs s2 !! i = Some bg0) by (apply list_lookup_insert_eq; done).
  assert (Hby0 : Forall is_byte bm0) by (by apply Forall_replicate).
  assert (Hbl0 : blen bm0 = 2 * block_size info) by (unfold blen, bm0; rewrite length_replicate; lia).
  assert (Hgs : group_size g <= blocks_per_group info) by apply Z.le_min_l. rewrite (u32_small (header g)) by (unfold is_u32; lia).
  destruct (reserve_blocks_at s2 i bg0 0 (header g) Hl0 Hby0 Hbl0) as (bm1 & Hr1 & Hm1);
    [lia|cbn; lia|cbn; lia|lia|intros j _; apply bit_zeros|]. change (0 =? first_free_block bg0) with true in Hr1. cbv iota in Hr1.
  set (bg1 := with_blocks bg0 bm1 _ _) in Hr1. run Hr1. change (0 <? 0) with false. cbv iota.
  erewrite (bind_Ok (mret tt)) by reflexivity.
  assert (Hs2 : forall bg, set_bg s2 i bg = set_bg (add_queued s [bitmaps_at g]) i bg) by (intros bg; apply set_bg_twice).
  assert (Hbits1 : forall j, 0 <= j -> bit bm1 j = (j <? header g)).
  { intros j Hj. rewrite (mk_bits _ _ _ _ Hm1) by done. cbn [bg0 bitmaps]. unfold bm0. rewrite bit_zeros, orb_false_r.
    rewrite (proj2 (Z.leb_le 0 j)) by done. done. }
  assert (Hlen1 : length bm1 = Z.to_nat (2 * block_size info)) by (rewrite (mk_length _ _ _ _ Hm1); apply length_replicate).
  rewrite (u32_small (group_start g + _)) by (unfold is_u32; lia). destruct (Z.ltb_spec (len_blocks aux) (group_start g + blocks_per_group info)) as [Hov|Hov].
  - set (over := group_start g + blocks_per_group info - len_blocks aux).
    assert (Hgsz : group_size g = blocks_per_group info - over) by (unfold group_size, over; lia).
    rewrite (u32_small over), (u32_small (blocks_per_group info - over)), <- Hgsz by (unfold is_u32; lia).
    destruct (reserve_blocks_at (set_bg s2 i bg1) i bg1 (group_size g) over) as (bm2 & Hr2 & Hm2).
    { by apply (set_bg_lookup s2 i bg0). }
    { apply Hm1. }
    { unfold blen. cbn. rewrite Hlen1. lia. }
    { lia. }
    { cbn. lia. }
    { cbn. lia. }
    { lia. }
    { intros j Hj. cbn. rewrite Hbits1 by lia. apply Z.ltb_ge. lia. }
    run Hr2. rewrite set_bg_twice, Hs2. eexists. split; [|reflexivity]. apply new_group_intro; try done.
    + cbn. by rewrite (mk_length _ _ _ _ Hm2).
    + apply Hm2.
    + intros j Hj. cbn. rewrite (mk_bits _ _ _ _ Hm2), Hbits1, orb_comm by lia. replace (group_size g + over) with (blocks_per_group info) by lia. done.
    + cbn. lia.
    + cbn [with_blocks first_free_block bg1]. destruct (Z.eqb_spec (group_size g) (0 + header g)); [right|left]; lia.
  - assert (Hgsz : group_size g = blocks_per_group info) by (unfold group_size; lia). rewrite Hs2. eexists. split; [|reflexivity].
    apply new_group_intro; try done.
    + apply Hm1.
    + intros j Hj. cbn. rewrite Hbits1, Hgsz by lia.
      destruct (Z.ltb_spec j (header g)), (Z.leb_spec (blocks_per_group info) j), (Z.ltb_spec j (blocks_per_group info)); try done; lia.
    + cbn. lia.
    + left. cbn. lia.
Qed.

Lemma init_bgs_ok k : forall n s, (n + k = Z.to_nat (groups aux))%nat -> length (bgs s) = Z.to_nat (groups aux) ->
  (forall i bg, (i < n)%nat -> bgs s !! i = Some bg -> new_group (Z.of_nat i) bg) ->
  exists s', init_bgs force info aux (seq n k) s = Ok tt s' /\ length (bgs s') = Z.to_nat (groups aux) /\ inodes s' = inodes s /\
    (forall i bg, bgs s' !! i = Some bg -> new_group (Z.of_nat i) bg) /\
    ext4_sparse_file s' = ext4_sparse_file s ++ ((fun i => bitmaps_at (Z.of_nat i)) <$> seq n k) /\ heap s' = heap s.
Proof.
  induction k as [|k IH]; intros n s Hnk Hlen Hold; cbn [seq init_bgs].
  { exists s. rewrite app_nil_r. split_and!; try done. intros i bg Hi. apply Hold; [|done]. apply lookup_lt_Some in Hi. lia. }
  destruct (init_bg_ok s n) as (bg & Hng & Hrun); [lia|lia|]. run Hrun. set (s1 := set_bg (add_queued s [bitmaps_at (Z.of_nat n)]) n bg).
  destruct (IH (S n) s1) as (s' & Hr & Hl & Hin & Hall & Hq & Hh); [lia|by unfold s1; cbn; rewrite length_insert| |].
  - intros i x Hi Hx. unfold s1 in Hx. cbn in Hx. destruct (decide (i = n)) as [->|Hne].
    + rewrite list_lookup_insert_eq in Hx by lia. by injection Hx as <-.
    + rewrite list_lookup_insert_ne in Hx by congruence. apply Hold; [lia|done].
  - exists s'. split_and!; try done. rewrite Hq. unfold s1. cbn. by rewrite <- app_assoc.
Qed.

(** The blocks a new filesystem starts with: the headers of the groups, and
    the numbers behind the end. *)
Definition reserved (b : Z) : Prop :=
  exists g, 0 <= g < groups aux /\ group_start g <= b < group_start g + blocks_per_group info /\
    (b < group_start g + header g \/ len_blocks aux <= b).

Lemma new_groups_ok s : length (bgs s) = Z.to_nat (groups aux) -> (forall i bg, bgs s !! i = Some bg -> new_group (Z.of_nat i) bg) ->
  fs_ok s /\ forall b, used s b <-> reserved b.
Proof.
  intros Hl Hall. pose proof (ge_bpg Hge). split; [split; [done|]; intros i bg Hi; destruct (Hall i bg Hi) as [Hok Hst _ _ _ _ _]; by split|].
  assert (Hbit : forall i bg b, bgs s !! i = Some bg -> bg_first_block bg <= b < bg_first_block bg + blocks_per_group info ->
    bit (bitmaps bg) (b - bg_first_block bg) = true <-> b < group_start (Z.of_nat i) + header (Z.of_nat i) \/ len_blocks aux <= b).
  { intros i bg b Hi Hb. destruct (Hall i bg Hi) as [_ Hst _ Hbits _ _ _]. rewrite Hst in *. rewrite Hbits by lia. unfold group_size.
    destruct (Z.ltb_spec (b - group_start (Z.of_nat i)) (header (Z.of_nat i))),
      (Z.leb_spec (blocks_per_group info `min` (len_blocks aux - group_start (Z.of_nat i))) (b - group_start (Z.of_nat i)));
      cbn; split; try done; try lia; intros; first [left; lia | right; lia]. }
  intros b. split.
  - intros (i & bg & Hi & Hb & Ht). exists (Z.of_nat i). rewrite (Hbit i bg b Hi Hb) in Ht. destruct (Hall i bg Hi) as [_ Hst _ _ _ _ _].
    rewrite Hst in Hb. apply lookup_lt_Some in Hi. split_and!; [lia..|done].
  - intros (g & Hg & Hb & Ht). destruct (Z_of_nat_complete g) as [i ->]; [lia|]. destruct (lookup_lt_is_Some_2 (bgs s) i) as [bg Hi]; [lia|].
    exists i, bg. pose proof (ng_start _ _ (Hall i bg Hi)) as Hst. split; [done|]. rewrite Hst at 1 2. split; [done|].
    apply (Hbit i bg b Hi); [by rewrite Hst|done].
Qed.

Lemma block_allocator_init_ok s :
  exists s', block_allocator_init force info aux s = Ok tt s' /\ fs_ok s' /\ (forall b, used s' b <-> reserved b) /\
    ext4_sparse_file s' = ext4_sparse_file s ++ ((fun i => bitmaps_at (Z.of_nat i)) <$> seq 0 (Z.to_nat (groups aux))) /\ heap s' = heap s /\
    inodes s' = inodes s /\ forall i bg, bgs s' !! i = Some bg -> new_group (Z.of_nat i) bg.
Proof.
  set (s0 := mk_fs (replicate (Z.to_nat (groups aux)) zero_bg) (heap s) (ext4_sparse_file s) (xattrs s) (inodes s) (bufs s)).
  unfold block_allocator_init. erewrite (bind_Ok _ _ s tt s0) by reflexivity.
  destruct (init_bgs_ok (Z.to_nat (groups aux)) 0 s0) as (s' & Hr & Hl & Hin & Hall & Hq & Hh); [lia|apply length_replicate|lia|].
  destruct (new_groups_ok s' Hl Hall) as [Hok Hu]. exists s'. by split_and!.
Qed.
End Groups.

(** ** The parameters make_ext4fs computes *)

(** Block sizes above 1024; the largest header fits a group. *)
Record parameters_ok (info : fs_info) : Prop := {
  pa_bs : 1024 < block_size info <= 2 ^ 16;
  pa_bpg : 0 < blocks_per_group info <= 8 * block_size info;
  pa_len : 0 <= i_len info /\ i_len info / block_size info + blocks_per_group info < 2 ^ 31;
  pa_reserve : 0 <= bg_desc_reserve_blocks info;
  pa_header : 2 + inode_table_blocks (ext4_create_fs_aux_info info) + super_blocks info (ext4_create_fs_aux_info info) <= blocks_per_group info
}.

(** The group count is that of the blocks, or the last group was too small for
    its header and is left out. *)
Lemma aux_info_eq info : 1024 < block_size info <= 2 ^ 16 -> 0 < blocks_per_group info <= 8 * block_size info ->
  0 <= i_len info -> i_len info / block_size info + blocks_per_group info < 2 ^ 31 ->
  let L := i_len info / block_size info in let G := DIV_ROUND_UP L (blocks_per_group info) in let m := L mod blocks_per_group info in
  exists itb D fl i1 i2 i3, 0 <= itb /\ 0 <= D /\
    let lh := if ext4_bg_has_super_block info (s32 (G - 1)) then u32 (2 + itb + 1 + D + bg_desc_reserve_blocks info) else u32 (2 + itb) in
    ext4_create_fs_aux_info info =
      if (0 <? m) && (m <? lh) then mk_aux 0 (L - m) itb (G - 1) D fl i1 i2 i3 else mk_aux 0 L itb G D fl i1 i2 i3.
Proof.
  intros Hbs Hbpg Hl0 Hl L G m. pose proof (Z.div_pos (i_len info) (block_size info) Hl0 ltac:(lia)) as HL0. fold L in Hl, HL0.
  pose proof (DIV_ROUND_UP_bounds L (blocks_per_group info) ltac:(lia)) as Hg. fold G in Hg. assert (HG : 0 <= G < 2 ^ 31) by nia.
  pose proof (Z.div_mod L (blocks_per_group info) ltac:(lia)) as Hdm. pose proof (Z.mod_pos_bound L (blocks_per_group info) ltac:(lia)) as Hmb.
  fold m in Hdm, Hmb. unfold ext4_create_fs_aux_info. rewrite (proj2 (Z.ltb_lt 1024 _)), Z.quot_div_nonneg by lia. fold L. cbv zeta.
  assert (E1 : u64 L = L) by (apply Z.mod_small; lia). rewrite E1.
  assert (E2 : u32 (u64 (u64 (L - 0) + blocks_per_group info - 1) / blocks_per_group info) = G).
  { rewrite Z.sub_0_r, E1. unfold u64. rewrite Z.mod_small by lia. fold (DIV_ROUND_UP L (blocks_per_group info)). fold G.
    apply u32_small. unfold is_u32. lia. }
  rewrite E2. fold m. rewrite (u32_small m) by (unfold is_u32, m in *; nia).
  eexists (u32 (u32 (inodes_per_group info * inode_size info) + block_size info - 1) / block_size info),
    (u32 (u64 (G * 32 + block_size info - 1) / block_size info)), _, _, _, _.
  split; [apply Z.div_pos; [apply Z.mod_pos_bound; lia|lia]|]. split; [apply Z.mod_pos_bound; lia|].
  pose proof (Z.div_pos L (blocks_per_group info) HL0 ltac:(lia)).
  destruct (Z.ltb_spec 0 m) as [Hm|Hm]; cbn [andb]; [|done]. assert (1 <= G) by nia. assert (m <= L) by nia.
  assert (E3 : u64 (L - m) = L - m) by (apply Z.mod_small; lia). by rewrite E3, (u32_small (G - 1)) by (unfold is_u32; lia).
Qed.

Lemma aux_info_layout info : parameters_ok info ->
  geometry info (ext4_create_fs_aux_info info) /\ layout info (ext4_create_fs_aux_info info).
Proof.
  intros [Hbs Hbpg [Hl0 Hl] Hre Hhd]. destruct (aux_info_eq info Hbs Hbpg Hl0 Hl) as (itb & D & fl & i1 & i2 & i3 & Hitb & HD & Heq).
  pose proof (Z.div_pos (i_len info) (block_size info) Hl0 ltac:(lia)) as HL0. set (L := i_len info / block_size info) in *.
  pose proof (DIV_ROUND_UP_bounds L (blocks_per_group info) ltac:(lia)) as Hg. set (G := DIV_ROUND_UP L (blocks_per_group info)) in *.
  pose proof (Z.div_mod L (blocks_per_group info) ltac:(lia)) as Hdm. pose proof (Z.mod_pos_bound L (blocks_per_group info) ltac:(lia)) as Hmb.
  pose proof (Z.div_pos L (blocks_per_group info) HL0 ltac:(lia)). set (m := L mod blocks_per_group info) in *. assert (m <= L) by nia. set (aux := ext4_create_fs_aux_info info) in *.
  assert (HG : 0 <= G < 2 ^ 31) by nia.
  assert (Hfields : inode_table_blocks aux = itb /\ bg_desc_blocks aux = D /\ first_data_block aux = 0) by (rewrite Heq; by destruct (_ && _)).
  destruct Hfields as (Hf1 & Hf2 & Hf3). unfold super_blocks in Hhd. rewrite Hf1, Hf2 in Hhd.
  assert (Hhead : forall g, header info aux g <= blocks_per_group info /\ header info aux g =
    if ext4_bg_has_super_block info g then 2 + itb + 1 + D + bg_desc_reserve_blocks info else 2 + itb).
  { intros g. unfold header, super_blocks. rewrite Hf1, Hf2. destruct (ext4_bg_has_super_block info g); lia. }
  assert (Hcase : (groups aux = G - 1 /\ 0 < m /\ len_blocks aux = L - m) \/
    (groups aux = G /\ len_blocks aux = L /\ (0 < m -> header info aux (G - 1) <= m))).
  { destruct (Z.ltb_spec 0 m) as [Hm|Hm]; cbn [andb] in Heq; [|right; rewrite Heq; cbn; split_and!; lia].
    assert (s32 (G - 1) = G - 1) as Hs by (apply s32_small; nia). rewrite Hs in Heq.
    assert (Hlh : (if ext4_bg_has_super_block info (G - 1) then u32 (2 + itb + 1 + D + bg_desc_reserve_blocks info) else u32 (2 + itb)) =
      header info aux (G - 1)).
    { destruct (Hhead (G - 1)) as [_ ->]. destruct (ext4_bg_has_super_block info (G - 1)); apply u32_small; unfold is_u32; lia. }
    rewrite Hlh in Heq. clear Hhead Hlh. generalize dependent (header info aux (G - 1)). intros hd Heq.
    destruct (Z.ltb_spec m hd); rewrite Heq; cbn; [left|right]; lia. }
  clearbody aux. clear Heq. assert (HLm : L - m = blocks_per_group info * (L / blocks_per_group info)) by lia.
  set (q := L / blocks_per_group info) in *. clearbody q m G L.
  assert (Hgr : 0 <= groups aux <= G) by nia.
  assert (Hend : groups aux * blocks_per_group info < 2 ^ 32) by nia.
  split; [split; rewrite ?Hf3; lia|]. split; [lia|unfold super_blocks; rewrite Hf2; lia| |].
  - destruct Hcase as [(_ & _ & ->)|(_ & -> & _)]; lia.
  - intros g Hgg. unfold group_size, group_start. rewrite Hf3. destruct (Hhead g) as [Hhg _]. apply Z.min_glb; [done|].
    assert (Hroom : forall k, g + 1 <= k -> blocks_per_group info <= blocks_per_group info * k - g * blocks_per_group info).
    { intros k Hk. pose proof (Z.mul_le_mono_nonneg_l 1 (k - g) (blocks_per_group info) ltac:(lia) ltac:(lia)). lia. }
    clear Hhead Hhd Hl Hend Hre HD Hitb HG. destruct Hcase as [(E1 & Hm & ->)|(E1 & -> & Hlast)].
    + assert (G <= q + 1) by (clear Hroom; nia). pose proof (Hroom q ltac:(lia)). lia.
    + destruct (Z.eq_dec m 0) as [E0|].
      * assert (G <= q) by (clear Hroom Hlast; nia). pose proof (Hroom q ltac:(lia)). lia.
      * assert (G <= q + 1) by (clear Hroom Hlast; nia). destruct (Z.ltb_spec g q); [pose proof (Hroom q ltac:(lia)); lia|].
        assert (g = q) as -> by lia. assert (G - 1 = q) as Hgq by lia. rewrite Hgq in Hlast. pose proof (Hlast ltac:(lia)). lia.
Qed.

(** ** Sequences of allocations *)

Lemma seg_ext h h' l : forall p prev e, (forall q, q ∈ l.*1 -> h' !! q = h !! q) -> seg h p prev l e -> seg h' p prev l e.
Proof.
  induction l as [|[q [[b n] g]] l IH]; intros p prev e He Hs; [done|]. destruct Hs as (-> & nx & Hh & Hs). split; [done|]. exists nx.
  split; [rewrite He; [done|]; by left|]. apply IH; [|done]. intros q' Hq'. apply He. by right.
Qed.

Lemma alloc_holds_framed s a l s' k : alloc_holds s a l -> framed s [] s' k -> alloc_holds s' a l.
Proof.
  intros ([Hs Hn] & H) Hf. split; [|done]. split; [|done]. eapply seg_ext; [|done]. intros q Hq.
  apply Hf; [apply not_elem_of_nil|by eapply seg_dom].
Qed.

Lemma framed_nil_trans s s1 s2 l k : framed s [] s1 l -> framed s1 [] s2 k -> framed s [] s2 k.
Proof.
  intros H1 H2 q Hq Hd. destruct (H1 q Hq Hd) as [E1 _]. destruct (H2 q Hq) as [E2 N2]; [|by rewrite E2].
  apply elem_of_dom. rewrite E1. by apply elem_of_dom.
Qed.

(** Calls of [allocate_blocks], one after the other. *)
Fixpoint allocate_all (force : bool) (aux : fs_aux_info) (lens : list Z) : fsM (list block_allocation) :=
  match lens with
  | [] => mret []
  | len :: lens =>
      a ← allocate_blocks force aux len;
      match a with
      | None => mret []
      | Some a => more ← allocate_all force aux lens; mret (a :: more)
      end
  end.

Lemma allocate_all_ok force info aux lens : geometry info aux -> forall s, fs_ok info aux s ->
  Forall (fun len => 0 < len < 2 ^ 32) lens -> foldr Z.add 0 lens <= total_free s ->
  exists al ls s', allocate_all force aux lens s = Ok al s' /\ Forall2 (alloc_holds s') al ls /\
    (blocks_len ∘ fmap snd) <$> ls = lens /\ handed info aux s (mjoin ls).*2 s' /\ same_rest s s' /\ framed s [] s' (mjoin ls).
Proof.
  intros Hge. induction lens as [|len lens IH]; intros s Hs Hpos Hsum; cbn [allocate_all foldr] in *.
  { exists [], [], s. split; [done|]. split; [constructor|]. split; [done|]. split; [by apply handed_nil|]. split; [done|]. intros q Hq _. by split. }
  apply Forall_cons_1 in Hpos as [Hlen Hpos].
  assert (Hrest0 : 0 <= foldr Z.add 0 lens) by (clear -Hpos; induction Hpos; cbn; lia).
  destruct (allocate_blocks_ok force info aux Hge s len Hs ltac:(lia) ltac:(lia)) as (a & l & s1 & Hrun & Hh & Hha & Hbl & Hr & Hf).
  destruct (IH s1 (ha_ok _ _ _ _ _ Hha) Hpos) as (al & ls & s' & Hrun' & Hall & Hlens & Hha' & Hr' & Hf').
  { rewrite (ha_total _ _ _ _ _ Hha). lia. }
  exists (a :: al), (l :: ls), s'. split; [run Hrun; by run Hrun'|]. cbn [mjoin list_join]. split_and!.
  - constructor; [by eapply alloc_holds_framed|done].
  - cbn. by rewrite Hbl, Hlens.
  - rewrite fmap_app. by eapply handed_trans.
  - by eapply same_rest_trans.
  - intros q Hq Hd. destruct (framed_nil_trans s s1 s' l (mjoin ls) Hf Hf' q Hq Hd) as [E N]. split; [done|].
    rewrite fmap_app, elem_of_app. intros [Hin|Hin]; [|done]. by destruct (Hf q Hq Hd) as [_ []].
Qed.

(** ** Reading an allocation *)

Lemma linked_size s first l : linked s first l -> (length l <= size (heap s))%nat.
Proof.
  intros [Hs Hn]. rewrite <- size_dom, <- (length_fmap fst l), <- (size_list_to_set (C := gset rloc)) by done.
  apply subseteq_size. intros q Hq. apply elem_of_list_to_set in Hq. by eapply seg_dom.
Qed.

Lemma get_block_loop_ok fuel s l : forall p prev k, seg (heap s) p prev l None -> (length l <= fuel)%nat ->
  Forall (fun '(b, n, _) => 0 <= b /\ 0 < n /\ b + n <= 2 ^ 32) l.*2 -> 0 <= k < 2 ^ 32 ->
  get_block_loop fuel p k s = Ok (default EXT4_ALLOCATE_FAILED (blocks_of l.*2 !! Z.to_nat k)) s.
Proof.
  revert fuel. induction l as [|[q [[b n] g]] l IH]; intros fuel p prev k Hs Hf Hall Hk.
  { cbn in Hs. subst p. by destruct fuel. }
  destruct Hs as (-> & nx & Hh & Hs). destruct fuel as [|fuel]; [cbn in Hf; lia|]. cbn [get_block_loop].
  run (load_ok s q _ Hh). cbn [r_len r_block r_next]. rewrite fmap_cons in Hall |- *. apply Forall_cons_1 in Hall as [Hx Hall]. cbn in Hx.
  change (blocks_of ((q, (b, n, g)).2 :: l.*2)) with (seqZ b n ++ blocks_of l.*2). destruct (Z.ltb_spec k n) as [Hlt|Hge].
  - rewrite lookup_app_l by (rewrite length_seqZ; lia). rewrite lookup_seqZ_lt by lia. rewrite Z2Nat.id by lia.
    cbn. by rewrite u32_small by (unfold is_u32; lia).
  - rewrite lookup_app_r by (rewrite length_seqZ; lia). rewrite length_seqZ, u32_small by (unfold is_u32; lia).
    replace (Z.to_nat k - Z.to_nat n)%nat with (Z.to_nat (k - n)) by lia. apply (IH fuel nx (Some q)); [done|cbn in Hf; lia|done|lia].
Qed.

Lemma get_block_ok s a l k : alloc_holds s a l -> Forall (fun '(b, n, _) => 0 <= b /\ 0 < n /\ b + n <= 2 ^ 32) l.*2 -> 0 <= k < 2 ^ 32 ->
  get_block a k s = Ok (default EXT4_ALLOCATE_FAILED (blocks_of l.*2 !! Z.to_nat k)) s.
Proof.
  intros (Hl & Hi & Hp & _) Hall Hk. unfold get_block, get_block_of. erewrite (bind_Ok get_state) by reflexivity.
  rewrite Hp, Z.add_0_r, Hi, u32_small by done. apply (get_block_loop_ok _ s l _ None); [apply Hl| |done|done].
  pose proof (linked_size s _ l Hl). lia.
Qed.

Lemma blocks_of_len l : Forall (fun '(b, n, _) => 0 <= b /\ 0 < n /\ b + n <= 2 ^ 32) l -> blen (blocks_of l) = blocks_len l.
Proof.
  induction 1 as [|[[b n] g] l Hx Hl IH]; [done|]. change (blocks_of ((b, n, g) :: l)) with (seqZ b n ++ blocks_of l).
  rewrite blen_app, IH. unfold blen. rewrite length_seqZ. change (blocks_len ((b, n, g) :: l)) with (n + blocks_len l). lia.
Qed.

Lemma in_group_bounds info aux l : geometry info aux -> Forall (in_group info aux) l -> Forall (fun '(b, n, _) => 0 <= b /\ 0 < n /\ b + n <= 2 ^ 32) l.
Proof.
  intros Hge Hl. eapply Forall_impl; [done|]. intros [[b n] g] (Hn & Hg & Hb & He). pose proof (ge_first _ _ Hge). pose proof (ge_end _ _ Hge).
  pose proof (ge_bpg _ _ Hge). nia.
Qed.

(** ** Theorems *)

(** C27. A new filesystem: with the parameters [ext4_create_fs_aux_info]
    computes, [block_allocator_init] succeeds, the groups satisfy the invariant,
    exactly the headers of the groups and the numbers behind the end of the
    filesystem are used, and the bitmaps of every group are queued at their
    place in its header. *)
Theorem block_allocator_init_layout force info s : parameters_ok info -> let aux := ext4_create_fs_aux_info info in
  exists s', block_allocator_init force info aux s = Ok tt s' /\ fs_ok info aux s' /\ (forall b, used info s' b <-> reserved info aux b) /\
    ext4_sparse_file s' = ext4_sparse_file s ++ ((fun i => bitmaps_at info aux (Z.of_nat i)) <$> seq 0 (Z.to_nat (groups aux))) /\ heap s' = heap s.
Proof.
  intros Hp aux. destruct (aux_info_layout info Hp) as [Hge Hla].
  destruct (block_allocator_init_ok force info aux Hge Hla s) as (s' & Hr & Hok & Hu & Hq & Hh & _). by exists s'.
Qed.

(** C28. No block is handed out twice: any sequence of [allocate_blocks] calls
    that the free blocks can serve succeeds, each allocation is a well-linked
    list of regions of the length asked for, every region lies in its group,
    and the blocks of all the regions are pairwise different, were free before
    and are the only ones that became used. *)
Theorem allocations_disjoint force info aux lens s : geometry info aux -> fs_ok info aux s ->
  Forall (fun len => 0 < len < 2 ^ 32) lens -> foldr Z.add 0 lens <= total_free s ->
  exists al ls s', allocate_all force aux lens s = Ok al s' /\ Forall2 (alloc_holds s') al ls /\
    (blocks_len ∘ fmap snd) <$> ls = lens /\ handed info aux s (mjoin ls).*2 s' /\ same_rest s s' /\ framed s [] s' (mjoin ls).
Proof. intros Hge Hs. by apply allocate_all_ok. Qed.

(** The strategy: a turn of the allocation takes its blocks from the
    smallest group that has enough of them, and from the largest one if none
    has. *)
Theorem best_fit_strategy force info aux s len : geometry info aux -> fs_ok info aux s -> 0 < len < 2 ^ 32 -> 0 < total_free s ->
  exists p s' b n g, ext4_allocate_best_fit_partial force aux len s = Ok (Some p) s' /\
    heap s' !! p = Some (mk_region b (Z.min len n) g None None) /\ 0 < n /\ frees s !! Z.to_nat g = Some n /\
    (len <= n -> Forall (fun m => len <= m -> n <= m) (frees s)) /\ (n < len -> Forall (fun m => m <= n) (frees s)) /\
    handed info aux s [(b, Z.min len n, g)] s'.
Proof.
  intros Hge Hs Hlen Hfree. destruct (best_fit_partial_ok force info aux Hge s len Hs Hlen Hfree) as (i & n & b & s1 & s' & Hb & Hn & Ht & Hs' & Hr).
  exists (fresh (dom (heap s))), s', b, n, (Z.of_nat i). destruct Hb as (_ & Hi & Hle & Hgt). destruct (Hi Hn) as [_ Hli].
  split; [exact Hr|]. split_and!; [by rewrite Hs'; cbn; rewrite lookup_insert_eq|done|done|done|done|].
  apply (handed_bgs info aux s _ s1); [by rewrite Hs'|]. apply handed_one; [done..|lia|done].
Qed.

(** [get_block] enumerates an allocation: block [k] of a fresh allocation
    of [len] blocks is a free block of the filesystem, different [k] give
    different blocks, and behind the end it fails. *)
Theorem allocate_blocks_get_block force info aux s len : geometry info aux -> fs_ok info aux s -> 0 < len <= total_free s -> len < 2 ^ 32 ->
  exists a s' blocks, allocate_blocks force aux len s = Ok (Some a) s' /\ blen blocks = len /\ NoDup blocks /\
    Forall (fun b => ~ used info s b /\ used info s' b) blocks /\
    forall k, 0 <= k < 2 ^ 32 -> get_block a k s' = Ok (default EXT4_ALLOCATE_FAILED (blocks !! Z.to_nat k)) s'.
Proof.
  intros Hge Hs Hlen H32. destruct (allocate_blocks_ok force info aux Hge s len Hs Hlen H32) as (a & l & s' & Hr & Hh & Hha & Hbl & _).
  exists a, s', (blocks_of l.*2). split; [done|]. split; [by rewrite <- Hbl; apply blocks_of_len, (in_group_bounds info aux), (ha_in _ _ _ _ _ Hha)|].
  split; [apply Hha|]. split.
  - apply Forall_forall. intros b Hb. split; [by apply (ha_free _ _ _ _ _ Hha)|]. apply (ha_used _ _ _ _ _ Hha). by right.
  - intros k Hk. apply get_block_ok; [done| |done]. by apply (in_group_bounds info aux), (ha_in _ _ _ _ _ Hha).
Qed.

(** Out of space: if there are not enough free blocks, [allocate_blocks]
    stops with the error (or returns null under [force]), and the blocks it had
    taken so far are not given back: nothing is free any more. *)
Theorem allocate_blocks_out_of_space force info aux s len : geometry info aux -> fs_ok info aux s -> total_free s < len < 2 ^ 32 ->
  exists s', allocate_blocks force aux len s = (if force then Ok None s' else Exit s') /\ fs_ok info aux s' /\ total_free s' = 0.
Proof.
  intros Hge Hs Hlen. destruct (best_fit_loop_fails force info aux Hge (Z.to_nat len) s len None [] Hs Hlen ltac:(lia)) as (s' & Hr & Hok).
  { split; [done|constructor]. }
  exists s'. split; [|done]. unfold allocate_blocks, ext4_allocate_best_fit, mbind, fsM_bind. change None with (last_loc None []) at 2.
  rewrite Hr. by destruct force.
Qed.

(** ** Instances *)
Module Ext4Witnesses.
(** 200 blocks in groups of 64; the last group has 8. *)
Definition info0 : fs_info := mk_info (2048 * 200) 2048 64 8 256 1 2.
Definition aux0 : fs_aux_info := ext4_create_fs_aux_info info0.
Definition fs0 : fs := mk_fs [] ∅ [] [] ∅ [].
Definition fs1 : fs := match block_allocator_init false info0 aux0 fs0 with Ok _ s => s | _ => fs0 end.

Lemma info0_ok : parameters_ok info0.
Proof. split; vm_compute; intuition congruence. Qed.

Lemma fs1_ok : fs_ok info0 aux0 fs1.
Proof.
  destruct (aux_info_layout info0 info0_ok) as [Hge Hla].
  destruct (block_allocator_init_ok false info0 aux0 Hge Hla fs0) as (s' & Hr & Hok & _). unfold fs1. by rewrite Hr.
Qed.

Lemma fs1_free : total_free fs1 = 176.
Proof. vm_compute. reflexivity. Qed.

Lemma block_allocator_init_layout_witness :
  exists s', block_allocator_init false info0 aux0 fs0 = Ok tt s' /\ fs_ok info0 aux0 s' /\ (forall b, used info0 s' b <-> reserved info0 aux0 b).
Proof.
  destruct (block_allocator_init_layout false info0 fs0 info0_ok) as (s' & Hr & Hok & Hu & _).
  exists s'. exact (conj Hr (conj Hok Hu)).
Defined.

Lemma allocations_disjoint_witness : exists al ls s', allocate_all false aux0 [70; 1; 50] fs1 = Ok al s' /\
  Forall2 (alloc_holds s') al ls /\ NoDup (blocks_of (mjoin ls).*2).
Proof.
  destruct (allocations_disjoint false info0 aux0 [70; 1; 50] fs1 (proj1 (aux_info_layout info0 info0_ok)) fs1_ok)
    as (al & ls & s' & Hr & Hh & _ & Ha & _).
  - repeat constructor; lia.
  - rewrite fs1_free. cbn. lia.
  - exists al, ls, s'. exact (conj Hr (conj Hh (ha_nodup _ _ _ _ _ Ha))).
Defined.

Lemma best_fit_strategy_witness : exists p s' b n g, ext4_allocate_best_fit_partial false aux0 50 fs1 = Ok (Some p) s' /\
  heap s' !! p = Some (mk_region b (Z.min 50 n) g None None) /\ (50 <= n -> Forall (fun m => 50 <= m -> n <= m) (frees fs1)).
Proof.
  destruct (best_fit_strategy false info0 aux0 fs1 50 (proj1 (aux_info_layout info0 info0_ok)) fs1_ok)
    as (p & s' & b & n & g & Hr & Hh & _ & _ & Hle & _).
  - lia.
  - rewrite fs1_free. lia.
  - exists p, s', b, n, g. exact (conj Hr (conj Hh Hle)).
Defined.

Lemma allocate_blocks_get_block_witness : exists a s' blocks, allocate_blocks false aux0 70 fs1 = Ok (Some a) s' /\ blen blocks = 70 /\
  NoDup blocks /\ get_block a 69 s' = Ok (default EXT4_ALLOCATE_FAILED (blocks !! 69%nat)) s'.
Proof.
  destruct (allocate_blocks_get_block false info0 aux0 fs1 70 (proj1 (aux_info_layout info0 info0_ok)) fs1_ok)
    as (a & s' & bl & Hr & Hl & Hn & _ & Hg).
  - rewrite fs1_free. lia.
  - lia.
  - exists a, s', bl. exact (conj Hr (conj Hl (conj Hn (Hg 69 ltac:(lia))))).
Defined.

Lemma allocate_blocks_out_of_space_witness : exists s', allocate_blocks true aux0 177 fs1 = Ok None s' /\ total_free s' = 0.
Proof.
  destruct (allocate_blocks_out_of_space true info0 aux0 fs1 177 (proj1 (aux_info_layout info0 info0_ok)) fs1_ok) as (s' & Hr & _ & Ht).
  - rewrite fs1_free. lia.
  - exists s'. exact (conj Hr Ht).
Defined.

(** *** Where the region lists go wrong *)

(** Two groups of one region each; the allocation spans both. *)
Definition with_alloc {A} (len : Z) (f : block_allocation -> fsM A) : fsM A :=
  a ← allocate_blocks false aux0 len; match a with Some a => f a | None => fault_with NullDeref end.

(** [advance_blocks] over the end of a region leaves the iterator behind: the
    block it should have reached is not the one that is read. *)
Lemma advance_blocks_stays :
  exists s, with_alloc 70 (fun a => '(a, _) ← advance_blocks a 61; b1 ← get_block a 0; b0 ← get_block (rewind_alloc a) 61; mret (b1, b0)) fs1 =
    Ok (131, 7) s.
Proof. eexists. vm_compute. reflexivity. Qed.

(** [reserve_oob_blocks] of exactly the first region moves the others. *)
Lemma reserve_oob_blocks_boundary :
  exists s, with_alloc 70 (fun a => '(a, r) ← reserve_oob_blocks a 61; b ← get_oob_block a 0; c ← get_block a 0; mret (r, b, c)) fs1 =
    Ok (0, 7, 131) s.
Proof. eexists. vm_compute. reflexivity. Qed.
End Ext4Witnesses.
