(* ===== verification/Ext4Extent.v ===== *)
(** * Extents of ext4 inodes (ext4_utils: extent.c, ext4_extents.h)

    An inode's blocks are described by a header and extents in [i_block], or
    by one index entry there and the extents in a block of their own.  Memory
    behind [i_block] or behind the extent block is not written: that is
    [BufferOverflow]. *)
From S2P Require Import Prelude Ext4Alloc.

Definition EXT4_EXT_MAGIC : Z := 0xf30a.
Definition EXT4_EXTENTS_FL : Z := 0x00080000.
Definition EXT4_BLOCK_BYTES : Z := 60.

(** The structures in memory; all of them have 12 bytes. *)
Definition ext4_extent_header (entries max depth generation : Z) : list byte :=
  le_split 2 EXT4_EXT_MAGIC ++ le_split 2 (u16 entries) ++ le_split 2 (u16 max) ++ le_split 2 (u16 depth) ++ le_split 4 generation.
Definition ext4_extent (block len start : Z) : list byte :=
  le_split 4 block ++ le_split 2 (u16 len) ++ le_split 2 0 ++ le_split 4 start.
Definition ext4_extent_idx (block leaf : Z) : list byte :=
  le_split 4 block ++ le_split 4 leaf ++ le_split 2 0 ++ le_split 2 0.

Section Extents.
Context (force : bool) (info : fs_info) (aux : fs_aux_info).

(** Bytes of [i_block]. *)
Definition poke_inode (inode : inode_ptr) (off : Z) (d : list byte) : fsM unit :=
  i ← read_inode inode;
  if off + blen d <=? EXT4_BLOCK_BYTES then
    write_inode inode (set_i_block i (write_at (i_block i) off d))
  else fault_with BufferOverflow.

(** [extent] points into the inode or into the extent block. *)
Definition poke_extent (data : option nat) (inode : inode_ptr) (off : Z) (d : list byte) : fsM unit :=
  match data with None => poke_inode inode off d | Some n => poke n off d end.

(** [min] of a 32-bit product and a 64-bit length, stored in 32 bits. *)
Definition region_bytes (region_len backing_len : Z) : Z := u32 (Z.min (u32 (region_len * block_size info)) backing_len).

(** The loops of [extent_create_backing] and [extent_create_backing_file]: [q]
    queues the bytes from [off] on. *)
Fixpoint backing_loop (fuel : nat) (q : Z -> Z -> Z -> queued) (alloc : block_allocation) (off backing_len : Z)
    : fsM block_allocation :=
  if backing_len =? 0 then mret alloc else
  match fuel with
  | O => fault_with OutOfFuel
  | S fuel =>
      '(region_block, region_len) ← get_region alloc;
      let len := region_bytes region_len backing_len in
      _ ← queue (q off len region_block);
      alloc ← get_next_region alloc;
      backing_loop fuel q alloc (off + len) (u64 (backing_len - len))
  end.

Definition extent_create_backing (alloc : block_allocation) (backing_len : Z) : fsM (block_allocation * nat) :=
  data ← calloc backing_len;
  s ← get_state;
  alloc ← backing_loop (S (size (heap s))) (QData (Buf data)) alloc 0 backing_len;
  mret (alloc, data).

Definition extent_create_backing_file (alloc : block_allocation) (backing_len : Z) (filename : string) : fsM block_allocation :=
  s ← get_state; backing_loop (S (size (heap s))) (QFile filename) alloc 0 backing_len.

(** The loop over the regions, from byte [off] of the target on. *)
Fixpoint extents_loop (fuel : nat) (data : option nat) (inode : inode_ptr) (alloc : block_allocation) (off file_block : Z)
    : fsM block_allocation :=
  if last_region alloc then mret alloc else
  match fuel with
  | O => fault_with OutOfFuel
  | S fuel =>
      '(region_block, region_len) ← get_region alloc;
      _ ← poke_extent data inode off (ext4_extent file_block region_len region_block);
      alloc ← get_next_region alloc;
      extents_loop fuel data inode alloc (off + 12) (u32 (file_block + region_len))
  end.

(** The headers; the result is where the extents go, [None] the null return. *)
Definition extent_headers (inode : inode_ptr) (allocation_len extent_block : Z) : fsM (option (option nat)) :=
  if extent_block =? 0 then
    _ ← poke_inode inode 0 (ext4_extent_header allocation_len 3 0 0);
    mret (Some None)
  else
    _ ← poke_inode inode 0 (ext4_extent_header 1 3 1 0);
    _ ← poke_inode inode 12 (ext4_extent_idx 0 extent_block);
    data ← calloc (block_size info);
    _ ← queue (QData (Buf data) 0 (block_size info) extent_block);
    if s32 (block_size info - 12 / 12) <? allocation_len then _ ← error force; mret None else
    _ ← poke data 0 (ext4_extent_header allocation_len ((block_size info - 12) / 12) 0 0);
    mret (Some (Some data)).

Definition set_inode_sizes (inode : inode_ptr) (len blocks : Z) : fsM unit :=
  update_inode inode (fun i =>
    set_blocks (set_size (set_flags i (Z.lor (i_flags i) EXT4_EXTENTS_FL)) (u32 len) (u32 (Z.shiftr len 32))) (u32 blocks) (u16 (Z.shiftr blocks 32))).

Definition do_inode_allocate_extents (inode : inode_ptr) (len : Z) : fsM (option block_allocation) :=
  let block_len := u32 (u64 (len + block_size info - 1) / block_size info) in
  alloc ← allocate_blocks force aux (u32 (block_len + 1));
  match alloc with
  | None => _ ← error force; mret None
  | Some alloc =>
      allocation_len ← block_allocation_num_regions alloc;
      '(alloc, extent_block) ←
        (if allocation_len <=? 3 then alloc ← reduce_allocation alloc 1; mret (alloc, 0)
         else '(alloc, _) ← reserve_oob_blocks alloc 1; b ← get_oob_block alloc 0; mret (alloc, b));
      target ← extent_headers inode allocation_len extent_block;
      match target with
      | None => mret None
      | Some data =>
          s ← get_state;
          alloc ← extents_loop (S (size (heap s))) data inode alloc 12 0;
          let block_len := if negb (extent_block =? 0) then u32 (block_len + 1) else block_len in
          _ ← set_inode_sizes inode len (u64 (block_len * block_size info) / 512);
          mret (Some (rewind_alloc alloc))
      end
  end.

(** The data buffer, if there is one. *)
Definition inode_allocate_data_extents (inode : inode_ptr) (len backing_len : Z) : fsM (option nat) :=
  alloc ← do_inode_allocate_extents inode len;
  match alloc with
  | None => _ ← error force; mret None
  | Some alloc =>
      '(alloc, data) ← (if negb (backing_len =? 0)
                        then '(alloc, d) ← extent_create_backing alloc backing_len; mret (alloc, Some d)
                        else mret (alloc, None));
      _ ← free_alloc alloc;
      mret data
  end.

Definition inode_allocate_file_extents (inode : inode_ptr) (len : Z) (filename : string) : fsM (option block_allocation) :=
  alloc ← do_inode_allocate_extents inode len;
  match alloc with
  | None => _ ← error force; mret None
  | Some alloc => alloc ← extent_create_backing_file alloc len filename; mret (Some alloc)
  end.

Definition inode_allocate_extents (inode : inode_ptr) (len : Z) : fsM unit :=
  alloc ← do_inode_allocate_extents inode len;
  match alloc with
  | None => _ ← error force; mret tt
  | Some alloc => free_alloc alloc
  end.
End Extents.
