(* ===== verification/Ext4ExtentCorrect.v ===== *)
(** * Files of an ext4 image: the extents describe the blocks the data goes to

    The specification reads an inode back: [inode_extents] follows the extent
    tree in the memory the code leaves behind.  The theorems show that the
    extents cover the file in order, with blocks that were free before, and
    that the bytes of the file are queued for exactly these blocks. *)
From S2P Require Import Prelude SparseFormat Ext4Alloc Ext4Bits Ext4AllocCorrect Ext4Extent.

(** ** Reading the extents back *)

Definition parse_entry (d : list byte) : Z * Z * Z := (field 0 4 d, field 4 2 d, field 8 4 d).

Fixpoint parse_entries (n : nat) (d : list byte) : list (Z * Z * Z) :=
  match n with O => [] | S n => parse_entry d :: parse_entries n (drop 12 d) end.

(** Depth and number of entries of a node. *)
Definition node_header (d : list byte) : option (Z * Z) :=
  if field 0 2 d =? EXT4_EXT_MAGIC then Some (field 6 2 d, field 2 2 d) else None.

Definition leaf_extents (d : list byte) : option (list (Z * Z * Z)) :=
  match node_header d with
  | Some (0, n) => Some (parse_entries (Z.to_nat n) (drop 12 d))
  | _ => None
  end.

(** The contents queued for a block. *)
Fixpoint block_buffer (bufs : list (list byte)) (q : list queued) (b : Z) : option (list byte) :=
  match q with
  | [] => None
  | QData (Buf n) 0 _ block :: q => if block =? b then bufs !! n else block_buffer bufs q b
  | _ :: q => block_buffer bufs q b
  end.

(** Logical block, length and first block of the extents of an inode. *)
Definition inode_extents (s : fs) (inode : inode_ptr) : option (list (Z * Z * Z)) :=
  let d := i_block (default zero_inode (inodes s !! inode)) in
  match node_header d with
  | Some (0, _) => leaf_extents d
  | Some (1, 1) => block_buffer (bufs s) (ext4_sparse_file s) (field 16 4 d) ≫= leaf_extents
  | _ => None
  end.

(** ** Memory *)

Lemma write_at_mid pre rest d : blen d <= blen rest -> write_at (pre ++ rest) (blen pre) d = pre ++ d ++ drop (length d) rest.
Proof.
  intros Hd. unfold write_at. rewrite blen_app. pose proof (blen_nonneg rest). rewrite zeros_nil, app_nil_r by lia.
  unfold blen in *. rewrite Nat2Z.id, take_app_length. do 2 f_equal.
  replace (Z.to_nat (Z.of_nat (length pre) + Z.of_nat (length d))) with (length pre + length d)%nat by lia. apply drop_app_add.
Qed.

(** The memory an extent pointer points into. *)
Definition target (s : fs) (data : option nat) (inode : inode_ptr) : list byte :=
  match data with
  | None => i_block (default zero_inode (inodes s !! inode))
  | Some n => default [] (bufs s !! n)
  end.

(** Nothing else has changed. *)
Record touched (data : option nat) (inode : inode_ptr) (s s' : fs) : Prop := {
  to_bgs : bgs s' = bgs s;
  to_heap : heap s' = heap s;
  to_queue : ext4_sparse_file s' = ext4_sparse_file s;
  to_bufs : length (bufs s') = length (bufs s) /\ forall n, data <> Some n -> bufs s' !! n = bufs s !! n;
  to_inodes : forall p, data <> None \/ p <> inode -> inodes s' !! p = inodes s !! p
}.

Lemma touched_refl data inode s : touched data inode s s.
Proof. by split. Qed.

Lemma touched_trans data inode s1 s2 s3 : touched data inode s1 s2 -> touched data inode s2 s3 -> touched data inode s1 s3.
Proof.
  intros [A1 B1 C1 [D1 E1] F1] [A2 B2 C2 [D2 E2] F2]. split; [congruence..|split; [congruence|]|].
  - intros n Hn. by rewrite E2, E1.
  - intros p Hp. by rewrite F2, F1.
Qed.

(** The target has room for what is written. *)
Definition target_ok (s : fs) (data : option nat) (inode : inode_ptr) : Prop :=
  match data with None => blen (target s None inode) = EXT4_BLOCK_BYTES | Some n => is_Some (bufs s !! n) end.

Lemma poke_extent_ok s data inode pre rest d : target s data inode = pre ++ rest -> blen d <= blen rest -> target_ok s data inode ->
  exists s', poke_extent data inode (blen pre) d s = Ok tt s' /\ target s' data inode = pre ++ d ++ drop (length d) rest /\
    touched data inode s s' /\ target_ok s' data inode.
Proof.
  intros Ht Hd Hok. assert (Hroom : blen pre + blen d <= blen (target s data inode)) by (rewrite Ht, blen_app; lia).
  assert (Hlen : blen (pre ++ d ++ drop (length d) rest) = blen (target s data inode)).
  { rewrite Ht, !blen_app. unfold blen in *. rewrite length_drop. lia. }
  destruct data as [n|]; cbn [poke_extent target target_ok] in *.
  - destruct Hok as [b Hb]. rewrite Hb in *. cbn in Ht, Hroom, Hlen. unfold poke. rewrite Hb. rewrite (proj2 (Z.leb_le _ _)) by lia.
    eexists. split; [done|]. cbn [bufs]. rewrite Ht, write_at_mid by done.
    rewrite list_lookup_insert_eq by (by eapply lookup_lt_Some). split; [done|]. split; [|by eexists]. split; try done; cbn.
    split; [apply length_insert|]. intros k Hk. rewrite list_lookup_insert_ne; [done|congruence].
  - unfold poke_inode. erewrite bind_Ok by reflexivity. cbv beta. rewrite (proj2 (Z.leb_le _ _)) by lia.
    eexists. split; [reflexivity|]. cbn [inodes]. rewrite lookup_insert_eq. cbn. rewrite Ht, write_at_mid by done.
    split; [done|]. split; [|congruence]. split; try done. intros p [Hp|Hp]; [done|]. cbn. by rewrite lookup_insert_ne.
Qed.

(** ** The loop over the regions *)

(** The cells from [p] to [e] by their [next] pointers. *)
Fixpoint sseg (h : gmap rloc region) (p : option rloc) (l : list (rloc * extent)) (e : option rloc) : Prop :=
  match l with
  | [] => p = e
  | (q, (b, n, g)) :: l => p = Some q /\ exists nx pv, h !! q = Some (mk_region b n g nx pv) /\ sseg h nx l e
  end.

Lemma seg_sseg h l : forall p prev e, seg h p prev l e -> sseg h p l e.
Proof.
  induction l as [|[q [[b n] g]] l IH]; intros p prev e Hs; [done|]. destruct Hs as (-> & nx & Hh & Hs). split; [done|].
  exists nx, prev. split; [done|]. by eapply IH.
Qed.

Lemma sseg_ext h h' l : forall p e, (forall q, q ∈ l.*1 -> h' !! q = h !! q) -> sseg h p l e -> sseg h' p l e.
Proof.
  induction l as [|[q [[b n] g]] l IH]; intros p e He Hs; [done|]. destruct Hs as (-> & nx & pv & Hh & Hs). split; [done|]. exists nx, pv.
  split; [rewrite He; [done|]; by left|]. apply IH; [|done]. intros q' Hq'. apply He. by right.
Qed.

Fixpoint entries (file_block : Z) (l : list extent) : list byte :=
  match l with [] => [] | (b, n, _) :: l => ext4_extent file_block n b ++ entries (file_block + n) l end.

Lemma length_ext4_extent a b c : length (ext4_extent a b c) = 12%nat.
Proof. unfold ext4_extent. by rewrite !length_app, !length_le_split. Qed.

Lemma length_entries l : forall fb, length (entries fb l) = (12 * length l)%nat.
Proof. induction l as [|[[b n] g] l IH]; intros fb; [done|]. cbn [entries]. rewrite length_app, length_ext4_extent, IH. cbn. lia. Qed.

(** Regions the 32-bit and 16-bit fields can hold. *)
Definition region_ok (x : extent) : Prop := let '(b, n, _) := x in 0 <= b < 2 ^ 32 /\ 0 < n < 2 ^ 16.

Lemma blocks_len_nonneg l : Forall region_ok l -> 0 <= blocks_len l.
Proof. unfold blocks_len. induction 1 as [|[[b n] g] l H Hl IH]; cbn in *; lia. Qed.

Lemma set_iter_set_iter a i n i' n' : set_iter (set_iter a i n) i' n' = set_iter a i' n'.
Proof. done. Qed.

Lemma extents_loop_ok data inode l : forall fuel s a fb pre rest, sseg (heap s) (rl_iter (al_list a)) l None ->
  partial_iter (al_list a) = 0 -> (length l <= fuel)%nat -> Forall region_ok l.*2 -> 0 <= fb -> fb + blocks_len l.*2 < 2 ^ 32 ->
  target s data inode = pre ++ rest -> 12 * blen l <= blen rest -> target_ok s data inode ->
  exists s', extents_loop fuel data inode a (blen pre) fb s = Ok (set_iter a None 0) s' /\
    target s' data inode = pre ++ entries fb l.*2 ++ drop (12 * length l) rest /\ touched data inode s s' /\ target_ok s' data inode.
Proof.
  induction l as [|[q [[b n] g]] l IH]; intros fuel s a fb pre rest Hs Hp Hf Hall Hfb Hsum Ht Hroom Hok.
  { cbn in Hs. exists s. assert (Ha : set_iter a None 0 = a) by (destruct a as [[f la it pa] o]; cbn in *; by subst).
    rewrite Ha. split; [destruct fuel; cbn [extents_loop]; unfold last_region; by rewrite Hs|]. split; [done|]. split; [apply touched_refl|done]. }
  destruct Hs as (Hit & nx & pv & Hh & Hs). destruct fuel as [|fuel]; [cbn in Hf; lia|]. cbn [extents_loop].
  unfold last_region. rewrite Hit. cbv beta iota. rewrite bool_decide_false by done.
  rewrite fmap_cons in Hall, Hsum. apply Forall_cons_1 in Hall as [Hx Hall]. cbn in Hx.
  change (blocks_len ((q, (b, n, g)).2 :: l.*2)) with (n + blocks_len l.*2) in Hsum.
  pose proof (blocks_len_nonneg _ Hall) as Hnn.
  assert (Hreg : get_region a s = Ok (b, n) s).
  { unfold get_region. rewrite Hit. run (load_ok s q _ Hh). cbn [r_block r_len]. rewrite Hp, Z.sub_0_r, u32_small by (unfold is_u32; lia). done. }
  run Hreg. assert (Hd : blen (ext4_extent fb n b) = 12) by (unfold blen; by rewrite length_ext4_extent).
  assert (Hroom' : 12 + 12 * blen l <= blen rest) by (unfold blen in *; cbn [length] in Hroom; lia). pose proof (blen_nonneg l).
  destruct (poke_extent_ok s data inode pre rest (ext4_extent fb n b) Ht) as (s1 & Hpk & Ht1 & Hto1 & Hok1); [lia|done|]. run Hpk.
  assert (Hnext : get_next_region a s1 = Ok (set_iter a nx 0) s1).
  { unfold get_next_region. rewrite Hit. assert (Hh1 : heap s1 !! q = Some (mk_region b n g nx pv)) by (by rewrite (to_heap _ _ _ _ Hto1)).
    by run (load_ok s1 q _ Hh1). }
  run Hnext. rewrite u32_small by (unfold is_u32; lia). rewrite length_ext4_extent in Ht1.
  replace (blen pre + 12) with (blen (pre ++ ext4_extent fb n b)) by (rewrite blen_app; lia).
  destruct (IH fuel s1 (set_iter a nx 0) (fb + n) (pre ++ ext4_extent fb n b) (drop 12 rest)) as (s' & Hr & Ht' & Hto' & Hok').
  - rewrite (to_heap _ _ _ _ Hto1). exact Hs.
  - done.
  - cbn in Hf. lia.
  - done.
  - lia.
  - lia.
  - by rewrite <- app_assoc.
  - unfold blen in *. rewrite length_drop. lia.
  - done.
  - exists s'. rewrite set_iter_set_iter in Hr. split; [exact Hr|]. split; [|split; [by eapply touched_trans|done]].
    rewrite Ht', fmap_cons. cbn [entries fst snd]. rewrite <- !app_assoc, drop_drop. do 4 f_equal. cbn. lia.
Qed.

(** ** The written tree is read back *)

(** Logical block, length and block of the regions from [fb] on. *)
Fixpoint extent_list (fb : Z) (l : list extent) : list (Z * Z * Z) :=
  match l with [] => [] | (b, n, _) :: l => (fb, n, b) :: extent_list (fb + n) l end.

Lemma parse_ext4_extent fb n b rest : 0 <= fb < 2 ^ 32 -> 0 < n < 2 ^ 16 -> 0 <= b < 2 ^ 32 ->
  parse_entry (ext4_extent fb n b ++ rest) = (fb, n, b).
Proof.
  intros Hf Hn Hb. unfold parse_entry, ext4_extent. rewrite <- !app_assoc. unfold u16. rewrite (Z.mod_small n) by lia.
  f_equal; [f_equal|]; walk; (apply le_combine_split_u32 || apply le_combine_split_u16); unfold is_u16, is_u32; lia.
Qed.

Lemma parse_entries_ok l : forall fb rest, Forall region_ok l -> 0 <= fb -> fb + blocks_len l < 2 ^ 32 ->
  parse_entries (length l) (entries fb l ++ rest) = extent_list fb l.
Proof.
  induction l as [|[[b n] g] l IH]; intros fb rest Hall Hf Hs; [done|]. apply Forall_cons_1 in Hall as [[Hb Hn] Hall].
  change (blocks_len ((b, n, g) :: l)) with (n + blocks_len l) in Hs.
  pose proof (blocks_len_nonneg _ Hall) as Hnn.
  cbn [length parse_entries entries extent_list]. rewrite <- app_assoc, parse_ext4_extent by lia. f_equal.
  rewrite <- (length_ext4_extent fb n b), drop_app_length. apply IH; [done|lia|lia].
Qed.

Lemma length_header e m d g : length (ext4_extent_header e m d g) = 12%nat.
Proof. unfold ext4_extent_header. by rewrite !length_app, !length_le_split. Qed.

Lemma node_header_ok e m d g rest : 0 <= e < 2 ^ 16 -> 0 <= d < 2 ^ 16 -> node_header (ext4_extent_header e m d g ++ rest) = Some (d, e).
Proof.
  intros He Hd. unfold node_header, ext4_extent_header, u16. rewrite (Z.mod_small e), (Z.mod_small d), <- !app_assoc by lia.
  assert (field 0 2 (le_split 2 EXT4_EXT_MAGIC ++ le_split 2 e ++ le_split 2 (m mod 2 ^ 16) ++ le_split 2 d ++ le_split 4 g ++ rest) = EXT4_EXT_MAGIC) as ->
    by (walk; apply le_combine_split_u16; by split).
  rewrite Z.eqb_refl. f_equal. f_equal; walk; apply le_combine_split_u16; unfold is_u16; lia.
Qed.

Lemma leaf_extents_ok m g l rest : Forall region_ok l -> blocks_len l < 2 ^ 32 -> blen l < 2 ^ 16 ->
  leaf_extents (ext4_extent_header (blen l) m 0 g ++ entries 0 l ++ rest) = Some (extent_list 0 l).
Proof.
  intros Hall Hs Hl. unfold leaf_extents. pose proof (blen_nonneg l). rewrite node_header_ok by lia.
  rewrite <- (length_header (blen l) m 0 g) at 1. rewrite drop_app_length. unfold blen. rewrite Nat2Z.id. by rewrite parse_entries_ok by (done || lia).
Qed.

(** The blocks of the extents, in the order of the file. *)
Definition extent_blocks (es : list (Z * Z * Z)) : list Z := es ≫= fun '(_, n, b) => seqZ b n.

Lemma extent_blocks_list l : forall fb, extent_blocks (extent_list fb l) = blocks_of l.
Proof.
  induction l as [|[[b n] g] l IH]; intros fb; [done|].
  change (extent_blocks (extent_list fb ((b, n, g) :: l))) with (seqZ b n ++ extent_blocks (extent_list (fb + n) l)).
  change (blocks_of ((b, n, g) :: l)) with (seqZ b n ++ blocks_of l). by rewrite IH.
Qed.

(** ** Giving a block back *)

Lemma bind_get_state {A} (k : fs -> fsM A) s : (x ← get_state; k x) s = k s s.
Proof. done. Qed.

Section Reduce.
Context (info : fs_info) (aux : fs_aux_info) (Hge : geometry info aux).

(** The last block of a region that ends its group's used blocks. *)
Lemma free_blocks_ok s b n g : fs_ok info aux s -> in_group info aux (b, n, g) -> ends_at s (b, n, g) ->
  exists s', free_blocks g 1 s = Ok tt s' /\ fs_ok info aux s' /\ heap s' = heap s /\ same_rest s s' /\
    total_free s' = total_free s + 1 /\ keeps info s s' /\ forall x, used info s' x <-> used info s x /\ x <> b + n - 1.
Proof.
  intros Hs (Hn & Hg & Hb & Hbe) (bg & Hi & Hend). destruct (Z_of_nat_complete g) as [i ->]; [lia|]. rewrite Nat2Z.id in Hi.
  destruct (fo_bg _ _ s Hs i bg Hi) as [Hbg Hfb]. pose proof Hbg as [Hl Hby (limit & Hff & Hlim & Hfree & Hbits)].
  pose proof (bg_ok_len info aux Hge bg Hbg) as Hbl. pose proof (ge_bs _ _ Hge). pose proof (ge_bpg _ _ Hge) as Hbpg.
  set (ff := first_free_block bg) in *. assert (Hff1 : 1 <= ff) by lia.
  destruct (clear_blocks_ok 1 (bitmaps bg) (ff - 1) Hby) as (bm & Hcl & [Cl Cb Cbits]); [lia..|].
  replace (ff - 1 + 1 - Z.of_nat 1) with (ff - 1) in Cbits by lia. replace (ff - 1 + 1) with ff in Cbits by lia.
  set (bg' := with_blocks bg bm (bg_free_blocks bg + 1) (ff - 1)). exists (set_bg s i bg').
  assert (Hbg' : bg_ok info bg').
  { split; cbn; [congruence|done|]. exists limit. split_and!; [lia..|]. intros j Hj. rewrite Cbits, Hbits by lia.
    destruct (Z.leb_spec (ff - 1) j), (Z.ltb_spec j ff), (Z.ltb_spec j (ff - 1)), (Z.leb_spec limit j); try done; lia. }
  assert (Hother : forall k x, bgs (set_bg s i bg') !! k = Some x -> (k = i /\ x = bg') \/ (k <> i /\ bgs s !! k = Some x))
    by (intros k x; by apply (lookup_set_bg s i bg)).
  split_and!; try done.
  - unfold free_blocks. run (get_bg_ok s i bg Hi). fold ff.
    assert (Hlift : lift (clear_blocks (Z.to_nat 1) (bitmaps bg) (u32 (ff - 1))) s = Ok bm s) by (unfold lift; change (Z.to_nat 1) with 1%nat; by rewrite Hcl).
    run Hlift. rewrite put_bg_ok. by rewrite !u32_small by (unfold is_u32; lia).
  - split; [cbn; rewrite length_insert; apply Hs|]. intros k x Hk. destruct (Hother k x Hk) as [[-> ->]|[_ Hx]]; [by split|by apply Hs].
  - clear -Hi. unfold total_free, frees. cbn [set_bg bgs]. unfold bg'. revert i Hi.
    induction (bgs s) as [|x l IH]; intros [|i] Hi; cbn in Hi; try discriminate.
    + injection Hi as ->. cbn. lia.
    + change (<[S i := with_blocks bg bm (bg_free_blocks bg + 1) (ff - 1)]> (x :: l)) with (x :: <[i := with_blocks bg bm (bg_free_blocks bg + 1) (ff - 1)]> l).
      rewrite !fmap_cons. cbn [foldr]. rewrite (IH i Hi). lia.
  - apply (keeps_set_bg info s i bg); [done|]. split; try done. intros j Hj. cbn. rewrite Cbits by lia.
    destruct (Z.leb_spec (ff - 1) j), (Z.ltb_spec j ff); try done; lia.
  - intros x. split.
    + intros (k & y & Hk & Hx & Hbit). destruct (Hother k y Hk) as [[-> ->]|[Hne Hy]].
      * cbn in Hx, Hbit. rewrite Cbits in Hbit by lia. apply andb_true_iff in Hbit as [Hr Hbit]. split; [by exists i, bg|].
        intros ->. revert Hr. replace (b + n - 1 - bg_first_block bg) with (ff - 1) by lia.
        rewrite (proj2 (Z.leb_le _ _)), (proj2 (Z.ltb_lt _ _)) by lia. done.
      * split; [by exists k, y|]. intros ->. destruct (fo_bg _ _ s Hs k y Hy) as [_ Hky]. assert (k = i); [|done]. nia.
    + intros [(k & y & Hk & Hx & Hbit) Hne]. destruct (decide (k = i)) as [->|Hki].
      * rewrite Hi in Hk. injection Hk as <-. exists i, bg'. split; [by apply (set_bg_lookup s i bg)|]. split; [done|].
        cbn. rewrite Cbits, Hbit, andb_true_r by lia.
        destruct (Z.leb_spec (ff - 1) (x - bg_first_block bg)), (Z.ltb_spec (x - bg_first_block bg) ff); try done. lia.
      * exists k, y. split; [|done]. cbn. by rewrite list_lookup_insert_ne.
Qed.

Definition slinked (s : fs) (first : option rloc) (l : list (rloc * extent)) : Prop :=
  sseg (heap s) first l None /\ NoDup l.*1.

Lemma sseg_dom h l : forall p e q, sseg h p l e -> q ∈ l.*1 -> q ∈ dom h.
Proof.
  induction l as [|[q' [[b n] g]] l IH]; intros p e q Hs Hq; [by apply not_elem_of_nil in Hq|].
  destruct Hs as (-> & nx & pv & Hh & Hs). rewrite fmap_cons in Hq. apply elem_of_cons in Hq as [->|Hq]; [by eapply elem_of_dom_2|by eapply IH].
Qed.

Lemma slinked_size s first l : slinked s first l -> (length l <= size (heap s))%nat.
Proof.
  intros [Hs Hn]. rewrite <- size_dom, <- (length_fmap fst l), <- (size_list_to_set (C := gset rloc)) by done.
  apply subseteq_size. intros q Hq. apply elem_of_list_to_set in Hq. by eapply sseg_dom.
Qed.

(** [reduce_allocation] by one block takes it from the first region: that is
    where [last] points. *)
Lemma reduce_allocation_ok s a p b m g l : fs_ok info aux s -> alloc_holds s a ((p, (b, m, g)) :: l) ->
  rl_last (al_list a) = rl_first (al_list a) -> 1 < m < 2 ^ 32 -> in_group info aux (b, m, g) -> ends_at s (b, m, g) ->
  exists s', reduce_allocation a 1 s = Ok a s' /\ fs_ok info aux s' /\ slinked s' (rl_first (al_list a)) ((p, (b, m - 1, g)) :: l) /\
    same_rest s s' /\ total_free s' = total_free s + 1 /\ keeps info s s' /\ (forall x, used info s' x <-> used info s x /\ x <> b + m - 1).
Proof.
  intros Hs ([Hseg Hnd] & _) Hlast Hm Hin Hend. pose proof Hseg as (Hfirst & nx & Hh & Hrest).
  destruct (free_blocks_ok s b m g Hs Hin Hend) as (s1 & Hf & Hok & Hheap & Hsr & Htf & Hke & Hu).
  set (r := mk_region b m g nx None) in *. assert (Hh1 : heap s1 !! p = Some r) by (by rewrite Hheap).
  exists (with_heap s1 (<[p := with_len r (m - 1)]> (heap s1))). split.
  - unfold reduce_allocation. erewrite (bind_Ok get_state) by reflexivity. cbn [reduce_loop]. change (1 =? 0) with false. cbv iota.
    rewrite Hlast, Hfirst. run (load_ok s p r Hh). change (r_len r) with m. change (r_bg r) with g. rewrite (proj2 (Z.ltb_lt 1 m)) by lia.
    run Hf. rewrite (u32_small (m - 1)) by (unfold is_u32; lia). run (store_ok s1 p r (with_len r (m - 1)) Hh1).
    by destruct (size (heap s)).
  - split_and!; try done.
    + by apply (fs_ok_bgs info aux s1).
    + split; [|done]. split; [done|]. exists nx, None. cbn. rewrite lookup_insert_eq. split; [done|].
      eapply sseg_ext; [|by eapply seg_sseg]. intros q Hq. rewrite fmap_cons in Hnd. apply NoDup_cons in Hnd as [Hp _].
      cbn. rewrite lookup_insert_ne by (intros ->; done). by rewrite Hheap.
Qed.

Lemma split_search_first s fuel p r len : heap s !! p = Some r -> len < r_len r -> split_search (S fuel) (Some p) len s = Ok (Some p, len) s.
Proof. intros Hh Hlt. cbn [split_search]. run (load_ok s p r Hh). by rewrite (proj2 (Z.leb_gt _ _)). Qed.

Lemma do_split_nothing s a p r : rl_iter (al_list a) = Some p -> heap s !! p = Some r -> 0 < r_len r ->
  do_split_allocation a 0 s = Ok (a, Some p) s.
Proof.
  intros Hi Hh Hr. unfold do_split_allocation. rewrite Hi. erewrite (bind_Ok get_state) by reflexivity.
  by run (split_search_first s (size (heap s)) p r 0 Hh Hr).
Qed.

Lemma do_split_inside s a p r n : rl_iter (al_list a) = Some p -> heap s !! p = Some r -> 0 < n < r_len r ->
  0 <= r_block r -> r_block r + r_len r <= 2 ^ 32 -> let q := fresh (dom (heap s)) in
  do_split_allocation a n s = Ok (set_iter a (Some q) (partial_iter (al_list a)), Some p)
    (with_heap s (<[p := with_len (with_next r (Some q)) n]>
      (<[q := mk_region (r_block r + n) (r_len r - n) (r_bg r) (r_next r) (Some p)]> (heap s)))).
Proof.
  intros Hi Hh Hn Hb Hbe q. unfold do_split_allocation. rewrite Hi. erewrite (bind_Ok get_state) by reflexivity.
  run (split_search_first s (size (heap s)) p r n Hh ltac:(lia)). rewrite (proj2 (Z.ltb_lt 0 n)) by lia. run (load_ok s p r Hh).
  erewrite (bind_Ok (new_region _)) by reflexivity. fold q. rewrite !u32_small by (unfold is_u32; lia).
  set (s1 := with_heap s _). assert (Hp1 : heap s1 !! p = Some r).
  { cbn. rewrite lookup_insert_ne; [done|]. intros Heq. apply (is_fresh (dom (heap s))). fold q. rewrite Heq. by eapply elem_of_dom_2. }
  by run (store_ok s1 p r (with_len (with_next r (Some q)) n) Hp1).
Qed.

(** Moving the region [p], which [q] follows, to an empty list. *)
Lemma move_first s p rp q rq : heap s !! p = Some rp -> heap s !! q = Some rq -> p <> q -> r_next rp = Some q -> r_prev rp = None ->
  move_oob (S (size (heap s))) (mk_alloc (mk_rl (Some p) (Some p) (Some q) 0) (mk_rl None None None 0)) (Some p) s =
    Ok (mk_alloc (mk_rl (Some q) None (Some q) 0) (mk_rl (Some p) (Some p) (Some p) 0))
      (with_heap s (<[p := with_prev (with_next rp None) None]> (<[q := with_prev rq None]> (heap s)))).
Proof.
  intros Hp Hq Hne Hnx Hpv. cbn [move_oob al_list rl_iter]. rewrite bool_decide_false by congruence. run (load_ok s p rp Hp).
  unfold region_list_remove at 1. erewrite bind_Ok.
  2: { run (load_ok s p rp Hp). rewrite Hpv, Hnx. cbv iota. erewrite (bind_Ok (mret tt)) by reflexivity. erewrite bind_Ok.
       2: { run (load_ok s q rq Hq). exact (store_ok s q rq (with_prev rq None) Hq). }
       cbv beta zeta. set (s1 := with_heap s (<[q := with_prev rq None]> (heap s))).
       assert (Hp1 : heap s1 !! p = Some rp) by (cbn; by rewrite lookup_insert_ne).
       run (load_ok s1 p rp Hp1). run (store_ok s1 p rp (with_prev (with_next rp None) None) Hp1). reflexivity. }
  cbv beta. cbn [with_heap bgs heap ext4_sparse_file xattrs inodes bufs rl_first rl_last rl_iter partial_iter oob_list].
  rewrite !bool_decide_true by done. set (h2 := <[p := _]> _). set (s2 := with_heap s h2). change (mk_fs (bgs s) h2 (ext4_sparse_file s) (xattrs s) (inodes s) (bufs s)) with s2.
  set (rp' := with_prev (with_next rp None) None) in *. assert (Hp2 : heap s2 !! p = Some rp') by (apply lookup_insert_eq).
  assert (Hid : with_heap s2 (<[p := rp']> (heap s2)) = s2) by (unfold with_heap, s2, h2; cbn; by rewrite insert_insert_eq).
  unfold region_list_append at 1. cbn [rl_first]. erewrite bind_Ok.
  2: { run (load_ok s2 p rp' Hp2). run (store_ok s2 p rp' rp' Hp2). rewrite Hid. run (load_ok s2 p rp' Hp2).
       run (store_ok s2 p rp' rp' Hp2). rewrite Hid. reflexivity. }
  cbv beta. rewrite Hnx. destruct (size (heap s)); cbn [move_oob al_list rl_iter]; by rewrite bool_decide_true.
Qed.

(** [reserve_oob_blocks] of one block cuts it off the first region. *)
Lemma reserve_oob_blocks_ok s a p b m g l : alloc_holds s a ((p, (b, m, g)) :: l) -> rl_last (al_list a) = rl_first (al_list a) ->
  1 < m -> 0 <= b /\ b + m <= 2 ^ 32 ->
  exists q a' s', reserve_oob_blocks a 1 s = Ok (a', 0) s' /\ bgs s' = bgs s /\ same_rest s s' /\
    rl_first (al_list a') = Some q /\ rl_iter (al_list a') = Some q /\ partial_iter (al_list a') = 0 /\
    slinked s' (Some q) ((q, (b + 1, m - 1, g)) :: l) /\ get_oob_block a' 0 s' = Ok b s' /\
    sseg (heap s') (rl_first (oob_list a')) [(p, (b, 1, g))] None /\ p <> q /\ p ∉ l.*1.
Proof.
  intros ([Hseg Hnd] & Hiter & Hpart & Hoob) Hlast Hm Hb. pose proof Hseg as (Hfirst & nx & Hh & Hrest).
  set (r := mk_region b m g nx None) in *. set (q := fresh (dom (heap s))).
  assert (Hq : q ∉ dom (heap s)) by apply is_fresh. assert (Hpq : p <> q) by (intros Heq; apply Hq; rewrite <- Heq; by eapply elem_of_dom_2).
  assert (Ha : a = mk_alloc (mk_rl (Some p) (Some p) (Some p) 0) (mk_rl None None None 0)).
  { destruct a as [[f la it pa] oob]. cbn in *. by subst. }
  set (rq := mk_region (b + 1) (m - 1) g nx (Some p)). set (rp := with_len (with_next r (Some q)) 1).
  set (s2 := with_heap s (<[p := rp]> (<[q := rq]> (heap s)))).
  assert (Hp2 : heap s2 !! p = Some rp) by apply lookup_insert_eq.
  assert (Hq2 : heap s2 !! q = Some rq) by (cbn; by rewrite lookup_insert_ne, lookup_insert_eq).
  set (h3 := <[p := with_prev (with_next rp None) None]> (<[q := with_prev rq None]> (heap s2))).
  set (a3 := mk_alloc (mk_rl (Some q) None (Some q) 0) (mk_rl (Some p) (Some p) (Some p) 0)).
  assert (Hh3p : h3 !! p = Some (mk_region b 1 g None None)) by apply lookup_insert_eq.
  assert (Hpl : p ∉ l.*1) by (rewrite fmap_cons in Hnd; by apply NoDup_cons in Hnd as [? _]).
  exists q, a3, (with_heap s2 h3). split_and!; try done.
  - unfold reserve_oob_blocks, split_allocation. change (u32 1) with 1. erewrite bind_Ok.
    2: { rewrite Hpart. run (do_split_nothing s a p r ltac:(by rewrite Ha) Hh ltac:(cbn; lia)).
         run (do_split_inside s a p r 1 ltac:(by rewrite Ha) Hh ltac:(cbn; lia) ltac:(cbn; lia) ltac:(cbn; lia)). reflexivity. }
    cbv beta iota. rewrite Ha. change (with_heap s _) with s2. erewrite (bind_Ok get_state) by reflexivity.
    change (set_iter _ _ 0) with (mk_alloc (mk_rl (Some p) (Some p) (Some q) 0) (mk_rl None None None 0)).
    by run (move_first s2 p rp q rq Hp2 Hq2 Hpq eq_refl eq_refl).
  - split.
    + split; [done|]. exists nx, None. cbn. unfold h3. rewrite lookup_insert_ne, lookup_insert_eq by done. split; [done|].
      eapply sseg_ext; [|by eapply seg_sseg]. intros x Hx. rewrite fmap_cons in Hnd. apply NoDup_cons in Hnd as [Hpn _].
      assert (x <> p) by (intros ->; done). assert (x <> q) by (intros ->; apply Hq; by eapply seg_dom).
      cbn. by rewrite !lookup_insert_ne by congruence.
    + rewrite fmap_cons in Hnd |- *. apply NoDup_cons in Hnd as [_ Hnd]. apply NoDup_cons. split; [|done]. cbn. intros Hin.
      apply Hq. by eapply seg_dom.
  - unfold get_oob_block, get_block_of. erewrite (bind_Ok get_state) by reflexivity. cbn [oob_list a3 rl_iter partial_iter].
    change (u32 (0 + 0)) with 0. cbn [get_block_loop]. run (load_ok (with_heap s2 h3) p _ Hh3p). cbn [r_len r_block].
    change (0 <? 1) with true. cbv iota. by rewrite Z.add_0_r, u32_small by (unfold is_u32; lia).
  - split; [done|]. by exists None, None.
Qed.
End Reduce.

(** ** Headers and counts *)

Lemma walk_count s l : forall fuel i p, sseg (heap s) p l None -> (length l <= fuel)%nat -> 0 <= i -> i + blen l < 2 ^ 32 ->
  walk_loop (fun i _ => u32 (i + 1)) fuel i p s = Ok (i + blen l) s.
Proof.
  induction l as [|[q [[b n] g]] l IH]; intros fuel i p Hs Hf Hi Hlt.
  { cbn in Hs. subst p. unfold blen. cbn. rewrite Z.add_0_r. by destruct fuel. }
  destruct Hs as (-> & nx & pv & Hh & Hs). destruct fuel as [|fuel]; [cbn in Hf; lia|]. cbn [walk_loop]. run (load_ok s q _ Hh).
  assert (Hbl : blen ((q, (b, n, g)) :: l) = 1 + blen l) by (unfold blen; cbn [length]; lia). rewrite Hbl in *. pose proof (blen_nonneg l).
  rewrite u32_small by (unfold is_u32; lia). cbn [r_next]. rewrite IH; [f_equal; lia|done|cbn in Hf; lia|lia|lia].
Qed.

Lemma num_regions_ok s a l : slinked s (rl_first (al_list a)) l -> blen l < 2 ^ 31 ->
  block_allocation_num_regions a s = Ok (blen l) s.
Proof.
  intros Hl Hlt. pose proof (blen_nonneg l). unfold block_allocation_num_regions, walk. erewrite bind_Ok.
  2: { erewrite (bind_Ok get_state) by reflexivity. apply (walk_count s l); [apply Hl|pose proof (slinked_size _ _ _ Hl); lia|lia|lia]. }
  cbv beta. by rewrite Z.add_0_l, s32_small by lia.
Qed.

Section Headers.
Context (force : bool) (info : fs_info).

Lemma headers_inline s inode n : target_ok s None inode ->
  exists s', extent_headers force info inode n 0 s = Ok (Some None) s' /\ touched None inode s s' /\ target_ok s' None inode /\
    exists rest, target s' None inode = ext4_extent_header n 3 0 0 ++ rest /\ blen rest = 48.
Proof.
  intros Hok. assert (Hlen : blen (ext4_extent_header n 3 0 0) = 12) by (unfold blen; by rewrite length_header).
  destruct (poke_extent_ok s None inode [] (target s None inode) (ext4_extent_header n 3 0 0) eq_refl) as (s' & Hp & Ht & Hto & Hok').
  { unfold target_ok, EXT4_BLOCK_BYTES in Hok. lia. }
  { done. }
  exists s'. split; [unfold extent_headers; rewrite Z.eqb_refl; by run Hp|]. split; [done|]. split; [done|].
  eexists. split; [exact Ht|]. unfold target_ok, EXT4_BLOCK_BYTES, blen in *. rewrite length_drop, length_header. lia.
Qed.

Lemma headers_leaf s inode n eb : target_ok s None inode -> eb <> 0 -> 1024 <= block_size info <= 2 ^ 16 -> 0 <= n <= block_size info - 1 ->
  let k := length (bufs s) in
  exists s' d, extent_headers force info inode n eb s = Ok (Some (Some k)) s' /\ bgs s' = bgs s /\ heap s' = heap s /\
    ext4_sparse_file s' = ext4_sparse_file s ++ [QData (Buf k) 0 (block_size info) eb] /\
    i_block (default zero_inode (inodes s' !! inode)) = ext4_extent_header 1 3 1 0 ++ ext4_extent_idx 0 eb ++ d /\
    bufs s' !! k = Some (ext4_extent_header n ((block_size info - 12) / 12) 0 0 ++ zeros (block_size info - 12)) /\
    length (bufs s') = S k /\ (forall n, (n < k)%nat -> bufs s' !! n = bufs s !! n) /\ (forall p, p <> inode -> inodes s' !! p = inodes s !! p) /\
    blen (i_block (default zero_inode (inodes s' !! inode))) = EXT4_BLOCK_BYTES.
Proof.
  intros Hok Heb Hbs Hn k. set (h1 := ext4_extent_header 1 3 1 0). set (idx := ext4_extent_idx 0 eb).
  assert (Hh1 : blen h1 = 12) by (unfold blen, h1; by rewrite length_header).
  assert (Hidx : blen idx = 12) by (unfold blen, idx, ext4_extent_idx; by rewrite !length_app, !length_le_split).
  unfold target_ok, EXT4_BLOCK_BYTES in Hok.
  destruct (poke_extent_ok s None inode [] (target s None inode) h1 eq_refl) as (s1 & Hp1 & Ht1 & [B1 H1 Q1 [U1 V1] F1] & Hok1); [lia|done|].
  cbn [app] in Ht1. set (d1 := drop (length h1) (target s None inode)) in *.
  assert (Hd1 : blen d1 = 48) by (unfold d1, blen in *; rewrite length_drop; lia).
  destruct (poke_extent_ok s1 None inode h1 d1 idx Ht1) as (s2 & Hp2 & Ht2 & [B2 H2 Q2 [U2 V2] F2] & Hok2); [lia|done|].
  rewrite Hh1 in Hp2. set (hd := ext4_extent_header n ((block_size info - 12) / 12) 0 0).
  assert (Hhd : blen hd = 12) by (unfold blen, hd; by rewrite length_header).
  assert (Hk : length (bufs s2) = k) by (unfold k; by rewrite U2, U1).
  set (s3 := mk_fs (bgs s2) (heap s2) (ext4_sparse_file s2) (xattrs s2) (inodes s2) (bufs s2 ++ [zeros (block_size info)])).
  set (s4 := mk_fs (bgs s2) (heap s2) (ext4_sparse_file s2 ++ [QData (Buf k) 0 (block_size info) eb]) (xattrs s2) (inodes s2) (bufs s3)).
  assert (Hb4 : bufs s4 !! k = Some (zeros (block_size info))) by (cbn; rewrite <- Hk; apply list_lookup_middle; done).
  destruct (poke_extent_ok s4 (Some k) inode [] (zeros (block_size info)) hd) as (s5 & Hp5 & Ht5 & [B5 H5 Q5 [U5 V5] F5] & Hok5).
  { cbn [target app]. by rewrite Hb4. }
  { rewrite blen_zeros by lia. lia. }
  { by eexists. }
  exists s5. eexists. split; [|split_and!].
  - unfold extent_headers. rewrite (proj2 (Z.eqb_neq eb 0)) by done. run Hp1. run Hp2.
    assert (Hc : calloc (block_size info) s2 = Ok k s3) by (unfold calloc; by rewrite Hk). run Hc.
    erewrite (bind_Ok (queue _) _ s3 tt s4) by reflexivity. change (12 / 12) with 1.
    rewrite s32_small by lia. rewrite (proj2 (Z.ltb_ge _ _)) by lia. run Hp5. done.
  - rewrite B5. cbn. congruence.
  - rewrite H5. cbn. congruence.
  - rewrite Q5. cbn. by rewrite Q2, Q1.
  - rewrite F5 by (by left). cbn. exact Ht2.
  - destruct Hok5 as [b Hb]. cbn in Ht5. rewrite Hb in Ht5 |- *. cbn in Ht5. rewrite Ht5. unfold hd at 2, zeros. rewrite length_header, drop_replicate.
    do 3 f_equal. lia.
  - rewrite U5. cbn. rewrite length_app, Hk. cbn. lia.
  - intros x Hx. rewrite V5 by (intros [=]; lia). cbn. rewrite lookup_app_l by lia. by rewrite V2, V1.
  - intros x Hx. rewrite F5 by (by left). cbn. by rewrite F2, F1 by (by right).
  - rewrite F5 by (by left). exact Hok2.
Qed.
End Headers.

(** ** A file's extents *)

Definition queued_block (q : queued) : Z := match q with QData _ _ _ b => b | QFile _ _ _ b => b end.

Lemma block_buffer_last bufs q k n b : Forall (fun e => queued_block e <> b) q -> block_buffer bufs (q ++ [QData (Buf k) 0 n b]) b = bufs !! k.
Proof.
  induction 1 as [|e q He Hq IH]; cbn [app block_buffer]; [by rewrite Z.eqb_refl|].
  destruct e as [[g|g|m] [|o|o] len block|f off len block]; cbn in He; try exact IH. by rewrite (proj2 (Z.eqb_neq _ _)).
Qed.

Lemma field_idx eb m rest : 0 <= eb < 2 ^ 32 -> field 16 4 (ext4_extent_header 1 3 1 0 ++ ext4_extent_idx m eb ++ rest) = eb.
Proof.
  intros Heb. rewrite (field_past 16 4 12 (ext4_extent_header 1 3 1 0)) by (done || lia). cbn [Nat.sub]. unfold ext4_extent_idx.
  rewrite <- !app_assoc. walk. by apply le_combine_split_u32.
Qed.

(** ** Backing *)

#[export] Instance buffer_eq_dec : EqDecision buffer.
Proof. solve_decision. Defined.

(** The source, the offset there, the length and the block of a queued piece. *)
Definition piece (q : queued) : (buffer + string) * Z * Z * Z :=
  match q with QData p off len b => (inl p, off, len, b) | QFile f off len b => (inr f, off, len, b) end.

(** The byte of the image that gets byte [k] of [src]. *)
Fixpoint place (bs : Z) (src : buffer + string) (qs : list queued) (k : Z) : option Z :=
  match qs with
  | [] => None
  | q :: qs => let '(p, off, len, b) := piece q in
      if bool_decide (p = src) && (off <=? k) && (k <? off + len) then Some (b * bs + (k - off)) else place bs src qs k
  end.

Section Backing.
Context (info : fs_info) (q : Z -> Z -> Z -> queued) (src : buffer + string) (Hq : forall off len b, piece (q off len b) = (src, off, len, b)).
Abbreviation bs := (block_size info).
Context (Hbs : 0 < bs <= 2 ^ 16).

Fixpoint pieces (l : list extent) (off rem : Z) : list queued :=
  match l with
  | [] => []
  | (b, n, _) :: l => if rem =? 0 then [] else let len := Z.min (n * bs) rem in q off len b :: pieces l (off + len) (rem - len)
  end.

Lemma pieces_place l : forall off rem k, Forall region_ok l -> rem <= blocks_len l * bs -> off <= k < off + rem ->
  exists b, blocks_of l !! Z.to_nat ((k - off) / bs) = Some b /\ place bs src (pieces l off rem) k = Some (b * bs + (k - off) mod bs).
Proof.
  induction l as [|[[b n] g] l IH]; intros off rem k Hl Hrem Hk; [cbn in Hrem; lia|].
  apply Forall_cons_1 in Hl as [[_ Hn] Hl]. change (rem <= (n + blocks_len l) * bs) in Hrem. change (blocks_of ((b, n, g) :: l)) with (seqZ b n ++ blocks_of l).
  cbn [pieces]. rewrite (proj2 (Z.eqb_neq rem 0)) by lia. cbv zeta. cbn [place]. rewrite Hq, bool_decide_true, (proj2 (Z.leb_le _ _)) by (done || lia).
  cbn [andb]. pose proof (Z.div_mod (k - off) bs ltac:(lia)) as Hdm. pose proof (Z.mod_pos_bound (k - off) bs ltac:(lia)) as Hmod.
  destruct (Z.ltb_spec k (off + Z.min (n * bs) rem)) as [Hlt|Hge].
  - exists (b + (k - off) / bs). split; [|f_equal; lia]. assert (0 <= (k - off) / bs) by (apply Z.div_pos; lia).
    assert ((k - off) / bs < n) by (apply Z.div_lt_upper_bound; lia). rewrite lookup_app_l by (rewrite length_seqZ; lia).
    apply lookup_seqZ. lia.
  - rewrite Z.min_l in * by lia. destruct (IH (off + n * bs) (rem - n * bs) k Hl) as (b' & Hb' & Hp); [lia|lia|].
    replace (k - (off + n * bs)) with ((k - off) + (- n) * bs) in Hb', Hp by lia. rewrite Z_div_plus_full in Hb' by lia. rewrite Z_mod_plus_full in Hp by lia.
    exists b'. split; [|done]. assert (n <= (k - off) / bs) by (apply Z.div_le_lower_bound; lia).
    rewrite lookup_app_r, length_seqZ by (rewrite length_seqZ; lia). rewrite <- Hb'. f_equal. lia.
Qed.

Lemma pieces_blocks l : forall off rem e, Forall region_ok l -> e ∈ pieces l off rem -> queued_block e ∈ blocks_of l.
Proof.
  induction l as [|[[b n] g] l IH]; intros off rem e Hl He; [by apply not_elem_of_nil in He|]. apply Forall_cons_1 in Hl as [[_ Hn] Hl].
  change (blocks_of ((b, n, g) :: l)) with (seqZ b n ++ blocks_of l). cbn [pieces] in He.
  destruct (rem =? 0); [by apply not_elem_of_nil in He|]. apply elem_of_app. apply elem_of_cons in He as [->|He].
  - left. assert (queued_block (q off (Z.min (n * bs) rem) b) = b) as ->; [|apply elem_of_seqZ; lia].
    pose proof (Hq off (Z.min (n * bs) rem) b) as Hp. destruct (q off _ b); cbn in *; congruence.
  - right. by eapply IH.
Qed.

Definition with_queue (s : fs) (qs : list queued) : fs := mk_fs (bgs s) (heap s) (ext4_sparse_file s ++ qs) (xattrs s) (inodes s) (bufs s).

Lemma backing_loop_ok l : forall fuel s a off rem, sseg (heap s) (rl_iter (al_list a)) l None -> partial_iter (al_list a) = 0 -> (length l <= fuel)%nat ->
  Forall region_ok l.*2 -> 0 <= rem < 2 ^ 63 -> rem <= blocks_len l.*2 * bs ->
  exists it, backing_loop info fuel q a off rem s = Ok (set_iter a it 0) (with_queue s (pieces l.*2 off rem)).
Proof.
  assert (Hnil : forall s, with_queue s [] = s) by (intros []; unfold with_queue; cbn; by rewrite app_nil_r).
  assert (Hset : forall a, partial_iter (al_list a) = 0 -> set_iter a (rl_iter (al_list a)) 0 = a) by (intros [[f la it pa] o]; cbn; by intros ->).
  induction l as [|[p [[b n] g]] l IH]; intros fuel s a off rem Hs Hp Hf Hall Hrem Hle.
  { cbn in Hle. assert (rem = 0) as -> by lia. exists (rl_iter (al_list a)). rewrite Hset by done. cbn. rewrite Hnil. by destruct fuel. }
  rewrite fmap_cons in *. cbn [snd] in *. apply Forall_cons_1 in Hall as [[Hb Hn] Hall]. change (rem <= (n + blocks_len l.*2) * bs) in Hle.
  destruct (decide (rem = 0)) as [->|Hne].
  { exists (rl_iter (al_list a)). rewrite Hset by done. cbn. rewrite Hnil. by destruct fuel. }
  destruct fuel as [|fuel]; [cbn in Hf; lia|]. destruct Hs as (Hit & nx & pv & Hh & Hs). cbn [backing_loop pieces].
  rewrite (proj2 (Z.eqb_neq rem 0)) by done. cbv zeta. set (len := Z.min (n * bs) rem).
  assert (Hreg : get_region a s = Ok (b, n) s).
  { unfold get_region. rewrite Hit. run (load_ok s p _ Hh). cbn [r_block r_len]. by rewrite Hp, Z.sub_0_r, u32_small by (unfold is_u32; lia). }
  run Hreg. assert (Hlen : region_bytes info n rem = len).
  { unfold region_bytes. rewrite (u32_small (n * bs)) by (unfold is_u32; nia). fold len. apply u32_small. unfold is_u32, len. nia. }
  rewrite Hlen. set (s1 := with_queue s [q off len b]). erewrite (bind_Ok (queue _) _ s tt s1) by reflexivity. cbv beta.
  assert (Hnext : get_next_region a s1 = Ok (set_iter a nx 0) s1) by (unfold get_next_region; rewrite Hit; by run (load_ok s1 p _ Hh)).
  run Hnext. rewrite u64_small by (unfold len; nia).
  assert (0 <= blocks_len l.*2 * bs) by (pose proof (blocks_len_nonneg _ Hall); nia). assert (0 <= n * bs) by nia.
  destruct (IH fuel s1 (set_iter a nx 0) (off + len) (rem - len)) as (it & Hr); [done|done|cbn in Hf; lia|done|unfold len; lia|unfold len; lia|].
  exists it. rewrite Hr. unfold with_queue, s1. cbn. by rewrite <- app_assoc.
Qed.
End Backing.

Lemma place_skip bs src qs k qs' : (forall e, e ∈ qs -> (piece e).1.1.1 <> src) -> place bs src (qs ++ qs') k = place bs src qs' k.
Proof.
  induction qs as [|e qs IH]; intros Hne; [done|]. pose proof (Hne e ltac:(by left)) as He. cbn [app place].
  destruct (piece e) as [[[p off] len] b]. cbn in He. rewrite bool_decide_false by done. apply IH. intros x Hx. apply Hne. by right.
Qed.

(** What was written stays readable when more is queued. *)
Lemma block_buffer_mono bufs bufs' q r b d : (forall n d, bufs !! n = Some d -> bufs' !! n = Some d) ->
  block_buffer bufs q b = Some d -> block_buffer bufs' (q ++ r) b = Some d.
Proof.
  intros Hb. induction q as [|e q IH]; [done|]. cbn [app block_buffer]. destruct e as [[g|g|m] [|o|o] len block|f off len block]; try exact IH.
  destruct (block =? b); [apply Hb|exact IH].
Qed.

Lemma inode_extents_mono s s' r p es : inodes s' !! p = inodes s !! p -> (forall n d, bufs s !! n = Some d -> bufs s' !! n = Some d) ->
  ext4_sparse_file s' = ext4_sparse_file s ++ r -> inode_extents s p = Some es -> inode_extents s' p = Some es.
Proof.
  intros Hi Hb Hq. unfold inode_extents. rewrite Hi, Hq. destruct (node_header _) as [[[|[d|d|]|] n]|]; try done.
  destruct n as [|[n|n|]|]; try done. intros H. apply bind_Some in H as (d & Hd & He). apply bind_Some. exists d. split; [|done].
  by apply (block_buffer_mono (bufs s)).
Qed.

Abbreviation body s p := (i_block (default zero_inode (inodes s !! p))).

(** The extents of an inode that need one buffer at most: later states keep
    them that keep the inode, what is queued and the contents of this buffer. *)
Definition extents_by (k : option nat) (s : fs) (p : inode_ptr) (es : list (Z * Z * Z)) : Prop :=
  forall s' r, body s' p = body s p -> ext4_sparse_file s' = ext4_sparse_file s ++ r ->
    (forall n d, k = Some n -> bufs s !! n = Some d -> bufs s' !! n = Some d) -> inode_extents s' p = Some es.

Lemma extents_by_trans k s s1 r p es : extents_by k s p es -> body s1 p = body s p -> ext4_sparse_file s1 = ext4_sparse_file s ++ r ->
  (forall n d, k = Some n -> bufs s !! n = Some d -> bufs s1 !! n = Some d) -> extents_by k s1 p es.
Proof.
  intros He Hi Hq Hb s' r' Hi' Hq' Hb'. apply (He s' (r ++ r')); [congruence|by rewrite Hq', Hq, app_assoc|]. intros n d Hn Hd. by apply (Hb' n), (Hb n).
Qed.

Lemma extents_by_now k s p es : extents_by k s p es -> inode_extents s p = Some es.
Proof. intros He. apply (He s []); [done|by rewrite app_nil_r|done]. Qed.

(** Extents by the inode alone, and by a leaf block. *)
Lemma extents_by_inline s p n es : node_header (i_block (default zero_inode (inodes s !! p))) = Some (0, n) -> inode_extents s p = Some es -> extents_by None s p es.
Proof. unfold inode_extents. intros Hn He s' r Hi Hq _. unfold inode_extents. by rewrite Hi, Hn in *. Qed.

Lemma extents_by_leaf s p q k n b es : let d := i_block (default zero_inode (inodes s !! p)) in
  node_header d = Some (1, 1) -> field 16 4 d = b -> ext4_sparse_file s = q ++ [QData (Buf k) 0 n b] -> Forall (fun e => queued_block e <> b) q ->
  inode_extents s p = Some es -> extents_by (Some k) s p es.
Proof.
  cbv zeta. unfold inode_extents. intros Hn Hf Hq Hne He s' r Hi Hq' Hb. unfold inode_extents. rewrite Hi, Hn, Hf in *. rewrite Hq in *.
  rewrite block_buffer_last in He by done. apply bind_Some in He as (d & Hd & He). rewrite Hq'.
  assert (Hbb : block_buffer (bufs s') (q ++ [QData (Buf k) 0 n b]) b = Some d) by (rewrite block_buffer_last by done; by apply Hb).
  rewrite (block_buffer_mono (bufs s') _ _ _ _ d) by done. exact He.
Qed.

Section File.
Context (force : bool) (info : fs_info) (aux : fs_aux_info) (Hge : geometry info aux).

(** What the code expects: 16-bit extent lengths, an extent block that holds
    an entry per group, free blocks for the file and one more, and a group with
    two of them; block 0 is not free; what is queued is used. *)
Record room (s : fs) (inode : inode_ptr) (len : Z) : Prop := {
  ro_ok : fs_ok info aux s;
  ro_bs : 1024 <= block_size info;
  ro_bpg : blocks_per_group info < 2 ^ 16;
  ro_groups : groups aux <= (block_size info - 12) / 12;
  ro_len : 0 < len < 2 ^ 63;
  ro_free : DIV_ROUND_UP len (block_size info) + 1 <= total_free s;
  ro_blocks : DIV_ROUND_UP len (block_size info) + 1 < 2 ^ 31;
  ro_two : exists n, n ∈ frees s /\ 2 <= n;
  ro_inode : target_ok s None inode;
  ro_zero : first_data_block aux = 0 -> used info s 0;
  ro_queue : Forall (fun q => used info s (queued_block q)) (ext4_sparse_file s)
}.

(** An allocation whose iterator stands at its first region. *)
Definition at_start (a : block_allocation) : Prop := rl_iter (al_list a) = rl_first (al_list a) /\ partial_iter (al_list a) = 0.

Lemma rewind_at_start a : at_start a -> rewind_alloc (set_iter a None 0) = a.
Proof. destruct a as [[f la it pa] o]. intros [Hi Hp]. cbn in *. by subst. Qed.

(** What the code leaves: the regions [l] of the allocation [a] are the extents
    of the inode, [q] was queued on the way; exactly the blocks of [l] and of
    [q] were taken, and all of them were free. *)
Record described (s : fs) (inode : inode_ptr) (len : Z) (a : block_allocation) (l : list (rloc * extent)) (q : list queued) (s' : fs) : Prop := {
  de_ok : fs_ok info aux s';
  de_extents : exists k, extents_by k s' inode (extent_list 0 l.*2) /\ forall n, k = Some n -> (length (bufs s) <= n < length (bufs s'))%nat;
  de_len : blocks_len l.*2 = DIV_ROUND_UP len (block_size info);
  de_regions : Forall region_ok l.*2;
  de_nodup : NoDup (blocks_of l.*2 ++ (queued_block <$> q));
  de_free : forall x, x ∈ blocks_of l.*2 ++ (queued_block <$> q) -> ~ used info s x;
  de_used : forall x, used info s' x <-> used info s x \/ x ∈ blocks_of l.*2 ++ (queued_block <$> q);
  de_total : total_free s - (DIV_ROUND_UP len (block_size info) + 1) <= total_free s';
  de_keeps : keeps info s s';
  de_linked : slinked s' (rl_iter (al_list a)) l;
  de_start : at_start a;
  de_oob : exists lo, sseg (heap s') (rl_first (oob_list a)) lo None /\ NoDup (l.*1 ++ lo.*1);
  de_queue : ext4_sparse_file s' = ext4_sparse_file s ++ q;
  de_own : forall e, e ∈ q -> exists k, (piece e).1.1.1 = inl (Buf k) /\ (k < length (bufs s'))%nat;
  de_bufs : forall n d, bufs s !! n = Some d -> bufs s' !! n = Some d;
  de_others : forall p, p <> inode -> inodes s' !! p = inodes s !! p;
  de_body : blen (i_block (default zero_inode (inodes s' !! inode))) = EXT4_BLOCK_BYTES;
  de_size : i_size_lo (default zero_inode (inodes s' !! inode)) + 2 ^ 32 * i_size_high (default zero_inode (inodes s' !! inode)) = len
}.

Lemma in_group_region x : blocks_per_group info < 2 ^ 16 -> in_group info aux x -> region_ok x.
Proof.
  destruct x as [[b n] g]. intros Hb (Hn & Hg & Hlo & Hhi). pose proof (ge_first _ _ Hge). pose proof (ge_end _ _ Hge). pose proof (ge_bpg _ _ Hge).
  split; nia.
Qed.

Lemma distinct_groups l : Forall (in_group info aux) l -> NoDup l.*2 -> blen l <= groups aux.
Proof.
  intros Hin Hnd. pose proof (ge_groups _ _ Hge). assert (Hsub : l.*2 ⊆+ seqZ 0 (groups aux)).
  { apply NoDup_submseteq; [done|]. intros g Hg. apply list_elem_of_fmap in Hg as ([[b n] g'] & -> & Hx). rewrite Forall_forall in Hin.
    destruct (Hin _ Hx) as (_ & Hg' & _). apply elem_of_seqZ. cbn. lia. }
  apply submseteq_length in Hsub. rewrite length_fmap, length_seqZ in Hsub. unfold blen. lia.
Qed.

Lemma set_inode_sizes_ok s inode len blocks : 0 <= len < 2 ^ 63 ->
  exists s', set_inode_sizes inode len blocks s = Ok tt s' /\ bgs s' = bgs s /\ heap s' = heap s /\ ext4_sparse_file s' = ext4_sparse_file s /\
    bufs s' = bufs s /\ i_block (default zero_inode (inodes s' !! inode)) = i_block (default zero_inode (inodes s !! inode)) /\
    i_size_lo (default zero_inode (inodes s' !! inode)) + 2 ^ 32 * i_size_high (default zero_inode (inodes s' !! inode)) = len /\
    forall p, p <> inode -> inodes s' !! p = inodes s !! p.
Proof.
  intros Hlen. unfold set_inode_sizes, update_inode. erewrite bind_Ok by reflexivity. eexists. split; [reflexivity|]. cbn [bgs heap ext4_sparse_file bufs inodes].
  rewrite lookup_insert_eq. cbn. split_and!; try done; [|intros p Hp; by rewrite lookup_insert_ne]. unfold u32. rewrite Z.shiftr_div_pow2 by lia.
  rewrite (Z.mod_small (len / 2 ^ 32)) by (split; [apply Z.div_pos; lia|apply Z.div_lt_upper_bound; lia]).
  pose proof (Z.div_mod len (2 ^ 32)). lia.
Qed.

(** The part of [do_inode_allocate_extents] after the blocks are found. *)
Definition describe (inode : inode_ptr) (len n extent_block block_len : Z) (a : block_allocation) : fsM (option block_allocation) :=
  target ← extent_headers force info inode n extent_block;
  match target with
  | None => mret None
  | Some data =>
      s ← get_state;
      a ← extents_loop (S (size (heap s))) data inode a 12 0;
      let block_len := if negb (extent_block =? 0) then u32 (block_len + 1) else block_len in
      _ ← set_inode_sizes inode len (u64 (block_len * block_size info) / 512);
      mret (Some (rewind_alloc a))
  end.

(** What is left behind, but for the blocks. *)
Record wrote (s : fs) (inode : inode_ptr) (len : Z) (l : list extent) (q : list queued) (s' : fs) : Prop := {
  wr_bgs : bgs s' = bgs s;
  wr_heap : heap s' = heap s;
  wr_queue : ext4_sparse_file s' = ext4_sparse_file s ++ q;
  wr_extents : exists k, extents_by k s' inode (extent_list 0 l) /\ forall n, k = Some n -> (length (bufs s) <= n < length (bufs s'))%nat;
  wr_own : forall e, e ∈ q -> exists k, (piece e).1.1.1 = inl (Buf k) /\ (k < length (bufs s'))%nat;
  wr_bufs : forall n d, bufs s !! n = Some d -> bufs s' !! n = Some d;
  wr_others : forall p, p <> inode -> inodes s' !! p = inodes s !! p;
  wr_body : blen (i_block (default zero_inode (inodes s' !! inode))) = EXT4_BLOCK_BYTES;
  wr_size : i_size_lo (default zero_inode (inodes s' !! inode)) + 2 ^ 32 * i_size_high (default zero_inode (inodes s' !! inode)) = len
}.

Lemma describe_inline s inode len bl a l : slinked s (rl_iter (al_list a)) l -> at_start a -> Forall region_ok l.*2 -> blocks_len l.*2 < 2 ^ 32 ->
  blen l <= 3 -> target_ok s None inode -> 0 <= len < 2 ^ 63 ->
  exists s', describe inode len (blen l) 0 bl a s = Ok (Some a) s' /\ wrote s inode len l.*2 [] s'.
Proof.
  intros Hl Ha Hreg Hsum Hn Hok Hlen. unfold describe.
  destruct (headers_inline force info s inode (blen l) Hok) as (s1 & Hh & [B1 H1 Q1 [_ V1] F1] & Hok1 & rest & Ht & Hrest). run Hh.
  erewrite (bind_Ok get_state) by reflexivity. pose proof (slinked_size _ _ _ Hl). destruct Hl as [Hs _]. rewrite <- H1 in Hs.
  destruct (extents_loop_ok None inode l (S (size (heap s1))) s1 a 0 (ext4_extent_header (blen l) 3 0 0) rest Hs (proj2 Ha)) as (s2 & Hr & Ht2 & [B2 H2 Q2 [_ V2] F2] & Hok2);
    [rewrite H1; lia|done|lia|lia|exact Ht|lia|done|].
  assert (Hhd : blen (ext4_extent_header (blen l) 3 0 0) = 12) by (unfold blen at 1; by rewrite length_header). rewrite Hhd in Hr. run Hr. change (negb (0 =? 0)) with false. cbv iota.
  destruct (set_inode_sizes_ok s2 inode len (u64 (bl * block_size info) / 512) Hlen) as (s3 & Hw & B3 & H3 & Q3 & U3 & I3 & Z3 & F3). run Hw.
  exists s3. split; [by rewrite rewind_at_start|]. split; [congruence|congruence|by rewrite Q3, Q2, Q1, app_nil_r| |by intros e He%not_elem_of_nil| | |by rewrite I3|done].
  2: { intros n d Hd. by rewrite U3, V2, V1. }
  2: { intros x Hx. by rewrite F3, F2, F1 by (done || by right). }
  cbn [target] in Ht2. pose proof (blen_nonneg l). exists None. split; [|done]. apply (extents_by_inline _ _ (blen l)).
  { rewrite I3, Ht2. apply node_header_ok; lia. }
  unfold inode_extents. rewrite I3, Ht2. rewrite node_header_ok by lia.
  assert (Hbl : blen l = blen l.*2) by (unfold blen; by rewrite length_fmap). rewrite Hbl. apply leaf_extents_ok; [done|done|lia].
Qed.

Lemma describe_leaf s inode len bl eb a l : slinked s (rl_iter (al_list a)) l -> at_start a -> Forall region_ok l.*2 -> blocks_len l.*2 < 2 ^ 32 ->
  1024 <= block_size info <= 2 ^ 16 -> blen l <= (block_size info - 12) / 12 -> eb <> 0 -> 0 <= eb < 2 ^ 32 ->
  Forall (fun e => queued_block e <> eb) (ext4_sparse_file s) -> target_ok s None inode -> 0 <= len < 2 ^ 63 ->
  exists s' k, describe inode len (blen l) eb bl a s = Ok (Some a) s' /\ wrote s inode len l.*2 [QData (Buf k) 0 (block_size info) eb] s'.
Proof.
  intros Hl Ha Hreg Hsum Hbs Hn Heb Heb32 Hq Hok Hlen. unfold describe. pose proof (blen_nonneg l) as Hnn.
  assert (Hdiv : 12 * ((block_size info - 12) / 12) <= block_size info - 12) by (apply Z.mul_div_le; lia).
  destruct (headers_leaf force info s inode (blen l) eb Hok Heb Hbs ltac:(lia)) as (s1 & d & Hh & B1 & H1 & Q1 & I1 & U1 & L1 & V1 & F1 & Y1). set (k := length (bufs s)) in *. run Hh.
  erewrite (bind_Ok get_state) by reflexivity. pose proof (slinked_size _ _ _ Hl). destruct Hl as [Hs _]. rewrite <- H1 in Hs.
  set (hd := ext4_extent_header (blen l) ((block_size info - 12) / 12) 0 0) in *.
  assert (Ht1 : target s1 (Some k) inode = hd ++ zeros (block_size info - 12)) by (cbn; by rewrite U1).
  destruct (extents_loop_ok (Some k) inode l (S (size (heap s1))) s1 a 0 hd (zeros (block_size info - 12)) Hs (proj2 Ha)) as (s2 & Hr & Ht2 & [B2 H2 Q2 [L2 V2] F2] & Hok2);
    [rewrite H1; lia|done|lia|lia|exact Ht1|rewrite blen_zeros by lia; lia|by eexists|].
  assert (Hhd : blen hd = 12) by (unfold blen, hd; by rewrite length_header). rewrite Hhd in Hr. run Hr.
  rewrite (proj2 (Z.eqb_neq eb 0)) by done. cbn [negb].
  destruct (set_inode_sizes_ok s2 inode len (u64 (u32 (bl + 1) * block_size info) / 512) Hlen) as (s3 & Hw & B3 & H3 & Q3 & U3 & I3 & Z3 & F3). run Hw.
  assert (Hq3 : ext4_sparse_file s3 = ext4_sparse_file s ++ [QData (Buf k) 0 (block_size info) eb]) by congruence.
  exists s3, k. split; [by rewrite rewind_at_start|]. split; [congruence|congruence|done| | | | |by rewrite I3, F2 by (by left)|done].
  2: { intros e He. apply list_elem_of_singleton in He as ->. exists k. split; [done|]. rewrite U3, L2, L1. lia. }
  2: { intros n0 d0 Hd0. assert (n0 < k)%nat by (by eapply lookup_lt_Some). rewrite U3, V2, V1 by (lia || intros [=]; lia). done. }
  2: { intros x Hx. by rewrite F3, F2, F1 by (done || by left). }
  exists (Some k). split; [|intros n [= <-]; rewrite U3, L2, L1; lia].
  apply (extents_by_leaf s3 inode (ext4_sparse_file s) k (block_size info) eb); [rewrite I3, F2, I1 by (by left); apply node_header_ok; lia|
    rewrite I3, F2, I1 by (by left); apply field_idx; lia|done|done|].
  unfold inode_extents. rewrite I3, F2, I1 by (by left). rewrite node_header_ok by lia. rewrite field_idx by lia.
  rewrite Hq3, block_buffer_last, U3 by done. destruct Hok2 as [b Hb]. cbn in Ht2. rewrite Hb in Ht2 |- *. cbn in Ht2 |- *. rewrite Ht2. unfold hd.
  assert (Hbl : blen l = blen l.*2) by (unfold blen; by rewrite length_fmap). rewrite Hbl. apply leaf_extents_ok; [done|done|].
  rewrite <- Hbl. lia.
Qed.

Lemma used_bgs s s' x : bgs s' = bgs s -> used info s' x <-> used info s x.
Proof. unfold used. by intros ->. Qed.

Lemma inode_blocks len : 0 < len < 2 ^ 63 -> 1024 <= block_size info <= 2 ^ 16 -> DIV_ROUND_UP len (block_size info) + 1 < 2 ^ 31 ->
  u32 (u64 (len + block_size info - 1) / block_size info) = DIV_ROUND_UP len (block_size info).
Proof.
  intros Hl Hbs Hd. assert (0 < DIV_ROUND_UP len (block_size info)) by (apply DIV_ROUND_UP_pos; lia).
  rewrite u64_small by lia. change ((len + block_size info - 1) / block_size info) with (DIV_ROUND_UP len (block_size info)).
  apply u32_small. unfold is_u32. lia.
Qed.

(** The two ways to dispose of the extra block of an allocation. *)
Lemma do_inode_inline s0 s inode len a p b m g l : room s0 inode len -> alloc_holds s a ((p, (b, m, g)) :: l) ->
  rl_last (al_list a) = rl_first (al_list a) -> handed info aux s0 ((p, (b, m, g)) :: l).*2 s -> same_rest s0 s -> 1 < m ->
  blocks_len ((p, (b, m, g)) :: l).*2 = DIV_ROUND_UP len (block_size info) + 1 -> ends_at s (b, m, g) -> (length l <= 2)%nat ->
  exists s1 s' l', reduce_allocation a 1 s = Ok a s1 /\ length l' = S (length l) /\
    describe inode len (blen l') 0 (DIV_ROUND_UP len (block_size info)) a s1 = Ok (Some a) s' /\ described s0 inode len a l' [] s'.
Proof.
  intros Hro Hal Hlast Hha (SQ & _ & SI & SB) Hm Hlen Hend Hl. rewrite fmap_cons in Hha, Hlen. cbn [snd] in Hha, Hlen.
  destruct Hha as [Hok Hin Hnd Hfree Hused Htot Hke]. pose proof (Forall_cons_1 _ _ _ Hin) as [Hig Hin'].
  pose proof (in_group_region _ (ro_bpg _ _ _ Hro) Hig) as [Hb Hmb].
  destruct (reduce_allocation_ok info aux Hge s a p b m g l Hok Hal Hlast ltac:(lia) Hig Hend) as (s1 & Hr & Hok1 & Hl1 & (Q1 & _ & I1 & U1) & Htf1 & Hke1 & Hu1).
  set (l' := (p, (b, m - 1, g)) :: l) in *. destruct Hal as (_ & Hit & Hpa & Hoo). rewrite <- Hit in Hl1.
  assert (Hlen' : blocks_len l'.*2 = DIV_ROUND_UP len (block_size info)).
  { unfold l'. rewrite fmap_cons. cbn [snd]. change (m + blocks_len l.*2 = DIV_ROUND_UP len (block_size info) + 1) in Hlen.
    change (m - 1 + blocks_len l.*2 = DIV_ROUND_UP len (block_size info)). lia. }
  assert (Hreg : Forall region_ok l'.*2).
  { constructor; [split; lia|]. eapply Forall_impl; [exact Hin'|]. intros x. apply in_group_region, (ro_bpg _ _ _ Hro). }
  pose proof (ro_blocks _ _ _ Hro). pose proof (ro_len _ _ _ Hro).
  destruct (describe_inline s1 inode len (DIV_ROUND_UP len (block_size info)) a l') as (s' & Hd & [WB WH WQ WE WO WU WI WY WS]); try done; [lia|cbn; unfold blen; cbn; lia| |lia|].
  { pose proof (ro_inode _ _ _ Hro) as Ht. unfold target_ok, target in *. by rewrite I1, SI. }
  assert (Hblocks : blocks_of ((b, m, g) :: l.*2) ≡ₚ (b + m - 1) :: blocks_of l'.*2).
  { unfold l'. rewrite fmap_cons. change (seqZ b m ++ blocks_of l.*2 ≡ₚ (b + m - 1) :: seqZ b (m - 1) ++ blocks_of l.*2).
    replace m with ((m - 1) + 1) at 1 by lia. rewrite seqZ_app by lia. change (seqZ (b + (m - 1)) 1) with [b + (m - 1)].
    rewrite Z.add_sub_assoc. rewrite <- app_assoc. symmetry. apply Permutation_middle. }
  rewrite Hblocks in Hnd. apply NoDup_cons in Hnd as [Hni Hnd].
  exists s1, s', l'. split_and!; [done|done|exact Hd|]. split; try done; rewrite ?app_nil_r; try done.
  - by apply (fs_ok_bgs info aux s1).
  - by rewrite <- SB, <- U1.
  - intros x Hx. apply Hfree. rewrite Hblocks. by right.
  - intros x. rewrite (used_bgs s1 s' x WB), Hu1, Hused, Hblocks, elem_of_cons. split; [tauto|]. intros [Hx|Hx].
    + split; [by left|]. intros ->. apply (Hfree (b + m - 1)); [|done]. rewrite Hblocks. by left.
    + split; [by right; right|]. by intros ->.
  - unfold total_free, frees in *. rewrite WB, Htf1, Htot, Hlen. lia.
  - transitivity s; [done|]. transitivity s1; [done|]. unfold keeps. by rewrite WB.
  - destruct Hl1 as [Hs Hn]. split; [|done]. by rewrite WH.
  - exists []. rewrite Hoo, app_nil_r. split; [done|apply Hl1].
  - rewrite WQ, app_nil_r. congruence.
  - intros n d Hn. apply WU. by rewrite U1, SB.
  - intros x Hx. by rewrite WI, I1, SI.
Qed.

Lemma do_inode_leaf s0 s inode len a p b m g l : room s0 inode len -> alloc_holds s a ((p, (b, m, g)) :: l) ->
  rl_last (al_list a) = rl_first (al_list a) -> handed info aux s0 ((p, (b, m, g)) :: l).*2 s -> same_rest s0 s -> 1 < m ->
  blocks_len ((p, (b, m, g)) :: l).*2 = DIV_ROUND_UP len (block_size info) + 1 -> NoDup ((p, (b, m, g)) :: l).*2.*2 ->
  exists s1 s' a' l' q, reserve_oob_blocks a 1 s = Ok (a', 0) s1 /\ get_oob_block a' 0 s1 = Ok b s1 /\ b <> 0 /\ length l' = S (length l) /\
    describe inode len (blen l') b (DIV_ROUND_UP len (block_size info)) a' s1 = Ok (Some a') s' /\ described s0 inode len a' l' q s'.
Proof.
  intros Hro Hal Hlast Hha (SQ & _ & SI & SB) Hm Hlen Hng. rewrite fmap_cons in Hha, Hlen, Hng. cbn [snd] in Hha, Hlen, Hng.
  destruct Hha as [Hok Hin Hnd Hfree Hused Htot Hke]. pose proof (Forall_cons_1 _ _ _ Hin) as [Hig Hin'].
  pose proof (distinct_groups _ Hin Hng) as Hcnt. pose proof (in_group_region _ (ro_bpg _ _ _ Hro) Hig) as [Hb Hmb].
  assert (Hbe : b + m <= 2 ^ 32).
  { destruct Hig as (_ & Hg & _ & Hhi). pose proof (ge_end _ _ Hge). pose proof (ge_bpg _ _ Hge). nia. }
  destruct (reserve_oob_blocks_ok s a p b m g l Hal Hlast Hm ltac:(lia)) as (q & a' & s1 & Hr & B1 & (Q1 & _ & I1 & U1) & Hfi & Hit & Hpa & Hl1 & Hoob & Hol & Hpq & Hpl).
  set (l' := (q, (b + 1, m - 1, g)) :: l) in *. rewrite <- Hit in Hl1.
  assert (Hlen' : blocks_len l'.*2 = DIV_ROUND_UP len (block_size info)).
  { unfold l'. rewrite fmap_cons. cbn [snd]. change (m + blocks_len l.*2 = DIV_ROUND_UP len (block_size info) + 1) in Hlen.
    change (m - 1 + blocks_len l.*2 = DIV_ROUND_UP len (block_size info)). lia. }
  assert (Hreg : Forall region_ok l'.*2).
  { constructor; [split; lia|]. eapply Forall_impl; [exact Hin'|]. intros x. apply in_group_region, (ro_bpg _ _ _ Hro). }
  assert (Hblocks : blocks_of ((b, m, g) :: l.*2) = b :: blocks_of l'.*2).
  { unfold l'. rewrite fmap_cons. change (seqZ b m ++ blocks_of l.*2 = b :: seqZ (b + 1) (m - 1) ++ blocks_of l.*2).
    rewrite seqZ_cons by lia. by rewrite <- Z.add_1_r, <- Z.sub_1_r. }
  rewrite Hblocks in Hnd, Hfree. pose proof (Hfree b ltac:(by left)) as Hbf. apply NoDup_cons in Hnd as [Hni Hnd].
  assert (Hb0 : b <> 0).
  { intros ->. apply Hbf, (ro_zero _ _ _ Hro). destruct Hig as (_ & Hg & Hlo & _). pose proof (ge_first _ _ Hge). pose proof (ge_bpg _ _ Hge). nia. }
  pose proof (ro_blocks _ _ _ Hro). pose proof (ro_len _ _ _ Hro). pose proof (ro_bs _ _ _ Hro). pose proof (ge_bs _ _ Hge). pose proof (ro_groups _ _ _ Hro).
  destruct (describe_leaf s1 inode len (DIV_ROUND_UP len (block_size info)) b a' l') as (s' & k & Hd & [WB WH WQ WE WO WU WI WY WS]); [done|by split; [rewrite Hit|]|done|lia|lia| |done|lia| | |lia|].
  { revert Hcnt. unfold blen, l'. cbn. rewrite length_fmap. lia. }
  { rewrite Q1, SQ. eapply Forall_impl; [exact (ro_queue _ _ _ Hro)|]. intros e He Heq. apply Hbf. by rewrite <- Heq. }
  { pose proof (ro_inode _ _ _ Hro) as Ht. unfold target_ok, target in *. by rewrite I1, SI. }
  exists s1, s', a', l', [QData (Buf k) 0 (block_size info) b]. split_and!; [done..|exact Hd|].
  assert (Hperm : blocks_of l'.*2 ++ (queued_block <$> [QData (Buf k) 0 (block_size info) b]) ≡ₚ b :: blocks_of l'.*2).
  { cbn [fmap list_fmap queued_block]. by rewrite <- Permutation_cons_append. }
  split; try done.
  - apply (fs_ok_bgs info aux s); [congruence|done].
  - by rewrite <- SB, <- U1.
  - rewrite Hperm. by apply NoDup_cons.
  - intros x. rewrite Hperm. apply Hfree.
  - intros x. rewrite (used_bgs s s' x), Hused, Hblocks, Hperm by congruence. done.
  - assert (total_free s' = total_free s) as -> by (unfold total_free, frees; by rewrite WB, B1). rewrite Htot, Hlen. lia.
  - transitivity s; [done|]. unfold keeps. by rewrite WB, B1.
  - destruct Hl1 as [Hs Hn]. split; [|done]. by rewrite WH.
  - by split; [rewrite Hit|].
  - exists [(p, (b, 1, g))]. rewrite WH. split; [done|]. change (NoDup (l'.*1 ++ [p])). rewrite <- Permutation_cons_append. apply NoDup_cons. split; [|apply Hl1].
    intros Hx. apply elem_of_cons in Hx as [?|?]; done.
  - rewrite WQ. congruence.
  - intros n d Hn. apply WU. by rewrite U1, SB.
  - intros x Hx. by rewrite WI, I1, SI.
Qed.

Lemma do_inode_ok s inode len : room s inode len ->
  exists a l q s', do_inode_allocate_extents force info aux inode len s = Ok (Some a) s' /\ described s inode len a l q s'.
Proof.
  intros Hro. pose proof (ro_blocks _ _ _ Hro). pose proof (ro_len _ _ _ Hro) as Hlen. pose proof (ro_bs _ _ _ Hro). pose proof (ge_bs _ _ Hge).
  set (n := DIV_ROUND_UP len (block_size info)) in *. assert (Hn : 0 < n) by (apply DIV_ROUND_UP_pos; lia).
  pose proof (ro_free _ _ _ Hro) as Hfree. fold n in Hfree.
  destruct (allocate_blocks_full force info aux Hge s (n + 1) (ro_ok _ _ _ Hro) ltac:(lia) ltac:(lia))
    as (a & p & b & m & g & l & s1 & Hall & Hal & Hlast & Hha & Hbl & Hsr & _ & Hends & Hmax & Hng).
  destruct (ro_two _ _ _ Hro) as (f & Hf & Hf2). pose proof (Hmax f Hf). assert (Hm : 1 < m) by lia.
  pose proof (distinct_groups _ (ha_in _ _ _ _ _ Hha) Hng) as Hcnt. pose proof (ge_groups _ _ Hge) as Hgr.
  set (l0 := (p, (b, m, g)) :: l) in *. assert (Hl0 : blen l0 = blen l0.*2) by (unfold blen; by rewrite length_fmap).
  pose proof Hal as ([Hseg Hnd] & _). assert (Hsl : slinked s1 (rl_first (al_list a)) l0) by (split; [by eapply seg_sseg|done]).
  pose proof (num_regions_ok s1 a l0 Hsl ltac:(lia)) as Hnum.
  unfold do_inode_allocate_extents. rewrite (inode_blocks len) by (fold n; lia). fold n.
  rewrite <- (u32_small (n + 1)) in Hall by (unfold is_u32; lia). run Hall. run Hnum. destruct (Z.leb_spec (blen l0) 3) as [Hle|Hgt].
  - destruct (do_inode_inline s s1 inode len a p b m g l Hro Hal Hlast Hha Hsr Hm Hbl) as (s2 & s' & l' & Hr & Hl' & Hd & Hde);
      [by apply Forall_cons_1 in Hends as [? _]|unfold blen, l0 in Hle; cbn in Hle; lia|].
    exists a, l', [], s'. split; [|done]. erewrite (bind_Ok (a ← reduce_allocation a 1; mret (a, 0))) by (by run Hr). cbv beta iota.
    replace (blen l0) with (blen l') by (unfold blen, l0; by rewrite Hl'). exact Hd.
  - destruct (do_inode_leaf s s1 inode len a p b m g l Hro Hal Hlast Hha Hsr Hm Hbl Hng) as (s2 & s' & a' & l' & q & Hr & Ho & Hb & Hl' & Hd & Hde).
    exists a', l', q, s'. split; [|done].
    erewrite (bind_Ok ('(a, _) ← reserve_oob_blocks a 1; b ← get_oob_block a 0; mret (a, b))) by (run Hr; by run Ho). cbv beta iota.
    replace (blen l0) with (blen l') by (unfold blen, l0; by rewrite Hl'). exact Hd.
Qed.

(** The contract: the [len] bytes of [src] are an inode's file.  [q] is what
    was queued: byte [k] of [src] goes to the block the extents give for it;
    the blocks were free and are used now; other files keep their extents. *)
Record stored (s : fs) (inode : inode_ptr) (len : Z) (src : buffer + string) (q : list queued) (s' : fs) : Prop := {
  st_ok : fs_ok info aux s';
  st_queue : ext4_sparse_file s' = ext4_sparse_file s ++ q;
  st_extents : exists es, inode_extents s' inode = Some es /\
    blen (extent_blocks es) = DIV_ROUND_UP len (block_size info) /\ NoDup (extent_blocks es) /\
    (forall x, x ∈ extent_blocks es -> ~ used info s x /\ used info s' x) /\
    forall k, 0 <= k < len -> exists b, extent_blocks es !! Z.to_nat (k / block_size info) = Some b /\
      place (block_size info) src q k = Some (b * block_size info + k mod block_size info);
  st_leaf : exists es k, inode_extents s' inode = Some es /\ extents_by k s' inode es /\
    forall n, k = Some n -> (length (bufs s) <= n < length (bufs s'))%nat /\ src <> inl (Buf n);
  st_queued : forall e, e ∈ q -> used info s' (queued_block e) /\ (used info s (queued_block e) -> exists g, (piece e).1.1.1 = inl (BgInodeTable g));
  st_total : total_free s - (DIV_ROUND_UP len (block_size info) + 1) <= total_free s';
  st_inodes : forall p, p <> inode -> inodes s' !! p = inodes s !! p;
  st_bufs : forall n d, bufs s !! n = Some d -> bufs s' !! n = Some d;
  st_mono : forall x, used info s x -> used info s' x;
  st_body : blen (i_block (default zero_inode (inodes s' !! inode))) = EXT4_BLOCK_BYTES;
  st_size : i_size_lo (default zero_inode (inodes s' !! inode)) + 2 ^ 32 * i_size_high (default zero_inode (inodes s' !! inode)) = len;
  st_others : forall p es, p <> inode -> inode_extents s p = Some es -> inode_extents s' p = Some es
}.

Lemma blocks_of_length l : Forall region_ok l -> blen (blocks_of l) = blocks_len l.
Proof.
  induction 1 as [|[[b n] g] l [_ Hn] Hl IH]; [done|]. change (blocks_of ((b, n, g) :: l)) with (seqZ b n ++ blocks_of l).
  change (blocks_len ((b, n, g) :: l)) with (n + blocks_len l). rewrite blen_app, IH. unfold blen. rewrite length_seqZ. lia.
Qed.

Lemma stored_intro s inode len src mk a l q s1 s2 : described s inode len a l q s1 -> (forall off len b, piece (mk off len b) = (src, off, len, b)) ->
  0 <= len -> 0 < block_size info <= 2 ^ 16 -> (forall e, e ∈ q -> (piece e).1.1.1 <> src) -> (forall n, src = inl (Buf n) -> (length (bufs s1) <= n)%nat) ->
  bgs s2 = bgs s1 -> inodes s2 = inodes s1 -> (forall n d, bufs s1 !! n = Some d -> bufs s2 !! n = Some d) ->
  ext4_sparse_file s2 = ext4_sparse_file s1 ++ pieces info mk l.*2 0 len -> stored s inode len src (q ++ pieces info mk l.*2 0 len) s2.
Proof.
  intros Hde Hmk Hlen Hbs Hsrc Hfresh Hbg Hi Hb Hq. destruct Hde as [Dok Dex Dlen Dreg Dnd Dfree Dused Dtot Dke _ _ _ Dq _ Db Do Dy Ds]. destruct Dex as (kb & Dex & Dk).
  set (qs := pieces info mk l.*2 0 len) in *.
  assert (Hused : forall x, x ∈ blocks_of l.*2 ++ (queued_block <$> q) -> ~ used info s x /\ used info s2 x).
  { intros x Hx. split; [by apply Dfree|]. apply (used_bgs s1 s2 x Hbg), Dused. by right. }
  split.
  - by apply (fs_ok_bgs info aux s1).
  - rewrite Hq, Dq. by rewrite app_assoc.
  - exists (extent_list 0 l.*2). rewrite extent_blocks_list. split_and!.
    + apply (inode_extents_mono s1 s2 qs); [by rewrite Hi|done|done|by eapply extents_by_now].
    + by rewrite blocks_of_length.
    + by apply NoDup_app in Dnd as [? _].
    + intros x Hx. apply Hused, elem_of_app. by left.
    + intros k Hk. pose proof (DIV_ROUND_UP_bounds len (block_size info) ltac:(lia)) as Hdb.
      destruct (pieces_place info mk src Hmk Hbs l.*2 0 len k Dreg) as (b & Hbk & Hp); [rewrite Dlen; lia|lia|].
      rewrite Z.sub_0_r in Hbk, Hp. exists b. split; [done|]. by rewrite place_skip.
  - assert (Hby : extents_by kb s2 inode (extent_list 0 l.*2)) by (apply (extents_by_trans kb s1 s2 qs); [done|by rewrite Hi|done|by auto]).
    exists (extent_list 0 l.*2), kb. split; [by eapply extents_by_now|]. split; [done|]. intros n Hn. destruct (Dk n Hn) as [Hlo Hhi]. split.
    + split; [done|]. destruct (lookup_lt_is_Some_2 (bufs s1) n Hhi) as [x Hx]. by apply Hb, lookup_lt_Some in Hx.
    + intros Heq. specialize (Hfresh n Heq). lia.
  - intros e He. assert (Hin : queued_block e ∈ blocks_of l.*2 ++ (queued_block <$> q)).
    { apply elem_of_app. apply elem_of_app in He as [He|He]; [right; by apply list_elem_of_fmap_2|left].
      by apply (pieces_blocks info mk src Hmk) in He. }
    apply Hused in Hin as [Hn Hu]. split; [done|]. by intros ?%Hn.
  - unfold total_free, frees in *. by rewrite Hbg.
  - intros p Hp. by rewrite Hi, Do.
  - by auto.
  - intros x Hx. apply (used_bgs s1 s2 x Hbg), Dused. by left.
  - by rewrite Hi.
  - by rewrite Hi.
  - intros p es Hp Hes. apply (inode_extents_mono s s2 (q ++ qs)); [by rewrite Hi, Do|by auto|by rewrite Hq, Dq, app_assoc|done].
Qed.
End File.

(** ** Freeing the list *)

Lemma free_regions_ok l : forall fuel s p, sseg (heap s) p l None -> NoDup l.*1 -> (length l <= fuel)%nat ->
  exists h, free_regions fuel p s = Ok tt (with_heap s h) /\ forall q, q ∉ l.*1 -> h !! q = heap s !! q.
Proof.
  induction l as [|[q [[b n] g]] l IH]; intros fuel s p Hs Hnd Hf.
  { cbn in Hs. subst p. exists (heap s). split; [by destruct fuel, s|done]. }
  destruct Hs as (-> & nx & pv & Hh & Hs). destruct fuel as [|fuel]; [cbn in Hf; lia|]. cbn [free_regions].
  rewrite fmap_cons in Hnd. apply NoDup_cons in Hnd as [Hq Hnd]. run (load_ok s q _ Hh). set (s1 := with_heap s (delete q (heap s))).
  erewrite (bind_Ok (free_region (Some q)) _ s tt s1) by (unfold free_region; by rewrite Hh). cbn [r_next].
  destruct (IH fuel s1 nx) as (h & Hr & Hk); [|done|cbn in Hf; lia|].
  { eapply sseg_ext; [|exact Hs]. intros x Hx. cbn. rewrite lookup_delete_ne; [done|]. by intros ->. }
  exists h. split; [exact Hr|]. intros x Hx. rewrite fmap_cons in Hx. apply not_elem_of_cons in Hx as [Hxq Hx]. rewrite Hk by done.
  cbn. by rewrite lookup_delete_ne.
Qed.

Lemma free_alloc_ok s a l lo : sseg (heap s) (rl_first (al_list a)) l None -> sseg (heap s) (rl_first (oob_list a)) lo None -> NoDup (l.*1 ++ lo.*1) ->
  exists h, free_alloc a s = Ok tt (with_heap s h) /\ forall q, q ∉ l.*1 ++ lo.*1 -> h !! q = heap s !! q.
Proof.
  intros Hl Hlo Hnd. apply NoDup_app in Hnd as (Hn1 & Hdis & Hn2).
  assert (Hsz : forall k p, sseg (heap s) p k None -> NoDup k.*1 -> (length k <= S (size (heap s)))%nat).
  { intros k p Hk Hkn. pose proof (slinked_size s p k ltac:(by split)). lia. }
  destruct (free_regions_ok l (S (size (heap s))) s _ Hl Hn1 (Hsz _ _ Hl Hn1)) as (h1 & Hr1 & Hk1).
  destruct (free_regions_ok lo (S (size (heap s))) (with_heap s h1) (rl_first (oob_list a))) as (h2 & Hr2 & Hk2); [|done|by eapply Hsz|].
  { eapply sseg_ext; [|exact Hlo]. intros x Hx. apply Hk1. intros Hy. by apply (Hdis x). }
  exists h2. split.
  - unfold free_alloc. erewrite (bind_Ok get_state) by reflexivity. run Hr1. exact Hr2.
  - intros x Hx. apply not_elem_of_app in Hx as [Hx1 Hx2]. rewrite Hk2 by done. by apply Hk1.
Qed.

(** ** Files and buffers *)

Lemma file_extents_ok force info aux s inode len filename : geometry info aux -> room info aux s inode len ->
  exists a q s', inode_allocate_file_extents force info aux inode len filename s = Ok (Some a) s' /\
    stored info aux s inode len (inr filename) q s' /\ keeps info s s'.
Proof.
  intros Hge Hro. pose proof (ro_len _ _ _ _ _ Hro). pose proof (ge_bs _ _ Hge) as Hbs.
  destruct (do_inode_ok force info aux Hge s inode len Hro) as (a & l & q & s1 & Hdo & Hde).
  pose proof (de_linked _ _ _ _ _ _ _ _ _ Hde) as Hl. pose proof (DIV_ROUND_UP_bounds len (block_size info) ltac:(lia)).
  destruct (backing_loop_ok info (QFile filename) Hbs l (S (size (heap s1))) s1 a 0 len) as (it & Hb);
    [apply Hl|apply Hde|pose proof (slinked_size _ _ _ Hl); lia|apply Hde|lia|rewrite (de_len _ _ _ _ _ _ _ _ _ Hde); lia|].
  exists (set_iter a it 0), (q ++ pieces info (QFile filename) l.*2 0 len), (with_queue s1 (pieces info (QFile filename) l.*2 0 len)). split.
  - unfold inode_allocate_file_extents. run Hdo.
    assert (Hcb : extent_create_backing_file info a len filename s1 = Ok (set_iter a it 0) (with_queue s1 (pieces info (QFile filename) l.*2 0 len)))
      by exact Hb. by run Hcb.
  - split; [|unfold keeps; apply Hde]. apply (stored_intro info aux s inode len _ (QFile filename) a l q s1); try done; [lia|].
    intros e He. by destruct (de_own _ _ _ _ _ _ _ _ _ Hde e He) as (k & -> & _).
Qed.

(** Buffer [d] with other contents. *)
Definition set_buf (s : fs) (d : nat) (c : list byte) : fs :=
  mk_fs (bgs s) (heap s) (ext4_sparse_file s) (xattrs s) (inodes s) (<[d := c]> (bufs s)).

Lemma data_extents_ok force info aux s inode len : geometry info aux -> room info aux s inode len ->
  exists d q s', inode_allocate_data_extents force info aux inode len len s = Ok (Some d) s' /\
    bufs s' !! d = Some (zeros len) /\ (length (bufs s) <= d)%nat /\ keeps info s s' /\
    forall c, stored info aux s inode len (inl (Buf d)) q (set_buf s' d c).
Proof.
  intros Hge Hro. pose proof (ro_len _ _ _ _ _ Hro). pose proof (ge_bs _ _ Hge) as Hbs.
  destruct (do_inode_ok force info aux Hge s inode len Hro) as (a & l & q & s1 & Hdo & Hde).
  pose proof (de_linked _ _ _ _ _ _ _ _ _ Hde) as Hl. pose proof (DIV_ROUND_UP_bounds len (block_size info) ltac:(lia)).
  set (d := length (bufs s1)). set (s2 := mk_fs (bgs s1) (heap s1) (ext4_sparse_file s1) (xattrs s1) (inodes s1) (bufs s1 ++ [zeros len])).
  destruct (backing_loop_ok info (QData (Buf d)) Hbs l (S (size (heap s2))) s2 a 0 len) as (it & Hb);
    [apply Hl|apply Hde|pose proof (slinked_size _ _ _ Hl); cbn; lia|apply Hde|lia|rewrite (de_len _ _ _ _ _ _ _ _ _ Hde); lia|].
  set (s3 := with_queue s2 (pieces info (QData (Buf d)) l.*2 0 len)) in *.
  destruct (de_oob _ _ _ _ _ _ _ _ _ Hde) as (lo & Hlo & Hnd). destruct Hl as [Hl Hn].
  rewrite (proj1 (de_start _ _ _ _ _ _ _ _ _ Hde)) in Hl. destruct (free_alloc_ok s3 (set_iter a it 0) l lo Hl Hlo Hnd) as (h & Hfr & _).
  exists d, (q ++ pieces info (QData (Buf d)) l.*2 0 len), (with_heap s3 h). split_and!.
  - unfold inode_allocate_data_extents. run Hdo. rewrite (proj2 (Z.eqb_neq len 0)) by lia. cbn [negb].
    assert (Hcb : extent_create_backing info a len s1 = Ok (set_iter a it 0, d) s3).
    { unfold extent_create_backing. erewrite (bind_Ok (calloc len) _ s1 d s2) by reflexivity. rewrite bind_get_state. by run Hb. }
    erewrite (bind_Ok ('(a, d) ← extent_create_backing info a len; mret (a, Some d))) by (by run Hcb). cbv beta iota. by run Hfr.
  - cbn. by apply list_lookup_middle.
  - unfold d. apply Nat.nlt_ge. intros Hlt. destruct (lookup_lt_is_Some_2 (bufs s) (length (bufs s1)) Hlt) as [x Hx].
    apply (de_bufs _ _ _ _ _ _ _ _ _ Hde) in Hx. apply lookup_lt_Some in Hx. lia.
  - unfold keeps. apply Hde.
  - intros c. apply (stored_intro info aux s inode len _ (QData (Buf d)) a l q s1); try done; [lia| | |].
    + intros e He. destruct (de_own _ _ _ _ _ _ _ _ _ Hde e He) as (k & -> & Hk). intros [=]. unfold d in *. lia.
    + by intros n [= <-].
    + intros n x Hx. cbn. rewrite list_lookup_insert_ne; [by apply lookup_app_l_Some|]. apply lookup_lt_Some in Hx. unfold d. lia.
Qed.

(** ** Theorems *)

(** C26. A file with room for it gets extents in its inode that name distinct
    free blocks, enough for its length and marked as used then, and byte [k] of
    the file is queued for the place byte [k] has by these extents; the other
    inodes keep the extents they had. *)
Theorem file_extents_hold_file force info aux s inode len filename : geometry info aux -> room info aux s inode len ->
  exists a q s', inode_allocate_file_extents force info aux inode len filename s = Ok (Some a) s' /\
    stored info aux s inode len (inr filename) q s' /\ keeps info s s'.
Proof. apply file_extents_ok. Qed.

(** [inode_allocate_data_extents] gives a zeroed buffer of the inode's
    length; the bytes later put into it reach the places the inode's extents
    give for them.  The list of regions is freed without a fault. *)
Theorem data_extents_hold_buffer force info aux s inode len : geometry info aux -> room info aux s inode len ->
  exists d q s', inode_allocate_data_extents force info aux inode len len s = Ok (Some d) s' /\
    bufs s' !! d = Some (zeros len) /\ (length (bufs s) <= d)%nat /\ keeps info s s' /\
    forall c, stored info aux s inode len (inl (Buf d)) q (set_buf s' d c).
Proof. apply data_extents_ok. Qed.

(** ** Concrete files *)

Module Ext4FileWitnesses.
Import Ext4Witnesses.

Lemma used_at s i bg b : bgs s !! i = Some bg -> bg_first_block bg <= b < bg_first_block bg + blocks_per_group info0 ->
  bit (bitmaps bg) (b - bg_first_block bg) = true -> used info0 s b.
Proof. by exists i, bg. Qed.

(** The filesystem of the allocator's examples has room for up to 175 blocks. *)
Lemma fs1_room len : 0 < len <= 175 * 2048 -> room info0 aux0 fs1 (0, 11) len.
Proof.
  intros Hlen. assert (Hd : DIV_ROUND_UP len 2048 <= 175) by (pose proof (DIV_ROUND_UP_bounds len 2048 ltac:(lia)); lia).
  split; [exact fs1_ok|cbn; lia|cbn; lia|by vm_compute|lia|rewrite fs1_free; cbn [block_size info0]; lia|cbn [block_size info0]; lia| |by vm_compute| |].
  - exists 57. split; [|lia]. assert (frees fs1 = [57; 57; 61; 1]) as -> by (by vm_compute). by left.
  - intros _. eapply (used_at _ 0); [by vm_compute|vm_compute; intuition congruence|by vm_compute].
  - assert (ext4_sparse_file fs1 = [QData (BgBitmaps 0) 0 4096 4; QData (BgBitmaps 1) 0 4096 68; QData (BgBitmaps 2) 0 4096 128;
      QData (BgBitmaps 3) 0 4096 196]) as -> by (by vm_compute).
    repeat constructor; cbn [queued_block];
      [eapply (used_at _ 0)|eapply (used_at _ 1)|eapply (used_at _ 2)|eapply (used_at _ 3)];
      try (by vm_compute); (vm_compute; intuition congruence).
Qed.

Lemma file_extents_hold_file_witness : exists a q s', inode_allocate_file_extents false info0 aux0 (0, 11) 5000 "boot.img" fs1 = Ok (Some a) s' /\
  stored info0 aux0 fs1 (0, 11) 5000 (inr "boot.img") q s' /\ keeps info0 fs1 s'.
Proof.
  exact (file_extents_hold_file false info0 aux0 fs1 (0, 11) 5000 "boot.img" (proj1 (aux_info_layout info0 info0_ok)) (fs1_room 5000 ltac:(lia))).
Defined.

(** All free blocks: four regions and an extent block. *)
Lemma data_extents_hold_buffer_witness : exists d q s', inode_allocate_data_extents false info0 aux0 (0, 11) 358400 358400 fs1 = Ok (Some d) s' /\
  bufs s' !! d = Some (zeros 358400) /\ (length (bufs fs1) <= d)%nat /\ keeps info0 fs1 s' /\
  forall c, stored info0 aux0 fs1 (0, 11) 358400 (inl (Buf d)) q (set_buf s' d c).
Proof.
  exact (data_extents_hold_buffer false info0 aux0 fs1 (0, 11) 358400 (proj1 (aux_info_layout info0 info0_ok)) (fs1_room 358400 ltac:(lia))).
Defined.

(** [reduce_allocation] starts at the first region, to which [last] points: a
    length past that region is not taken from the next one. *)
Lemma reduce_allocation_null : with_alloc 70 (fun a => reduce_allocation a 65) fs1 = Fault NullDeref.
Proof. vm_compute. reflexivity. Qed.

(** The check of the number of entries passes with more entries than fit. *)
Lemma extent_headers_too_many s : (block_size info0 - 12) / 12 < 200 /\
  exists s', extent_headers false info0 (0, 11) 200 5 (mk_fs (bgs s) (heap s) [] [] ∅ []) = Ok (Some (Some 0%nat)) s'.
Proof.
  split; [done|]. destruct (headers_leaf false info0 (mk_fs (bgs s) (heap s) [] [] ∅ []) (0, 11) 200 5) as (s' & d & Hr & _); try done.
  by exists s'.
Qed.
End Ext4FileWitnesses.
