(* ===== verification/Ext4InodeCorrect.v ===== *)
(** * Inodes of an ext4 image: numbers are handed out once

    The invariant [image_ok] of a filesystem under construction: the block
    invariant of Ext4AllocCorrect, the inode bitmaps in agreement with the
    counts, and everything that is queued for the image on used blocks. *)
From S2P Require Import Prelude Ext4Alloc Ext4Bits Ext4AllocCorrect Ext4Extent Ext4ExtentCorrect.

Section Inodes.
Context (force : bool) (info : fs_info) (aux : fs_aux_info) (Hge : geometry info aux).
Abbreviation bs := (block_size info).
Abbreviation ipg := (inodes_per_group info).

(** An inode bitmap of one block, and inode numbers of 32 bits. *)
Record inode_geometry : Prop := {
  ig_ipg : 0 < ipg <= 8 * bs;
  ig_count : groups aux * ipg < 2 ^ 31
}.
Context (Hig : inode_geometry).

(** The inodes below [first_free_inode] are taken, the others are counted. *)
Record inode_bg (bg : block_group_info) : Prop := {
  ib_first : 1 <= first_free_inode bg <= ipg + 1;
  ib_free : bg_free_inodes bg = ipg - (first_free_inode bg - 1);
  ib_bits : forall j, 0 <= j < ipg -> bit (bitmaps bg) (8 * bs + j) = (j <? first_free_inode bg - 1)
}.

(** Inode number [n] is marked as used. *)
Definition used_inode (s : fs) (n : Z) : Prop :=
  exists i bg, bgs s !! i = Some bg /\ Z.of_nat i * ipg < n <= (Z.of_nat i + 1) * ipg /\
    bit (bitmaps bg) (8 * bs + (n - 1 - Z.of_nat i * ipg)) = true.

(** ** Operations that leave the blocks alone *)

Record keep_blocks (bg bg' : block_group_info) : Prop := {
  kl_first : bg_first_block bg' = bg_first_block bg;
  kl_super : has_superblock bg' = has_superblock bg;
  kl_free : bg_free_blocks bg' = bg_free_blocks bg;
  kl_ff : first_free_block bg' = first_free_block bg;
  kl_length : length (bitmaps bg') = length (bitmaps bg);
  kl_bytes : Forall is_byte (bitmaps bg) -> Forall is_byte (bitmaps bg');
  kl_bits : forall j, 0 <= j < 8 * bs -> bit (bitmaps bg') j = bit (bitmaps bg) j
}.
#[export] Instance keep_blocks_refl : Reflexive keep_blocks.
Proof. by split. Qed.
#[export] Instance keep_blocks_trans : Transitive keep_blocks.
Proof.
  intros a b c [A1 A2 A3 A4 A5 A6 A7] [B1 B2 B3 B4 B5 B6 B7]. split; [congruence..|by auto|]. intros j Hj. by rewrite B7, A7.
Qed.
Definition same_blocks (s s' : fs) : Prop := Forall2 keep_blocks (bgs s) (bgs s').
#[export] Instance same_blocks_refl : Reflexive same_blocks.
Proof. intros s. unfold same_blocks. reflexivity. Qed.
#[export] Instance same_blocks_trans : Transitive same_blocks.
Proof. intros a b c. unfold same_blocks. apply transitivity. Qed.

Lemma same_blocks_set_bg s i bg bg' : bgs s !! i = Some bg -> keep_blocks bg bg' -> same_blocks s (set_bg s i bg').
Proof.
  intros Hi Hk. unfold same_blocks. cbn. rewrite <- (list_insert_id (bgs s) i bg Hi) at 1. apply Forall2_insert; [reflexivity|done].
Qed.

Lemma keep_blocks_ok bg bg' : keep_blocks bg bg' -> bg_ok info bg -> bg_ok info bg'.
Proof.
  intros [K1 K2 K3 K4 K5 K6 K7] [Hl Hb (limit & Hff & Hlim & Hfree & Hbits)]. pose proof (ge_bpg _ _ Hge).
  split; [congruence|by auto|]. exists limit. rewrite K3, K4. split_and!; try done; try lia. intros j Hj. rewrite K7 by lia. by apply Hbits.
Qed.

Lemma same_blocks_fs_ok s s' : same_blocks s s' -> fs_ok info aux s -> fs_ok info aux s'.
Proof.
  intros Hs [Hg Hb]. split; [by rewrite <- (Forall2_length _ _ _ Hs)|]. intros i bg' Hi.
  destruct (Forall2_lookup_r _ _ _ _ _ Hs Hi) as (bg & Hbg & Hk). destruct (Hb i bg Hbg) as [Ho Hf].
  split; [by eapply keep_blocks_ok|by rewrite (kl_first _ _ Hk)].
Qed.

Lemma same_blocks_used s s' x : same_blocks s s' -> used info s' x <-> used info s x.
Proof.
  intros Hs. pose proof (ge_bpg _ _ Hge). split; intros (i & bg & Hi & Hx & Hb).
  - destruct (Forall2_lookup_r _ _ _ _ _ Hs Hi) as (bg0 & Hbg & [K1 _ _ _ _ _ K7]). rewrite K1 in Hx, Hb. rewrite K7 in Hb by lia. by exists i, bg0.
  - destruct (Forall2_lookup_l _ _ _ _ _ Hs Hi) as (bg0 & Hbg & [K1 _ _ _ _ _ K7]). exists i, bg0. rewrite K1, K7 by lia. done.
Qed.

Lemma same_blocks_frees s s' : same_blocks s s' -> frees s' = frees s.
Proof.
  unfold same_blocks, frees. induction 1 as [|bg bg' l l' Hk Hl IH]; [done|]. cbn. by rewrite (kl_free _ _ Hk), IH.
Qed.

Lemma same_blocks_total s s' : same_blocks s s' -> total_free s' = total_free s.
Proof. intros Hs. unfold total_free. by rewrite (same_blocks_frees s s' Hs). Qed.

(** ** Operations that leave the inodes alone *)

Record keep_inodes (bg bg' : block_group_info) : Prop := {
  ki_free : bg_free_inodes bg' = bg_free_inodes bg;
  ki_first : first_free_inode bg' = first_free_inode bg;
  ki_bits : forall j, 8 * bs <= j -> bit (bitmaps bg') j = bit (bitmaps bg) j
}.
#[export] Instance keep_inodes_trans : Transitive keep_inodes.
Proof. intros a b c [A1 A2 A3] [B1 B2 B3]. split; [congruence..|]. intros j Hj. by rewrite B3, A3. Qed.
Definition same_inodes (s s' : fs) : Prop := Forall2 keep_inodes (bgs s) (bgs s').
#[export] Instance same_inodes_trans : Transitive same_inodes.
Proof. intros a b c. unfold same_inodes. apply transitivity. Qed.

Lemma keeps_same_inodes s s' : keeps info s s' -> same_inodes s s'.
Proof. intros Hk. eapply Forall2_impl; [exact Hk|]. intros bg bg' [_ _ _ [K4 K5] _ K8]. by split. Qed.

Lemma same_inodes_set_bg s i bg bg' : bgs s !! i = Some bg -> keep_inodes bg bg' -> same_inodes s (set_bg s i bg').
Proof.
  intros Hi Hk. unfold same_inodes. cbn. rewrite <- (list_insert_id (bgs s) i bg Hi) at 1. apply Forall2_insert; [|done].
  apply Forall_Forall2_diag, Forall_true. by split.
Qed.

Lemma same_inodes_bg s s' : same_inodes s s' -> Forall inode_bg (bgs s) -> Forall inode_bg (bgs s').
Proof.
  unfold same_inodes. induction 1 as [|bg bg' l l' [K4 K5 K8] Hl IH]; [done|]. intros Ha. apply Forall_cons_1 in Ha as [[Hf Hn Hb] Ha].
  constructor; [|by apply IH]. split; [by rewrite K5|by rewrite K4, K5|]. intros j Hj. rewrite K8, K5 by lia. by apply Hb.
Qed.

Lemma same_inodes_used s s' n : same_inodes s s' -> used_inode s' n <-> used_inode s n.
Proof.
  intros Hs. split; intros (i & bg & Hi & Hx & Hb).
  - destruct (Forall2_lookup_r _ _ _ _ _ Hs Hi) as (bg0 & Hbg & [_ _ K8]). rewrite K8 in Hb by lia. by exists i, bg0.
  - destruct (Forall2_lookup_l _ _ _ _ _ Hs Hi) as (bg0 & Hbg & [_ _ K8]). exists i, bg0. rewrite K8 by lia. done.
Qed.

Definition free_inodes (s : fs) : Z := foldr Z.add 0 (bg_free_inodes <$> bgs s).

Lemma same_inodes_free s s' : same_inodes s s' -> free_inodes s' = free_inodes s.
Proof.
  unfold same_inodes, free_inodes. induction 1 as [|bg bg' l l' [K4 _ _] Hl IH]; [done|]. cbn. by rewrite K4, IH.
Qed.

(** ** Reserving inodes *)

Lemma mark_inodes_ok n : forall bm first i, Forall is_byte bm -> blen bm = 2 * bs -> 1 <= first -> 0 <= i ->
  first + i - 1 + Z.of_nat n <= 8 * bs ->
  exists bm', mark_inodes info n bm first i = Done bm' /\
    marked bm bm' (8 * bs + (first + i - 1)) (8 * bs + (first + i - 1) + Z.of_nat n).
Proof.
  pose proof (ge_bs _ _ Hge) as Hbs. induction n as [|n IH]; intros bm first i Hb Hl Hf Hi Hn; cbn [mark_inodes].
  { exists bm. split; [done|]. apply marked_refl; [done|lia]. }
  rewrite (u32_small (first + i - 1)) by (unfold is_u32; lia). set (k := first + i - 1).
  assert (Hdiv : (8 * bs + k) / 8 = bs + k / 8) by (rewrite <- Z.div_add_l by lia; f_equal; lia).
  assert (Hmod : (8 * bs + k) mod 8 = k mod 8) by (replace (8 * bs + k) with (k + bs * 8) by lia; apply Z_mod_plus_full).
  assert (Hk : k / 8 < bs) by (apply Z.div_lt_upper_bound; unfold k; lia).
  rewrite <- Hdiv, <- Hmod, bm_byte_in by (unfold k in *; lia). cbn [obind].
  pose proof (or_bit_marked bm (8 * bs + k) Hb ltac:(unfold k; lia) ltac:(lia)) as Hm. set (bm1 := bm_set _ _ _) in *.
  rewrite (u32_small (i + 1)) by (unfold is_u32; lia).
  destruct (IH bm1 first (i + 1)) as (bm' & Hr & Hm'); [apply Hm|unfold blen in *; by rewrite (mk_length _ _ _ _ Hm)|lia|lia|lia|].
  exists bm'. split; [done|]. replace (8 * bs + (first + (i + 1) - 1)) with (8 * bs + k + 1) in Hm' by (unfold k; lia).
  replace (8 * bs + k + Z.of_nat (S n)) with (8 * bs + k + 1 + Z.of_nat n) by lia. eapply marked_trans; [exact Hm|exact Hm'|lia].
Qed.

(** [num] inode numbers from the first free one on. *)
Lemma reserve_inodes_ok s i bg num : bgs s !! i = Some bg -> bg_ok info bg -> inode_bg bg -> 0 <= num <= bg_free_inodes bg ->
  exists bg', reserve_inodes info (Z.of_nat i) num s = Ok (first_free_inode bg) (set_bg s i bg') /\ keep_blocks bg bg' /\ inode_bg bg' /\
    inode_table bg' = inode_table bg /\ first_free_inode bg' = first_free_inode bg + num /\
    marked (bitmaps bg) (bitmaps bg') (8 * bs + (first_free_inode bg - 1)) (8 * bs + (first_free_inode bg - 1) + num).
Proof.
  intros Hi Hok [Hf Hn Hb] Hnum. pose proof (ig_ipg Hig). pose proof (ge_bs _ _ Hge).
  destruct (mark_inodes_ok (Z.to_nat num) (bitmaps bg) (first_free_inode bg) 0) as (bm & Hm & Hmk);
    [apply Hok|by apply (bg_ok_len info aux Hge)|lia|lia|lia|]. rewrite Z.add_0_r, Z2Nat.id in Hmk by lia.
  eexists. split; [|split; [|split; [|split; [|split]]]].
  - unfold reserve_inodes. assert (Hg : get_free_inodes (Z.of_nat i) s = Ok (bg_free_inodes bg) s)
      by (unfold get_free_inodes; by run (get_bg_ok s i bg Hi)). run Hg. rewrite (proj2 (Z.ltb_ge _ _)) by lia. run (get_bg_ok s i bg Hi).
    assert (Hl : lift (mark_inodes info (Z.to_nat num) (bitmaps bg) (first_free_inode bg) 0) s = Ok bm s) by (unfold lift; by rewrite Hm).
    run Hl. run (put_bg_ok s i). by rewrite !u32_small by (unfold is_u32; lia).
  - split; try done; cbn; [apply Hmk|intros _; apply Hmk|]. intros j Hj. rewrite (mk_bits _ _ _ _ Hmk) by lia.
    destruct (Z.leb_spec (8 * bs + (first_free_inode bg - 1)) j); [lia|done].
  - split; cbn; [lia|lia|]. intros j Hj. rewrite (mk_bits _ _ _ _ Hmk), Hb by lia.
    destruct (Z.leb_spec (8 * bs + (first_free_inode bg - 1)) (8 * bs + j)), (Z.ltb_spec (8 * bs + j) (8 * bs + (first_free_inode bg - 1) + num)),
      (Z.ltb_spec j (first_free_inode bg - 1)), (Z.ltb_spec j (first_free_inode bg + num - 1)); try done; lia.
  - done.
  - done.
  - exact Hmk.
Qed.

(** What handing out inode number [n] changes. *)
Record inode_taken (s : fs) (n : Z) (s' : fs) : Prop := {
  it_blocks : same_blocks s s';
  it_bgs : Forall inode_bg (bgs s');
  it_fresh : ~ used_inode s n;
  it_used : forall m, used_inode s' m <-> used_inode s m \/ m = n;
  it_range : 0 < n <= groups aux * ipg;
  it_free : free_inodes s' = free_inodes s - 1;
  it_rest : same_rest s s' /\ heap s' = heap s
}.

Lemma used_inode_at s i bg n : bgs s !! i = Some bg -> Z.of_nat i * ipg < n <= (Z.of_nat i + 1) * ipg ->
  used_inode s n <-> bit (bitmaps bg) (8 * bs + (n - 1 - Z.of_nat i * ipg)) = true.
Proof.
  intros Hi Hn. split; [|by exists i, bg]. intros (k & bg' & Hk & Hn' & Hb). assert (k = i) as -> by nia. congruence.
Qed.

Lemma inode_taken_intro s i bg bg' : fs_ok info aux s -> Forall inode_bg (bgs s) -> bgs s !! i = Some bg -> 0 < bg_free_inodes bg ->
  keep_blocks bg bg' -> inode_bg bg' -> first_free_inode bg' = first_free_inode bg + 1 ->
  marked (bitmaps bg) (bitmaps bg') (8 * bs + (first_free_inode bg - 1)) (8 * bs + (first_free_inode bg - 1) + 1) ->
  inode_taken s (Z.of_nat i * ipg + first_free_inode bg) (set_bg s i bg').
Proof.
  intros Hs Hall Hi Hfree Hkb Hbg' Hfi Hm. set (n := Z.of_nat i * ipg + first_free_inode bg).
  pose proof (Forall_lookup_1 _ _ _ _ Hall Hi) as [Hf Hn Hb]. pose proof (ig_ipg Hig).
  assert (Hrange : Z.of_nat i * ipg < n <= (Z.of_nat i + 1) * ipg) by (unfold n; lia).
  assert (Hi' : bgs (set_bg s i bg') !! i = Some bg') by (by apply (set_bg_lookup s i bg)).
  split; try done.
  - by apply (same_blocks_set_bg s i bg).
  - by apply Forall_insert.
  - rewrite (used_inode_at s i bg n Hi Hrange). replace (n - 1 - Z.of_nat i * ipg) with (first_free_inode bg - 1) by (unfold n; lia).
    rewrite Hb by lia. by rewrite Z.ltb_irrefl.
  - intros m. destruct (decide (Z.of_nat i * ipg < m <= (Z.of_nat i + 1) * ipg)) as [Hmr|Hmr].
    + rewrite (used_inode_at _ i bg' m Hi' Hmr), (used_inode_at s i bg m Hi Hmr), (mk_bits _ _ _ _ Hm), orb_true_iff by lia.
      rewrite andb_true_iff, Z.leb_le, Z.ltb_lt. unfold n. split; [intros [?|?]; [right; lia|by left]|intros [?|?]; [by right|left; lia]].
    + assert (Hother : forall k x, k <> i -> bgs (set_bg s i bg') !! k = Some x <-> bgs s !! k = Some x)
        by (intros k x Hk; cbn; by rewrite list_lookup_insert_ne by congruence).
      split.
      * intros (k & x & Hk & Hx & Hbit). left. assert (k <> i) by (intros ->; done). exists k, x. by rewrite <- Hother.
      * intros [(k & x & Hk & Hx & Hbit)| ->]; [|lia]. assert (k <> i) by (intros ->; done). exists k, x. by rewrite Hother.
  - apply lookup_lt_Some in Hi. rewrite (fo_groups _ _ _ Hs) in Hi. unfold n. nia.
  - unfold free_inodes. cbn [set_bg bgs]. pose proof (ib_free _ Hbg') as Hf'. clear -Hi Hf' Hn Hfi. revert i Hi.
    induction (bgs s) as [|x l IH]; intros [|i] Hi; cbn in Hi; try discriminate.
    + injection Hi as ->. cbn. lia.
    + change (<[S i := bg']> (x :: l)) with (x :: <[i := bg']> l). rewrite !fmap_cons. cbn [foldr]. rewrite (IH i Hi). lia.
Qed.

Lemma allocate_inode_loop_ok k : forall n s, (n + k = Z.to_nat (groups aux))%nat -> fs_ok info aux s -> Forall inode_bg (bgs s) ->
  Forall (fun bg => bg_free_inodes bg <= 0) (take n (bgs s)) -> 0 < free_inodes s ->
  exists m s', allocate_inode_loop info (seq n k) s = Ok m s' /\ inode_taken s m s'.
Proof.
  induction k as [|k IH]; intros n s Hnk Hs Hall Hnone Hfree; cbn [seq allocate_inode_loop].
  { rewrite take_ge in Hnone by (rewrite (fo_groups _ _ _ Hs); lia). exfalso. unfold free_inodes in Hfree.
    pose proof (sum_le_0 (bg_free_inodes <$> bgs s)) as Hle. rewrite Forall_fmap in Hle. specialize (Hle Hnone). lia. }
  destruct (lookup_lt_is_Some_2 (bgs s) n) as [bg Hi]; [rewrite (fo_groups _ _ _ Hs); lia|].
  destruct (fo_bg _ _ _ Hs n bg Hi) as [Hok _]. pose proof (Forall_lookup_1 _ _ _ _ Hall Hi) as Hib. pose proof (ge_bs _ _ Hge). pose proof (ig_ipg Hig).
  pose proof (ib_first _ Hib). destruct (Z.leb_spec (bg_free_inodes bg) 0) as [Hz|Hpos].
  - assert (Hr : reserve_inodes info (Z.of_nat n) 1 s = Ok EXT4_ALLOCATE_FAILED s).
    { unfold reserve_inodes. assert (Hg : get_free_inodes (Z.of_nat n) s = Ok (bg_free_inodes bg) s)
        by (unfold get_free_inodes; by run (get_bg_ok s n bg Hi)). run Hg. by rewrite (proj2 (Z.ltb_lt _ _)) by lia. }
    run Hr. rewrite Z.eqb_refl. cbn [negb]. apply (IH (S n)); [lia|done|done| |done].
    rewrite (take_S_r _ _ _ Hi). apply Forall_app. split; [done|]. by constructor.
  - destruct (reserve_inodes_ok s n bg 1 Hi Hok Hib ltac:(lia)) as (bg' & Hr & Hkb & Hib' & _ & Hfi & Hm). run Hr.
    rewrite (proj2 (Z.eqb_neq _ _)) by (unfold EXT4_ALLOCATE_FAILED; lia). cbn [negb].
    assert (Hn : Z.of_nat n * ipg + first_free_inode bg <= groups aux * ipg).
    { apply lookup_lt_Some in Hi. rewrite (fo_groups _ _ _ Hs) in Hi. pose proof (ib_free _ Hib). nia. }
    pose proof (ig_count Hig). rewrite u32_small by (unfold is_u32; nia).
    exists (Z.of_nat n * ipg + first_free_inode bg), (set_bg s n bg'). split; [done|]. by apply (inode_taken_intro s n bg).
Qed.

Lemma allocate_inode_ok s : fs_ok info aux s -> Forall inode_bg (bgs s) -> 0 < free_inodes s ->
  exists m s', allocate_inode info aux s = Ok m s' /\ inode_taken s m s'.
Proof. intros Hs Hall Hf. apply (allocate_inode_loop_ok (Z.to_nat (groups aux)) 0); [lia|done|done|constructor|done]. Qed.

(** ** The filesystem under construction *)

Definition table_block (bg : block_group_info) : Z :=
  u32 (bg_first_block bg + 2 + (if has_superblock bg then super_blocks info aux else 0)).

(** The inode a number stands for. *)
Definition inode_at (n : Z) : inode_ptr := ((n - 1) / ipg, (n - 1) mod ipg).

Lemma inode_at_inj n m : 0 < ipg -> inode_at n = inode_at m -> n = m.
Proof. intros Hip [=Hd Hm]. pose proof (Z.div_mod (n - 1) ipg ltac:(lia)). pose proof (Z.div_mod (m - 1) ipg ltac:(lia)). nia. Qed.

Record image_ok (s : fs) : Prop := {
  im_fs : fs_ok info aux s;
  im_inodes : Forall inode_bg (bgs s);
  im_tables : Forall (fun bg => used info s (table_block bg)) (bgs s);
  im_bodies : forall p, blen (i_block (default zero_inode (inodes s !! p))) = EXT4_BLOCK_BYTES;
  im_unused : forall n, 0 < n -> ~ used_inode s n -> inodes s !! inode_at n = None;
  im_zero : first_data_block aux = 0 -> used info s 0;
  im_queue : forall e, e ∈ ext4_sparse_file s -> used info s (queued_block e)
}.

(** What [get_inode] and [add_directory] may do: queue inode tables. *)
Record prepared (s s' : fs) (q : list queued) : Prop := {
  pr_image : image_ok s';
  pr_blocks : same_blocks s s';
  pr_inodes : same_inodes s s';
  pr_queue : ext4_sparse_file s' = ext4_sparse_file s ++ q;
  pr_tables : forall e, e ∈ q -> used info s (queued_block e) /\ exists g, (piece e).1.1.1 = inl (BgInodeTable g);
  pr_rest : heap s' = heap s /\ xattrs s' = xattrs s /\ inodes s' = inodes s /\ bufs s' = bufs s
}.

Lemma table_block_keep bg bg' : bg_first_block bg' = bg_first_block bg -> has_superblock bg' = has_superblock bg -> table_block bg' = table_block bg.
Proof. unfold table_block. by intros -> ->. Qed.

(** The state with group [i] changed and [q] queued. *)
Definition regroup (s : fs) (i : nat) (bg : block_group_info) (q : list queued) : fs :=
  mk_fs (<[i := bg]> (bgs s)) (heap s) (ext4_sparse_file s ++ q) (xattrs s) (inodes s) (bufs s).

Lemma prepared_regroup s i bg bg' q : image_ok s -> bgs s !! i = Some bg -> keep_blocks bg bg' -> keep_inodes bg bg' ->
  (forall e, e ∈ q -> used info s (queued_block e) /\ exists g, (piece e).1.1.1 = inl (BgInodeTable g)) -> prepared s (regroup s i bg' q) q.
Proof.
  intros [If Ii It Ib In Iz Iq] Hi Hkb Hki Hq. pose proof (same_blocks_set_bg s i bg bg' Hi Hkb) as Hsb.
  pose proof (same_inodes_set_bg s i bg bg' Hi Hki) as Hsi.
  assert (Hu : forall x, used info (regroup s i bg' q) x <-> used info s x) by (intros x; by apply (same_blocks_used s (set_bg s i bg'))).
  split; try done. split.
  - by apply (fs_ok_bgs info aux (set_bg s i bg')), (same_blocks_fs_ok s).
  - by apply (same_inodes_bg s (set_bg s i bg')).
  - cbn. apply Forall_insert.
    + eapply Forall_impl; [exact It|]. intros x Hx. by apply Hu.
    + apply Hu. rewrite (table_block_keep bg bg') by apply Hkb. by apply (Forall_lookup_1 _ _ _ _ It Hi).
  - done.
  - intros n Hn Hun. apply In; [done|]. intros Hus. apply Hun. by apply (same_inodes_used s (set_bg s i bg')).
  - intros Hz. by apply Hu, Iz.
  - intros e. cbn. rewrite elem_of_app. intros [He|He]; apply Hu; [by apply Iq|by apply Hq].
Qed.

Lemma group_of n : 0 < n <= groups aux * ipg -> 0 <= (n - 1) / ipg < groups aux.
Proof. intros Hn. pose proof (ig_ipg Hig). split; [apply Z.div_pos; lia|apply Z.div_lt_upper_bound; lia]. Qed.

Lemma get_inode_ok s n : image_ok s -> 0 < n <= groups aux * ipg ->
  exists q s', get_inode info aux n s = Ok (inode_at n) s' /\ prepared s s' q.
Proof.
  intros Him Hn. pose proof (ig_ipg Hig). pose proof (ig_count Hig). pose proof (group_of n Hn) as Hg. pose proof (ge_groups _ _ Hge).
  unfold get_inode. rewrite (u32_small (n - 1)), (s32_small ((n - 1) / ipg)) by (unfold is_u32; lia).
  destruct (Z_of_nat_complete ((n - 1) / ipg)) as [i Hi]; [lia|]. unfold inode_at. rewrite Hi.
  destruct (lookup_lt_is_Some_2 (bgs s) i) as [bg Hbg]; [rewrite (fo_groups _ _ _ (im_fs _ Him)); lia|].
  unfold allocate_bg_inode_table. destruct (inode_table bg) eqn:Ht.
  - exists [], s. split; [erewrite bind_Ok; [done|]; run (get_bg_ok s i bg Hbg); by rewrite Ht|].
    assert (Hs : s = regroup s i bg []) by (destruct s; unfold regroup; cbn in *; by rewrite list_insert_id, app_nil_r).
    rewrite Hs at 2. apply (prepared_regroup s i bg); [done|done|reflexivity|by split|by intros e He%not_elem_of_nil].
  - set (q := QData (BgInodeTable (Z.of_nat i)) 0 (u32 (inode_table_blocks aux * bs)) (table_block bg)).
    eexists [q], (regroup s i _ [q]). split.
    + erewrite bind_Ok; [done|]. run (get_bg_ok s i bg Hbg). rewrite Ht. erewrite (bind_Ok (queue _)) by reflexivity. rewrite put_bg_ok. reflexivity.
    + apply (prepared_regroup s i bg); [done|done|by split|by split|]. intros e He. apply list_elem_of_singleton in He as ->.
      split; [|by eexists]. by apply (Forall_lookup_1 _ _ _ _ (im_tables _ Him) Hbg).
Qed.

Lemma add_directory_ok s n : image_ok s -> 0 < n <= groups aux * ipg ->
  exists s', add_directory info n s = Ok tt s' /\ prepared s s' [].
Proof.
  intros Him Hn. pose proof (ig_ipg Hig). pose proof (ig_count Hig). pose proof (group_of n Hn) as Hg. pose proof (ge_groups _ _ Hge).
  unfold add_directory. rewrite (u32_small (n - 1)), (s32_small ((n - 1) / ipg)) by (unfold is_u32; lia).
  destruct (Z_of_nat_complete ((n - 1) / ipg)) as [i Hi]; [lia|]. rewrite Hi.
  destruct (lookup_lt_is_Some_2 (bgs s) i) as [bg Hbg]; [rewrite (fo_groups _ _ _ (im_fs _ Him)); lia|].
  run (get_bg_ok s i bg Hbg). rewrite put_bg_ok. eexists. split; [done|].
  assert (Hs : forall x, set_bg s i x = regroup s i x []) by (intros x; unfold set_bg, regroup; by rewrite app_nil_r).
  rewrite Hs. apply (prepared_regroup s i bg); [done|done|by split|by split|by intros e He%not_elem_of_nil].
Qed.

Lemma prepared_trans s s1 s2 q1 q2 : prepared s s1 q1 -> prepared s1 s2 q2 -> prepared s s2 (q1 ++ q2).
Proof.
  intros [A1 A2 A3 A4 A5 (A6 & A7 & A8 & A9)] [B1 B2 B3 B4 B5 (B6 & B7 & B8 & B9)]. split; [done|by transitivity s1|by transitivity s1| | |split_and!; congruence].
  - by rewrite B4, A4, app_assoc.
  - intros e He. apply elem_of_app in He as [He|He]; [by apply A5|]. destruct (B5 e He) as [Hu Hg]. split; [|done]. by apply (same_blocks_used s s1).
Qed.

(** ** Files made in several steps *)

(** A step that leaves blocks, inodes in memory and buffers alone and queues
    inode tables only. *)
Record calm (s s' : fs) (q : list queued) : Prop := {
  ca_blocks : same_blocks s s';
  ca_queue : ext4_sparse_file s' = ext4_sparse_file s ++ q;
  ca_tables : forall e, e ∈ q -> used info s (queued_block e) /\ exists g, (piece e).1.1.1 = inl (BgInodeTable g);
  ca_inodes : inodes s' = inodes s;
  ca_bufs : bufs s' = bufs s
}.

Lemma prepared_calm s s' q : prepared s s' q -> calm s s' q.
Proof. intros [_ Pb _ Pq Pt (_ & _ & Pi & Pu)]. by split. Qed.

Lemma inode_taken_calm s n s' : inode_taken s n s' -> calm s s' [].
Proof. intros [Tb _ _ _ _ _ [(Rq & _ & Ri & Ru) _]]. split; try done; [by rewrite app_nil_r|by intros e He%not_elem_of_nil]. Qed.

Lemma calm_trans s s1 s2 q1 q2 : calm s s1 q1 -> calm s1 s2 q2 -> calm s s2 (q1 ++ q2).
Proof.
  intros [A1 A2 A3 A4 A5] [B1 B2 B3 B4 B5]. split; [by transitivity s1|by rewrite B2, A2, app_assoc| |congruence..].
  intros e He. apply elem_of_app in He as [He|He]; [by apply A3|]. destruct (B3 e He) as [Hu Hg]. split; [|done]. by apply (same_blocks_used s s1).
Qed.

Lemma stored_calm s s1 s2 q0 q p len src : calm s s1 q0 -> (forall g, src <> inl (BgInodeTable g)) -> stored info aux s1 p len src q s2 ->
  stored info aux s p len src (q0 ++ q) s2.
Proof.
  intros [Cb Cq Ct Ci Cu] Hsrc [Sok Sq (es & E1 & E2 & E3 & E4 & E5) Slf Squ Sto Sin Sbu Smo Sbo Ssi Sot].
  assert (Hu : forall x, used info s1 x <-> used info s x) by (intros x; by apply same_blocks_used).
  split; try done.
  - by rewrite Sq, Cq, app_assoc.
  - exists es. split_and!; try done.
    + intros x Hx. rewrite <- Hu. by apply E4.
    + intros k Hk. destruct (E5 k Hk) as (b & Hb & Hp). exists b. split; [done|]. rewrite place_skip; [done|]. intros e He.
      destruct (Ct e He) as [_ [g ->]]. intros Heq. by apply (Hsrc g).
  - by rewrite <- Cu.
  - intros e He. apply elem_of_app in He as [He|He].
    + destruct (Ct e He) as [Hx Hg]. split; [|done]. by apply Smo, Hu.
    + destruct (Squ e He) as [Hx Hg]. split; [done|]. intros Hy. by apply Hg, Hu.
  - by rewrite <- (same_blocks_total s s1).
  - intros p' Hp. by rewrite Sin, Ci.
  - intros n d Hd. apply Sbu. by rewrite Cu.
  - intros x Hx. by apply Smo, Hu.
  - intros p' es' Hp Hes. apply Sot; [done|]. apply (inode_extents_mono s s1 q0); [by rewrite Ci|by rewrite Cu|done|done].
Qed.

(** Later changes to the inode's other fields. *)
Lemma stored_inode s s1 s2 q p len src : stored info aux s p len src q s1 -> bgs s2 = bgs s1 -> ext4_sparse_file s2 = ext4_sparse_file s1 -> bufs s2 = bufs s1 ->
  (forall p', p' <> p -> inodes s2 !! p' = inodes s1 !! p') ->
  let i1 := default zero_inode (inodes s1 !! p) in let i2 := default zero_inode (inodes s2 !! p) in
  i_block i2 = i_block i1 -> i_size_lo i2 = i_size_lo i1 -> i_size_high i2 = i_size_high i1 -> stored info aux s p len src q s2.
Proof.
  intros [Sok Sq (es & E1 & E2 & E3 & E4 & E5) Slf Squ Sto Sin Sbu Smo Sbo Ssi Sot] Hb Hq Hbu Hin i1 i2 Hbl Hlo Hhi.
  assert (Hu : forall x, used info s2 x <-> used info s1 x) by (intros x; by apply used_bgs).
  split.
  - by apply (fs_ok_bgs info aux s1).
  - congruence.
  - exists es. split_and!; try done.
    + revert E1. unfold inode_extents. fold i1 i2. by rewrite Hbl, Hbu, Hq.
    + intros x Hx. rewrite Hu. by apply E4.
  - destruct Slf as (es' & kb & He & Hby & Hk). assert (Hby2 : extents_by kb s2 p es') by (apply (extents_by_trans kb s1 s2 []); [done|done|by rewrite app_nil_r|by rewrite Hbu]).
    exists es', kb. split; [by eapply extents_by_now|]. split; [done|]. by rewrite Hbu.
  - intros e He. rewrite Hu. by apply Squ.
  - unfold total_free, frees in *. by rewrite Hb.
  - intros p' Hp. by rewrite Hin, Sin.
  - by rewrite Hbu.
  - intros x Hx. by apply Hu, Smo.
  - fold i2. by rewrite Hbl.
  - fold i2. by rewrite Hlo, Hhi.
  - intros p' es' Hp Hes. specialize (Sot p' es' Hp Hes). revert Sot. unfold inode_extents. by rewrite Hin, Hbu, Hq.
Qed.

(** The invariant after a file was stored. *)
Lemma stored_image s s1 q n len src : image_ok s -> used_inode s n -> stored info aux s (inode_at n) len src q s1 -> keeps info s s1 -> image_ok s1.
Proof.
  intros [If Ii It Ib In Iz Iq] Hun [Sok Sq _ _ Squ _ Sin _ Smo Sbo _ _] Hke. pose proof (keeps_same_inodes s s1 Hke) as Hsi. split.
  - done.
  - by apply (same_inodes_bg s).
  - apply Forall_lookup_2. intros i bg' Hi. destruct (Forall2_lookup_r _ _ _ _ _ Hke Hi) as (bg & Hbg & Hk).
    apply Smo. rewrite (table_block_keep bg bg') by apply Hk. by apply (Forall_lookup_1 _ _ _ _ It Hbg).
  - intros p. destruct (decide (p = inode_at n)) as [->|Hne]; [done|]. by rewrite Sin.
  - intros m Hm Hnu. rewrite (same_inodes_used s s1 m Hsi) in Hnu.
    rewrite Sin; [by apply In|]. intros Heq. pose proof (ig_ipg Hig). apply inode_at_inj in Heq as ->; [done|lia].
  - intros Hz. by apply Smo, Iz.
  - intros e. rewrite Sq, elem_of_app. intros [He|He]; [by apply Smo, Iq|by apply Squ].
Qed.

Lemma inode_taken_image s n s' : image_ok s -> inode_taken s n s' -> image_ok s'.
Proof.
  intros [If Ii It Ib In Iz Iq] [Tb Tg _ Tu _ _ [(Rq & Rx & Ri & Ru) Rh]].
  assert (Hu : forall x, used info s' x <-> used info s x) by (intros x; by apply same_blocks_used).
  split.
  - by apply (same_blocks_fs_ok s).
  - done.
  - apply Forall_lookup_2. intros i bg' Hi. destruct (Forall2_lookup_r _ _ _ _ _ Tb Hi) as (bg & Hbg & Hk).
    apply Hu. rewrite (table_block_keep bg bg') by apply Hk. by apply (Forall_lookup_1 _ _ _ _ It Hbg).
  - intros p. by rewrite Ri.
  - intros m Hm Hun. rewrite Ri. apply In; [done|]. intros Hus. apply Hun, Tu. by left.
  - intros Hz. by apply Hu, Iz.
  - intros e. rewrite Rq. intros He. by apply Hu, Iq.
Qed.
End Inodes.

(** ** A new filesystem *)

Section NewImage.
Context (force : bool) (info : fs_info) (aux : fs_aux_info) (Hge : geometry info aux) (Hla : layout info aux) (Hig : inode_geometry info aux).
Context (Htab : 0 < inode_table_blocks aux) (Hgr : 0 < groups aux).

Lemma header_used g b s : (forall b, used info s b <-> reserved info aux b) -> 0 <= g < groups aux ->
  group_start info aux g <= b < group_start info aux g + header info aux g -> used info s b.
Proof.
  intros Hu Hg Hb. apply Hu. exists g. pose proof (la_header _ _ Hla g Hg) as Hh. unfold group_size in Hh. split_and!; [lia..|]. left. lia.
Qed.

Lemma new_image_ok s : ext4_sparse_file s = [] -> inodes s = ∅ ->
  exists s', block_allocator_init force info aux s = Ok tt s' /\ image_ok info aux s' /\ (forall b, used info s' b <-> reserved info aux b) /\
    (forall n, ~ used_inode info s' n) /\ free_inodes s' = groups aux * inodes_per_group info /\ (exists bg, bgs s' !! 0%nat = Some bg /\ first_free_inode bg = 1).
Proof.
  intros Hq Hi. destruct (block_allocator_init_ok force info aux Hge Hla s) as (s' & Hr & Hok & Hu & Hq' & Hh & Hi' & Hall).
  pose proof (ig_ipg _ _ Hig) as Hipg. pose proof (la_super _ _ Hla) as Hsup. pose proof (ge_bpg _ _ Hge). pose proof (ge_end _ _ Hge). pose proof (ge_first _ _ Hge).
  assert (Hst : forall g, 0 <= g < groups aux -> 0 <= group_start info aux g /\ group_start info aux g + blocks_per_group info < 2 ^ 32)
    by (intros g Hg; unfold group_start; nia).
  assert (Hidx : forall i bg, bgs s' !! i = Some bg -> 0 <= Z.of_nat i < groups aux).
  { intros i bg Hbg. apply lookup_lt_Some in Hbg. rewrite (fo_groups _ _ _ Hok) in Hbg. lia. }
  assert (Hib : forall i bg, bgs s' !! i = Some bg -> inode_bg info bg).
  { intros i bg Hbg. destruct (Hall i bg Hbg) as [_ _ _ _ [Hf1 Hf2] _ Hbits]. split; [lia|lia|]. intros j Hj. rewrite Hbits by lia.
    symmetry. apply Z.ltb_ge. lia. }
  exists s'. split_and!; [done| |done| | |].
  - split; [done|by apply Forall_lookup_2| | | | |].
    + apply Forall_lookup_2. intros i bg Hbg. destruct (Hall i bg Hbg) as [_ Hfb _ _ _ Hs _]. pose proof (Hidx i bg Hbg) as Hg.
      pose proof (la_header _ _ Hla _ Hg) as Hhd. pose proof (Hst _ Hg). unfold group_size in Hhd. unfold table_block. rewrite Hfb, Hs.
      assert (Hlt : 2 + (if ext4_bg_has_super_block info (Z.of_nat i) then super_blocks info aux else 0) < header info aux (Z.of_nat i))
        by (unfold header; lia).
      assert (0 <= (if ext4_bg_has_super_block info (Z.of_nat i) then super_blocks info aux else 0)) by (destruct (ext4_bg_has_super_block info _); lia).
      rewrite u32_small by (unfold is_u32; lia). apply (header_used (Z.of_nat i)); [done|done|lia].
    + intros p. by rewrite Hi', Hi, lookup_empty.
    + intros n _ _. by rewrite Hi', Hi, lookup_empty.
    + intros Hz. apply (header_used 0); [done|lia|]. pose proof (Hst 0 ltac:(lia)). unfold group_start, header.
      destruct (ext4_bg_has_super_block info 0); lia.
    + intros e. rewrite Hq', Hq. intros He. apply list_elem_of_fmap in He as (i & -> & Hin). apply elem_of_seq in Hin. unfold bitmaps_at. cbn.
      apply (header_used (Z.of_nat i)); [done|lia|]. unfold header. destruct (ext4_bg_has_super_block info (Z.of_nat i)); lia.
  - intros n (i & bg & Hbg & Hn & Hbit). rewrite (ib_bits _ _ (Hib i bg Hbg)) in Hbit by lia. destruct (Hall i bg Hbg) as [_ _ _ _ [_ Hf2] _ _].
    rewrite Hf2 in Hbit. apply Z.ltb_lt in Hbit. lia.
  - unfold free_inodes. assert (bg_free_inodes <$> bgs s' = replicate (Z.to_nat (groups aux)) (inodes_per_group info)) as ->.
    { symmetry. apply replicate_as_elem_of. split; [by rewrite length_fmap, (fo_groups _ _ _ Hok)|]. intros x Hx. apply list_elem_of_fmap in Hx as (bg & -> & Hx).
      apply list_elem_of_lookup in Hx as (i & Hbg). by apply (ng_inodes _ _ _ _ (Hall i bg Hbg)). }
    assert (Hsum : forall n x, foldr Z.add 0 (replicate n x) = Z.of_nat n * x) by (induction n as [|n IH]; intros x; [done|]; cbn [replicate foldr]; rewrite IH; lia).
    rewrite Hsum. lia.
  - destruct (lookup_lt_is_Some_2 (bgs s') 0) as [bg Hbg]; [rewrite (fo_groups _ _ _ Hok); lia|]. exists bg. split; [done|]. apply (Hall 0%nat bg Hbg).
Qed.
End NewImage.

(** The first ten inodes. *)
Lemma first_ten_ok info aux s bg : geometry info aux -> inode_geometry info aux -> 10 <= inodes_per_group info -> image_ok info aux s ->
  (forall n, ~ used_inode info s n) -> bgs s !! 0%nat = Some bg -> first_free_inode bg = 1 ->
  exists s', reserve_inodes info 0 10 s = Ok 1 s' /\ image_ok info aux s' /\ (forall n, used_inode info s' n <-> 0 < n <= 10) /\
    same_blocks info s s' /\ free_inodes s' = free_inodes s - 10 /\ same_rest s s' /\ heap s' = heap s.
Proof.
  intros Hge Hig H10 Him Hno Hbg Hfi.
  pose proof (Forall_lookup_1 _ _ _ _ (im_inodes _ _ _ Him) Hbg) as Hib. destruct (fo_bg _ _ _ (im_fs _ _ _ Him) 0%nat bg Hbg) as [Hok _].
  pose proof (ib_free _ _ Hib) as Hfree. pose proof (ig_ipg _ _ Hig).
  destruct (reserve_inodes_ok info aux Hge Hig s 0 bg 10 Hbg Hok Hib ltac:(lia)) as (bg' & Hrun & Hkb & Hib' & _ & Hfi' & Hm).
  rewrite Hfi in *. change (Z.of_nat 0) with 0 in Hrun. exists (set_bg s 0 bg'). split; [exact Hrun|].
  pose proof (same_blocks_set_bg info s 0 bg bg' Hbg Hkb) as Hsb. assert (Hu : forall x, used info (set_bg s 0 bg') x <-> used info s x)
    by (intros x; by apply (same_blocks_used info aux Hge)). assert (Hbg' : bgs (set_bg s 0 bg') !! 0%nat = Some bg') by (by apply (set_bg_lookup s 0 bg)).
  destruct Him as [If Ii It Ib In Iz Iq]. assert (Hun : forall n, used_inode info s n -> used_inode info (set_bg s 0 bg') n) by (by intros n ?%Hno).
  split; [split|split; [|split; [done|split; [|done]]]].
  - by apply (same_blocks_fs_ok info aux Hge s).
  - by apply Forall_insert.
  - cbn. apply Forall_insert; [eapply Forall_impl; [exact It|]; intros x Hx; by apply Hu|]. apply Hu.
    rewrite (table_block_keep info aux bg bg') by apply Hkb. by apply (Forall_lookup_1 _ _ _ _ It Hbg).
  - done.
  - intros n Hn Hun'. apply In; [done|]. by intros ?%Hun.
  - intros Hz. by apply Hu, Iz.
  - intros e He. by apply Hu, Iq.
  - intros n. split.
    + intros (k & x & Hk & Hn & Hbit). destruct (lookup_set_bg s 0 bg bg' k x Hbg Hk) as [[-> ->]|[_ Hx]].
      * rewrite (ib_bits _ _ Hib') in Hbit by lia. apply Z.ltb_lt in Hbit. lia.
      * exfalso. apply (Hno n). by exists k, x.
    + intros Hn. exists 0%nat, bg'. split; [done|]. split; [lia|]. rewrite (ib_bits _ _ Hib') by lia. apply Z.ltb_lt. lia.
  - pose proof (ib_free _ _ Hib') as Hfree'. unfold free_inodes. cbn. destruct (bgs s) as [|b0 l]; [done|]. injection Hbg as ->. cbn. lia.
Qed.

Lemma first_inodes_ok force info aux s : geometry info aux -> layout info aux -> inode_geometry info aux ->
  0 < inode_table_blocks aux -> 0 < groups aux -> 10 <= inodes_per_group info -> ext4_sparse_file s = [] -> inodes s = ∅ ->
  exists s', (_ ← block_allocator_init force info aux; reserve_inodes info 0 10) s = Ok 1 s' /\ image_ok info aux s' /\
    forall n, used_inode info s' n <-> 0 < n <= 10.
Proof.
  intros Hge Hla Hig Htab Hgr H10 Hq Hi. destruct (new_image_ok force info aux Hge Hla Hig Htab Hgr s Hq Hi)
    as (s1 & Hr & Him & _ & Hno & _ & bg & Hbg & Hfi). run Hr.
  destruct (first_ten_ok info aux s1 bg Hge Hig H10 Him Hno Hbg Hfi) as (s' & Hrun & Him' & Hu & _). by exists s'.
Qed.

(** ** Theorems *)

(** Inode numbers are handed out once: while inodes are left,
    [allocate_inode] returns a number that was not in use, marks exactly this
    number as used and keeps the invariant of the image. *)
Theorem allocate_inode_fresh info aux s : geometry info aux -> inode_geometry info aux -> image_ok info aux s -> 0 < free_inodes s ->
  exists n s', allocate_inode info aux s = Ok n s' /\ image_ok info aux s' /\ 0 < n <= groups aux * inodes_per_group info /\
    ~ used_inode info s n /\ (forall m, used_inode info s' m <-> used_inode info s m \/ m = n) /\ free_inodes s' = free_inodes s - 1.
Proof.
  intros Hge Hig Him Hf. destruct (allocate_inode_ok info aux Hge Hig s (im_fs _ _ _ Him) (im_inodes _ _ _ Him) Hf) as (n & s' & Hr & Ht).
  exists n, s'. split; [done|]. split; [by apply (inode_taken_image info aux Hge s n)|]. split_and!; apply Ht.
Qed.

(** The start of an image: [block_allocator_init] and the reservation of
    the first ten inodes establish the invariant of the image, with exactly
    the inodes 1 to 10 in use. *)
Theorem first_inodes_reserved force info aux s : geometry info aux -> layout info aux -> inode_geometry info aux ->
  0 < inode_table_blocks aux -> 0 < groups aux -> 10 <= inodes_per_group info -> ext4_sparse_file s = [] -> inodes s = ∅ ->
  exists s', (_ ← block_allocator_init force info aux; reserve_inodes info 0 10) s = Ok 1 s' /\ image_ok info aux s' /\
    forall n, used_inode info s' n <-> 0 < n <= 10.
Proof. apply first_inodes_ok. Qed.

(** ** Examples *)

Module Ext4InodeWitnesses.
Import Ext4Witnesses.

(** 200 blocks of 2048 bytes, 16 inodes in each of four groups. *)
Definition info1 : fs_info := mk_info (2048 * 200) 2048 64 16 256 1 2.
Definition aux1 : fs_aux_info := ext4_create_fs_aux_info info1.
Definition fs10 : fs := match (_ ← block_allocator_init false info1 aux1; reserve_inodes info1 0 10) fs0 with Ok _ s => s | _ => fs0 end.

Lemma info1_ok : parameters_ok info1.
Proof. split; vm_compute; intuition congruence. Qed.
Lemma info1_layout : geometry info1 aux1 /\ layout info1 aux1.
Proof. exact (aux_info_layout info1 info1_ok). Qed.
Lemma info1_inodes : inode_geometry info1 aux1.
Proof. split; vm_compute; intuition congruence. Qed.

Lemma fs10_image : image_ok info1 aux1 fs10 /\ forall n, used_inode info1 fs10 n <-> 0 < n <= 10.
Proof.
  destruct info1_layout as [Hge Hla]. destruct (first_inodes_ok false info1 aux1 fs0 Hge Hla info1_inodes eq_refl eq_refl ltac:(done) eq_refl eq_refl) as (s' & Hr & Him & Hu).
  assert (fs10 = s') as -> by (unfold fs10; rewrite Hr; reflexivity). split; [exact Him|exact Hu].
Qed.

Lemma fs10_left : free_inodes fs10 = 54 /\ total_free fs10 = 172.
Proof. split; vm_compute; reflexivity. Qed.

Lemma allocate_inode_fresh_witness : exists n s', allocate_inode info1 aux1 fs10 = Ok n s' /\ 10 < n.
Proof.
  destruct fs10_left as [Hf _]. destruct (allocate_inode_fresh info1 aux1 fs10 (proj1 info1_layout) info1_inodes (proj1 fs10_image) ltac:(rewrite Hf; done))
    as (n & s' & Hr & _ & Hn & Hfr & _). exists n, s'. split; [exact Hr|]. rewrite (proj2 fs10_image n) in Hfr. lia.
Defined.

Lemma first_inodes_reserved_witness : exists s', (_ ← block_allocator_init false info1 aux1; reserve_inodes info1 0 10) fs0 = Ok 1 s' /\ used_inode info1 s' 2.
Proof.
  destruct info1_layout as [Hge Hla]. destruct (first_inodes_reserved false info1 aux1 fs0 Hge Hla info1_inodes eq_refl eq_refl ltac:(done) eq_refl eq_refl) as (s' & Hr & Him & Hu).
  exists s'. split; [exact Hr|]. apply Hu. lia.
Defined.
End Ext4InodeWitnesses.
