(* ===== verification/Ext4Indirect.v ===== *)
(** * Indirect blocks of ext4 inodes (ext4_utils: indirect.c)

    The mapping by direct, indirect, doubly and triply indirect blocks, which
    the image builder uses for long symbolic links and for the resize inode.
    An allocation is passed on as the routines leave it. *)
From S2P Require Import Prelude Ext4Alloc Ext4Extent.

Definition EXT4_NDIR_BLOCKS : Z := 12.
Definition EXT4_IND_BLOCK : Z := EXT4_NDIR_BLOCKS.
Definition EXT4_DIND_BLOCK : Z := EXT4_IND_BLOCK + 1.
Definition EXT4_TIND_BLOCK : Z := EXT4_DIND_BLOCK + 1.

(** [critical_error] jumps out whether or not [force] is set. *)
Definition critical_error {A} : fsM A := fun s => Exit s.

(** [DIV_ROUND_UP] on 32-bit operands. *)
Definition div_up32 (x y : Z) : fsM Z := if y =? 0 then fault_with DivByZero else mret (u32 (x + y - 1) / y).

Section Indirect.
Context (force : bool) (info : fs_info) (aux : fs_aux_info).

Definition create_backing (alloc : block_allocation) (backing_len : Z) : fsM (block_allocation * nat) :=
  if EXT4_NDIR_BLOCKS <? u64 (backing_len + block_size info - 1) / block_size info then critical_error else
  data ← calloc backing_len;
  s ← get_state;
  alloc ← backing_loop info (S (size (heap s))) (QData (Buf data)) alloc 0 backing_len;
  mret (alloc, data).

(** ** Setting blocks aside *)

Definition reserve_indirect_block (alloc : block_allocation) (len : Z) : fsM block_allocation :=
  '(alloc, r) ← reserve_oob_blocks alloc 1;
  if negb (r =? 0) then _ ← error force; mret alloc else
  '(alloc, r) ← advance_blocks alloc len;
  if negb (r =? 0) then _ ← error force; mret alloc else mret alloc.

Fixpoint reserve_dindirect_loop (fuel : nat) (alloc : block_allocation) (len : Z) : fsM block_allocation :=
  if 0 <? len then
    match fuel with
    | O => fault_with OutOfFuel
    | S fuel =>
        let ind_block_len := Z.min (s32 (blocks_per_ind aux)) len in
        alloc ← reserve_indirect_block alloc ind_block_len;
        reserve_dindirect_loop fuel alloc (s32 (len - ind_block_len))
    end
  else mret alloc.
Definition reserve_dindirect_block (alloc : block_allocation) (len : Z) : fsM block_allocation :=
  '(alloc, r) ← reserve_oob_blocks alloc 1;
  if negb (r =? 0) then _ ← error force; mret alloc else reserve_dindirect_loop (Z.to_nat len) alloc len.

Fixpoint reserve_tindirect_loop (fuel : nat) (alloc : block_allocation) (len : Z) : fsM block_allocation :=
  if 0 <? len then
    match fuel with
    | O => fault_with OutOfFuel
    | S fuel =>
        let dind_block_len := Z.min (s32 (blocks_per_dind aux)) len in
        alloc ← reserve_dindirect_block alloc dind_block_len;
        reserve_tindirect_loop fuel alloc (s32 (len - dind_block_len))
    end
  else mret alloc.
Definition reserve_tindirect_block (alloc : block_allocation) (len : Z) : fsM block_allocation :=
  '(alloc, r) ← reserve_oob_blocks alloc 1;
  if negb (r =? 0) then _ ← error force; mret alloc else reserve_tindirect_loop (Z.to_nat len) alloc len.

Definition reserve_all_indirect_blocks (alloc : block_allocation) (len : Z) : fsM block_allocation :=
  if len <=? EXT4_NDIR_BLOCKS then mret alloc else
  let len := u32 (len - EXT4_NDIR_BLOCKS) in
  '(alloc, _) ← advance_blocks alloc EXT4_NDIR_BLOCKS;
  let ind_block_len := Z.min (blocks_per_ind aux) len in
  alloc ← reserve_indirect_block alloc (s32 ind_block_len);
  let len := u32 (len - ind_block_len) in
  if len =? 0 then mret alloc else
  let dind_block_len := Z.min (blocks_per_dind aux) len in
  alloc ← reserve_dindirect_block alloc (s32 dind_block_len);
  let len := u32 (len - dind_block_len) in
  if len =? 0 then mret alloc else
  let tind_block_len := Z.min (blocks_per_tind aux) len in
  alloc ← reserve_tindirect_block alloc (s32 tind_block_len);
  let len := u32 (len - tind_block_len) in
  if len =? 0 then mret alloc else
  _ ← error force; mret alloc.

Definition indirect_blocks_needed (len : Z) : fsM Z :=
  if len <=? EXT4_NDIR_BLOCKS then mret 0 else
  let len := u32 (len - EXT4_NDIR_BLOCKS) in
  n ← div_up32 len (blocks_per_ind aux);
  let ind := n in
  if len <=? blocks_per_ind aux then mret ind else
  let len := u32 (len - blocks_per_ind aux) in
  n ← div_up32 len (blocks_per_dind aux);
  let ind := u32 (ind + n) in
  if len <=? blocks_per_dind aux then mret ind else
  let len := u32 (len - blocks_per_dind aux) in
  n ← div_up32 len (blocks_per_tind aux);
  let ind := u32 (ind + n) in
  if len <=? blocks_per_tind aux then mret ind else critical_error.

(** ** Filling blocks *)

(** [ind_block[i]] for [n] values of [i]; [put] stores an entry. *)
Fixpoint fill_blocks (n : nat) (put : Z -> list byte -> fsM unit) (alloc : block_allocation) (i : Z) : fsM unit :=
  match n with
  | O => mret tt
  | S n => b ← get_block alloc (u32 i); _ ← put (4 * i) (le_split 4 b); fill_blocks n put alloc (i + 1)
  end.

Definition fill_indirect_block (ind_block : nat) (len : Z) (alloc : block_allocation) : fsM unit :=
  fill_blocks (Z.to_nat len) (poke ind_block) alloc 0.

(** The next block set aside; [false] when there is none. *)
Definition next_oob_block (alloc : block_allocation) : fsM (block_allocation * Z * bool) :=
  block ← get_oob_block alloc 0;
  '(alloc, r) ← advance_oob_blocks alloc 1;
  if negb (r =? 0) then _ ← error force; mret (alloc, block, false) else mret (alloc, block, true).

Fixpoint fill_dindirect_loop (fuel : nat) (dind_block : nat) (i len : Z) (alloc : block_allocation) : fsM block_allocation :=
  if 0 <? len then
    match fuel with
    | O => fault_with OutOfFuel
    | S fuel =>
        '(alloc, ind_block, ok) ← next_oob_block alloc;
        if negb ok then mret alloc else
        _ ← poke dind_block (4 * i) (le_split 4 ind_block);
        ind_block_data ← calloc (block_size info);
        _ ← queue (QData (Buf ind_block_data) 0 (block_size info) ind_block);
        let ind_block_len := Z.min (s32 (blocks_per_ind aux)) len in
        _ ← fill_indirect_block ind_block_data ind_block_len alloc;
        '(alloc, r) ← advance_blocks alloc ind_block_len;
        if negb (r =? 0) then _ ← error force; mret alloc else
        fill_dindirect_loop fuel dind_block (i + 1) (s32 (len - ind_block_len)) alloc
    end
  else mret alloc.
Definition fill_dindirect_block (dind_block : nat) (len : Z) (alloc : block_allocation) : fsM block_allocation :=
  fill_dindirect_loop (Z.to_nat len) dind_block 0 len alloc.

Fixpoint fill_tindirect_loop (fuel : nat) (tind_block : nat) (i len : Z) (alloc : block_allocation) : fsM block_allocation :=
  if 0 <? len then
    match fuel with
    | O => fault_with OutOfFuel
    | S fuel =>
        '(alloc, dind_block, ok) ← next_oob_block alloc;
        if negb ok then mret alloc else
        _ ← poke tind_block (4 * i) (le_split 4 dind_block);
        dind_block_data ← calloc (block_size info);
        _ ← queue (QData (Buf dind_block_data) 0 (block_size info) dind_block);
        let dind_block_len := Z.min (s32 (blocks_per_dind aux)) len in
        alloc ← fill_dindirect_block dind_block_data dind_block_len alloc;
        fill_tindirect_loop fuel tind_block (i + 1) (s32 (len - dind_block_len)) alloc
    end
  else mret alloc.
Definition fill_tindirect_block (tind_block : nat) (len : Z) (alloc : block_allocation) : fsM block_allocation :=
  fill_tindirect_loop (Z.to_nat len) tind_block 0 len alloc.

(** ** Attaching blocks to an inode *)

(** The allocation, the number of blocks that are left and the return value. *)
Definition inode_attach_direct_blocks (inode : inode_ptr) (alloc : block_allocation) (block_len : Z) : fsM (block_allocation * Z * Z) :=
  let len := Z.min block_len EXT4_NDIR_BLOCKS in
  _ ← fill_blocks (Z.to_nat len) (poke_inode inode) alloc 0;
  '(alloc, r) ← advance_blocks alloc len;
  if negb (r =? 0) then _ ← error force; mret (alloc, block_len, -1) else mret (alloc, u32 (block_len - len), 0).

(** The common part of the three routines below: the entry [slot] of the inode
    gets a block that [fill] fills with at most [per] blocks. *)
Definition attach_block (slot per : Z) (fill : nat -> Z -> block_allocation -> fsM block_allocation)
    (inode : inode_ptr) (alloc : block_allocation) (block_len : Z) : fsM (block_allocation * Z * Z) :=
  let len := s32 (Z.min block_len per) in
  block ← get_oob_block alloc 0;
  _ ← poke_inode inode (4 * slot) (le_split 4 block);
  '(alloc, r) ← advance_oob_blocks alloc 1;
  if negb (r =? 0) then _ ← error force; mret (alloc, block_len, -1) else
  data ← calloc (block_size info);
  _ ← queue (QData (Buf data) 0 (block_size info) block);
  alloc ← fill data len alloc;
  '(alloc, r) ← advance_blocks alloc len;
  if negb (r =? 0) then _ ← error force; mret (alloc, block_len, -1) else mret (alloc, u32 (block_len - len), 0).

Definition inode_attach_indirect_blocks : inode_ptr -> block_allocation -> Z -> fsM (block_allocation * Z * Z) :=
  attach_block EXT4_IND_BLOCK (blocks_per_ind aux) (fun data len alloc => _ ← fill_indirect_block data len alloc; mret alloc).
Definition inode_attach_dindirect_blocks : inode_ptr -> block_allocation -> Z -> fsM (block_allocation * Z * Z) :=
  attach_block EXT4_DIND_BLOCK (blocks_per_dind aux) fill_dindirect_block.
Definition inode_attach_tindirect_blocks : inode_ptr -> block_allocation -> Z -> fsM (block_allocation * Z * Z) :=
  attach_block EXT4_TIND_BLOCK (blocks_per_tind aux) fill_tindirect_block.

(** The calls of [do_inode_attach_indirect], each but the first under
    [count > 0]; an error ends the chain. *)
Fixpoint attach_steps (steps : list (inode_ptr -> block_allocation -> Z -> fsM (block_allocation * Z * Z)))
    (inode : inode_ptr) (alloc : block_allocation) (count : Z) : fsM (block_allocation * Z * Z) :=
  match steps with
  | [] => mret (alloc, count, 0)
  | step :: steps =>
      if 0 <? count then
        '(alloc, count, r) ← step inode alloc count;
        if negb (r =? 0) then _ ← error force; mret (alloc, count, -1) else attach_steps steps inode alloc count
      else attach_steps steps inode alloc count
  end.

Definition do_inode_attach_indirect (inode : inode_ptr) (alloc : block_allocation) (block_len : Z) : fsM (block_allocation * Z) :=
  '(alloc, count, r) ← inode_attach_direct_blocks inode alloc block_len;
  if negb (r =? 0) then _ ← error force; mret (alloc, -1) else
  '(alloc, count, r) ← attach_steps [inode_attach_indirect_blocks; inode_attach_dindirect_blocks; inode_attach_tindirect_blocks]
                         inode alloc count;
  if negb (r =? 0) then mret (alloc, -1) else
  if negb (count =? 0) then _ ← error force; mret (alloc, -1) else
  mret (rewind_alloc alloc, 0).

Definition do_inode_allocate_indirect (block_len : Z) : fsM (option block_allocation) :=
  indirect_len ← indirect_blocks_needed block_len;
  alloc ← allocate_blocks force aux (u32 (block_len + indirect_len));
  match alloc with
  | None => _ ← error force; mret None
  | Some alloc => mret (Some alloc)
  end.

Definition inode_allocate_indirect (inode : inode_ptr) (len : Z) : fsM unit :=
  let block_len := u32 (u64 (len + block_size info - 1) / block_size info) in
  indirect_len ← indirect_blocks_needed block_len;
  alloc ← do_inode_allocate_indirect block_len;
  match alloc with
  | None => error force
  | Some alloc =>
      alloc ← reserve_all_indirect_blocks alloc block_len;
      '(alloc, r) ← do_inode_attach_indirect inode (rewind_alloc alloc) block_len;
      _ ← (if negb (r =? 0) then error force else mret tt);
      _ ← update_inode inode (fun i =>
            set_size (set_blocks (set_flags i 0) (u32 (u32 (block_len + indirect_len) * block_size info) / 512) (l_i_blocks_high i))
              (u32 len) (i_size_high i));
      free_alloc alloc
  end.

Definition inode_allocate_data_indirect (inode : inode_ptr) (len backing_len : Z) : fsM (option nat) :=
  let block_len := u32 (u64 (len + block_size info - 1) / block_size info) in
  alloc ← do_inode_allocate_indirect block_len;
  match alloc with
  | None => _ ← error force; mret None
  | Some alloc =>
      '(alloc, data) ← (if negb (backing_len =? 0)
                        then '(alloc, d) ← create_backing alloc backing_len; mret (alloc, Some d)
                        else mret (alloc, None));
      '(alloc, r) ← do_inode_attach_indirect inode (rewind_alloc alloc) block_len;
      _ ← (if negb (r =? 0) then error force else mret tt);
      _ ← free_alloc alloc;
      mret data
  end.

(** ** The resize inode *)

(** The entries [j - 1] of indirect block [r], for [n] values of [j]. *)
Fixpoint resize_inner (n : nat) (ind_block_data : nat) (alloc : block_allocation) (r j : Z) : fsM unit :=
  match n with
  | O => mret tt
  | S n =>
      b ← get_block alloc (u32 (j * bg_desc_reserve_blocks info + r));
      _ ← poke ind_block_data (4 * u32 (r * blocks_per_ind aux + j - 1)) (le_split 4 b);
      resize_inner n ind_block_data alloc r (j + 1)
  end.

(** The difference and the remainder are unsigned. *)
Definition resize_index (i : Z) : Z :=
  let r := s32 (u32 (i - bg_desc_blocks aux) mod bg_desc_reserve_blocks info) in
  if r <? 0 then s32 (r + bg_desc_reserve_blocks info) else r.

Fixpoint resize_loop (n : nat) (dind_block_data ind_block_data : nat) (alloc : block_allocation) (superblocks i : Z) : fsM unit :=
  match n with
  | O => mret tt
  | S n =>
      let r := resize_index i in
      b ← get_block alloc (u32 r);
      _ ← poke dind_block_data (4 * i) (le_split 4 b);
      _ ← resize_inner (Z.to_nat (superblocks - 1)) ind_block_data alloc r 1;
      resize_loop n dind_block_data ind_block_data alloc superblocks (i + 1)
  end.

Definition inode_attach_resize (inode : inode_ptr) (alloc : block_allocation) : fsM block_allocation :=
  len ← block_allocation_len alloc;
  let block_len := u32 len in
  let reserve := bg_desc_reserve_blocks info in
  if reserve =? 0 then fault_with DivByZero else
  let superblocks := block_len / reserve in
  if negb (block_len mod reserve =? 0) then critical_error else
  '(alloc, _) ← append_oob_allocation force aux alloc 1;
  dind_block ← get_oob_block alloc 0;
  dind_block_data ← calloc (block_size info);
  _ ← queue (QData (Buf dind_block_data) 0 (block_size info) dind_block);
  ind_block_data ← calloc (block_size info * reserve);
  first ← get_block alloc 0;
  _ ← queue (QData (Buf ind_block_data) 0 (u32 (block_size info * reserve)) first);
  _ ← resize_loop (Z.to_nat reserve) dind_block_data ind_block_data alloc superblocks 0;
  let last_block := u32 (EXT4_NDIR_BLOCKS + blocks_per_ind aux + blocks_per_ind aux * (reserve - 1) + superblocks - 2) in
  let blocks := u64 ((block_len + 1) * block_size info) / 512 in
  let size := u64 (last_block * block_size info) in
  _ ← poke_inode inode (4 * EXT4_DIND_BLOCK) (le_split 4 dind_block);
  _ ← update_inode inode (fun i =>
        set_size (set_blocks (set_flags i 0) (u32 blocks) (u16 (Z.shiftr blocks 32))) (u32 size) (u32 (Z.shiftr size 32)));
  mret alloc.
End Indirect.
