(* ===== verification/Ext4Contents.v ===== *)
(** * Directories, files and links of an ext4 image (ext4_utils: contents.c)

    Directory blocks are written into the buffer that backs the directory's
    inode; the entries' inode numbers are filled in later through pointers
    into that buffer.  Names are byte strings without their terminator. *)
From S2P Require Import Prelude Ext4Alloc Ext4Extent Ext4Indirect.

Definition EXT4_ROOT_INO : Z := 2.
Definition EXT4_FT_REG_FILE : Z := 1.
Definition EXT4_FT_DIR : Z := 2.
Definition EXT4_FT_SYMLINK : Z := 7.
Definition S_IFREG : Z := 0x8000.
Definition S_IFDIR : Z := 0x4000.
Definition S_IFLNK : Z := 0xA000.

(** [inode] points into a directory buffer once the entry is written. *)
Record dentry := mk_dentry {
  d_path : string; d_full_path : option string; d_filename : list byte; d_link : list byte; d_size : Z; d_file_type : Z;
  d_mode : Z; d_uid : Z; d_gid : Z; d_inode : option (nat * Z); d_mtime : Z;
  d_secon : option (list byte); d_capabilities : Z
}.
Definition set_d_inode (d : dentry) (p : nat * Z) : dentry :=
  mk_dentry (d_path d) (d_full_path d) (d_filename d) (d_link d) (d_size d) (d_file_type d) (d_mode d) (d_uid d) (d_gid d) (Some p) (d_mtime d)
    (d_secon d) (d_capabilities d).

(** Bytes of a buffer. *)
Definition peek (p : nat) (off n : Z) : fsM (list byte) := fun s =>
  match bufs s !! p with
  | Some b => if (0 <=? off) && (off + n <=? blen b) then Ok (slice off n b) s else Fault OutOfBounds
  | None => Fault UseAfterFree
  end.

Definition EXT4_ALIGN (x y : Z) : Z := y * DIV_ROUND_UP x y.

Section Contents.
Context (force : bool) (info : fs_info) (aux : fs_aux_info).

(** ** Directories *)

Fixpoint dentry_size_loop (len : Z) (dentries : list dentry) : Z :=
  match dentries with
  | [] => len
  | d :: dentries =>
      let dentry_len := u32 (8 + EXT4_ALIGN (blen (d_filename d)) 4) in
      let len := if block_size info <? u32 (len mod block_size info + dentry_len)
                 then u32 (len + (block_size info - len mod block_size info)) else len in
      dentry_size_loop (u32 (len + dentry_len)) dentries
  end.
Definition dentry_size (dentries : list dentry) : Z := dentry_size_loop 24 dentries.

(** [dentry->rec_len += n]. *)
Definition add_rec_len (data : nat) (dentry n : Z) : fsM unit :=
  r ← peek data (dentry + 4) 2; poke data (dentry + 4) (le_split 2 (u16 (le_combine r + n))).

Definition ext4_dir_entry_2 (inode rec_len name_len file_type : Z) (name : list byte) : list byte :=
  le_split 4 inode ++ le_split 2 rec_len ++ le_split 1 name_len ++ le_split 1 file_type ++ take (Z.to_nat name_len) name.

(** The new offset and the position of the entry. *)
Definition add_dentry (data : nat) (offset : Z) (prev : option Z) (inode : Z) (name : list byte) (file_type : Z) : fsM (Z * Z) :=
  let name_len := u8 (blen name) in
  let rec_len := u16 (8 + EXT4_ALIGN name_len 4) in
  let start_block := offset / block_size info in
  let end_block := u32 (offset + rec_len - 1) / block_size info in
  offset ← (if negb (start_block =? end_block) then
              match prev with
              | None => critical_error
              | Some p => _ ← add_rec_len data p (u32 (end_block * block_size info - offset)); mret (u32 (end_block * block_size info))
              end
            else mret offset);
  _ ← poke data offset (ext4_dir_entry_2 inode rec_len name_len file_type name);
  mret (u32 (offset + rec_len), offset).

Fixpoint add_dentries (data : nat) (len offset prev : Z) (dentries : list dentry) : fsM (Z * Z * list dentry) :=
  match dentries with
  | [] => mret (offset, prev, [])
  | d :: rest =>
      '(offset, dentry) ← add_dentry data offset (Some prev) 0 (d_filename d) (d_file_type d);
      if (len <? offset) || ((offset =? len) && negb (bool_decide (rest = []))) then critical_error else
      '(offset, last, rest) ← add_dentries data len offset dentry rest;
      mret (offset, last, set_d_inode d (data, dentry) :: rest)
  end.

(** The names of the two first entries. *)
Definition dot : list byte := [Byte.x2e].
Definition dotdot : list byte := [Byte.x2e; Byte.x2e].

Definition make_directory (dir_inode_num : Z) (dentries : list dentry) (dirs : Z) : fsM (Z * list dentry) :=
  let blocks := u32 (dentry_size dentries + block_size info - 1) / block_size info in
  let len := u32 (blocks * block_size info) in
  '(dir_inode_num, inode_num) ← (if negb (dir_inode_num =? 0) then n ← allocate_inode info aux; mret (dir_inode_num, n)
                                 else mret (EXT4_ROOT_INO, EXT4_ROOT_INO));
  if inode_num =? EXT4_ALLOCATE_FAILED then _ ← error force; mret (EXT4_ALLOCATE_FAILED, dentries) else
  _ ← add_directory info inode_num;
  inode ← get_inode info aux inode_num;
  data ← inode_allocate_data_extents force info aux inode len len;
  match data with
  | None => _ ← error force; mret (EXT4_ALLOCATE_FAILED, dentries)
  | Some data =>
      _ ← update_inode inode (fun i => set_flags (set_mode i S_IFDIR (u16 (dirs + 2))) (Z.lor (i_flags i) (default_i_flags aux)));
      '(offset, dentry) ← add_dentry data 0 None inode_num dot EXT4_FT_DIR;
      '(offset, dentry) ← add_dentry data offset (Some dentry) dir_inode_num dotdot EXT4_FT_DIR;
      '(offset, dentry, dentries) ← add_dentries data len offset dentry dentries;
      _ ← add_rec_len data dentry (u32 (len - offset));
      mret (inode_num, dentries)
  end.

(** ** Files and links *)

(** The chain of saved allocations, [saved_allocation_head] first. *)
Abbreviation allocation_chain := (list (string * block_allocation)).

Definition make_file (name : string) (len : Z) (saved_allocation_head : allocation_chain) : fsM (Z * allocation_chain) :=
  inode_num ← allocate_inode info aux;
  if inode_num =? EXT4_ALLOCATE_FAILED then _ ← error force; mret (EXT4_ALLOCATE_FAILED, saved_allocation_head) else
  inode ← get_inode info aux inode_num;
  saved ← (if 0 <? len then
             alloc ← inode_allocate_file_extents force info aux inode len name;
             mret (match alloc with Some alloc => (name, alloc) :: saved_allocation_head | None => saved_allocation_head end)
           else mret saved_allocation_head);
  _ ← update_inode inode (fun i => set_flags (set_mode i S_IFREG 1) (Z.lor (i_flags i) (default_i_flags aux)));
  mret (inode_num, saved).

(** A null buffer, after a failed allocation, is written through. *)
Definition make_link (lnk : list byte) : fsM Z :=
  let len := u32 (blen lnk) in
  inode_num ← allocate_inode info aux;
  if inode_num =? EXT4_ALLOCATE_FAILED then _ ← error force; mret EXT4_ALLOCATE_FAILED else
  inode ← get_inode info aux inode_num;
  _ ← update_inode inode (fun i => set_size (set_flags (set_mode i S_IFLNK 1) (Z.lor (i_flags i) (default_i_flags aux))) len (i_size_high i));
  _ ← (if u32 (len + 1) <=? EXT4_BLOCK_BYTES then poke_inode inode 0 (take (Z.to_nat len) lnk)
       else
         data ← inode_allocate_data_indirect force info aux inode (block_size info) (block_size info);
         match data with
         | None => fault_with NullDeref
         | Some data =>
             _ ← poke data 0 (take (Z.to_nat len) lnk);
             update_inode inode (fun i => set_blocks i (block_size info / 512) (l_i_blocks_high i))
         end);
  mret inode_num.

Definition inode_set_permissions (inode_num mode uid gid mtime : Z) : fsM Z :=
  inode ← get_inode info aux inode_num;
  _ ← update_inode inode (fun i => set_owner (set_mode i (Z.lor (i_mode i) mode) (i_links_count i)) uid gid mtime);
  mret 0.
End Contents.
