(* ===== verification/Ext4DirCorrect.v ===== *)
(** * Directory blocks: the entries written are the entries read

    The specification [parse_dir] walks over a directory by the record
    lengths, as a reader of the filesystem does.  The theorems are in
    Ext4ContentsCorrect; here are the invariant of the loop and its steps. *)
From S2P Require Import Prelude SparseFormat Ext4Alloc Ext4Bits Ext4AllocCorrect Ext4Extent Ext4ExtentCorrect Ext4Indirect Ext4Contents.

(** ** Reading a directory *)

(** Inode number, file type and name of the entries from offset [off] on; no
    entry may cross a block, be shorter than its name or end behind the data. *)
Fixpoint parse_dir (fuel : nat) (bs off : Z) (d : list byte) : option (list (Z * Z * list byte)) :=
  match d with
  | [] => Some []
  | _ =>
      match fuel with
      | O => None
      | S fuel =>
          let rec_len := field 4 2 d in let name_len := field 6 1 d in
          if (8 + name_len <=? rec_len) && (rec_len <=? blen d) && (rec_len mod 4 =? 0) && (off / bs =? (off + rec_len - 1) / bs) then
            rest ← parse_dir fuel bs (off + rec_len) (drop (Z.to_nat rec_len) d);
            Some ((field 0 4 d, field 7 1 d, take (Z.to_nat name_len) (drop 8 d)) :: rest)
          else None
      end
  end.

(** ** Entries with their record lengths *)

Record item := mk_item { it_ino : Z; it_type : Z; it_name : list byte; it_rec : Z }.

Definition item_ok (x : item) : Prop :=
  is_u32 (it_ino x) /\ 0 <= it_type x < 256 /\ blen (it_name x) <= 255 /\ 8 + blen (it_name x) <= it_rec x < 2 ^ 16 /\ it_rec x mod 4 = 0.

(** What follows the record length. *)
Definition item_tail (x : item) : list byte := le_split 1 (blen (it_name x)) ++ le_split 1 (it_type x) ++ it_name x.

Definition item_bytes (x : item) : list byte :=
  le_split 4 (it_ino x) ++ le_split 2 (it_rec x) ++ item_tail x ++ zeros (it_rec x - 8 - blen (it_name x)).

Definition encs (l : list item) : list byte := l ≫= item_bytes.
Definition total (l : list item) : Z := foldr (fun x a => it_rec x + a) 0 l.
Definition shown (l : list item) : list (Z * Z * list byte) := (fun x => (it_ino x, it_type x, it_name x)) <$> l.

Fixpoint laid (bs off : Z) (l : list item) : Prop :=
  match l with
  | [] => True
  | x :: l => item_ok x /\ off / bs = (off + it_rec x - 1) / bs /\ laid bs (off + it_rec x) l
  end.

Lemma total_app l k : total (l ++ k) = total l + total k.
Proof. unfold total. induction l as [|x l IH]; cbn; lia. Qed.

Lemma laid_app bs l k : forall off, laid bs off (l ++ k) <-> laid bs off l /\ laid bs (off + total l) k.
Proof.
  induction l as [|x l IH]; intros off; cbn; [rewrite Z.add_0_r; tauto|]. rewrite IH. unfold total. cbn.
  replace (off + it_rec x + foldr (fun x a => it_rec x + a) 0 l) with (off + (it_rec x + foldr (fun x a => it_rec x + a) 0 l)) by lia. tauto.
Qed.

Lemma blen_le_split n z : blen (le_split n z) = Z.of_nat n.
Proof. unfold blen. by rewrite length_le_split. Qed.

Lemma blen_item_tail x : blen (item_tail x) = 2 + blen (it_name x).
Proof. unfold item_tail. rewrite !blen_app, !blen_le_split. lia. Qed.

Lemma blen_item x : item_ok x -> blen (item_bytes x) = it_rec x.
Proof.
  intros (_ & _ & _ & Hr & _). unfold item_bytes. rewrite !blen_app, !blen_le_split, blen_item_tail, blen_zeros by lia. lia.
Qed.

Lemma blen_encs bs l : forall off, laid bs off l -> blen (encs l) = total l.
Proof.
  induction l as [|x l IH]; intros off Hl; [done|]. destruct Hl as (Hx & _ & Hl).
  change (encs (x :: l)) with (item_bytes x ++ encs l). change (total (x :: l)) with (it_rec x + total l).
  by rewrite blen_app, (blen_item x Hx), (IH _ Hl).
Qed.

Lemma total_nonneg bs l : forall off, laid bs off l -> 0 <= total l.
Proof. intros off Hl. rewrite <- (blen_encs bs l off Hl). apply blen_nonneg. Qed.

Lemma le_combine_split_u8 z : 0 <= z < 256 -> le_combine (le_split 1 z) = z.
Proof. intros H. rewrite LittleEndianList.le_combine_split. by apply Z.mod_small. Qed.

Lemma item_bytes_cons x : exists a t, item_bytes x = a :: t.
Proof. destruct (item_bytes x) as [|a t] eqn:H; [|by eauto]. apply (f_equal length) in H. unfold item_bytes in H. rewrite length_app, length_le_split in H. cbn in H. lia. Qed.

Lemma parse_dir_ok bs l : forall fuel off, laid bs off l -> (length l <= fuel)%nat -> parse_dir fuel bs off (encs l) = Some (shown l).
Proof.
  induction l as [|x l IH]; intros fuel off Hl Hf; [by destruct fuel|]. destruct Hl as (Hx & Hblk & Hl).
  destruct fuel as [|fuel]; [cbn in Hf; lia|]. change (encs (x :: l)) with (item_bytes x ++ encs l).
  pose proof (blen_item x Hx) as Hlen. pose proof Hx as (Hi & Ht & Hn & Hr & H4). pose proof (blen_nonneg (it_name x)).
  assert (F1 : field 0 4 (item_bytes x ++ encs l) = it_ino x) by (unfold item_bytes; rewrite <- !app_assoc; walk; by apply le_combine_split_u32).
  assert (F2 : field 4 2 (item_bytes x ++ encs l) = it_rec x).
  { unfold item_bytes; rewrite <- !app_assoc; walk. apply le_combine_split_u16. unfold is_u16. lia. }
  assert (F3 : field 6 1 (item_bytes x ++ encs l) = blen (it_name x)).
  { unfold item_bytes, item_tail; rewrite <- !app_assoc; walk. apply le_combine_split_u8. lia. }
  assert (F4 : field 7 1 (item_bytes x ++ encs l) = it_type x) by (unfold item_bytes, item_tail; rewrite <- !app_assoc; walk; by apply le_combine_split_u8).
  assert (Hd : take (length (it_name x)) (drop 8 (item_bytes x ++ encs l)) = it_name x).
  { unfold item_bytes, item_tail. rewrite <- !app_assoc. rewrite !(drop_app_ge _ _ 8), !length_le_split by (rewrite ?length_le_split; lia).
    rewrite (drop_app_ge _ _ (8 - 4)), length_le_split by (rewrite length_le_split; lia).
    rewrite (drop_app_ge _ _ (8 - 4 - 2)), length_le_split by (rewrite length_le_split; lia).
    rewrite (drop_app_ge _ _ (8 - 4 - 2 - 1)), length_le_split by (rewrite length_le_split; lia). cbn [Nat.sub]. rewrite drop_0. by apply take_app_length'. }
  destruct (item_bytes_cons x) as (a & t & Hcons). cbn [parse_dir]. rewrite Hcons at 1. cbn [app]. rewrite F1, F2, F3, F4.
  rewrite blen_app, Hlen. pose proof (blen_nonneg (encs l)).
  rewrite (proj2 (Z.leb_le _ _)), (proj2 (Z.leb_le _ _)), H4, Z.eqb_refl, (proj2 (Z.eqb_eq _ _) Hblk) by lia. cbn [andb].
  assert (Hdrop : drop (Z.to_nat (it_rec x)) (item_bytes x ++ encs l) = encs l).
  { rewrite <- Hlen. unfold blen. rewrite Nat2Z.id. apply drop_app_length. }
  rewrite Hdrop, IH by (done || (cbn in Hf; lia)). cbn [mbind option_bind]. unfold blen. rewrite Nat2Z.id, Hd. done.
Qed.

(** ** Writing entries *)

Definition padded (x : item) (n : Z) : item := mk_item (it_ino x) (it_type x) (it_name x) (it_rec x + n).

Lemma set_buf_twice s d a b : set_buf (set_buf s d a) d b = set_buf s d b.
Proof. unfold set_buf. cbn. by rewrite list_insert_insert_eq. Qed.

Lemma poke_ok s d c off x : bufs s !! d = Some c -> off + blen x <= blen c -> poke d off x s = Ok tt (set_buf s d (write_at c off x)).
Proof. intros Hc Hx. unfold poke. rewrite Hc. by rewrite (proj2 (Z.leb_le _ _)). Qed.

Lemma peek_ok s d a b c : bufs s !! d = Some (a ++ b ++ c) -> peek d (blen a) (blen b) s = Ok b s.
Proof.
  intros Hc. unfold peek. rewrite Hc, !blen_app. pose proof (blen_nonneg a). pose proof (blen_nonneg c).
  rewrite (proj2 (Z.leb_le _ _)), (proj2 (Z.leb_le _ _)) by lia. cbn [andb]. by rewrite slice_here.
Qed.

(** The record length of the last entry grows into the zeros behind it. *)
Lemma add_rec_len_ok s d l x k n : bufs s !! d = Some (encs l ++ item_bytes x ++ zeros k) -> item_ok x -> 0 <= n <= k -> it_rec x + n < 2 ^ 16 ->
  add_rec_len d (blen (encs l)) n s = Ok tt (set_buf s d (encs l ++ item_bytes (padded x n) ++ zeros (k - n))).
Proof.
  intros Hc (Hi & Ht & Hn & Hr & H4) Hk Hlt. pose proof (blen_nonneg (it_name x)). unfold add_rec_len.
  set (pre := encs l ++ le_split 4 (it_ino x)). set (rest := item_tail x ++ zeros (it_rec x - 8 - blen (it_name x)) ++ zeros k).
  assert (Hb : encs l ++ item_bytes x ++ zeros k = pre ++ le_split 2 (it_rec x) ++ rest) by (unfold pre, rest, item_bytes; by rewrite <- !app_assoc).
  assert (Hpre : blen pre = blen (encs l) + 4) by (unfold pre; by rewrite blen_app, blen_le_split). rewrite <- Hpre. rewrite Hb in Hc.
  pose proof (peek_ok s d pre (le_split 2 (it_rec x)) rest Hc) as Hp. rewrite blen_le_split in Hp. run Hp.
  rewrite le_combine_split_u16 by (unfold is_u16; lia). unfold u16. rewrite Z.mod_small by lia.
  rewrite (poke_ok s d _ (blen pre) _ Hc) by (rewrite !blen_app, !blen_le_split; pose proof (blen_nonneg rest); lia).
  rewrite write_at_mid by (rewrite blen_app, !blen_le_split; pose proof (blen_nonneg rest); lia).
  do 2 f_equal. rewrite drop_app_length' by (by rewrite !length_le_split). unfold pre, rest, item_bytes, padded.
  cbn [it_ino it_type it_name it_rec]. rewrite <- !app_assoc. do 3 f_equal. unfold item_tail. cbn [it_name it_type]. f_equal.
  rewrite <- !zeros_add by lia. f_equal. lia.
Qed.

(** The offset behind an entry of [dl] bytes. *)
Definition dir_step (bs off dl : Z) : Z := if bs <? off mod bs + dl then off + (bs - off mod bs) + dl else off + dl.

Lemma crossing bs off dl : 0 < bs -> 0 <= off -> 0 < dl <= bs ->
  if bs <? off mod bs + dl then (off + dl - 1) / bs = off / bs + 1 /\ (off / bs + 1) * bs = off + (bs - off mod bs) /\ 0 < off mod bs
  else (off + dl - 1) / bs = off / bs.
Proof.
  intros Hbs Ho Hd. pose proof (Z.div_mod off bs ltac:(lia)) as Hdm. pose proof (Z.mod_pos_bound off bs Hbs) as Hm.
  destruct (Z.ltb_spec bs (off mod bs + dl)).
  - split; [symmetry; apply (Z.div_unique_pos _ _ _ (off mod bs + dl - 1 - bs)); lia|]. split; lia.
  - symmetry. apply (Z.div_unique_pos _ _ _ (off mod bs + dl - 1)); lia.
Qed.

(** An entry that ends off the block boundary begins in the same block. *)
Lemma last_in_block bs a r : 0 < bs -> 0 <= a -> 0 < r -> a / bs = (a + r - 1) / bs -> 0 < (a + r) mod bs ->
  (a + r) / bs = a / bs /\ r + (bs - (a + r) mod bs) <= bs.
Proof.
  intros Hbs Ha Hr He Hm. pose proof (Z.div_mod (a + r) bs ltac:(lia)) as H1. pose proof (Z.mod_pos_bound (a + r) bs Hbs) as H2.
  assert (H3 : (a + r - 1) / bs = (a + r) / bs) by (symmetry; apply (Z.div_unique_pos _ _ _ ((a + r) mod bs - 1)); lia).
  pose proof (Z.div_mod a bs ltac:(lia)). pose proof (Z.mod_pos_bound a bs Hbs). split; [lia|]. nia.
Qed.

Section Write.
Context (force : bool) (info : fs_info).
Abbreviation bs := (block_size info).
Context (Hbs : 1024 <= bs < 2 ^ 16) (Hbs4 : bs mod 4 = 0).

Definition rec_of (name : list byte) : Z := 8 + EXT4_ALIGN (blen name) 4.

Lemma rec_of_bounds name : blen name <= 255 -> 8 + blen name <= rec_of name <= 264 /\ rec_of name mod 4 = 0.
Proof.
  intros Hn. unfold rec_of, EXT4_ALIGN. pose proof (blen_nonneg name). pose proof (DIV_ROUND_UP_bounds (blen name) 4 ltac:(lia)). split; [lia|].
  rewrite Z.add_comm, Z.mul_comm, Z.add_mod, Z.mod_mul by lia. done.
Qed.

(** The buffer holds the entries [l], zeros behind them; [prev] is the last. *)
Record written (d : nat) (len : Z) (l : list item) (s : fs) : Prop := {
  wn_buf : bufs s !! d = Some (encs l ++ zeros (len - total l));
  wn_laid : laid bs 0 l;
  wn_len : total l <= len < 2 ^ 31
}.

Definition prev_of (l : list item) : option Z := match last l with Some x => Some (total l - it_rec x) | None => None end.

(** The last entry filled up to offset [off]. *)
Definition filled (l : list item) (off : Z) : list item :=
  match last l with Some x => removelast l ++ [padded x (off - total l)] | None => l end.

Lemma list_last l (x : item) : last l = Some x -> l = removelast l ++ [x].
Proof. intros Hl. apply last_Some in Hl as [k ->]. by rewrite removelast_last. Qed.

Lemma shown_filled l off : shown (filled l off) = shown l.
Proof.
  unfold filled. destruct (last l) as [x|] eqn:Hl; [|done]. apply last_Some in Hl as [k ->]. rewrite removelast_last. unfold shown. by rewrite !fmap_app.
Qed.

Lemma total_filled l off : last l <> None -> total (filled l off) = off.
Proof.
  intros Hn. unfold filled. destruct (last l) as [x|] eqn:Hl; [|done]. apply last_Some in Hl as [k ->]. rewrite removelast_last, !total_app. unfold total. cbn. lia.
Qed.

(** The entries before the last one are the same. *)
Definition same_starts (l l' : list item) : Prop := length l' = length l /\ take (pred (length l)) l' = take (pred (length l)) l.

Lemma starts_filled l off : same_starts l (filled l off).
Proof.
  unfold filled. destruct (last l) as [x|] eqn:Hl; [|done]. apply last_Some in Hl as [k ->]. rewrite removelast_last.
  split; rewrite !length_app; [done|]. cbn. rewrite Nat.add_1_r. cbn. by rewrite !take_app_length.
Qed.

(** Padding the last entry up to the end of its block. *)
Lemma fill_ok d len l s n : written d len l s -> 0 < n -> n mod 4 = 0 -> total l mod bs <> 0 -> total l + n = (total l / bs + 1) * bs ->
  total l + n <= len -> l <> [] ->
  exists p, prev_of l = Some p /\ let l' := filled l (total l + n) in
    add_rec_len d p n s = Ok tt (set_buf s d (encs l' ++ zeros (len - total l'))) /\ laid bs 0 l' /\ total l' = total l + n.
Proof.
  intros [Hb Hl Hlen] Hn H4 Hm Hend Hle Hne. destruct (last l) as [x|] eqn:Hlast; [|by apply last_None in Hlast].
  unfold prev_of, filled. rewrite Hlast. pose proof (list_last l x Hlast) as Hsp. set (l0 := removelast l) in *.
  rewrite Hsp in Hl. apply laid_app in Hl as (Hl0 & Hx & Hblk & _). rewrite Z.add_0_l in Hblk. pose proof (total_nonneg _ _ _ Hl0).
  assert (Htot : total l = total l0 + it_rec x) by (rewrite Hsp, total_app; unfold total; cbn; lia).
  pose proof Hx as (Hi & Ht & Hnm & Hr & Hx4). pose proof (blen_nonneg (it_name x)). pose proof (Z.mod_pos_bound (total l) bs ltac:(lia)).
  destruct (last_in_block bs (total l0) (it_rec x)) as [Hblk' Hfit]; [lia|lia|lia|done|rewrite <- Htot; lia|]. rewrite <- Htot in Hblk', Hfit.
  pose proof (Z.div_mod (total l) bs ltac:(lia)) as Hdm. assert (Hn' : n = bs - total l mod bs) by lia.
  exists (total l - it_rec x). split; [done|]. replace (total l - it_rec x) with (blen (encs l0)) by (rewrite (blen_encs bs l0 0 Hl0); lia).
  replace (total l + n - total l) with n by lia. cbv zeta.
  assert (Ht' : total (l0 ++ [padded x n]) = total l + n) by (rewrite total_app; unfold total at 2; cbn; lia).
  split_and!; [|..|done].
  - rewrite Ht'. replace (encs (l0 ++ [padded x n])) with (encs l0 ++ item_bytes (padded x n)) by (unfold encs; rewrite bind_app; cbn; by rewrite app_nil_r).
    rewrite <- app_assoc. replace (len - (total l + n)) with ((len - total l) - n) by lia. apply add_rec_len_ok; [|done|lia|lia].
    rewrite Hb, Hsp at 1. unfold encs. rewrite bind_app. cbn. by rewrite app_nil_r, <- app_assoc.
  - apply laid_app. split; [done|]. split; [|split; [|done]].
    + unfold item_ok. cbn. split; [exact Hi|]. split; [exact Ht|]. split; [exact Hnm|]. split; [lia|]. by rewrite Z.add_mod, Hx4, H4 by lia.
    + cbn. rewrite Z.add_0_l. replace (total l0 + (it_rec x + n) - 1) with (total l / bs * bs + (bs - 1)) by lia.
      rewrite Z.div_add_l, (Z.div_small (bs - 1)), Z.add_0_r by lia. by rewrite Hblk'.
Qed.

Lemma total_mod4 l : forall off, laid bs off l -> total l mod 4 = 0.
Proof.
  induction l as [|x l IH]; intros off Hl; [done|]. destruct Hl as ((_ & _ & _ & _ & H4) & _ & Hl).
  change (total (x :: l)) with (it_rec x + total l). by rewrite Z.add_mod, H4, (IH _ Hl) by lia.
Qed.

Lemma pad_mod4 l off : laid bs off l -> (bs - total l mod bs) mod 4 = 0.
Proof.
  intros Hl. pose proof (total_mod4 l off Hl) as Ht. pose proof (Z.div_mod (total l) bs ltac:(lia)) as Hdm.
  replace (bs - total l mod bs) with (bs * (1 + total l / bs) - total l) by lia.
  by rewrite Zminus_mod, Z.mul_mod, Hbs4, Ht by lia.
Qed.

Lemma encs_snoc l x : encs (l ++ [x]) = encs l ++ item_bytes x.
Proof. unfold encs. rewrite bind_app. cbn. by rewrite app_nil_r. Qed.

(** An entry behind [l], in the same block. *)
Lemma put_entry d len l s ino ft name : written d len l s -> is_u32 ino -> 0 <= ft < 256 -> blen name <= 255 ->
  total l + rec_of name <= len -> total l mod bs + rec_of name <= bs ->
  let x := mk_item ino ft name (rec_of name) in
  poke d (total l) (ext4_dir_entry_2 ino (rec_of name) (blen name) ft name) s = Ok tt (set_buf s d (encs (l ++ [x]) ++ zeros (len - total (l ++ [x])))) /\
  laid bs 0 (l ++ [x]).
Proof.
  intros [Hb Hl Hlen] Hi Hft Hn Hle Hfit x. destruct (rec_of_bounds name Hn) as [Hr H4]. pose proof (blen_nonneg name). pose proof (total_nonneg _ _ _ Hl).
  assert (Hx : item_ok x) by (unfold item_ok; cbn; split; [done|]; split; [done|]; split; [done|]; split; [lia|done]).
  assert (He : ext4_dir_entry_2 ino (rec_of name) (blen name) ft name = le_split 4 ino ++ le_split 2 (rec_of name) ++ item_tail x).
  { unfold ext4_dir_entry_2, item_tail. cbn. by rewrite take_ge by (unfold blen; lia). }
  assert (Hlx : blen (le_split 4 ino ++ le_split 2 (rec_of name) ++ item_tail x) = 8 + blen name) by (rewrite !blen_app, !blen_le_split, blen_item_tail; cbn; lia).
  assert (Ht : total (l ++ [x]) = total l + rec_of name) by (rewrite total_app; unfold total at 2; cbn; lia). split.
  - rewrite He, <- (blen_encs bs l 0 Hl).
    rewrite (poke_ok s d _ _ _ Hb) by (rewrite Hlx, blen_app, blen_zeros, (blen_encs bs l 0 Hl) by lia; lia).
    rewrite write_at_mid by (rewrite blen_zeros, Hlx by lia; lia). set (h := le_split 4 ino ++ _) in *.
    assert (Hz : drop (length h) (zeros (len - total l)) = zeros (rec_of name - 8 - blen name) ++ zeros (len - total (l ++ [x]))).
    { unfold zeros at 1. rewrite drop_replicate, Ht, <- zeros_add by lia. unfold zeros. f_equal. unfold blen in *. lia. }
    rewrite Hz, encs_snoc. unfold h, item_bytes. cbn [it_ino it_rec it_name x]. by rewrite <- !app_assoc.
  - apply laid_app. split; [done|]. split; [done|]. split; [|done]. rewrite Z.add_0_l. cbn [it_rec x].
    pose proof (crossing bs (total l) (rec_of name) ltac:(lia) ltac:(lia) ltac:(lia)) as Hc. rewrite (proj2 (Z.ltb_ge _ _)) in Hc by lia. done.
Qed.

Lemma add_dentry_ok d len l s ino ft name : written d len l s -> is_u32 ino -> 0 <= ft < 256 -> blen name <= 255 ->
  dir_step bs (total l) (rec_of name) <= len ->
  exists l' c, let x := mk_item ino ft name (rec_of name) in let off := dir_step bs (total l) (rec_of name) in
    add_dentry info d (total l) (prev_of l) ino name ft s = Ok (off, off - rec_of name) (set_buf s d c) /\
    written d len (l' ++ [x]) (set_buf s d c) /\ total (l' ++ [x]) = off /\ shown l' = shown l /\ same_starts l l'.
Proof.
  intros Hw Hi Hft Hn Hle. pose proof Hw as [Hb Hl Hlen]. destruct (rec_of_bounds name Hn) as [Hr H4]. pose proof (blen_nonneg name).
  pose proof (total_nonneg _ _ _ Hl) as Ht0. pose proof (crossing bs (total l) (rec_of name) ltac:(lia) ltac:(lia) ltac:(lia)) as Hc.
  pose proof (Z.mod_pos_bound (total l) bs ltac:(lia)) as Hmod. assert (Hd : (d < length (bufs s))%nat) by (by eapply lookup_lt_Some).
  set (x := mk_item ino ft name (rec_of name)). assert (Htx : forall k, total (k ++ [x]) = total k + rec_of name) by (intros k; rewrite total_app; unfold total at 2; cbn; lia).
  assert (Hdone : forall k c, total k + rec_of name <= len -> laid bs 0 (k ++ [x]) -> c = encs (k ++ [x]) ++ zeros (len - total (k ++ [x])) ->
    written d len (k ++ [x]) (set_buf s d c)).
  { intros k c Hk Hlk ->. split; [cbn; by rewrite list_lookup_insert_eq|done|]. rewrite Htx. lia. }
  unfold add_dentry. cbv zeta. assert (Hu8 : u8 (blen name) = blen name) by (apply Z.mod_small; lia). rewrite Hu8. fold (rec_of name).
  assert (Hu16 : u16 (rec_of name) = rec_of name) by (apply Z.mod_small; lia). rewrite Hu16.
  unfold dir_step in *. destruct (Z.ltb_spec bs (total l mod bs + rec_of name)) as [Hcr|Hcr].
  - destruct Hc as (Hend & Hmul & Hpos). rewrite (u32_small (total l + rec_of name - 1)) by (unfold is_u32; lia). rewrite Hend.
    rewrite (proj2 (Z.eqb_neq _ _)) by lia. cbn [negb]. rewrite Hmul. set (pad := bs - total l mod bs) in *.
    assert (Hne : l <> []) by (intros ->; cbn in Hcr; rewrite Z.mod_0_l in Hcr by lia; lia).
    destruct (fill_ok d len l s pad Hw) as (p & Hp & Hrun & Hl' & Ht'); [lia|by apply (pad_mod4 l 0)|lia|lia|lia|done|].
    set (l' := filled l (total l + pad)) in *. rewrite Hp. rewrite (u32_small (total l + pad - total l)), (u32_small (total l + pad)) by (unfold is_u32; lia).
    replace (total l + pad - total l) with pad by lia. erewrite bind_Ok by (by run Hrun). cbv beta.
    set (s1 := set_buf s d (encs l' ++ zeros (len - total l'))).
    assert (Hw1 : written d len l' s1) by (split; [cbn; by rewrite list_lookup_insert_eq|done|lia]). rewrite <- Ht'.
    assert (Hm0 : total l' mod bs = 0) by (rewrite Ht', <- Hmul; apply Z.mod_mul; lia).
    destruct (put_entry d len l' s1 ino ft name Hw1 Hi Hft Hn) as [Hpk Hlx]; [lia|lia|]. run Hpk. unfold s1. rewrite set_buf_twice.
    eexists l', _. split; [|split; [|split; [|split; [by apply shown_filled|by apply starts_filled]]]].
    + rewrite u32_small by (unfold is_u32; lia). rewrite Ht'. replace (total l + pad + rec_of name - rec_of name) with (total l + pad) by lia. reflexivity.
    + apply Hdone; [lia|done|done].
    + rewrite Htx. lia.
  - rewrite (u32_small (total l + rec_of name - 1)) by (unfold is_u32; lia). rewrite Hc, Z.eqb_refl. cbn [negb].
    erewrite (bind_Ok (mret _)) by reflexivity. destruct (put_entry d len l s ino ft name Hw Hi Hft Hn) as [Hpk Hlx]; [lia|lia|]. run Hpk.
    eexists l, _. split; [|split; [|split; [|done]]].
    + rewrite u32_small by (unfold is_u32; lia). replace (total l + rec_of name - rec_of name) with (total l) by lia. reflexivity.
    + apply Hdone; [lia|done|done].
    + by rewrite Htx.
Qed.

(** The offset behind entries of these names. *)
Fixpoint dir_size (off : Z) (names : list (list byte)) : Z :=
  match names with [] => off | n :: names => dir_size (dir_step bs off (rec_of n)) names end.

Lemma dir_step_gt off n : 0 <= off -> blen n <= 255 -> off < dir_step bs off (rec_of n).
Proof.
  intros Ho Hn. destruct (rec_of_bounds n Hn). pose proof (blen_nonneg n). pose proof (Z.mod_pos_bound off bs ltac:(lia)). unfold dir_step.
  destruct (bs <? _); lia.
Qed.

Lemma dir_size_ge names : forall off, 0 <= off -> Forall (fun n => blen n <= 255) names -> off <= dir_size off names.
Proof.
  induction names as [|n names IH]; intros off Ho Hn; [done|]. apply Forall_cons_1 in Hn as [Hn Hns]. pose proof (dir_step_gt off n Ho Hn).
  cbn. pose proof (IH (dir_step bs off (rec_of n)) ltac:(lia) Hns). lia.
Qed.

(** [dentry_size] is this offset: the loop that sizes the directory agrees with
    the loop that writes it. *)
Lemma dentry_size_ok ds : forall off, 0 <= off -> Forall (fun n => blen n <= 255) (d_filename <$> ds) -> dir_size off (d_filename <$> ds) < 2 ^ 31 ->
  dentry_size_loop info off ds = dir_size off (d_filename <$> ds).
Proof.
  induction ds as [|d ds IH]; intros off Ho Hn Hlt; [done|]. rewrite fmap_cons in *. apply Forall_cons_1 in Hn as [Hn Hns]. cbn [dentry_size_loop dir_size] in *.
  fold (rec_of (d_filename d)). destruct (rec_of_bounds _ Hn) as [Hr _]. pose proof (blen_nonneg (d_filename d)).
  pose proof (dir_step_gt off _ Ho Hn) as Hgt. pose proof (dir_size_ge _ (dir_step bs off (rec_of (d_filename d))) ltac:(lia) Hns) as Hge.
  pose proof (Z.mod_pos_bound off bs ltac:(lia)). rewrite (u32_small (rec_of _)), (u32_small (off mod bs + _)) by (unfold is_u32; lia).
  assert (Hstep : u32 ((if bs <? off mod bs + rec_of (d_filename d) then u32 (off + (bs - off mod bs)) else off) + rec_of (d_filename d)) =
    dir_step bs off (rec_of (d_filename d))).
  { unfold dir_step in *. destruct (bs <? _); rewrite ?(u32_small (off + (bs - off mod bs))) by (unfold is_u32; lia); apply u32_small; unfold is_u32; lia. }
  rewrite Hstep. apply IH; [lia|done|done].
Qed.

Lemma prev_of_snoc l x : prev_of (l ++ [x]) = Some (total l).
Proof. unfold prev_of. rewrite last_snoc, total_app. f_equal. unfold total at 2. cbn. lia. Qed.

(** A directory entry's name and type. *)
Definition dentry_ok (d : dentry) : Prop := blen (d_filename d) <= 255 /\ 0 <= d_file_type d < 256.

(** Where the entries of [L] from number [k] on begin. *)
Definition point_at (b : nat) (L : list item) (k : nat) (ds : list dentry) : list dentry :=
  zip_with (fun d i => set_d_inode d (b, total (take i L))) ds (seq k (length ds)).

Lemma point_at_cons b L k d ds : point_at b L k (d :: ds) = set_d_inode d (b, total (take k L)) :: point_at b L (S k) ds.
Proof. done. Qed.

Lemma same_starts_take l l' k : same_starts l l' -> (k < length l)%nat -> take k l' = take k l.
Proof.
  intros [_ Ht] Hk. assert (Hm : forall q : list item, take k q = take k (take (pred (length l)) q)) by (intros q; by rewrite take_take, Nat.min_l by lia).
  by rewrite (Hm l'), (Hm l), Ht.
Qed.

Lemma add_dentries_ok b len ds : forall l x s, written b len (l ++ [x]) s -> Forall dentry_ok ds ->
  dir_size (total (l ++ [x])) (d_filename <$> ds) <= len ->
  exists L y c, add_dentries info b len (total (l ++ [x])) (total l) ds s =
      Ok (total (L ++ [y]), total L, point_at b (L ++ [y]) (S (length l)) ds) (set_buf s b c) /\
    written b len (L ++ [y]) (set_buf s b c) /\ total (L ++ [y]) = dir_size (total (l ++ [x])) (d_filename <$> ds) /\
    shown (L ++ [y]) = shown (l ++ [x]) ++ ((fun d => (0, d_file_type d, d_filename d)) <$> ds) /\
    length (L ++ [y]) = (length (l ++ [x]) + length ds)%nat /\ take (length l) (L ++ [y]) = l.
Proof.
  induction ds as [|d ds IH]; intros l x s Hw Hds Hle.
  { exists l, x, (encs (l ++ [x]) ++ zeros (len - total (l ++ [x]))).
    assert (Hs : set_buf s b (encs (l ++ [x]) ++ zeros (len - total (l ++ [x]))) = s)
      by (destruct Hw as [Hb _ _]; destruct s; unfold set_buf; cbn in *; by rewrite list_insert_id).
    rewrite Hs. split_and!; [done|done|done|by rewrite app_nil_r|cbn; lia|apply take_app_length]. }
  apply Forall_cons_1 in Hds as [[Hn Hft] Hds]. rewrite fmap_cons in *. cbn [dir_size] in Hle |- *. set (off := dir_step bs (total (l ++ [x])) _) in *.
  pose proof (total_nonneg _ _ _ (wn_laid _ _ _ _ Hw)) as Ht0. pose proof (dir_step_gt _ _ Ht0 Hn) as Hgt. fold off in Hgt.
  assert (Hnames : Forall (fun n => blen n <= 255) (d_filename <$> ds)) by (apply Forall_fmap; eapply Forall_impl; [exact Hds|]; by intros ? [? _]).
  pose proof (dir_size_ge _ off ltac:(lia) Hnames) as Hge. destruct Hw as [Hb Hl Hlen].
  destruct (add_dentry_ok b len (l ++ [x]) s 0 (d_file_type d) (d_filename d) ltac:(by split) ltac:(by split) Hft Hn ltac:(fold off; lia))
    as (l1 & c1 & Hrun & Hw1 & Ht1 & Hsh & Hst). fold off in Hrun, Ht1. rewrite prev_of_snoc in Hrun. set (z := mk_item _ _ _ _) in *.
  assert (Hl1 : length l1 = S (length l)) by (destruct Hst as [H _]; rewrite H, length_app; cbn; lia).
  assert (Hz : off - rec_of (d_filename d) = total l1) by (rewrite <- Ht1, total_app; unfold total at 2; cbn; lia).
  destruct (IH l1 z (set_buf s b c1) Hw1 Hds ltac:(by rewrite Ht1)) as (L & y & c & Hr & Hw' & Ht' & Hsh' & Hln & Htk).
  rewrite set_buf_twice in Hr, Hw'. exists L, y, c. split; [|split_and!].
  - cbn [add_dentries]. run Hrun.
    assert (Hcond : (len <? off) || ((off =? len) && negb (bool_decide (ds = []))) = false).
    { rewrite (proj2 (Z.ltb_ge _ _)) by lia. cbn [orb]. destruct (Z.eqb_spec off len) as [Heq|]; [|done]. cbn [andb]. apply negb_false_iff, bool_decide_eq_true.
      destruct ds as [|d' ds]; [done|]. exfalso. rewrite fmap_cons in Hle, Hnames. apply Forall_cons_1 in Hnames as [Hn' Hns]. cbn [dir_size] in Hle.
      pose proof (dir_step_gt off _ ltac:(lia) Hn'). pose proof (dir_size_ge _ (dir_step bs off (rec_of (d_filename d'))) ltac:(lia) Hns). lia. }
    rewrite Hcond. rewrite Ht1 in Hr. rewrite Hz. run Hr. rewrite point_at_cons, <- Hl1, Htk. done.
  - done.
  - by rewrite Ht', Ht1.
  - rewrite Hsh'. unfold shown in *. rewrite !fmap_app, Hsh, fmap_app, <- !app_assoc. done.
  - rewrite Hln, !length_app, Hl1. cbn. lia.
  - rewrite <- (take_app_length l [x]) at 2. rewrite <- (same_starts_take (l ++ [x]) l1) by (done || rewrite length_app; cbn; lia).
    rewrite <- Htk, take_take, Nat.min_l by lia. done.
Qed.

Lemma padded_0 x : padded x 0 = x.
Proof. unfold padded. destruct x. cbn. by rewrite Z.add_0_r. Qed.

(** The last entry takes the rest of its block. *)
Lemma close_ok b len l x s : written b len (l ++ [x]) s -> len = bs * DIV_ROUND_UP (total (l ++ [x])) bs ->
  exists y, let L := l ++ [y] in add_rec_len b (total l) (u32 (len - total (l ++ [x]))) s = Ok tt (set_buf s b (encs L)) /\ laid bs 0 L /\ total L = len /\
    shown L = shown (l ++ [x]).
Proof.
  intros Hw Hlen. pose proof Hw as [Hb Hl Hle]. pose proof (total_nonneg _ _ _ Hl) as Ht0. pose proof (DIV_ROUND_UP_bounds (total (l ++ [x])) bs ltac:(lia)) as Hd.
  rewrite u32_small by (unfold is_u32; lia). destruct (Z.eq_dec (total (l ++ [x])) len) as [He|Hne].
  - exists x. cbv zeta. split_and!; try done. rewrite He, Z.sub_diag. pose proof Hl as Hl'. apply laid_app in Hl' as (Hl0 & Hx & _).
    rewrite encs_snoc, <- (blen_encs bs l 0 Hl0). assert (Hi := add_rec_len_ok s b l x 0 0). rewrite padded_0, !app_nil_r in Hi by done.
    apply Hi; [|done|lia|]; [|destruct Hx as (_ & _ & _ & ? & _); lia]. by rewrite Hb, He, Z.sub_diag, app_nil_r, encs_snoc.
  - set (n := len - total (l ++ [x])). pose proof (Z.div_mod (total (l ++ [x])) bs ltac:(lia)) as Hdm. pose proof (Z.mod_pos_bound (total (l ++ [x])) bs ltac:(lia)).
    assert (Hq : DIV_ROUND_UP (total (l ++ [x])) bs = total (l ++ [x]) / bs + 1) by nia.
    assert (Hm : total (l ++ [x]) mod bs <> 0) by nia. assert (Hn : n = bs - total (l ++ [x]) mod bs) by (unfold n; rewrite Hlen, Hq; lia).
    destruct (fill_ok b len (l ++ [x]) s n Hw) as (p & Hp & Hrun & Hlaid & Ht);
      [lia|rewrite Hn; by apply (pad_mod4 _ 0)|done|rewrite Hn; lia|lia|by destruct l|].
    rewrite prev_of_snoc in Hp. injection Hp as <-. unfold filled in *. rewrite last_snoc, removelast_last in *.
    replace (total (l ++ [x]) + n) with len in * by (unfold n; lia). exists (padded x (len - total (l ++ [x]))). cbv zeta. split_and!; try done.
    + rewrite Hrun, Ht, Z.sub_diag, app_nil_r. done.
    + unfold shown. by rewrite !fmap_app.
Qed.

(** The part of [make_directory] that writes the entries. *)
Definition write_directory (data : nat) (len inode_num dir_inode_num : Z) (dentries : list dentry) : fsM (list dentry) :=
  '(offset, dentry) ← add_dentry info data 0 None inode_num dot EXT4_FT_DIR;
  '(offset, dentry) ← add_dentry info data offset (Some dentry) dir_inode_num dotdot EXT4_FT_DIR;
  '(offset, dentry, dentries) ← add_dentries info data len offset dentry dentries;
  _ ← add_rec_len data dentry (u32 (len - offset));
  mret dentries.

Definition dir_len (ds : list dentry) : Z := bs * DIV_ROUND_UP (dir_size 24 (d_filename <$> ds)) bs.

Lemma write_directory_ok b ds s ino parent : bufs s !! b = Some (zeros (dir_len ds)) -> is_u32 ino -> is_u32 parent -> Forall dentry_ok ds -> dir_len ds < 2 ^ 31 ->
  exists L, write_directory b (dir_len ds) ino parent ds s = Ok (point_at b L 2 ds) (set_buf s b (encs L)) /\ laid bs 0 L /\ total L = dir_len ds /\
    shown L = (ino, EXT4_FT_DIR, dot) :: (parent, EXT4_FT_DIR, dotdot) :: ((fun d => (0, d_file_type d, d_filename d)) <$> ds) /\ length L = S (S (length ds)).
Proof.
  intros Hb Hi Hp Hds Hlen. assert (Hnames : Forall (fun n => blen n <= 255) (d_filename <$> ds)) by (apply Forall_fmap; eapply Forall_impl; [exact Hds|]; by intros ? [? _]).
  pose proof (dir_size_ge _ 24 ltac:(lia) Hnames) as Hge. pose proof (DIV_ROUND_UP_bounds (dir_size 24 (d_filename <$> ds)) bs ltac:(lia)) as Hd. fold (dir_len ds) in Hd.
  set (len := dir_len ds) in *. assert (Hw0 : written b len [] s) by (split; [by rewrite Hb; cbn; rewrite Z.sub_0_r|done|cbn; lia]).
  assert (Hs1 : dir_step bs 0 (rec_of dot) = 12) by (unfold dir_step; change (rec_of dot) with 12; rewrite Z.mod_0_l, (proj2 (Z.ltb_ge _ _)) by lia; done).
  assert (Hs2 : dir_step bs 12 (rec_of dotdot) = 24) by (unfold dir_step; change (rec_of dotdot) with 12; rewrite (Z.mod_small 12), (proj2 (Z.ltb_ge _ _)) by lia; done).
  destruct (add_dentry_ok b len [] s ino EXT4_FT_DIR dot Hw0 Hi ltac:(done) ltac:(done) ltac:(cbn [total foldr]; rewrite Hs1; lia))
    as (l1 & c1 & Hr1 & Hw1 & Ht1 & _ & [Hl1 _]). apply nil_length_inv in Hl1 as ->. set (x1 := mk_item _ _ _ _) in *. cbn [total foldr] in Hr1, Ht1. rewrite Hs1 in Hr1, Ht1.
  destruct (add_dentry_ok b len [x1] (set_buf s b c1) parent EXT4_FT_DIR dotdot Hw1 Hp ltac:(done) ltac:(done)) as (l2 & c2 & Hr2 & Hw2 & Ht2 & Hsh2 & [Hl2 Hst2]).
  { cbn [app] in Ht1. rewrite Ht1, Hs2. lia. }
  cbn [app] in Ht1. rewrite Ht1, Hs2 in Hr2, Ht2. rewrite set_buf_twice in Hr2, Hw2. set (x2 := mk_item parent _ _ _) in *.
  change (prev_of [x1]) with (prev_of ([] ++ [x1])) in Hr2. rewrite prev_of_snoc in Hr2.
  destruct (add_dentries_ok b len ds l2 x2 (set_buf s b c2) Hw2 Hds) as (L & y & c & Hr3 & Hw3 & Ht3 & Hsh3 & Hln3 & _); [rewrite Ht2; lia|].
  rewrite set_buf_twice in Hr3, Hw3. rewrite Ht2 in Hr3, Ht3.
  destruct (close_ok b len L y (set_buf s b c) Hw3) as (z & Hr4 & Hlaid & Htot & Hsh4); [by rewrite Ht3|]. rewrite set_buf_twice in Hr4. rewrite Hl2 in Hr3.
  assert (Hpos : total l2 = 12) by (rewrite total_app in Ht2; unfold total at 2 in Ht2; cbn in Ht2; change (rec_of dotdot) with 12 in Ht2; lia).
  exists (L ++ [z]). split_and!; [|done|done| |].
  - unfold write_directory. run Hr1. run Hr2. change (24 - rec_of dotdot) with 12. rewrite Hpos in Hr3. run Hr3. run Hr4. unfold mret, fsM_ret. f_equal.
    unfold point_at. rewrite !length_app, Hl2 in Hln3. cbn in Hln3.
    apply list_eq. intros i. rewrite !lookup_zip_with. destruct (ds !! i) as [d|] eqn:Hdi; [|done]. cbn. pose proof (lookup_lt_Some _ _ _ Hdi).
    rewrite lookup_seq_lt by lia. cbn. rewrite !take_app_le by lia. done.
  - rewrite Hsh4, Hsh3. unfold shown in *. rewrite fmap_app, Hsh2. done.
  - rewrite !length_app, Hl2 in Hln3. rewrite length_app. cbn in *. lia.
Qed.
End Write.
