(* ===== verification/Ext4ContentsCorrect.v ===== *)
(** * Files, directories and links of an ext4 image

    The routines of contents.c on a filesystem that satisfies [image_ok]:
    every new object gets an inode of its own, its contents reach the blocks
    the inode describes, and what was there before is left alone. *)
From S2P Require Import Prelude CStrings SparseFormat Ext4Alloc Ext4Bits Ext4AllocCorrect Ext4Extent Ext4ExtentCorrect Ext4InodeCorrect Ext4Indirect Ext4Contents Ext4DirCorrect.

(** The limits of one extent block and of 16-bit fields. *)
Record extent_geometry (info : fs_info) (aux : fs_aux_info) : Prop := {
  eg_bs : 1024 <= block_size info < 2 ^ 16;
  eg_bs4 : block_size info mod 4 = 0;
  eg_bpg : blocks_per_group info < 2 ^ 16;
  eg_groups : groups aux <= (block_size info - 12) / 12
}.

Section Contents.
Context (force : bool) (info : fs_info) (aux : fs_aux_info).
Context (Hge : geometry info aux) (Hig : inode_geometry info aux) (Heg : extent_geometry info aux).
Abbreviation bs := (block_size info).
Abbreviation inode_of n := (inode_at info n).
Abbreviation the_inode s n := (default zero_inode (inodes s !! inode_of n)).

(** Free blocks for [len] bytes, an extent block, and some left in a group. *)
Record fits (s : fs) (len : Z) : Prop := {
  ft_len : 0 < len < 2 ^ 63;
  ft_blocks : DIV_ROUND_UP len bs + 1 < 2 ^ 31;
  ft_free : DIV_ROUND_UP len bs + 1 <= total_free s;
  ft_groups : groups aux < total_free s
}.

Lemma two_free s : fs_ok info aux s -> groups aux < total_free s -> exists n, n ∈ frees s /\ 2 <= n.
Proof.
  intros Hs Hlt. pose proof (ge_groups _ _ Hge). assert (Hlen : blen (frees s) = groups aux).
  { unfold frees, blen. rewrite length_fmap, (fo_groups _ _ _ Hs). lia. }
  unfold total_free in Hlt. rewrite <- Hlen in Hlt. clear -Hlt. induction (frees s) as [|m l IH]; [unfold blen in Hlt; cbn in Hlt; lia|].
  cbn [foldr] in Hlt. assert (Hc : blen (m :: l) = 1 + blen l) by (unfold blen; cbn; lia). destruct (Z.leb_spec 2 m); [exists m; split; [by left|done]|].
  destruct IH as (n & Hn & H2); [lia|]. exists n. split; [by right|done].
Qed.

Lemma image_room s p len : image_ok info aux s -> fits s len -> room info aux s p len.
Proof.
  intros Him [Fl Fb Ff Fg]. pose proof (eg_bs _ _ Heg). split; try done; try apply Heg.
  - apply Him.
  - by apply two_free; [apply Him|].
  - apply Him.
  - apply Him.
  - apply Forall_forall. apply Him.
Qed.

(** A new object with inode number [n]. *)
Record made (s : fs) (n : Z) (s' : fs) : Prop := {
  md_image : image_ok info aux s';
  md_fresh : ~ used_inode info s n;
  md_used : forall m, used_inode info s' m <-> used_inode info s m \/ m = n;
  md_range : 0 < n <= groups aux * inodes_per_group info;
  md_free : free_inodes s' = free_inodes s - 1
}.

(** The number and the inode of a new object. *)
Lemma new_inode_ok s : image_ok info aux s -> 0 < free_inodes s ->
  exists n q s1 s2, allocate_inode info aux s = Ok n s1 /\ (n =? EXT4_ALLOCATE_FAILED) = false /\ get_inode info aux n s1 = Ok (inode_of n) s2 /\
    made s n s2 /\ calm info s s2 q /\ inodes s2 !! inode_of n = None /\ heap s2 = heap s.
Proof.
  intros Him Hf. destruct (allocate_inode_ok info aux Hge Hig s (im_fs _ _ _ Him) (im_inodes _ _ _ Him) Hf) as (n & s1 & Hr & Ht).
  pose proof (inode_taken_image info aux Hge s n s1 Him Ht) as Him1. destruct (get_inode_ok info aux Hge Hig s1 n Him1 (it_range _ _ _ _ _ Ht)) as (q & s2 & Hg & Hp).
  exists n, ([] ++ q), s1, s2. pose proof (ig_count _ _ Hig). pose proof (it_range _ _ _ _ _ Ht).
  assert (Hc : calm info s s2 ([] ++ q)) by (apply (calm_trans info aux Hge s s1); [by apply (inode_taken_calm info aux s n)|by eapply prepared_calm]).
  split_and!; [done|apply Z.eqb_neq; unfold EXT4_ALLOCATE_FAILED; lia|done| |done| |].
  - split; [apply Hp|apply Ht| |done|rewrite (same_inodes_free info s1 s2) by apply Hp; apply Ht].
    intros m. rewrite (same_inodes_used info s1 s2 m) by apply Hp. apply Ht.
  - rewrite (ca_inodes _ _ _ _ Hc). apply (im_unused _ _ _ Him); [lia|apply Ht].
  - destruct (pr_rest _ _ _ _ _ Hp) as [-> _]. apply (it_rest _ _ _ _ _ Ht).
Qed.

(** Changing other fields of an inode that is in use. *)
Definition with_inode (s : fs) (p : inode_ptr) (i : ext4_inode) : fs :=
  mk_fs (bgs s) (heap s) (ext4_sparse_file s) (xattrs s) (<[p := i]> (inodes s)) (bufs s).

Lemma update_inode_ok p f s : update_inode p f s = Ok tt (with_inode s p (f (default zero_inode (inodes s !! p)))).
Proof. done. Qed.

Lemma with_inode_image s n i : image_ok info aux s -> used_inode info s n -> blen (i_block i) = EXT4_BLOCK_BYTES -> image_ok info aux (with_inode s (inode_of n) i).
Proof.
  intros [If Ii It Ib In Iz Iq] Hun Hb. split; try done.
  - by apply (fs_ok_bgs info aux s).
  - intros p. cbn. destruct (decide (p = inode_of n)) as [->|Hne]; [by rewrite lookup_insert_eq|]. rewrite lookup_insert_ne by congruence. apply Ib.
  - intros m Hm Hnu. cbn. rewrite lookup_insert_ne; [by apply In|]. intros Heq. pose proof (ig_ipg _ _ Hig). apply inode_at_inj in Heq as ->; [done|lia].
Qed.

Lemma made_with_inode s n s' i : made s n s' -> blen (i_block i) = EXT4_BLOCK_BYTES -> made s n (with_inode s' (inode_of n) i).
Proof. intros [A B C D E] Hb. split; try done. apply with_inode_image; [done| |done]. apply C. by right. Qed.

Lemma made_keeps s n s1 s2 : made s n s1 -> keeps info s1 s2 -> image_ok info aux s2 -> made s n s2.
Proof.
  intros [A B C D E] Hk Hi. pose proof (keeps_same_inodes info s1 s2 Hk) as Hs. split; [done|done| |done|by rewrite (same_inodes_free info s1 s2)].
  intros m. rewrite (same_inodes_used info s1 s2 m Hs). apply C.
Qed.

Lemma fits_calm s s' q len : calm info s s' q -> fits s len -> fits s' len.
Proof. intros Hc [A B C D]. split; try done; by rewrite (same_blocks_total info s s') by apply Hc. Qed.

(** ** Files *)

Lemma make_file_ok s name len saved : image_ok info aux s -> 0 < free_inodes s -> 0 <= len -> (0 < len -> fits s len) ->
  exists n saved' s', make_file force info aux name len saved s = Ok (n, saved') s' /\ made s n s' /\
    i_mode (the_inode s' n) = S_IFREG /\ i_links_count (the_inode s' n) = 1 /\
    if len =? 0 then i_size_lo (the_inode s' n) = 0 /\ i_size_high (the_inode s' n) = 0 /\
      exists q s2, calm info s s2 q /\ s' = with_inode s2 (inode_of n) (the_inode s' n)
    else exists q, stored info aux s (inode_of n) len (inr name) q s'.
Proof.
  intros Him Hf Hlen Hfit. destruct (new_inode_ok s Him Hf) as (n & q0 & s1 & s2 & Ha & Hne & Hg & Hmade & Hcalm & Hnone & _).
  unfold make_file. run Ha. rewrite Hne. run Hg. destruct (Z.eqb_spec len 0) as [->|Hpos].
  - change (0 <? 0) with false. cbv iota. erewrite (bind_Ok (mret saved)) by reflexivity. rewrite (bind_Ok _ _ _ _ _ (update_inode_ok _ _ s2)).
    eexists n, saved, _. split; [reflexivity|]. rewrite Hnone. cbn [default]. split_and!.
    + by apply made_with_inode.
    + cbn. by rewrite lookup_insert_eq.
    + cbn. by rewrite lookup_insert_eq.
    + cbn. by rewrite lookup_insert_eq.
    + cbn. by rewrite lookup_insert_eq.
    + exists q0, s2. split; [done|]. cbn. by rewrite lookup_insert_eq.
  - rewrite (proj2 (Z.ltb_lt 0 len)) by lia. pose proof (fits_calm s s2 q0 len Hcalm (Hfit ltac:(lia))) as Hfit2. pose proof (md_image _ _ _ Hmade) as Him2.
    destruct (file_extents_ok force info aux s2 (inode_of n) len name Hge (image_room s2 _ len Him2 Hfit2)) as (a & q & s3 & Hr & Hst & Hke).
    assert (Hn2 : used_inode info s2 n) by (apply (md_used _ _ _ Hmade); by right).
    pose proof (stored_image info aux Hig s2 s3 q n len _ Him2 Hn2 Hst Hke) as Him3.
    erewrite bind_Ok by (by run Hr). cbv beta. rewrite (bind_Ok _ _ _ _ _ (update_inode_ok _ _ s3)). eexists n, _, _. split; [reflexivity|].
    set (i3 := default zero_inode (inodes s3 !! inode_of n)). split_and!.
    + apply made_with_inode; [by apply (made_keeps s n s2)|]. apply (st_body _ _ _ _ _ _ _ _ Hst).
    + cbn. by rewrite lookup_insert_eq.
    + cbn. by rewrite lookup_insert_eq.
    + exists (q0 ++ q). apply (stored_calm info aux Hge s s2); [done|done|]. apply (stored_inode info aux s2 s3); try done; cbn.
      * intros p Hp. by rewrite lookup_insert_ne.
      * by rewrite lookup_insert_eq.
      * by rewrite lookup_insert_eq.
      * by rewrite lookup_insert_eq.
Qed.

(** ** Directories *)

(** [make_directory] from the inode's number on. *)
Definition fill_directory (dir_inode_num inode_num len : Z) (dentries : list dentry) (dirs : Z) : fsM (Z * list dentry) :=
  _ ← add_directory info inode_num;
  inode ← get_inode info aux inode_num;
  data ← inode_allocate_data_extents force info aux inode len len;
  match data with
  | None => _ ← error force; mret (EXT4_ALLOCATE_FAILED, dentries)
  | Some data =>
      _ ← update_inode inode (fun i => set_flags (set_mode i S_IFDIR (u16 (dirs + 2))) (Z.lor (i_flags i) (default_i_flags aux)));
      dentries ← write_directory info data len inode_num dir_inode_num dentries;
      mret (inode_num, dentries)
  end.

(** The directory with inode number [n] in parent [parent]: the blocks of its
    inode hold a buffer with the records [L], which are its entries, and the
    entries point to their records. *)
Record directory (s : fs) (n parent : Z) (ds : list dentry) (dirs : Z) (b : nat) (L : list item) (ds' : list dentry) (s' : fs) : Prop := {
  di_mode : i_mode (the_inode s' n) = S_IFDIR;
  di_links : i_links_count (the_inode s' n) = u16 (dirs + 2);
  di_new : (length (bufs s) <= b)%nat;
  di_stored : exists q, stored info aux s (inode_of n) (dir_len info ds) (inl (Buf b)) q s';
  di_buf : bufs s' !! b = Some (encs L);
  di_laid : laid bs 0 L;
  di_total : total L = dir_len info ds;
  di_shown : shown L = (n, EXT4_FT_DIR, dot) :: (parent, EXT4_FT_DIR, dotdot) :: ((fun d => (0, d_file_type d, d_filename d)) <$> ds);
  di_points : ds' = point_at b L 2 ds
}.

Lemma bind_ext {A B} (m : fsM A) (f g : A -> fsM B) s : (forall x s', f x s' = g x s') -> (x ← m; f x) s = (x ← m; g x) s.
Proof. intros H. unfold mbind, fsM_bind. destruct (m s); [apply H|done..]. Qed.

Lemma bind_assoc {A B C} (m : fsM A) (f : A -> fsM B) (g : B -> fsM C) s : (y ← (x ← m; f x); g y) s = (x ← m; y ← f x; g y) s.
Proof. unfold mbind, fsM_bind. by destruct (m s). Qed.

Lemma make_directory_eq parent ds dirs s :
  let len := u32 (u32 (dentry_size info ds + block_size info - 1) / block_size info * block_size info) in
  make_directory force info aux parent ds dirs s =
  (p ← (if negb (parent =? 0) then n ← allocate_inode info aux; mret (parent, n) else mret (EXT4_ROOT_INO, EXT4_ROOT_INO));
   if p.2 =? EXT4_ALLOCATE_FAILED then _ ← error force; mret (EXT4_ALLOCATE_FAILED, ds) else fill_directory p.1 p.2 len ds dirs) s.
Proof.
  unfold make_directory, fill_directory, write_directory. cbv zeta. apply bind_ext. intros [dn n] s1. cbn [fst snd]. destruct (n =? _); [done|].
  apply bind_ext. intros _ s2. apply bind_ext. intros i s3. apply bind_ext. intros [b|] s4; [|done]. apply bind_ext. intros _ s5.
  rewrite bind_assoc. apply bind_ext. intros [o d] s6. rewrite bind_assoc. apply bind_ext. intros [o' d'] s7. rewrite bind_assoc.
  apply bind_ext. intros [[o'' d''] ds'] s8. rewrite bind_assoc. by apply bind_ext.
Qed.

Lemma dir_len_fits ds : Forall dentry_ok ds -> dir_len info ds < 2 ^ 31 ->
  u32 (u32 (dentry_size info ds + bs - 1) / bs * bs) = dir_len info ds.
Proof.
  intros Hds Hlen. pose proof (eg_bs _ _ Heg) as Hbs.
  assert (Hnames : Forall (fun n => blen n <= 255) (d_filename <$> ds)) by (apply Forall_fmap; eapply Forall_impl; [exact Hds|]; by intros ? [? _]).
  pose proof (dir_size_ge info ltac:(lia) (d_filename <$> ds) 24 ltac:(lia) Hnames) as Hsz.
  unfold dir_len in *. pose proof (DIV_ROUND_UP_bounds (dir_size info 24 (d_filename <$> ds)) bs ltac:(lia)) as Hd.
  unfold dentry_size. rewrite dentry_size_ok by (done || lia). rewrite (u32_small (_ + bs - 1)) by (unfold is_u32; lia).
  fold (DIV_ROUND_UP (dir_size info 24 (d_filename <$> ds)) bs). rewrite u32_small by (unfold is_u32; lia). lia.
Qed.

Lemma fill_directory_ok s n parent ds dirs : image_ok info aux s -> used_inode info s n -> 0 < n <= groups aux * inodes_per_group info ->
  is_u32 parent -> Forall dentry_ok ds -> dir_len info ds < 2 ^ 31 -> fits s (dir_len info ds) ->
  exists b L ds' s', fill_directory parent n (dir_len info ds) ds dirs s = Ok (n, ds') s' /\ directory s n parent ds dirs b L ds' s' /\
    image_ok info aux s' /\ same_inodes info s s'.
Proof.
  intros Him Hn Hrange Hpar Hds Hlen Hfit. pose proof (ig_count _ _ Hig) as Hcnt. unfold fill_directory.
  destruct (add_directory_ok info aux Hge Hig s n Him Hrange) as (s1 & Hr1 & Hp1). run Hr1.
  destruct (get_inode_ok info aux Hge Hig s1 n ltac:(apply Hp1) Hrange) as (q2 & s2 & Hr2 & Hp2). run Hr2.
  pose proof (prepared_trans info aux Hge s s1 s2 _ _ Hp1 Hp2) as Hp. pose proof (prepared_calm info aux s s2 _ Hp) as Hc.
  pose proof (pr_image _ _ _ _ _ Hp) as Him2. pose proof (fits_calm s s2 _ _ Hc Hfit) as Hfit2.
  destruct (data_extents_ok force info aux s2 (inode_of n) (dir_len info ds) Hge (image_room s2 _ _ Him2 Hfit2)) as (b & q & s3 & Hr3 & Hb & Hnew & Hke & Hst).
  run Hr3. rewrite (bind_Ok _ _ _ _ _ (update_inode_ok _ _ s3)). set (i' := set_flags _ _).
  pose proof (eg_bs _ _ Heg) as Hbs. pose proof (eg_bs4 _ _ Heg) as Hbs4.
  destruct (write_directory_ok info Hbs Hbs4 b ds (with_inode s3 (inode_of n) i') n parent Hb ltac:(unfold is_u32; lia) Hpar Hds Hlen)
    as (L & Hr4 & Hlaid & Htot & Hsh & _). run Hr4. exists b, L, (point_at b L 2 ds). eexists. split; [reflexivity|].
  set (s4 := set_buf s3 b (encs L)). assert (Hs4 : set_buf (with_inode s3 (inode_of n) i') b (encs L) = with_inode s4 (inode_of n) i') by done. rewrite Hs4.
  specialize (Hst (encs L)). fold s4 in Hst. assert (Hn2 : used_inode info s2 n) by (apply (same_inodes_used info s s2); [apply Hp|done]).
  assert (Hke4 : keeps info s2 s4) by done. pose proof (keeps_same_inodes info s2 s4 Hke4) as Hsi.
  pose proof (stored_image info aux Hig s2 s4 q n _ _ Him2 Hn2 Hst Hke4) as Him4. split; [split|split].
  - cbn. by rewrite lookup_insert_eq.
  - cbn. by rewrite lookup_insert_eq.
  - rewrite <- (ca_bufs _ _ _ _ Hc). done.
  - eexists. apply (stored_calm info aux Hge s s2); [done|done|]. apply (stored_inode info aux s2 s4 _ q); try done; cbn.
    + intros p' Hp'. by rewrite lookup_insert_ne.
    + by rewrite lookup_insert_eq.
    + by rewrite lookup_insert_eq.
    + by rewrite lookup_insert_eq.
  - cbn. apply list_lookup_insert_eq. by apply lookup_lt_Some in Hb.
  - done.
  - done.
  - done.
  - done.
  - apply with_inode_image; [done|by apply (same_inodes_used info s2 s4)|]. apply (st_body _ _ _ _ _ _ _ _ Hst).
  - transitivity s2; [apply Hp|exact Hsi].
Qed.

Lemma directory_calm s s1 q n parent ds dirs b L ds' s' : calm info s s1 q -> directory s1 n parent ds dirs b L ds' s' -> directory s n parent ds dirs b L ds' s'.
Proof.
  intros Hc [A1 A2 A3 (q' & A4) A5 A6 A7 A8 A9]. split; try done; [by rewrite <- (ca_bufs _ _ _ _ Hc)|].
  exists (q ++ q'). by apply (stored_calm info aux Hge s s1).
Qed.

Lemma make_directory_ok s parent ds dirs : image_ok info aux s -> 0 < free_inodes s -> 0 < parent < 2 ^ 32 -> Forall dentry_ok ds ->
  dir_len info ds < 2 ^ 31 -> fits s (dir_len info ds) ->
  exists n b L ds' s', make_directory force info aux parent ds dirs s = Ok (n, ds') s' /\ made s n s' /\ directory s n parent ds dirs b L ds' s'.
Proof.
  intros Him Hf Hpar Hds Hlen Hfit. destruct (allocate_inode_ok info aux Hge Hig s (im_fs _ _ _ Him) (im_inodes _ _ _ Him) Hf) as (n & s1 & Hr & Ht).
  pose proof (inode_taken_image info aux Hge s n s1 Him Ht) as Him1. pose proof (inode_taken_calm info aux s n s1 Ht) as Hc.
  pose proof (it_range _ _ _ _ _ Ht) as Hrange. pose proof (ig_count _ _ Hig).
  assert (Hn1 : used_inode info s1 n) by (apply (it_used _ _ _ _ _ Ht); by right).
  destruct (fill_directory_ok s1 n parent ds dirs Him1 Hn1 Hrange ltac:(unfold is_u32; lia) Hds Hlen (fits_calm s s1 [] _ Hc Hfit))
    as (b & L & ds' & s' & Hrun & Hdir & Him' & Hsi).
  exists n, b, L, ds', s'. split; [|split; [split; [done|apply Ht| |done|]|by apply (directory_calm s s1 [])]].
  - rewrite make_directory_eq. cbv zeta. rewrite dir_len_fits by done. rewrite (proj2 (Z.eqb_neq parent 0)) by lia. cbn [negb].
    erewrite bind_Ok by (run Hr; reflexivity). cbn [fst snd]. rewrite (proj2 (Z.eqb_neq n _)) by (unfold EXT4_ALLOCATE_FAILED; lia). done.
  - intros m. rewrite (same_inodes_used info s1 s' m Hsi). apply Ht.
  - rewrite (same_inodes_free info s1 s' Hsi). apply Ht.
Qed.

(** The root directory has the reserved inode 2 and is its own parent. *)
Lemma make_root_ok s ds dirs : image_ok info aux s -> used_inode info s EXT4_ROOT_INO -> Forall dentry_ok ds -> dir_len info ds < 2 ^ 31 -> fits s (dir_len info ds) ->
  exists b L ds' s', make_directory force info aux 0 ds dirs s = Ok (EXT4_ROOT_INO, ds') s' /\
    directory s EXT4_ROOT_INO EXT4_ROOT_INO ds dirs b L ds' s' /\ image_ok info aux s' /\ same_inodes info s s'.
Proof.
  intros Him Hu Hds Hlen Hfit. assert (Hrange : 0 < EXT4_ROOT_INO <= groups aux * inodes_per_group info).
  { split; [done|]. destruct Hu as (i & bg & Hbg & Hx & _). apply lookup_lt_Some in Hbg. rewrite (fo_groups _ _ _ (im_fs _ _ _ Him)) in Hbg.
    pose proof (ig_ipg _ _ Hig). nia. }
  destruct (fill_directory_ok s EXT4_ROOT_INO EXT4_ROOT_INO ds dirs Him Hu Hrange ltac:(by split) Hds Hlen Hfit) as (b & L & ds' & s' & Hrun & Hdir & Him' & Hsi).
  exists b, L, ds', s'. split; [|done]. rewrite make_directory_eq. cbv zeta. rewrite dir_len_fits by done. exact Hrun.
Qed.
End Contents.

(** ** Theorems *)

(** C24. A new directory reads back: [make_directory] takes a free inode, stores
    in the blocks of its extents a buffer that [parse_dir] reads as ".", ".."
    and the given names in order, with the inode numbers of the two first
    filled in, and keeps the invariant of the image and all other files. *)
Theorem make_directory_reads_back force info aux s parent ds dirs : geometry info aux -> inode_geometry info aux -> extent_geometry info aux ->
  image_ok info aux s -> 0 < free_inodes s -> 0 < parent < 2 ^ 32 -> Forall dentry_ok ds -> dir_len info ds < 2 ^ 31 -> fits info aux s (dir_len info ds) ->
  exists n ds' s' q b d, make_directory force info aux parent ds dirs s = Ok (n, ds') s' /\ image_ok info aux s' /\
    ~ used_inode info s n /\ (forall m, used_inode info s' m <-> used_inode info s m \/ m = n) /\
    stored info aux s (inode_at info n) (dir_len info ds) (inl (Buf b)) q s' /\ bufs s' !! b = Some d /\ blen d = dir_len info ds /\
    parse_dir (length ds + 2) (block_size info) 0 d =
      Some ((n, EXT4_FT_DIR, dot) :: (parent, EXT4_FT_DIR, dotdot) :: ((fun d => (0, d_file_type d, d_filename d)) <$> ds)).
Proof.
  intros Hge Hig Heg Him Hf Hpar Hds Hlen Hfit.
  destruct (make_directory_ok force info aux Hge Hig Heg s parent ds dirs Him Hf Hpar Hds Hlen Hfit) as (n & b & L & ds' & s' & Hr & [M1 M2 M3 _ _] & Hd).
  destruct Hd as [_ _ _ (q & Hst) Hb Hl Ht Hs _]. exists n, ds', s', q, b, (encs L). split_and!; try done.
  - by rewrite (blen_encs _ _ 0 Hl).
  - rewrite (parse_dir_ok _ _ _ _ Hl), Hs; [done|]. apply (f_equal length) in Hs. unfold shown in Hs. rewrite length_fmap in Hs. rewrite Hs. cbn. rewrite length_fmap. lia.
Qed.

(** A new file: [make_file] takes a free inode and, for a file that is not
    empty, stores the bytes of the host's file in the blocks of its extents. *)
Theorem make_file_stores force info aux s name len saved : geometry info aux -> inode_geometry info aux -> extent_geometry info aux ->
  image_ok info aux s -> 0 < free_inodes s -> fits info aux s len ->
  exists n saved' s' q, make_file force info aux name len saved s = Ok (n, saved') s' /\ image_ok info aux s' /\
    ~ used_inode info s n /\ (forall m, used_inode info s' m <-> used_inode info s m \/ m = n) /\
    i_mode (default zero_inode (inodes s' !! inode_at info n)) = S_IFREG /\ stored info aux s (inode_at info n) len (inr name) q s'.
Proof.
  intros Hge Hig Heg Him Hf Hfit. pose proof (ft_len _ _ _ _ Hfit).
  destruct (make_file_ok force info aux Hge Hig Heg s name len saved Him Hf ltac:(lia) (fun _ => Hfit)) as (n & saved' & s' & Hr & [M1 M2 M3 _ _] & Hm & _ & Hc).
  rewrite (proj2 (Z.eqb_neq len 0)) in Hc by lia. destruct Hc as (q & Hst). by exists n, saved', s', q.
Qed.

Module Ext4ContentsWitnesses.
Import Ext4Witnesses Ext4InodeWitnesses.

Lemma info1_extents : extent_geometry info1 aux1.
Proof. split; vm_compute; intuition congruence. Qed.

Lemma fs10_fits len : 0 < len <= 170 * 2048 -> fits info1 aux1 fs10 len.
Proof.
  intros Hlen. destruct fs10_left as [_ Ht]. pose proof (DIV_ROUND_UP_bounds len 2048 ltac:(lia)) as Hd.
  split; [lia|change (block_size info1) with 2048; lia|rewrite Ht; change (block_size info1) with 2048; lia|rewrite Ht; change (groups aux1) with 4; lia].
Qed.

Definition file_entry (name : string) (file_type : Z) : dentry :=
  mk_dentry name (Some name) (bytes_of name) [] 0 file_type 0 0 0 None 0 None 0.

Abbreviation two_entries := [file_entry "bin" EXT4_FT_DIR; file_entry "init.rc" EXT4_FT_REG_FILE].

Lemma make_directory_reads_back_witness : exists n ds' s' b d, make_directory false info1 aux1 2 two_entries 1 fs10 = Ok (n, ds') s' /\
  bufs s' !! b = Some d /\ parse_dir 4 2048 0 d = Some [(n, 2, dot); (2, 2, dotdot); (0, 2, bytes_of "bin"); (0, 1, bytes_of "init.rc")].
Proof.
  destruct fs10_left as [Hf _]. destruct (make_directory_reads_back false info1 aux1 fs10 2 two_entries 1
    (proj1 info1_layout) info1_inodes info1_extents (proj1 fs10_image)) as (n & ds' & s' & q & b & d & Hr & _ & _ & _ & _ & Hb & _ & Hp).
  - rewrite Hf. lia.
  - lia.
  - repeat constructor; vm_compute; congruence.
  - vm_compute. reflexivity.
  - apply fs10_fits. vm_compute. intuition congruence.
  - exists n, ds', s', b, d. split; [exact Hr|]. split; [exact Hb|exact Hp].
Defined.

Lemma make_file_stores_witness : exists n saved' s', make_file false info1 aux1 "init.rc" 5000 [] fs10 = Ok (n, saved') s' /\ ~ used_inode info1 fs10 n.
Proof.
  destruct fs10_left as [Hf _]. destruct (make_file_stores false info1 aux1 fs10 "init.rc" 5000 [] (proj1 info1_layout) info1_inodes info1_extents (proj1 fs10_image)
    ltac:(rewrite Hf; lia) ltac:(apply fs10_fits; lia)) as (n & saved' & s' & q & Hr & _ & Hn & _).
  exists n, saved', s'. split; [exact Hr|exact Hn].
Defined.
End Ext4ContentsWitnesses.
