(* ===== verification/Ext4Xattr.v ===== *)
(** * Extended attributes of an ext4 image (ext4_utils: contents.c, xattr.h)

    An attribute area is a list of bytes: the entries grow from its start and
    the values from its end.  Positions in it stand for the pointers of the
    code; an access outside of the area is a fault. *)
From S2P Require Import Prelude CStrings Ext4Alloc Ext4Extent Ext4Indirect Ext4Contents.

Definition EXT4_XATTR_INDEX_SECURITY : Z := 6.
Definition EXT4_XATTR_PAD_BITS : Z := 2.
Definition EXT4_XATTR_PAD : Z := Z.shiftl 1 EXT4_XATTR_PAD_BITS.
Definition EXT4_XATTR_ROUND : Z := EXT4_XATTR_PAD - 1.
(** [sizeof(struct ext4_xattr_entry)], of the two headers and of [struct ext4_inode]. *)
Definition sizeof_xattr_entry : Z := 16.
Definition sizeof_xattr_header : Z := 32.
Definition sizeof_xattr_ibody_header : Z := 4.
Definition sizeof_ext4_inode : Z := 156.
Definition EXT4_GOOD_OLD_INODE_SIZE : Z := 128.

Definition EXT4_XATTR_LEN (name_len : Z) : Z := Z.land (name_len + EXT4_XATTR_ROUND + sizeof_xattr_entry) (Z.lnot EXT4_XATTR_ROUND).
Definition EXT4_XATTR_SIZE (size : Z) : Z := Z.land (size + EXT4_XATTR_ROUND) (Z.lnot EXT4_XATTR_ROUND).

(** Reading and writing an area. *)
Definition load_bytes (m : list byte) (off n : Z) : outcome (list byte) :=
  if (0 <=? off) && (off + n <=? blen m) then Done (slice off n m) else Crash OutOfBounds.
Definition load_int (m : list byte) (off n : Z) : outcome Z := let! d := load_bytes m off n in Done (le_combine d).
Definition store_bytes (m : list byte) (off : Z) (d : list byte) : outcome (list byte) :=
  if (0 <=? off) && (off + blen d <=? blen m) then Done (write_at m off d) else Crash BufferOverflow.

Definition e_name_len (m : list byte) (entry : Z) : outcome Z := load_int m entry 1.
Definition e_name_index (m : list byte) (entry : Z) : outcome Z := load_int m (entry + 1) 1.
Definition e_value_offs (m : list byte) (entry : Z) : outcome Z := load_int m (entry + 2) 2.
Definition e_value_block (m : list byte) (entry : Z) : outcome Z := load_int m (entry + 4) 4.
Definition e_value_size (m : list byte) (entry : Z) : outcome Z := load_int m (entry + 8) 4.

Definition EXT4_XATTR_NEXT (m : list byte) (entry : Z) : outcome Z := let! n := e_name_len m entry in Done (entry + EXT4_XATTR_LEN n).
Definition IS_LAST_ENTRY (m : list byte) (entry : Z) : outcome bool := let! w := load_int m entry 4 in Done (w =? 0).

(** ** Walks over the entries

    Each entry has 16 bytes at least, so the length of the area bounds them. *)

Fixpoint free_space_loop (fuel : nat) (m : list byte) (entry end_ : Z) : outcome (Z * Z) :=
  match fuel with
  | O => Crash OutOfFuel
  | S fuel =>
      let! last := IS_LAST_ENTRY m entry in
      if negb last && (entry <? end_) then
        let! size := e_value_size m entry in
        let! next := EXT4_XATTR_NEXT m entry in
        free_space_loop fuel m next (end_ - EXT4_XATTR_SIZE size)
      else Done (entry, end_)
  end.
Definition xattr_free_space (force : bool) (m : list byte) (entry end_ : Z) : fsM Z :=
  '(entry, end_) ← lift (free_space_loop (S (length m)) m entry end_);
  if end_ <? entry then _ ← error force; mret 0 else mret (end_ - entry).

Fixpoint get_last_loop (fuel : nat) (m : list byte) (entry : Z) : outcome Z :=
  match fuel with
  | O => Crash OutOfFuel
  | S fuel =>
      let! last := IS_LAST_ENTRY m entry in
      if last : bool then Done entry else let! next := EXT4_XATTR_NEXT m entry in get_last_loop fuel m next
  end.
Definition xattr_get_last (m : list byte) (entry : Z) : outcome Z := get_last_loop (S (length m)) m entry.

(** The sign of [memcmp]. *)
Fixpoint memcmp (a b : list byte) : Z :=
  match a, b with
  | x :: a, y :: b => if byte_to_Z x =? byte_to_Z y then memcmp a b else byte_to_Z x - byte_to_Z y
  | _, _ => 0
  end.

(** Whether the loop reports an error. *)
Fixpoint assert_sane_loop (fuel : nat) (m : list byte) (entry : Z) : outcome bool :=
  match fuel with
  | O => Crash OutOfFuel
  | S fuel =>
      let! last := IS_LAST_ENTRY m entry in
      if last : bool then Done false else
      let! next := EXT4_XATTR_NEXT m entry in
      let! next_last := IS_LAST_ENTRY m next in
      if next_last : bool then Done false else
      let! next_index := e_name_index m next in let! index := e_name_index m entry in
      let! next_len := e_name_len m next in let! len := e_name_len m entry in
      let cmp := next_index - index in
      let cmp := if cmp =? 0 then next_len - len else cmp in
      let! cmp := (if cmp =? 0 then
               let! a := load_bytes m (next + sizeof_xattr_entry) next_len in
               let! b := load_bytes m (entry + sizeof_xattr_entry) next_len in
               Done (memcmp a b)
             else Done cmp) in
      if (cmp <? 0) || (cmp =? 0) then Done true else
      assert_sane_loop fuel m next
  end.
Definition xattr_assert_sane (force : bool) (m : list byte) (entry : Z) : fsM unit :=
  bad ← lift (assert_sane_loop (S (length m)) m entry); if bad : bool then error force else mret tt.

(** ** The hash of an entry of a block *)

(** The characters of a name are signed. *)
Definition name_hash (name : list byte) : Z :=
  fold_left (fun hash c => Z.lxor (Z.lxor (u32 (Z.shiftl hash 5)) (Z.shiftr hash (32 - 5))) (u32 (s8 (byte_to_Z c)))) name 0.

Fixpoint value_hash_loop (n : nat) (m : list byte) (value hash : Z) : outcome Z :=
  match n with
  | O => Done hash
  | S n =>
      let! w := load_int m value 4 in
      value_hash_loop n m (value + 4) (Z.lxor (Z.lxor (u32 (Z.shiftl hash 16)) (Z.shiftr hash (32 - 16))) w)
  end.

Definition ext4_xattr_hash_entry (m : list byte) (header entry : Z) : outcome (list byte) :=
  let! len := e_name_len m entry in
  let! name := load_bytes m (entry + sizeof_xattr_entry) len in
  let hash := name_hash name in
  let! block := e_value_block m entry in let! size := e_value_size m entry in
  let! hash := (if (block =? 0) && negb (size =? 0) then
            let! offs := e_value_offs m entry in
            value_hash_loop (Z.to_nat (Z.shiftr (size + EXT4_XATTR_ROUND) EXT4_XATTR_PAD_BITS)) m (header + offs) hash
          else Done hash) in
  store_bytes m (entry + 12) (le_split 4 hash).

(** ** Adding an attribute *)

Definition ext4_xattr_entry (name_len name_index value_offs value_block value_size hash : Z) : list byte :=
  le_split 1 name_len ++ le_split 1 name_index ++ le_split 2 value_offs ++ le_split 4 value_block ++ le_split 4 value_size ++ le_split 4 hash.

Section Xattr.
Context (force : bool) (info : fs_info) (aux : fs_aux_info).

(** The new entry and the new contents of the area. *)
Definition xattr_addto_range (m : list byte) (block_start block_end first name_index : Z) (name value : list byte) : fsM (option (Z * list byte)) :=
  let name_len := blen name in
  let value_len := blen value in
  if 255 <? name_len then mret None else
  available_size ← xattr_free_space force m first block_end;
  let needed_size := EXT4_XATTR_LEN name_len + EXT4_XATTR_SIZE value_len in
  if available_size <? needed_size then mret None else
  new_entry ← lift (xattr_get_last m first);
  let val := new_entry + available_size - EXT4_XATTR_SIZE value_len in
  m ← lift (store_bytes m new_entry (zeros (EXT4_XATTR_LEN name_len)));
  m ← lift (store_bytes m new_entry (ext4_xattr_entry name_len name_index (u16 (val - block_start)) 0 value_len 0 ++ name));
  m ← lift (store_bytes m val (zeros (EXT4_XATTR_SIZE value_len)));
  m ← lift (store_bytes m val value);
  _ ← xattr_assert_sane force m first;
  mret (Some (new_entry, m)).

(** The bytes of an inode's slot behind [struct ext4_inode]. *)
Definition inode_area (i : ext4_inode) : list byte :=
  let n := inode_size info - sizeof_ext4_inode in take (Z.to_nat n) (i_xattr i ++ zeros (n - blen (i_xattr i))).

Definition xattr_addto_inode (inode : inode_ptr) (name_index : Z) (name value : list byte) : fsM Z :=
  i ← read_inode inode;
  let hdr := 0 in
  let first := hdr + sizeof_xattr_ibody_header in
  let block_end := inode_size info - sizeof_ext4_inode in
  result ← xattr_addto_range (inode_area i) first block_end first name_index name value;
  match result with
  | None => mret (-1)
  | Some (_, m) =>
      m ← lift (store_bytes m hdr (le_split 4 EXT4_XATTR_MAGIC));
      _ ← write_inode inode (set_xattr i (sizeof_ext4_inode - EXT4_GOOD_OLD_INODE_SIZE) m);
      mret 0
  end.

Definition xattr_addto_block (inode : inode_ptr) (name_index : Z) (name value : list byte) : fsM Z :=
  header ← get_xattr_block_for_inode force info aux inode;
  m ← peek header 0 (block_size info);
  result ← xattr_addto_range m 0 (block_size info) sizeof_xattr_header name_index name value;
  match result with
  | None => mret (-1)
  | Some (entry, m) =>
      m ← lift (ext4_xattr_hash_entry m 0 entry);
      _ ← poke header 0 m;
      mret 0
  end.

Definition xattr_add (inode_num name_index : Z) (name : list byte) (value : option (list byte)) : fsM Z :=
  match value with
  | None => mret 0
  | Some value =>
      inode ← get_inode info aux inode_num;
      result ← xattr_addto_inode inode name_index name value;
      if negb (result =? 0) then xattr_addto_block inode name_index name value else mret result
  end.

Definition XATTR_SELINUX_SUFFIX : list byte := bytes_of "selinux".
Definition XATTR_CAPS_SUFFIX : list byte := bytes_of "capability".
Definition VFS_CAP_REVISION : Z := 0x02000000.
Definition VFS_CAP_FLAGS_EFFECTIVE : Z := 0x000001.

(** The value of a label includes its terminator. *)
Definition inode_set_selinux (inode_num : Z) (secon : option (list byte)) : fsM Z :=
  match secon with
  | None => mret 0
  | Some secon => xattr_add inode_num EXT4_XATTR_INDEX_SECURITY XATTR_SELINUX_SUFFIX (Some (secon ++ [Byte.x00]))
  end.

Definition vfs_cap_data (capabilities : Z) : list byte :=
  le_split 4 (Z.lor VFS_CAP_REVISION VFS_CAP_FLAGS_EFFECTIVE) ++
  le_split 4 (Z.land capabilities 0xffffffff) ++ le_split 4 0 ++ le_split 4 (Z.shiftr capabilities 32) ++ le_split 4 0.

Definition inode_set_capabilities (inode_num capabilities : Z) : fsM Z :=
  if capabilities =? 0 then mret 0 else
  xattr_add inode_num EXT4_XATTR_INDEX_SECURITY XATTR_CAPS_SUFFIX (Some (vfs_cap_data capabilities)).
End Xattr.
