(* ===== verification/Ext4Build.v ===== *)
(** * The directory tree of an ext4 image (ext4_utils: make_ext4fs.c)

    [build_directory_structure] copies a directory of the host.  The host is a
    parameter: what [scandir], [lstat] and [readlink] return.  So are the
    permission function and the SELinux label lookup, when they are given. *)
From S2P Require Import Prelude CStrings Ext4Alloc Ext4Extent Ext4Indirect Ext4Contents Ext4Xattr.

Definition EXT4_FT_CHRDEV : Z := 3.
Definition EXT4_FT_BLKDEV : Z := 4.
Definition EXT4_FT_FIFO : Z := 5.
Definition EXT4_FT_SOCK : Z := 6.

(** File modes. *)
Definition S_IFMT : Z := 0xF000.
Definition S_IFCHR : Z := 0x2000.
Definition S_IFBLK : Z := 0x6000.
Definition S_IFIFO : Z := 0x1000.
Definition S_IFSOCK : Z := 0xC000.
(** [S_ISUID|S_ISGID|S_ISVTX|S_IRWXU|S_IRWXG|S_IRWXO] and [S_IRWXU]. *)
Definition PERMISSIONS : Z := 0xFFF.
Definition S_IRWXU : Z := 0x1C0.

Record stat := mk_stat { st_mode : Z; st_size : Z; st_mtime : Z }.

Definition filter_dot (d_name : string) : bool := negb (bool_decide (d_name = "..")) && negb (bool_decide (d_name = ".")).

(** The type of an entry; none for a mode of no known type. *)
Definition file_type_of (mode : Z) : option Z :=
  let t := Z.land mode S_IFMT in
  if t =? S_IFREG then Some EXT4_FT_REG_FILE
  else if t =? S_IFDIR then Some EXT4_FT_DIR
  else if t =? S_IFCHR then Some EXT4_FT_CHRDEV
  else if t =? S_IFBLK then Some EXT4_FT_BLKDEV
  else if t =? S_IFIFO then Some EXT4_FT_FIFO
  else if t =? S_IFSOCK then Some EXT4_FT_SOCK
  else if t =? S_IFLNK then Some EXT4_FT_SYMLINK
  else None.

Section Build.
Context (force android : bool) (info : fs_info) (aux : fs_aux_info).
Context (scandir : string -> (string -> bool) -> option (list string)) (lstat : string -> option stat)
  (readlink : string -> Z -> option (list byte)).
Context (fs_config_func : option (string -> bool -> Z * Z * Z * Z)) (sehnd : option (string -> Z -> option (list byte))) (fixed_time : Z).

(** The label of a path, where labels are looked up; [error] when there is none. *)
Definition lookup_label (path : string) (mode : Z) : fsM (option (list byte)) :=
  match sehnd with
  | None => mret None
  | Some selabel_lookup =>
      match selabel_lookup path mode with
      | None => _ ← error force; mret None
      | secon => mret secon
      end
  end.

(** One turn of the loop that fills [dentries]; none if the entry is skipped. *)
Definition read_dentry (full_path dir_path d_name : string) : fsM (option dentry) :=
  let path := (dir_path ++ d_name)%string in
  let full_path := (full_path ++ d_name)%string in
  match lstat full_path with
  | None => _ ← error force; mret None
  | Some st =>
      let mode := Z.land (st_mode st) PERMISSIONS in
      let mtime := u32 (if fixed_time =? -1 then st_mtime st else fixed_time) in
      '(mode, uid, gid, capabilities) ← (
        match fs_config_func with
        | None => mret (mode, 0, 0, 0)
        | Some fs_config_func =>
            if android then
              let '(uid, gid, mode, capabilities) := fs_config_func path (Z.land (st_mode st) S_IFMT =? S_IFDIR) in
              mret (u16 mode, u16 uid, u16 gid, capabilities)
            else _ ← error force; mret (mode, 0, 0, 0)
        end);
      secon ← lookup_label path (st_mode st);
      match file_type_of (st_mode st) with
      | None => _ ← error force; mret None
      | Some file_type =>
          let link := if file_type =? EXT4_FT_SYMLINK then cstr (default [] (readlink full_path (block_size info - 1))) else [] in
          mret (Some (mk_dentry path (Some full_path) (bytes_of d_name) link (u64 (st_size st)) file_type mode uid gid None mtime secon capabilities))
      end
  end.

(** A skipped entry makes the next turn read its name, which is freed. *)
Fixpoint read_dentries (full_path dir_path : string) (namelist : list string) : fsM (list dentry) :=
  match namelist with
  | [] => mret []
  | d_name :: namelist =>
      d ← read_dentry full_path dir_path d_name;
      match d with
      | None => if bool_decide (namelist = []) then mret [] else fault_with UseAfterFree
      | Some d => ds ← read_dentries full_path dir_path namelist; mret (d :: ds)
      end
  end.

(** [dirs] at the end of the loop. *)
Definition count_dirs (dentries : list dentry) : Z := u32 (blen (filter (fun d => d_file_type d = EXT4_FT_DIR) dentries)).

Definition lost_and_found (dir_path : string) : fsM dentry :=
  let path := (dir_path ++ "lost+found")%string in
  secon ← lookup_label path S_IRWXU;
  mret (mk_dentry path None (bytes_of "lost+found") [] 0 EXT4_FT_DIR S_IRWXU 0 0 None 0 secon 0).

Abbreviation allocation_chain := (list (string * block_allocation)).

Definition store_inode_num (d : dentry) (entry_inode : Z) : fsM unit :=
  match d_inode d with
  | None => fault_with NullDeref
  | Some (b, off) => poke b off (le_split 4 entry_inode)
  end.

(** The last statements of the loop over the entries. *)
Definition finish_entry (d : dentry) (entry_inode : Z) : fsM unit :=
  _ ← store_inode_num d entry_inode;
  ret ← inode_set_permissions info aux entry_inode (d_mode d) (d_uid d) (d_gid d) (d_mtime d);
  _ ← (if negb (ret =? 0) then error force else mret tt);
  ret ← inode_set_selinux force info aux entry_inode (d_secon d);
  _ ← (if negb (ret =? 0) then error force else mret tt);
  ret ← inode_set_capabilities force info aux entry_inode (d_capabilities d);
  if negb (ret =? 0) then error force else mret tt.

(** The loop over the entries; [subdir] is the recursive call. *)
Fixpoint make_entries (subdir : option string -> string -> allocation_chain -> fsM (Z * allocation_chain)) (dentries : list dentry)
    (saved : allocation_chain) : fsM allocation_chain :=
  match dentries with
  | [] => mret saved
  | d :: dentries =>
      '(entry_inode, saved) ← (
        if d_file_type d =? EXT4_FT_REG_FILE then
          match d_full_path d with
          | None => fault_with NullDeref
          | Some full_path => make_file force info aux full_path (d_size d) saved
          end
        else if d_file_type d =? EXT4_FT_DIR then
          subdir (match d_full_path d with Some full_path => Some (full_path ++ "/")%string | None => None end) (d_path d ++ "/")%string saved
        else if d_file_type d =? EXT4_FT_SYMLINK then n ← make_link force info aux (d_link d); mret (n, saved)
        else _ ← error force; mret (0, saved));
      _ ← finish_entry d entry_inode;
      make_entries subdir dentries saved
  end.

(** [fuel] bounds the depth of the tree. *)
Fixpoint build_directory_structure (fuel : nat) (full_path : option string) (dir_path : string) (dir_inode : Z) (saved : allocation_chain) :
    fsM (Z * allocation_chain) :=
  match fuel with
  | O => fault_with OutOfFuel
  | S fuel =>
      let namelist := match full_path with Some full_path => scandir full_path filter_dot | None => Some [] end in
      match namelist with
      | None => _ ← error force; mret (EXT4_ALLOCATE_FAILED, saved)
      | Some namelist =>
          let needs_lost_and_found := (dir_inode =? 0) && negb (bool_decide ("lost+found" ∈ namelist)) in
          dentries ← (match full_path with Some full_path => read_dentries full_path dir_path namelist | None => mret [] end);
          dentries ← (if needs_lost_and_found then d ← lost_and_found dir_path; mret (d :: dentries) else mret dentries);
          '(inode, dentries) ← make_directory force info aux dir_inode dentries (count_dirs dentries);
          saved ← make_entries (fun full_path dir_path saved => build_directory_structure fuel full_path dir_path inode saved) dentries saved;
          mret (inode, saved)
      end
  end.

(** ** An empty image *)

Definition build_default_directory_structure (dir_path : string) : fsM Z :=
  let dentries := mk_dentry EmptyString None (bytes_of "lost+found") [] 0 EXT4_FT_DIR S_IRWXU 0 0 None 0 None 0 in
  '(root_inode, ds) ← make_directory force info aux 0 [dentries] 1;
  '(inode, _) ← make_directory force info aux root_inode [] 0;
  _ ← (match ds with d :: _ => store_inode_num d inode | [] => fault_with NullDeref end);
  _ ← inode_set_permissions info aux inode S_IRWXU 0 0 0;
  _ ← (match sehnd with
       | None => mret tt
       | Some selabel_lookup =>
           match selabel_lookup (dir_path ++ "lost+found")%string S_IFDIR with
           | None => error force
           | Some secontext => _ ← inode_set_selinux force info aux inode (Some secontext); mret tt
           end
       end);
  mret root_inode.
End Build.
