(* ===== verification/Ext4Tree.v ===== *)
(** * Directory trees: on the host and in an ext4 image

    The tree a directory of the host holds, the tree an image holds below an
    inode, and what keeps the second while other objects are added. *)
From S2P Require Import Prelude CStrings SparseFormat Ext4Alloc Ext4Bits Ext4AllocCorrect Ext4Extent Ext4ExtentCorrect Ext4InodeCorrect Ext4Indirect Ext4Contents Ext4DirCorrect Ext4ContentsCorrect Ext4Xattr Ext4Build.

(** A file of the host, a link, or a directory: names, permissions and times
    of its entries in order. *)
#[warnings="-register-all"]
Inductive tree :=
  | TFile (path : string) (size : Z)
  | TLink (target : list byte)
  | TDir (entries : list (list byte * (Z * Z) * tree)).

(** Induction with a hypothesis for every entry. *)
Fixpoint tree_rect' (P : tree -> Prop) (HF : forall p n, P (TFile p n)) (HL : forall l, P (TLink l))
    (HD : forall es, Forall (fun e => P e.2) es -> P (TDir es)) (t : tree) : P t :=
  match t with
  | TFile p n => HF p n
  | TLink l => HL l
  | TDir es => HD es ((fix go es : Forall (fun e => P e.2) es :=
      match es with [] => Forall_nil_2 _ | e :: es => Forall_cons_2 _ e es (tree_rect' P HF HL HD e.2) (go es) end) es)
  end.

Definition type_of (t : tree) : Z := match t with TFile _ _ => EXT4_FT_REG_FILE | TLink _ => EXT4_FT_SYMLINK | TDir _ => EXT4_FT_DIR end.
Definition mode_of (t : tree) : Z := match t with TFile _ _ => S_IFREG | TLink _ => S_IFLNK | TDir _ => S_IFDIR end.

(** ** The host *)

Section Host.
Context (info : fs_info) (scandir : string -> (string -> bool) -> option (list string)) (lstat : string -> option stat)
  (readlink : string -> Z -> option (list byte)) (fixed_time : Z).

(** The entry [name] of the directory [path]; [sub] reads a subdirectory. *)
Definition host_entry (sub : string -> option (list (list byte * (Z * Z) * tree))) (path name : string) : option (list byte * (Z * Z) * tree) :=
  let full := (path ++ name)%string in
  st ← lstat full;
  let meta := (Z.land (st_mode st) PERMISSIONS, u32 (if fixed_time =? -1 then st_mtime st else fixed_time)) in
  t ← (if Z.land (st_mode st) S_IFMT =? S_IFREG then Some (TFile full (st_size st))
       else if Z.land (st_mode st) S_IFMT =? S_IFDIR then TDir <$> sub (full ++ "/")%string
       else if Z.land (st_mode st) S_IFMT =? S_IFLNK then TLink <$> (cstr <$> readlink full (block_size info - 1))
       else None);
  Some (bytes_of name, meta, t).

Fixpoint host_tree (fuel : nat) (path : string) : option (list (list byte * (Z * Z) * tree)) :=
  match fuel with
  | O => None
  | S fuel => names ← scandir path filter_dot; mapM (host_entry (host_tree fuel) path) names
  end.
End Host.

(** ** The image *)

Section Image.
Context (info : fs_info).
Abbreviation bs := (block_size info).
Abbreviation inode_of n := (inode_at info n).
Abbreviation the_inode s n := (default zero_inode (inodes s !! inode_of n)).

(** Byte [k] of [src] is queued for byte [x] of the image. *)
Definition placed (q : list queued) (src : buffer + string) (k x : Z) : Prop :=
  exists e off len b, e ∈ q /\ piece e = (src, off, len, b) /\ off <= k < off + len /\ x = b * bs + (k - off).

Definition file_size (i : ext4_inode) : Z := i_size_lo i + 2 ^ 32 * i_size_high i.

(** Every byte of [src] is queued for the block that the extents give for it. *)
Definition spread (s : fs) (es : list (Z * Z * Z)) (src : buffer + string) (len : Z) : Prop :=
  forall k, 0 <= k < len -> exists b, extent_blocks es !! Z.to_nat (k / bs) = Some b /\ placed (ext4_sparse_file s) src k (b * bs + k mod bs).

Definition entry_numbers (n parent : Z) (inos : list Z) (es : list (list byte * (Z * Z) * tree)) : list (Z * Z * list byte) :=
  (n, EXT4_FT_DIR, dot) :: (parent, EXT4_FT_DIR, dotdot) :: zip_with (fun i e => (i, type_of e.2, e.1.1)) inos es.

(** Permissions, owner and times of an object made from the host. *)
Definition meta_at (s : fs) (n : Z) (t : tree) (meta : Z * Z) : Prop :=
  i_mode (the_inode s n) = Z.lor (mode_of t) meta.1 /\ i_uid (the_inode s n) = 0 /\ i_gid (the_inode s n) = 0 /\ i_mtime (the_inode s n) = meta.2.

Definition links_of (t : tree) : Z :=
  match t with TDir es => u16 (blen (filter (fun e => type_of e.2 = EXT4_FT_DIR) es) + 2) | _ => 1 end.

(** What a reader of the image finds below inode [n]: the type, the link count
    and the size of the object, for a file the bytes of the host's file in the
    blocks of the extents, for a link its target, for a directory its entries
    in the blocks of the extents, and below each entry's inode its tree. *)
Fixpoint image_tree (s : fs) (parent n : Z) (t : tree) : Prop :=
  Z.land (i_mode (the_inode s n)) S_IFMT = mode_of t /\ i_links_count (the_inode s n) = links_of t /\
  match t with
  | TFile path size => file_size (the_inode s n) = size /\ (0 < size -> exists es, inode_extents s (inode_of n) = Some es /\ spread s es (inr path) size)
  | TLink target => file_size (the_inode s n) = blen target /\ take (length target) (i_block (the_inode s n)) = target
  | TDir entries =>
      exists inos es b d, length inos = length entries /\
        inode_extents s (inode_of n) = Some es /\ spread s es (inl (Buf b)) (file_size (the_inode s n)) /\ bufs s !! b = Some d /\
        blen d = file_size (the_inode s n) /\ parse_dir (length d) bs 0 d = Some (entry_numbers n parent inos entries) /\
        (fix below (inos : list Z) (entries : list (list byte * (Z * Z) * tree)) {struct entries} : Prop :=
           match inos, entries with
           | i :: inos, e :: entries => meta_at s i e.2 e.1.2 /\ image_tree s n i e.2 /\ below inos entries
           | _, _ => True
           end) inos entries
  end.

(** ** The same with the inodes and buffers it needs *)

(** The tree needs inodes of [mine] and buffers of [own]. *)
Fixpoint holds (own : nat -> Prop) (mine : Z -> Prop) (s : fs) (parent n : Z) (t : tree) : Prop :=
  mine n /\ Z.land (i_mode (the_inode s n)) S_IFMT = mode_of t /\ i_links_count (the_inode s n) = links_of t /\
  match t with
  | TFile path size => file_size (the_inode s n) = size /\ (0 < size -> exists es k, extents_by k s (inode_of n) es /\ (forall j, k = Some j -> own j) /\ spread s es (inr path) size)
  | TLink target => file_size (the_inode s n) = blen target /\ take (length target) (i_block (the_inode s n)) = target
  | TDir entries =>
      exists inos es k b d, length inos = length entries /\
        extents_by k s (inode_of n) es /\ (forall j, k = Some j -> own j) /\ own b /\ spread s es (inl (Buf b)) (file_size (the_inode s n)) /\ bufs s !! b = Some d /\
        blen d = file_size (the_inode s n) /\ parse_dir (length d) bs 0 d = Some (entry_numbers n parent inos entries) /\
        (fix below (inos : list Z) (entries : list (list byte * (Z * Z) * tree)) {struct entries} : Prop :=
           match inos, entries with
           | i :: inos, e :: entries => meta_at s i e.2 e.1.2 /\ holds own (fun m => mine m /\ m <> n) s n i e.2 /\ below inos entries
           | _, _ => True
           end) inos entries
  end.

Lemma holds_image own t : forall mine s parent n, holds own mine s parent n t -> image_tree s parent n t.
Proof.
  induction t as [p z|l|es IH] using tree_rect'; intros mine s parent n (_ & Hm & Hl & H); (split; [done|split; [done|]]).
  - destruct H as [Hs H]. split; [done|]. intros Hz. destruct (H Hz) as (es & k & Hby & _ & Hsp). exists es. split; [by eapply extents_by_now|done].
  - done.
  - destruct H as (inos & xs & k & b & d & Hlen & Hby & _ & _ & Hsp & Hb & Hd & Hp & Hbel). exists inos, xs, b, d.
    split; [done|]. split; [by eapply extents_by_now|]. split_and!; try done. clear -IH Hbel. revert inos Hbel. induction IH as [|e es He IH IHes]; intros [|i inos] Hbel; try done.
    destruct Hbel as (Hme & Hh & Hbel). split; [done|]. split; [by eapply He|by apply IHes].
Qed.

(** ** Keeping a tree *)

(** The inodes of [I] and the buffers of [B] are as before, and what is queued
    stays in front. *)
Record frame (I : Z -> Prop) (B : nat -> Prop) (s s' : fs) : Prop := {
  fr_inodes : forall m, I m -> the_inode s' m = the_inode s m;
  fr_bufs : forall b d, B b -> bufs s !! b = Some d -> bufs s' !! b = Some d;
  fr_queue : exists r, ext4_sparse_file s' = ext4_sparse_file s ++ r
}.

Lemma frame_refl I B s : frame I B s s.
Proof. split; try done. exists []. by rewrite app_nil_r. Qed.

Lemma frame_trans I B s1 s2 s3 : frame I B s1 s2 -> frame I B s2 s3 -> frame I B s1 s3.
Proof.
  intros [A1 A2 [r A3]] [B1 B2 [r' B3]]. split.
  - intros m Hm. by rewrite B1, A1.
  - intros b d Hb Hd. by apply B2, A2.
  - exists (r ++ r'). by rewrite B3, A3, app_assoc.
Qed.

Lemma frame_weaken (I J : Z -> Prop) (B C : nat -> Prop) s s' : frame J C s s' -> (forall m, I m -> J m) -> (forall b, B b -> C b) -> frame I B s s'.
Proof. intros [F1 F2 F3] HI HB. split; [by auto|by eauto|done]. Qed.

Lemma spread_queue s s' es src len : (exists r, ext4_sparse_file s' = ext4_sparse_file s ++ r) -> spread s es src len -> spread s' es src len.
Proof.
  intros [r Hr] Hs k Hk. destruct (Hs k Hk) as (b & Hb & e & off & n & blk & He & Hpi & Ho & Hx). exists b. split; [done|]. exists e, off, n, blk.
  split; [|done]. rewrite Hr. apply elem_of_app. by left.
Qed.

(** What [holds] asks of the inode of a tree's root. *)
Definition same_node (s s' : fs) (n : Z) : Prop :=
  let i := the_inode s n in let i' := the_inode s' n in
  Z.land (i_mode i') S_IFMT = Z.land (i_mode i) S_IFMT /\ i_links_count i' = i_links_count i /\ i_size_lo i' = i_size_lo i /\ i_size_high i' = i_size_high i /\
  i_block i' = i_block i.

Lemma same_node_eq s s' n : the_inode s' n = the_inode s n -> same_node s s' n.
Proof. unfold same_node. by intros ->. Qed.

Lemma extents_frame I (own : nat -> Prop) s s' n k es : frame I own s s' -> i_block (the_inode s' n) = i_block (the_inode s n) -> (forall j, k = Some j -> own j) ->
  extents_by k s (inode_of n) es -> extents_by k s' (inode_of n) es.
Proof.
  intros [F1 F2 [r F3]] Hi Hk He. apply (extents_by_trans k s s' r); [done|done|done|]. intros j d Hj. by apply F2, Hk.
Qed.

Lemma holds_frame t : forall (own own' : nat -> Prop) (mine mine' : Z -> Prop) s s' parent n, holds own mine s parent n t -> (forall b, own b -> own' b) -> (forall m, mine m -> mine' m) ->
  frame (fun m => mine m /\ m <> n) own s s' -> same_node s s' n -> holds own' mine' s' parent n t.
Proof.
  induction t as [p z|l|es IH] using tree_rect'; intros own own' mine mine' s s' parent n (Hn & Hm & Hlk & H) Ho Hmi Hf (S1 & S2 & S3 & S4 & S5);
    (split; [by auto|split; [by rewrite S1|split; [by rewrite S2|]]]); unfold file_size in *; rewrite S3, S4, ?S5.
  - destruct H as [Hs H]. split; [done|]. intros Hz. destruct (H Hz) as (es & k & Hby & Hk & Hsp). exists es, k. split_and!.
    + by apply (extents_frame _ own s s' n k es Hf).
    + by auto.
    + by apply (spread_queue s); [apply Hf|].
  - done.
  - destruct H as (inos & xs & k & b & d & Hlen & Hby & Hk & Hob & Hsp & Hb & Hd & Hp & Hbel). exists inos, xs, k, b, d. split_and!; try done.
    + by apply (extents_frame _ own s s' n k xs Hf).
    + by auto.
    + by auto.
    + by apply (spread_queue s); [apply Hf|].
    + by apply (fr_bufs _ _ _ _ Hf).
    + clear Hp Hlen Hm Hlk. revert inos Hbel. induction IH as [|e es He IH IHes]; intros [|i inos] Hbel; try done. destruct Hbel as (Hme & Hh & Hbel).
      assert (Hmine : mine i /\ i <> n) by (destruct e as [? []]; apply Hh). pose proof (fr_inodes _ _ _ _ Hf i Hmine) as Hi. split; [|split].
      * unfold meta_at. by rewrite Hi.
      * eapply He; [exact Hh|done|intros m [Hx Hy]; split; [by apply Hmi|done]| |by apply same_node_eq]. eapply frame_weaken; [exact Hf|by intros m [[Hx Hy] _]|done].
      * by apply IHes.
Qed.
End Image.
