(* ===== verification/Ext4TreeCorrect.v ===== *)
(** * Building a directory tree: the image holds the tree of the host

    Without a permission function and without labels, the tree that
    [build_directory_structure] leaves in the image is the tree of the host. *)
From S2P Require Import Prelude CStrings SparseFormat Ext4Alloc Ext4Bits Ext4AllocCorrect Ext4Extent Ext4ExtentCorrect Ext4InodeCorrect Ext4Indirect Ext4Contents Ext4DirCorrect Ext4ContentsCorrect Ext4Xattr Ext4Build Ext4Tree.

(** ** What a tree needs *)

Section Needs.
Context (info : fs_info).
Abbreviation bs := (block_size info).

(** The length of a directory with these entries. *)
Definition dir_bytes (es : list (list byte * (Z * Z) * tree)) : Z := bs * DIV_ROUND_UP (dir_size info 24 ((fun e => e.1.1) <$> es)) bs.

(** Blocks, with one for extents per object; inodes. *)
Fixpoint tree_blocks (t : tree) : Z :=
  match t with
  | TFile _ size => if 0 <? size then DIV_ROUND_UP size bs + 1 else 0
  | TLink _ => 0
  | TDir es => DIV_ROUND_UP (dir_bytes es) bs + 1 + foldr (fun e a => tree_blocks e.2 + a) 0 es
  end.
Fixpoint tree_inodes (t : tree) : Z :=
  match t with
  | TDir es => 1 + foldr (fun e a => tree_inodes e.2 + a) 0 es
  | _ => 1
  end.
Definition all_blocks (es : list (list byte * (Z * Z) * tree)) : Z := foldr (fun e a => tree_blocks e.2 + a) 0 es.
Definition all_inodes (es : list (list byte * (Z * Z) * tree)) : Z := foldr (fun e a => tree_inodes e.2 + a) 0 es.

(** Names of 255 bytes, links that fit an inode, files of less than 2^31
    blocks, permissions of twelve bits. *)
Fixpoint tree_ok (t : tree) : Prop :=
  match t with
  | TFile _ size => 0 <= size < 2 ^ 63 /\ DIV_ROUND_UP size bs + 1 < 2 ^ 31
  | TLink target => blen target < 60
  | TDir es => dir_bytes es < 2 ^ 31 /\
      foldr (fun e P => blen e.1.1 <= 255 /\ 0 <= e.1.2.1 < 0x1000 /\ tree_ok e.2 /\ P) True es
  end.
Definition all_ok (es : list (list byte * (Z * Z) * tree)) : Prop :=
  foldr (fun e P => blen e.1.1 <= 255 /\ 0 <= e.1.2.1 < 0x1000 /\ tree_ok e.2 /\ P) True es.

Context (Hbs : 1024 <= bs < 2 ^ 16).

Lemma all_ok_names es : all_ok es -> Forall (fun n => blen n <= 255) ((fun e => e.1.1) <$> es).
Proof. induction es as [|e es IH]; [done|]. intros (Hn & _ & _ & Hok). rewrite fmap_cons. constructor; [done|by apply IH]. Qed.

Lemma dir_bytes_pos es : all_ok es -> 24 <= dir_bytes es /\ 0 <= DIV_ROUND_UP (dir_bytes es) bs.
Proof.
  intros Hok. pose proof (dir_size_ge info Hbs _ 24 ltac:(lia) (all_ok_names es Hok)) as Hsz. unfold dir_bytes.
  pose proof (DIV_ROUND_UP_bounds (dir_size info 24 ((fun e => e.1.1) <$> es)) bs ltac:(lia)) as Hd. split; [lia|].
  pose proof (DIV_ROUND_UP_bounds (bs * DIV_ROUND_UP (dir_size info 24 ((fun e => e.1.1) <$> es)) bs) bs ltac:(lia)). nia.
Qed.

Lemma tree_needs t : tree_ok t -> 0 <= tree_blocks t /\ 1 <= tree_inodes t.
Proof.
  induction t as [p z|l|es IH] using tree_rect'; cbn [tree_ok tree_blocks tree_inodes].
  - intros _. destruct (Z.ltb_spec 0 z); [|lia]. pose proof (DIV_ROUND_UP_bounds z bs ltac:(lia)). nia.
  - lia.
  - intros [_ Hok]. destruct (dir_bytes_pos es Hok) as [_ Hd]. assert (0 <= all_blocks es /\ 0 <= all_inodes es).
    { clear Hd. induction IH as [|e es He IH IHes]; [done|]. destruct Hok as (_ & _ & Ht & Hok). specialize (IHes Hok). specialize (He Ht). unfold all_blocks, all_inodes in *. cbn [foldr]. lia. }
    unfold all_blocks, all_inodes in *. lia.
Qed.

Lemma all_needs es : all_ok es -> 0 <= all_blocks es /\ 0 <= all_inodes es.
Proof.
  induction es as [|e es IH]; [done|]. intros (_ & _ & Ht & Hok). pose proof (tree_needs _ Ht). specialize (IH Hok). unfold all_blocks, all_inodes in *. cbn [foldr]. lia.
Qed.
End Needs.

(** ** One object *)

Section Objects.
Context (force : bool) (info : fs_info) (aux : fs_aux_info).
Context (Hge : geometry info aux) (Hig : inode_geometry info aux) (Heg : extent_geometry info aux).
Abbreviation bs := (block_size info).
Abbreviation inode_of n := (inode_at info n).
Abbreviation the_inode s n := (default zero_inode (inodes s !! inode_of n)).

(** The inodes that came with a step, and the buffers. *)
Definition new_inodes (s s' : fs) (m : Z) : Prop := ~ used_inode info s m /\ used_inode info s' m.
Definition new_bufs (s s' : fs) (b : nat) : Prop := (length (bufs s) <= b < length (bufs s'))%nat.
Definition old_bufs (s : fs) (b : nat) : Prop := (b < length (bufs s))%nat.

(** Inodes and blocks left for [inodes] and [blocks] more. *)
Definition left_for (s : fs) (inodes blocks : Z) : Prop := inodes <= free_inodes s /\ groups aux + blocks <= total_free s.

(** [n] is a new object with the tree [t]. *)
Record built (s : fs) (parent n : Z) (t : tree) (s' : fs) : Prop := {
  bu_image : image_ok info aux s';
  bu_range : 0 < n <= groups aux * inodes_per_group info;
  bu_used : forall m, used_inode info s m -> used_inode info s' m;
  bu_frame : frame info (used_inode info s) (old_bufs s) s s';
  bu_mode : i_mode (the_inode s' n) = mode_of t;
  bu_holds : holds info (new_bufs s s') (new_inodes s s') s' parent n t;
  bu_inodes : free_inodes s - tree_inodes t <= free_inodes s';
  bu_blocks : total_free s - tree_blocks info t <= total_free s'
}.

Lemma inode_of_ne s n m : ~ used_inode info s n -> used_inode info s m -> inode_of m <> inode_of n.
Proof. intros Hn Hm Heq. pose proof (ig_ipg _ _ Hig). apply inode_at_inj in Heq as ->; [done|lia]. Qed.

Lemma made_new s n s' : made info aux s n s' -> new_inodes s s' n.
Proof. intros Hm. split; [apply Hm|]. apply (md_used _ _ _ _ _ Hm). by right. Qed.

Lemma calm_frame s n s1 q i : ~ used_inode info s n -> calm info s s1 q -> frame info (used_inode info s) (old_bufs s) s (with_inode s1 (inode_of n) i).
Proof.
  intros Hn [_ Cq _ Ci Cb]. split.
  - intros m Hm. cbn. rewrite lookup_insert_ne by (intros Heq; by apply (inode_of_ne s n m Hn Hm)). by rewrite Ci.
  - intros b d _. cbn. by rewrite Cb.
  - by exists q.
Qed.

Lemma stored_frame s n len src q s' : ~ used_inode info s n -> stored info aux s (inode_of n) len src q s' -> frame info (used_inode info s) (old_bufs s) s s'.
Proof.
  intros Hn Hst. split.
  - intros m Hm. by rewrite (st_inodes _ _ _ _ _ _ _ _ Hst) by (by apply (inode_of_ne s n m)).
  - intros b d _. apply (st_bufs _ _ _ _ _ _ _ _ Hst).
  - exists q. apply Hst.
Qed.

Lemma place_placed src q : forall k x, place bs src q k = Some x -> placed info q src k x.
Proof.
  induction q as [|e q IH]; intros k x; cbn [place]; [done|]. destruct (piece e) as [[[p off] len] b] eqn:He. destruct (bool_decide (p = src) && (off <=? k) && (k <? off + len)) eqn:Hc.
  - intros [= <-]. apply andb_prop in Hc as [Hc H2]. apply andb_prop in Hc as [H0 H1]. apply bool_decide_eq_true in H0 as ->.
    exists e, off, len, b. split; [by left|]. split; [done|]. lia.
  - intros H. destruct (IH k x H) as (e' & o & l & b' & Hin & Hr). exists e', o, l, b'. split; [by right|done].
Qed.

Lemma stored_data s n len src q s' : stored info aux s (inode_of n) len src q s' -> exists es k, extents_by k s' (inode_of n) es /\
  (forall j, k = Some j -> new_bufs s s' j /\ src <> inl (Buf j)) /\ spread info s' es src len.
Proof.
  intros Hst. destruct (st_extents _ _ _ _ _ _ _ _ Hst) as (es & He & _ & _ & _ & Hsp). destruct (st_leaf _ _ _ _ _ _ _ _ Hst) as (es' & k & He' & Hby & Hk).
  rewrite He in He'. injection He' as <-. exists es, k. split; [done|]. split; [exact Hk|].
  intros x Hx. destruct (Hsp x Hx) as (b & Hb & Hp). exists b. split; [done|]. apply place_placed in Hp as (e & off & l & blk & Hin & Hr).
  exists e, off, l, blk. split; [|done]. rewrite (st_queue _ _ _ _ _ _ _ _ Hst). apply elem_of_app. by right.
Qed.

Lemma made_built s parent n t s' : made info aux s n s' -> frame info (used_inode info s) (old_bufs s) s s' -> tree_inodes t = 1 ->
  total_free s - tree_blocks info t <= total_free s' -> i_mode (the_inode s' n) = mode_of t -> holds info (new_bufs s s') (new_inodes s s') s' parent n t -> built s parent n t s'.
Proof.
  intros Hm Hf Ht Hb Hmode Hh. split; try done; [apply Hm|apply Hm| |].
  - intros m Hu. apply (md_used _ _ _ _ _ Hm). by left.
  - rewrite (md_free _ _ _ _ _ Hm), Ht. lia.
Qed.

Lemma file_built s path size saved parent : image_ok info aux s -> left_for s 1 (tree_blocks info (TFile path size)) -> tree_ok info (TFile path size) ->
  exists n saved' s', make_file force info aux path size saved s = Ok (n, saved') s' /\ built s parent n (TFile path size) s'.
Proof.
  intros Him [Hi Hb] [Hsz Hbl]. pose proof (ge_groups _ _ Hge). pose proof (eg_bs _ _ Heg). cbn [tree_blocks] in Hb.
  assert (Hfit : 0 < size -> fits info aux s size).
  { intros Hpos. rewrite (proj2 (Z.ltb_lt 0 size)) in Hb by done. pose proof (DIV_ROUND_UP_pos size bs ltac:(lia) ltac:(lia)). split; lia. }
  destruct (make_file_ok force info aux Hge Hig Heg s path size saved Him ltac:(lia) ltac:(lia) Hfit) as (n & saved' & s' & Hr & Hm & Hmode & Hlinks & Hcase).
  exists n, saved', s'. split; [done|]. pose proof (md_fresh _ _ _ _ _ Hm) as Hn. destruct (Z.eqb_spec size 0) as [->|Hne].
  - destruct Hcase as (Hlo & Hhi & q & s2 & Hc & Hs'). apply made_built; [done| |done| | |].
    + rewrite Hs'. by eapply calm_frame.
    + cbn [tree_blocks]. change (0 <? 0) with false. cbv iota. rewrite Hs'. unfold total_free, frees. cbn. pose proof (same_blocks_total info s s2 (ca_blocks _ _ _ _ Hc)) as Ht.
      unfold total_free, frees in Ht. rewrite Ht. lia.
    + done.
    + split; [by apply made_new|]. rewrite Hmode, Hlinks. split; [done|]. split; [done|]. unfold file_size. rewrite Hlo, Hhi. split; [done|]. lia.
  - destruct Hcase as (q & Hst). apply made_built; [done| |done| | |].
    + by eapply stored_frame.
    + cbn [tree_blocks]. rewrite (proj2 (Z.ltb_lt 0 size)) by lia. apply (st_total _ _ _ _ _ _ _ _ Hst).
    + done.
    + split; [by apply made_new|]. rewrite Hmode, Hlinks. split; [done|]. split; [done|]. split; [apply (Ext4ExtentCorrect.st_size _ _ _ _ _ _ _ _ Hst)|].
      intros _. destruct (stored_data s n size _ q s' Hst) as (es & k & Hby & Hk & Hsp). exists es, k. split; [done|]. split; [|done]. intros j Hj. by apply Hk.
Qed.

Lemma with_inode_twice s p i j : with_inode (with_inode s p i) p j = with_inode s p j.
Proof. unfold with_inode. cbn. by rewrite insert_insert_eq. Qed.

Lemma the_inode_eq s n i : the_inode (with_inode s (inode_of n) i) n = i.
Proof. cbn. by rewrite lookup_insert_eq. Qed.

Lemma take_write_at d x : (length x <= length d)%nat -> take (length x) (write_at d 0 x) = x.
Proof. intros H. unfold write_at. rewrite take_0, app_nil_l. apply take_app_length. Qed.

Lemma blen_write_at d x : blen x <= blen d -> blen (write_at d 0 x) = blen d.
Proof. intros H. unfold write_at. rewrite take_0. unfold blen in *. rewrite length_app, length_app, length_drop. cbn [length]. lia. Qed.

(** The statements of [make_link] for a short target. *)
Lemma make_link_ok s target : image_ok info aux s -> 0 < free_inodes s -> blen target < 60 ->
  exists n i q s2, make_link force info aux target s = Ok n (with_inode s2 (inode_of n) i) /\ made info aux s n (with_inode s2 (inode_of n) i) /\
    calm info s s2 q /\ i_mode i = S_IFLNK /\ i_links_count i = 1 /\ file_size i = blen target /\ take (length target) (i_block i) = target.
Proof.
  intros Him Hf Hlen. destruct (new_inode_ok info aux Hge Hig s Him Hf) as (n & q & s1 & s2 & Ha & Hne & Hg & Hmade & Hcalm & Hnone & _).
  pose proof (blen_nonneg target). unfold make_link. rewrite (u32_small (blen target)) by (unfold is_u32; lia). rewrite (u32_small (blen target + 1)) by (unfold is_u32; lia).
  run Ha. rewrite Hne. run Hg. rewrite (bind_Ok _ _ _ _ _ (update_inode_ok _ _ s2)). rewrite Hnone. cbn [default]. set (i1 := set_size _ _ _).
  change EXT4_BLOCK_BYTES with 60. rewrite (proj2 (Z.leb_le (blen target + 1) 60)) by lia.
  rewrite take_ge by (unfold blen in *; lia). set (i2 := set_i_block i1 (write_at (i_block i1) 0 target)).
  assert (Hp : poke_inode (inode_of n) 0 target (with_inode s2 (inode_of n) i1) = Ok tt (with_inode s2 (inode_of n) i2)).
  { unfold poke_inode, read_inode. unfold mbind at 1, fsM_bind at 1. cbn [inodes with_inode]. rewrite lookup_insert_eq. cbn [default].
    change EXT4_BLOCK_BYTES with 60. rewrite (proj2 (Z.leb_le (0 + blen target) 60)) by lia.
    change (Ok () (with_inode (with_inode s2 (inode_of n) i1) (inode_of n) i2) = Ok () (with_inode s2 (inode_of n) i2)). by rewrite with_inode_twice. }
  run Hp. exists n, i2, q, s2. split; [done|]. split; [|split; [done|split_and!; try done]].
  - apply made_with_inode; [done..|]. cbn [i2 i_block set_i_block]. apply blen_write_at. change (blen (i_block i1)) with 60. lia.
  - unfold file_size. change (blen target + 2 ^ 32 * 0 = blen target). lia.
  - cbn [i2 i_block set_i_block]. apply take_write_at. change (length (i_block i1)) with 60%nat. unfold blen in *. lia.
Qed.

Lemma link_built s target parent : image_ok info aux s -> left_for s 1 0 -> tree_ok info (TLink target) ->
  exists n s', make_link force info aux target s = Ok n s' /\ built s parent n (TLink target) s'.
Proof.
  intros Him [Hi _] Hlen. destruct (make_link_ok s target Him ltac:(lia) Hlen) as (n & i & q & s2 & Hr & Hm & Hc & Hmode & Hlk & Hsz & Htk).
  exists n, (with_inode s2 (inode_of n) i). split; [done|]. pose proof (md_fresh _ _ _ _ _ Hm) as Hn. apply made_built; [done| |done| | |].
  - by eapply calm_frame.
  - pose proof (same_blocks_total info s s2 (ca_blocks _ _ _ _ Hc)) as Ht. unfold total_free, frees in *. cbn in *. rewrite Ht. lia.
  - by rewrite the_inode_eq.
  - cbn [holds]. rewrite the_inode_eq. split; [by apply made_new|]. rewrite Hmode. by split_and!.
Qed.

(** ** The end of an entry *)

Definition with_ino (x : item) (m : Z) : item := mk_item m (it_type x) (it_name x) (it_rec x).

Lemma laid_with_ino L i x m : forall off, laid bs off L -> L !! i = Some x -> is_u32 m -> laid bs off (<[i := with_ino x m]> L).
Proof.
  revert i. induction L as [|y L IH]; intros [|i] off Hl Hi Hm; try done.
  - injection Hi as ->. destruct Hl as ((_ & Hr) & Ho & Hl). split; [by split|]. done.
  - destruct Hl as (Hy & Ho & Hl). split; [done|]. split; [done|]. by apply IH.
Qed.

Lemma poke_ino s b L i x m : bufs s !! b = Some (encs L) -> laid bs 0 L -> L !! i = Some x -> is_u32 m ->
  poke b (total (take i L)) (le_split 4 m) s = Ok tt (set_buf s b (encs (<[i := with_ino x m]> L))).
Proof.
  intros Hb Hl Hi Hm. pose proof (take_drop_middle L i x Hi) as HL. pose proof (lookup_lt_Some _ _ _ Hi). rewrite insert_take_drop by done. rewrite <- HL in Hl. apply laid_app in Hl as [Hl _].
  assert (Henc : encs L = encs (take i L) ++ le_split 4 (it_ino x) ++ (le_split 2 (it_rec x) ++ item_tail x ++ zeros (it_rec x - 8 - blen (it_name x))) ++ encs (drop (S i) L)).
  { rewrite <- HL at 1. unfold encs. rewrite bind_app, bind_cons. unfold item_bytes. by rewrite <- !app_assoc. }
  rewrite <- (blen_encs bs _ 0 Hl). rewrite (poke_ok s b (encs L)); [|done|].
  - f_equal. f_equal. rewrite Henc, write_at_mid by (rewrite blen_app, !blen_le_split; pose proof (blen_nonneg ((le_split 2 (it_rec x) ++ item_tail x ++ zeros (it_rec x - 8 - blen (it_name x))) ++ encs (drop (S i) L))); lia).
    rewrite drop_app_length' by (by rewrite !length_le_split). unfold encs. rewrite bind_app, bind_cons. unfold item_bytes. cbn [with_ino it_ino it_type it_name it_rec]. by rewrite <- !app_assoc.
  - rewrite Henc, !blen_app, !blen_le_split. pose proof (blen_nonneg (encs (drop (S i) L))). pose proof (blen_nonneg (zeros (it_rec x - 8 - blen (it_name x)))). pose proof (blen_nonneg (item_tail x)). lia.
Qed.

Lemma mode_bits m x : 0 <= x < 0x1000 -> Z.land (Z.lor m x) S_IFMT = Z.land m S_IFMT.
Proof.
  intros Hx. rewrite Z.land_lor_distr_l. assert (Z.land x S_IFMT = 0) as ->; [|apply Z.lor_0_r].
  change S_IFMT with (Z.shiftl 15 12). apply Z.bits_inj'. intros n Hn. rewrite Z.land_spec, Z.bits_0. destruct (Z.ltb_spec n 12).
  - by rewrite Z.shiftl_spec_low, andb_false_r.
  - destruct (Z.eq_dec x 0) as [->|]; [by rewrite Z.bits_0|]. rewrite Z.bits_above_log2; [done|lia|]. assert (Z.log2 x < 12) by (apply Z.log2_lt_pow2; lia). lia.
Qed.

Lemma image_bufs s b d : image_ok info aux s -> image_ok info aux (set_buf s b d).
Proof. intros [A1 A2 A3 A4 A5 A6 A7]. split; try done. by apply (fs_ok_bgs info aux s). Qed.

(** A step that changes the inode [n] and the buffer [b] only. *)
Record touches (s : fs) (n : Z) (b : nat) (s' : fs) : Prop := {
  to_image : image_ok info aux s';
  to_inodes : same_inodes info s s';
  to_total : total_free s' = total_free s;
  to_frame : frame info (fun m => m <> n) (fun k => k <> b) s s';
  to_length : length (bufs s') = length (bufs s)
}.

Lemma finish_entry_ok s d n b L i x : image_ok info aux s -> used_inode info s n -> 0 < n <= groups aux * inodes_per_group info ->
  d_inode d = Some (b, total (take i L)) -> d_secon d = None -> d_capabilities d = 0 ->
  bufs s !! b = Some (encs L) -> laid bs 0 L -> L !! i = Some x ->
  exists s', finish_entry force info aux d n s = Ok tt s' /\ touches s n b s' /\ bufs s' !! b = Some (encs (<[i := with_ino x n]> L)) /\
    the_inode s' n = set_owner (set_mode (the_inode s n) (Z.lor (i_mode (the_inode s n)) (d_mode d)) (i_links_count (the_inode s n))) (d_uid d) (d_gid d) (d_mtime d).
Proof.
  intros Him Hu Hr Hd Hse Hca Hb Hl Hi. pose proof (ig_count _ _ Hig). unfold finish_entry, store_inode_num. rewrite Hd.
  set (L' := <[i := with_ino x n]> L). run (poke_ino s b L i x n Hb Hl Hi ltac:(unfold is_u32; lia)). fold L'. set (s1 := set_buf s b (encs L')).
  pose proof (image_bufs s b (encs L') Him) as Him1. fold s1 in Him1.
  destruct (get_inode_ok info aux Hge Hig s1 n Him1 Hr) as (q & s2 & Hg & Hp). destruct (pr_rest _ _ _ _ _ Hp) as (_ & _ & Pi & Pb).
  set (i' := set_owner (set_mode (the_inode s n) (Z.lor (i_mode (the_inode s n)) (d_mode d)) (i_links_count (the_inode s n))) (d_uid d) (d_gid d) (d_mtime d)).
  assert (Hperm : inode_set_permissions info aux n (d_mode d) (d_uid d) (d_gid d) (d_mtime d) s1 = Ok 0 (with_inode s2 (inode_of n) i')).
  { unfold inode_set_permissions. run Hg. rewrite (bind_Ok _ _ _ _ _ (update_inode_ok _ _ s2)). unfold i'. by rewrite Pi. }
  run Hperm. rewrite Hse, Hca. exists (with_inode s2 (inode_of n) i'). split; [done|].
  assert (Hsi : same_inodes info s s2) by (transitivity s1; [apply Forall_Forall2_diag, Forall_true; by split|apply Hp]).
  split; [split|split].
  - apply with_inode_image; [done|apply Hp|by apply (same_inodes_used info s s2)|]. cbn. apply (im_bodies _ _ _ Him).
  - exact Hsi.
  - apply (same_blocks_total info s1 s2), Hp.
  - split.
    + intros m Hm. cbn. rewrite lookup_insert_ne by (intros Heq; apply Hm; symmetry; apply (inode_at_inj info n m); [pose proof (ig_ipg _ _ Hig); lia|done]). by rewrite Pi.
    + intros k e Hk He. cbn. rewrite Pb. cbn. by rewrite list_lookup_insert_ne.
    + exists q. apply (pr_queue _ _ _ _ _ Hp).
  - cbn. rewrite Pb. cbn. by rewrite length_insert.
  - cbn. rewrite Pb. cbn. apply list_lookup_insert_eq. by apply lookup_lt_Some in Hb.
  - apply the_inode_eq.
Qed.

(** ** The entries of a directory *)

(** The inode numbers [inos] in the records from number [i] on. *)
Fixpoint patch (L : list item) (i : nat) (inos : list Z) : list item :=
  match inos with
  | [] => L
  | n :: inos => patch (match L !! i with Some x => <[i := with_ino x n]> L | None => L end) (S i) inos
  end.

Lemma total_insert L i x m : L !! i = Some x -> forall k, total (take k (<[i := with_ino x m]> L)) = total (take k L).
Proof.
  revert i. induction L as [|y L IH]; intros [|i] Hi [|k]; try done.
  - injection Hi as ->. done.
  - change (it_rec y + total (take k (<[i := with_ino x m]> L)) = it_rec y + total (take k L)). f_equal. by apply IH.
Qed.

(** The entry of the host's tree that [d] was read from; [sub] gives the
    entries of a subdirectory. *)
Definition dentry_for (sub : option string -> option (list (list byte * (Z * Z) * tree))) (d : dentry) (e : list byte * (Z * Z) * tree) : Prop :=
  (d_filename d = e.1.1 /\ d_file_type d = type_of e.2 /\ d_mode d = e.1.2.1 /\ d_mtime d = e.1.2.2) /\
  (d_uid d = 0 /\ d_gid d = 0 /\ d_secon d = None /\ d_capabilities d = 0) /\
  match e.2 with
  | TFile path size => d_full_path d = Some path /\ d_size d = size
  | TLink target => d_link d = target
  | TDir es => sub (match d_full_path d with Some full_path => Some (full_path ++ "/")%string | None => None end) = Some es
  end.

Lemma frame_length I s s' : frame info I (old_bufs s) s s' -> (length (bufs s) <= length (bufs s'))%nat.
Proof.
  intros Hf. destruct (length (bufs s)) as [|k] eqn:Hk; [lia|]. destruct (lookup_lt_is_Some_2 (bufs s) k) as [d Hd]; [lia|].
  apply (fr_bufs _ _ _ _ _ Hf) in Hd; [|unfold old_bufs; lia]. apply lookup_lt_Some in Hd. lia.
Qed.

Section Entries.
Context (n : Z) (b : nat) (subdir : option string -> string -> list (string * block_allocation) -> fsM (Z * list (string * block_allocation))).
Context (sub : option string -> option (list (list byte * (Z * Z) * tree))).
Context (Hsub : forall fp dp saved s es, sub fp = Some es -> image_ok info aux s -> used_inode info s n -> left_for s (tree_inodes (TDir es)) (tree_blocks info (TDir es)) ->
  tree_ok info (TDir es) -> exists n' saved' s', subdir fp dp saved s = Ok (n', saved') s' /\ built s n n' (TDir es) s').

(** The object of an entry. *)
Definition entry_object (d : dentry) (saved : list (string * block_allocation)) : fsM (Z * list (string * block_allocation)) :=
  if d_file_type d =? EXT4_FT_REG_FILE then
    match d_full_path d with
    | None => fault_with NullDeref
    | Some full_path => make_file force info aux full_path (d_size d) saved
    end
  else if d_file_type d =? EXT4_FT_DIR then
    subdir (match d_full_path d with Some full_path => Some (full_path ++ "/")%string | None => None end) (d_path d ++ "/")%string saved
  else if d_file_type d =? EXT4_FT_SYMLINK then n ← make_link force info aux (d_link d); mret (n, saved)
  else _ ← error force; mret (0, saved).

Lemma entry_built d e saved s : dentry_for sub d e -> image_ok info aux s -> used_inode info s n -> left_for s (tree_inodes e.2) (tree_blocks info e.2) -> tree_ok info e.2 ->
  exists i saved' s', entry_object d saved s = Ok (i, saved') s' /\ built s n i e.2 s'.
Proof.
  intros ((_ & Hty & _) & _ & Hd) Him Hu Hl Hok. unfold entry_object. rewrite Hty. destruct e as [[name meta] [path size|target|es]]; cbn in Hd, Hl, Hok |- *.
  - destruct Hd as [-> ->]. by apply file_built.
  - subst target. destruct (link_built s (d_link d) n Him Hl Hok) as (i & s' & Hr & Hbu). exists i, saved, s'. split; [|done]. by run Hr.
  - by apply Hsub.
Qed.

(** The new objects of a directory [n], with their permissions. *)
Definition children (s s' : fs) (inos : list Z) (es : list (list byte * (Z * Z) * tree)) : Prop :=
  Forall2 (fun i e => meta_at info s' i e.2 e.1.2 /\ holds info (new_bufs s s') (new_inodes s s') s' n i e.2) inos es.

Record entered (s : fs) (L : list item) (i : nat) (es : list (list byte * (Z * Z) * tree)) (inos : list Z) (s' : fs) : Prop := {
  en_image : image_ok info aux s';
  en_used : forall m, used_inode info s m -> used_inode info s' m;
  en_frame : frame info (used_inode info s) (fun k => old_bufs s k /\ k <> b) s s';
  en_length : (length (bufs s) <= length (bufs s'))%nat;
  en_buf : bufs s' !! b = Some (encs (patch L i inos));
  en_laid : laid bs 0 (patch L i inos);
  en_children : children s s' inos es;
  en_inodes : free_inodes s - all_inodes es <= free_inodes s';
  en_blocks : total_free s - all_blocks info es <= total_free s'
}.

(** One entry: its object, its number in the directory and its permissions. *)
Lemma one_entry d e saved s L i x : dentry_for sub d e -> d_inode d = Some (b, total (take i L)) -> bufs s !! b = Some (encs L) -> laid bs 0 L -> L !! i = Some x ->
  image_ok info aux s -> used_inode info s n -> left_for s (tree_inodes e.2) (tree_blocks info e.2) -> tree_ok info e.2 -> 0 <= e.1.2.1 < 0x1000 ->
  exists ino saved' s1 s2, entry_object d saved s = Ok (ino, saved') s1 /\ finish_entry force info aux d ino s1 = Ok tt s2 /\
    is_u32 ino /\ entered s L i [e] [ino] s2.
Proof.
  intros Hd Hdi Hb Hl Hx Him Hu Hleft Hok Hmode. destruct (entry_built d e saved s Hd Him Hu Hleft Hok) as (ino & saved' & s1 & Hr & Hbu).
  destruct Hd as ((_ & _ & Hm & Ht) & (Hui & Hgi & Hse & Hca) & _). pose proof (bu_frame _ _ _ _ _ Hbu) as Hf. pose proof (frame_length _ _ _ Hf) as Hlen.
  pose proof (lookup_lt_Some _ _ _ Hb) as Hbl. assert (Hb1 : bufs s1 !! b = Some (encs L)) by (by apply (fr_bufs _ _ _ _ _ Hf)).
  assert (Hnew : new_inodes s s1 ino) by (destruct e as [? []]; apply Hbu).
  destruct (finish_entry_ok s1 d ino b L i x (bu_image _ _ _ _ _ Hbu) (proj2 Hnew) (bu_range _ _ _ _ _ Hbu) Hdi Hse Hca Hb1 Hl Hx) as (s2 & Hfin & Hto & Hb2 & Hi2).
  exists ino, saved', s1, s2. pose proof (bu_range _ _ _ _ _ Hbu). pose proof (ig_count _ _ Hig). assert (Hu32 : is_u32 ino) by (unfold is_u32; lia).
  split; [done|]. split; [done|]. split; [done|]. destruct Hto as [T1 T2 T3 T4 T5].
  assert (Hus : forall m, used_inode info s2 m <-> used_inode info s1 m) by (intros m; by apply (same_inodes_used info s1 s2)). split.
  - done.
  - intros m Hm'. by apply Hus, (bu_used _ _ _ _ _ Hbu).
  - apply (frame_trans info _ _ s s1 s2); [eapply frame_weaken; [exact Hf|done|by intros k [? _]]|]. eapply frame_weaken; [exact T4| |by intros k [_ ?]].
    intros m Hm' ->. by apply Hnew.
  - by rewrite T5.
  - cbn [patch]. by rewrite Hx.
  - cbn [patch]. rewrite Hx. by apply laid_with_ino.
  - constructor; [|constructor]. split.
    + unfold meta_at. rewrite Hi2. cbn. rewrite (bu_mode _ _ _ _ _ Hbu), Hm, Hui, Hgi, Ht. done.
    + apply (holds_frame info e.2 (new_bufs s s1) _ (new_inodes s s1) _ s1); [apply Hbu| | | |].
      * unfold new_bufs. intros k. by rewrite T5.
      * intros m [? ?]. split; [done|]. by apply Hus.
      * eapply frame_weaken; [exact T4|by intros m [_ ?]|]. intros k [Hk _] ->. lia.
      * unfold same_node. rewrite Hi2. cbn. rewrite Hm, mode_bits by done. done.
  - rewrite (same_inodes_free info s1 s2 T2). pose proof (bu_inodes _ _ _ _ _ Hbu). cbn. lia.
  - rewrite T3. pose proof (bu_blocks _ _ _ _ _ Hbu). cbn. lia.
Qed.

Lemma entered_cons s s1 s2 L i e es ino inos : (forall k, used_inode info s k -> used_inode info s1 k) -> entered s L i [e] [ino] s1 ->
  entered s1 (patch L i [ino]) (S i) es inos s2 -> old_bufs s b -> entered s L i (e :: es) (ino :: inos) s2.
Proof.
  intros Hmono [A1 A2 A3 A4 A5 A6 A7 A8 A9] [B1 B2 B3 B4 B5 B6 B7 B8 B9] Hb. apply Forall2_cons in A7 as [[Hme Hho] _].
  assert (Hfr : frame info (used_inode info s) (fun k => old_bufs s k /\ k <> b) s1 s2).
  { eapply frame_weaken; [exact B3|by auto|]. intros k [Hk Hne]. split; [unfold old_bufs in *; lia|done]. }
  assert (Hino : used_inode info s1 ino) by (destruct e as [? []]; apply Hho). split; try done; try lia.
  - by auto.
  - by apply (frame_trans info _ _ s s1 s2).
  - constructor; [split|].
    + unfold meta_at. by rewrite (fr_inodes _ _ _ _ _ B3 ino Hino).
    + apply (holds_frame info e.2 (new_bufs s s1) _ (new_inodes s s1) _ s1 s2 n ino Hho).
      * unfold new_bufs. intros k. lia.
      * intros m [? ?]. split; [done|by auto].
      * eapply frame_weaken; [exact B3|by intros m [[_ ?] _]|]. unfold new_bufs, old_bufs in *. intros k Hk. split; [lia|]. intros ->. lia.
      * by apply same_node_eq, (fr_inodes _ _ _ _ _ B3).
    + eapply Forall2_impl; [exact B7|]. intros j f [Hm Hh]. split; [done|].
      apply (holds_frame info f.2 (new_bufs s1 s2) _ (new_inodes s1 s2) _ s2 s2 n j Hh).
      * unfold new_bufs. intros k. lia.
      * intros m [Hx Hy]. split; [by intros ?%Hmono|done].
      * apply frame_refl.
      * by apply same_node_eq.
  - cbn in A8 |- *. fold (all_inodes es). lia.
  - cbn in A9 |- *. fold (all_blocks info es). lia.
Qed.

Lemma make_entries_ok es : forall ds i L saved s, Forall2 (dentry_for sub) ds es -> (forall j d, ds !! j = Some d -> d_inode d = Some (b, total (take (i + j) L))) ->
  bufs s !! b = Some (encs L) -> laid bs 0 L -> length L = (i + length ds)%nat -> image_ok info aux s -> used_inode info s n -> left_for s (all_inodes es) (all_blocks info es) ->
  all_ok info es -> exists inos saved' s', make_entries force info aux subdir ds saved s = Ok saved' s' /\ entered s L i es inos s'.
Proof.
  pose proof (eg_bs _ _ Heg) as Hbs. induction es as [|e es IH]; intros ds i L saved s Hds Hdi Hb Hl Hlen Him Hu Hleft Hok.
  { apply Forall2_nil_inv_r in Hds as ->. exists [], saved, s. split; [done|]. split; try done; try (cbn; lia); [apply frame_refl|constructor]. }
  apply Forall2_cons_inv_r in Hds as (d & ds' & Hd & Hds & ->). destruct Hok as (_ & Hmode & Ht & Hok). cbn in Hleft. destruct Hleft as [Hli Hlb]. fold (all_inodes es) in Hli. fold (all_blocks info es) in Hlb.
  pose proof (all_needs info Hbs es Hok). pose proof (tree_needs info Hbs _ Ht). cbn [length] in Hlen. pose proof (lookup_lt_Some _ _ _ Hb) as Hbl.
  destruct (lookup_lt_is_Some_2 L i) as [x Hx]; [lia|]. pose proof (Hdi 0%nat d eq_refl) as Hd0. rewrite Nat.add_0_r in Hd0.
  destruct (one_entry d e saved s L i x Hd Hd0 Hb Hl Hx Him Hu ltac:(split; lia) Ht Hmode) as (ino & saved' & s1 & s2 & Hr1 & Hr2 & Hu32 & Hen).
  assert (HL : patch L i [ino] = <[i := with_ino x ino]> L) by (cbn [patch]; by rewrite Hx).
  pose proof Hen as [A1 A2 A3 A4 A5 A6 A7 A8 A9]. rewrite HL in A5, A6. cbn in A8, A9.
  destruct (IH ds' (S i) (<[i := with_ino x ino]> L) saved' s2 Hds) as (inos & saved'' & s' & Hr & Hen'); try done.
  - intros j d' Hj. rewrite total_insert by done. replace (S i + j)%nat with (i + S j)%nat by lia. by apply (Hdi (S j)).
  - rewrite length_insert. lia.
  - by apply A2.
  - split; lia.
  - exists (ino :: inos), saved'', s'. split.
    + cbn [make_entries]. erewrite bind_Ok by exact Hr1. cbv beta iota. run Hr2. exact Hr.
    + apply (entered_cons s s2 s'); [by auto|exact Hen| |exact Hbl]. by rewrite HL.
Qed.
End Entries.

(** ** A directory with its entries *)

Lemma length_patch inos : forall L i, length (patch L i inos) = length L.
Proof. induction inos as [|n inos IH]; intros L i; [done|]. cbn [patch]. rewrite IH. destruct (L !! i); [apply length_insert|done]. Qed.

Lemma total_patch inos : forall L i, total (patch L i inos) = total L.
Proof.
  induction inos as [|n inos IH]; intros L i; [done|]. cbn [patch]. rewrite IH. destruct (L !! i) as [x|] eqn:Hx; [|done].
  pose proof (total_insert L i x n Hx (length L)) as H. by rewrite !take_ge in H by (rewrite ?length_insert; lia).
Qed.

Lemma shown_patch inos : forall L i, length L = (i + length inos)%nat ->
  shown (patch L i inos) = take i (shown L) ++ zip_with (fun n y => (n, y.1.2, y.2)) inos (drop i (shown L)).
Proof.
  induction inos as [|n inos IH]; intros L i Hlen; cbn [patch length] in *.
  { rewrite app_nil_r, take_ge; [done|]. unfold shown. rewrite length_fmap. lia. }
  destruct (lookup_lt_is_Some_2 L i) as [x Hx]; [lia|]. rewrite Hx. rewrite IH by (rewrite length_insert; lia).
  assert (Hs : shown (<[i := with_ino x n]> L) = <[i := (n, it_type x, it_name x)]> (shown L)) by (unfold shown; by rewrite list_fmap_insert). rewrite Hs.
  assert (Hsx : shown L !! i = Some (it_ino x, it_type x, it_name x)) by (unfold shown; by rewrite list_lookup_fmap, Hx).
  rewrite drop_insert_lt by lia. rewrite (drop_S _ _ _ Hsx). cbn [zip_with]. rewrite take_S_r with (x := (n, it_type x, it_name x)) by (apply list_lookup_insert_eq; by apply lookup_lt_Some in Hsx).
  rewrite take_insert_ge by lia. by rewrite <- app_assoc.
Qed.

Lemma length_encs L : forall off, laid bs off L -> (length L <= length (encs L))%nat.
Proof.
  induction L as [|x L IH]; intros off Hl; [done|]. destruct Hl as (Hx & _ & Hl). specialize (IH _ Hl). pose proof (blen_item x Hx) as Hb.
  destruct Hx as (_ & _ & _ & Hr & _). pose proof (blen_nonneg (it_name x)). unfold encs in *. rewrite bind_cons, length_app. unfold blen in *. cbn [length]. lia.
Qed.

Lemma point_at_lookup b L ds k j d : point_at b L k ds !! j = Some d -> exists d0, ds !! j = Some d0 /\ d = set_d_inode d0 (b, total (take (k + j) L)).
Proof.
  unfold point_at. rewrite lookup_zip_with. destruct (ds !! j) as [d0|] eqn:Hd; [|done]. cbn. pose proof (lookup_lt_Some _ _ _ Hd). rewrite lookup_seq_lt by done. cbn.
  intros [= <-]. by exists d0.
Qed.

Lemma point_at_for sub b L ds es k : Forall2 (dentry_for sub) ds es -> Forall2 (dentry_for sub) (point_at b L k ds) es.
Proof. intros H. revert k. induction H as [|d e ds es Hd Hds IH]; intros k; [constructor|]. rewrite point_at_cons. constructor; [exact Hd|apply IH]. Qed.


Lemma for_types sub ds es : Forall2 (dentry_for sub) ds es -> (fun d => (d_file_type d, d_filename d)) <$> ds = (fun e => (type_of e.2, e.1.1)) <$> es.
Proof. induction 1 as [|d e ds es ((Hn & Ht & _) & _) Hds IH]; [done|]. rewrite !fmap_cons, IH. by rewrite Hn, Ht. Qed.

Lemma for_dirs sub ds es : Forall2 (dentry_for sub) ds es -> u16 (count_dirs ds + 2) = links_of (TDir es).
Proof.
  intros H. assert (Hc : length (filter (fun d => d_file_type d = EXT4_FT_DIR) ds) = length (filter (fun e => type_of e.2 = EXT4_FT_DIR) es)).
  { induction H as [|d e ds es ((_ & Ht & _) & _) Hds IH]; [done|]. rewrite !filter_cons, Ht. destruct (decide (type_of e.2 = EXT4_FT_DIR)); cbn; by rewrite IH. }
  unfold count_dirs, links_of, blen. rewrite Hc. unfold u16, u32. rewrite Zplus_mod, (Z.mod_mod_divide _ (2 ^ 32) (2 ^ 16)) by (by exists (2 ^ 16)). by rewrite <- Zplus_mod.
Qed.

Lemma for_ok sub ds es : Forall2 (dentry_for sub) ds es -> all_ok info es -> Forall dentry_ok ds.
Proof.
  induction 1 as [|d e ds es ((Hn & Ht & _) & _) Hds IH]; [done|]. intros (Hl & _ & _ & Hok). constructor; [|by apply IH]. unfold dentry_ok. rewrite Hn, Ht.
  split; [done|]. by destruct e as [? []].
Qed.

Lemma below_children n s1 s' (own : nat -> Prop) (mine : Z -> Prop) inos es : children n s1 s' inos es -> (forall k, new_bufs s1 s' k -> own k) ->
  (forall m, new_inodes s1 s' m -> mine m /\ m <> n) ->
  (fix below (inos : list Z) (entries : list (list byte * (Z * Z) * tree)) {struct entries} : Prop :=
     match inos, entries with
     | i :: inos, e :: entries => meta_at info s' i e.2 e.1.2 /\ holds info own (fun m => mine m /\ m <> n) s' n i e.2 /\ below inos entries
     | _, _ => True
     end) inos es.
Proof.
  intros Hc Ho Hm. induction Hc as [|i e inos es [Hme Hh] Hc IH]; [done|]. split; [done|]. split; [|done].
  apply (holds_frame info e.2 (new_bufs s1 s') _ (new_inodes s1 s') _ s' s' n i Hh Ho Hm); [apply frame_refl|by apply same_node_eq].
Qed.

(** The entries of a directory that was just made in [s1]. *)
Lemma directory_entries n parent subdir sub s0 s1 ds es b L ds' saved : directory info aux s0 n parent ds (count_dirs ds) b L ds' s1 ->
  (forall fp dp saved s es, sub fp = Some es -> image_ok info aux s -> used_inode info s n -> left_for s (tree_inodes (TDir es)) (tree_blocks info (TDir es)) ->
    tree_ok info (TDir es) -> exists n' saved' s', subdir fp dp saved s = Ok (n', saved') s' /\ built s n n' (TDir es) s') ->
  image_ok info aux s1 -> used_inode info s1 n -> (forall m, used_inode info s0 m -> used_inode info s1 m) -> Forall2 (dentry_for sub) ds es -> all_ok info es ->
  left_for s1 (all_inodes es) (all_blocks info es) ->
  exists inos saved' s', make_entries force info aux subdir ds' saved s1 = Ok saved' s' /\ entered n b s1 L 2 es inos s' /\
    holds info (new_bufs s0 s') (fun m => m = n \/ new_inodes s0 s' m) s' parent n (TDir es).
Proof.
  intros Hdir Hsub Him Hu Hmono Hds Hok Hleft. pose proof (for_ok sub ds es Hds Hok) as Hdok.
  destruct Hdir as [Dm Dl Dn (q & Dst) Db Dla Dt Dsh ->]. pose proof (Forall2_length _ _ _ Hds) as Hlen.
  assert (HlL : length L = (2 + length ds)%nat) by (apply (f_equal length) in Dsh; unfold shown in Dsh; rewrite length_fmap in Dsh; rewrite Dsh; cbn; by rewrite length_fmap).
  destruct (make_entries_ok n b subdir sub Hsub es (point_at b L 2 ds) 2 L saved s1) as (inos & saved' & s' & Hr & Hen); try done.
  { by apply point_at_for. }
  { intros j d Hj. by apply point_at_lookup in Hj as (d0 & _ & ->). }
  { unfold point_at. rewrite length_zip_with, length_seq. lia. }
  exists inos, saved', s'. split; [done|]. split; [done|]. destruct Hen as [E1 E2 E3 E4 E5 E6 E7 _ _].
  pose proof (fr_inodes _ _ _ _ _ E3 n Hu) as Hni. pose proof (Forall2_length _ _ _ E7) as Hli.
  destruct (stored_data s0 n _ _ q s1 Dst) as (xs & k & Hby & Hk & Hsp). pose proof (lookup_lt_Some _ _ _ Db) as Hbl.
  cbn [holds]. split; [by left|]. rewrite Hni, Dm, Dl. split; [done|]. split; [by eapply for_dirs|].
  exists inos, xs, k, b, (encs (patch L 2 inos)). pose proof (Ext4ExtentCorrect.st_size _ _ _ _ _ _ _ _ Dst) as Hsz. fold (file_size (the_inode s1 n)) in Hsz. rewrite Hsz.
  split; [lia|]. split; [|split; [|split; [|split; [|split; [done|split; [|split]]]]]].
  - apply (extents_frame info (used_inode info s1) (fun k => old_bufs s1 k /\ k <> b) s1 s'); [done|by rewrite Hni| |done].
    intros j Hj. destruct (Hk j Hj) as [[_ ?] Hne]. split; [done|]. by intros ->.
  - intros j Hj. destruct (Hk j Hj) as [[? ?] _]. unfold new_bufs. lia.
  - unfold new_bufs. lia.
  - by apply (spread_queue info s1); [apply E3|].
  - rewrite (blen_encs bs _ 0 E6), total_patch. done.
  - rewrite (parse_dir_ok bs _ (length (encs (patch L 2 inos))) 0 E6) by (by eapply length_encs). f_equal. rewrite shown_patch by lia. rewrite Dsh.
    cbn [take drop app]. rewrite take_0, drop_0, app_nil_l. unfold entry_numbers. do 2 f_equal. clear -Hds Hli. revert inos Hli. induction Hds as [|d e ds es ((Hn & Ht & _) & _) Hds IH]; intros [|i inos] Hli; try done.
    rewrite fmap_cons. cbn [zip_with fst snd]. rewrite Hn, Ht. f_equal. apply IH. by injection Hli.
  - apply (below_children n s1 s'); [done|unfold new_bufs; intros j; lia|]. intros m [Hx Hy]. split; [|by intros ->]. right. split; [|done]. by intros ?%Hmono.
Qed.
End Objects.

(** ** The tree *)

Section BuildTree.
Context (force android : bool) (info : fs_info) (aux : fs_aux_info).
Context (Hge : geometry info aux) (Hig : inode_geometry info aux) (Heg : extent_geometry info aux).
Context (scandir : string -> (string -> bool) -> option (list string)) (lstat : string -> option stat)
  (readlink : string -> Z -> option (list byte)) (fixed_time : Z).
Abbreviation bs := (block_size info).
Abbreviation inode_of n := (inode_at info n).
Abbreviation the_inode s n := (default zero_inode (inodes s !! inode_of n)).
Abbreviation host := (host_tree info scandir lstat readlink fixed_time).
Abbreviation entry := (host_entry info lstat readlink fixed_time).
Abbreviation build := (build_directory_structure force android info aux scandir lstat readlink None None fixed_time).






(** A directory that was made, with its entries. *)
Lemma finish_built s s1 n parent ds es b L ds' inos s' : made info aux s n s1 -> directory info aux s n parent ds (count_dirs ds) b L ds' s1 ->
  entered info aux n b s1 L 2 es inos s' -> dir_len info ds = dir_bytes info es ->
  holds info (new_bufs s s') (fun m => m = n \/ new_inodes info s s' m) s' parent n (TDir es) -> built info aux s parent n (TDir es) s'.
Proof.
  intros Hm Hd [E1 E2 E3 E4 _ _ _ E8 E9] Hlen Hh. pose proof (made_new info aux s n s1 Hm) as [Hn Hn1]. destruct (di_stored _ _ _ _ _ _ _ _ _ _ _ Hd) as (q & Hst).
  pose proof (stored_frame info aux Hig s n _ _ q s1 Hn Hst) as Hf. pose proof (frame_length info _ s s1 Hf) as Hl1. pose proof (di_new _ _ _ _ _ _ _ _ _ _ _ Hd) as Hb.
  assert (Hus : forall m, used_inode info s m -> used_inode info s' m) by (intros m Hu; apply E2, (md_used _ _ _ _ _ Hm); by left).
  assert (Hno : used_inode info s' n) by (by apply E2).
  split; try done.
  - apply Hm.
  - apply (frame_trans info _ _ s s1 s'); [done|]. eapply frame_weaken; [exact E3| |].
    + intros m Hu. apply (md_used _ _ _ _ _ Hm). by left.
    + unfold old_bufs. intros k Hk. split; lia.
  - rewrite (fr_inodes _ _ _ _ _ E3 n Hn1). apply (di_mode _ _ _ _ _ _ _ _ _ _ _ Hd).
  - apply (holds_frame info (TDir es) (new_bufs s s') _ (fun m => m = n \/ new_inodes info s s' m) _ s' s' parent n Hh); [done| |apply frame_refl|by apply same_node_eq].
    intros m [->|?]; done.
  - rewrite (md_free _ _ _ _ _ Hm) in E8. change (free_inodes s - (1 + all_inodes es) <= free_inodes s'). lia.
  - pose proof (st_total _ _ _ _ _ _ _ _ Hst) as Ht. rewrite Hlen in Ht. change (total_free s - (DIV_ROUND_UP (dir_bytes info es) bs + 1 + all_blocks info es) <= total_free s'). lia.
Qed.

(** Room for a directory of its own and for its entries. *)
Lemma dir_fits s es : image_ok info aux s -> left_for aux s (tree_inodes (TDir es)) (tree_blocks info (TDir es)) -> tree_ok info (TDir es) -> fits info aux s (dir_bytes info es).
Proof.
  intros Him [Hi Hb] [Hlen Hok]. pose proof (eg_bs _ _ Heg) as Hbs. change (tree_blocks info (TDir es)) with (DIV_ROUND_UP (dir_bytes info es) bs + 1 + all_blocks info es) in Hb.
  pose proof (all_needs info Hbs es Hok). destruct (dir_bytes_pos info Hbs es Hok) as [Hd _]. pose proof (ge_groups _ _ Hge).
  assert (Hdiv : DIV_ROUND_UP (dir_bytes info es) bs <= dir_bytes info es).
  { unfold DIV_ROUND_UP. apply Z.lt_succ_r, Z.div_lt_upper_bound; nia. }
  pose proof (DIV_ROUND_UP_pos (dir_bytes info es) bs ltac:(lia) ltac:(lia)). assert (dir_bytes info es mod bs = 0) by (unfold dir_bytes; rewrite Z.mul_comm; apply Z.mod_mul; lia).
  assert (Hlt : DIV_ROUND_UP (dir_bytes info es) bs + 1 < 2 ^ 31).
  { unfold DIV_ROUND_UP. apply Z.lt_le_trans with (2 ^ 30 + 1); [|lia]. assert ((dir_bytes info es + bs - 1) / bs < 2 ^ 30); [|lia]. apply Z.div_lt_upper_bound; lia. }
  split; lia.
Qed.


(** ** The root *)

Definition lost_found : list byte * (Z * Z) * tree := (bytes_of "lost+found", (S_IRWXU, 0), TDir []).



(** The root directory with the tree [t]; what was made before is kept. *)
Record rooted (s : fs) (t : tree) (s' : fs) : Prop := {
  rt_image : image_ok info aux s';
  rt_used : forall m, used_inode info s m -> used_inode info s' m;
  rt_frame : frame info (fun m => used_inode info s m /\ m <> EXT4_ROOT_INO) (old_bufs s) s s';
  rt_length : (length (bufs s) <= length (bufs s'))%nat;
  rt_mode : i_mode (the_inode s' EXT4_ROOT_INO) = S_IFDIR;
  rt_holds : holds info (new_bufs s s') (fun m => m = EXT4_ROOT_INO \/ new_inodes info s s' m) s' EXT4_ROOT_INO EXT4_ROOT_INO t
}.

Lemma finish_rooted s s1 ds es b L ds' inos s' : directory info aux s EXT4_ROOT_INO EXT4_ROOT_INO ds (count_dirs ds) b L ds' s1 -> same_inodes info s s1 ->
  used_inode info s EXT4_ROOT_INO -> entered info aux EXT4_ROOT_INO b s1 L 2 es inos s' ->
  holds info (new_bufs s s') (fun m => m = EXT4_ROOT_INO \/ new_inodes info s s' m) s' EXT4_ROOT_INO EXT4_ROOT_INO (TDir es) -> rooted s (TDir es) s'.
Proof.
  intros Hd Hsi Hu [E1 E2 E3 E4 _ _ _ _ _] Hh. destruct (di_stored _ _ _ _ _ _ _ _ _ _ _ Hd) as (q & Hst). pose proof (di_new _ _ _ _ _ _ _ _ _ _ _ Hd) as Hb.
  assert (Hus : forall m, used_inode info s1 m <-> used_inode info s m) by (intros m; by apply (same_inodes_used info s s1)).
  assert (Hf : frame info (fun m => used_inode info s m /\ m <> EXT4_ROOT_INO) (old_bufs s) s s1).
  { split.
    - intros m [_ Hm]. by rewrite (st_inodes _ _ _ _ _ _ _ _ Hst) by (intros Heq; apply Hm, (inode_at_inj info); [pose proof (ig_ipg _ _ Hig); lia|done]).
    - intros k d _ Hk. by apply (st_bufs _ _ _ _ _ _ _ _ Hst).
    - exists q. apply (st_queue _ _ _ _ _ _ _ _ Hst). }
  pose proof (frame_length info _ s s1 Hf) as Hl. split; try done.
  - intros m Hm. by apply E2, Hus.
  - apply (frame_trans info _ _ s s1 s'); [done|]. eapply frame_weaken; [exact E3| |].
    + intros m [Hm _]. by apply Hus.
    + unfold old_bufs. intros k Hk. split; lia.
  - lia.
  - rewrite (fr_inodes _ _ _ _ _ E3) by (by apply Hus). apply (di_mode _ _ _ _ _ _ _ _ _ _ _ Hd).
Qed.


(** ** An empty image *)

Lemma bind_inv {A B} (m : fsM A) (k : A -> fsM B) s y s' : (x ← m; k x) s = Ok y s' -> exists x s1, m s = Ok x s1 /\ k x s1 = Ok y s'.
Proof. unfold mbind, fsM_bind. destruct (m s) as [x s1|s1|f]; [by exists x, s1|done..]. Qed.

(** A directory without entries. *)
Lemma empty_built parent s : image_ok info aux s -> 0 < parent < 2 ^ 32 -> left_for aux s (tree_inodes (TDir [])) (tree_blocks info (TDir [])) -> tree_ok info (TDir []) ->
  exists n ds s', make_directory force info aux parent [] 0 s = Ok (n, ds) s' /\ built info aux s parent n (TDir []) s'.
Proof.
  intros Him Hpar Hleft Hok. pose proof (dir_fits s [] Him Hleft Hok) as Hfit. destruct Hleft as [Hli Hlb]. change (1 + 0 <= free_inodes s) in Hli. destruct Hok as [Hlen _].
  destruct (make_directory_ok force info aux Hge Hig Heg s parent [] 0 Him ltac:(lia) Hpar ltac:(constructor) Hlen Hfit) as (n & b & L & ds' & s1 & Hmk & Hm & Hdir).
  exists n, ds', s1. split; [done|]. assert (Hu1 : used_inode info s1 n) by (apply (md_used _ _ _ _ _ Hm); by right).
  destruct (directory_entries force info aux Hge Hig Heg n parent (fun _ _ sv s => Ok (0, sv) s) (fun _ => None) s s1 [] [] b L ds' []) as (inos & saved' & s' & Hrun & Hen & Hh); try done.
  - apply Hm.
  - intros m Hu. apply (md_used _ _ _ _ _ Hm). by left.
  - pose proof (di_points _ _ _ _ _ _ _ _ _ _ _ Hdir) as ->. split; [change (0 <= free_inodes s1)|change (groups aux + 0 <= total_free s1)].
    + rewrite (md_free _ _ _ _ _ Hm). lia.
    + destruct (di_stored _ _ _ _ _ _ _ _ _ _ _ Hdir) as (q & Hst). pose proof (st_total _ _ _ _ _ _ _ _ Hst) as Ht.
      change (tree_blocks info (TDir [])) with (DIV_ROUND_UP (dir_bytes info []) bs + 1 + 0) in Hlb. change (dir_len info []) with (dir_bytes info []) in Ht. lia.
  - pose proof (di_points _ _ _ _ _ _ _ _ _ _ _ Hdir) as Hp. rewrite Hp in Hrun. injection Hrun as _ <-. apply (finish_built s s1 n parent [] [] b L ds' inos s1); try done.
Qed.

Definition default_tree : tree := TDir [lost_found].

Lemma default_root_ok dp s : image_ok info aux s -> used_inode info s EXT4_ROOT_INO ->
  left_for aux s (tree_inodes default_tree - 1) (tree_blocks info default_tree) -> tree_ok info default_tree ->
  exists s', build_default_directory_structure force info aux None dp s = Ok EXT4_ROOT_INO s' /\ rooted s default_tree s'.
Proof.
  intros Him Hu Hleft Hok. set (d := mk_dentry EmptyString None (bytes_of "lost+found") [] 0 EXT4_FT_DIR S_IRWXU 0 0 None 0 None 0).
  set (sub := fun _ : option string => Some ([] : list (list byte * (Z * Z) * tree))).
  set (subdir := fun (_ : option string) (_ : string) (sv : list (string * block_allocation)) => x ← make_directory force info aux EXT4_ROOT_INO [] 0; mret (x.1, sv)).
  assert (Hds : Forall2 (dentry_for sub) [d] [lost_found]) by (constructor; [done|constructor]).
  pose proof Hok as [Hlen Hall]. pose proof (eg_bs _ _ Heg) as Hbs. destruct (all_needs info Hbs [lost_found] Hall). pose proof (ig_count _ _ Hig). pose proof (ge_groups _ _ Hge).
  destruct Hleft as [Hli Hlb]. change (1 + all_inodes [lost_found] - 1 <= free_inodes s) in Hli.
  change (groups aux + (DIV_ROUND_UP (dir_bytes info [lost_found]) bs + 1 + all_blocks info [lost_found]) <= total_free s) in Hlb.
  pose proof (dir_bytes_pos info Hbs [lost_found] Hall) as [Hdb1 Hdb2].
  assert (Hfit : fits info aux s (dir_len info [d])).
  { change (dir_len info [d]) with (dir_bytes info [lost_found]). pose proof (DIV_ROUND_UP_pos (dir_bytes info [lost_found]) bs ltac:(lia) ltac:(lia)).
    assert (DIV_ROUND_UP (dir_bytes info [lost_found]) bs < 2 ^ 30) by (unfold DIV_ROUND_UP; apply Z.div_lt_upper_bound; lia). split; lia. }
  destruct (make_root_ok force info aux Hge Hig Heg s [d] 1 Him Hu (for_ok info _ _ _ Hds Hall) Hlen Hfit) as (b & L & ds' & s1 & Hmk & Hdir & Him1 & Hsi).
  destruct (di_stored _ _ _ _ _ _ _ _ _ _ _ Hdir) as (q & Hst). pose proof (st_total _ _ _ _ _ _ _ _ Hst) as Htot. pose proof (same_inodes_free info s s1 Hsi) as Hfi.
  change (dir_len info [d]) with (dir_bytes info [lost_found]) in Htot.
  assert (Hus : forall m, used_inode info s1 m <-> used_inode info s m) by (intros m; by apply (same_inodes_used info s s1)).
  destruct (directory_entries force info aux Hge Hig Heg EXT4_ROOT_INO EXT4_ROOT_INO subdir sub s s1 [d] [lost_found] b L ds' []) as (inos & saved' & s' & Hrun & Hen & Hh); try done.
  - intros fp dp' sv r es [= <-] Hr' _ Hl Ho. destruct (empty_built EXT4_ROOT_INO r Hr' ltac:(done) Hl Ho) as (n & ds & r' & Hr & Hb). exists n, sv, r'.
    split; [|done]. unfold subdir. by run Hr.
  - by apply Hus.
  - intros m. by apply Hus.
  - split; lia.
  - exists s'. split; [|by apply (finish_rooted s s1 [d] [lost_found] b L ds' inos s')].
    unfold build_default_directory_structure. fold d. run Hmk. rewrite (di_points _ _ _ _ _ _ _ _ _ _ _ Hdir) in *.
    change (point_at b L 2 [d]) with [set_d_inode d (b, total (take 2 L))] in *. cbn [make_entries] in Hrun.
    apply bind_inv in Hrun as ([n sv] & s2 & Hobj & Hrun). apply bind_inv in Hrun as ([] & s3 & Hfin & Hrun). injection Hrun as -> ->.
    change (subdir None "/"%string [] s1 = Ok (n, saved') s2) in Hobj. unfold subdir in Hobj. apply bind_inv in Hobj as ([m ds2] & s4 & Hmd & Heq). injection Heq as -> _ ->.
    run Hmd. unfold finish_entry in Hfin. apply bind_inv in Hfin as ([] & s5 & Hst5 & Hfin). run Hst5. apply bind_inv in Hfin as (ret & s6 & Hpe & Hfin).
    change (d_mode (set_d_inode d (b, total (take 2 L)))) with S_IRWXU in Hpe. run Hpe. 
    assert (ret = 0) as -> by (unfold inode_set_permissions in Hpe; apply bind_inv in Hpe as (? & ? & _ & Hpe); apply bind_inv in Hpe as (? & ? & _ & Hpe); by injection Hpe).
    cbv beta in Hfin. injection Hfin as <-. reflexivity.
Qed.
End BuildTree.

(** ** Theorem *)


Module Ext4TreeWitnesses.
Import Ext4Witnesses Ext4InodeWitnesses Ext4ContentsWitnesses.




End Ext4TreeWitnesses.
