(* ===== verification/Ext4XattrCorrect.v ===== *)
(** * Extended attributes: what is added is read back

    The specification [parse_attrs] reads an attribute area as the kernel
    does.  An area built by [xattr_addto_range] has its entries at the start,
    their values at the end in reverse order, and zeros between them. *)
From S2P Require Import Prelude CStrings SparseFormat Ext4Alloc Ext4Bits Ext4AllocCorrect Ext4Extent Ext4ExtentCorrect Ext4InodeCorrect Ext4Indirect Ext4Contents Ext4DirCorrect Ext4ContentsCorrect Ext4Xattr.

(** ** Reading an area *)

(** Name index, name and value of the entries from [off] on; the values are
    [base] and an offset behind. *)
Fixpoint parse_attrs (fuel : nat) (m : list byte) (base off : Z) : option (list (Z * list byte * list byte)) :=
  match fuel with
  | O => None
  | S fuel =>
      let e := drop (Z.to_nat off) m in
      if field 0 4 e =? 0 then Some [] else
      let name_len := field 0 1 e in
      let value := slice (base + field 2 2 e) (field 8 4 e) m in
      rest ← parse_attrs fuel m base (off + EXT4_XATTR_LEN name_len);
      Some ((field 1 1 e, slice 16 name_len e, value) :: rest)
  end.

(** ** Sizes *)

Lemma round_up x : Z.land (x + EXT4_XATTR_ROUND) (Z.lnot EXT4_XATTR_ROUND) = 4 * ((x + 3) / 4).
Proof.
  change (Z.lnot EXT4_XATTR_ROUND) with (Z.lnot (Z.ones 2)). change EXT4_XATTR_ROUND with 3. rewrite <- Z.ldiff_land, Z.ldiff_ones_r by lia.
  rewrite Z.shiftl_mul_pow2, Z.shiftr_div_pow2 by lia. change (2 ^ 2) with 4. lia.
Qed.

Lemma xattr_size_eq x : EXT4_XATTR_SIZE x = 4 * ((x + 3) / 4).
Proof. apply round_up. Qed.
Lemma xattr_len_eq x : EXT4_XATTR_LEN x = 16 + 4 * ((x + 3) / 4).
Proof.
  unfold EXT4_XATTR_LEN. replace (x + EXT4_XATTR_ROUND + sizeof_xattr_entry) with (x + 16 + EXT4_XATTR_ROUND) by (unfold sizeof_xattr_entry; lia). rewrite round_up.
  replace (x + 16 + 3) with (x + 3 + 4 * 4) by lia. rewrite Z.mul_comm, Z.div_add by lia. lia.
Qed.
Lemma up4 x : x <= 4 * ((x + 3) / 4) < x + 4.
Proof. pose proof (Z.div_mod (x + 3) 4 ltac:(lia)). pose proof (Z.mod_pos_bound (x + 3) 4 ltac:(lia)). lia. Qed.

(** ** Memory *)

Lemma load_bytes_mid a d c n : n = blen d -> load_bytes (a ++ d ++ c) (blen a) n = Done d.
Proof.
  intros ->. unfold load_bytes. rewrite !blen_app. pose proof (blen_nonneg a). pose proof (blen_nonneg c). rewrite (proj2 (Z.leb_le 0 _)), (proj2 (Z.leb_le (_ + _) _)) by lia. cbn [andb].
  unfold slice, blen. by rewrite !Nat2Z.id, drop_app_length, take_app_length.
Qed.

Lemma load_int_mid a d c o n z : o = blen a -> n = blen d -> le_combine d = z -> load_int (a ++ d ++ c) o n = Done z.
Proof. intros -> -> <-. unfold load_int. by rewrite load_bytes_mid. Qed.

Lemma store_bytes_mid a old c d o : o = blen a -> blen d = blen old -> store_bytes (a ++ old ++ c) o d = Done (a ++ d ++ c).
Proof.
  intros -> Hd. unfold store_bytes. rewrite !blen_app. pose proof (blen_nonneg a). pose proof (blen_nonneg c). rewrite (proj2 (Z.leb_le 0 _)), (proj2 (Z.leb_le (_ + _) _)) by lia. cbn [andb].
  f_equal. rewrite write_at_mid by (rewrite blen_app; lia). do 2 f_equal. apply drop_app_length'. unfold blen in Hd. lia.
Qed.

(** ** Areas *)

Record attr := mk_attr { a_index : Z; a_name : list byte; a_value : list byte; a_hash : Z }.
Definition vsize (a : attr) : Z := EXT4_XATTR_SIZE (blen (a_value a)).
Definition esize (a : attr) : Z := EXT4_XATTR_LEN (blen (a_name a)).

Definition attr_ok (a : attr) : Prop := blen (a_name a) <= 255 /\ 0 < a_index a < 256 /\ blen (a_value a) < 2 ^ 16 /\ 0 <= a_hash a < 2 ^ 32.

Definition entry_bytes (offs : Z) (a : attr) : list byte :=
  ext4_xattr_entry (blen (a_name a)) (a_index a) offs 0 (blen (a_value a)) (a_hash a) ++ a_name a ++ zeros (esize a - 16 - blen (a_name a)).
Definition value_bytes (a : attr) : list byte := a_value a ++ zeros (vsize a - blen (a_value a)).

(** The entries whose values end at [end_], and the values. *)
Fixpoint ents (base end_ : Z) (l : list attr) : list byte :=
  match l with [] => [] | a :: l => entry_bytes (end_ - vsize a - base) a ++ ents base (end_ - vsize a) l end.
Fixpoint vals (l : list attr) : list byte := match l with [] => [] | a :: l => vals l ++ value_bytes a end.

Definition esizes (l : list attr) : Z := foldr (fun a n => esize a + n) 0 l.
Definition vsizes (l : list attr) : Z := foldr (fun a n => vsize a + n) 0 l.

(** The area [m] has the attributes [l] from [first] on and [free] bytes left. *)
Definition area (m : list byte) (base first : Z) (l : list attr) (free : Z) : Prop :=
  exists pre, blen pre = first /\ 0 <= free /\ Forall attr_ok l /\ m = pre ++ ents base (blen m) l ++ zeros free ++ vals l.

Lemma vsize_bounds a : blen (a_value a) <= vsize a < blen (a_value a) + 4 /\ vsize a mod 4 = 0.
Proof. unfold vsize. rewrite xattr_size_eq. split; [apply up4|]. rewrite Z.mul_comm. apply Z.mod_mul. lia. Qed.
Lemma esize_bounds a : 16 + blen (a_name a) <= esize a < 20 + blen (a_name a) /\ esize a mod 4 = 0.
Proof.
  unfold esize. rewrite xattr_len_eq. pose proof (up4 (blen (a_name a))). split; [lia|]. replace (16 + 4 * ((blen (a_name a) + 3) / 4)) with ((4 + (blen (a_name a) + 3) / 4) * 4) by lia. apply Z.mod_mul. lia.
Qed.

Lemma blen_entry offs a : blen (entry_bytes offs a) = esize a.
Proof. unfold entry_bytes, ext4_xattr_entry. destruct (esize_bounds a) as [? _]. rewrite !blen_app, !blen_le_split, blen_zeros by lia. lia. Qed.
Lemma blen_value a : blen (value_bytes a) = vsize a.
Proof. unfold value_bytes. destruct (vsize_bounds a) as [? _]. rewrite blen_app, blen_zeros by lia. lia. Qed.
Lemma blen_ents base l : forall e, blen (ents base e l) = esizes l.
Proof. induction l as [|a l IH]; intros e; [done|]. cbn [ents]. rewrite blen_app, blen_entry, IH. done. Qed.
Lemma blen_vals l : blen (vals l) = vsizes l.
Proof. induction l as [|a l IH]; [done|]. cbn [vals]. rewrite blen_app, blen_value, IH. unfold vsizes. cbn. lia. Qed.

Lemma ents_app base l k : forall e, ents base e (l ++ k) = ents base e l ++ ents base (e - vsizes l) k.
Proof.
  induction l as [|a l IH]; intros e; cbn [ents app vsizes foldr]; [by rewrite Z.sub_0_r|]. rewrite IH, <- app_assoc. unfold vsizes. by rewrite Z.sub_add_distr.
Qed.
Lemma vals_app l k : vals (l ++ k) = vals k ++ vals l.
Proof. induction l as [|a l IH]; cbn [vals app]; [by rewrite app_nil_r|]. by rewrite IH, app_assoc. Qed.

(** ** One entry *)

Lemma le_combine_small n z : 0 <= z < 2 ^ (Z.of_nat n * 8) -> le_combine (le_split n z) = z.
Proof. intros Hz. rewrite LittleEndianList.le_combine_split. by apply Z.mod_small. Qed.

Lemma le_combine_nonzero a b c : le_combine b <> 0 -> le_combine (a ++ b ++ c) <> 0.
Proof.
  intros Hb H. rewrite !LittleEndianList.le_combine_app in H. apply Z.lor_eq_0_iff in H as [_ H]. apply Z.shiftl_eq_0_iff in H; [|lia]. by apply Z.lor_eq_0_iff in H as [H _].
Qed.

Record fields (m : list byte) (p : Z) (offs : Z) (x : attr) : Prop := {
  fi_len : e_name_len m p = Done (blen (a_name x));
  fi_index : e_name_index m p = Done (a_index x);
  fi_offs : e_value_offs m p = Done offs;
  fi_block : e_value_block m p = Done 0;
  fi_size : e_value_size m p = Done (blen (a_value x));
  fi_name : load_bytes m (p + sizeof_xattr_entry) (blen (a_name x)) = Done (a_name x);
  fi_last : IS_LAST_ENTRY m p = Done false;
  fi_next : EXT4_XATTR_NEXT m p = Done (p + esize x)
}.

Lemma load_skip d m o n : blen d <= o -> load_bytes (d ++ m) o n = load_bytes m (o - blen d) n.
Proof.
  intros Ho. pose proof (blen_nonneg d). unfold load_bytes. rewrite blen_app. replace (0 <=? o - blen d) with (0 <=? o) by (rewrite (proj2 (Z.leb_le 0 o)), (proj2 (Z.leb_le 0 (o - blen d))) by lia; done).
  replace (o - blen d + n <=? blen m) with (o + n <=? blen d + blen m) by (destruct (Z.leb_spec (o + n) (blen d + blen m)); symmetry; [apply Z.leb_le|apply Z.leb_gt]; lia).
  destruct (_ && _); [|done]. f_equal. unfold slice. f_equal. rewrite drop_app_ge by (unfold blen in *; lia). f_equal. unfold blen in *. lia.
Qed.

Lemma load_head d m n : n = blen d -> load_bytes (d ++ m) 0 n = Done d.
Proof. intros Hn. exact (load_bytes_mid [] d m n Hn). Qed.

(** Skip the fields in front of the one that is read. *)
Ltac skip_fields := repeat (rewrite load_skip by (rewrite ?blen_le_split; cbn; lia); rewrite ?blen_le_split;
  match goal with |- context [load_bytes _ (?o - Z.of_nat ?k) _] => let o' := eval vm_compute in (o - Z.of_nat k) in change (o - Z.of_nat k) with o' end).

Lemma entry_fields p offs x c : attr_ok x -> 0 <= offs < 2 ^ 16 -> fields (p ++ entry_bytes offs x ++ c) (blen p) offs x.
Proof.
  intros (Hn & Hi & Hv & Hh) Ho. pose proof (blen_nonneg (a_name x)). pose proof (blen_nonneg (a_value x)).
  assert (Hp : forall o n, 0 <= o -> load_bytes (p ++ entry_bytes offs x ++ c) (blen p + o) n = load_bytes (entry_bytes offs x ++ c) o n).
  { intros o n Hno. rewrite load_skip by lia. f_equal. lia. }
  assert (Hlen : e_name_len (p ++ entry_bytes offs x ++ c) (blen p) = Done (blen (a_name x))).
  { unfold e_name_len, load_int. rewrite <- (Z.add_0_r (blen p)), Hp by lia. unfold entry_bytes, ext4_xattr_entry. rewrite <- !app_assoc. rewrite load_head by done. cbn [obind]. f_equal. apply le_combine_small. lia. }
  split; [done|unfold e_name_index, load_int|unfold e_value_offs, load_int|unfold e_value_block, load_int|unfold e_value_size, load_int|unfold sizeof_xattr_entry|unfold IS_LAST_ENTRY, load_int|unfold EXT4_XATTR_NEXT; by rewrite Hlen].
  all: try (rewrite Hp by lia); unfold entry_bytes, ext4_xattr_entry; rewrite <- !app_assoc.
  - skip_fields. rewrite load_head by done. cbn [obind]. f_equal. apply le_combine_small. lia.
  - skip_fields. rewrite load_head by done. cbn [obind]. f_equal. apply le_combine_small. lia.
  - skip_fields. rewrite load_head by done. done.
  - skip_fields. rewrite load_head by done. cbn [obind]. f_equal. apply le_combine_small. lia.
  - skip_fields. by rewrite load_head by done.
  - rewrite load_skip, Z.sub_diag by lia. rewrite (app_assoc (le_split 1 _)), (app_assoc (_ ++ le_split 1 _)). rewrite load_head by (by rewrite !blen_app, !blen_le_split). cbn [obind]. f_equal. apply Z.eqb_neq.
    rewrite <- app_assoc. apply le_combine_nonzero. rewrite le_combine_small; lia.
Qed.

Lemma last_zeros p n c : 4 <= n -> IS_LAST_ENTRY (p ++ zeros n ++ c) (blen p) = Done true.
Proof.
  intros Hn. unfold IS_LAST_ENTRY, load_int. rewrite load_skip, Z.sub_diag by lia. replace (zeros n) with (zeros 4 ++ zeros (n - 4)) by (rewrite <- zeros_add by lia; f_equal; lia).
  rewrite <- app_assoc. by rewrite load_head.
Qed.

(** ** The walks *)

Lemma ents_offset base e a l : Forall attr_ok (a :: l) -> 0 <= base -> e - base < 2 ^ 16 -> vsizes (a :: l) <= e - base -> 0 <= e - vsize a - base < 2 ^ 16.
Proof.
  intros Hl Hb He Hv. assert (0 <= vsizes l).
  { clear. induction l as [|x l IH]; [done|]. unfold vsizes in *. cbn. destruct (vsize_bounds x) as [? _]. pose proof (blen_nonneg (a_value x)). lia. }
  destruct (vsize_bounds a) as [? _]. pose proof (blen_nonneg (a_value a)). change (vsizes (a :: l)) with (vsize a + vsizes l) in Hv. lia.
Qed.

Lemma esizes_cons a l : esizes (a :: l) = esize a + esizes l.
Proof. done. Qed.
Lemma vsizes_cons a l : vsizes (a :: l) = vsize a + vsizes l.
Proof. done. Qed.
Lemma sizes_nonneg l : 16 * Z.of_nat (length l) <= esizes l /\ 0 <= vsizes l.
Proof.
  induction l as [|a l IH]; [done|]. rewrite esizes_cons, vsizes_cons. destruct (vsize_bounds a) as [? _]. destruct (esize_bounds a) as [? _].
  pose proof (blen_nonneg (a_value a)). pose proof (blen_nonneg (a_name a)). cbn [length]. lia.
Qed.

(** The first entry of a list, and the rest behind it. *)
Lemma first_entry base e a l pre c : Forall attr_ok (a :: l) -> 0 <= base -> e - base < 2 ^ 16 -> vsizes (a :: l) <= e - base ->
  fields (pre ++ ents base e (a :: l) ++ c) (blen pre) (e - vsize a - base) a /\
  pre ++ ents base e (a :: l) ++ c = (pre ++ entry_bytes (e - vsize a - base) a) ++ ents base (e - vsize a) l ++ c /\
  blen (pre ++ entry_bytes (e - vsize a - base) a) = blen pre + esize a.
Proof.
  intros Hl Hb He Hv. pose proof (ents_offset base e a l Hl Hb He Hv) as Ho. apply Forall_cons_1 in Hl as [Ha Hl]. cbn [ents]. rewrite <- !app_assoc. split; [by apply entry_fields|]. split; [done|].
  by rewrite blen_app, blen_entry.
Qed.

Lemma free_space_ok base l : forall fuel pre e free c, Forall attr_ok l -> 0 <= base -> e - base < 2 ^ 16 -> vsizes l <= e - base -> 4 <= free -> (length l < fuel)%nat ->
  blen pre + esizes l + free + vsizes l <= e ->
  free_space_loop fuel (pre ++ ents base e l ++ zeros free ++ c) (blen pre) e = Done (blen pre + esizes l, e - vsizes l).
Proof.
  induction l as [|a l IH]; intros fuel pre e free c Hl Hb He Hv Hf Hfu Hle; (destruct fuel as [|fuel]; [cbn in Hfu; lia|]); cbn [free_space_loop].
  { cbn [ents app]. rewrite last_zeros by done. cbn [obind negb andb]. unfold esizes, vsizes. cbn. by rewrite Z.add_0_r, Z.sub_0_r. }
  destruct (first_entry base e a l pre (zeros free ++ c) Hl Hb He Hv) as ([_ _ _ _ Fs _ Fl Fn] & Hm & Hbl). rewrite Fl. cbn [obind negb].
  apply Forall_cons_1 in Hl as [Ha Hl]. rewrite esizes_cons, vsizes_cons in *. pose proof (sizes_nonneg l). destruct (esize_bounds a) as [? _]. destruct (vsize_bounds a) as [? _]. pose proof (blen_nonneg (a_name a)). pose proof (blen_nonneg (a_value a)).
  rewrite (proj2 (Z.ltb_lt (blen pre) e)) by lia. cbn [andb]. rewrite Fs. cbn [obind]. rewrite Fn. cbn [obind]. rewrite Hm, <- Hbl. fold (vsize a).
  rewrite IH; [rewrite Hbl; do 2 f_equal; lia|done|done|lia|lia|done|cbn in Hfu; lia|lia].
Qed.

Lemma get_last_ok base l : forall fuel pre e free c, Forall attr_ok l -> 0 <= base -> e - base < 2 ^ 16 -> vsizes l <= e - base -> 4 <= free -> (length l < fuel)%nat ->
  get_last_loop fuel (pre ++ ents base e l ++ zeros free ++ c) (blen pre) = Done (blen pre + esizes l).
Proof.
  induction l as [|a l IH]; intros fuel pre e free c Hl Hb He Hv Hf Hfu; (destruct fuel as [|fuel]; [cbn in Hfu; lia|]); cbn [get_last_loop].
  { cbn [ents app]. rewrite last_zeros by done. cbn [obind]. unfold esizes. cbn. by rewrite Z.add_0_r. }
  destruct (first_entry base e a l pre (zeros free ++ c) Hl Hb He Hv) as ([_ _ _ _ _ _ Fl Fn] & Hm & Hbl). rewrite Fl. cbn [obind].
  apply Forall_cons_1 in Hl as [Ha Hl]. rewrite esizes_cons, vsizes_cons in *. pose proof (sizes_nonneg l). destruct (vsize_bounds a) as [? _]. pose proof (blen_nonneg (a_value a)).
  rewrite Fn. cbn [obind]. rewrite Hm, <- Hbl. rewrite IH; [rewrite Hbl; f_equal; lia|done|done|lia|lia|done|cbn in Hfu; lia].
Qed.

(** The order of the attributes: by index, by length of the name, by name. *)
Definition attr_cmp (b a : attr) : Z :=
  let cmp := a_index b - a_index a in
  let cmp := if cmp =? 0 then blen (a_name b) - blen (a_name a) else cmp in
  if cmp =? 0 then memcmp (a_name b) (a_name a) else cmp.
Fixpoint sorted (l : list attr) : Prop :=
  match l with
  | a :: ((b :: _) as l) => 0 < attr_cmp b a /\ sorted l
  | _ => True
  end.

Lemma assert_sane_ok base l : forall fuel pre e free c, Forall attr_ok l -> sorted l -> 0 <= base -> e - base < 2 ^ 16 -> vsizes l <= e - base -> 4 <= free -> (length l < fuel)%nat ->
  assert_sane_loop fuel (pre ++ ents base e l ++ zeros free ++ c) (blen pre) = Done false.
Proof.
  induction l as [|a l IH]; intros fuel pre e free c Hl Hs Hb He Hv Hf Hfu; (destruct fuel as [|fuel]; [cbn in Hfu; lia|]); cbn [assert_sane_loop].
  { cbn [ents app]. by rewrite last_zeros. }
  destruct (first_entry base e a l pre (zeros free ++ c) Hl Hb He Hv) as ([Fle Fi _ _ _ Fnm Fl Fn] & Hm & Hbl). rewrite Fl. cbn [obind]. rewrite Fn. cbn [obind].
  rewrite Hm in *. pose proof (Forall_cons_1 _ _ _ Hl) as [Ha Hl']. rewrite vsizes_cons in Hv. destruct (vsize_bounds a) as [? _]. pose proof (blen_nonneg (a_value a)). pose proof (sizes_nonneg l).
  rewrite <- Hbl. destruct l as [|b l].
  { cbn [ents app]. by rewrite last_zeros. }
  destruct Hs as [Hcmp Hs]. destruct (first_entry base (e - vsize a) b l (pre ++ entry_bytes (e - vsize a - base) a) (zeros free ++ c) Hl' Hb ltac:(lia) ltac:(lia))
    as ([Gle Gi _ _ _ Gnm Gl Gn] & _ & _). rewrite Gl, Gi, Fi, Gle, Fle. cbn [obind].
  assert (Hc : (if (if a_index b - a_index a =? 0 then blen (a_name b) - blen (a_name a) else a_index b - a_index a) =? 0
    then let! a0 := load_bytes ((pre ++ entry_bytes (e - vsize a - base) a) ++ ents base (e - vsize a) (b :: l) ++ zeros free ++ c) (blen (pre ++ entry_bytes (e - vsize a - base) a) + sizeof_xattr_entry) (blen (a_name b)) in
         let! b0 := load_bytes ((pre ++ entry_bytes (e - vsize a - base) a) ++ ents base (e - vsize a) (b :: l) ++ zeros free ++ c) (blen pre + sizeof_xattr_entry) (blen (a_name b)) in Done (memcmp a0 b0)
    else Done (if a_index b - a_index a =? 0 then blen (a_name b) - blen (a_name a) else a_index b - a_index a)) = Done (attr_cmp b a)).
  { unfold attr_cmp. destruct (Z.eqb_spec (if a_index b - a_index a =? 0 then blen (a_name b) - blen (a_name a) else a_index b - a_index a) 0) as [Heq0|]; [|done].
    rewrite Gnm. cbn [obind]. assert (blen (a_name b) = blen (a_name a)) as -> by (destruct (Z.eqb_spec (a_index b - a_index a) 0); lia). by rewrite Fnm. }
  rewrite Hc. cbn [obind]. rewrite (proj2 (Z.ltb_ge _ _)), (proj2 (Z.eqb_neq _ _)) by lia. cbn [orb]. apply IH; try done; try lia. cbn [length] in *. lia.
Qed.

(** ** Reading back *)

Definition attr_view (a : attr) : Z * list byte * list byte := (a_index a, a_name a, a_value a).

Lemma load_field m p o n z : load_int m (p + Z.of_nat o) (Z.of_nat n) = Done z -> 0 <= p -> field o n (drop (Z.to_nat p) m) = z.
Proof.
  unfold load_int, load_bytes, field. destruct (_ && _); [|done]. intros [= <-] Hp. f_equal. unfold slice. rewrite drop_drop. rewrite Nat2Z.id. do 2 f_equal. lia.
Qed.

Lemma slice_mid (a d c : list byte) o n : o = blen a -> n = blen d -> slice o n (a ++ d ++ c) = d.
Proof. intros -> ->. unfold slice, blen. by rewrite !Nat2Z.id, drop_app_length, take_app_length. Qed.

Lemma parse_attrs_ok base l : forall fuel pre e free post, Forall attr_ok l -> 0 <= base -> e - base < 2 ^ 16 -> vsizes l <= e - base -> 4 <= free -> (length l < fuel)%nat ->
  blen pre + esizes l + free + vsizes l = e ->
  parse_attrs fuel (pre ++ ents base e l ++ zeros free ++ vals l ++ post) base (blen pre) = Some (attr_view <$> l).
Proof.
  induction l as [|a l IH]; intros fuel pre e free post Hl Hb He Hv Hf Hfu Hle; (destruct fuel as [|fuel]; [cbn in Hfu; lia|]); cbn [parse_attrs]; pose proof (blen_nonneg pre) as Hp.
  { cbn [ents app vals]. pose proof (last_zeros pre free post Hf) as Hz. unfold IS_LAST_ENTRY in Hz. destruct (load_int _ _ _) as [w|] eqn:Hw; [|done]. injection Hz as Hz.
    rewrite <- (Z.add_0_r (blen pre)) in Hw. apply (load_field _ _ 0 4) in Hw; [|done]. by rewrite Hw, Hz. }
  destruct (first_entry base e a l pre (zeros free ++ vals (a :: l) ++ post) Hl Hb He Hv) as ([Fle Fi Fo _ Fs Fnm Fl Fn] & Hm & Hbl). set (m := pre ++ ents base e (a :: l) ++ _) in *.
  unfold IS_LAST_ENTRY in Fl. destruct (load_int m (blen pre) 4) as [w|] eqn:Hw; [|done]. injection Fl as Hz. rewrite <- (Z.add_0_r (blen pre)) in Hw. apply (load_field m _ 0 4) in Hw; [|done]. rewrite Hw, Hz.
  unfold e_name_len in Fle. rewrite <- (Z.add_0_r (blen pre)) in Fle. apply (load_field m _ 0 1) in Fle; [|done]. apply (load_field m _ 1 1) in Fi; [|done]. apply (load_field m _ 2 2) in Fo; [|done]. apply (load_field m _ 8 4) in Fs; [|done].
  rewrite Fle, Fi, Fo, Fs. fold (esize a). rewrite <- Hbl. rewrite esizes_cons, vsizes_cons in *. destruct (esize_bounds a) as [? _]. destruct (vsize_bounds a) as [? _]. pose proof (blen_nonneg (a_name a)). pose proof (blen_nonneg (a_value a)). pose proof (sizes_nonneg l).
  apply Forall_cons_1 in Hl as [Ha Hl].
  assert (Hrest : parse_attrs fuel m base (blen (pre ++ entry_bytes (e - vsize a - base) a)) = Some (attr_view <$> l)).
  { rewrite Hm. cbn [vals]. rewrite <- (app_assoc (vals l)). apply IH; try done; try lia. cbn in Hfu. lia. }
  rewrite Hrest. cbn [mbind option_bind]. rewrite fmap_cons. unfold attr_view at 2. repeat f_equal.
  - unfold load_bytes in Fnm. destruct (_ && _); [|done]. injection Fnm as Fnm. unfold slice in *. rewrite drop_drop, <- Z2Nat.inj_add by lia. exact Fnm.
  - unfold m. cbn [vals]. unfold value_bytes. rewrite <- !app_assoc. rewrite (app_assoc pre), (app_assoc (pre ++ _)), (app_assoc ((pre ++ _) ++ _)). apply slice_mid; [|done].
    rewrite !blen_app, blen_ents, blen_zeros, blen_vals by lia. rewrite esizes_cons. lia.
Qed.

(** ** Adding *)

Lemma area_sizes m base first l free : area m base first l free -> blen m = first + esizes l + free + vsizes l.
Proof. intros (pre & <- & Hf & _ & Hm). rewrite Hm at 1. rewrite !blen_app, blen_ents, blen_zeros, blen_vals by lia. lia. Qed.

Lemma area_parse m base first l free : area m base first l free -> 0 <= base <= first -> blen m - base < 2 ^ 16 -> 4 <= free -> parse_attrs (S (length m)) m base first = Some (attr_view <$> l).
Proof.
  intros Ha Hb He Hf. pose proof (area_sizes _ _ _ _ _ Ha) as Hs. destruct Ha as (pre & <- & _ & Hl & Hm). pose proof (sizes_nonneg l). pose proof (blen_nonneg pre).
  assert (Hfu : (length l < S (length m))%nat) by (unfold blen in *; lia). revert Hfu. generalize (S (length m)). intros fuel Hfu. rewrite Hm. rewrite <- (app_nil_r (vals l)). apply parse_attrs_ok; try done; try lia.
Qed.

Lemma zeros_split free e v : 0 <= e -> 0 <= v -> e + v <= free -> zeros free = zeros e ++ zeros (free - e - v) ++ zeros v.
Proof. intros He Hv Hf. rewrite <- !zeros_add by lia. f_equal. lia. Qed.

(** The four stores of an entry and its value. *)
Lemma store_attr m base first l free a : area m base first l free -> attr_ok a -> a_hash a = 0 -> esize a + vsize a <= free -> 0 <= base <= first -> blen m - base < 2 ^ 16 ->
  let new_entry := first + esizes l in let val := new_entry + free - vsize a in
  exists m1 m2 m3 m4, store_bytes m new_entry (zeros (esize a)) = Done m1 /\
    store_bytes m1 new_entry (ext4_xattr_entry (blen (a_name a)) (a_index a) (u16 (val - base)) 0 (blen (a_value a)) 0 ++ a_name a) = Done m2 /\
    store_bytes m2 val (zeros (vsize a)) = Done m3 /\ store_bytes m3 val (a_value a) = Done m4 /\ area m4 base first (l ++ [a]) (free - (esize a + vsize a)).
Proof.
  intros Har Ha Hh Hfit Hb He. cbv zeta. pose proof (area_sizes _ _ _ _ _ Har) as Hsz. destruct Har as (pre & <- & Hf & Hl & Hm). pose proof (sizes_nonneg l). pose proof (blen_nonneg pre).
  destruct (esize_bounds a) as [Hea _]. destruct (vsize_bounds a) as [Hva _]. pose proof (blen_nonneg (a_name a)). pose proof (blen_nonneg (a_value a)).
  set (p := pre ++ ents base (blen m) l). assert (Hp : blen p = blen pre + esizes l) by (unfold p; by rewrite blen_app, blen_ents).
  set (z := free - esize a - vsize a). set (val := blen pre + esizes l + free - vsize a). assert (Hu16 : u16 (val - base) = val - base) by (unfold u16; apply Z.mod_small; unfold val; lia). rewrite Hu16.
  set (eb := ext4_xattr_entry (blen (a_name a)) (a_index a) (val - base) 0 (blen (a_value a)) 0). set (pad := zeros (esize a - 16 - blen (a_name a))).
  assert (Heb : blen eb = 16) by (unfold eb, ext4_xattr_entry; by rewrite !blen_app, !blen_le_split).
  assert (Hm0 : m = p ++ zeros (esize a) ++ zeros z ++ zeros (vsize a) ++ vals l).
  { rewrite Hm at 1. rewrite (zeros_split free (esize a) (vsize a)) by lia. fold z. unfold p. by rewrite <- !app_assoc. }
  assert (Hpq : blen (p ++ (eb ++ a_name a) ++ pad ++ zeros z) = val) by (unfold pad; rewrite !blen_app, !blen_zeros, Heb, Hp by (unfold z; lia); unfold val, z; lia).
  exists m, (p ++ (eb ++ a_name a) ++ pad ++ zeros z ++ zeros (vsize a) ++ vals l), (p ++ (eb ++ a_name a) ++ pad ++ zeros z ++ zeros (vsize a) ++ vals l), (p ++ (eb ++ a_name a) ++ pad ++ zeros z ++ value_bytes a ++ vals l).
  split_and!.
  - rewrite Hm0 at 1. rewrite store_bytes_mid by done. by rewrite <- Hm0.
  - rewrite Hm0. replace (zeros (esize a)) with (zeros (16 + blen (a_name a)) ++ pad) by (unfold pad; rewrite <- zeros_add by lia; f_equal; lia). rewrite <- app_assoc. rewrite store_bytes_mid; [done|done|].
    rewrite blen_app, Heb, blen_zeros by lia. done.
  - replace (p ++ (eb ++ a_name a) ++ pad ++ zeros z ++ zeros (vsize a) ++ vals l) with ((p ++ (eb ++ a_name a) ++ pad ++ zeros z) ++ zeros (vsize a) ++ vals l) by (by rewrite <- !app_assoc). by rewrite store_bytes_mid.
  - replace (p ++ (eb ++ a_name a) ++ pad ++ zeros z ++ zeros (vsize a) ++ vals l) with ((p ++ (eb ++ a_name a) ++ pad ++ zeros z) ++ zeros (blen (a_value a)) ++ zeros (vsize a - blen (a_value a)) ++ vals l)
      by (rewrite (app_assoc (zeros (blen (a_value a)))), <- zeros_add by lia; rewrite <- !app_assoc; do 7 f_equal; lia).
    rewrite store_bytes_mid; [|done|by rewrite blen_zeros by lia]. unfold value_bytes. by rewrite <- !app_assoc.
  - exists pre. split; [done|]. split; [lia|]. split; [apply Forall_app; split; [done|by constructor]|].
    assert (Hlen : blen (p ++ (eb ++ a_name a) ++ pad ++ zeros z ++ value_bytes a ++ vals l) = blen m).
    { rewrite Hsz. unfold pad. rewrite !blen_app, blen_value, blen_vals, !blen_zeros, Heb, Hp by (unfold z; lia). unfold z. lia. }
    rewrite Hlen, ents_app, vals_app. cbn [ents vals app]. unfold p, entry_bytes, eb, pad. rewrite Hh. replace (blen m - vsizes l - vsize a - base) with (val - base) by (unfold val; lia).
    replace (free - (esize a + vsize a)) with z by (unfold z; lia). rewrite <- !app_assoc. done.
Qed.

Lemma addto_range_ok force s m base first l free a : area m base first l free -> attr_ok a -> a_hash a = 0 -> sorted (l ++ [a]) -> esize a + vsize a + 4 <= free -> 0 <= base <= first -> blen m - base < 2 ^ 16 ->
  exists m', xattr_addto_range force m base (blen m) first (a_index a) (a_name a) (a_value a) s = Ok (Some (first + esizes l, m')) s /\
    area m' base first (l ++ [a]) (free - (esize a + vsize a)) /\ length m' = length m.
Proof.
  intros Har Ha Hh Hso Hfit Hb He. pose proof (area_sizes _ _ _ _ _ Har) as Hsz. destruct (store_attr m base first l free a Har Ha Hh ltac:(lia) Hb He) as (m1 & m2 & m3 & m4 & S1 & S2 & S3 & S4 & Har4).
  pose proof (area_sizes _ _ _ _ _ Har4) as Hsz4. pose proof (sizes_nonneg l). pose proof (sizes_nonneg (l ++ [a])) as [Hn4 _].
  assert (Hsum : esizes (l ++ [a]) = esizes l + esize a /\ vsizes (l ++ [a]) = vsizes l + vsize a).
  { unfold esizes, vsizes. rewrite !foldr_app. cbn. clear. induction l as [|x l IH]; cbn in *; lia. }
  destruct Har as (pre & Hpre & Hf & Hl & Hm). destruct Har4 as (pre4 & Hpre4 & Hf4 & Hl4 & Hm4). pose proof (blen_nonneg pre).
  destruct (esize_bounds a) as [? _]. destruct (vsize_bounds a) as [? _]. pose proof (blen_nonneg (a_name a)). pose proof (blen_nonneg (a_value a)).
  assert (Hfu : (length l < S (length m))%nat) by (unfold blen in *; lia). assert (Hbm : blen m4 = blen m) by lia.
  assert (Hfu4 : (length (l ++ [a]) < S (length m4))%nat) by (unfold blen in *; lia).
  exists m4. split; [|split; [by exists pre4|unfold blen in Hbm; lia]].
  assert (Hsp : xattr_free_space force m first (blen m) s = Ok free s).
  { unfold xattr_free_space. erewrite bind_Ok.
    2: { unfold lift. rewrite <- Hpre. rewrite Hm at 2. rewrite (free_space_ok base l) by (done || lia). reflexivity. }
    cbv beta iota. rewrite (proj2 (Z.ltb_ge _ _)) by lia. unfold mret, fsM_ret. f_equal. lia. }
  assert (Hlast : xattr_get_last m first = Done (first + esizes l)).
  { unfold xattr_get_last. rewrite <- Hpre. rewrite Hm at 2. apply get_last_ok; (done || lia). }
  assert (Hsane : xattr_assert_sane force m4 first s = Ok tt s).
  { unfold xattr_assert_sane. erewrite bind_Ok; [|unfold lift; rewrite <- Hpre4; rewrite Hm4 at 2; rewrite (assert_sane_ok base (l ++ [a])) by (done || lia); reflexivity]. done. }
  unfold xattr_addto_range. destruct Ha as [Hnl _]. rewrite (proj2 (Z.ltb_ge 255 _)) by lia. run Hsp. fold (esize a) (vsize a). rewrite (proj2 (Z.ltb_ge free _)) by lia.
  erewrite bind_Ok by (unfold lift; rewrite Hlast; reflexivity). cbv beta. erewrite bind_Ok by (unfold lift; rewrite S1; reflexivity). cbv beta.
  erewrite bind_Ok by (unfold lift; rewrite S2; reflexivity). cbv beta. erewrite bind_Ok by (unfold lift; rewrite S3; reflexivity). cbv beta.
  erewrite bind_Ok by (unfold lift; rewrite S4; reflexivity). cbv beta. run Hsane. done.
Qed.

(** ** Attributes of an inode *)

Section Inode.
Context (force : bool) (info : fs_info) (aux : fs_aux_info) (Hge : geometry info aux) (Hig : inode_geometry info aux).
Context (Hsize : sizeof_ext4_inode + 4 <= inode_size info < 2 ^ 16).
Abbreviation the_inode s n := (default zero_inode (inodes s !! inode_at info n)).
Abbreviation room_in := (inode_size info - sizeof_ext4_inode).

(** The inode has the attributes [l] in its slot and [free] bytes left there. *)
Definition inode_attrs (i : ext4_inode) (l : list attr) (free : Z) : Prop := area (inode_area info i) 4 4 l free.

Lemma blen_inode_area i : blen (i_xattr i) <= room_in -> blen (inode_area info i) = room_in.
Proof. intros H. unfold inode_area. pose proof (blen_nonneg (i_xattr i)). unfold blen in *. rewrite length_take, length_app. unfold zeros. rewrite length_replicate. lia. Qed.

Lemma inode_area_full i x m : blen m = room_in -> inode_area info (set_xattr i x m) = m.
Proof. intros H. unfold inode_area. cbn [i_xattr set_xattr]. rewrite H, Z.sub_diag, app_nil_r. apply take_ge. unfold blen in H. lia. Qed.

Lemma no_attrs i : i_xattr i = [] -> inode_attrs i [] (room_in - 4).
Proof.
  intros Hx. unfold inode_attrs, area, inode_area. rewrite Hx. cbn [app blen length ents vals]. exists (zeros 4). split; [done|]. split; [lia|]. split; [constructor|].
  cbn [app]. rewrite !app_nil_r, Z.sub_0_r, <- zeros_add by lia. rewrite take_ge by (unfold zeros; rewrite length_replicate; lia). f_equal. lia.
Qed.

Lemma addto_inode_ok s n l free a : inode_attrs (the_inode s n) l free -> blen (i_xattr (the_inode s n)) <= room_in -> attr_ok a -> a_hash a = 0 -> sorted (l ++ [a]) -> esize a + vsize a + 4 <= free ->
  exists i, xattr_addto_inode force info (inode_at info n) (a_index a) (a_name a) (a_value a) s = Ok 0 (with_inode s (inode_at info n) i) /\
    inode_attrs i (l ++ [a]) (free - (esize a + vsize a)) /\ blen (i_xattr i) <= room_in /\ i_block i = i_block (the_inode s n).
Proof.
  intros Har Hx Ha Hh Hso Hfit. unfold inode_attrs in Har. pose proof (blen_inode_area _ Hx) as Hbl. set (i0 := the_inode s n) in *.
  destruct (addto_range_ok force s (inode_area info i0) 4 4 l free a Har Ha Hh Hso Hfit ltac:(lia) ltac:(unfold sizeof_ext4_inode in *; lia)) as (m' & Hr & Har' & Hlen). rewrite Hbl in Hr.
  destruct Har' as (pre & Hpre & Hf' & Hl' & Hm'). assert (Hbm : blen m' = room_in) by (rewrite <- Hbl; unfold blen; by rewrite Hlen).
  set (m2 := le_split 4 EXT4_XATTR_MAGIC ++ ents 4 (blen m') (l ++ [a]) ++ zeros (free - (esize a + vsize a)) ++ vals (l ++ [a])).
  assert (Hst : store_bytes m' 0 (le_split 4 EXT4_XATTR_MAGIC) = Done m2).
  { rewrite Hm' at 1. apply (store_bytes_mid [] pre); [done|]. by rewrite blen_le_split, Hpre. }
  assert (Hb2 : blen m2 = blen m') by (rewrite Hm' at 1; unfold m2; rewrite !blen_app, blen_le_split, Hpre; done).
  exists (set_xattr i0 (sizeof_ext4_inode - EXT4_GOOD_OLD_INODE_SIZE) m2). split; [|split; [|split; [cbn; lia|done]]].
  - unfold xattr_addto_inode. erewrite (bind_Ok (read_inode _) _ s i0 s) by reflexivity. cbv zeta beta. change (0 + sizeof_xattr_ibody_header) with 4. run Hr. erewrite bind_Ok by (unfold lift; rewrite Hst; reflexivity). cbv beta.
    by erewrite (bind_Ok (write_inode _ _)) by reflexivity.
  - unfold inode_attrs. rewrite inode_area_full by lia. exists (le_split 4 EXT4_XATTR_MAGIC). split; [by rewrite blen_le_split|]. split; [done|]. split; [done|]. by rewrite Hb2.
Qed.

Lemma xattr_add_ok s n l free a : image_ok info aux s -> used_inode info s n -> 0 < n <= groups aux * inodes_per_group info ->
  inode_attrs (the_inode s n) l free -> blen (i_xattr (the_inode s n)) <= room_in -> attr_ok a -> a_hash a = 0 -> sorted (l ++ [a]) -> esize a + vsize a + 4 <= free ->
  exists s', xattr_add force info aux n (a_index a) (a_name a) (Some (a_value a)) s = Ok 0 s' /\ image_ok info aux s' /\ used_inode info s' n /\
    inode_attrs (the_inode s' n) (l ++ [a]) (free - (esize a + vsize a)) /\ blen (i_xattr (the_inode s' n)) <= room_in.
Proof.
  intros Him Hu Hr Hat Hx Ha Hh Hso Hfit. destruct (get_inode_ok info aux Hge Hig s n Him Hr) as (q & s1 & Hg & Hp). destruct (pr_rest _ _ _ _ _ Hp) as (_ & _ & Pi & _).
  assert (Hi1 : the_inode s1 n = the_inode s n) by (by rewrite Pi). rewrite <- Hi1 in Hat, Hx.
  destruct (addto_inode_ok s1 n l free a Hat Hx Ha Hh Hso Hfit) as (i & Hadd & Hat' & Hx' & Hbd). exists (with_inode s1 (inode_at info n) i).
  assert (Hu1 : used_inode info s1 n) by (apply (same_inodes_used info s s1); [apply Hp|done]).
  assert (Hi : the_inode (with_inode s1 (inode_at info n) i) n = i) by (cbn; by rewrite lookup_insert_eq). rewrite Hi. split_and!; try done.
  - unfold xattr_add. run Hg. run Hadd. done.
  - apply with_inode_image; [done|apply Hp|done|]. rewrite Hbd. apply (im_bodies _ _ _ (pr_image _ _ _ _ _ Hp)).
Qed.
End Inode.

(** ** Theorems *)

(** An attribute that was added is read back behind those that were there:
    with room for the entry, the value and the terminator, and an order that
    fits, [xattr_addto_range] writes an area that reads as the old attributes
    and the new one. *)
Theorem xattr_addto_range_reads_back force s m base first l free index name value : let a := mk_attr index name value 0 in
  area m base first l free -> attr_ok a -> sorted (l ++ [a]) -> esize a + vsize a + 4 <= free -> 0 <= base <= first -> blen m - base < 2 ^ 16 ->
  exists entry m', xattr_addto_range force m base (blen m) first index name value s = Ok (Some (entry, m')) s /\ length m' = length m /\
    parse_attrs (S (length m)) m base first = Some (attr_view <$> l) /\
    parse_attrs (S (length m')) m' base first = Some ((attr_view <$> l) ++ [(index, name, value)]).
Proof.
  intros a Har Ha Hso Hfit Hb He. destruct (addto_range_ok force s m base first l free a Har Ha eq_refl Hso Hfit Hb He) as (m' & Hr & Har' & Hlen).
  destruct (esize_bounds a) as [? _]. destruct (vsize_bounds a) as [? _]. pose proof (blen_nonneg (a_name a)). pose proof (blen_nonneg (a_value a)).
  exists (first + esizes l), m'. split; [exact Hr|]. split; [done|]. split; [apply (area_parse m base first l free); (done || lia)|].
  rewrite (area_parse m' base first (l ++ [a]) _ Har'); [by rewrite fmap_app|done|unfold blen in *; lia|lia].
Qed.

(** C25. A label and capabilities on an inode without attributes: when both fit
    the inode's slot, both calls succeed and a reader finds the two security
    attributes, sorted, with the label and its terminator and the capability
    data as values. *)
Theorem selinux_and_capabilities_stored force info aux s n label caps : geometry info aux -> inode_geometry info aux -> inode_size info < 2 ^ 16 ->
  image_ok info aux s -> used_inode info s n -> 0 < n <= groups aux * inodes_per_group info -> i_xattr (default zero_inode (inodes s !! inode_at info n)) = [] ->
  0 < caps < 2 ^ 64 -> 76 + EXT4_XATTR_SIZE (blen label + 1) <= inode_size info - sizeof_ext4_inode - 4 ->
  exists s1 s', inode_set_selinux force info aux n (Some label) s = Ok 0 s1 /\ inode_set_capabilities force info aux n caps s1 = Ok 0 s' /\ image_ok info aux s' /\
    let m := inode_area info (default zero_inode (inodes s' !! inode_at info n)) in
    parse_attrs (S (length m)) m 4 4 =
      Some [(EXT4_XATTR_INDEX_SECURITY, XATTR_SELINUX_SUFFIX, label ++ [Byte.x00]); (EXT4_XATTR_INDEX_SECURITY, XATTR_CAPS_SUFFIX, vfs_cap_data caps)].
Proof.
  intros Hge Hig Hsz Him Hu Hr Hx Hcaps Hfit. pose proof (blen_nonneg label) as Hlab. assert (Hup : blen label + 1 <= EXT4_XATTR_SIZE (blen label + 1)) by (rewrite xattr_size_eq; apply up4).
  assert (Hsize : sizeof_ext4_inode + 4 <= inode_size info < 2 ^ 16) by lia. set (a := mk_attr 6 XATTR_SELINUX_SUFFIX (label ++ [Byte.x00]) 0). set (c := mk_attr 6 XATTR_CAPS_SUFFIX (vfs_cap_data caps) 0).
  assert (Hva : vsize a = EXT4_XATTR_SIZE (blen label + 1)) by (unfold vsize; cbn [a a_value]; by rewrite blen_app). assert (Hea : esize a = 24) by done. assert (Hec : esize c = 28) by done.
  assert (Hvc : vsize c = 20) by (unfold vsize; cbn [c a_value]; unfold vfs_cap_data; by rewrite !blen_app, !blen_le_split).
  assert (Ha : attr_ok a) by (split; [done|]; split; [done|]; split; [cbn [a a_value]; rewrite blen_app; change (blen [Byte.x00]) with 1; unfold sizeof_ext4_inode in *; lia|done]).
  assert (Hcok : attr_ok c) by (split; [done|]; split; [done|]; split; [|done]; cbn [c a_value]; unfold vfs_cap_data; by rewrite !blen_app, !blen_le_split).
  destruct (xattr_add_ok force info aux Hge Hig Hsize s n [] (inode_size info - sizeof_ext4_inode - 4) a Him Hu Hr) as (s1 & H1 & Him1 & Hu1 & Hat1 & Hx1);
    [by apply no_attrs|rewrite Hx; change (blen (@nil byte)) with 0; lia|done|done|done|lia|].
  destruct (xattr_add_ok force info aux Hge Hig Hsize s1 n [a] (inode_size info - sizeof_ext4_inode - 4 - (esize a + vsize a)) c Him1 Hu1 Hr Hat1 Hx1 Hcok eq_refl) as (s' & H2 & Him2 & _ & Hat2 & Hx2); [done|lia|].
  exists s1, s'. split; [exact H1|]. split; [|split; [done|]].
  - unfold inode_set_capabilities. rewrite (proj2 (Z.eqb_neq caps 0)) by lia. exact H2.
  - cbv zeta. rewrite (area_parse _ 4 4 [a; c] _ Hat2); [done|lia|rewrite blen_inode_area by done; unfold sizeof_ext4_inode; lia|lia].
Qed.

Module Ext4XattrWitnesses.
Import Ext4Witnesses Ext4InodeWitnesses.

Definition label : list byte := bytes_of "u:object_r:tty:s0".

Lemma xattr_addto_range_reads_back_witness : exists entry m', xattr_addto_range false (zeros 100) 4 100 4 6 XATTR_SELINUX_SUFFIX label fs0 = Ok (Some (entry, m')) fs0 /\
  parse_attrs 101 m' 4 4 = Some [(6, XATTR_SELINUX_SUFFIX, label)].
Proof.
  destruct (xattr_addto_range_reads_back false fs0 (zeros 100) 4 4 [] 96 6 XATTR_SELINUX_SUFFIX label) as (entry & m' & Hr & Hl & _ & Hp).
  - exists (zeros 4). repeat split; [lia|constructor].
  - repeat split; vm_compute; congruence.
  - done.
  - vm_compute. congruence.
  - lia.
  - vm_compute. reflexivity.
  - exists entry, m'. split; [exact Hr|]. change (length (zeros 100)) with 100%nat in Hl. rewrite Hl in Hp. exact Hp.
Defined.

Lemma selinux_and_capabilities_stored_witness : exists s1 s', inode_set_selinux false info1 aux1 2 (Some label) fs10 = Ok 0 s1 /\ inode_set_capabilities false info1 aux1 2 (2 ^ 36) s1 = Ok 0 s' /\
  image_ok info1 aux1 s'.
Proof.
  destruct (selinux_and_capabilities_stored false info1 aux1 fs10 2 label (2 ^ 36) (proj1 info1_layout) info1_inodes eq_refl (proj1 fs10_image)) as (s1 & s' & H1 & H2 & Him & _).
  - apply (proj2 fs10_image). lia.
  - vm_compute. intuition congruence.
  - vm_compute. reflexivity.
  - lia.
  - vm_compute. congruence.
  - exists s1, s'. split; [exact H1|]. split; [exact H2|exact Him].
Defined.

(** A label that fills the slot leaves no room for the terminator: the check of
    the order walks on into the value and out of the slot. *)
Lemma full_slot_overrun : xattr_addto_range false (zeros 100) 4 100 4 6 XATTR_SELINUX_SUFFIX (replicate 71 Byte.x75 ++ [Byte.x00]) fs0 = Fault OutOfBounds.
Proof. vm_compute. reflexivity. Qed.
End Ext4XattrWitnesses.
