(* ===== verification/Ext4Sha1.v ===== *)
(** * SHA-1 of the image builder (ext4_utils sha1.c)

    A second implementation of SHA-1, by Steve Reid: eighty unrolled calls of
    the macros [R0] to [R4] in which the five working variables change roles
    instead of places, a schedule of sixteen words that is overwritten in
    place, a byte swap of the block on little-endian hosts, and an update that
    copies whole pieces.  The specification is the one of Sha.v. *)
From S2P Require Import Prelude HashCtx Sha.

(** ** The macros *)

(** [rol(value, bits)]. *)
Definition rol_macro (value bits : Z) : Z := Z.lor (u32 (Z.shiftl value bits)) (Z.shiftr value (32 - bits)).

(** The working variables [a] to [e]. *)
Inductive var := Va | Vb | Vc | Vd | Ve.

Record work := mk_work { wa : Z; wb : Z; wc : Z; wd : Z; we : Z }.

Definition get (s : work) (x : var) : Z :=
  match x with Va => wa s | Vb => wb s | Vc => wc s | Vd => wd s | Ve => we s end.

Definition set (x : var) (n : Z) (s : work) : work :=
  let '(mk_work a b c d e) := s in
  match x with
  | Va => mk_work n b c d e | Vb => mk_work a n c d e | Vc => mk_work a b n d e
  | Vd => mk_work a b c n e | Ve => mk_work a b c d n
  end.

(** [block->l[i]]: the indices of the macros are below 16. *)
Definition l_at (l : list Z) (i : Z) : Z := nth (Z.to_nat i) l 0.

(** [blk0(i)] on a little-endian host: swap the bytes of the word, in place. *)
Definition blk0 (l : list Z) (i : Z) : Z * list Z :=
  let x := Z.lor (Z.land (rol_macro (l_at l i) 24) 0xFF00FF00) (Z.land (rol_macro (l_at l i) 8) 0x00FF00FF) in
  (x, <[Z.to_nat i := x]> l).

(** [blk(i)]: the next word of the schedule, in place of the oldest. *)
Definition blk (l : list Z) (i : Z) : Z * list Z :=
  let x := rol_macro (Z.lxor (Z.lxor (Z.lxor (l_at l (Z.land (i + 13) 15)) (l_at l (Z.land (i + 8) 15)))
                        (l_at l (Z.land (i + 2) 15))) (l_at l (Z.land i 15))) 1 in
  (x, <[Z.to_nat (Z.land i 15) := x]> l).

(** The five macros differ in the mixing function, the word and the constant. *)
Inductive macro := R0 | R1 | R2 | R3 | R4.

Definition mix (m : macro) (w x y : Z) : Z :=
  match m with
  | R0 | R1 => Z.lxor (Z.land w (Z.lxor x y)) y
  | R3 => Z.lor (Z.land (Z.lor w x) y) (Z.land w x)
  | R2 | R4 => Z.lxor (Z.lxor w x) y
  end.

Definition word (m : macro) : list Z -> Z -> Z * list Z :=
  match m with R0 => blk0 | _ => blk end.

Definition constant (m : macro) : Z :=
  match m with R0 | R1 => 0x5A827999 | R2 => 0x6ED9EBA1 | R3 => 0x8F1BBCDC | R4 => 0xCA62C1D6 end.

(** [R(v,w,x,y,z,i)]: [z += mix(w,x,y) + word(i) + constant + rol(v,5); w = rol(w,30)]. *)
Definition R (m : macro) (v w x y z : var) (i : Z) (st : work * list Z) : work * list Z :=
  let '(s, l) := st in
  let '(k, l) := word m l i in
  let s := set z (u32 (get s z + u32 (mix m (get s w) (get s x) (get s y) + k + constant m + rol_macro (get s v) 5))) s in
  (set w (rol_macro (get s w) 30) s, l).

(** A row of the unrolled loop as it is written: the macro of each call, the
    first variable of its five, its index. *)
Definition call (m : macro) (i : Z) (v : var) : work * list Z -> work * list Z :=
  match v with
  | Va => R m Va Vb Vc Vd Ve i
  | Ve => R m Ve Va Vb Vc Vd i
  | Vd => R m Vd Ve Va Vb Vc i
  | Vc => R m Vc Vd Ve Va Vb i
  | Vb => R m Vb Vc Vd Ve Va i
  end.

Definition rounds : list (macro * Z * var) :=
  [(R0, 0, Va); (R0, 1, Ve); (R0, 2, Vd); (R0, 3, Vc); (R0, 4, Vb); (R0, 5, Va); (R0, 6, Ve); (R0, 7, Vd);
   (R0, 8, Vc); (R0, 9, Vb); (R0, 10, Va); (R0, 11, Ve); (R0, 12, Vd); (R0, 13, Vc); (R0, 14, Vb); (R0, 15, Va);
   (R1, 16, Ve); (R1, 17, Vd); (R1, 18, Vc); (R1, 19, Vb); (R2, 20, Va); (R2, 21, Ve); (R2, 22, Vd); (R2, 23, Vc);
   (R2, 24, Vb); (R2, 25, Va); (R2, 26, Ve); (R2, 27, Vd); (R2, 28, Vc); (R2, 29, Vb); (R2, 30, Va); (R2, 31, Ve);
   (R2, 32, Vd); (R2, 33, Vc); (R2, 34, Vb); (R2, 35, Va); (R2, 36, Ve); (R2, 37, Vd); (R2, 38, Vc); (R2, 39, Vb);
   (R3, 40, Va); (R3, 41, Ve); (R3, 42, Vd); (R3, 43, Vc); (R3, 44, Vb); (R3, 45, Va); (R3, 46, Ve); (R3, 47, Vd);
   (R3, 48, Vc); (R3, 49, Vb); (R3, 50, Va); (R3, 51, Ve); (R3, 52, Vd); (R3, 53, Vc); (R3, 54, Vb); (R3, 55, Va);
   (R3, 56, Ve); (R3, 57, Vd); (R3, 58, Vc); (R3, 59, Vb); (R4, 60, Va); (R4, 61, Ve); (R4, 62, Vd); (R4, 63, Vc);
   (R4, 64, Vb); (R4, 65, Va); (R4, 66, Ve); (R4, 67, Vd); (R4, 68, Vc); (R4, 69, Vb); (R4, 70, Va); (R4, 71, Ve);
   (R4, 72, Vd); (R4, 73, Vc); (R4, 74, Vb); (R4, 75, Va); (R4, 76, Ve); (R4, 77, Vd); (R4, 78, Vc); (R4, 79, Vb)].

(** ** The block function *)

(** The union [CHAR64LONG16] read as words, on a little-endian host. *)
Fixpoint le_words (n : nat) (b : list byte) : list Z :=
  match n with O => [] | S n => le_combine (take 4 b) :: le_words n (drop 4 b) end.

Definition SHA1Transform (state : list Z) (buffer : list byte) : list Z :=
  match state with
  | [s0; s1; s2; s3; s4] =>
      let '(s, _) := foldl (fun st '(m, i, v) => call m i v st)
                       (mk_work s0 s1 s2 s3 s4, le_words 16 buffer) rounds in
      [u32 (s0 + wa s); u32 (s1 + wb s); u32 (s2 + wc s); u32 (s3 + wd s); u32 (s4 + we s)]
  | _ => state
  end.

(** ** The context *)

Record SHA1_CTX := mk_SHA1_CTX {
  sha_state : list Z;
  count0 : Z;
  count1 : Z;
  buffer : list byte
}.

Definition SHA1Init (context : SHA1_CTX) : SHA1_CTX :=
  mk_SHA1_CTX [0x67452301; 0xEFCDAB89; 0x98BADCFE; 0x10325476; 0xC3D2E1F0] 0 0 (buffer context).

(** [memcpy] of [src] to offset [j] of an object. *)
Definition memcpy_at (dst : list byte) (j : nat) (src : list byte) : outcome (list byte) :=
  if (length dst <? j + length src)%nat then Crash BufferOverflow
  else Done (take j dst ++ src ++ drop (j + length src) dst).

(** [for ( ; i + 63 < len; i += 64) SHA1Transform(context->state, &data[i])];
    the sum is a 32-bit sum. *)
Fixpoint whole_blocks (fuel : nat) (state : list Z) (data : list byte) (i len : Z) : outcome (list Z * Z) :=
  if u32 (i + 63) <? len then
    match fuel with
    | O => Crash OutOfFuel
    | S fuel =>
        if blen data <? i + 64 then Crash OutOfBounds
        else whole_blocks fuel (SHA1Transform state (slice i 64 data)) data (u32 (i + 64)) len
    end
  else Done (state, i).

(** The length is an argument of its own in the code; it is the length of the
    data in every call. *)
Definition SHA1Update (context : SHA1_CTX) (data : list byte) : outcome SHA1_CTX :=
  let len := blen data in
  let j := count0 context in
  let c0 := u32 (count0 context + u32 (Z.shiftl len 3)) in
  let c1 := if c0 <? j then u32 (count1 context + Z.shiftr len 29 + 1) else count1 context in
  let j := Z.land (Z.shiftr j 3) 63 in
  if u32 (j + len) >? 63 then
    let i := 64 - j in
    let! bf := memcpy_at (buffer context) (Z.to_nat j) (take (Z.to_nat i) data) in
    let! (st, i) := whole_blocks (length data) (SHA1Transform (sha_state context) bf) data i len in
    let! bf := memcpy_at bf 0 (drop (Z.to_nat i) data) in
    Done (mk_SHA1_CTX st c0 c1 bf)
  else
    let! bf := memcpy_at (buffer context) (Z.to_nat j) data in
    Done (mk_SHA1_CTX (sha_state context) c0 c1 bf).

(** [finalcount[i]] and [digest[i]]: byte [3 - (i & 3)] of a word. *)
Definition word_byte (w : Z) (i : nat) : byte :=
  byte_of_Z (Z.land (Z.shiftr w ((3 - Z.land (Z.of_nat i) 3) * 8)) 255).

Definition finalcount (context : SHA1_CTX) : list byte :=
  (fun i => word_byte (if (4 <=? i)%nat then count0 context else count1 context) i) <$> seq 0 8.

(** [while ((context->count[0] & 504) != 448)]. *)
Fixpoint SHA1Pad (fuel : nat) (context : SHA1_CTX) : outcome SHA1_CTX :=
  if Z.land (count0 context) 504 =? 448 then Done context else
  match fuel with
  | O => Crash OutOfFuel
  | S fuel => let! context := SHA1Update context [Init.Byte.x00] in SHA1Pad fuel context
  end.

Definition SHA1Final (context : SHA1_CTX) : outcome (list byte * SHA1_CTX) :=
  let fc := finalcount context in
  let! context := SHA1Update context [Init.Byte.x80] in
  let! context := SHA1Pad 64 context in
  let! context := SHA1Update context fc in
  Done ((fun i => word_byte (nth (i / 4) (sha_state context) 0) i) <$> seq 0 20, context).

(** ** The schedule *)

Lemma rol_macro_rol x n : rol_macro x n = rol n x.
Proof. done. Qed.

Lemma sha1_expand_keeps n : forall w i, (i < length w)%nat -> nth i (sha1_expand n w) 0 = nth i w 0.
Proof.
  induction n as [|n IH]; intros w i Hi; [done|]. cbn [sha1_expand].
  rewrite IH by (rewrite length_app; lia). by rewrite app_nth1.
Qed.

Lemma sha1_expand_length n : forall w, length (sha1_expand n w) = (length w + n)%nat.
Proof. induction n as [|n IH]; intros w; cbn [sha1_expand]; [lia|]. rewrite IH, length_app. simpl. lia. Qed.

Lemma sha1_expand_next n : forall w i,
  (16 <= length w)%nat -> (length w <= i < length w + n)%nat ->
  let W t := nth t (sha1_expand n w) 0 in
  W i = rol 1 (Z.lxor (Z.lxor (Z.lxor (W (i - 3)) (W (i - 8))) (W (i - 14))) (W (i - 16)))%nat.
Proof.
  induction n as [|n IH]; intros w i Hw Hi; [lia|]. cbn [sha1_expand].
  destruct (decide (i = length w)) as [->|Hne].
  - cbv beta zeta. rewrite !sha1_expand_keeps by (rewrite length_app; cbn [length]; lia).
    rewrite (app_nth2 w), Nat.sub_diag by lia. by rewrite !(app_nth1 w) by lia.
  - apply IH; rewrite length_app; simpl; lia.
Qed.

(** Word [i] of the schedule of a block. *)
Definition W (b : list byte) (i : nat) : Z := nth i (FIPS.W1 b) 0.

Lemma W_spec b :
  length b = 64%nat ->
  (forall i, (i < 16)%nat -> W b i = nth i (FIPS.words 16 b) 0) /\
  (forall i, (16 <= i < 80)%nat ->
     W b i = rol 1 (Z.lxor (Z.lxor (Z.lxor (W b (i - 3)) (W b (i - 8))) (W b (i - 14))) (W b (i - 16)))%nat).
Proof.
  intros Hb. unfold W. destruct (sha1_schedule b Hb) as [<- _].
  destruct (load_words_FIPS 16 b ltac:(lia)) as (He & _ & Hl). split; intros i Hi.
  - rewrite sha1_expand_keeps by lia. by rewrite He.
  - apply (sha1_expand_next 64); lia.
Qed.

(** ** The byte swap *)

Lemma testbit_byte b i : 8 <= i \/ i < 0 -> Z.testbit (byte_to_Z b) i = false.
Proof.
  intros [Hi|Hi]; [|by apply Z.testbit_neg_r].
  pose proof (Byte.byte.unsigned_range b). rewrite <- (Z.mod_small (byte_to_Z b) (2 ^ 8)) by lia.
  apply Z.mod_pow2_bits_high. lia.
Qed.

Lemma combine4_bits b0 b1 b2 b3 i :
  0 <= i -> Z.testbit (le_combine [b0; b1; b2; b3]) i =
    Z.testbit (byte_to_Z b0) i || Z.testbit (byte_to_Z b1) (i - 8) ||
    Z.testbit (byte_to_Z b2) (i - 16) || Z.testbit (byte_to_Z b3) (i - 24).
Proof.
  intros Hi. unfold LittleEndianList.le_combine.
  rewrite !Z.shiftl_lor, !Z.shiftl_shiftl, Z.shiftl_0_l, Z.lor_0_r by lia.
  rewrite !Z.lor_spec, !Z.shiftl_spec by lia. by rewrite !orb_assoc.
Qed.

Lemma swap_bits x i :
  0 <= i < 32 -> is_u32 x ->
  Z.testbit (Z.lor (Z.land (rol_macro x 24) 0xFF00FF00) (Z.land (rol_macro x 8) 0x00FF00FF)) i =
    Z.testbit x (24 - 8 * (i / 8) + i mod 8).
Proof.
  intros Hi [_ Hx]%is_u32_bits. unfold rol_macro. rewrite !Z.lor_spec, !Z.land_spec, !Z.lor_spec, !Z.shiftr_spec by lia.
  unfold u32. rewrite !Z.mod_pow2_bits_low, !Z.shiftl_spec by lia. change (32 - 24) with 8. change (32 - 8) with 24.
  assert (Hc : i = 0 \/ i = 1 \/ i = 2 \/ i = 3 \/ i = 4 \/ i = 5 \/ i = 6 \/ i = 7 \/ i = 8 \/ i = 9 \/ i = 10 \/
    i = 11 \/ i = 12 \/ i = 13 \/ i = 14 \/ i = 15 \/ i = 16 \/ i = 17 \/ i = 18 \/ i = 19 \/ i = 20 \/ i = 21 \/
    i = 22 \/ i = 23 \/ i = 24 \/ i = 25 \/ i = 26 \/ i = 27 \/ i = 28 \/ i = 29 \/ i = 30 \/ i = 31) by lia.
  repeat destruct Hc as [->|Hc]; [..|subst i];
    match goal with |- context [Z.testbit 0xFF00FF00 ?k] =>
      let r := eval cbv in (Z.testbit 0xFF00FF00 k) in change (Z.testbit 0xFF00FF00 k) with r;
      let r := eval cbv in (Z.testbit 0x00FF00FF k) in change (Z.testbit 0x00FF00FF k) with r end;
    rewrite ?andb_true_r, ?andb_false_r, ?orb_false_r, ?orb_false_l;
    first [reflexivity | rewrite (Hx (_ + _)) by lia; apply orb_false_r].
Qed.

Lemma u32_combine4 b0 b1 b2 b3 : is_u32 (le_combine [b0; b1; b2; b3]).
Proof. apply (LittleEndianList.le_combine_bound [b0; b1; b2; b3]). Qed.

(** Swapping the bytes of a little-endian word gives the big-endian one. *)
Lemma swap_word b0 b1 b2 b3 :
  let x := le_combine [b0; b1; b2; b3] in
  Z.lor (Z.land (rol_macro x 24) 0xFF00FF00) (Z.land (rol_macro x 8) 0x00FF00FF) = le_combine [b3; b2; b1; b0].
Proof.
  intros x. pose proof (u32_combine4 b0 b1 b2 b3) as Hx. pose proof (u32_combine4 b3 b2 b1 b0) as Hy.
  apply Z.bits_inj'. intros i Hi. destruct (Z.lt_ge_cases i 32) as [Hlt|Hge].
  - rewrite swap_bits by (done || lia). pose proof (Z.mod_pos_bound i 8 ltac:(lia)).
    pose proof (Z.div_mod i 8 ltac:(lia)). unfold x.
    rewrite !combine4_bits by lia.
    assert (i / 8 = 0 \/ i / 8 = 1 \/ i / 8 = 2 \/ i / 8 = 3) as [Hq|[Hq|[Hq|Hq]]] by lia; rewrite Hq;
      repeat match goal with |- context [Z.testbit (byte_to_Z ?b) ?k] =>
        rewrite (testbit_byte b k) by lia end;
      rewrite ?orb_false_r, ?orb_false_l; f_equal; lia.
  - assert (is_u32 0xFF00FF00 /\ is_u32 0x00FF00FF) as [H1 H2] by (unfold is_u32; lia).
    apply is_u32_bits in Hy as [_ Hy], H1 as [_ H1], H2 as [_ H2].
    rewrite Z.lor_spec, !Z.land_spec, Hy, H1, H2 by done. by rewrite !andb_false_r.
Qed.

Lemma le_words_nth n : forall b i,
  (4 * n <= length b)%nat -> (i < n)%nat ->
  exists b0 b1 b2 b3, nth i (le_words n b) 0 = le_combine [b0; b1; b2; b3] /\
    nth i (FIPS.words n b) 0 = le_combine [b3; b2; b1; b0].
Proof.
  induction n as [|n IH]; intros b i Hl Hi; [lia|].
  destruct b as [|b0 [|b1 [|b2 [|b3 r]]]]; simpl in Hl; try lia. cbn [le_words FIPS.words take drop].
  rewrite take_0, drop_0. destruct i as [|i]; [by exists b0, b1, b2, b3|]. apply (IH r i); lia.
Qed.

Lemma length_le_words n : forall b, length (le_words n b) = n.
Proof. induction n; intros b; simpl; auto. Qed.

(** ** The rounds *)

(** The block after [t] words: the last sixteen words of the schedule, and
    behind them the words not yet swapped. *)
Record block_at (b : list byte) (t : nat) (l : list Z) : Prop := {
  ba_len : length l = 16%nat;
  ba_old : forall i, (i < t <= i + 16)%nat -> nth (i mod 16) l 0 = W b i;
  ba_raw : forall i, (t <= i < 16)%nat -> nth i l 0 = nth i (le_words 16 b) 0
}.

Lemma block_at_start b : block_at b 0 (le_words 16 b).
Proof. split; [apply length_le_words|lia|done]. Qed.

Lemma nth_insert_eq (l : list Z) i x : (i < length l)%nat -> nth i (<[i := x]> l) 0 = x.
Proof. intros. by rewrite nth_lookup, list_lookup_insert_eq by done. Qed.

Lemma nth_insert_ne (l : list Z) i j x : i <> j -> nth i (<[j := x]> l) 0 = nth i l 0.
Proof. intros. rewrite !nth_lookup. by rewrite list_lookup_insert_ne. Qed.

(** Storing word [t] of the schedule. *)
Lemma block_at_store b t l :
  block_at b t l -> block_at b (S t) (<[(t mod 16)%nat := W b t]> l).
Proof.
  intros H. pose proof (Nat.mod_upper_bound t 16 ltac:(lia)) as Ht. split.
  - rewrite length_insert. apply H.
  - intros i Hi. destruct (decide (i = t)) as [->|Hne].
    + apply nth_insert_eq. rewrite (ba_len _ _ _ H). lia.
    + rewrite nth_insert_ne; [apply H; lia|]. intros He. apply Hne.
      pose proof (Nat.div_mod i 16). pose proof (Nat.div_mod t 16). nia.
  - intros i Hi. rewrite nth_insert_ne; [apply H; lia|]. rewrite Nat.mod_small by lia. lia.
Qed.

Lemma land_15 n : 0 <= n -> Z.to_nat (Z.land n 15) = (Z.to_nat n mod 16)%nat.
Proof.
  intros. change 15 with (Z.ones 4). rewrite Z.land_ones by lia. change (2 ^ 4) with (Z.of_nat 16).
  rewrite <- (Z2Nat.id n) at 1 by done. by rewrite <- Nat2Z.inj_mod, Nat2Z.id.
Qed.

(** An index of [blk] is that of an earlier word. *)
Lemma old_word b t l k d :
  block_at b t l -> (16 <= t)%nat -> (1 <= k <= 16)%nat -> d = 16 - Z.of_nat k ->
  l_at l (Z.land (Z.of_nat t + d) 15) = W b (t - k).
Proof.
  intros H Ht Hk ->. unfold l_at. rewrite land_15 by lia. rewrite <- (ba_old _ _ _ H (t - k)) by lia. f_equal.
  replace (Z.to_nat (Z.of_nat t + (16 - Z.of_nat k))) with ((t - k) + 1 * 16)%nat by lia. apply Nat.Div0.mod_add.
Qed.

(** The macro of round [t] and the variable that is in the place of [a]. *)
Definition macro_of (t : nat) : macro :=
  if (t <? 16)%nat then R0 else if (t <? 20)%nat then R1 else if (t <? 40)%nat then R2
  else if (t <? 60)%nat then R3 else R4.
Definition prev (v : var) : var := match v with Va => Ve | Vb => Va | Vc => Vb | Vd => Vc | Ve => Vd end.
Definition var_of (t : nat) : var := Nat.iter t prev Va.

Lemma rounds_eq : rounds = (fun t => (macro_of t, Z.of_nat t, var_of t)) <$> seq 0 80.
Proof. vm_compute. reflexivity. Qed.

(** The word a round adds is the word of the schedule. *)
Lemma word_ok b t l :
  length b = 64%nat -> (t < 80)%nat -> block_at b t l ->
  word (macro_of t) l (Z.of_nat t) = (W b t, <[(t mod 16)%nat := W b t]> l).
Proof.
  intros Hb Ht H. destruct (W_spec b Hb) as [Hlo Hhi]. unfold macro_of. destruct (Nat.ltb_spec t 16) as [Hlt|Hge].
  - cbn [word]. unfold blk0, l_at. rewrite Nat2Z.id, (ba_raw _ _ _ H) by lia.
    destruct (le_words_nth 16 b t) as (b0 & b1 & b2 & b3 & Hle & Hbe); [lia|done|].
    rewrite Hle, swap_word, Nat.mod_small, Hlo, Hbe by done. done.
  - assert (Hw : blk l (Z.of_nat t) = (W b t, <[(t mod 16)%nat := W b t]> l)).
    { unfold blk. rewrite (old_word b t l 3), (old_word b t l 8), (old_word b t l 14) by (done || lia).
      pose proof (old_word b t l 16 0 H Hge ltac:(lia) eq_refl) as H16. rewrite Z.add_0_r in H16.
      rewrite H16, land_15, Nat2Z.id, rol_macro_rol, <- Hhi by lia. done. }
    destruct (t <? 20)%nat, (t <? 40)%nat, (t <? 60)%nat; exact Hw.
Qed.

Lemma mix_ok t w x y : mix (macro_of t) w x y = FIPS.f1 t w x y /\ constant (macro_of t) = FIPS.K1 t.
Proof.
  unfold macro_of, FIPS.f1, FIPS.K1.
  destruct (Nat.ltb_spec t 16), (Nat.ltb_spec t 20), (Nat.ltb_spec t 40), (Nat.ltb_spec t 60);
    try lia; cbn [mix constant]; (split; [|done]); try done.
  1,2: rewrite <- Ch_sha1; apply Z.lxor_comm.
  rewrite <- Maj_sha1, Z.lor_comm. f_equal. apply Z.land_comm.
Qed.

(** The variables in the order of their roles. *)
Definition view (v : var) (s : work) : Z * Z * Z * Z * Z :=
  match v with
  | Va => (wa s, wb s, wc s, wd s, we s)
  | Ve => (we s, wa s, wb s, wc s, wd s)
  | Vd => (wd s, we s, wa s, wb s, wc s)
  | Vc => (wc s, wd s, we s, wa s, wb s)
  | Vb => (wb s, wc s, wd s, we s, wa s)
  end.

Lemma u32_sum a b c d e : u32 (a + u32 (b + c + d + e)) = FIPS.add (FIPS.add (FIPS.add (FIPS.add e b) a) d) c.
Proof. sum32. Qed.

Lemma add_u32 a b : is_u32 (FIPS.add a b).
Proof. apply u32_range. Qed.
#[local] Hint Resolve add_u32 : u32.

(** One call of a macro is one step of the standard. *)
Lemma call_ok b t s l :
  length b = 64%nat -> (t < 80)%nat -> block_at b t l -> regs5_ok (view (var_of t) s) ->
  exists s' l', call (macro_of t) (Z.of_nat t) (var_of t) (s, l) = (s', l') /\
    view (var_of (S t)) s' = FIPS.step1 (FIPS.W1 b) (view (var_of t) s) t /\
    regs5_ok (view (var_of (S t)) s') /\ block_at b (S t) l'.
Proof.
  intros Hb Ht Hl Hr. pose proof (block_at_store b t l Hl) as Hl'. pose proof (word_ok b t l Hb Ht Hl) as Hw.
  change (var_of (S t)) with (prev (var_of t)). destruct s as [a b' c d e].
  destruct (var_of t); cbn [view prev call wa wb wc wd we regs5_ok] in *;
    destruct Hr as (? & ? & ? & ? & ?); unfold R; rewrite Hw; cbn [get set wa wb wc wd we];
    (eexists _, _; split; [reflexivity|]);
    cbn [view wa wb wc wd we FIPS.step1 regs5_ok];
    destruct (mix_ok t 0 0 0) as [_ ->]; rewrite (proj1 (mix_ok t _ _ _)), u32_sum, !rol_macro_rol;
    rewrite <- !rol_ROTL by (done || lia);
    (split; [done|]); (split; [|exact Hl']); auto 10 with u32 lia.
Qed.

Lemma rounds_ok b n : forall t s l,
  length b = 64%nat -> (t + n <= 80)%nat -> block_at b t l -> regs5_ok (view (var_of t) s) ->
  exists s' l',
    foldl (fun st '(m, i, v) => call m i v st) (s, l)
      ((fun t => (macro_of t, Z.of_nat t, var_of t)) <$> seq t n) = (s', l') /\
    view (var_of (t + n)) s' = foldl (FIPS.step1 (FIPS.W1 b)) (view (var_of t) s) (seq t n).
Proof.
  induction n as [|n IH]; intros t s l Hb Ht Hl Hr.
  { rewrite Nat.add_0_r. by exists s, l. }
  cbn [seq fmap list_fmap foldl].
  destruct (call_ok b t s l Hb ltac:(lia) Hl Hr) as (s1 & l1 & -> & Hv & Hr1 & Hl1).
  destruct (IH (S t) s1 l1 Hb ltac:(lia) Hl1 Hr1) as (s' & l' & Hf & Hv'). exists s', l'. split; [exact Hf|].
  replace (t + S n)%nat with (S t + n)%nat by lia. by rewrite Hv', Hv.
Qed.

(** [SHA1Transform] is the compression function of the standard. *)
Lemma SHA1Transform_FIPS h b :
  length h = 5%nat -> Forall is_u32 h -> length b = 64%nat ->
  SHA1Transform h b = FIPS.compress1 h b /\ length (FIPS.compress1 h b) = 5%nat /\ Forall is_u32 (FIPS.compress1 h b).
Proof.
  intros Hl Hu Hb. split; [|destruct (SHA1_Transform_FIPS h [] b Hl Hu Hb) as (_ & ? & ?); done].
  destruct h as [|h0 [|h1 [|h2 [|h3 [|h4 [|]]]]]]; try done.
  rewrite !Forall_cons in Hu. destruct Hu as (H0 & H1 & H2 & H3 & H4 & _).
  unfold SHA1Transform, FIPS.compress1. rewrite rounds_eq.
  destruct (rounds_ok b 80 0 (mk_work h0 h1 h2 h3 h4) (le_words 16 b)) as (s' & l' & -> & Hv);
    [done|lia|apply block_at_start|by split_and!|].
  change (var_of (0 + 80)) with Va in Hv. change (var_of 0) with Va in Hv.
  cbn [view wa wb wc wd we] in Hv. rewrite <- Hv. unfold FIPS.add, u32.
  by rewrite (Z.add_comm h0), (Z.add_comm h1), (Z.add_comm h2), (Z.add_comm h3), (Z.add_comm h4).
Qed.

(** ** Messages in pieces *)

Lemma full_blocks_short m : (length m < 64)%nat -> full_blocks m = [] /\ tail_of m = m.
Proof. intros. unfold full_blocks, tail_of. rewrite Nat.div_small by done. by rewrite Nat.mul_0_r, drop_0. Qed.

Lemma full_blocks_cons m :
  (64 <= length m)%nat -> full_blocks m = take 64 m :: full_blocks (drop 64 m) /\ tail_of m = tail_of (drop 64 m).
Proof.
  intros Hm. unfold full_blocks, tail_of. rewrite length_drop.
  assert (length m / 64 = S ((length m - 64) / 64))%nat as ->.
  { replace (length m) with (length m - 64 + 1 * 64)%nat at 1 by lia. rewrite Nat.div_add by lia. lia. }
  split; [done|]. rewrite drop_drop. f_equal. lia.
Qed.

Lemma full_blocks_app m d :
  full_blocks (m ++ d) = full_blocks m ++ full_blocks (tail_of m ++ d) /\
  tail_of (m ++ d) = tail_of (tail_of m ++ d).
Proof.
  unfold full_blocks, tail_of. pose proof (div64 (length m)). set (q := (length m / 64)%nat) in *.
  assert (Hd : (length (m ++ d) / 64 = q + length (drop (64 * q) m ++ d) / 64)%nat).
  { rewrite !length_app, length_drop.
    replace (length m + length d)%nat with (length m - 64 * q + length d + q * 64)%nat by lia.
    rewrite Nat.div_add by lia. lia. }
  rewrite Hd, blocks_n_app, blocks_n_app_l by (rewrite ?length_app; lia). rewrite (drop_app_le m d) by lia.
  split; [done|]. rewrite Nat.mul_add_distr_l, <- drop_drop. by rewrite (drop_app_le m d) by lia.
Qed.

Lemma memcpy_at_ok dst j src :
  (j + length src <= length dst)%nat ->
  exists r, memcpy_at dst j src = Done r /\ length r = length dst /\ take (j + length src) r = take j dst ++ src.
Proof.
  intros H. unfold memcpy_at. destruct (Nat.ltb_spec (length dst) (j + length src)); [lia|].
  eexists. split; [reflexivity|]. split.
  - rewrite !length_app, length_take, length_drop. lia.
  - rewrite app_assoc, take_app_le, firstn_all2; rewrite ?length_app, ?length_take; try lia. done.
Qed.

(** A state the compression function works on. *)
Definition hash_state (h : list Z) : Prop := length h = 5%nat /\ Forall is_u32 h.

Lemma blocks_state m h : hash_state h -> hash_state (foldl FIPS.compress1 h (full_blocks m)).
Proof.
  unfold full_blocks. pose proof (blocks_length (length m / 64) m (div64 _)) as Hb. revert h.
  induction Hb as [|b bl Hb Hbl IH]; intros h [Hl Hu]; simpl; [done|].
  destruct (SHA1Transform_FIPS h b Hl Hu Hb) as (_ & ? & ?). by apply IH.
Qed.

Lemma whole_blocks_ok fuel : forall h data i,
  hash_state h -> 0 <= i <= blen data -> blen data < 2 ^ 31 -> blen data - i < 64 * Z.of_nat fuel + 64 ->
  exists i', whole_blocks fuel h data i (blen data) =
      Done (foldl FIPS.compress1 h (full_blocks (drop (Z.to_nat i) data)), i') /\
    drop (Z.to_nat i') data = tail_of (drop (Z.to_nat i) data).
Proof.
  induction fuel as [|fuel IH]; intros h data i [Hl Hu] Hi Hd Hf; cbn [whole_blocks];
    unfold u32 at 1; rewrite (Z.mod_small (i + 63)) by lia;
    destruct (Z.ltb_spec (i + 63) (blen data)) as [Hlt|Hge]; try lia.
  1,3: destruct (full_blocks_short (drop (Z.to_nat i) data)) as [-> ->];
    [rewrite length_drop; unfold blen in *; lia|]; by exists i.
  zdec. assert (Hs : length (slice i 64 data) = 64%nat).
  { pose proof (blen_slice i 64 data ltac:(lia) ltac:(lia) ltac:(lia)). unfold blen in *. lia. }
  destruct (SHA1Transform_FIPS h _ Hl Hu Hs) as (-> & Hl' & Hu').
  rewrite (u32_small (i + 64)) by (unfold is_u32; lia).
  destruct (IH (FIPS.compress1 h (slice i 64 data)) data (i + 64)) as (i' & -> & Ht); [done|lia..|].
  exists i'. destruct (full_blocks_cons (drop (Z.to_nat i) data)) as [-> ->].
  { rewrite length_drop. unfold blen in *. lia. }
  rewrite drop_drop. replace (Z.to_nat i + 64)%nat with (Z.to_nat (i + 64)) by lia. done.
Qed.

(** The context after a message. *)
Record sha_for (m : list byte) (c : SHA1_CTX) : Prop := {
  sf_count : count1 c * 2 ^ 32 + count0 c = (8 * blen m) mod 2 ^ 64;
  sf_c0 : is_u32 (count0 c);
  sf_c1 : is_u32 (count1 c);
  sf_buffer : length (buffer c) = 64%nat;
  sf_tail : take (length m mod 64) (buffer c) = tail_of m;
  sf_state : sha_state c = foldl FIPS.compress1 SHA_iv (full_blocks m)
}.

Lemma count0_mod m c : sha_for m c -> count0 c = (8 * blen m) mod 2 ^ 32.
Proof.
  intros H. pose proof (sf_c0 _ _ H) as H0. unfold is_u32 in H0.
  rewrite <- (Z.mod_small (count0 c) (2 ^ 32)) by lia. pose proof (sf_count _ _ H) as Hc.
  replace (8 * blen m) with (2 ^ 32 * (2 ^ 32 * (8 * blen m / 2 ^ 64) + count1 c) + count0 c)
    by (pose proof (Z.div_mod (8 * blen m) (2 ^ 64) ltac:(lia)); lia).
  rewrite Z.add_comm, Z.mul_comm, Z.mod_add by lia. done.
Qed.

Lemma sha_index m c : sha_for m c -> Z.land (Z.shiftr (count0 c) 3) 63 = Z.of_nat (length m mod 64).
Proof.
  intros H. rewrite (count0_mod m c H), land_63, Z.shiftr_div_pow2 by lia.
  pose proof (Z.mod_pos_bound (blen m) (2 ^ 29) ltac:(lia)).
  change (2 ^ 32) with (8 * 2 ^ 29). rewrite Zmult_mod_distr_l. change (2 ^ 3) with 8.
  rewrite Z.mul_comm, Z.div_mul by lia. change (2 ^ 29) with (64 * 2 ^ 23).
  rewrite Z.rem_mul_r, (Z.mul_comm 64 (_ mod _)), Z.mod_add, Z.mod_mod by lia.
  unfold blen. change 64 with (Z.of_nat 64). by rewrite <- Nat2Z.inj_mod.
Qed.

(** The two words of the count carry, for pieces below 512 MiB. *)
Lemma count_carry c0 c1 len N :
  is_u32 c0 -> is_u32 c1 -> 0 <= len < 2 ^ 29 -> c1 * 2 ^ 32 + c0 = N mod 2 ^ 64 ->
  let d0 := u32 (c0 + u32 (Z.shiftl len 3)) in
  let d1 := if d0 <? c0 then u32 (c1 + Z.shiftr len 29 + 1) else c1 in
  d1 * 2 ^ 32 + d0 = (N + 8 * len) mod 2 ^ 64 /\ is_u32 d0 /\ is_u32 d1.
Proof.
  intros H0 H1 Hl HN d0 d1. unfold is_u32 in *.
  assert (Hd1 : is_u32 d1) by (unfold d1; destruct (d0 <? c0); [apply u32_range|exact H1]).
  split; [|split; [apply u32_range|exact Hd1]].
  rewrite <- (Zplus_mod_idemp_l N), <- HN. clear Hd1. subst d1 d0. unfold u32.
  rewrite Z.shiftl_mul_pow2, (Z.shiftr_div_pow2 len), (Z.div_small len) by lia.
  rewrite (Z.mod_small (len * 2 ^ 3)) by lia. change (2 ^ 3) with 8.
  destruct (Z.lt_ge_cases (c0 + len * 8) (2 ^ 32)) as [Hlt|Hge].
  - rewrite (Z.mod_small (c0 + len * 8)) by lia. zdec. rewrite Z.mod_small by lia. lia.
  - assert ((c0 + len * 8) mod 2 ^ 32 = c0 + len * 8 - 2 ^ 32) as ->
      by (symmetry; apply (Z.mod_unique _ _ 1); lia).
    zdec. rewrite Z.add_0_r. destruct (Z.lt_ge_cases (c1 + 1) (2 ^ 32)).
    + rewrite !Z.mod_small by lia. lia.
    + replace (c1 + 1) with (2 ^ 32) by lia. rewrite Z.mod_same by lia.
      apply (Z.mod_unique _ _ 1); lia.
Qed.

(** The copies and the whole blocks of an update. *)
Definition update_body (h : list Z) (bf : list byte) (j : Z) (data : list byte) : outcome (list Z * list byte) :=
  if u32 (j + blen data) >? 63 then
    let! bf := memcpy_at bf (Z.to_nat j) (take (Z.to_nat (64 - j)) data) in
    let! (st, i) := whole_blocks (length data) (SHA1Transform h bf) data (64 - j) (blen data) in
    let! bf := memcpy_at bf 0 (drop (Z.to_nat i) data) in
    Done (st, bf)
  else
    let! bf := memcpy_at bf (Z.to_nat j) data in
    Done (h, bf).

Lemma update_body_ok h bf j data :
  hash_state h -> length bf = 64%nat -> (j < 64)%nat -> blen data < 2 ^ 31 ->
  let t := take j bf ++ data in
  exists bf', update_body h bf (Z.of_nat j) data = Done (foldl FIPS.compress1 h (full_blocks t), bf') /\
    length bf' = 64%nat /\ take (length (tail_of t)) bf' = tail_of t.
Proof.
  intros Hh Hb Hj Hd t. unfold update_body. pose proof (blen_nonneg data).
  rewrite (u32_small (Z.of_nat j + blen data)) by (unfold is_u32; lia). rewrite Nat2Z.id, Z.gtb_ltb.
  assert (Htj : length (take j bf) = j) by (rewrite length_take; lia).
  destruct (Z.ltb_spec 63 (Z.of_nat j + blen data)) as [Hge|Hlt].
  - assert (Hk : length (take (64 - j) data) = (64 - j)%nat) by (rewrite length_take; unfold blen in *; lia).
    replace (Z.to_nat (64 - Z.of_nat j)) with (64 - j)%nat by lia.
    destruct (memcpy_at_ok bf j (take (64 - j) data)) as (b1 & -> & Hb1 & Ht1); [rewrite Hk; lia|].
    cbn [obind]. rewrite Hk, firstn_all2 in Ht1 by lia.
    destruct (SHA1Transform_FIPS h b1 (proj1 Hh) (proj2 Hh) ltac:(lia)) as (-> & Hl1 & Hu1).
    destruct (whole_blocks_ok (length data) (FIPS.compress1 h b1) data (64 - Z.of_nat j)) as (i' & -> & Hi');
      [done|lia|lia|unfold blen in *; lia|].
    cbn [obind]. replace (Z.to_nat (64 - Z.of_nat j)) with (64 - j)%nat in * by lia.
    assert (Ht : take 64 t = b1 /\ drop 64 t = drop (64 - j) data).
    { unfold t. rewrite take_app_ge, drop_app_ge, Htj by lia. by rewrite Ht1. }
    destruct (full_blocks_cons t) as [-> ->]; [unfold t; rewrite length_app, Htj; unfold blen in *; lia|].
    destruct Ht as [-> ->]. rewrite Hi'.
    destruct (memcpy_at_ok b1 0 (tail_of (drop (64 - j) data))) as (b2 & -> & Hb2 & Ht2).
    { rewrite length_tail. pose proof (Nat.mod_upper_bound (length (drop (64 - j) data)) 64). lia. }
    exists b2. split; [done|]. split; [lia|exact Ht2].
  - destruct (full_blocks_short t) as [-> ->]; [unfold t; rewrite length_app, Htj; unfold blen in *; lia|].
    destruct (memcpy_at_ok bf j data) as (b1 & -> & Hb1 & Ht1); [unfold blen in *; lia|].
    exists b1. split; [done|]. split; [lia|]. unfold t at 1. by rewrite length_app, Htj.
Qed.

Lemma sha_for_state m c : sha_for m c -> hash_state (sha_state c).
Proof. intros H. rewrite (sf_state _ _ H). apply blocks_state. split; [done|apply iv_u32]. Qed.

(** An update is its copies and its count. *)
Lemma SHA1Update_split c data :
  SHA1Update c data =
    let! (st, bf) := update_body (sha_state c) (buffer c) (Z.land (Z.shiftr (count0 c) 3) 63) data in
    let c0 := u32 (count0 c + u32 (Z.shiftl (blen data) 3)) in
    Done (mk_SHA1_CTX st c0 (if c0 <? count0 c then u32 (count1 c + Z.shiftr (blen data) 29 + 1) else count1 c) bf).
Proof.
  unfold SHA1Update, update_body. destruct (_ >? 63).
  - destruct (memcpy_at _ _ _); [|done]. cbn [obind]. destruct (whole_blocks _ _ _ _ _) as [[? ?]|]; [|done].
    cbn [obind]. by destruct (memcpy_at _ _ _).
  - by destruct (memcpy_at _ _ _).
Qed.

(** [SHA1Update] appends to the message. *)
Lemma SHA1Update_ok m c data :
  sha_for m c -> blen data < 2 ^ 29 -> exists c', SHA1Update c data = Done c' /\ sha_for (m ++ data) c'.
Proof.
  intros H Hd. pose proof (blen_nonneg data).
  destruct (count_carry (count0 c) (count1 c) (blen data) (8 * blen m) (sf_c0 _ _ H) (sf_c1 _ _ H)
    ltac:(lia) (sf_count _ _ H)) as (Hc & Hc0 & Hc1).
  rewrite SHA1Update_split, (sha_index m c H).
  pose proof (sha_for_state m c H) as Hst.
  destruct (update_body_ok (sha_state c) (buffer c) (length m mod 64) data Hst (sf_buffer _ _ H)) as (bf' & -> & Hl & Ht);
    [apply Nat.mod_upper_bound; lia|lia|].
  cbn [obind]. eexists. split; [reflexivity|]. rewrite (sf_tail _ _ H) in Ht |- *.
  destruct (full_blocks_app m data) as [Hfb Htl]. rewrite <- Htl in Ht.
  split; cbn [count0 count1 buffer sha_state]; try done.
  - rewrite Hc, blen_app. f_equal. lia.
  - by rewrite <- length_tail.
  - by rewrite Hfb, foldl_app, (sf_state _ _ H).
Qed.

(** ** The digest *)

Lemma word_byte_u8 w i : word_byte w i = byte_of_Z (u8 (Z.shiftr w ((3 - Z.of_nat (i mod 4)) * 8))).
Proof.
  unfold word_byte, u8. change 255 with (Z.ones 8). rewrite Z.land_ones by lia.
  change 3 with (Z.ones 2) at 2. rewrite Z.land_ones by lia. change (2 ^ 2) with (Z.of_nat 4).
  by rewrite <- Nat2Z.inj_mod.
Qed.

Lemma digest_bytes h :
  length h = 5%nat -> ((fun i => word_byte (nth (i / 4) h 0) i) <$> seq 0 20) = mjoin (be_bytes 4 <$> take 5 h).
Proof.
  intros Hl. destruct h as [|h0 [|h1 [|h2 [|h3 [|h4 [|]]]]]]; try done.
  rewrite (list_fmap_ext (be_bytes 4) word_bytes) by (intros; by rewrite word_bytes_be).
  cbn [seq fmap list_fmap]. rewrite !word_byte_u8. unfold word_bytes. cbn. by rewrite !Z.shiftr_0_r.
Qed.

(** The eight bytes of the count are the length in bits. *)
Lemma finalcount_be c n :
  is_u32 (count0 c) -> count1 c * 2 ^ 32 + count0 c = n -> finalcount c = be_bytes 8 n.
Proof.
  intros H0 Hn. rewrite <- length_bytes_be. unfold finalcount. apply list_fmap_ext. intros k i Hi.
  apply lookup_seq in Hi as [-> Hi]. rewrite word_byte_u8. unfold length_byte. f_equal. subst n. unfold u8, is_u32 in *.
  destruct (Nat.leb_spec 4 (0 + k)) as [Hk|Hk].
  - assert (Hs : exists s, (3 - Z.of_nat ((0 + k) mod 4)) * 8 = s /\ (7 - Z.of_nat (0 + k)) * 8 = s /\ 0 <= s <= 24).
    { assert (Hm : ((0 + k) mod 4 = k - 4)%nat) by (symmetry; apply (Nat.mod_unique _ _ 1); lia). rewrite Hm.
      eexists. split; [reflexivity|]. lia. }
    destruct Hs as (s & -> & -> & Hs). rewrite !Z.shiftr_div_pow2 by lia.
    replace (count1 c * 2 ^ 32 + count0 c) with (count0 c + count1 c * 2 ^ (24 - s) * 2 ^ 8 * 2 ^ s).
    2: { rewrite <- !Z.mul_assoc, <- !Z.pow_add_r by lia. replace (24 - s + (8 + s)) with 32 by lia. lia. }
    rewrite Z.div_add by (apply Z.pow_nonzero; lia). by rewrite Z.mod_add.
  - rewrite Nat.mod_small by lia.
    replace ((7 - Z.of_nat (0 + k)) * 8) with (32 + (3 - Z.of_nat (0 + k)) * 8) by lia.
    rewrite <- (Z.shiftr_shiftr _ 32) by lia. do 2 f_equal. rewrite Z.shiftr_div_pow2 by lia.
    rewrite Z.div_add_l, Z.div_small by lia. lia.
Qed.

Lemma land_504 c : Z.land c 504 = 8 * Z.land (Z.shiftr c 3) 63.
Proof.
  rewrite Z.mul_comm. change 8 with (2 ^ 3). rewrite <- Z.shiftl_mul_pow2 by lia. apply Z.bits_inj'. intros i Hi.
  change 504 with (Z.shiftl 63 3). rewrite Z.land_spec, !Z.shiftl_spec by lia.
  rewrite Z.land_spec. destruct (Z.lt_ge_cases i 3).
  - rewrite !(Z.testbit_neg_r _ (i - 3)) by lia. by rewrite !andb_false_r.
  - rewrite Z.shiftr_spec by lia. by replace (i - 3 + 3) with i by lia.
Qed.

Lemma SHA1Pad_ok fuel : forall m c,
  sha_for m c -> (56 - blen m) mod 64 <= Z.of_nat fuel ->
  exists c', SHA1Pad fuel c = Done c' /\ sha_for (m ++ zeros ((56 - blen m) mod 64)) c'.
Proof.
  induction fuel as [|fuel IH]; intros m c H Hf; cbn [SHA1Pad];
    rewrite land_504, (sha_index m c H), Nat2Z.inj_mod;
    fold (blen m); change (Z.of_nat 64) with 64;
    (destruct (Z.eqb_spec (8 * (blen m mod 64)) 448) as [He|Hne];
      [exists c; assert ((56 - blen m) mod 64 = 0) as -> by (Z.to_euclidean_division_equations; lia);
       by rewrite zeros_nil, app_nil_r by lia|]).
  { exfalso. Z.to_euclidean_division_equations. lia. }
  destruct (SHA1Update_ok m c [Init.Byte.x00] H ltac:(done)) as (c1 & -> & H1). cbn [obind].
  assert (Hstep : (56 - blen m) mod 64 = 1 + (56 - blen (m ++ [Init.Byte.x00])) mod 64).
  { rewrite blen_app. change (blen [Init.Byte.x00]) with 1. Z.to_euclidean_division_equations. lia. }
  destruct (IH _ _ H1) as (c' & -> & Hc'); [lia|]. exists c'. split; [done|].
  rewrite Hstep, zeros_add by (try lia; apply Z.mod_pos_bound; lia). by rewrite app_assoc.
Qed.

Lemma SHA1Final_ok m c :
  sha_for m c -> blen m < 2 ^ 61 -> exists c', SHA1Final c = Done (FIPS.sha1 m, c').
Proof.
  intros H Hlt. pose proof (blen_nonneg m).
  assert (Hfc : finalcount c = be_bytes 8 (8 * blen m)).
  { apply finalcount_be; [apply H|]. rewrite (sf_count _ _ H). apply Z.mod_small. lia. }
  unfold SHA1Final. rewrite Hfc.
  destruct (SHA1Update_ok m c [Init.Byte.x80] H ltac:(done)) as (c1 & -> & H1). cbn [obind].
  destruct (SHA1Pad_ok 64 _ _ H1) as (c2 & -> & H2).
  { pose proof (Z.mod_pos_bound (56 - blen (m ++ [Init.Byte.x80])) 64). lia. }
  cbn [obind]. destruct (SHA1Update_ok _ c2 (be_bytes 8 (8 * blen m)) H2) as (c3 & -> & H3).
  { unfold blen at 1. rewrite length_be_bytes. done. }
  cbn [obind]. exists c3. do 2 f_equal.
  assert (Hm : ((m ++ [Init.Byte.x80]) ++ zeros ((56 - blen (m ++ [Init.Byte.x80])) mod 64)) ++
    be_bytes 8 (8 * blen m) = m ++ padding (blen m)).
  { rewrite <- !app_assoc. unfold padding. f_equal. cbn [app]. do 4 f_equal. rewrite blen_app. change (blen [Init.Byte.x80]) with 1. lia. }
  rewrite Hm in H3. rewrite (sf_state _ _ H3), digest_bytes; [done|].
  apply blocks_state. split; [done|apply iv_u32].
Qed.

Lemma SHA1Init_ok c : length (buffer c) = 64%nat -> sha_for [] (SHA1Init c).
Proof. intros Hb. split; try done; unfold is_u32; simpl; lia. Qed.

(** A sequence of updates. *)
Fixpoint SHA1Updates (c : SHA1_CTX) (pieces : list (list byte)) : outcome SHA1_CTX :=
  match pieces with
  | [] => Done c
  | p :: ps => let! c := SHA1Update c p in SHA1Updates c ps
  end.

Lemma SHA1Updates_ok pieces : forall m c,
  sha_for m c -> Forall (fun p => blen p < 2 ^ 29) pieces ->
  exists c', SHA1Updates c pieces = Done c' /\ sha_for (m ++ mjoin pieces) c'.
Proof.
  induction pieces as [|p ps IH]; intros m c H Hp; cbn [SHA1Updates].
  { exists c. by rewrite app_nil_r. }
  apply Forall_cons in Hp as [Hp Hps]. destruct (SHA1Update_ok m c p H Hp) as (c1 & -> & H1).
  destruct (IH _ c1 H1 Hps) as (c' & Hc & Hs). exists c'. split; [done|].
  change (mjoin (p :: ps)) with (p ++ mjoin ps). by rewrite app_assoc.
Qed.

Lemma SHA1_pieces c pieces :
  length (buffer c) = 64%nat -> Forall (fun p => blen p < 2 ^ 29) pieces -> blen (mjoin pieces) < 2 ^ 61 ->
  exists c1 c2, SHA1Updates (SHA1Init c) pieces = Done c1 /\ SHA1Final c1 = Done (FIPS.sha1 (mjoin pieces), c2).
Proof.
  intros Hb Hp Hlt. destruct (SHA1Updates_ok pieces [] _ (SHA1Init_ok c Hb) Hp) as (c1 & Hc1 & H1).
  destruct (SHA1Final_ok _ _ H1 Hlt) as (c2 & Hc2). by exists c1, c2.
Qed.

(**  The image builder's SHA-1 is SHA-1: for any pieces below 512 MiB,
    whatever the context held before, the updates and the final return, and
    the digest is the one FIPS 180 defines for the concatenation. *)
Theorem SHA1_incremental c pieces :
  length (buffer c) = 64%nat -> Forall (fun p => blen p < 2 ^ 29) pieces -> blen (mjoin pieces) < 2 ^ 61 ->
  exists c1 c2, SHA1Updates (SHA1Init c) pieces = Done c1 /\ SHA1Final c1 = Done (FIPS.sha1 (mjoin pieces), c2).
Proof. apply SHA1_pieces. Qed.

(** One update of 512 MiB loses the carry: the high word of the count is
    updated only when the low word wraps below its old value. *)
Theorem SHA1Update_drops_length c data :
  length (buffer c) = 64%nat -> blen data = 2 ^ 29 ->
  exists c', SHA1Update (SHA1Init c) data = Done c' /\ count0 c' = 0 /\ count1 c' = 0.
Proof.
  intros Hb Hd. pose proof (SHA1Init_ok c Hb) as H0. rewrite SHA1Update_split, (sha_index [] _ H0), Hd.
  destruct (update_body_ok (sha_state (SHA1Init c)) (buffer (SHA1Init c)) 0 data (sha_for_state _ _ H0) Hb)
    as (bf' & Hu & _); [lia|lia|].
  change (Z.of_nat (length [] mod 64)) with (Z.of_nat 0). rewrite Hu. cbn [obind]. by eexists.
Qed.

(** ** Test vectors and witnesses *)
Module Sha1Witnesses.
Definition junk : SHA1_CTX := mk_SHA1_CTX [] 7 9 (replicate 64 Init.Byte.xaa).
Definition abc : list byte := [Init.Byte.x61; Init.Byte.x62; Init.Byte.x63].

Example sha1_abc_ext4 :
  (let! c := SHA1Update (SHA1Init junk) abc in
   let! (d, _) := SHA1Final c in Done (le_combine (rev d))) = Done 0xa9993e364706816aba3e25717850c26c9cd0d89d.
Proof. vm_compute. reflexivity. Qed.

Lemma SHA1_incremental_witness :
  exists c1 c2, SHA1Updates (SHA1Init junk) [abc; []; abc] = Done c1 /\
    SHA1Final c1 = Done (FIPS.sha1 (mjoin [abc; []; abc]), c2).
Proof.
  refine (SHA1_incremental junk [abc; []; abc] _ _ _); [reflexivity|repeat constructor|].
  change (blen (mjoin [abc; []; abc])) with 6. lia.
Defined.
End Sha1Witnesses.
