(* ===== verification/Ext4Uuid.v ===== *)
(** * Checksums and identifiers of the image builder (ext4_utils crc16.c, uuid.c)

    The CRC-16 of the group descriptors, with the bit-serial shift register as
    its reference, and the name-based identifier of a file system. *)
From S2P Require Import Prelude Crc32 HashCtx Sha Ext4Sha1.

(** ** crc16.c *)

Definition crc16_tab : list Z := [
   0x0000; 0xC0C1; 0xC181; 0x0140; 0xC301; 0x03C0; 0x0280; 0xC241; 0xC601; 0x06C0; 0x0780; 0xC741;
   0x0500; 0xC5C1; 0xC481; 0x0440; 0xCC01; 0x0CC0; 0x0D80; 0xCD41; 0x0F00; 0xCFC1; 0xCE81; 0x0E40;
   0x0A00; 0xCAC1; 0xCB81; 0x0B40; 0xC901; 0x09C0; 0x0880; 0xC841; 0xD801; 0x18C0; 0x1980; 0xD941;
   0x1B00; 0xDBC1; 0xDA81; 0x1A40; 0x1E00; 0xDEC1; 0xDF81; 0x1F40; 0xDD01; 0x1DC0; 0x1C80; 0xDC41;
   0x1400; 0xD4C1; 0xD581; 0x1540; 0xD701; 0x17C0; 0x1680; 0xD641; 0xD201; 0x12C0; 0x1380; 0xD341;
   0x1100; 0xD1C1; 0xD081; 0x1040; 0xF001; 0x30C0; 0x3180; 0xF141; 0x3300; 0xF3C1; 0xF281; 0x3240;
   0x3600; 0xF6C1; 0xF781; 0x3740; 0xF501; 0x35C0; 0x3480; 0xF441; 0x3C00; 0xFCC1; 0xFD81; 0x3D40;
   0xFF01; 0x3FC0; 0x3E80; 0xFE41; 0xFA01; 0x3AC0; 0x3B80; 0xFB41; 0x3900; 0xF9C1; 0xF881; 0x3840;
   0x2800; 0xE8C1; 0xE981; 0x2940; 0xEB01; 0x2BC0; 0x2A80; 0xEA41; 0xEE01; 0x2EC0; 0x2F80; 0xEF41;
   0x2D00; 0xEDC1; 0xEC81; 0x2C40; 0xE401; 0x24C0; 0x2580; 0xE541; 0x2700; 0xE7C1; 0xE681; 0x2640;
   0x2200; 0xE2C1; 0xE381; 0x2340; 0xE101; 0x21C0; 0x2080; 0xE041; 0xA001; 0x60C0; 0x6180; 0xA141;
   0x6300; 0xA3C1; 0xA281; 0x6240; 0x6600; 0xA6C1; 0xA781; 0x6740; 0xA501; 0x65C0; 0x6480; 0xA441;
   0x6C00; 0xACC1; 0xAD81; 0x6D40; 0xAF01; 0x6FC0; 0x6E80; 0xAE41; 0xAA01; 0x6AC0; 0x6B80; 0xAB41;
   0x6900; 0xA9C1; 0xA881; 0x6840; 0x7800; 0xB8C1; 0xB981; 0x7940; 0xBB01; 0x7BC0; 0x7A80; 0xBA41;
   0xBE01; 0x7EC0; 0x7F80; 0xBF41; 0x7D00; 0xBDC1; 0xBC81; 0x7C40; 0xB401; 0x74C0; 0x7580; 0xB541;
   0x7700; 0xB7C1; 0xB681; 0x7640; 0x7200; 0xB2C1; 0xB381; 0x7340; 0xB101; 0x71C0; 0x7080; 0xB041;
   0x5000; 0x90C1; 0x9181; 0x5140; 0x9301; 0x53C0; 0x5280; 0x9241; 0x9601; 0x56C0; 0x5780; 0x9741;
   0x5500; 0x95C1; 0x9481; 0x5440; 0x9C01; 0x5CC0; 0x5D80; 0x9D41; 0x5F00; 0x9FC1; 0x9E81; 0x5E40;
   0x5A00; 0x9AC1; 0x9B81; 0x5B40; 0x9901; 0x59C0; 0x5880; 0x9841; 0x8801; 0x48C0; 0x4980; 0x8941;
   0x4B00; 0x8BC1; 0x8A81; 0x4A40; 0x4E00; 0x8EC1; 0x8F81; 0x4F40; 0x8D01; 0x4DC0; 0x4C80; 0x8C41;
   0x4400; 0x84C1; 0x8581; 0x4540; 0x8701; 0x47C0; 0x4680; 0x8641; 0x8201; 0x42C0; 0x4380; 0x8341;
   0x4100; 0x81C1; 0x8081; 0x4040].

(** [crc16_tab[(crc ^ *p++) & 0xFF] ^ (crc >> 8)]. *)
Definition crc16_byte (crc : Z) (b : byte) : Z :=
  Z.lxor (default 0 (crc16_tab !! Z.to_nat (Z.land (Z.lxor crc (byte_to_Z b)) 255))) (Z.shiftr crc 8).

(** The size is the length of the buffer in every call. *)
Definition ext4_crc16 (crc_in : Z) (buf : list byte) : Z := foldl crc16_byte crc_in buf.

(** The reflected polynomial x^16 + x^15 + x^2 + 1. *)
Definition crc16_poly : Z := 0xA001.
Definition crc16_ref (crc_in : Z) (buf : list byte) : Z :=
  foldl (fun c b => crc_bits8 crc16_poly (Z.lxor c (byte_to_Z b))) crc_in buf.

Lemma crc16_tab_spec i : 0 <= i < 256 -> crc16_tab !! Z.to_nat i = Some (crc_bits8 crc16_poly i).
Proof.
  intros Hi.
  assert (Hall : forallb (fun n => bool_decide (crc16_tab !! Z.to_nat n = Some (crc_bits8 crc16_poly n)))
                   (seqZ 0 256) = true) by (vm_compute; reflexivity).
  apply (bool_decide_eq_true_1 _). by apply (by_bytes (fun n => bool_decide _) Hall).
Qed.

Lemma ext4_crc16_ref crc buf : ext4_crc16 crc buf = crc16_ref crc buf.
Proof.
  unfold ext4_crc16, crc16_ref. revert crc. induction buf as [|b buf IH]; intros crc; [done|]. cbn [foldl].
  rewrite IH. f_equal. unfold crc16_byte. by rewrite crc_bits8_byte, crc16_tab_spec by apply land_255_range.
Qed.

Lemma ext4_crc16_app crc a b : ext4_crc16 (ext4_crc16 crc a) b = ext4_crc16 crc (a ++ b).
Proof. unfold ext4_crc16. by rewrite foldl_app. Qed.

(** The table entries are 16-bit values, so the running value stays one. *)
Lemma ext4_crc16_range crc buf : is_u16 crc -> is_u16 (ext4_crc16 crc buf).
Proof.
  unfold ext4_crc16. revert crc. induction buf as [|b buf IH]; intros crc Hc; [done|]. cbn [foldl]. apply IH.
  unfold crc16_byte, is_u16 in *.
  assert (Ht : 0 <= default 0 (crc16_tab !! Z.to_nat (Z.land (Z.lxor crc (byte_to_Z b)) 255)) < 2 ^ 16).
  { assert (Hall : Forall (fun v => 0 <= v < 2 ^ 16) crc16_tab) by (apply (bool_decide_unpack _); vm_compute; exact I).
    destruct (crc16_tab !! _) as [v|] eqn:Hv; simpl; [|lia]. by apply (Forall_lookup_1 _ _ _ _ Hall Hv). }
  assert (Hs : 0 <= Z.shiftr crc 8 < 2 ^ 16).
  { rewrite Z.shiftr_div_pow2 by lia. split; [apply Z.div_pos; lia|]. apply Z.div_lt_upper_bound; lia. }
  set (t := default _ _) in *. clearbody t. set (u := Z.shiftr crc 8) in *. clearbody u.
  assert (Hn : 0 <= Z.lxor t u) by (apply Z.lxor_nonneg; lia). split; [done|].
  destruct (Z.eq_dec (Z.lxor t u) 0) as [->|Hne]; [lia|]. apply Z.log2_lt_pow2; [lia|].
  eapply Z.le_lt_trans; [apply Z.log2_lxor; lia|].
  assert (Hl : forall v, 0 <= v < 2 ^ 16 -> Z.log2 v < 16).
  { intros v Hv. destruct (Z.eq_dec v 0) as [->|]; [done|]. apply Z.log2_lt_pow2; lia. }
  apply Z.max_lub_lt; auto.
Qed.

(** ** uuid.c *)

(** [struct uuid], a view of sixteen bytes on a little-endian host. *)
Record uuid := mk_uuid {
  time_low : Z;
  time_mid : Z;
  time_hi_and_version : Z;
  clk_seq_hi_res : Z;
  clk_seq_low : Z;
  node0_1 : Z;
  node2_5 : Z
}.

Definition uuid_view (b : list byte) : uuid :=
  mk_uuid (le_combine (slice 0 4 b)) (le_combine (slice 4 2 b)) (le_combine (slice 6 2 b))
    (le_combine (slice 8 1 b)) (le_combine (slice 9 1 b)) (le_combine (slice 10 2 b)) (le_combine (slice 12 4 b)).

Definition uuid_memory (u : uuid) : list byte :=
  le_split 4 (time_low u) ++ le_split 2 (time_mid u) ++ le_split 2 (time_hi_and_version u) ++
  le_split 1 (clk_seq_hi_res u) ++ le_split 1 (clk_seq_low u) ++ le_split 2 (node0_1 u) ++ le_split 4 (node2_5 u).

(** [ntohl] and [ntohs] of a little-endian host. *)
Definition ntohl (x : Z) : Z := le_combine (rev (le_split 4 x)).
Definition ntohs (x : Z) : Z := le_combine (rev (le_split 2 x)).

(** [sha1_hash]: [ctx] is the uninitialised context on the stack; the strings
    are without their terminators. *)
Definition sha1_hash (ctx : SHA1_CTX) (namespace name : list byte) : outcome (list byte) :=
  let! ctx := SHA1Update (SHA1Init ctx) namespace in
  let! ctx := SHA1Update ctx name in
  let! (sha1, _) := SHA1Final ctx in
  Done sha1.

Definition generate_uuid (ctx : SHA1_CTX) (namespace name : list byte) : outcome (list byte) :=
  let! sha1 := sha1_hash ctx namespace name in
  let u := uuid_view (take 16 sha1) in
  let hi := ntohs (time_hi_and_version u) in
  let hi := Z.lor (Z.land hi 0x0FFF) (Z.shiftl 5 12) in
  let clk := Z.land (clk_seq_hi_res u) (Z.lnot (Z.shiftl 1 6)) in
  let clk := Z.lor clk (Z.shiftl 1 7) in
  Done (uuid_memory (mk_uuid (ntohl (time_low u)) (ntohs (time_mid u)) hi clk
                       (clk_seq_low u) (node0_1 u) (node2_5 u))).

(** ** The identifier *)

(** A field of [n] bytes of a digest, most significant byte first. *)
Definition be_field (off n : Z) (d : list byte) : Z := le_combine (rev (slice off n d)).

Definition uuid_ok (u : uuid) : Prop :=
  is_u32 (time_low u) /\ is_u16 (time_mid u) /\ is_u16 (time_hi_and_version u) /\
  0 <= clk_seq_hi_res u < 2 ^ 8 /\ 0 <= clk_seq_low u < 2 ^ 8 /\ is_u16 (node0_1 u) /\ is_u32 (node2_5 u).

Lemma combine_split n x : 0 <= x < 2 ^ (Z.of_nat n * 8) -> le_combine (le_split n x) = x.
Proof. intros. rewrite LittleEndianList.le_combine_split. by apply Z.mod_small. Qed.

(** The bytes of a field. *)
Lemma split_1 x : exists a, le_split 1 x = [a].
Proof. by eexists. Qed.
Lemma split_2 x : exists a b, le_split 2 x = [a; b].
Proof. by eexists _, _. Qed.
Lemma split_4 x : exists a b c d, le_split 4 x = [a; b; c; d].
Proof. by eexists _, _, _, _. Qed.

(** What is stored in the fields is read from them. *)
Lemma uuid_view_memory u : uuid_ok u -> uuid_view (uuid_memory u) = u.
Proof.
  destruct u as [a b c d e f g]. unfold uuid_ok, is_u32, is_u16. cbn. intros (Ha & Hb & Hc & Hd & He & Hf & Hg).
  rewrite <- (combine_split 4 a), <- (combine_split 2 b), <- (combine_split 2 c), <- (combine_split 1 d),
    <- (combine_split 1 e), <- (combine_split 2 f), <- (combine_split 4 g) at 2 by lia.
  unfold uuid_view, uuid_memory. cbn [time_low time_mid time_hi_and_version clk_seq_hi_res clk_seq_low node0_1 node2_5].
  destruct (split_4 a) as (? & ? & ? & ? & ->), (split_2 b) as (? & ? & ->), (split_2 c) as (? & ? & ->),
    (split_1 d) as (? & ->), (split_1 e) as (? & ->), (split_2 f) as (? & ? & ->), (split_4 g) as (? & ? & ? & ? & ->).
  done.
Qed.

(** The version bits over the low bits of a field. *)
Lemma version_bits v : Z.lor (Z.land v 0x0FFF) (Z.shiftl 5 12) = 2 ^ 12 * 5 + v mod 2 ^ 12.
Proof.
  change 0x0FFF with (Z.ones 12). rewrite Z.land_ones, Z.lor_comm by lia. change (Z.shiftl 5 12) with (2 ^ 12 * 5).
  apply lor_low; [lia|]. apply Z.mod_pos_bound. lia.
Qed.

Lemma variant_bits v :
  0 <= v < 2 ^ 8 -> Z.lor (Z.land v (Z.lnot (Z.shiftl 1 6))) (Z.shiftl 1 7) = 2 ^ 6 * 2 + v mod 2 ^ 6.
Proof.
  intros Hv. apply Z.eqb_eq. revert v Hv. apply (by_bytes (fun v => _ =? _)). vm_compute. reflexivity.
Qed.

Lemma le_combine_u8 n (b : list byte) : length b = n -> 0 <= le_combine b < 2 ^ (Z.of_nat n * 8).
Proof. intros <-. rewrite Z.mul_comm. apply LittleEndianList.le_combine_bound. Qed.

Lemma sha1_hash_ok ctx ns name :
  length (buffer ctx) = 64%nat -> blen ns < 2 ^ 29 -> blen name < 2 ^ 29 ->
  sha1_hash ctx ns name = Done (FIPS.sha1 (ns ++ name)).
Proof.
  intros Hb Hn Hm. unfold sha1_hash.
  destruct (SHA1Update_ok [] _ ns (SHA1Init_ok ctx Hb) Hn) as (c1 & -> & H1). cbn [obind].
  destruct (SHA1Update_ok _ c1 name H1 Hm) as (c2 & -> & H2). cbn [obind app] in *.
  destruct (SHA1Final_ok _ c2 H2) as (c3 & ->); [rewrite blen_app; lia|done].
Qed.

(** The fields of the identifier, from the digest. *)
Definition uuid_of_digest (d : list byte) : uuid :=
  mk_uuid (be_field 0 4 d) (be_field 4 2 d) (2 ^ 12 * 5 + be_field 6 2 d mod 2 ^ 12)
    (2 ^ 6 * 2 + be_field 8 1 d mod 2 ^ 6) (be_field 9 1 d) (le_combine (slice 10 2 d)) (le_combine (slice 12 4 d)).

Lemma split_combine b n : length b = n -> le_split n (le_combine b) = b.
Proof. intros <-. apply LittleEndianList.split_le_combine. Qed.

Lemma generate_uuid_ok ctx ns name :
  length (buffer ctx) = 64%nat -> blen ns < 2 ^ 29 -> blen name < 2 ^ 29 ->
  exists r, generate_uuid ctx ns name = Done r /\ length r = 16%nat /\
    uuid_view r = uuid_of_digest (FIPS.sha1 (ns ++ name)).
Proof.
  intros Hb Hn Hm. unfold generate_uuid. rewrite sha1_hash_ok by done. cbn [obind].
  pose proof (length_sha1 (ns ++ name)) as Hd. set (d := FIPS.sha1 (ns ++ name)) in *. clearbody d.
  eexists. split; [reflexivity|].
  split; [unfold uuid_memory; by rewrite !length_app, !LittleEndianList.length_le_split|].
  do 20 (destruct d as [|? d]; [done|]). destruct d; [|done]. clear Hd.
  unfold uuid_view at 1 2 3 4 5 6 7. cbn [time_low time_mid time_hi_and_version clk_seq_hi_res clk_seq_low node0_1 node2_5].
  unfold ntohs, ntohl, uuid_of_digest, be_field, slice. cbn [Z.to_nat take drop Pos.to_nat Pos.iter_op Nat.add].
  cbn [rev app]. rewrite !split_combine by done. cbn [rev app].
  rewrite version_bits, variant_bits by (apply (le_combine_u8 1); done).
  apply uuid_view_memory. unfold uuid_ok, is_u32, is_u16.
  cbn [time_low time_mid time_hi_and_version clk_seq_hi_res clk_seq_low node0_1 node2_5].
  split_and!; try (apply (le_combine_u8 4); done) || (apply (le_combine_u8 2); done) || (apply (le_combine_u8 1); done).
  all: match goal with |- context [?x mod ?m] => pose proof (Z.mod_pos_bound x m ltac:(lia)); lia end.
Qed.

(**  The identifier of a file system is name-based: for any name, the
    function returns sixteen bytes whose fields, in the byte order of the host,
    are those of the SHA-1 of namespace and name, with version 5 and the
    variant of RFC 4122. *)
Theorem generate_uuid_version5 ctx ns name :
  length (buffer ctx) = 64%nat -> blen ns < 2 ^ 29 -> blen name < 2 ^ 29 ->
  exists r, generate_uuid ctx ns name = Done r /\ length r = 16%nat /\
    uuid_view r = uuid_of_digest (FIPS.sha1 (ns ++ name)) /\
    Z.shiftr (time_hi_and_version (uuid_view r)) 12 = 5 /\ Z.shiftr (clk_seq_hi_res (uuid_view r)) 6 = 2.
Proof.
  intros Hb Hn Hm. destruct (generate_uuid_ok ctx ns name Hb Hn Hm) as (r & Hr & Hl & Hv).
  exists r. split_and!; [done..| |]; rewrite Hv; cbn [uuid_of_digest time_hi_and_version clk_seq_hi_res];
    rewrite Z.shiftr_div_pow2, Z.mul_comm, Z.div_add_l, Z.div_small by (lia || apply Z.mod_pos_bound; lia); done.
Qed.

(**  The table-driven CRC-16 is the bit-serial one: for every running
    value and every buffer cut in two, the code applied piece by piece gives
    the shift register of 0xA001 over the whole buffer, a 16-bit value. *)
Theorem ext4_crc16_correct crc a b :
  is_u16 crc ->
  ext4_crc16 (ext4_crc16 crc a) b = crc16_ref crc (a ++ b) /\ is_u16 (crc16_ref crc (a ++ b)).
Proof.
  intros Hc. rewrite ext4_crc16_app, <- ext4_crc16_ref. split; [done|]. by apply ext4_crc16_range.
Qed.

Module UuidWitnesses.
Definition ascii_bytes (l : list Z) : list byte := byte_of_Z <$> l.

Example crc16_check_value :
  ext4_crc16 0xFFFF (ascii_bytes [49; 50; 51; 52; 53; 54; 55; 56; 57]) = 0x4B37.
Proof. vm_compute. reflexivity. Qed.

Lemma ext4_crc16_correct_witness :
  ext4_crc16 (ext4_crc16 0xFFFF [Init.Byte.x31]) [Init.Byte.x32] = crc16_ref 0xFFFF [Init.Byte.x31; Init.Byte.x32] /\
  is_u16 (crc16_ref 0xFFFF [Init.Byte.x31; Init.Byte.x32]).
Proof. apply (ext4_crc16_correct 0xFFFF [Init.Byte.x31] [Init.Byte.x32]). unfold is_u16. lia. Defined.

Lemma generate_uuid_version5_witness :
  exists r, generate_uuid Sha1Witnesses.junk Sha1Witnesses.abc [] = Done r /\ length r = 16%nat /\
    uuid_view r = uuid_of_digest (FIPS.sha1 (Sha1Witnesses.abc ++ [])) /\
    Z.shiftr (time_hi_and_version (uuid_view r)) 12 = 5 /\ Z.shiftr (clk_seq_hi_res (uuid_view r)) 6 = 2.
Proof.
  refine (generate_uuid_version5 Sha1Witnesses.junk Sha1Witnesses.abc [] _ _ _); [reflexivity|..]; reflexivity.
Defined.

(** On disk the version is in the second byte of its field: the superblock
    holds the fields in host order, not in the network order of RFC 4122. *)
Example uuid_host_order :
  (let! r := generate_uuid Sha1Witnesses.junk Sha1Witnesses.abc [] in
   Done (Z.shiftr (be_field 6 2 r) 12, Z.shiftr (time_hi_and_version (uuid_view r)) 12)) = Done (6, 5).
Proof. vm_compute. reflexivity. Qed.
End UuidWitnesses.
