(* ===== verification/Ext4Params.v ===== *)
(** * The parameters of a new file system (ext4_utils: make_ext4fs.c, ext4_utils.c)

    What [make_ext4fs_internal] does before it allocates anything: the size of
    the file system, the [compute_] functions for what the caller left zero,
    the feature words, and the canonical form of the two paths.  Sums and
    products are 32-bit where both operands are. *)
From S2P Require Import Prelude CStrings Ext4Alloc.
From Stdlib Require Import Ascii.

(** The fields of [struct fs_info] beside those of the allocator's record. *)
Record fs_parameters := mk_params {
  p_info : fs_info; p_inodes : Z; journal_blocks : Z; feat_compat : Z; feat_incompat : Z;
  label : option (list byte); no_journal : Z
}.

Definition EXT4_FEATURE_COMPAT_HAS_JOURNAL : Z := 4.
Definition EXT4_FEATURE_COMPAT_EXT_ATTR : Z := 8.
Definition EXT4_FEATURE_COMPAT_RESIZE_INODE : Z := 16.
Definition EXT4_FEATURE_RO_COMPAT_LARGE_FILE : Z := 2.
Definition EXT4_FEATURE_RO_COMPAT_GDT_CSUM : Z := 16.
Definition EXT4_FEATURE_INCOMPAT_FILETYPE : Z := 2.
Definition EXT4_FEATURE_INCOMPAT_EXTENTS : Z := 64.
Definition sizeof_group_desc : Z := 32.

(** [DIV_ROUND_UP] and [EXT4_ALIGN] on 32-bit operands. *)
Definition div_round_up (x y : Z) : outcome Z := if y =? 0 then Crash DivByZero else Done (u32 (x + y - 1) / y).
Definition ext4_align (x y : Z) : outcome Z := let! q := div_round_up x y in Done (u32 (y * q)).

(** [DIV_ROUND_UP(info.len, info.block_size)], a 64-bit quotient kept in 32. *)
Definition len_in_blocks (len bs : Z) : Z := u32 (Z.quot (len + bs - 1) bs).

Definition compute_block_size : Z := 4096.

Definition compute_journal_blocks (len bs : Z) : Z :=
  let journal_blocks := u32 (Z.quot (Z.quot (len + bs - 1) bs) 64) in
  let journal_blocks := if journal_blocks <? 1024 then 1024 else journal_blocks in
  if 32768 <? journal_blocks then 32768 else journal_blocks.

Definition compute_blocks_per_group (bs : Z) : Z := u32 (bs * 8).

Definition compute_inodes (len bs : Z) : Z := u32 (Z.quot (Z.quot (len + bs - 1) bs) 4).

(** The number of inodes per group and the new total. *)
Definition compute_inodes_per_group (len bs bpg inode_size inodes : Z) : outcome (Z * Z) :=
  let! block_groups := div_round_up (len_in_blocks len bs) bpg in
  let! n := div_round_up inodes block_groups in
  if inode_size =? 0 then Crash DivByZero else
  let! n := ext4_align n (bs / inode_size) in
  Done (n, u32 (n * block_groups)).

Definition compute_bg_desc_reserve_blocks (len bs bpg : Z) : outcome Z :=
  let! block_groups := div_round_up (len_in_blocks len bs) bpg in
  let bg_desc_blocks := u32 (u64 (block_groups * sizeof_group_desc + bs - 1) / bs) in
  let reserve := u32 (u64 (u32 (block_groups * 1024) * sizeof_group_desc + bs - 1) / bs - bg_desc_blocks) in
  Done (if bs / 4 <? reserve then bs / 4 else reserve).

(** ** The size of the file *)

Inductive file_kind := Regular (st_size : Z) | BlockDevice (size : Z) | Other.

(** [st] is what [fstat] returns, with the size of a block device. *)
Definition get_file_size (len : Z) (st : option file_kind) : Z :=
  match st with
  | None => 0
  | Some k =>
      let reserve_len := if len <? 0 then u64 (- len) else 0 in
      let computed_size :=
        match k with
        | Regular size => s64 (size - reserve_len)
        | BlockDevice size => s64 (size - reserve_len)
        | Other => 0
        end in
      if computed_size <? 0 then 0 else computed_size
  end.

(** ** The parameters *)

Definition set_len (i : fs_info) (len : Z) : fs_info :=
  mk_info len (block_size i) (blocks_per_group i) (inodes_per_group i) (inode_size i) (feat_ro_compat i) (bg_desc_reserve_blocks i).

(** From the size to the reserved descriptor blocks; [None] is the failure
    with the message that the size is missing. *)
Definition make_parameters (p : fs_parameters) (st : option file_kind) : outcome (option fs_parameters) :=
  let i := p_info p in
  let len := if i_len i <=? 0 then s64 (get_file_size (i_len i) st) else i_len i in
  if len <=? 0 then Done None else
  let bs := if block_size i =? 0 then compute_block_size else block_size i in
  let len := s64 (Z.land len (u64 (Z.lnot (u64 (bs - 1))))) in
  let journal := if journal_blocks p =? 0 then compute_journal_blocks len bs else journal_blocks p in
  let '(compat, journal) :=
    if no_journal p =? 0 then (EXT4_FEATURE_COMPAT_HAS_JOURNAL, journal) else (feat_compat p, 0) in
  let bpg := if blocks_per_group i =? 0 then compute_blocks_per_group bs else blocks_per_group i in
  let inodes := if p_inodes p =? 0 then compute_inodes len bs else p_inodes p in
  let isize := if inode_size i =? 0 then 256 else inode_size i in
  let lab := match label p with None => [] | Some l => l end in
  let! (ipg, inodes) := compute_inodes_per_group len bs bpg isize inodes in
  let compat := Z.lor compat (Z.lor EXT4_FEATURE_COMPAT_RESIZE_INODE EXT4_FEATURE_COMPAT_EXT_ATTR) in
  let ro := Z.lor (feat_ro_compat i) (Z.lor (Z.lor EXT4_FEATURE_RO_COMPAT_SPARSE_SUPER EXT4_FEATURE_RO_COMPAT_LARGE_FILE)
                                        EXT4_FEATURE_RO_COMPAT_GDT_CSUM) in
  let incompat := Z.lor (feat_incompat p) (Z.lor EXT4_FEATURE_INCOMPAT_EXTENTS EXT4_FEATURE_INCOMPAT_FILETYPE) in
  let! reserve := compute_bg_desc_reserve_blocks len bs bpg in
  Done (Some (mk_params (mk_info len bs bpg ipg isize ro reserve) inodes journal compat incompat (Some lab) (no_journal p))).

(** ** Paths *)

Definition first_char (s : string) : option ascii := String.get 0 s.
Definition last_char (s : string) : option ascii := String.get (String.length s - 1) s.

Definition canonicalize_slashes (str : string) (absolute : bool) : string :=
  if (String.length str =? 0)%nat then if absolute then "/" else EmptyString else
  let front := if negb (bool_decide (first_char str = Some "/"%char)) && absolute then "/"%string else EmptyString in
  let back := if negb (bool_decide (last_char str = Some "/"%char)) then "/"%string else EmptyString in
  (front ++ str ++ back)%string.
Definition canonicalize_abs_slashes (str : string) : string := canonicalize_slashes str true.
Definition canonicalize_rel_slashes (str : string) : string := canonicalize_slashes str false.

(** ** Numbers on the command line *)

(** The suffix behind the digits, where [strtoull] stopped. *)
Fixpoint after_digits (base : Z) (s : string) : string :=
  match s with
  | String c r => match digit_val c with Some d => if d <? base then after_digits base r else s | None => s end
  | EmptyString => EmptyString
  end.

Definition skip_sign (s : string) : string :=
  match s with String "-"%char r | String "+"%char r => r | _ => s end.

Definition endptr (s : string) (base : Z) : string :=
  let t := skip_sign (skip_spaces s) in
  let e := after_digits base t in
  if bool_decide (e = t) then s else e.

Definition parse_num (arg : string) : Z :=
  let num := strtoul arg 10 in
  match endptr arg 10 with
  | String "k"%char _ | String "K"%char _ => u64 (num * 1024)
  | String "m"%char _ | String "M"%char _ => u64 (num * (1024 * 1024))
  | String "g"%char _ | String "G"%char _ => u64 (num * (1024 * 1024 * 1024))
  | _ => num
  end.

Example parse_num_examples :
  parse_num "64M" = 67108864 /\ parse_num " +3k" = 3072 /\ parse_num "17179869184G" = 0 /\ parse_num "12" = 12 /\ parse_num "m" = 0.
Proof. vm_compute. done. Qed.

Example canonical_examples :
  canonicalize_abs_slashes "data" = "/data/"%string /\ canonicalize_rel_slashes "out" = "out/"%string /\
  canonicalize_abs_slashes EmptyString = "/"%string /\ canonicalize_rel_slashes EmptyString = EmptyString.
Proof. vm_compute. done. Qed.

(** A file of 100 bytes has no whole block, so no block group to divide by. *)
Example short_file_divides_by_zero :
  make_parameters (mk_params (mk_info 100 0 0 0 0 0 0) 0 0 0 0 None 0) None = Crash DivByZero.
Proof. vm_compute. reflexivity. Qed.

Definition default_parameters (len : Z) : fs_parameters := mk_params (mk_info len 0 0 0 0 0 0) 0 0 0 0 None 0.

Example parameters_64M :
  make_parameters (default_parameters (2 ^ 26)) None =
    Done (Some (mk_params (mk_info (2 ^ 26) 4096 32768 4096 256 19 7) 4096 1024 28 66 (Some []) 0)).
Proof. vm_compute. reflexivity. Qed.
