(* ===== verification/Ext4Super.v ===== *)
(** * The superblock and the group descriptors (ext4_utils: ext4_utils.c, ext4_sb.c)

    The superblock is a buffer of one block, the descriptor table a buffer of
    [bg_desc_blocks] blocks that is queued once for every copy; both are
    written field by field.  A field is its offset and its size. *)
From S2P Require Import Prelude CStrings Ext4Alloc Ext4Extent Ext4Indirect Ext4Contents Ext4Xattr Ext4Sha1 Ext4Uuid Ext4Params.

(** ** Fields in memory *)

Abbreviation fld := (Z * nat)%type.

Definition set_field (p : nat) (f : fld) (v : Z) : fsM unit := poke p f.1 (le_split f.2 v).
Fixpoint set_fields (p : nat) (l : list (fld * Z)) : fsM unit :=
  match l with
  | [] => mret tt
  | (f, v) :: l => _ ← set_field p f v; set_fields p l
  end.

(** A field of bytes, and of a buffer. *)
Definition get_field (f : fld) (b : list byte) : Z := le_combine (slice f.1 (Z.of_nat f.2) b).
Definition read_field (p : nat) (f : fld) : fsM Z := b ← peek p f.1 (Z.of_nat f.2); mret (le_combine b).

(** [struct ext4_super_block]. *)
Definition s_inodes_count : fld := (0, 4%nat).
Definition s_blocks_count_lo : fld := (4, 4%nat).
Definition s_r_blocks_count_lo : fld := (8, 4%nat).
Definition s_free_blocks_count_lo : fld := (12, 4%nat).
Definition s_free_inodes_count : fld := (16, 4%nat).
Definition s_first_data_block : fld := (20, 4%nat).
Definition s_log_block_size : fld := (24, 4%nat).
Definition s_obso_log_frag_size : fld := (28, 4%nat).
Definition s_blocks_per_group : fld := (32, 4%nat).
Definition s_obso_frags_per_group : fld := (36, 4%nat).
Definition s_inodes_per_group : fld := (40, 4%nat).
Definition s_mtime : fld := (44, 4%nat).
Definition s_wtime : fld := (48, 4%nat).
Definition s_mnt_count : fld := (52, 2%nat).
Definition s_max_mnt_count : fld := (54, 2%nat).
Definition s_magic : fld := (56, 2%nat).
Definition s_state : fld := (58, 2%nat).
Definition s_errors : fld := (60, 2%nat).
Definition s_minor_rev_level : fld := (62, 2%nat).
Definition s_lastcheck : fld := (64, 4%nat).
Definition s_checkinterval : fld := (68, 4%nat).
Definition s_creator_os : fld := (72, 4%nat).
Definition s_rev_level : fld := (76, 4%nat).
Definition s_def_resuid : fld := (80, 2%nat).
Definition s_def_resgid : fld := (82, 2%nat).
Definition s_first_ino : fld := (84, 4%nat).
Definition s_inode_size : fld := (88, 2%nat).
Definition s_block_group_nr : fld := (90, 2%nat).
Definition s_feature_compat : fld := (92, 4%nat).
Definition s_feature_incompat : fld := (96, 4%nat).
Definition s_feature_ro_compat : fld := (100, 4%nat).
Definition s_uuid : Z := 104.
Definition s_volume_name : Z := 120.
Definition s_last_mounted : Z := 136.
Definition s_algorithm_usage_bitmap : fld := (200, 4%nat).
Definition s_prealloc_blocks : fld := (204, 1%nat).
Definition s_prealloc_dir_blocks : fld := (205, 1%nat).
Definition s_reserved_gdt_blocks : fld := (206, 2%nat).
Definition s_journal_inum : fld := (224, 4%nat).
Definition s_journal_dev : fld := (228, 4%nat).
Definition s_last_orphan : fld := (232, 4%nat).
Definition s_hash_seed0 : fld := (236, 4%nat).
Definition s_def_hash_version : fld := (252, 1%nat).
Definition s_reserved_char_pad : fld := (253, 1%nat).
Definition s_desc_size : fld := (254, 2%nat).
Definition s_default_mount_opts : fld := (256, 4%nat).
Definition s_first_meta_bg : fld := (260, 4%nat).
Definition s_mkfs_time : fld := (264, 4%nat).
Definition s_jnl_blocks : Z := 268.
Definition s_blocks_count_hi : fld := (336, 4%nat).
Definition s_r_blocks_count_hi : fld := (340, 4%nat).
Definition s_free_blocks_count_hi : fld := (344, 4%nat).
Definition s_min_extra_isize : fld := (348, 2%nat).
Definition s_want_extra_isize : fld := (350, 2%nat).
Definition s_flags : fld := (352, 4%nat).
Definition s_raid_stride : fld := (356, 2%nat).
Definition s_mmp_interval : fld := (358, 2%nat).
Definition s_mmp_block : fld := (360, 8%nat).
Definition s_raid_stripe_width : fld := (368, 4%nat).
Definition s_log_groups_per_flex : fld := (372, 1%nat).
Definition s_kbytes_written : fld := (376, 8%nat).
Definition sizeof_ext4_super_block : Z := 1024.

(** [struct ext2_group_desc], descriptor [i] of the table. *)
Definition desc (i : Z) (f : fld) : fld := (sizeof_group_desc * i + f.1, f.2).
Definition bg_block_bitmap : fld := (0, 4%nat).
Definition bg_inode_bitmap : fld := (4, 4%nat).
Definition bg_inode_table : fld := (8, 4%nat).
Definition bg_free_blocks_count : fld := (12, 2%nat).
Definition bg_free_inodes_count : fld := (14, 2%nat).
Definition bg_used_dirs_count : fld := (16, 2%nat).
Definition bg_flags_field : fld := (18, 2%nat).
Definition bg_checksum : fld := (30, 2%nat).

Definition EXT4_SUPER_MAGIC : Z := 0xEF53.
Definition EXT4_VALID_FS : Z := 1.
Definition EXT4_ERRORS_RO : Z := 2.
Definition EXT4_OS_LINUX : Z := 0.
Definition EXT4_DYNAMIC_REV : Z := 1.
Definition EXT4_DEF_RESUID : Z := 0.
Definition EXT4_DEF_RESGID : Z := 0.
Definition EXT4_GOOD_OLD_FIRST_INO : Z := 11.
Definition EXT4_JOURNAL_INO : Z := 8.
Definition EXT4_RESIZE_INO : Z := 7.
Definition DX_HASH_TEA : Z := 2.
Definition EXT4_JNL_BACKUP_BLOCKS : Z := 1.

(** [for (i = 0; j > 0; i++) j >>= 1; return i - 1]. *)
Fixpoint log_2_loop (fuel : nat) (i j : Z) : Z :=
  match fuel with
  | O => i
  | S fuel => if 0 <? j then log_2_loop fuel (i + 1) (Z.shiftr j 1) else i
  end.
Definition log_2 (j : Z) : Z := log_2_loop 32 0 j - 1.

Section Super.
Context (force : bool) (params : fs_parameters).
Abbreviation info := (p_info params).
Context (aux : fs_aux_info) (ctx : SHA1_CTX).

(** The buffers [ext4_create_fs_aux_info] allocates: [aux_info.sb] and
    [aux_info.bg_desc]. *)
Definition create_buffers : fsM (nat * nat) :=
  sb ← calloc (block_size info);
  bg_desc ← calloc (u64 (block_size info * bg_desc_blocks aux));
  mret (sb, bg_desc).

(** The assignments of [ext4_fill_in_sb], in their order. *)
Definition sb_fields_1 : list (fld * Z) :=
  [(s_inodes_count, u32 (inodes_per_group info * groups aux)); (s_blocks_count_lo, u32 (len_blocks aux));
   (s_r_blocks_count_lo, 0); (s_free_blocks_count_lo, 0); (s_free_inodes_count, 0);
   (s_first_data_block, first_data_block aux); (s_log_block_size, u32 (log_2 (block_size info / 1024)));
   (s_obso_log_frag_size, u32 (log_2 (block_size info / 1024)));
   (s_blocks_per_group, blocks_per_group info); (s_obso_frags_per_group, blocks_per_group info);
   (s_inodes_per_group, inodes_per_group info); (s_mtime, 0); (s_wtime, 0); (s_mnt_count, 0); (s_max_mnt_count, 0xFFFF);
   (s_magic, EXT4_SUPER_MAGIC); (s_state, EXT4_VALID_FS); (s_errors, EXT4_ERRORS_RO); (s_minor_rev_level, 0);
   (s_lastcheck, 0); (s_checkinterval, 0); (s_creator_os, EXT4_OS_LINUX); (s_rev_level, EXT4_DYNAMIC_REV);
   (s_def_resuid, EXT4_DEF_RESUID); (s_def_resgid, EXT4_DEF_RESGID);
   (s_first_ino, EXT4_GOOD_OLD_FIRST_INO); (s_inode_size, u16 (inode_size info)); (s_block_group_nr, 0);
   (s_feature_compat, feat_compat params); (s_feature_incompat, feat_incompat params);
   (s_feature_ro_compat, feat_ro_compat info)].

Definition sb_fields_2 : list (fld * Z) :=
  [(s_algorithm_usage_bitmap, 0); (s_reserved_gdt_blocks, u16 (bg_desc_reserve_blocks info));
   (s_prealloc_blocks, 0); (s_prealloc_dir_blocks, 0)] ++
  (if negb (Z.land (feat_compat params) EXT4_FEATURE_COMPAT_HAS_JOURNAL =? 0) then [(s_journal_inum, EXT4_JOURNAL_INO)] else []) ++
  [(s_journal_dev, 0); (s_last_orphan, 0); (s_hash_seed0, 0); (s_def_hash_version, DX_HASH_TEA);
   (s_reserved_char_pad, EXT4_JNL_BACKUP_BLOCKS); (s_desc_size, sizeof_group_desc);
   (s_default_mount_opts, 0); (s_first_meta_bg, 0); (s_mkfs_time, 0);
   (s_blocks_count_hi, u32 (Z.shiftr (len_blocks aux) 32)); (s_r_blocks_count_hi, 0); (s_free_blocks_count_hi, 0);
   (s_min_extra_isize, sizeof_ext4_inode - EXT4_GOOD_OLD_INODE_SIZE);
   (s_want_extra_isize, sizeof_ext4_inode - EXT4_GOOD_OLD_INODE_SIZE); (s_flags, 2); (s_raid_stride, 0);
   (s_mmp_interval, 0); (s_mmp_block, 0); (s_raid_stripe_width, 0); (s_log_groups_per_flex, 0); (s_kbytes_written, 0)].

Definition the_label : list byte := default [] (label params).

Definition fill_superblock (sb : nat) : fsM unit :=
  _ ← set_fields sb sb_fields_1;
  uuid ← lift (generate_uuid ctx (bytes_of "extandroid/make_ext4fs") the_label);
  _ ← poke sb s_uuid uuid;
  _ ← poke sb s_volume_name (zeros 16);
  _ ← poke sb s_volume_name (strncpy the_label 16);
  _ ← poke sb s_last_mounted (zeros 64);
  set_fields sb sb_fields_2.

(** One turn of the loop over the groups; the result is the copy of the
    superblock, if there is one. *)
Definition fill_group (sb bg_desc : nat) (i : Z) : fsM (option nat) :=
  let group_start_block := u32 (first_data_block aux + i * blocks_per_group info) in
  '(backup, header_size) ←
    (if ext4_bg_has_super_block info (s32 i) then
       backup ← (if negb (i =? 0) then
                   b ← calloc (block_size info);
                   content ← peek sb 0 (block_size info);
                   _ ← poke b 0 content;
                   _ ← set_field b s_block_group_nr (u16 i);
                   _ ← queue (QData (Buf b) 0 (block_size info) group_start_block);
                   mret (Some b)
                 else mret None);
       _ ← queue (QData (Buf bg_desc) 0 (u32 (bg_desc_blocks aux * block_size info)) (u32 (group_start_block + 1)));
       mret (backup, u32 (1 + bg_desc_blocks aux + bg_desc_reserve_blocks info))
     else mret (None, 0));
  per_group ← read_field sb s_blocks_per_group;
  per_inodes ← read_field sb s_inodes_per_group;
  _ ← set_fields bg_desc
        [(desc i bg_block_bitmap, u32 (group_start_block + header_size));
         (desc i bg_inode_bitmap, u32 (group_start_block + header_size + 1));
         (desc i bg_inode_table, u32 (group_start_block + header_size + 2));
         (desc i bg_free_blocks_count, u16 per_group); (desc i bg_free_inodes_count, u16 per_inodes);
         (desc i bg_used_dirs_count, 0)];
  mret backup.

Fixpoint fill_groups (sb bg_desc : nat) (gs : list nat) : fsM (list (option nat)) :=
  match gs with
  | [] => mret []
  | i :: gs => b ← fill_group sb bg_desc (Z.of_nat i); bs ← fill_groups sb bg_desc gs; mret (b :: bs)
  end.

Definition ext4_fill_in_sb (sb bg_desc : nat) : fsM (list (option nat)) :=
  _ ← fill_superblock sb;
  fill_groups sb bg_desc (seq 0 (Z.to_nat (groups aux))).

Definition ext4_queue_sb (sb : nat) : fsM unit :=
  if 1024 <? block_size info then
    buf ← calloc (block_size info);
    content ← peek sb 0 1024;
    _ ← poke buf 1024 content;
    queue (QData (Buf buf) 0 (block_size info) 0)
  else queue (QData (Buf sb) 0 1024 1).

(** ** The reserved inodes *)

Fixpoint resize_regions (alloc : block_allocation) (gs : list nat) : fsM block_allocation :=
  match gs with
  | [] => mret alloc
  | i :: gs =>
      let g := Z.of_nat i in
      alloc ← (if ext4_bg_has_super_block info (s32 g) then
                 let group_start_block := u32 (first_data_block aux + g * blocks_per_group info) in
                 let start := u32 (group_start_block + 1 + bg_desc_blocks aux) in
                 append_region alloc start (bg_desc_reserve_blocks info) (s32 g)
               else mret alloc);
      resize_regions alloc gs
  end.

(** [S_IFREG | S_IRUSR | S_IWUSR]. *)
Definition reserved_mode : Z := 0x8000 + 0x180.

Definition ext4_create_resize_inode : fsM unit :=
  inode ← get_inode info aux EXT4_RESIZE_INO;
  alloc ← resize_regions create_allocation (seq 0 (Z.to_nat (groups aux)));
  alloc ← inode_attach_resize force info aux inode alloc;
  _ ← update_inode inode (fun i => set_mode i reserved_mode 1);
  free_alloc alloc.

Definition JBD2_MAGIC_NUMBER : Z := 0xc03b3998.
Definition JBD2_SUPERBLOCK_V2 : Z := 4.

(** [htonl] of a field of the journal superblock. *)
Definition journal_fields : list (Z * Z) :=
  [(0, JBD2_MAGIC_NUMBER); (4, JBD2_SUPERBLOCK_V2); (12, block_size info); (16, journal_blocks params);
   (64, 1); (20, 1); (24, 1)].
Fixpoint set_journal (p : nat) (l : list (Z * Z)) : fsM unit :=
  match l with
  | [] => mret tt
  | (off, v) :: l => _ ← poke p off (le_split 4 (ntohl v)); set_journal p l
  end.

Definition ext4_create_journal_inode (sb : nat) : fsM unit :=
  inode ← get_inode info aux EXT4_JOURNAL_INO;
  let len := u32 (journal_blocks params * block_size info) in
  journal_data ← inode_allocate_data_extents force info aux inode len len;
  match journal_data with
  | None => error force
  | Some data =>
      _ ← update_inode inode (fun i => set_mode i reserved_mode 1);
      _ ← set_journal data journal_fields;
      i ← read_inode inode;
      poke sb s_jnl_blocks (i_block i)
  end.

(** ** Free counts and checksums *)

(** [p->f += v]. *)
Definition add_field (p : nat) (f : fld) (v : Z) : fsM unit :=
  old ← read_field p f; set_field p f (old + v).

Definition desc_checksum (uuid : list byte) (i : Z) (d : list byte) : Z :=
  ext4_crc16 (ext4_crc16 (ext4_crc16 0xFFFF uuid) (le_split 4 i)) d.

Definition update_group (sb bg_desc : nat) (i : Z) : fsM unit :=
  bg_free_blocks ← get_free_blocks i;
  bg_free_inodes ← get_free_inodes i;
  _ ← set_field bg_desc (desc i bg_free_blocks_count) (u16 bg_free_blocks);
  _ ← add_field sb s_free_blocks_count_lo bg_free_blocks;
  _ ← set_field bg_desc (desc i bg_free_inodes_count) (u16 bg_free_inodes);
  _ ← add_field sb s_free_inodes_count bg_free_inodes;
  dirs ← get_directories i;
  _ ← add_field bg_desc (desc i bg_used_dirs_count) dirs;
  flags ← get_bg_flags i;
  _ ← set_field bg_desc (desc i bg_flags_field) flags;
  uuid ← peek sb s_uuid 16;
  d ← peek bg_desc (sizeof_group_desc * i) 30;
  set_field bg_desc (desc i bg_checksum) (desc_checksum uuid i d).

Fixpoint update_groups (sb bg_desc : nat) (gs : list nat) : fsM unit :=
  match gs with
  | [] => mret tt
  | i :: gs => _ ← update_group sb bg_desc (Z.of_nat i); update_groups sb bg_desc gs
  end.
Definition ext4_update_free (sb bg_desc : nat) : fsM unit := update_groups sb bg_desc (seq 0 (Z.to_nat (groups aux))).
End Super.

(** ** Reading a superblock *)

(** [ext4_parse_sb] on the 1024 bytes of a superblock: [None] is [-EINVAL]. *)
Definition ext4_parse_sb (p : fs_parameters) (sb : list byte) : option fs_parameters :=
  if negb (get_field s_magic sb =? EXT4_SUPER_MAGIC) then None else
  if negb (Z.land (get_field s_state sb) EXT4_VALID_FS =? EXT4_VALID_FS) then None else
  let bs := u32 (Z.shiftl 1024 (get_field s_log_block_size sb)) in
  let len_blocks := u64 (Z.shiftl (get_field s_blocks_count_hi sb) 32 + get_field s_blocks_count_lo sb) in
  Some (mk_params
    (mk_info (s64 (u64 (bs * len_blocks))) bs (get_field s_blocks_per_group sb) (get_field s_inodes_per_group sb)
       (get_field s_inode_size sb) (u16 (get_field s_feature_ro_compat sb)) (get_field s_reserved_gdt_blocks sb))
    (get_field s_inodes_count sb) (journal_blocks p) (u16 (get_field s_feature_compat sb))
    (u16 (get_field s_feature_incompat sb)) (Some (cstr (slice s_volume_name 1000 sb))) (no_journal p)).

(** [ext4_parse_sb_info], with the numbers of [aux_info]; the check of the
    return value is not in the code. *)
Definition ext4_parse_sb_info (force : bool) (p : fs_parameters) (sb : list byte) : fsM (fs_parameters * fs_aux_info * nat) :=
  _ ← (if negb (get_field s_magic sb =? EXT4_SUPER_MAGIC) then error force else mret tt);
  _ ← (if negb (Z.land (get_field s_state sb) EXT4_VALID_FS =? EXT4_VALID_FS) then error force else mret tt);
  let p := default p (ext4_parse_sb p sb) in
  if (block_size (p_info p) =? 0) || (blocks_per_group (p_info p) =? 0) then fault_with DivByZero else
  let aux := ext4_create_fs_aux_info (p_info p) in
  '(b, _) ← create_buffers p aux;
  _ ← poke b 0 (take 1024 sb);
  if negb (first_data_block aux =? get_field s_first_data_block sb) then critical_error else
  mret (p, aux, b).
