(* ===== verification/Ext4SuperCorrect.v ===== *)
(** * The superblock and the descriptors say what the image holds

    Fields of a buffer that was written field by field; the superblock parses
    back to the parameters it was made from; the descriptors name the blocks
    the bitmaps and inode tables are queued for, hold the free counts of the
    groups and their checksums. *)
From S2P Require Import Prelude CStrings Ext4Alloc Ext4Bits Ext4AllocCorrect Ext4Extent Ext4ExtentCorrect Ext4InodeCorrect Ext4Indirect Ext4Contents Ext4DirCorrect Ext4ContentsCorrect Ext4Xattr HashCtx Sha Ext4Sha1 Ext4Uuid Ext4Params Ext4Super.

(** Membership in a concrete list. *)
Ltac pick := repeat first [apply list_elem_of_here | apply list_elem_of_further].

(** ** Writing inside a buffer *)

Lemma write_inside (b : list byte) off d : 0 <= off -> off + blen d <= blen b ->
  write_at b off d = take (Z.to_nat off) b ++ d ++ drop (Z.to_nat (off + blen d)) b.
Proof.
  intros H0 H1. pose proof (blen_nonneg d). unfold write_at. rewrite zeros_nil by lia. by rewrite app_nil_r.
Qed.

Lemma blen_write b off d : 0 <= off -> off + blen d <= blen b -> blen (write_at b off d) = blen b.
Proof.
  intros H0 H1. rewrite write_inside by done. unfold blen in *. rewrite !length_app, length_take, length_drop. lia.
Qed.

Lemma slice_write_eq b off d : 0 <= off -> off + blen d <= blen b -> slice off (blen d) (write_at b off d) = d.
Proof.
  intros H0 H1. rewrite write_inside by done. apply slice_here. unfold blen in *. rewrite length_take. lia.
Qed.

Lemma slice_write_ne b off d o n : 0 <= off -> off + blen d <= blen b -> 0 <= o -> 0 <= n ->
  o + n <= off \/ off + blen d <= o -> slice o n (write_at b off d) = slice o n b.
Proof.
  intros H0 H1 Ho Hn Hdis. rewrite write_inside by done. pose proof (blen_nonneg d).
  assert (Ht : blen (take (Z.to_nat off) b) = off) by (unfold blen in *; rewrite length_take; lia).
  destruct Hdis as [Hlo|Hhi].
  - rewrite slice_app_l by lia. unfold slice. rewrite skipn_firstn_comm, take_take. f_equal. lia.
  - rewrite slice_app_r, Ht, slice_app_r by lia. unfold slice. rewrite drop_drop. do 2 f_equal. lia.
Qed.

(** ** Fields *)

Definition in_buffer (n : Z) (f : fld) : Prop := 0 <= f.1 /\ f.1 + Z.of_nat f.2 <= n.
Definition apart (f g : fld) : Prop := f.1 + Z.of_nat f.2 <= g.1 \/ g.1 + Z.of_nat g.2 <= f.1.
#[export] Instance in_buffer_dec n f : Decision (in_buffer n f).
Proof. unfold in_buffer. apply _. Defined.
#[export] Instance apart_dec f g : Decision (apart f g).
Proof. unfold apart. apply _. Defined.

Lemma apart_sym f g : apart f g -> apart g f.
Proof. unfold apart. tauto. Qed.

Definition write_field (b : list byte) (f : fld) (v : Z) : list byte := write_at b f.1 (le_split f.2 v).
Definition write_fields (b : list byte) (l : list (fld * Z)) : list byte := foldl (fun b e => write_field b e.1 e.2) b l.

Lemma blen_split n v : blen (le_split n v) = Z.of_nat n.
Proof. unfold blen. by rewrite LittleEndianList.length_le_split. Qed.

Section OneField.
Context (b : list byte) (f : fld) (v : Z) (Hf : in_buffer (blen b) f).

Lemma blen_write_field : blen (write_field b f v) = blen b.
Proof using Hf. apply blen_write; [|rewrite blen_split]; apply Hf. Qed.

Lemma get_write_field : get_field f (write_field b f v) = v mod 2 ^ (Z.of_nat f.2 * 8).
Proof using Hf.
  unfold get_field, write_field. rewrite <- (blen_split f.2 v) at 1. rewrite slice_write_eq by (rewrite ?blen_split; apply Hf).
  by rewrite LittleEndianList.le_combine_split.
Qed.

Lemma slice_write_field o n : 0 <= o -> 0 <= n -> o + n <= f.1 \/ f.1 + Z.of_nat f.2 <= o -> slice o n (write_field b f v) = slice o n b.
Proof using Hf. intros Ho Hn Hd. apply slice_write_ne; rewrite ?blen_split; try done; apply Hf. Qed.

Lemma get_write_other g : 0 <= g.1 -> apart g f -> get_field g (write_field b f v) = get_field g b.
Proof using Hf. intros Hg Ha. unfold get_field. by rewrite slice_write_field by (try lia; apply Ha). Qed.
End OneField.

Lemma blen_write_fields l : forall b, Forall (fun e => in_buffer (blen b) e.1) l -> blen (write_fields b l) = blen b.
Proof.
  induction l as [|[f v] l IH]; intros b H; [done|]. apply Forall_cons in H as [Hf Hl]. cbn [write_fields foldl fst snd] in *.
  fold (write_fields (write_field b f v) l). rewrite IH; by rewrite blen_write_field.
Qed.

Lemma slice_write_fields l : forall b o n, Forall (fun e => in_buffer (blen b) e.1) l -> 0 <= o -> 0 <= n ->
  Forall (fun e : fld * Z => o + n <= e.1.1 \/ e.1.1 + Z.of_nat e.1.2 <= o) l -> slice o n (write_fields b l) = slice o n b.
Proof.
  induction l as [|[f v] l IH]; intros b o n H Ho Hn Hd; [done|]. apply Forall_cons in H as [Hf Hl], Hd as [Hd Hds]. cbn [write_fields foldl fst snd] in *.
  fold (write_fields (write_field b f v) l). rewrite IH by (done || by rewrite blen_write_field). by apply slice_write_field.
Qed.

Lemma get_write_fields_other l b g : Forall (fun e => in_buffer (blen b) e.1) l -> 0 <= g.1 -> Forall (fun e => apart g e.1) l ->
  get_field g (write_fields b l) = get_field g b.
Proof. intros H Hg Ha. unfold get_field. rewrite slice_write_fields; [done|done|done|lia|]. eapply Forall_impl; [exact Ha|]. done. Qed.

(** Fields that do not overlap: every one holds what was written to it. *)
Fixpoint all_apart (l : list fld) : Prop :=
  match l with [] => True | f :: l => Forall (apart f) l /\ all_apart l end.
#[export] Instance all_apart_dec l : Decision (all_apart l).
Proof. induction l; cbn; apply _. Defined.

Lemma get_write_fields l : forall b f v, Forall (fun e => in_buffer (blen b) e.1) l -> all_apart l.*1 -> (f, v) ∈ l ->
  get_field f (write_fields b l) = v mod 2 ^ (Z.of_nat f.2 * 8).
Proof.
  induction l as [|[g w] l IH]; intros b f v H Hap Hin; [by apply elem_of_nil in Hin|]. apply Forall_cons in H as [Hg Hl]. destruct Hap as [Ha Hal].
  cbn [write_fields foldl fst snd] in *. fold (write_fields (write_field b g w) l). apply elem_of_cons in Hin as [[= -> ->]|Hin].
  - rewrite get_write_fields_other; [by apply get_write_field|by rewrite blen_write_field|apply Hg|]. exact (proj1 (Forall_fmap _ _ _) Ha).
  - apply IH; [by rewrite blen_write_field|done|done].
Qed.

(** ** The operations on buffers *)

Lemma set_field_ok s p b f v : bufs s !! p = Some b -> in_buffer (blen b) f -> set_field p f v s = Ok tt (set_buf s p (write_field b f v)).
Proof. intros Hb Hf. unfold set_field. rewrite (poke_ok s p b) by (rewrite ?blen_split; try done; apply Hf). done. Qed.

Lemma lookup_set_buf s p b c : bufs s !! p = Some b -> bufs (set_buf s p c) !! p = Some c.
Proof. intros Hb. cbn. apply list_lookup_insert_eq. by apply lookup_lt_Some in Hb. Qed.

Lemma lookup_set_buf_ne s p q c : p <> q -> bufs (set_buf s p c) !! q = bufs s !! q.
Proof. intros. cbn. by apply list_lookup_insert_ne. Qed.

Lemma set_buf_id s p b : bufs s !! p = Some b -> set_buf s p b = s.
Proof. intros Hb. destruct s. unfold set_buf. cbn in *. by rewrite list_insert_id. Qed.

Lemma set_fields_ok l : forall s p b, bufs s !! p = Some b -> Forall (fun e => in_buffer (blen b) e.1) l ->
  set_fields p l s = Ok tt (set_buf s p (write_fields b l)).
Proof.
  induction l as [|[f v] l IH]; intros s p b Hb H; cbn [set_fields write_fields foldl]; [by rewrite set_buf_id|].
  apply Forall_cons in H as [Hf Hl]. run (set_field_ok s p b f v Hb Hf).
  rewrite (IH _ p (write_field b f v)) by (try (by rewrite blen_write_field); by eapply lookup_set_buf). by rewrite set_buf_twice.
Qed.

Lemma peek_slice s p b off n : bufs s !! p = Some b -> 0 <= off -> off + n <= blen b -> peek p off n s = Ok (slice off n b) s.
Proof. intros Hb H0 H1. unfold peek. rewrite Hb. by rewrite (proj2 (Z.leb_le _ _)), (proj2 (Z.leb_le _ _)). Qed.

Lemma read_field_ok s p b f : bufs s !! p = Some b -> in_buffer (blen b) f -> read_field p f s = Ok (get_field f b) s.
Proof. intros Hb [H0 H1]. unfold read_field. by run (peek_slice s p b f.1 (Z.of_nat f.2) Hb H0 H1). Qed.

Lemma add_field_ok s p b f v : bufs s !! p = Some b -> in_buffer (blen b) f -> add_field p f v s = Ok tt (set_buf s p (write_field b f (get_field f b + v))).
Proof. intros Hb Hf. unfold add_field. run (read_field_ok s p b f Hb Hf). by apply set_field_ok. Qed.

(** ** The superblock *)

Lemma in_buffer_le n m f : n <= m -> in_buffer n f -> in_buffer m f.
Proof. unfold in_buffer. lia. Qed.

Lemma all_in_buffer (l : list (fld * Z)) n m : n <= m -> Forall (in_buffer n) l.*1 -> Forall (fun e => in_buffer m e.1) l.
Proof.
  intros Hn H. eapply Forall_impl; [exact (proj1 (Forall_fmap fst _ l) H)|]. intros e He. by apply (in_buffer_le n).
Qed.

Lemma write_twice b off x y : 0 <= off -> off + blen x <= blen b -> blen y = blen x -> write_at (write_at b off x) off y = write_at b off y.
Proof.
  intros H0 H1 He. rewrite (write_inside (write_at b off x)) by (rewrite ?blen_write; lia). rewrite !write_inside by lia.
  assert (Ht : length (take (Z.to_nat off) b) = Z.to_nat off) by (unfold blen in *; rewrite length_take; lia). pose proof (blen_nonneg x).
  f_equal; [by rewrite take_app_length'|]. f_equal. rewrite app_assoc, drop_app_length'; [by rewrite He|].
  rewrite length_app, Ht, He. unfold blen in *. lia.
Qed.

Section SuperBlock.
Context (force : bool) (params : fs_parameters) (aux : fs_aux_info) (ctx : SHA1_CTX).
Abbreviation info := (p_info params).
Abbreviation bs := (block_size info).
Abbreviation fields_1 := (sb_fields_1 params aux).
Abbreviation fields_2 := (sb_fields_2 params aux).

Lemma fields_1_in : Forall (in_buffer 1024) fields_1.*1.
Proof. apply (bool_decide_unpack _). by compute. Qed.
Lemma fields_1_apart : all_apart fields_1.*1.
Proof. apply (bool_decide_unpack _). by compute. Qed.
Lemma fields_1_low : Forall (fun f : fld => f.1 + Z.of_nat f.2 <= 104) fields_1.*1.
Proof. apply (bool_decide_unpack _). by compute. Qed.
Lemma fields_2_in : Forall (in_buffer 1024) fields_2.*1.
Proof. unfold sb_fields_2. destruct (negb _); apply (bool_decide_unpack _); by compute. Qed.
Lemma fields_2_apart : all_apart fields_2.*1.
Proof. unfold sb_fields_2. destruct (negb _); apply (bool_decide_unpack _); by compute. Qed.
Lemma fields_2_high : Forall (fun f : fld => 200 <= f.1) fields_2.*1.
Proof. unfold sb_fields_2. destruct (negb _); apply (bool_decide_unpack _); by compute. Qed.

(** What [fill_superblock] leaves in a buffer [b]. *)
Definition sb_bytes (uuid b : list byte) : list byte :=
  write_fields (write_at (write_at (write_at (write_fields b fields_1) s_uuid uuid) s_volume_name (strncpy (the_label params) 16))
                  s_last_mounted (zeros 64)) fields_2.

Section Bytes.
Context (uuid b : list byte) (Hu : blen uuid = 16) (Hb : 1024 <= blen b).
Abbreviation B := (sb_bytes uuid b).
Abbreviation b1 := (write_fields b fields_1).
Abbreviation b2 := (write_at b1 s_uuid uuid).
Abbreviation b3 := (write_at b2 s_volume_name (strncpy (the_label params) 16)).
Abbreviation b4 := (write_at b3 s_last_mounted (zeros 64)).

Lemma len_b1 : blen b1 = blen b.
Proof using Hb. apply blen_write_fields. by apply (all_in_buffer _ 1024), fields_1_in. Qed.
Lemma len_b2 : blen b2 = blen b.
Proof using Hu Hb. rewrite blen_write, len_b1 by (rewrite ?len_b1, ?Hu; unfold s_uuid; lia). done. Qed.
Lemma len_b3 : blen b3 = blen b.
Proof using Hu Hb. rewrite blen_write, len_b2 by (rewrite ?len_b2, ?blen_strncpy; unfold s_volume_name; lia). done. Qed.
Lemma len_b4 : blen b4 = blen b.
Proof using Hu Hb. rewrite blen_write, len_b3 by (rewrite ?len_b3; unfold s_last_mounted; rewrite ?blen_zeros; lia). done. Qed.
Lemma fields_2_b4 : Forall (fun e => in_buffer (blen b4) e.1) fields_2.
Proof using Hu Hb. apply (all_in_buffer _ 1024); [by rewrite len_b4|apply fields_2_in]. Qed.

Lemma blen_sb_bytes : blen B = blen b.
Proof using Hu Hb. unfold sb_bytes. rewrite blen_write_fields, len_b4; [done|apply fields_2_b4]. Qed.

(** The four parts of the bytes. *)
Lemma sb_slice_mid o n : 0 <= o -> 0 <= n -> o + n <= 200 -> slice o n B = slice o n b4.
Proof using Hu Hb.
  intros Ho Hn Hlt. unfold sb_bytes. apply slice_write_fields; [apply fields_2_b4|done|done|].
  eapply Forall_impl; [exact (proj1 (Forall_fmap fst _ _) fields_2_high)|]. intros e He. cbn in He. lia.
Qed.

Lemma sb_mounted : slice s_last_mounted 64 B = zeros 64.
Proof using Hu Hb.
  rewrite sb_slice_mid by (unfold s_last_mounted; lia). pose proof (slice_write_eq b3 s_last_mounted (zeros 64)) as H.
  rewrite blen_zeros in H by lia. apply H; [|rewrite len_b3]; unfold s_last_mounted; lia.
Qed.

Lemma sb_name : slice s_volume_name 16 B = strncpy (the_label params) 16.
Proof using Hu Hb.
  rewrite sb_slice_mid by (unfold s_volume_name; lia).
  rewrite slice_write_ne by (rewrite ?len_b3, ?blen_zeros; unfold s_last_mounted, s_volume_name; lia).
  pose proof (slice_write_eq b2 s_volume_name (strncpy (the_label params) 16)) as H. rewrite blen_strncpy in H by lia.
  apply H; [|rewrite len_b2]; unfold s_volume_name; lia.
Qed.

Lemma sb_uuid : slice s_uuid 16 B = uuid.
Proof using Hu Hb.
  rewrite sb_slice_mid by (unfold s_uuid; lia).
  rewrite slice_write_ne by (rewrite ?len_b3, ?blen_zeros; unfold s_last_mounted, s_uuid; lia).
  rewrite slice_write_ne by (rewrite ?len_b2, ?blen_strncpy; unfold s_volume_name, s_uuid; lia).
  rewrite <- Hu at 1. apply slice_write_eq; rewrite ?len_b1, ?Hu; unfold s_uuid; lia.
Qed.

Lemma sb_field_1 f v : (f, v) ∈ fields_1 -> get_field f B = v mod 2 ^ (Z.of_nat f.2 * 8).
Proof using Hu Hb.
  intros Hin. rewrite <- (get_write_fields fields_1 b f v); [|by apply (all_in_buffer _ 1024), fields_1_in|apply fields_1_apart|done].
  assert (Hf : f ∈ fields_1.*1) by (apply list_elem_of_fmap; by exists (f, v)).
  pose proof (proj1 (Forall_forall _ _) fields_1_low f Hf) as Hlow. pose proof (proj1 (Forall_forall _ _) fields_1_in f Hf) as [Hf0 _].
  cbn in Hlow. unfold get_field. f_equal. rewrite sb_slice_mid by lia.
  rewrite slice_write_ne by (rewrite ?len_b3, ?blen_zeros; unfold s_last_mounted; lia).
  rewrite slice_write_ne by (rewrite ?len_b2, ?blen_strncpy; unfold s_volume_name; lia).
  rewrite slice_write_ne by (rewrite ?len_b1, ?Hu; unfold s_uuid; lia). done.
Qed.

Lemma sb_field_2 f v : (f, v) ∈ fields_2 -> get_field f B = v mod 2 ^ (Z.of_nat f.2 * 8).
Proof using Hu Hb. intros Hin. apply get_write_fields; [apply fields_2_b4|apply fields_2_apart|done]. Qed.
End Bytes.

Definition namespace : list byte := bytes_of "extandroid/make_ext4fs".

Lemma fill_superblock_ok s sb b uuid : bufs s !! sb = Some b -> 1024 <= blen b -> generate_uuid ctx namespace (the_label params) = Done uuid -> blen uuid = 16 ->
  fill_superblock params aux ctx sb s = Ok tt (set_buf s sb (sb_bytes uuid b)).
Proof.
  intros Hs Hb Hg Hu. unfold fill_superblock.
  run (set_fields_ok fields_1 s sb b Hs (all_in_buffer _ 1024 _ Hb fields_1_in)).
  fold namespace. rewrite Hg. cbn [lift]. erewrite (bind_Ok (lift (Done uuid))) by reflexivity. cbv beta.
  pose proof (len_b1 b Hb) as L1. pose proof (len_b2 uuid b Hu Hb) as L2. pose proof (len_b3 uuid b Hu Hb) as L3.
  assert (N : forall c, bufs (set_buf s sb c) !! sb = Some c) by (intros; by eapply lookup_set_buf).
  assert (P : forall c off x, off + blen x <= blen c -> poke sb off x (set_buf s sb c) = Ok tt (set_buf s sb (write_at c off x)))
    by (intros c off x Hx; rewrite (poke_ok _ sb c) by done; by rewrite set_buf_twice).
  assert (Z16 : blen (zeros 16) = 16 /\ blen (zeros 64) = 64) by done. destruct Z16 as [Z16 Z64].
  pose proof (blen_strncpy (the_label params) 16 ltac:(lia)) as L16. unfold s_uuid, s_volume_name, s_last_mounted in *.
  erewrite bind_Ok by (apply P; lia). cbv beta. erewrite bind_Ok by (apply P; lia). cbv beta.
  erewrite bind_Ok by (apply P; rewrite blen_write; lia). cbv beta. rewrite write_twice by lia.
  erewrite bind_Ok by (apply P; lia). cbv beta.
  rewrite (set_fields_ok fields_2 _ sb _ (N _)) by apply (fields_2_b4 uuid b Hu Hb). by rewrite set_buf_twice.
Qed.

(** ** Reading the superblock *)

(** The fields that change later: the counts, and the group of a copy. *)
Definition counts (f : fld) : Prop := f = s_free_blocks_count_lo \/ f = s_free_inodes_count \/ f = s_block_group_nr.
#[export] Instance counts_dec f : Decision (counts f).
Proof. unfold counts. apply _. Defined.

(** A buffer with the superblock of the parameters, up to these fields. *)
Record super_for (uuid B : list byte) : Prop := {
  su_len : 1024 <= blen B;
  su_fields : forall f v, (f, v) ∈ fields_1 ++ fields_2 -> ~ counts f -> get_field f B = v mod 2 ^ (Z.of_nat f.2 * 8);
  su_uuid : slice s_uuid 16 B = uuid;
  su_name : slice s_volume_name 16 B = strncpy (the_label params) 16;
  su_mounted : slice s_last_mounted 64 B = zeros 64
}.

Lemma sb_bytes_super uuid b : blen uuid = 16 -> 1024 <= blen b -> super_for uuid (sb_bytes uuid b).
Proof.
  intros Hu Hb. split.
  - by rewrite blen_sb_bytes.
  - intros f v Hin _. apply elem_of_app in Hin as [Hin|Hin]; [by apply sb_field_1|by apply sb_field_2].
  - by apply sb_uuid.
  - by apply sb_name.
  - by apply sb_mounted.
Qed.

(** A write that misses the fields and the three arrays. *)
Definition clear_of_super (off n : Z) : Prop :=
  Forall (fun f : fld => counts f \/ f.1 + Z.of_nat f.2 <= off \/ off + n <= f.1) (fields_1 ++ fields_2).*1 /\ (off + n <= 104 \/ 200 <= off).

Lemma super_write uuid B off d : super_for uuid B -> 0 <= off -> off + blen d <= blen B -> clear_of_super off (blen d) -> super_for uuid (write_at B off d).
Proof.
  intros [S1 S2 S3 S4 S5] H0 H1 [Hf Ha]. unfold s_uuid, s_volume_name, s_last_mounted in *. split.
  - by rewrite blen_write.
  - intros f v Hin Hc. rewrite <- (S2 f v Hin Hc). unfold get_field. f_equal. rewrite Forall_forall in Hf.
    assert (Hff : f ∈ (fields_1 ++ fields_2).*1) by (apply list_elem_of_fmap; by exists (f, v)). specialize (Hf f Hff).
    assert (Hall : Forall (in_buffer 1024) (fields_1 ++ fields_2).*1) by (rewrite fmap_app; apply Forall_app; split; [apply fields_1_in|apply fields_2_in]).
    destruct (proj1 (Forall_forall _ _) Hall f Hff) as [Hf0 _]. destruct Hf as [?|?]; [done|]. apply slice_write_ne; lia.
  - rewrite <- S3. unfold s_uuid. apply slice_write_ne; lia.
  - rewrite <- S4. unfold s_volume_name. apply slice_write_ne; lia.
  - rewrite <- S5. unfold s_last_mounted. apply slice_write_ne; lia.
Qed.

Lemma counts_clear : clear_of_super 12 4 /\ clear_of_super 16 4 /\ clear_of_super 90 2 /\ clear_of_super s_jnl_blocks 60.
Proof. unfold clear_of_super, sb_fields_2. destruct (negb _); apply (bool_decide_unpack _); by compute. Qed.

(** Parameters whose fields hold their values: a block size that is a power of
    two, numbers that fit, a label without NUL. *)
Record super_params : Prop := {
  sp_bs : exists k, 0 <= k <= 6 /\ bs = 1024 * 2 ^ k;
  sp_bpg : is_u32 (blocks_per_group info);
  sp_ipg : is_u32 (inodes_per_group info);
  sp_inodes : 0 <= inodes_per_group info * groups aux < 2 ^ 32;
  sp_isize : is_u16 (inode_size info);
  sp_reserve : is_u16 (bg_desc_reserve_blocks info);
  sp_feat : is_u16 (feat_ro_compat info) /\ is_u16 (feat_compat params) /\ is_u16 (feat_incompat params);
  sp_blocks : 0 <= len_blocks aux < 2 ^ 46;
  sp_label : Forall (fun c => c <> Init.Byte.x00) (the_label params)
}.

Lemma log_2_pow k : 0 <= k <= 6 -> log_2 (1024 * 2 ^ k / 1024) = k.
Proof.
  intros Hk. rewrite Z.mul_comm, Z.div_mul by lia.
  assert (k = 0 \/ k = 1 \/ k = 2 \/ k = 3 \/ k = 4 \/ k = 5 \/ k = 6) as Hc by lia. repeat destruct Hc as [->|Hc]; try reflexivity. by subst.
Qed.

(** The name is the first sixteen bytes of the label. *)
Lemma super_name uuid B : super_for uuid B -> super_params -> cstr (slice s_volume_name 1000 (take 1024 B)) = take 16 (the_label params).
Proof.
  intros HB HP. pose proof (su_len _ _ HB) as Hl. pose proof (sp_label HP) as Hlab. set (lab := the_label params) in *.
  assert (Hs : slice s_volume_name 1000 (take 1024 B) = slice s_volume_name 16 B ++ slice s_last_mounted 64 B ++ slice 200 824 B).
  { pose proof (slice_add 136 64 824 B ltac:(lia) ltac:(lia) ltac:(lia)) as H1. pose proof (slice_add 120 16 (64 + 824) B ltac:(lia) ltac:(lia) ltac:(lia)) as H2.
    unfold s_volume_name, s_last_mounted. change (136 + 64) with 200 in H1. change (120 + 16) with 136 in H2. rewrite <- H1, <- H2.
    unfold slice. rewrite skipn_firstn_comm, take_take. f_equal. }
  rewrite Hs, (su_name _ _ HB), (su_mounted _ _ HB). fold lab. unfold strncpy.
  assert (Hz : exists r, zeros (16 - blen lab) ++ zeros 64 ++ slice 200 824 B = Init.Byte.x00 :: r).
  { destruct (Z.le_gt_cases (16 - blen lab) 0) as [Hle|Hgt]; [rewrite (zeros_nil (16 - blen lab)) by lia; by eexists|].
    replace (16 - blen lab) with (1 + (16 - blen lab - 1)) by lia. rewrite zeros_add by lia. by eexists. }
  destruct Hz as [r Hz]. rewrite <- app_assoc, Hz. apply cstr_app_nul. by apply Forall_take.
Qed.

Lemma get_field_take f B n : in_buffer (Z.of_nat n) f -> get_field f (take n B) = get_field f B.
Proof. intros [H0 H1]. unfold get_field, slice. rewrite skipn_firstn_comm, take_take. do 2 f_equal. lia. Qed.

(** The parameters a reader gets. *)
Definition params_read (p : fs_parameters) : fs_parameters :=
  mk_params (mk_info (bs * len_blocks aux) bs (blocks_per_group info) (inodes_per_group info) (inode_size info) (feat_ro_compat info)
               (bg_desc_reserve_blocks info))
    (inodes_per_group info * groups aux) (journal_blocks p) (feat_compat params) (feat_incompat params)
    (Some (take 16 (the_label params))) (no_journal p).

(** The fields a reader uses, with the values it finds. *)
Definition read_1 : list (fld * Z) :=
  [(s_magic, EXT4_SUPER_MAGIC); (s_state, EXT4_VALID_FS); (s_log_block_size, u32 (log_2 (bs / 1024)));
   (s_blocks_per_group, blocks_per_group info); (s_inodes_per_group, inodes_per_group info); (s_inode_size, u16 (inode_size info));
   (s_feature_ro_compat, feat_ro_compat info); (s_inodes_count, u32 (inodes_per_group info * groups aux));
   (s_feature_compat, feat_compat params); (s_feature_incompat, feat_incompat params); (s_blocks_count_lo, u32 (len_blocks aux))].
Definition read_2 : list (fld * Z) :=
  [(s_blocks_count_hi, u32 (Z.shiftr (len_blocks aux) 32)); (s_reserved_gdt_blocks, u16 (bg_desc_reserve_blocks info))].

Lemma read_written f v : (f, v) ∈ read_1 ++ read_2 -> (f, v) ∈ fields_1 ++ fields_2.
Proof.
  assert (H1 : Forall (fun e => e ∈ fields_1) read_1) by (repeat constructor; pick).
  assert (H2 : Forall (fun e => e ∈ fields_2) read_2).
  { unfold sb_fields_2. apply Forall_cons_2; [|apply Forall_cons_2; [|apply Forall_nil_2]]; rewrite !elem_of_app.
    - right. right. pick.
    - left. pick. }
  rewrite Forall_forall in H1, H2. rewrite !elem_of_app. intros [H|H]; [left; by apply H1|right; by apply H2].
Qed.

Lemma read_range : super_params -> Forall (fun e : fld * Z => ~ counts e.1 /\ in_buffer 1024 e.1 /\ 0 <= e.2 < 2 ^ (Z.of_nat e.1.2 * 8)) (read_1 ++ read_2).
Proof.
  intros [(k & Hk & Hbs) Hb Hi Hn Hs Hr (F1 & F2 & F3) Hl _]. unfold is_u32, is_u16 in *.
  unfold read_1, read_2. cbn [app]. rewrite Hbs, log_2_pow by done. rewrite !Forall_cons.
  pose proof (Z.mod_pos_bound (len_blocks aux) (2 ^ 32) ltac:(lia)). pose proof (Z.mod_pos_bound (Z.shiftr (len_blocks aux) 32) (2 ^ 32) ltac:(lia)).
  pose proof (Z.mod_pos_bound (bg_desc_reserve_blocks info) (2 ^ 16) ltac:(lia)). pose proof (Z.mod_pos_bound (inode_size info) (2 ^ 16) ltac:(lia)).
  pose proof (Z.mod_pos_bound (inodes_per_group info * groups aux) (2 ^ 32) ltac:(lia)). pose proof (Z.mod_pos_bound k (2 ^ 32) ltac:(lia)).
  unfold u32, u16, in_buffer, counts. cbn.
  split_and!; try done; try lia; intros [Hc|[Hc|Hc]]; discriminate Hc.
Qed.

(** The superblock parses back to the parameters. *)
Lemma super_parses uuid B p : super_for uuid B -> super_params -> ext4_parse_sb p (take 1024 B) = Some (params_read p).
Proof.
  intros HB HP. pose proof (read_range HP) as Hall. rewrite Forall_forall in Hall.
  assert (V : forall f v, (f, v) ∈ read_1 ++ read_2 -> get_field f (take 1024 B) = v).
  { intros f v Hin. destruct (Hall _ Hin) as (Hc & Hf & Hv). cbn [fst snd] in *. rewrite get_field_take by done.
    rewrite (su_fields _ _ HB f v (read_written f v Hin) Hc). by apply Z.mod_small. }
  assert (V' : forall e, e ∈ read_1 ++ read_2 -> get_field e.1 (take 1024 B) = e.2) by (intros [f v]; apply V).
  rewrite <- Forall_forall in V'. unfold read_1, read_2 in V'. cbn [app] in V'.   apply Forall_cons_1 in V' as [V1 V'], V' as [V2 V'], V' as [V3 V'], V' as [V4 V'], V' as [V5 V'], V' as [V6 V'], V' as [V7 V'],
    V' as [V8 V'], V' as [V9 V'], V' as [V10 V'], V' as [V11 V'], V' as [V12 V'], V' as [V13 _]. cbn [fst snd] in *.
  unfold ext4_parse_sb. rewrite V1, V2, V3, V4, V5, V6, V7, V8, V9, V10, V11, V12, V13, (super_name uuid B HB HP).
  destruct HP as [(k & Hk & Hbs) Hb Hi Hn Hs Hr (F1 & F2 & F3) Hl _]. change (negb (EXT4_SUPER_MAGIC =? EXT4_SUPER_MAGIC)) with false.
  change (negb (Z.land EXT4_VALID_FS EXT4_VALID_FS =? EXT4_VALID_FS)) with false. cbv iota. f_equal. unfold params_read.
  assert (Hp : 2 ^ k <= 2 ^ 6) by (apply Z.pow_le_mono_r; lia). pose proof (Z.pow_pos_nonneg 2 k ltac:(lia) ltac:(lia)).
  assert (E1 : u32 (Z.shiftl 1024 (u32 (log_2 (bs / 1024)))) = bs).
  { rewrite Hbs at 1. rewrite log_2_pow, (u32_small k), Z.shiftl_mul_pow2 by (unfold is_u32; lia). rewrite <- Hbs. apply u32_small. unfold is_u32. lia. }
  assert (E2 : u64 (Z.shiftl (u32 (Z.shiftr (len_blocks aux) 32)) 32 + u32 (len_blocks aux)) = len_blocks aux).
  { rewrite Z.shiftr_div_pow2 by lia. rewrite (u32_small (_ / _)) by (unfold is_u32; split; [apply Z.div_pos; lia|apply Z.div_lt_upper_bound; lia]).
    unfold u32. rewrite Z.shiftl_mul_pow2 by lia. pose proof (Z.div_mod (len_blocks aux) (2 ^ 32) ltac:(lia)).
    replace (len_blocks aux / 2 ^ 32 * 2 ^ 32 + len_blocks aux mod 2 ^ 32) with (len_blocks aux) by lia. apply u64_small. lia. }
  rewrite E1, E2. unfold is_u32, is_u16 in *.
  assert (E3 : s64 (u64 (bs * len_blocks aux)) = bs * len_blocks aux).
  { rewrite (u64_small (bs * len_blocks aux)) by nia. unfold s64. rewrite Z.mod_small by nia. destruct (Z.ltb_spec (bs * len_blocks aux) (2 ^ 63)); [done|nia]. }
  rewrite E3. unfold u16, u32. by rewrite !Z.mod_small by lia.
Qed.
End SuperBlock.

(** ** The descriptors *)

Section Descriptors.
Context (force : bool) (params : fs_parameters) (aux : fs_aux_info).
Abbreviation info := (p_info params).
Abbreviation bs := (block_size info).
Context (Hge : geometry info aux) (Hla : layout info aux).
Context (Hroom : sizeof_group_desc * groups aux <= bs * bg_desc_blocks aux < 2 ^ 32).

(** Blocks of the superblock copy and the descriptors in front of a group. *)
Definition front (g : Z) : Z := if ext4_bg_has_super_block info g then super_blocks info aux else 0.
Abbreviation start g := (group_start info aux g).

Lemma front_range g : 0 <= g < groups aux -> 0 <= start g /\ 0 <= front g /\ front g + 2 <= blocks_per_group info /\ start g + blocks_per_group info < 2 ^ 32.
Proof using Hge Hla.
  intros Hg. pose proof (la_header _ _ Hla g Hg) as Hh. pose proof (ge_end _ _ Hge). pose proof (ge_bpg _ _ Hge). pose proof (ge_first _ _ Hge).
  pose proof (la_tables _ _ Hla). pose proof (la_super _ _ Hla). unfold group_size, header, front, group_start in *.
  split; [nia|]. destruct (ext4_bg_has_super_block info g); nia.
Qed.

(** What is written for a group, and what is queued: the copy [b] of the
    superblock, if the group is not the first, and the descriptors. *)
Definition group_fields (B : list byte) (g : Z) : list (fld * Z) :=
  [(desc g bg_block_bitmap, start g + front g); (desc g bg_inode_bitmap, start g + front g + 1);
   (desc g bg_inode_table, start g + front g + 2); (desc g bg_free_blocks_count, u16 (get_field s_blocks_per_group B));
   (desc g bg_free_inodes_count, u16 (get_field s_inodes_per_group B)); (desc g bg_used_dirs_count, 0)].

Definition table_queued (bg_desc : nat) (g : Z) : queued := QData (Buf bg_desc) 0 (bs * bg_desc_blocks aux) (start g + 1).

Record group_filled (sb bg_desc : nat) (B D : list byte) (g : Z) (s s' : fs) : Prop := {
  gf_rest : bgs s' = bgs s /\ heap s' = heap s /\ xattrs s' = xattrs s /\ inodes s' = inodes s;
  gf_sb : bufs s' !! sb = Some B;
  gf_desc : bufs s' !! bg_desc = Some (write_fields D (group_fields B g));
  gf_bufs : forall n d, n <> bg_desc -> bufs s !! n = Some d -> bufs s' !! n = Some d;
  gf_queue : exists q, ext4_sparse_file s' = ext4_sparse_file s ++ q /\
    forall e, e ∈ q -> ext4_bg_has_super_block info g = true /\ (queued_block e = start g \/ queued_block e = start g + 1) /\ exists k, (piece e).1.1.1 = inl (Buf k);
  gf_table : ext4_bg_has_super_block info g = true -> table_queued bg_desc g ∈ ext4_sparse_file s';
  gf_backup : ext4_bg_has_super_block info g = true -> g <> 0 ->
    exists b, b <> sb /\ b <> bg_desc /\ QData (Buf b) 0 bs (start g) ∈ ext4_sparse_file s' /\ bufs s' !! b = Some (write_field B s_block_group_nr (u16 g))
}.

Lemma group_fields_in (B D : list byte) g : 0 <= g < groups aux -> blen D = bs * bg_desc_blocks aux -> Forall (fun e => in_buffer (blen D) e.1) (group_fields B g).
Proof using Hroom.
  intros Hg HD. unfold sizeof_group_desc in *. unfold group_fields, in_buffer, desc, sizeof_group_desc. rewrite !Forall_cons. cbn.
  split_and!; try lia. constructor.
Qed.

(** The copy of the superblock. *)
Lemma backup_ok s sb B g : bufs s !! sb = Some B -> blen B = bs -> 1024 <= bs ->
  (b ← calloc bs; content ← peek sb 0 bs; _ ← poke b 0 content; _ ← set_field b s_block_group_nr (u16 g);
   _ ← queue (QData (Buf b) 0 bs (start g)); mret (Some b)) s =
  Ok (Some (length (bufs s))) (mk_fs (bgs s) (heap s) (ext4_sparse_file s ++ [QData (Buf (length (bufs s))) 0 bs (start g)]) (xattrs s) (inodes s)
    (bufs s ++ [write_field B s_block_group_nr (u16 g)])).
Proof.
  intros Hs HB H1. set (b := length (bufs s)).
  set (s1 := mk_fs (bgs s) (heap s) (ext4_sparse_file s) (xattrs s) (inodes s) (bufs s ++ [zeros bs])).
  erewrite (bind_Ok (calloc bs) _ s b s1) by reflexivity. cbv beta.
  assert (Hs1 : bufs s1 !! sb = Some B) by (cbn; by apply lookup_app_l_Some). rewrite <- HB at 1.
  run (peek_slice s1 sb B 0 (blen B) Hs1 ltac:(lia) ltac:(lia)). rewrite slice_all.
  assert (Hb : bufs s1 !! b = Some (zeros bs)) by (cbn; by apply list_lookup_middle).
  assert (Hz : blen (zeros bs) = blen B) by (rewrite blen_zeros; lia).
  run (poke_ok s1 b (zeros bs) 0 B Hb ltac:(lia)).
  assert (Hw : write_at (zeros bs) 0 B = B).
  { rewrite write_inside by lia. rewrite Z.add_0_l, drop_ge, app_nil_r; [done|]. unfold blen in *. lia. }
  rewrite Hw. pose proof (lookup_set_buf s1 b _ B Hb) as Hb2.
  run (set_field_ok (set_buf s1 b B) b B s_block_group_nr (u16 g) Hb2 ltac:(unfold in_buffer, s_block_group_nr; cbn; lia)).
  rewrite set_buf_twice. unfold mbind, fsM_bind, queue, mret, fsM_ret, set_buf, s1. cbn. do 2 f_equal.
  unfold b. by rewrite insert_app_r_alt, Nat.sub_diag.
Qed.

Lemma elem_of_snoc {A} (x : A) l : x ∈ l ++ [x].
Proof. apply elem_of_app. right. by left. Qed.

(** The queueing part of a group. *)
Definition group_copies (sb bg_desc : nat) (i : Z) : fsM (option nat * Z) :=
  if ext4_bg_has_super_block info (s32 i) then
    backup ← (if negb (i =? 0) then
                b ← calloc bs;
                content ← peek sb 0 bs;
                _ ← poke b 0 content;
                _ ← set_field b s_block_group_nr (u16 i);
                _ ← queue (QData (Buf b) 0 bs (u32 (first_data_block aux + i * blocks_per_group info)));
                mret (Some b)
              else mret None);
    _ ← queue (QData (Buf bg_desc) 0 (u32 (bg_desc_blocks aux * bs)) (u32 (u32 (first_data_block aux + i * blocks_per_group info) + 1)));
    mret (backup, u32 (1 + bg_desc_blocks aux + bg_desc_reserve_blocks info))
  else mret (None, 0).

(** The state with buffers and calls added. *)
Definition extended (s : fs) (q : list queued) (bl : list (list byte)) : fs :=
  mk_fs (bgs s) (heap s) (ext4_sparse_file s ++ q) (xattrs s) (inodes s) (bufs s ++ bl).

Lemma group_copies_ok s sb bg_desc B g : bufs s !! sb = Some B -> blen B = bs -> 1024 <= bs -> 0 <= g < groups aux ->
  exists backup q bl, group_copies sb bg_desc g s = Ok (backup, front g) (extended s q bl) /\
    (forall e, e ∈ q -> ext4_bg_has_super_block info g = true /\ (queued_block e = start g \/ queued_block e = start g + 1) /\ exists k, (piece e).1.1.1 = inl (Buf k)) /\
    (ext4_bg_has_super_block info g = true -> table_queued bg_desc g ∈ q) /\
    (ext4_bg_has_super_block info g = true -> g <> 0 -> bl = [write_field B s_block_group_nr (u16 g)] /\ QData (Buf (length (bufs s))) 0 bs (start g) ∈ q).
Proof using Hge Hla Hroom.
  intros Hs HB H1 Hg. pose proof (front_range g Hg) as (F1 & F2 & F3 & F4). pose proof (ge_groups _ _ Hge). pose proof (ge_bpg _ _ Hge).
  unfold sizeof_group_desc in Hroom. unfold group_copies. rewrite (s32_small g) by lia. fold (start g). rewrite (u32_small (start g)) by (unfold is_u32; lia).
  rewrite (u32_small (start g + 1)) by (unfold is_u32; lia). rewrite (u32_small (bg_desc_blocks aux * bs)) by (unfold is_u32; lia).
  rewrite (Z.mul_comm (bg_desc_blocks aux)). fold (table_queued bg_desc g). unfold front in *. destruct (ext4_bg_has_super_block info g) eqn:Hsup.
  2: { exists None, [], []. unfold extended. rewrite !app_nil_r. destruct s. split_and!; try done. by intros e He%not_elem_of_nil. }
  fold (super_blocks info aux). rewrite (u32_small (super_blocks info aux)) by (unfold is_u32; lia).
  destruct (Z.eqb_spec g 0) as [->|Hne]; cbn [negb].
  - erewrite (bind_Ok (mret None)) by reflexivity. cbv beta. eexists None, [table_queued bg_desc 0], []. split_and!.
    + unfold mbind, fsM_bind, queue, mret, fsM_ret, extended. by rewrite app_nil_r.
    + intros e He. apply list_elem_of_singleton in He as ->. split_and!; [done|by right|by eexists].
    + intros _. by left.
    + done.
  - run (backup_ok s sb B g Hs HB H1).
    eexists (Some (length (bufs s))), ([QData (Buf (length (bufs s))) 0 bs (start g)] ++ [table_queued bg_desc g]), [write_field B s_block_group_nr (u16 g)]. split_and!.
    + unfold mbind, fsM_bind, queue, mret, fsM_ret, extended. cbn. by rewrite <- app_assoc.
    + intros e He. apply elem_of_app in He as [He|He]; apply list_elem_of_singleton in He as ->; (split_and!; [done| |by eexists]); [by left|by right].
    + intros _. apply elem_of_snoc.
    + intros _ _. split; [done|]. by left.
Qed.

Lemma fill_group_ok s sb bg_desc B (D : list byte) g : bufs s !! sb = Some B -> blen B = bs -> 1024 <= bs -> bufs s !! bg_desc = Some D -> blen D = bs * bg_desc_blocks aux ->
  sb <> bg_desc -> 0 <= g < groups aux -> exists backup s', fill_group params aux sb bg_desc g s = Ok backup s' /\ group_filled sb bg_desc B D g s s'.
Proof using Hge Hla Hroom.
  intros Hs HB H1 Hd HD Hne Hg. pose proof (front_range g Hg) as (F1 & F2 & F3 & F4). pose proof (ge_bpg _ _ Hge).
  destruct (group_copies_ok s sb bg_desc B g Hs HB H1 Hg) as (backup & q & bl & Hr & Hq & Ht & Hb).
  set (s1 := extended s q bl) in *. unfold fill_group. fold (group_copies sb bg_desc g). run Hr.
  assert (K : forall n d, bufs s !! n = Some d -> bufs s1 !! n = Some d) by (intros n d Hn; cbn; by apply lookup_app_l_Some).
  run (read_field_ok s1 sb B s_blocks_per_group (K _ _ Hs) ltac:(unfold in_buffer, s_blocks_per_group; cbn; lia)).
  run (read_field_ok s1 sb B s_inodes_per_group (K _ _ Hs) ltac:(unfold in_buffer, s_inodes_per_group; cbn; lia)).
  fold (start g). rewrite (u32_small (start g)) by (unfold is_u32; lia). rewrite !u32_small by (unfold is_u32; lia).
  change (set_fields bg_desc _) with (set_fields bg_desc (group_fields B g)).
  run (set_fields_ok (group_fields B g) s1 bg_desc D (K _ _ Hd) (group_fields_in B D g Hg HD)). eexists backup, _. split; [reflexivity|].
  set (s' := set_buf s1 bg_desc (write_fields D (group_fields B g))).
  assert (Hlt : (bg_desc < length (bufs s))%nat) by (by apply lookup_lt_Some in Hd). split.
  - done.
  - unfold s'. rewrite lookup_set_buf_ne by done. by apply K.
  - unfold s'. by apply (lookup_set_buf s1 bg_desc D), K.
  - intros n d Hn Hnd. unfold s'. rewrite lookup_set_buf_ne by done. by apply K.
  - exists q. by split.
  - intros Hsup. cbn. apply elem_of_app. right. by apply Ht.
  - intros Hsup Hg0. destruct (Hb Hsup Hg0) as [-> Hin]. assert (Hls : (sb < length (bufs s))%nat) by (by apply lookup_lt_Some in Hs). exists (length (bufs s)). split; [lia|]. split; [lia|]. split; [cbn; apply elem_of_app; by right|].
    unfold s'. rewrite lookup_set_buf_ne by lia. cbn. by apply list_lookup_middle.
Qed.

(** What the descriptor of a group says of its blocks. *)
Definition positions (D : list byte) (g : Z) : Prop :=
  get_field (desc g bg_block_bitmap) D = start g + front g /\ get_field (desc g bg_inode_bitmap) D = start g + front g + 1 /\
  get_field (desc g bg_inode_table) D = start g + front g + 2 /\ get_field (desc g bg_used_dirs_count) D = 0.

Lemma desc_apart g h f k : g <> h -> 0 <= f.1 -> f.1 + Z.of_nat f.2 <= 32 -> 0 <= k.1 -> k.1 + Z.of_nat k.2 <= 32 -> apart (desc g f) (desc h k).
Proof. unfold apart, desc, sizeof_group_desc. cbn. lia. Qed.

Lemma positions_written B D g : 0 <= g < groups aux -> blen D = bs * bg_desc_blocks aux -> positions (write_fields D (group_fields B g)) g.
Proof using Hge Hla Hroom.
  intros Hg HD. pose proof (front_range g Hg) as (F1 & F2 & F3 & F4). pose proof (group_fields_in B D g Hg HD) as Hin.
  assert (Ha : all_apart (group_fields B g).*1).
  { unfold group_fields, desc, apart, sizeof_group_desc. cbn. unfold apart. rewrite !Forall_cons, !Forall_nil. cbn. lia. }
  pose proof (ge_bpg _ _ Hge).
  split_and!; erewrite (get_write_fields (group_fields B g) D) by (try exact Hin; try exact Ha; unfold group_fields; pick);
    cbn [desc snd bg_block_bitmap bg_inode_bitmap bg_inode_table bg_used_dirs_count]; apply Z.mod_small; lia.
Qed.

Lemma positions_other B D g h : g <> h -> 0 <= g -> 0 <= h < groups aux -> blen D = bs * bg_desc_blocks aux ->
  positions D g -> positions (write_fields D (group_fields B h)) g.
Proof using Hge Hla Hroom.
  intros Hne Hg0 Hh HD (P1 & P2 & P3 & P4). pose proof (group_fields_in B D h Hh HD) as Hin.
  assert (Ho : forall f, 0 <= f.1 -> f.1 + Z.of_nat f.2 <= 32 -> get_field (desc g f) (write_fields D (group_fields B h)) = get_field (desc g f) D).
  { intros f Hf0 Hf1. apply get_write_fields_other; [done|unfold desc, sizeof_group_desc; cbn; lia|].
    unfold group_fields. rewrite !Forall_cons, Forall_nil. cbn [fst]. split_and!; try done; apply desc_apart; cbn; lia. }
  split_and!; rewrite Ho by (cbn; lia); done.
Qed.

(** The image after the first [n] groups. *)
Record groups_filled (sb bg_desc : nat) (B : list byte) (n : nat) (s s' : fs) : Prop := {
  gs_rest : bgs s' = bgs s /\ heap s' = heap s /\ xattrs s' = xattrs s /\ inodes s' = inodes s;
  gs_sb : bufs s' !! sb = Some B;
  gs_desc : exists D, bufs s' !! bg_desc = Some D /\ blen D = bs * bg_desc_blocks aux /\ forall g, 0 <= g < Z.of_nat n -> positions D g;
  gs_bufs : forall k d, k <> bg_desc -> bufs s !! k = Some d -> bufs s' !! k = Some d;
  gs_queue : exists q, ext4_sparse_file s' = ext4_sparse_file s ++ q /\
    forall e, e ∈ q -> exists g, 0 <= g < Z.of_nat n /\ ext4_bg_has_super_block info g = true /\ (queued_block e = start g \/ queued_block e = start g + 1) /\
      exists k, (piece e).1.1.1 = inl (Buf k);
  gs_table : forall g, 0 <= g < Z.of_nat n -> ext4_bg_has_super_block info g = true -> table_queued bg_desc g ∈ ext4_sparse_file s';
  gs_backup : forall g, 0 < g < Z.of_nat n -> ext4_bg_has_super_block info g = true ->
    exists b, b <> sb /\ b <> bg_desc /\ QData (Buf b) 0 bs (start g) ∈ ext4_sparse_file s' /\ bufs s' !! b = Some (write_field B s_block_group_nr (u16 g))
}.

Lemma groups_filled_step sb bg_desc B n s s1 D s2 : groups_filled sb bg_desc B n s s1 -> bufs s1 !! bg_desc = Some D -> blen D = bs * bg_desc_blocks aux ->
  (forall g, 0 <= g < Z.of_nat n -> positions D g) -> Z.of_nat n < groups aux -> group_filled sb bg_desc B D (Z.of_nat n) s1 s2 ->
  groups_filled sb bg_desc B (S n) s s2.
Proof using Hge Hla Hroom.
  intros [(R1 & R2 & R3 & R4) A1 _ A3 (q & A4 & A4') A5 A6] Hd HD Hpos Hn [(S1 & S2 & S3 & S4) B1 B2 B3 (r & B4 & B4') B5 B6].
  assert (Hsplit : forall g, 0 <= g < Z.of_nat (S n) -> g = Z.of_nat n \/ 0 <= g < Z.of_nat n) by lia. split.
  - split_and!; congruence.
  - done.
  - eexists. split; [exact B2|]. split; [rewrite blen_write_fields; [done|]; apply group_fields_in; [lia|done]|].
    intros g Hg. destruct (Hsplit g Hg) as [->|Hg']; [apply positions_written; [lia|done]|]. apply positions_other; [lia|lia|lia|done|by apply Hpos].
  - intros k d Hk Hkd. by apply B3, A3.
  - exists (q ++ r). split; [by rewrite B4, A4, app_assoc|]. intros e He. apply elem_of_app in He as [He|He].
    + destruct (A4' e He) as (g & Hg & Hx). exists g. split; [lia|done].
    + exists (Z.of_nat n). split; [lia|]. by apply B4'.
  - intros g Hg Hsup. destruct (Hsplit g Hg) as [->|Hg']; [by apply B5|]. rewrite B4. apply elem_of_app. left. by apply A5.
  - intros g Hg Hsup. destruct (Hsplit g ltac:(lia)) as [->|Hg'].
    + apply B6; [done|lia].
    + destruct (A6 g ltac:(lia) Hsup) as (b & Hb0 & Hb & Hin & Hc). exists b. split; [done|]. split; [done|]. split; [rewrite B4; apply elem_of_app; by left|]. by apply B3.
Qed.

Lemma fill_groups_ok sb bg_desc B k : forall n s s1, sb <> bg_desc -> blen B = bs -> 1024 <= bs -> (n + k = Z.to_nat (groups aux))%nat ->
  groups_filled sb bg_desc B n s s1 ->
  exists backups s', fill_groups params aux sb bg_desc (seq n k) s1 = Ok backups s' /\ groups_filled sb bg_desc B (Z.to_nat (groups aux)) s s'.
Proof using Hge Hla Hroom.
  induction k as [|k IH]; intros n s s1 Hne HB H1 Hnk Hf; cbn [seq fill_groups].
  { rewrite Nat.add_0_r in Hnk. subst n. by exists [], s1. }
  destruct (gs_desc _ _ _ _ _ _ Hf) as (D & Hd & HD & Hpos).
  destruct (fill_group_ok s1 sb bg_desc B D (Z.of_nat n) (gs_sb _ _ _ _ _ _ Hf) HB H1 Hd HD Hne ltac:(lia)) as (b & s2 & Hr & Hg). run Hr.
  destruct (IH (S n) s s2 Hne HB H1 ltac:(lia)) as (bl & s' & Hrun & Hf').
  - apply (groups_filled_step sb bg_desc B n s s1 D s2); try done. lia.
  - run Hrun. by exists (b :: bl), s'.
Qed.

(** ** Free counts and checksums *)

(** A finished descriptor: where the bitmaps and the inode table of the group
    are, its counts, and a checksum over the identifier of the file system, the
    number of the group and the other fields. *)
Record descriptor_ok (uuid : list byte) (D : list byte) (g : Z) (bg : block_group_info) : Prop := {
  dk_bitmap : get_field (desc g bg_block_bitmap) D = start g + front g;
  dk_inodes : get_field (desc g bg_inode_bitmap) D = start g + front g + 1;
  dk_table : get_field (desc g bg_inode_table) D = start g + front g + 2;
  dk_free_blocks : get_field (desc g bg_free_blocks_count) D = u16 (bg_free_blocks bg);
  dk_free_inodes : get_field (desc g bg_free_inodes_count) D = u16 (bg_free_inodes bg);
  dk_dirs : get_field (desc g bg_used_dirs_count) D = u16 (used_dirs bg);
  dk_flags : get_field (desc g bg_flags_field) D = u16 (bg_flags bg);
  dk_checksum : get_field (desc g bg_checksum) D = desc_checksum uuid g (slice (sizeof_group_desc * g) 30 D)
}.

Definition desc_fields (D : list byte) (g : Z) (bg : block_group_info) : list (fld * Z) :=
  [(desc g bg_free_blocks_count, u16 (bg_free_blocks bg)); (desc g bg_free_inodes_count, u16 (bg_free_inodes bg));
   (desc g bg_used_dirs_count, get_field (desc g bg_used_dirs_count) D + used_dirs bg); (desc g bg_flags_field, bg_flags bg)].

(** The descriptor table after group [g]. *)
Definition desc_updated (uuid D : list byte) (g : Z) (bg : block_group_info) : list byte :=
  let D' := write_fields D (desc_fields D g bg) in
  write_field D' (desc g bg_checksum) (desc_checksum uuid g (slice (sizeof_group_desc * g) 30 D')).

Lemma desc_checksum_range uuid g d : is_u16 (desc_checksum uuid g d).
Proof. unfold desc_checksum. repeat apply ext4_crc16_range. unfold is_u16. lia. Qed.

Lemma desc_in (D : list byte) g f : 0 <= g < groups aux -> blen D = bs * bg_desc_blocks aux -> 0 <= f.1 -> f.1 + Z.of_nat f.2 <= 32 -> in_buffer (blen D) (desc g f).
Proof using Hroom. intros Hg HD H0 H1. unfold in_buffer, desc, sizeof_group_desc in *. cbn. lia. Qed.

Lemma desc_fields_in (D : list byte) g bg : 0 <= g < groups aux -> blen D = bs * bg_desc_blocks aux -> Forall (fun e => in_buffer (blen D) e.1) (desc_fields D g bg).
Proof using Hroom. intros Hg HD. unfold desc_fields. rewrite !Forall_cons, Forall_nil. split_and!; try done; cbn [fst]; apply desc_in; done. Qed.

Lemma blen_desc_updated uuid (D : list byte) g bg : 0 <= g < groups aux -> blen D = bs * bg_desc_blocks aux -> blen (desc_updated uuid D g bg) = blen D.
Proof using Hroom.
  intros Hg HD. unfold desc_updated. pose proof (blen_write_fields _ D (desc_fields_in D g bg Hg HD)) as Hl.
  rewrite blen_write_field, Hl; [done|]. apply desc_in; [done|congruence|done|done].
Qed.

Lemma get_desc_updated uuid (D : list byte) g bg f : 0 <= g < groups aux -> blen D = bs * bg_desc_blocks aux ->
  f = bg_block_bitmap \/ f = bg_inode_bitmap \/ f = bg_inode_table -> get_field (desc g f) (desc_updated uuid D g bg) = get_field (desc g f) D.
Proof using Hroom.
  intros Hg HD Hf. unfold desc_updated. pose proof (desc_fields_in D g bg Hg HD) as Hin. pose proof (blen_write_fields _ D Hin) as Hl.
  assert (H0 : 0 <= (desc g f).1) by (unfold desc, sizeof_group_desc; destruct Hf as [->|[->| ->]]; cbn; lia).
  rewrite get_write_other; [|apply desc_in; [done|congruence|done|done]|done|destruct Hf as [->|[->| ->]]; unfold apart, desc; cbn; lia].
  apply get_write_fields_other; [done|done|]. unfold desc_fields. rewrite !Forall_cons, Forall_nil. unfold apart, desc.
  destruct Hf as [->|[->| ->]]; cbn; lia.
Qed.

Lemma descriptor_updated uuid (D : list byte) g bg : 0 <= g < groups aux -> blen D = bs * bg_desc_blocks aux -> positions D g -> descriptor_ok uuid (desc_updated uuid D g bg) g bg.
Proof using Hroom.
  intros Hg HD (P1 & P2 & P3 & P4). pose proof (desc_fields_in D g bg Hg HD) as Hin. pose proof (blen_write_fields _ D Hin) as Hl.
  assert (Hck : in_buffer (blen (write_fields D (desc_fields D g bg))) (desc g bg_checksum)) by (apply desc_in; [done|congruence|done|done]).
  assert (Ha : all_apart (desc_fields D g bg).*1) by (unfold desc_fields; cbn; rewrite !Forall_cons, !Forall_nil; unfold apart, desc; cbn; lia).
  assert (F : forall f v, (desc g f, v) ∈ desc_fields D g bg -> 0 <= f.1 -> f.1 + Z.of_nat f.2 <= 30 ->
    get_field (desc g f) (desc_updated uuid D g bg) = v mod 2 ^ (Z.of_nat f.2 * 8)).
  { intros f v Hv H0 H1. unfold desc_updated. rewrite get_write_other; [by apply (get_write_fields _ D (desc g f))|done|unfold desc, sizeof_group_desc; cbn; lia|].
    unfold apart, desc. cbn. lia. }
  split.
  - rewrite get_desc_updated by auto. done.
  - rewrite get_desc_updated by auto. done.
  - rewrite get_desc_updated by auto. done.
  - rewrite (F bg_free_blocks_count (u16 (bg_free_blocks bg))); [|unfold desc_fields; pick|done|done].
    unfold u16. cbn. by rewrite Z.mod_mod.
  - rewrite (F bg_free_inodes_count (u16 (bg_free_inodes bg))); [|unfold desc_fields; pick|done|done].
    unfold u16. cbn. by rewrite Z.mod_mod.
  - rewrite (F bg_used_dirs_count (get_field (desc g bg_used_dirs_count) D + used_dirs bg)); [|unfold desc_fields; pick|done|done].
    by rewrite P4.
  - rewrite (F bg_flags_field (bg_flags bg)); [done|unfold desc_fields; pick|done|done].
  - unfold desc_updated. set (D' := write_fields D (desc_fields D g bg)) in *. rewrite get_write_field by done.
    rewrite slice_write_field by (try done; unfold desc, sizeof_group_desc; cbn; lia). apply Z.mod_small. apply desc_checksum_range.
Qed.

(** The other descriptors are left alone. *)
Lemma desc_slice_other uuid (D : list byte) g bg h o n : 0 <= g < groups aux -> blen D = bs * bg_desc_blocks aux -> g <> h -> 0 <= h -> 0 <= o -> 0 <= n -> o + n <= 32 ->
  slice (sizeof_group_desc * h + o) n (desc_updated uuid D g bg) = slice (sizeof_group_desc * h + o) n D.
Proof using Hroom.
  intros Hg HD Hne Hh Ho Hn Hon. unfold desc_updated. pose proof (desc_fields_in D g bg Hg HD) as Hin. pose proof (blen_write_fields _ D Hin) as Hl.
  rewrite slice_write_field; [|apply desc_in; [done|congruence|done|done]|unfold sizeof_group_desc; lia|done|unfold desc, sizeof_group_desc; cbn; lia].
  apply slice_write_fields; [done|unfold sizeof_group_desc; lia|done|]. unfold desc_fields. rewrite !Forall_cons, Forall_nil. unfold desc, sizeof_group_desc. cbn. lia.
Qed.

Lemma get_desc_other uuid (D : list byte) g bg h f : 0 <= g < groups aux -> blen D = bs * bg_desc_blocks aux -> g <> h -> 0 <= h -> 0 <= f.1 -> f.1 + Z.of_nat f.2 <= 32 ->
  get_field (desc h f) (desc_updated uuid D g bg) = get_field (desc h f) D.
Proof using Hroom. intros. unfold get_field, desc. cbn [fst snd]. by rewrite desc_slice_other by lia. Qed.

Lemma descriptor_other uuid (D : list byte) g bg h bg' : 0 <= g < groups aux -> blen D = bs * bg_desc_blocks aux -> g <> h -> 0 <= h ->
  descriptor_ok uuid D h bg' -> descriptor_ok uuid (desc_updated uuid D g bg) h bg'.
Proof using Hroom.
  intros Hg HD Hne Hh [K1 K2 K3 K4 K5 K6 K7 K8].
  pose proof (desc_slice_other uuid D g bg h 0 30 Hg HD Hne Hh ltac:(lia) ltac:(lia) ltac:(lia)) as Hsl. rewrite Z.add_0_r in Hsl.
  split; rewrite ?Hsl; rewrite get_desc_other by (done || cbn; lia); done.
Qed.

Lemma positions_updated uuid (D : list byte) g bg h : 0 <= g < groups aux -> blen D = bs * bg_desc_blocks aux -> g <> h -> 0 <= h ->
  positions D h -> positions (desc_updated uuid D g bg) h.
Proof using Hroom. intros Hg HD Hne Hh (P1 & P2 & P3 & P4). split_and!; rewrite get_desc_other by (done || cbn; lia); done. Qed.

(** The superblock after group [g]. *)
Definition sb_updated (B : list byte) (bg : block_group_info) : list byte :=
  let B' := write_field B s_free_blocks_count_lo (get_field s_free_blocks_count_lo B + bg_free_blocks bg) in
  write_field B' s_free_inodes_count (get_field s_free_inodes_count B' + bg_free_inodes bg).

Lemma set_buf_comm s p q b c : p <> q -> set_buf (set_buf s p b) q c = set_buf (set_buf s q c) p b.
Proof. intros. unfold set_buf. cbn. by rewrite list_insert_insert_ne. Qed.

Lemma update_group_ok s sb bg_desc B (D uuid : list byte) i bg : bufs s !! sb = Some B -> 1024 <= blen B -> slice s_uuid 16 B = uuid -> bufs s !! bg_desc = Some D ->
  blen D = bs * bg_desc_blocks aux -> sb <> bg_desc -> bgs s !! i = Some bg -> Z.of_nat i < groups aux ->
  update_group sb bg_desc (Z.of_nat i) s = Ok tt (set_buf (set_buf s sb (sb_updated B bg)) bg_desc (desc_updated uuid D (Z.of_nat i) bg)).
Proof using Hroom.
  intros Hs HB Hu Hd HD Hne Hbg Hi. set (g := Z.of_nat i). assert (Hg : 0 <= g < groups aux) by lia.
  unfold update_group, get_free_blocks, get_free_inodes, get_directories, get_bg_flags.
  assert (G : forall c d, get_bg g (set_buf (set_buf s sb c) bg_desc d) = Ok bg (set_buf (set_buf s sb c) bg_desc d)) by (intros; by apply get_bg_ok).
  assert (S : forall c d, bufs (set_buf (set_buf s sb c) bg_desc d) !! sb = Some c)
    by (intros; rewrite lookup_set_buf_ne by done; by eapply lookup_set_buf).
  assert (T : forall c d, bufs (set_buf (set_buf s sb c) bg_desc d) !! bg_desc = Some d).
  { intros c d. apply (lookup_set_buf _ bg_desc D). by rewrite lookup_set_buf_ne. }
  assert (W1 : forall c d x, set_buf (set_buf (set_buf s sb c) bg_desc d) sb x = set_buf (set_buf s sb x) bg_desc d).
  { intros c d x. by rewrite (set_buf_comm _ bg_desc sb), set_buf_twice. }
  assert (Hin : forall f d, blen d = blen D -> 0 <= f.1 -> f.1 + Z.of_nat f.2 <= 32 -> in_buffer (blen d) (desc g f)) by (intros f d Hl ? ?; apply desc_in; [done|congruence|done|done]).
  rewrite <- (set_buf_id s bg_desc D Hd) at 1. rewrite <- (set_buf_id s sb B Hs) at 1.
  erewrite bind_Ok by (rewrite (bind_Ok _ _ _ _ _ (G B D)); reflexivity). cbv beta.
  erewrite bind_Ok by (rewrite (bind_Ok _ _ _ _ _ (G B D)); reflexivity). cbv beta.
  run (set_field_ok _ bg_desc _ (desc g bg_free_blocks_count) (u16 (bg_free_blocks bg)) (T B D) ltac:(by apply Hin)). rewrite set_buf_twice.
  pose proof (fun f v H => blen_write_field D f v H) as L. set (D1 := write_field D _ _). assert (L1 : blen D1 = blen D) by (apply L; by apply Hin).
  run (add_field_ok _ sb _ s_free_blocks_count_lo (bg_free_blocks bg) (S B D1) ltac:(unfold in_buffer, s_free_blocks_count_lo; cbn; lia)). rewrite W1.
  set (B1 := write_field B _ _). assert (LB : blen B1 = blen B) by (apply blen_write_field; unfold in_buffer, s_free_blocks_count_lo; cbn; lia).
  run (set_field_ok _ bg_desc _ (desc g bg_free_inodes_count) (u16 (bg_free_inodes bg)) (T B1 D1) ltac:(by apply Hin)). rewrite set_buf_twice.
  set (D2 := write_field D1 _ _). assert (L2 : blen D2 = blen D) by (unfold D2; rewrite blen_write_field; [done|by apply Hin]).
  run (add_field_ok _ sb _ s_free_inodes_count (bg_free_inodes bg) (S B1 D2) ltac:(unfold in_buffer, s_free_inodes_count; cbn; lia)). rewrite W1.
  change (write_field B1 s_free_inodes_count _) with (sb_updated B bg). set (B2 := sb_updated B bg).
  erewrite bind_Ok by (rewrite (bind_Ok _ _ _ _ _ (G B2 D2)); reflexivity). cbv beta.
  run (add_field_ok _ bg_desc _ (desc g bg_used_dirs_count) (used_dirs bg) (T B2 D2) ltac:(by apply Hin)). rewrite set_buf_twice.
  assert (E : get_field (desc g bg_used_dirs_count) D2 = get_field (desc g bg_used_dirs_count) D).
  { unfold D2, D1. rewrite !get_write_other; try done; try (by apply Hin); unfold apart, desc, sizeof_group_desc; cbn; lia. }
  rewrite E. set (D3 := write_field D2 _ _). assert (L3 : blen D3 = blen D) by (unfold D3; rewrite blen_write_field; [done|by apply Hin]).
  erewrite bind_Ok by (rewrite (bind_Ok _ _ _ _ _ (G B2 D3)); reflexivity). cbv beta.
  run (set_field_ok _ bg_desc _ (desc g bg_flags_field) (bg_flags bg) (T B2 D3) ltac:(by apply Hin)). rewrite set_buf_twice.
  change (write_field D3 _ _) with (write_fields D (desc_fields D g bg)). set (D4 := write_fields D (desc_fields D g bg)).
  assert (L4 : blen D4 = blen D) by (apply blen_write_fields; by apply desc_fields_in).
  assert (LB2 : blen B2 = blen B) by (unfold B2, sb_updated; rewrite blen_write_field; fold B1; rewrite ?LB; [done|]; unfold in_buffer, s_free_inodes_count; cbn; lia).
  run (peek_slice _ sb B2 s_uuid 16 (S B2 D4) ltac:(done) ltac:(unfold s_uuid; lia)).
  assert (Hu2 : slice s_uuid 16 B2 = uuid).
  { rewrite <- Hu. unfold B2, sb_updated. fold B1. unfold s_uuid.
    rewrite slice_write_field by (unfold in_buffer, s_free_inodes_count; rewrite ?LB; cbn; lia). unfold B1.
    by rewrite slice_write_field by (unfold in_buffer, s_free_blocks_count_lo; cbn; lia). }
  rewrite Hu2. run (peek_slice _ bg_desc D4 (sizeof_group_desc * g) 30 (T B2 D4) ltac:(unfold sizeof_group_desc; lia)
    ltac:(rewrite L4; destruct (desc_in D g (30, 2%nat) Hg HD ltac:(done) ltac:(done)) as [_ HX]; unfold desc in HX; cbn in HX; lia)).
  rewrite (set_field_ok _ bg_desc D4 (desc g bg_checksum) _ (T B2 D4)) by (by apply Hin). by rewrite set_buf_twice.
Qed.

Lemma sum_app l k : foldr Z.add 0 (l ++ k) = foldr Z.add 0 l + foldr Z.add 0 k.
Proof. induction l as [|x l IH]; cbn; [done|]. rewrite IH. lia. Qed.

Lemma sum_bound l m : Forall (fun x => 0 <= x <= m) l -> 0 <= foldr Z.add 0 l <= m * blen l.
Proof. induction 1 as [|x l Hx Hl IH]; unfold blen in *; cbn [foldr length] in *; lia. Qed.

Lemma sum_take_S l n x : l !! n = Some x -> foldr Z.add 0 (take (S n) l) = foldr Z.add 0 (take n l) + x.
Proof. intros Hx. rewrite (take_S_r _ _ _ Hx), sum_app. cbn. lia. Qed.

Context (Hig : inode_geometry info aux).

Lemma frees_bound s : fs_ok info aux s -> Forall (inode_bg info) (bgs s) ->
  Forall (fun x => 0 <= x <= blocks_per_group info) (bg_free_blocks <$> bgs s) /\ Forall (fun x => 0 <= x <= inodes_per_group info) (bg_free_inodes <$> bgs s) /\
  blen (bgs s) = groups aux.
Proof using Hge Hig.
  intros Hs Hi. pose proof (ge_groups _ _ Hge). pose proof (ig_ipg _ _ Hig). rewrite !Forall_fmap. split_and!.
  - apply Forall_lookup_2. intros i bg Hbg. destruct (fo_bg _ _ _ Hs i bg Hbg) as [[_ _ (limit & Hl & Hb & Hf & _)] _]. cbn. lia.
  - eapply Forall_impl; [exact Hi|]. intros bg [Hf Hfr _]. cbn. lia.
  - unfold blen. rewrite (fo_groups _ _ _ Hs). lia.
Qed.

(** After the first [n] groups. *)
Record freed (uuid : list byte) (s : fs) (n : nat) (B D : list byte) : Prop := {
  fd_super : super_for params aux uuid B;
  fd_blocks : get_field s_free_blocks_count_lo B = foldr Z.add 0 (take n (bg_free_blocks <$> bgs s));
  fd_inodes : get_field s_free_inodes_count B = foldr Z.add 0 (take n (bg_free_inodes <$> bgs s));
  fd_len : blen D = bs * bg_desc_blocks aux;
  fd_done : forall i bg, (i < n)%nat -> bgs s !! i = Some bg -> descriptor_ok uuid D (Z.of_nat i) bg;
  fd_todo : forall g, Z.of_nat n <= g < groups aux -> positions D g
}.

Lemma take_sum_bound l n m k : Forall (fun x => 0 <= x <= m) l -> 0 <= m -> blen l = k -> 0 <= foldr Z.add 0 (take n l) <= m * k.
Proof.
  intros H Hm <-. destruct (sum_bound (take n l) m) as [H1 H2]; [by apply Forall_take|]. split; [done|].
  assert (blen (take n l) <= blen l) by (unfold blen; rewrite length_take; lia). nia.
Qed.

Lemma freed_step uuid s n B D bg : fs_ok info aux s -> Forall (inode_bg info) (bgs s) -> freed uuid s n B D -> bgs s !! n = Some bg ->
  freed uuid s (S n) (sb_updated B bg) (desc_updated uuid D (Z.of_nat n) bg).
Proof using Hge Hig Hroom.
  intros Hs Hi [F1 F2 F3 F4 F5 F6] Hbg. destruct (frees_bound s Hs Hi) as (Hfb & Hfi & Hlen).
  assert (Hn : Z.of_nat n < groups aux) by (apply lookup_lt_Some in Hbg; unfold blen in Hlen; lia).
  pose proof (ge_end _ _ Hge) as He. pose proof (ge_first _ _ Hge). pose proof (ig_count _ _ Hig). pose proof (ge_bpg _ _ Hge). pose proof (ig_ipg _ _ Hig).
  assert (Hb : (bg_free_blocks <$> bgs s) !! n = Some (bg_free_blocks bg)) by (by rewrite list_lookup_fmap, Hbg).
  assert (Hj : (bg_free_inodes <$> bgs s) !! n = Some (bg_free_inodes bg)) by (by rewrite list_lookup_fmap, Hbg).
  pose proof (su_len _ _ _ _ F1) as HL. unfold sb_updated. set (B1 := write_field B s_free_blocks_count_lo _).
  assert (I1 : in_buffer (blen B) s_free_blocks_count_lo) by (unfold in_buffer, s_free_blocks_count_lo; cbn; lia).
  assert (LB : blen B1 = blen B) by (by apply blen_write_field).
  assert (I2 : in_buffer (blen B1) s_free_inodes_count) by (rewrite LB; unfold in_buffer, s_free_inodes_count; cbn; lia).
  assert (E1 : get_field s_free_inodes_count B1 = get_field s_free_inodes_count B) by (unfold B1; apply get_write_other; [done|done|unfold apart; cbn; lia]).
  destruct (counts_clear params aux) as (C1 & C2 & _).
  split.
  - assert (S1 : super_for params aux uuid B1) by (apply super_write; [done|done|rewrite blen_split; apply I1|by rewrite blen_split]).
    apply super_write; [done|done|rewrite blen_split; apply I2|by rewrite blen_split].
  - rewrite get_write_other; [|done|done|unfold apart; cbn; lia]. unfold B1. rewrite get_write_field, F2 by done. rewrite (sum_take_S _ n _ Hb).
    apply Z.mod_small. pose proof (take_sum_bound (bg_free_blocks <$> bgs s) (S n) (blocks_per_group info) (groups aux) Hfb ltac:(lia) ltac:(unfold blen in *; by rewrite length_fmap)) as Hbd.
    rewrite (sum_take_S _ n _ Hb) in Hbd. cbn. nia.
  - rewrite get_write_field, E1, F3 by done. rewrite (sum_take_S _ n _ Hj).
    apply Z.mod_small. pose proof (take_sum_bound (bg_free_inodes <$> bgs s) (S n) (inodes_per_group info) (groups aux) Hfi ltac:(lia) ltac:(unfold blen in *; by rewrite length_fmap)) as Hbd.
    rewrite (sum_take_S _ n _ Hj) in Hbd. cbn. nia.
  - rewrite blen_desc_updated; [done|lia|done].
  - intros i bg' Hin Hbg'. destruct (decide (i = n)) as [->|Hne].
    + assert (bg' = bg) as -> by congruence. apply descriptor_updated; [lia|done|]. apply F6. lia.
    + apply descriptor_other; [lia|done|lia|lia|]. apply F5; [lia|done].
  - intros g Hg. apply positions_updated; [lia|done|lia|lia|]. apply F6. lia.
Qed.

(** A superblock keeps what the two counts do not touch. *)
Lemma sb_updated_slice B bg o n : 1024 <= blen B -> 0 <= o -> 0 <= n -> o + n <= 12 \/ 20 <= o -> slice o n (sb_updated B bg) = slice o n B /\ blen (sb_updated B bg) = blen B.
Proof.
  intros HB Ho Hn Hd. unfold sb_updated. set (B1 := write_field B s_free_blocks_count_lo _).
  assert (I1 : in_buffer (blen B) s_free_blocks_count_lo) by (unfold in_buffer, s_free_blocks_count_lo; cbn; lia).
  assert (LB : blen B1 = blen B) by (by apply blen_write_field).
  assert (I2 : in_buffer (blen B1) s_free_inodes_count) by (rewrite LB; unfold in_buffer, s_free_inodes_count; cbn; lia).
  split; [|by rewrite blen_write_field]. rewrite slice_write_field by (done || cbn; lia). unfold B1. apply slice_write_field; (done || cbn; lia).
Qed.

(** [P] is a property of the superblock that the counts do not touch. *)
Lemma update_groups_ok (P : list byte -> Prop) uuid sb bg_desc s k : (forall B bg, 1024 <= blen B -> P B -> P (sb_updated B bg)) -> forall n B D, P B -> sb <> bg_desc -> fs_ok info aux s -> Forall (inode_bg info) (bgs s) -> (n + k = Z.to_nat (groups aux))%nat ->
  freed uuid s n B D -> (sb < length (bufs s))%nat -> (bg_desc < length (bufs s))%nat ->
  exists B' D', update_groups sb bg_desc (seq n k) (set_buf (set_buf s sb B) bg_desc D) = Ok tt (set_buf (set_buf s sb B') bg_desc D') /\
    freed uuid s (Z.to_nat (groups aux)) B' D' /\ P B'.
Proof using Hge Hig Hroom.
  intros HP. induction k as [|k IH]; intros n B D HPB Hne Hs Hi Hnk Hf Hl1 Hl2; cbn [seq update_groups].
  { rewrite Nat.add_0_r in Hnk. subst n. by exists B, D. }
  destruct (lookup_lt_is_Some_2 (bgs s) n) as [bg Hbg]; [rewrite (fo_groups _ _ _ Hs); lia|].
  set (s1 := set_buf (set_buf s sb B) bg_desc D).
  assert (H1 : bufs s1 !! sb = Some B) by (unfold s1; rewrite lookup_set_buf_ne by done; cbn; by apply list_lookup_insert_eq).
  assert (H2 : bufs s1 !! bg_desc = Some D) by (unfold s1; cbn; apply list_lookup_insert_eq; by rewrite length_insert).
  run (update_group_ok s1 sb bg_desc B D uuid n bg H1 (su_len _ _ _ _ (fd_super _ _ _ _ _ Hf)) (su_uuid _ _ _ _ (fd_super _ _ _ _ _ Hf)) H2 (fd_len _ _ _ _ _ Hf) Hne Hbg ltac:(lia)).
  assert (E : set_buf (set_buf s1 sb (sb_updated B bg)) bg_desc (desc_updated uuid D (Z.of_nat n) bg) =
    set_buf (set_buf s sb (sb_updated B bg)) bg_desc (desc_updated uuid D (Z.of_nat n) bg)).
  { unfold s1. rewrite (set_buf_comm _ bg_desc sb) by done. by rewrite !set_buf_twice. }
  rewrite E. apply IH; try done; [|lia|by apply freed_step]. apply HP; [|done]. apply (su_len _ _ _ _ (fd_super _ _ _ _ _ Hf)).
Qed.
End Descriptors.
