(* ===== verification/Ext4ParamsCorrect.v ===== *)
(** * The default parameters of make_ext4fs are sound

    For sizes from 16 MiB to 32 GiB the parameters [make_ext4fs_internal]
    computes satisfy what the allocator, the inode tables, the extents and the
    superblock ask for. *)
From S2P Require Import Prelude CStrings Ext4Alloc Ext4Bits Ext4AllocCorrect Ext4Extent Ext4ExtentCorrect Ext4InodeCorrect Ext4Indirect Ext4Contents Ext4DirCorrect Ext4ContentsCorrect Ext4Params Ext4Super Ext4SuperCorrect.

(** ** Rounding the size down *)

Lemma land_high x n m : 0 <= x -> 0 <= n -> 0 <= m -> Z.land x (Z.shiftl (Z.ones m) n) = 2 ^ n * ((x / 2 ^ n) mod 2 ^ m).
Proof.
  intros Hx Hn Hm. rewrite <- Z.land_ones, <- Z.shiftr_div_pow2, Z.mul_comm, <- Z.shiftl_mul_pow2 by lia. apply Z.bits_inj'. intros i Hi.
  rewrite Z.land_spec, !Z.shiftl_spec, Z.land_spec by lia. destruct (Z.lt_ge_cases i n).
  - rewrite (Z.testbit_neg_r (Z.ones m)) by lia. by rewrite !andb_false_r.
  - rewrite Z.shiftr_spec by lia. by replace (i - n + n) with i by lia.
Qed.

Lemma round_down len : 0 <= len < 2 ^ 63 -> s64 (Z.land len (u64 (Z.lnot (u64 (4096 - 1))))) = 4096 * (len / 4096).
Proof.
  intros Hl. change (u64 (Z.lnot (u64 (4096 - 1)))) with (Z.shiftl (Z.ones 52) 12). rewrite land_high by lia. change (2 ^ 12) with 4096.
  pose proof (Z.div_mod len 4096 ltac:(lia)). pose proof (Z.mod_pos_bound len 4096 ltac:(lia)).
  rewrite (Z.mod_small (len / 4096)) by (split; [apply Z.div_pos; lia|apply Z.div_lt_upper_bound; lia]).
  unfold s64. rewrite Z.mod_small by lia. destruct (Z.ltb_spec (4096 * (len / 4096)) (2 ^ 63)); lia.
Qed.

(** ** The numbers for [L] blocks *)

(** Groups, inodes per group and reserved descriptor blocks. *)
Definition the_groups (L : Z) : Z := DIV_ROUND_UP L 32768.
Definition the_ipg (L : Z) : Z := 16 * DIV_ROUND_UP (DIV_ROUND_UP (L / 4) (the_groups L)) 16.
Definition the_reserve (L : Z) : Z := Z.min 1024 (8 * the_groups L - DIV_ROUND_UP (32 * the_groups L) 4096).
Definition the_journal (L : Z) : Z := Z.min 32768 (Z.max 1024 (L / 64)).

Definition the_info (L : Z) : fs_info := mk_info (4096 * L) 4096 32768 (the_ipg L) 256 19 (the_reserve L).
Definition the_params (L : Z) : fs_parameters := mk_params (the_info L) (the_ipg L * the_groups L) (the_journal L) 28 66 (Some []) 0.

Lemma groups_range L : 4096 <= L <= 2 ^ 23 -> 1 <= the_groups L <= 256 /\ 32768 * the_groups L - 32768 < L <= 32768 * the_groups L.
Proof. intros HL. unfold the_groups. pose proof (DIV_ROUND_UP_bounds L 32768 ltac:(lia)). lia. Qed.

Lemma ipg_range L : 4096 <= L <= 2 ^ 23 -> 512 <= the_ipg L <= 8192 /\ the_ipg L mod 16 = 0.
Proof.
  intros HL. pose proof (groups_range L HL) as [Hg Hb]. unfold the_ipg. set (G := the_groups L) in *.
  pose proof (DIV_ROUND_UP_bounds (L / 4) G ltac:(lia)) as H1. set (n := DIV_ROUND_UP (L / 4) G) in *.
  pose proof (DIV_ROUND_UP_bounds n 16 ltac:(lia)) as H2. pose proof (Z.div_mod L 4 ltac:(lia)). pose proof (Z.mod_pos_bound L 4 ltac:(lia)).
  split; [|by rewrite Z.mul_comm, Z.mod_mul]. assert (512 <= n) by nia. assert (n <= 8192) by nia. lia.
Qed.

Lemma div_round_up_ok x y : 0 <= x -> 0 < y -> x + y <= 2 ^ 32 -> div_round_up x y = Done (DIV_ROUND_UP x y).
Proof.
  intros Hx Hy Hs. unfold div_round_up, DIV_ROUND_UP. rewrite (proj2 (Z.eqb_neq y 0)) by lia.
  by rewrite (u32_small (x + y - 1)) by (unfold is_u32; lia).
Qed.

Lemma whole_blocks_of_len L : 0 <= L -> Z.quot (4096 * L + 4096 - 1) 4096 = L.
Proof. intros HL. rewrite Z.quot_div_nonneg by lia. symmetry. apply (Z.div_unique _ _ _ 4095); lia. Qed.

Lemma make_parameters_default len st : 2 ^ 24 <= len <= 2 ^ 35 -> make_parameters (default_parameters len) st = Done (Some (the_params (len / 4096))).
Proof.
  intros Hlen. set (L := len / 4096). pose proof (Z.div_mod len 4096 ltac:(lia)) as Hdm. pose proof (Z.mod_pos_bound len 4096 ltac:(lia)).
  fold L in Hdm. assert (HL : 4096 <= L <= 2 ^ 23) by lia. pose proof (groups_range L HL) as [Hg Hgb]. pose proof (ipg_range L HL) as [Hip _].
  unfold make_parameters, default_parameters. cbn [p_info i_len block_size journal_blocks no_journal blocks_per_group p_inodes inode_size label feat_ro_compat feat_incompat].
  rewrite (proj2 (Z.leb_gt len 0)) by lia. cbv iota. rewrite (proj2 (Z.leb_gt len 0)) by lia. cbn [Z.eqb]. unfold compute_block_size.
  rewrite round_down by lia. fold L.
  assert (E1 : compute_journal_blocks (4096 * L) 4096 = the_journal L).
  { unfold compute_journal_blocks. rewrite whole_blocks_of_len, Z.quot_div_nonneg by lia. pose proof (Z.div_mod L 64 ltac:(lia)). pose proof (Z.mod_pos_bound L 64 ltac:(lia)).
    rewrite u32_small by (unfold is_u32; lia). unfold the_journal. destruct (Z.ltb_spec (L / 64) 1024); zcases; lia. }
  assert (E2 : compute_inodes (4096 * L) 4096 = L / 4).
  { unfold compute_inodes. rewrite whole_blocks_of_len, Z.quot_div_nonneg by lia. pose proof (Z.div_mod L 4 ltac:(lia)). pose proof (Z.mod_pos_bound L 4 ltac:(lia)).
    apply u32_small. unfold is_u32. lia. }
  assert (E0 : len_in_blocks (4096 * L) 4096 = L) by (unfold len_in_blocks; rewrite whole_blocks_of_len by lia; apply u32_small; unfold is_u32; lia).
  change (compute_blocks_per_group 4096) with 32768. rewrite E1, E2.
  assert (E3 : compute_inodes_per_group (4096 * L) 4096 32768 256 (L / 4) = Done (the_ipg L, the_ipg L * the_groups L)).
  { unfold compute_inodes_per_group, ext4_align. rewrite E0, div_round_up_ok by lia. fold (the_groups L). cbn [obind]. pose proof (Z.div_mod L 4 ltac:(lia)). pose proof (Z.mod_pos_bound L 4 ltac:(lia)).
    rewrite div_round_up_ok by lia. cbn [obind]. change (256 =? 0) with false. cbv iota. change (4096 / 256) with 16.
    pose proof (DIV_ROUND_UP_bounds (L / 4) (the_groups L) ltac:(lia)). rewrite div_round_up_ok by nia. cbn [obind]. fold (the_ipg L).
    rewrite (u32_small (the_ipg L)) by (unfold is_u32; lia). by rewrite (u32_small (the_ipg L * _)) by (unfold is_u32; nia). }
  rewrite E3. cbn [obind].
  assert (E4 : compute_bg_desc_reserve_blocks (4096 * L) 4096 32768 = Done (the_reserve L)).
  { unfold compute_bg_desc_reserve_blocks, sizeof_group_desc. rewrite E0, div_round_up_ok by lia. fold (the_groups L). cbn [obind]. set (G := the_groups L) in *. f_equal.
    rewrite (u64_small (G * 32 + 4096 - 1)) by lia. rewrite (u32_small (G * 1024)) by (unfold is_u32; lia). rewrite (u64_small (G * 1024 * 32 + 4096 - 1)) by lia.
    replace (G * 32) with (32 * G) by lia. fold (DIV_ROUND_UP (32 * G) 4096). pose proof (DIV_ROUND_UP_bounds (32 * G) 4096 ltac:(lia)) as HD.
    assert (Hq : (G * 1024 * 32 + 4096 - 1) / 4096 = 8 * G) by (symmetry; apply (Z.div_unique _ _ _ 4095); lia). rewrite Hq.
    rewrite (u32_small (DIV_ROUND_UP (32 * G) 4096)) by (unfold is_u32; lia). rewrite u32_small by (unfold is_u32; lia). change (4096 / 4) with 1024.
    unfold the_reserve. fold G. destruct (Z.ltb_spec 1024 (8 * G - DIV_ROUND_UP (32 * G) 4096)); lia. }
  rewrite E4. reflexivity.
Qed.

(** ** The numbers [ext4_create_fs_aux_info] derives *)

Definition the_aux (L : Z) : fs_aux_info := ext4_create_fs_aux_info (the_info L).

Lemma the_aux_eq L : 4096 <= L <= 2 ^ 23 ->
  let m := L mod 32768 in let G := the_groups L in let D := DIV_ROUND_UP (32 * G) 4096 in
  first_data_block (the_aux L) = 0 /\ inode_table_blocks (the_aux L) = the_ipg L / 16 /\ bg_desc_blocks (the_aux L) = D /\
  (blocks_per_ind (the_aux L) = 1024) /\
  ((groups (the_aux L) = G /\ len_blocks (the_aux L) = L) \/ (groups (the_aux L) = G - 1 /\ len_blocks (the_aux L) = L - m /\ 1 < G)).
Proof.
  intros HL m G D. pose proof (groups_range L HL) as [Hg Hgb]. pose proof (ipg_range L HL) as [Hip Hip16]. fold G in Hg, Hgb.
  pose proof (Z.mod_pos_bound L 32768 ltac:(lia)) as Hm. pose proof (Z.mod_le L 32768 ltac:(lia) ltac:(lia)) as Hmle. fold m in Hm, Hmle. pose proof (DIV_ROUND_UP_bounds (32 * G) 4096 ltac:(lia)) as HD. fold D in HD.
  assert (Hitb : u32 (u32 (the_ipg L * 256) + 4096 - 1) / 4096 = the_ipg L / 16).
  { rewrite (u32_small (the_ipg L * 256)), (u32_small (_ + 4096 - 1)) by (unfold is_u32; lia). pose proof (Z.div_mod (the_ipg L) 16 ltac:(lia)).
    symmetry. apply (Z.div_unique _ _ _ 4095); lia. }
  pose proof (Z.div_mod (the_ipg L) 16 ltac:(lia)).
  assert (Hre : 0 <= the_reserve L <= 1024) by (unfold the_reserve; fold G; lia).
  unfold the_aux, ext4_create_fs_aux_info, the_info. cbn [block_size i_len inodes_per_group inode_size blocks_per_group bg_desc_reserve_blocks].
  change (1024 <? 4096) with true. cbv iota zeta. rewrite Z.quot_div_nonneg by lia. rewrite (Z.mul_comm 4096 L), Z.div_mul by lia.
  rewrite (u64_small L), Z.sub_0_r, (u64_small L), (u64_small (L + 32768 - 1)) by lia. fold (DIV_ROUND_UP L 32768). fold (the_groups L). fold G.
  rewrite Hitb, (u32_small G), (Z.mul_comm G 32), (u64_small (32 * G + 4096 - 1)) by (unfold is_u32; lia). fold (DIV_ROUND_UP (32 * G) 4096). fold D.
  rewrite (u32_small D), (u32_small (L mod 32768)) by (unfold is_u32; lia). fold m. rewrite (u64_small (L - m)), (u32_small (G - 1)), (s32_small (G - 1)) by (unfold is_u32; lia).
  set (i := mk_info _ _ _ _ _ _ _).
  assert (Hone : G = 1 -> (0 <? m) && (m <? (if ext4_bg_has_super_block i (G - 1) then u32 (2 + the_ipg L / 16 + 1 + D + the_reserve L) else u32 (2 + the_ipg L / 16))) = false).
  { intros H1. assert (Hml : m = L \/ m = 0).
    { destruct (Z.eq_dec L 32768) as [->|]; [right; reflexivity|left]. apply Z.mod_small. lia. }
    destruct Hml as [Hml|Hml]; [|by rewrite Hml]. rewrite !u32_small by (unfold is_u32; lia).
    destruct (ext4_bg_has_super_block i (G - 1)); rewrite (proj2 (Z.ltb_ge m _)) by lia; apply andb_false_r. }
  destruct ((0 <? m) && _) eqn:Hc; cbn; (split_and!; [done..|]).
  - right. split_and!; [done|done|]. destruct (Z.eq_dec G 1) as [E|]; [|lia]. pose proof (Hone E). congruence.
  - by left.
Qed.

(** Everything the other components ask of the parameters. *)
Record sound (params : fs_parameters) (aux : fs_aux_info) : Prop := {
  so_geometry : geometry (p_info params) aux;
  so_layout : layout (p_info params) aux;
  so_inodes : inode_geometry (p_info params) aux;
  so_extents : extent_geometry (p_info params) aux;
  so_super : super_params params aux;
  so_room : sizeof_group_desc * groups aux <= block_size (p_info params) * bg_desc_blocks aux < 2 ^ 32;
  so_some : 0 < inode_table_blocks aux /\ 0 < groups aux /\ 10 <= inodes_per_group (p_info params)
}.

Lemma default_sound L : 4096 <= L <= 2 ^ 23 -> sound (the_params L) (the_aux L).
Proof.
  intros HL. pose proof (groups_range L HL) as [Hg Hgb]. pose proof (ipg_range L HL) as [Hip Hip16].
  destruct (the_aux_eq L HL) as (A1 & A2 & A3 & _ & A4). set (G := the_groups L) in *. pose proof (DIV_ROUND_UP_bounds (32 * G) 4096 ltac:(lia)) as HD.
  assert (Hre : 0 <= the_reserve L <= 1024) by (unfold the_reserve; fold G; lia).
  pose proof (Z.div_mod (the_ipg L) 16 ltac:(lia)) as Hdm. pose proof (Z.mod_pos_bound L 32768 ltac:(lia)). pose proof (Z.mod_le L 32768 ltac:(lia) ltac:(lia)).
  assert (Hgr : 0 < groups (the_aux L) <= G /\ 0 <= len_blocks (the_aux L) <= L) by (destruct A4 as [[-> ->]|(-> & -> & ?)]; lia).
  assert (HP : parameters_ok (the_info L)).
  { split; cbn [the_info block_size blocks_per_group i_len bg_desc_reserve_blocks]; try lia.
    - rewrite (Z.mul_comm 4096 L), Z.div_mul by lia. lia.
    - fold (the_aux L). unfold super_blocks. rewrite A2, A3. cbn [bg_desc_reserve_blocks the_info]. lia. }
  destruct (aux_info_layout _ HP) as [Hge Hla]. fold (the_aux L) in Hge, Hla.
  split; cbn [the_params p_info]; try done.
  - split; cbn [the_info inodes_per_group block_size]; nia.
  - split; cbn [the_info block_size blocks_per_group]; try lia; try done. change ((4096 - 12) / 12) with 340. lia.
  - split; cbn [the_params p_info the_info block_size blocks_per_group inodes_per_group inode_size bg_desc_reserve_blocks feat_ro_compat feat_compat feat_incompat];
      unfold is_u32, is_u16; try lia; try done.
    + by exists 2.
    + nia.
  - cbn [the_info block_size]. unfold sizeof_group_desc. rewrite A3. lia.
  - cbn [the_info inodes_per_group]. rewrite A2. split_and!; lia.
Qed.
