(* ===== verification/Ext4ReservedCorrect.v ===== *)
(** * The journal and the resize inode of a new image

    [ext4_create_journal_inode] and [ext4_create_resize_inode] keep the
    invariant of the image and everything made before; what a reader finds in
    the two inodes. *)
From S2P Require Import Prelude CStrings Ext4Alloc Ext4Bits Ext4AllocCorrect Ext4Extent Ext4ExtentCorrect Ext4InodeCorrect Ext4Indirect Ext4Contents Ext4DirCorrect Ext4ContentsCorrect Ext4Xattr Ext4Build Ext4Tree Ext4TreeCorrect HashCtx Sha Ext4Sha1 Ext4Uuid Ext4Params Ext4Super Ext4SuperCorrect Ext4ParamsCorrect.

Section Reserved.
Context (force : bool) (params : fs_parameters) (aux : fs_aux_info).
Abbreviation info := (p_info params).
Abbreviation bs := (block_size info).
Abbreviation inode_of n := (inode_at info n).
Abbreviation the_inode s n := (default zero_inode (inodes s !! inode_of n)).
Context (Hge : geometry info aux) (Hla : layout info aux) (Hig : inode_geometry info aux) (Heg : extent_geometry info aux).

(** A step that fills the inode [n] and may change the buffers outside [B]. *)
Record fills (n : Z) (B : nat -> Prop) (cost : Z) (s s' : fs) : Prop := {
  fl_image : image_ok info aux s';
  fl_inodes : same_inodes info s s';
  fl_frame : frame info (fun m => m <> n) B s s';
  fl_length : (length (bufs s) <= length (bufs s'))%nat;
  fl_used : forall x, used info s x -> used info s' x;
  fl_total : total_free s - cost <= total_free s'
}.

Lemma inode_of_other n m : m <> n -> inode_of m <> inode_of n.
Proof using Hig. intros Hne Heq. apply Hne. apply (inode_at_inj info); [pose proof (ig_ipg _ _ Hig); lia|done]. Qed.

(** ** The journal *)

Definition journal_len : Z := journal_blocks params * bs.

(** A field of the journal's superblock is big-endian. *)
Definition big_endian (off : Z) (d : list byte) : Z := ntohl (get_field (off, 4%nat) d).

(** The journal: a file of [journal_len] bytes whose first block is a journal
    superblock of version 2 that says where the log starts and how long it is. *)
Record journal_super (d : list byte) : Prop := {
  js_magic : big_endian 0 d = JBD2_MAGIC_NUMBER;
  js_type : big_endian 4 d = JBD2_SUPERBLOCK_V2;
  js_blocksize : big_endian 12 d = bs;
  js_maxlen : big_endian 16 d = journal_blocks params;
  js_first : big_endian 20 d = 1;
  js_sequence : big_endian 24 d = 1;
  js_users : big_endian 64 d = 1;
  js_start : get_field (28, 4%nat) d = 0
}.

Definition journal_at (own : nat -> Prop) (s : fs) : Prop :=
  exists es k b d, extents_by k s (inode_of EXT4_JOURNAL_INO) es /\ (forall j, k = Some j -> own j) /\ own b /\
    file_size (the_inode s EXT4_JOURNAL_INO) = journal_len /\ spread info s es (inl (Buf b)) journal_len /\
    bufs s !! b = Some d /\ blen d = journal_len /\ journal_super d /\
    i_mode (the_inode s EXT4_JOURNAL_INO) = reserved_mode /\ i_links_count (the_inode s EXT4_JOURNAL_INO) = 1.

Lemma journal_frame I (own : nat -> Prop) s s' : frame info I own s s' -> I EXT4_JOURNAL_INO -> journal_at own s -> journal_at own s'.
Proof.
  intros Hf HI (es & k & b & d & H1 & H2 & H3 & H4 & H5 & H6 & H7 & H8 & H9 & H10). pose proof (fr_inodes _ _ _ _ _ Hf _ HI) as Hi.
  exists es, k, b, d. rewrite Hi. split_and!; try done.
  - apply (extents_frame info I own s); [done|by rewrite Hi|done|done].
  - by apply (spread_queue info s); [apply Hf|].
  - by apply (fr_bufs _ _ _ _ _ Hf).
Qed.

(** The fields of the journal's superblock, as [set_fields] writes them. *)
Definition journal_values : list (fld * Z) := (fun e => ((e.1, 4%nat), ntohl e.2)) <$> journal_fields params.

Lemma set_journal_fields p l s : set_journal p l s = set_fields p ((fun e => ((e.1, 4%nat), ntohl e.2)) <$> l) s.
Proof. revert s. induction l as [|[off v] l IH]; intros s; [done|]. cbn [set_journal fmap list_fmap set_fields]. apply bind_ext. intros _ s'. apply IH. Qed.

Lemma ntohl_ntohl x : is_u32 x -> ntohl (ntohl x) = x.
Proof.
  intros Hx. unfold ntohl at 2. assert (Hl : length (rev (le_split 4 x)) = 4%nat) by done. unfold ntohl.
  rewrite split_combine by done. rewrite rev_involutive. apply (combine_split 4). exact Hx.
Qed.

Lemma ntohl_range x : is_u32 (ntohl x).
Proof. unfold ntohl, is_u32. apply (le_combine_u8 4). done. Qed.

Lemma journal_written n : 1024 <= n -> is_u32 bs -> is_u32 (journal_blocks params) -> journal_super (write_fields (zeros n) journal_values).
Proof.
  intros Hn Hb Hj. assert (Hz : blen (zeros n) = n) by (apply blen_zeros; lia).
  assert (Hin : Forall (fun e => in_buffer (blen (zeros n)) e.1) journal_values).
  { apply (all_in_buffer _ 1024); [lia|]. apply (bool_decide_unpack _). by compute. }
  assert (Ha : all_apart journal_values.*1) by (apply (bool_decide_unpack _); by compute).
  assert (V : forall off v, is_u32 v -> (off, v) ∈ journal_fields params -> big_endian off (write_fields (zeros n) journal_values) = v).
  { intros off v Hv Hin'. unfold big_endian. rewrite (get_write_fields _ _ _ (ntohl v) Hin Ha).
    - rewrite Z.mod_small by apply ntohl_range. by apply ntohl_ntohl.
    - unfold journal_values. apply list_elem_of_fmap. by exists (off, v). }
  split; try (apply V; [done|unfold journal_fields; pick]).
  rewrite get_write_fields_other; [|done|done|apply (bool_decide_unpack _); by compute].
  unfold get_field, slice. cbn [fst snd]. change (Z.to_nat 28) with 28%nat. change (Z.to_nat (Z.of_nat 4)) with 4%nat. unfold zeros.
  rewrite drop_replicate, take_replicate, Nat.min_l by lia. done.
Qed.

Lemma spread_bufs s s' es src len : ext4_sparse_file s' = ext4_sparse_file s -> spread info s es src len -> spread info s' es src len.
Proof. intros Hq. apply spread_queue. exists []. by rewrite app_nil_r. Qed.

(** The state that [ext4_create_journal_inode] leaves. *)
Definition journal_state (s3 : fs) (d sb : nat) (J B : list byte) : fs :=
  let i := set_mode (the_inode s3 EXT4_JOURNAL_INO) reserved_mode 1 in
  set_buf (with_inode (set_buf s3 d J) (inode_of EXT4_JOURNAL_INO) i) sb (write_at B s_jnl_blocks (i_block i)).

Lemma journal_runs s s2 s3 d sb B : get_inode info aux EXT4_JOURNAL_INO s = Ok (inode_of EXT4_JOURNAL_INO) s2 ->
  inode_allocate_data_extents force info aux (inode_of EXT4_JOURNAL_INO) journal_len journal_len s2 = Ok (Some d) s3 -> is_u32 journal_len -> 1024 <= journal_len ->
  bufs s3 !! d = Some (zeros journal_len) -> bufs s3 !! sb = Some B -> sb <> d -> 1024 <= blen B -> blen (i_block (the_inode s3 EXT4_JOURNAL_INO)) = 60 ->
  ext4_create_journal_inode force params aux sb s = Ok tt (journal_state s3 d sb (write_fields (zeros journal_len) journal_values) B).
Proof.
  intros Hg Ha Hl H1 Hd Hs Hne HB Hi. unfold ext4_create_journal_inode. run Hg. fold journal_len. rewrite u32_small by done. run Ha.
  rewrite (bind_Ok _ _ _ _ _ (update_inode_ok _ _ s3)). set (i := set_mode _ _ _). set (s4 := with_inode s3 _ i).
  assert (Hin : Forall (fun e => in_buffer (blen (zeros journal_len)) e.1) journal_values).
  { apply (all_in_buffer _ 1024); [rewrite blen_zeros; lia|]. apply (bool_decide_unpack _). by compute. }
  erewrite bind_Ok by (rewrite set_journal_fields; exact (set_fields_ok journal_values s4 d (zeros journal_len) Hd Hin)). cbv beta.
  set (s5 := set_buf s4 d _). assert (Hr : read_inode (inode_of EXT4_JOURNAL_INO) s5 = Ok i s5) by (unfold read_inode; cbn; by rewrite lookup_insert_eq). run Hr.
  assert (Hs5 : bufs s5 !! sb = Some B) by (unfold s5; by rewrite lookup_set_buf_ne).
  rewrite (poke_ok s5 sb B s_jnl_blocks (i_block i) Hs5); [done|]. unfold s_jnl_blocks. unfold i. cbn [set_mode i_block]. rewrite Hi. lia.
Qed.

Lemma journal_ok s sb B : image_ok info aux s -> used_inode info s EXT4_JOURNAL_INO -> 0 < EXT4_JOURNAL_INO <= groups aux * inodes_per_group info ->
  bufs s !! sb = Some B -> 1024 <= blen B -> is_u32 (journal_blocks params) -> 1024 <= journal_len < 2 ^ 32 -> fits info aux s journal_len ->
  exists s', ext4_create_journal_inode force params aux sb s = Ok tt s' /\
    fills EXT4_JOURNAL_INO (fun b => old_bufs s b /\ b <> sb) (DIV_ROUND_UP journal_len bs + 1) s s' /\ journal_at (new_bufs s s') s' /\
    bufs s' !! sb = Some (write_at B s_jnl_blocks (i_block (the_inode s' EXT4_JOURNAL_INO))).
Proof using Hge Hla Hig Heg.
  intros Him Hu Hr Hs HB Hj Hlen Hfit. pose proof (eg_bs _ _ Heg) as Hbs.
  destruct (get_inode_ok info aux Hge Hig s EXT4_JOURNAL_INO Him Hr) as (q2 & s2 & Hg & Hp). pose proof (prepared_calm info aux s s2 _ Hp) as Hc.
  pose proof (pr_image _ _ _ _ _ Hp) as Him2. pose proof (fits_calm info aux s s2 _ _ Hc Hfit) as Hfit2.
  destruct (data_extents_ok force info aux s2 (inode_of EXT4_JOURNAL_INO) journal_len Hge (image_room info aux Hge Heg s2 _ _ Him2 Hfit2))
    as (d & q & s3 & Ha & Hd & Hnew & Hke & Hst). rewrite (ca_bufs _ _ _ _ Hc) in Hnew.
  assert (Hsb : (sb < length (bufs s))%nat) by (by apply lookup_lt_Some in Hs). assert (Hne : sb <> d) by lia.
  pose proof (Hst (write_fields (zeros journal_len) journal_values)) as HstJ. set (J := write_fields _ _) in *. set (s4 := set_buf s3 d J) in *.
  assert (Hke4 : keeps info s2 s4) by exact Hke. assert (Hu2 : used_inode info s2 EXT4_JOURNAL_INO) by (apply (same_inodes_used info s s2); [apply Hp|done]).
  pose proof (stored_image info aux Hig s2 s4 q EXT4_JOURNAL_INO _ _ Him2 Hu2 HstJ Hke4) as Him4. pose proof (keeps_same_inodes info s2 s4 Hke4) as Hsi4.
  assert (Hs4 : bufs s4 !! sb = Some B) by (apply (Ext4ExtentCorrect.st_bufs _ _ _ _ _ _ _ _ HstJ); by rewrite (ca_bufs _ _ _ _ Hc)).
  assert (Hs3 : bufs s3 !! sb = Some B) by (unfold s4 in Hs4; by rewrite lookup_set_buf_ne in Hs4).
  pose proof (st_body _ _ _ _ _ _ _ _ HstJ) as Hbody. set (i3 := the_inode s3 EXT4_JOURNAL_INO). change (blen (i_block i3) = EXT4_BLOCK_BYTES) in Hbody.
  pose proof (journal_runs s s2 s3 d sb B Hg Ha ltac:(unfold is_u32; lia) ltac:(lia) Hd Hs3 Hne HB Hbody) as Hrun. fold J in Hrun. set (s' := journal_state s3 d sb J B) in *.
  set (i' := set_mode i3 reserved_mode 1). assert (Hi' : the_inode s' EXT4_JOURNAL_INO = i') by (cbn; by rewrite lookup_insert_eq).
  assert (Hlen' : (length (bufs s3) = length (bufs s'))%nat) by (cbn; by rewrite !length_insert).
  assert (Hd4 : bufs s4 !! d = Some J) by (by apply (lookup_set_buf s3 d _ J Hd)). pose proof (lookup_lt_Some _ _ _ Hd) as Hdl.
  assert (Hmono : forall b x, bufs s2 !! b = Some x -> b <> sb -> bufs s' !! b = Some x).
  { intros b x Hb Hbs'. change (bufs (set_buf s4 sb (write_at B s_jnl_blocks (i_block i'))) !! b = Some x). rewrite lookup_set_buf_ne by done.
    by apply (Ext4ExtentCorrect.st_bufs _ _ _ _ _ _ _ _ HstJ). }
  exists s'. split; [done|]. split; [split|split].
  - apply image_bufs, with_inode_image; [done|done| |done]. by apply (same_inodes_used info s2 s4).
  - transitivity s2; [apply Hp|exact Hsi4].
  - split.
    + intros m Hm. cbn. rewrite lookup_insert_ne by (intros Heq; by apply (inode_of_other EXT4_JOURNAL_INO m)).
      change (the_inode s4 m = the_inode s m). rewrite (st_inodes _ _ _ _ _ _ _ _ HstJ) by (by apply inode_of_other). by rewrite (ca_inodes _ _ _ _ Hc).
    + intros b x [Hb Hbs'] Hx. apply Hmono; [|done]. by rewrite (ca_bufs _ _ _ _ Hc).
    + exists (q2 ++ q). change (ext4_sparse_file s4 = ext4_sparse_file s ++ q2 ++ q). by rewrite (st_queue _ _ _ _ _ _ _ _ HstJ), (ca_queue _ _ _ _ Hc), app_assoc.
  - lia.
  - intros x Hx. change (used info s4 x). apply (st_mono _ _ _ _ _ _ _ _ HstJ). by apply (same_blocks_used info aux Hge s s2); [apply Hc|].
  - change (total_free s - (DIV_ROUND_UP journal_len bs + 1) <= total_free s4). rewrite <- (same_blocks_total info s s2) by apply Hc. apply (st_total _ _ _ _ _ _ _ _ HstJ).
  - destruct (stored_data info aux s2 EXT4_JOURNAL_INO _ _ q s4 HstJ) as (es & k & Hby & Hk & Hsp). exists es, k, d, J.
    assert (Hk' : forall j, k = Some j -> (length (bufs s) <= j < length (bufs s'))%nat /\ j <> d).
    { intros j Hj'. destruct (Hk j Hj') as [Hn Hnd]. unfold new_bufs in Hn. rewrite (ca_bufs _ _ _ _ Hc) in Hn. unfold s4 in Hn. cbn in Hn. rewrite length_insert in Hn. split; [lia|congruence]. }
    rewrite Hi'. split_and!; try done.
    + apply (extents_by_trans k s4 s' []); [done| |by rewrite app_nil_r|].
      * unfold body. change (i_block (the_inode s' EXT4_JOURNAL_INO) = i_block (the_inode s4 EXT4_JOURNAL_INO)). by rewrite Hi'.
      * intros j x Hj' Hx. destruct (Hk' j Hj') as [? ?]. change (bufs (set_buf s4 sb (write_at B s_jnl_blocks (i_block i'))) !! j = Some x). rewrite lookup_set_buf_ne by lia. done.
    + intros j Hj'. by destruct (Hk' j Hj').
    + unfold new_bufs. lia.
    + exact (Ext4ExtentCorrect.st_size _ _ _ _ _ _ _ _ HstJ).
    + change (bufs (set_buf s4 sb (write_at B s_jnl_blocks (i_block i'))) !! d = Some J). by rewrite lookup_set_buf_ne.
    + unfold J. rewrite blen_write_fields; [rewrite blen_zeros; lia|]. apply (all_in_buffer _ 1024); [rewrite blen_zeros; lia|]. apply (bool_decide_unpack _). by compute.
    + apply journal_written; [lia|unfold is_u32; lia|done].
  - rewrite Hi'. apply (lookup_set_buf s4 sb B). done.
Qed.
End Reserved.
