(* ===== verification/Ext4ResizeCorrect.v ===== *)
(** * The resize inode of a new image

    [ext4_create_resize_inode] links the reserved descriptor blocks of every
    copy of the superblock into a doubly indirect block: what the two levels
    hold, and that everything made before is kept. *)
From S2P Require Import Prelude CStrings Ext4Alloc Ext4Bits Ext4AllocCorrect Ext4Extent Ext4ExtentCorrect Ext4InodeCorrect Ext4Indirect Ext4Contents Ext4DirCorrect Ext4ContentsCorrect Ext4Xattr Ext4Build Ext4Tree Ext4TreeCorrect HashCtx Sha Ext4Sha1 Ext4Uuid Ext4Params Ext4Super Ext4SuperCorrect Ext4ParamsCorrect Ext4ReservedCorrect.

(** ** Region lists that grow at the end *)

(** The list [rl] holds the regions [l], its iterator at the start. *)
Record listed (h : gmap rloc region) (rl : region_list) (l : list (rloc * extent)) : Prop := {
  ls_seg : seg h (rl_first rl) None l None;
  ls_nodup : NoDup l.*1;
  ls_last : rl_last rl = last_loc None l;
  ls_iter : rl_iter rl = rl_first rl;
  ls_partial : partial_iter rl = 0
}.

Lemma listed_nil h : listed h (mk_rl None None None 0) [].
Proof. split; try done. constructor. Qed.

Lemma listed_ext h h' rl l : (forall q, q ∈ dom h -> h' !! q = h !! q) -> listed h rl l -> listed h' rl l.
Proof. intros He [A1 A2 A3 A4 A5]. split; try done. eapply seg_ext; [|exact A1]. intros q Hq. apply He. by eapply seg_dom. Qed.

(** [region_list_append] behind the last region. *)
Lemma append_linked rl reg q s : rl_first rl <> None -> rl_last rl = Some q ->
  region_list_append rl reg s = (_ ← link (rl_last rl) reg; r ← load reg; _ ← store reg (with_next r None); mret (mk_rl (rl_first rl) reg (rl_iter rl) (partial_iter rl))) s.
Proof.
  intros Hf Hl. unfold region_list_append. destruct (rl_first rl); [|done]. rewrite Hl. unfold link. rewrite bind_assoc. apply bind_ext. intros x s1.
  rewrite bind_assoc. apply bind_ext. intros _ s2. by rewrite bind_assoc.
Qed.

(** A region [p] that is in the heap, outside of the list. *)
Lemma append_ok s h rl l p b n g : listed h rl l -> p ∉ dom h -> heap s = <[p := mk_region b n g None None]> h ->
  exists rl' h', region_list_append rl (Some p) s = Ok rl' (with_heap s h') /\ listed h' rl' (l ++ [(p, (b, n, g))]) /\
    (forall q, q ∈ dom h -> q ∉ l.*1 -> h' !! q = h !! q) /\ exists pv, h' !! p = Some (mk_region b n g None pv).
Proof.
  intros [A1 A2 A3 A4 A5] Hp Hh. destruct (link_ok s h (rl_first rl) l p b n g A1 A2 Hp Hh) as (h' & Hlink & Hseg & (pv & Hpv) & Hfr).
  assert (Hnd : NoDup (l ++ [(p, (b, n, g))]).*1).
  { rewrite fmap_app. apply NoDup_app. split; [done|]. split; [|apply NoDup_singleton]. intros q Hq Hin. apply list_elem_of_singleton in Hin as ->.
    apply Hp. by eapply seg_dom. }
  assert (Hkeep : forall q, q ∈ dom h -> q ∉ l.*1 -> h' !! q = h !! q) by (intros q Hq Hl; apply Hfr; [done|by intros ->]).
  assert (Hll : last_loc None (l ++ [(p, (b, n, g))]) = Some p) by (unfold last_loc; by rewrite last_snoc).
  destruct (decide (l = [])) as [->|Hne].
  - cbn in A1. rewrite A1 in Hseg. exists (mk_rl (Some p) (Some p) (Some p) 0), (heap s).
    assert (Hps : heap s !! p = Some (mk_region b n g None None)) by (by rewrite Hh, lookup_insert_eq). split; [|split; [|split]].
    + unfold region_list_append. rewrite A1. run (load_ok s p _ Hps). run (store_ok s p _ (with_prev (mk_region b n g None None) None) Hps).
      rewrite (insert_id (heap s) p) by done. assert (Hs : with_heap s (heap s) = s) by (by destruct s). rewrite Hs.
      run (load_ok s p _ Hps). run (store_ok s p _ (with_next (mk_region b n g None None) None) Hps). rewrite (insert_id (heap s) p) by done. by rewrite Hs.
    + split; try done. split; [done|]. exists None. done.
    + intros q Hq _. rewrite Hh. apply lookup_insert_ne. by intros ->.
    + by exists None.
  - assert (Hfirst : rl_first rl <> None) by (destruct l as [|[q' [[? ?] ?]] l]; [done|]; by destruct A1 as (-> & _)).
    destruct (last l) as [[q x]|] eqn:Hlast; [|by apply last_None in Hlast]. assert (Hrl : rl_last rl = Some q) by (rewrite A3; unfold last_loc; by rewrite Hlast).
    exists (mk_rl (rl_first rl) (Some p) (rl_iter rl) (partial_iter rl)), h'. split; [|split; [|split]].
    + rewrite (append_linked rl (Some p) q s Hfirst Hrl). rewrite A3. run Hlink. set (s1 := with_heap s h'). run (load_ok s1 p _ Hpv).
      run (store_ok s1 p _ (with_next (mk_region b n g None pv) None) Hpv). rewrite (insert_id (heap s1) p) by done. done.
    + destruct (rl_first rl) eqn:Hrf; [|done]. split; try done; cbn; congruence.
    + done.
    + by exists pv.
Qed.

Lemma append_region_ok s a l b n g : listed (heap s) (al_list a) l ->
  exists p a' h', append_region a b n g s = Ok a' (with_heap s h') /\ listed h' (al_list a') (l ++ [(p, (b, n, g))]) /\ oob_list a' = oob_list a.
Proof.
  intros Hl. unfold append_region. set (p := fresh (dom (heap s))). assert (Hp : p ∉ dom (heap s)) by apply is_fresh.
  set (s1 := with_heap s (<[p := mk_region b n g None None]> (heap s))). erewrite (bind_Ok (new_region _) _ s p s1) by reflexivity.
  destruct (append_ok s1 (heap s) (al_list a) l p b n g Hl Hp eq_refl) as (rl' & h' & Hr & Hl' & _). run Hr. by exists p, (mk_alloc rl' (oob_list a)), h'.
Qed.

(** [block_allocation_len] *)
Lemma walk_sum s l : forall fuel i p, sseg (heap s) p l None -> (length l <= fuel)%nat -> 0 <= i -> Forall (fun x : extent => 0 <= x.1.2) l.*2 -> i + blocks_len l.*2 < 2 ^ 32 ->
  walk_loop (fun i r => u32 (i + r_len r)) fuel i p s = Ok (i + blocks_len l.*2) s.
Proof.
  induction l as [|[q [[b n] g]] l IH]; intros fuel i p Hs Hf Hi Hn Hlt.
  { cbn in Hs. subst p. cbn. rewrite Z.add_0_r. by destruct fuel. }
  destruct Hs as (-> & nx & pv & Hh & Hs). destruct fuel as [|fuel]; [cbn in Hf; lia|]. cbn [walk_loop]. run (load_ok s q _ Hh). apply Forall_cons in Hn as [Hn0 Hn]. cbn in Hn0.
  change (blocks_len ((q, (b, n, g)) :: l).*2) with (n + blocks_len l.*2) in *.
  assert (0 <= blocks_len l.*2) by (clear -Hn; induction l as [|[q [[b n] g]] l IH]; [done|]; apply Forall_cons in Hn as [H Hn]; cbn in H; specialize (IH Hn); change (0 <= n + blocks_len l.*2); lia).
  cbn [r_len r_next]. rewrite u32_small by (unfold is_u32; lia). rewrite IH; [f_equal; lia|done|cbn in Hf; lia|lia|done|lia].
Qed.

Lemma listed_size h rl l : listed h rl l -> (length l <= size h)%nat.
Proof.
  intros [Hs Hn _ _ _]. rewrite <- size_dom, <- (length_fmap fst l), <- (size_list_to_set (C := gset rloc)) by done.
  apply subseteq_size. intros q Hq. apply elem_of_list_to_set in Hq. by eapply seg_dom.
Qed.

Lemma allocation_len_ok s a l : listed (heap s) (al_list a) l -> Forall (fun x : extent => 0 <= x.1.2) l.*2 -> blocks_len l.*2 < 2 ^ 32 ->
  block_allocation_len a s = Ok (s32 (blocks_len l.*2)) s.
Proof.
  intros Hl Hn Hlt. unfold block_allocation_len, walk. erewrite bind_Ok; [reflexivity|]. erewrite (bind_Ok get_state) by reflexivity.
  rewrite (walk_sum s l); [by rewrite Z.add_0_l| | |done|done|lia].
  - eapply seg_sseg. apply Hl.
  - pose proof (listed_size _ _ _ Hl). lia.
Qed.

Lemma get_block_listed s rl l k : listed (heap s) rl l -> Forall (fun '(b, n, _) => 0 <= b /\ 0 < n /\ b + n <= 2 ^ 32) l.*2 -> 0 <= k < 2 ^ 32 ->
  get_block_of rl k s = Ok (default EXT4_ALLOCATE_FAILED (blocks_of l.*2 !! Z.to_nat k)) s.
Proof.
  intros Hl Hb Hk. unfold get_block_of. erewrite (bind_Ok get_state) by reflexivity. rewrite (ls_iter _ _ _ Hl), (ls_partial _ _ _ Hl), Z.add_0_r, u32_small by done.
  apply (get_block_loop_ok _ s l _ None); [apply Hl| |done|done]. pose proof (listed_size _ _ _ Hl). lia.
Qed.

(** Regions of the same length. *)
Lemma blocks_regular (f : Z -> Z) R S : 0 < R -> forall j g r, S !! j = Some g -> 0 <= r < R ->
  blocks_of ((fun g => (f g, R, g)) <$> S) !! Z.to_nat (Z.of_nat j * R + r) = Some (f g + r).
Proof.
  intros HR. induction S as [|g0 S IH]; intros [|j] g r Hj Hr; try done.
  - injection Hj as ->. cbn. rewrite lookup_app_l by (rewrite length_seqZ; lia). apply lookup_seqZ. lia.
  - cbn [lookup list_lookup] in Hj. rewrite fmap_cons. change (blocks_of ((f g0, R, g0) :: ((fun g => (f g, R, g)) <$> S))) with (seqZ (f g0) R ++ blocks_of ((fun g => (f g, R, g)) <$> S)).
    rewrite lookup_app_r by (rewrite length_seqZ; nia). rewrite length_seqZ, <- (IH j g r Hj Hr). f_equal. lia.
Qed.

Lemma regular_len (f : Z -> Z) R S : blocks_len ((fun g => (f g, R, g)) <$> S) = R * blen S.
Proof.
  induction S as [|g S IH]; [unfold blen; cbn; lia|]. rewrite fmap_cons. change (blocks_len ((f g, R, g) :: ((fun g => (f g, R, g)) <$> S))) with (R + blocks_len ((fun g => (f g, R, g)) <$> S)). rewrite IH. unfold blen. cbn. lia.
Qed.

(** [append_oob_allocation] of one block. *)
Lemma append_oob_ok force info aux s a l : geometry info aux -> fs_ok info aux s -> 0 < total_free s -> listed (heap s) (al_list a) l -> oob_list a = mk_rl None None None 0 ->
  exists a' p b g s', append_oob_allocation force aux a 1 s = Ok (a', 0) s' /\ al_list a' = al_list a /\ listed (heap s') (al_list a') l /\
    listed (heap s') (oob_list a') [(p, (b, 1, g))] /\ p ∉ l.*1 /\ handed info aux s [(b, 1, g)] s' /\ same_rest s s'.
Proof.
  intros Hge Hs Hf Hl Ho. unfold append_oob_allocation, ext4_allocate_best_fit.
  destruct (best_fit_loop_ok force info aux Hge (Z.to_nat 1) s 1 None []) as (l' & first & s1 & Hr & [Hseg Hnd] & Hha & Hlen & Hrest & Hfr & _); try done; try lia.
  { split; [done|constructor]. }
  { constructor. }
  change (last_loc None []) with (@None rloc) in Hr. run Hr. cbn [app] in *.
  assert (H1 : exists p b g, l' = [(p, (b, 1, g))]).
  { pose proof (ha_in _ _ _ _ _ Hha) as Hin. destruct l' as [|[p [[b n] g]] l']; [done|]. apply Forall_cons in Hin as [(Hn & _) Hin]. change (n + blocks_len l'.*2 = 1) in Hlen.
    destruct l' as [|[p' [[b' n'] g']] l']; [change (n + 0 = 1) in Hlen; exists p, b, g; do 4 f_equal; lia|]. apply Forall_cons in Hin as [(Hn' & _) Hin].
    change (n + (n' + blocks_len l'.*2) = 1) in Hlen. assert (0 <= blocks_len l'.*2); [|lia]. clear -Hin. induction l' as [|[q [[c m] k]] l' IH]; [done|].
    apply Forall_cons in Hin as [(Hm & _) Hin]. specialize (IH Hin). change (0 <= m + blocks_len l'.*2). lia. }
  destruct H1 as (p & b & g & ->). destruct Hseg as (-> & nx & Hp & ->). erewrite (bind_Ok get_state) by reflexivity. rewrite Ho.
  set (h0 := delete p (heap s1)). assert (Hh : heap s1 = <[p := mk_region b 1 g None None]> h0) by (unfold h0; by rewrite insert_delete_id).
  destruct (append_ok s1 h0 (mk_rl None None None 0) [] p b 1 g) as (rl' & h' & Hap & Hl' & Hkeep & (pv & Hpv)); [apply listed_nil| |done|].
  { unfold h0. rewrite dom_delete. set_solver. }
  set (s2 := with_heap s1 h').
  assert (Hpl : p ∉ l.*1) by (intros Hin; destruct (Hfr p) as [_ Hn]; [apply not_elem_of_nil|eapply seg_dom; [apply Hl|done]|apply Hn; by left]).
  exists (mk_alloc (al_list a) rl'), p, b, g, s2. split; [|split; [done|split; [|split; [done|split; [done|split]]]]].
  - erewrite bind_Ok; [reflexivity|]. cbn [append_loop]. run Hap. fold s2. run (load_ok s2 p _ Hpv). cbn [r_next]. destruct (size (heap s1)); reflexivity.
  - cbn [al_list]. eapply listed_ext; [|exact Hl]. intros q Hq. destruct (Hfr q) as [He Hn]; [apply not_elem_of_nil|done|].
    cbn. rewrite Hkeep; [|unfold h0; rewrite dom_delete; apply elem_of_difference; split|apply not_elem_of_nil].
    + unfold h0. rewrite lookup_delete_ne; [done|]. intros ->. apply Hn. by left.
    + apply elem_of_dom. rewrite He. by apply elem_of_dom.
    + intros ->%elem_of_singleton. apply Hn. by left.
  - by apply (handed_bgs info aux s _ s1).
  - done.
Qed.

Section Resize.
Context (force : bool) (params : fs_parameters) (aux : fs_aux_info).
Abbreviation info := (p_info params).
Abbreviation bs := (block_size info).
Abbreviation inode_of n := (inode_at info n).
Abbreviation the_inode s n := (default zero_inode (inodes s !! inode_of n)).
Context (Hge : geometry info aux) (Hla : layout info aux) (Hig : inode_geometry info aux) (Heg : extent_geometry info aux).
Abbreviation reserve := (bg_desc_reserve_blocks info).
Abbreviation per := (blocks_per_ind aux).
Abbreviation start g := (group_start info aux g).

(** Every reserved descriptor block has an entry of one block, and the copies
    of it have entries in one more. *)
Record resize_geometry : Prop := {
  rg_reserve : 0 < reserve /\ 4 * reserve <= bs;
  rg_per : 4 * per = bs;
  rg_desc : 0 <= bg_desc_blocks aux;
  rg_table : 0 < inode_table_blocks aux;
  rg_groups : 0 < groups aux
}.
Context (Hrg : resize_geometry).

(** Block [r] of the reserved descriptor blocks of group [g]. *)
Definition reserved_block (g r : Z) : Z := start g + 1 + bg_desc_blocks aux + r.

(** The groups with a copy of the superblock, of the first [n]. *)
Definition supers_upto (n : nat) : list Z := filter (fun g => ext4_bg_has_super_block info g = true) (Z.of_nat <$> seq 0 n).
Definition supers : list Z := supers_upto (Z.to_nat (groups aux)).
Definition reserved_regions (S : list Z) : list extent := (fun g => (reserved_block g 0, reserve, g)) <$> S.

Lemma supers_S n : supers_upto (S n) = supers_upto n ++ (if ext4_bg_has_super_block info (Z.of_nat n) then [Z.of_nat n] else []).
Proof.
  unfold supers_upto. rewrite seq_S, fmap_app, filter_app. f_equal. cbn [fmap list_fmap Nat.add].
  destruct (ext4_bg_has_super_block info (Z.of_nat n)) eqn:H; [by rewrite filter_cons_True|rewrite filter_cons_False by congruence; done].
Qed.

Lemma supers_elem n g : g ∈ supers_upto n -> 0 <= g < Z.of_nat n /\ ext4_bg_has_super_block info g = true.
Proof. intros H. apply list_elem_of_filter in H as [H1 H2]. apply list_elem_of_fmap in H2 as (k & -> & Hk). apply elem_of_seq in Hk. split; [lia|done]. Qed.

Lemma super_zero : ext4_bg_has_super_block info 0 = true.
Proof. unfold ext4_bg_has_super_block. by destruct (_ =? 0). Qed.

Lemma supers_first n : (0 < n)%nat -> supers_upto n !! 0%nat = Some 0.
Proof. intros Hn. destruct n as [|n]; [lia|]. unfold supers_upto. cbn [seq fmap list_fmap]. rewrite filter_cons_True by apply super_zero. done. Qed.

Lemma supers_length : blen supers <= groups aux.
Proof using Hge.
  unfold supers, supers_upto, blen. pose proof (length_filter (fun g => ext4_bg_has_super_block info g = true) (Z.of_nat <$> seq 0 (Z.to_nat (groups aux)))) as H.
  rewrite length_fmap, length_seq in H. pose proof (ge_groups _ _ Hge). lia.
Qed.

(** The reserved blocks lie in front of their group's tables. *)
Lemma reserved_range g r : 0 <= g < groups aux -> ext4_bg_has_super_block info g = true -> 0 <= r < reserve ->
  0 <= start g /\ start g <= reserved_block g r < start g + header info aux g /\ header info aux g <= blocks_per_group info /\ start g + blocks_per_group info < 2 ^ 32.
Proof using Hge Hla Hrg.
  intros Hg Hs Hr. pose proof (la_header _ _ Hla g Hg) as Hh. pose proof (ge_end _ _ Hge). pose proof (ge_bpg _ _ Hge). pose proof (ge_first _ _ Hge). pose proof (la_tables _ _ Hla).
  pose proof (rg_desc Hrg). unfold group_size in Hh. unfold reserved_block, header, super_blocks in *. rewrite Hs in *. unfold group_start in *. split_and!; try lia; nia.
Qed.

Lemma resize_regions_ok k : forall n s a l, (n + k = Z.to_nat (groups aux))%nat -> listed (heap s) (al_list a) l -> l.*2 = reserved_regions (supers_upto n) ->
  exists a' l' h, resize_regions params aux a (seq n k) s = Ok a' (with_heap s h) /\ listed h (al_list a') l' /\ l'.*2 = reserved_regions supers /\ oob_list a' = oob_list a.
Proof using Hge Hla Hrg.
  induction k as [|k IH]; intros n s a l Hn Hl He; cbn [seq resize_regions].
  { exists a, l, (heap s). rewrite Nat.add_0_r in Hn. subst n. split_and!; try done. by destruct s. }
  pose proof (ge_groups _ _ Hge). assert (Hgn : 0 <= Z.of_nat n < groups aux) by lia. rewrite (s32_small (Z.of_nat n)) by lia. destruct (ext4_bg_has_super_block info (Z.of_nat n)) eqn:Hsup.
  - pose proof (rg_reserve Hrg). destruct (reserved_range (Z.of_nat n) 0 Hgn Hsup ltac:(lia)) as (R1 & R2 & R3 & R4). fold (start (Z.of_nat n)).
    rewrite (u32_small (start (Z.of_nat n))) by (unfold is_u32; lia). assert (Hb : u32 (start (Z.of_nat n) + 1 + bg_desc_blocks aux) = reserved_block (Z.of_nat n) 0).
    { unfold reserved_block in *. rewrite Z.add_0_r in *. apply u32_small. unfold is_u32. lia. }
    rewrite Hb. destruct (append_region_ok s a l (reserved_block (Z.of_nat n) 0) reserve (Z.of_nat n) Hl) as (p & a1 & h & Hr & Hl1 & Ho). run Hr.
    destruct (IH (S n) (with_heap s h) a1 (l ++ [(p, (reserved_block (Z.of_nat n) 0, reserve, Z.of_nat n))])) as (a' & l' & h' & Hrun & Hl' & He' & Ho'); [lia|done| |].
    + rewrite supers_S, Hsup. unfold reserved_regions. rewrite !fmap_app, He. done.
    + exists a', l', h'. split_and!; [done|done|done|congruence].
  - erewrite (bind_Ok (mret a)) by reflexivity. cbv beta. apply (IH (S n) s a l); [lia|done|]. by rewrite supers_S, Hsup, app_nil_r.
Qed.

(** ** The two levels *)

Lemma resize_index_range i : 0 <= resize_index info aux i < reserve.
Proof using Hge Hrg.
  unfold resize_index. pose proof (rg_reserve Hrg). pose proof (ge_bs _ _ Hge). set (x := u32 (i - bg_desc_blocks aux) mod reserve).
  assert (Hx : 0 <= x < reserve) by (apply Z.mod_pos_bound; lia). rewrite (s32_small x) by lia. rewrite (proj2 (Z.ltb_ge x 0)) by lia. done.
Qed.

(** Entry [x] of a block of 32-bit numbers. *)
Abbreviation entry x := ((4 * x, 4%nat) : fld).

(** The copies of reserved block [r], in block [r] of the second level. *)
Definition copies_listed (II : list byte) (r : Z) (n : nat) : Prop :=
  forall j g, (1 <= j <= n)%nat -> supers !! j = Some g -> get_field (entry (r * per + (Z.of_nat j - 1))) II = reserved_block g r.

Lemma entry_apart x y : x <> y -> apart (entry x) (entry y).
Proof. unfold apart. cbn. lia. Qed.

Lemma copies_index r j r' j' : 0 <= r -> 0 <= r' -> (1 <= j)%nat -> (1 <= j')%nat -> Z.of_nat j <= per -> Z.of_nat j' <= per -> r * per + (Z.of_nat j - 1) = r' * per + (Z.of_nat j' - 1) -> r = r' /\ j = j'.
Proof. intros. destruct (Z.div_mod_unique per r r' (Z.of_nat j - 1) (Z.of_nat j' - 1)) as [-> ?]; [lia..|]. split; [done|]. lia. Qed.

Lemma supers_small : Z.of_nat (length supers) <= per.
Proof using Hge Heg Hrg.
  pose proof supers_length as Hs. unfold blen in Hs. pose proof (eg_groups _ _ Heg) as He. pose proof (rg_per Hrg). pose proof (eg_bs _ _ Heg).
  pose proof (Z.div_mod (bs - 12) 12 ltac:(lia)). pose proof (Z.mod_pos_bound (bs - 12) 12 ltac:(lia)). lia.
Qed.

(** Numbers of blocks the loops read. *)
Lemma region_bounds : Forall (fun '(b, n, _) => 0 <= b /\ 0 < n /\ b + n <= 2 ^ 32) (reserved_regions supers).
Proof using Hge Hla Hrg.
  apply Forall_fmap, Forall_forall. intros g Hg. apply supers_elem in Hg as [Hg Hs]. pose proof (rg_reserve Hrg). pose proof (ge_groups _ _ Hge).
  destruct (reserved_range g (reserve - 1) ltac:(lia) Hs ltac:(lia)) as (R1 & R2 & R3 & R4). destruct (reserved_range g 0 ltac:(lia) Hs ltac:(lia)) as (_ & R5 & _).
  unfold reserved_block in *. cbn. lia.
Qed.

Lemma get_reserved s a l j g r : listed (heap s) (al_list a) l -> l.*2 = reserved_regions supers -> supers !! j = Some g -> 0 <= r < reserve ->
  get_block a (u32 (Z.of_nat j * reserve + r)) s = Ok (reserved_block g r) s.
Proof using Hge Hla Hrg Heg.
  intros Hl He Hj Hr. pose proof supers_small as Hsm. pose proof (lookup_lt_Some _ _ _ Hj). pose proof (rg_reserve Hrg). pose proof (rg_per Hrg). pose proof (eg_bs _ _ Heg).
  assert (0 <= Z.of_nat j * reserve + r < 2 ^ 32) by nia. rewrite u32_small by (unfold is_u32; lia).
  unfold get_block. rewrite (get_block_listed s (al_list a) l) by (try rewrite He; done || apply region_bounds || lia). rewrite He.
  unfold reserved_regions. rewrite (blocks_regular (fun g => reserved_block g 0) reserve supers ltac:(lia) j g r Hj Hr). unfold reserved_block. cbn. f_equal. lia.
Qed.

Lemma reserved_u32 g r j : supers !! j = Some g -> 0 <= r < reserve -> 0 <= reserved_block g r < 2 ^ 32.
Proof using Hge Hla Hrg.
  intros Hj Hr. apply list_elem_of_lookup_2, supers_elem in Hj as [Hg Hs]. pose proof (ge_groups _ _ Hge). destruct (reserved_range g r ltac:(lia) Hs Hr) as (R1 & R2 & R3 & R4). lia.
Qed.

(** The state with the second level's buffer changed. *)
Lemma resize_inner_ok a l ii r : forall n j s II, listed (heap s) (al_list a) l -> l.*2 = reserved_regions supers -> 0 <= r < reserve -> (1 <= j)%nat -> (j + n = length supers)%nat ->
  bufs s !! ii = Some II -> blen II = bs * reserve -> copies_listed II r (j - 1) ->
  exists II', resize_inner info aux n ii a r (Z.of_nat j) s = Ok tt (set_buf s ii II') /\ blen II' = bs * reserve /\ copies_listed II' r (length supers - 1) /\
    forall r' m, 0 <= r' -> r' <> r -> (m < length supers)%nat -> copies_listed II r' m -> copies_listed II' r' m.
Proof using Hge Hla Hrg Heg.
  induction n as [|n IH]; intros j s II Hl He Hr Hj Hn Hb HI Hc; cbn [resize_inner].
  { exists II. split; [by rewrite set_buf_id|]. split; [done|]. split; [|done]. replace (length supers - 1)%nat with (j - 1)%nat by lia. done. }
  destruct (lookup_lt_is_Some_2 supers j) as [g Hg]; [lia|]. run (get_reserved s a l j g r Hl He Hg Hr). pose proof supers_small as Hsm.
  pose proof (rg_reserve Hrg). pose proof (rg_per Hrg). pose proof (eg_bs _ _ Heg). set (x := r * per + (Z.of_nat j - 1)).
  assert (Hx : 0 <= x < reserve * per) by (unfold x; nia). assert (Hux : u32 (r * per + Z.of_nat j - 1) = x) by (unfold x; rewrite u32_small; [lia|unfold is_u32; nia]). rewrite Hux.
  assert (Hin : in_buffer (blen II) (entry x)) by (unfold in_buffer; cbn; nia).
  run (set_field_ok s ii II (entry x) (reserved_block g r) Hb Hin). pose proof (reserved_u32 g r j Hg Hr) as Hu. set (II1 := write_field II (entry x) (reserved_block g r)).
  assert (Hkeep : forall r' m, 0 <= r' -> (m < length supers)%nat -> (r' = r -> (m < j)%nat) -> copies_listed II r' m -> copies_listed II1 r' m).
  { intros r' m Hr' Hm Hrj Hcl j' g' Hj' Hg'. unfold II1. rewrite get_write_other; [by apply Hcl|done|cbn; nia|]. apply entry_apart. intros Heq.
    destruct (copies_index r' j' r j) as [Hr2 Hj2]; try lia. }
  destruct (IH (S j) (set_buf s ii II1) II1) as (II' & Hrun & HI' & Hc' & Ho); try done; try lia.
  - by apply (lookup_set_buf s ii II).
  - unfold II1. by rewrite blen_write_field.
  - intros j' g' Hj' Hg'. destruct (decide (j' = j)) as [->|Hne].
    + assert (g' = g) as -> by congruence. fold x. unfold II1. rewrite get_write_field by done. by apply Z.mod_small.
    + apply (Hkeep r (j - 1)%nat); try done; lia.
  - exists II'. replace (Z.of_nat j + 1) with (Z.of_nat (S j)) by lia. rewrite Hrun, set_buf_twice. split_and!; try done.
    intros r' m Hr' Hne Hm Hcl. apply Ho; try done. by apply Hkeep.
Qed.

Definition firsts_listed (DD : list byte) (n : Z) : Prop := forall x, 0 <= x < n -> get_field (entry x) DD = reserved_block 0 (resize_index info aux x).
Definition all_copies_listed (II : list byte) (n : Z) : Prop := forall x, 0 <= x < n -> copies_listed II (resize_index info aux x) (length supers - 1).

Lemma supers_some : supers !! 0%nat = Some 0 /\ (1 <= length supers)%nat.
Proof using Hrg. pose proof (rg_groups Hrg). assert (H1 : supers !! 0%nat = Some 0) by (apply supers_first; lia). split; [done|]. apply lookup_lt_Some in H1. lia. Qed.

Lemma resize_loop_ok a l dd ii : forall n i s DD II, listed (heap s) (al_list a) l -> l.*2 = reserved_regions supers -> 0 <= i -> i + Z.of_nat n = reserve -> dd <> ii ->
  bufs s !! dd = Some DD -> blen DD = bs -> bufs s !! ii = Some II -> blen II = bs * reserve -> firsts_listed DD i -> all_copies_listed II i ->
  exists DD' II', resize_loop info aux n dd ii a (blen supers) i s = Ok tt (set_buf (set_buf s dd DD') ii II') /\
    blen DD' = bs /\ blen II' = bs * reserve /\ firsts_listed DD' reserve /\ all_copies_listed II' reserve.
Proof using Hge Hla Hrg Heg.
  destruct supers_some as [H0 H1]. pose proof (rg_reserve Hrg). pose proof (eg_bs _ _ Heg).
  induction n as [|n IH]; intros i s DD II Hl He Hi Hn Hne Hd HD Hb HI Hf Hc; cbn [resize_loop].
  { rewrite Z.add_0_r in Hn. subst i. exists DD, II. by rewrite (set_buf_id s dd DD Hd), set_buf_id. }
  set (r := resize_index info aux i). pose proof (resize_index_range i) as Hr. fold r in Hr.
  pose proof (get_reserved s a l 0 0 r Hl He H0 Hr) as Hg. change (Z.of_nat 0 * reserve + r) with r in Hg. run Hg.
  assert (Hin : in_buffer (blen DD) (entry i)) by (unfold in_buffer; cbn; lia).
  run (set_field_ok s dd DD (entry i) (reserved_block 0 r) Hd Hin). set (DD1 := write_field DD (entry i) (reserved_block 0 r)). set (s1 := set_buf s dd DD1).
  assert (Hb1 : bufs s1 !! ii = Some II) by (unfold s1; by rewrite lookup_set_buf_ne).
  assert (HD1 : blen DD1 = bs) by (unfold DD1; by rewrite blen_write_field).
  assert (Hk : (Z.to_nat (blen supers - 1) = length supers - 1)%nat) by (unfold blen; lia). rewrite Hk.
  destruct (resize_inner_ok a l ii r (length supers - 1) 1 s1 II Hl He Hr ltac:(lia) ltac:(lia) Hb1 HI) as (II1 & Hrun & HI1 & Hc1 & Ho); [intros j g Hj; lia|].
  change (Z.of_nat 1) with 1 in Hrun. run Hrun.
  destruct (IH (i + 1) (set_buf s1 ii II1) DD1 II1) as (DD' & II' & Hrest & Hrem); try done; try lia.
  - rewrite lookup_set_buf_ne by done. by apply (lookup_set_buf s dd DD).
  - by apply (lookup_set_buf s1 ii II).
  - intros x Hx. destruct (Z.eq_dec x i) as [->|Hxi].
    + unfold DD1. rewrite get_write_field by done. apply Z.mod_small. by apply (reserved_u32 0 r 0).
    + unfold DD1. rewrite get_write_other; [apply Hf; lia|done|cbn; lia|by apply entry_apart].
  - intros x Hx. destruct (Z.eq_dec x i) as [->|Hxi]; [done|]. destruct (Z.eq_dec (resize_index info aux x) r) as [->|Hxr]; [done|].
    apply Ho; [pose proof (resize_index_range x); lia|done|lia|]. apply Hc. lia.
  - exists DD', II'. split; [|done]. rewrite Hrest. f_equal. unfold s1. by rewrite (set_buf_comm _ ii dd), !set_buf_twice by done.
Qed.

(** The inode's entry of the first level. *)
Definition dind_field : fld := (4 * EXT4_DIND_BLOCK, 4%nat).
Definition first_queue (dd : nat) (b : Z) : queued := QData (Buf dd) 0 bs b.
Definition second_queue (ii : nat) : queued := QData (Buf ii) 0 (bs * reserve) (reserved_block 0 0).

(** The state [inode_attach_resize] leaves behind the allocation in [s2]. *)
Definition resize_state (s2 : fs) (b : Z) (DD II : list byte) (i : ext4_inode) : fs :=
  let dd := length (bufs s2) in
  mk_fs (bgs s2) (heap s2) (ext4_sparse_file s2 ++ [first_queue dd b; second_queue (S dd)]) (xattrs s2) (<[inode_of EXT4_RESIZE_INO := i]> (inodes s2)) (bufs s2 ++ [DD; II]).

Lemma regions_len : 0 <= blocks_len (reserved_regions supers) < 2 ^ 32 /\ blocks_len (reserved_regions supers) = reserve * blen supers.
Proof using Hge Heg Hrg.
  assert (Hl : blocks_len (reserved_regions supers) = reserve * blen supers) by apply regular_len. rewrite Hl. split; [|done].
  pose proof supers_small as Hsm. pose proof (rg_reserve Hrg). pose proof (rg_per Hrg). pose proof (eg_bs _ _ Heg). unfold blen. nia.
Qed.

Lemma insert_two {A} (l : list A) x y x' y' : <[S (length l) := y']> (<[length l := x']> (l ++ [x; y])) = l ++ [x'; y'].
Proof.
  rewrite insert_app_r_alt, Nat.sub_diag by lia. rewrite insert_app_r_alt by lia. by replace (S (length l) - length l)%nat with 1%nat by lia.
Qed.

Lemma attach_resize_ok s a l : listed (heap s) (al_list a) l -> l.*2 = reserved_regions supers -> oob_list a = mk_rl None None None 0 -> fs_ok info aux s -> 0 < total_free s ->
  blen (i_block (the_inode s EXT4_RESIZE_INO)) = 60 ->
  exists a' p b g s2 DD II i, inode_attach_resize force info aux (inode_of EXT4_RESIZE_INO) a s = Ok a' (resize_state s2 b DD II i) /\
    handed info aux s [(b, 1, g)] s2 /\ same_rest s s2 /\ listed (heap s2) (al_list a') l /\ listed (heap s2) (oob_list a') [(p, (b, 1, g))] /\ p ∉ l.*1 /\
    blen DD = bs /\ blen II = bs * reserve /\ firsts_listed DD reserve /\ all_copies_listed II reserve /\
    blen (i_block i) = 60 /\ get_field dind_field (i_block i) = b.
Proof using Hge Hla Hrg Heg.
  intros Hl He Ho Hs Hfree Hi. destruct regions_len as [Hlen Hrl]. pose proof (rg_reserve Hrg). pose proof (eg_bs _ _ Heg). pose proof (rg_per Hrg). destruct supers_some as [Hz0 Hz1].
  assert (Hpos : Forall (fun x : extent => 0 <= x.1.2) l.*2) by (rewrite He; apply Forall_fmap, Forall_true; intros; cbn; lia).
  unfold inode_attach_resize. rewrite <- He in Hlen, Hrl. run (allocation_len_ok s a l Hl Hpos ltac:(lia)). rewrite u32_s32 by (unfold is_u32; lia).
  rewrite (proj2 (Z.eqb_neq reserve 0)) by lia. rewrite Hrl, (Z.mul_comm reserve), Z.mod_mul, Z.div_mul by lia. change (negb (0 =? 0)) with false. cbv iota.
  destruct (append_oob_ok force info aux s a l Hge Hs Hfree Hl Ho) as (a' & p & b & g & s2 & Hap & Ha & Hl2 & Ho2 & Hp & Hha & Hrest). run Hap.
  pose proof (ha_in _ _ _ _ _ Hha) as Hin. apply Forall_cons in Hin as [(_ & Hg & Hb1 & Hb2) _]. pose proof (ge_end _ _ Hge). pose proof (ge_bpg _ _ Hge). pose proof (ge_first _ _ Hge).
  assert (Hb : 0 <= b /\ b + 1 <= 2 ^ 32) by (split; nia).
  assert (Hob : get_oob_block a' 0 s2 = Ok b s2).
  { unfold get_oob_block. rewrite (get_block_listed s2 (oob_list a') _ 0 Ho2); [done| |lia]. cbn. constructor; [lia|constructor]. }
  run Hob. set (dd := length (bufs s2)).
  set (s3 := mk_fs (bgs s2) (heap s2) (ext4_sparse_file s2) (xattrs s2) (inodes s2) (bufs s2 ++ [zeros bs])).
  erewrite (bind_Ok (calloc bs) _ s2 dd s3) by reflexivity. cbv beta.
  set (s4 := mk_fs (bgs s2) (heap s2) (ext4_sparse_file s2 ++ [first_queue dd b]) (xattrs s2) (inodes s2) (bufs s2 ++ [zeros bs])).
  erewrite (bind_Ok (queue _) _ s3 tt s4) by reflexivity. cbv beta.
  set (s5 := mk_fs (bgs s2) (heap s2) (ext4_sparse_file s2 ++ [first_queue dd b]) (xattrs s2) (inodes s2) ((bufs s2 ++ [zeros bs]) ++ [zeros (bs * reserve)])).
  assert (Hdl : length (bufs s4) = S dd) by (cbn; rewrite length_app; cbn; lia).
  erewrite (bind_Ok (calloc (bs * reserve)) _ s4 (S dd) s5) by (unfold calloc; rewrite Hdl; reflexivity). cbv beta.
  pose proof (get_reserved s5 a' l 0 0 0 Hl2 He Hz0 ltac:(lia)) as Hg0. change (u32 (Z.of_nat 0 * reserve + 0)) with 0 in Hg0. run Hg0.
  rewrite (u32_small (bs * reserve)) by (unfold is_u32; nia).
  set (s6 := mk_fs (bgs s2) (heap s2) (ext4_sparse_file s2 ++ [first_queue dd b; second_queue (S dd)]) (xattrs s2) (inodes s2) (bufs s2 ++ [zeros bs; zeros (bs * reserve)])).
  erewrite (bind_Ok (queue _) _ s5 tt s6) by (unfold queue, s5, s6; cbn; by rewrite <- !app_assoc). cbv beta.
  assert (L1 : bufs s6 !! dd = Some (zeros bs)) by (cbn; by apply list_lookup_middle).
  assert (L2 : bufs s6 !! S dd = Some (zeros (bs * reserve))) by (cbn; rewrite lookup_app_r by lia; by replace (S dd - length (bufs s2))%nat with 1%nat by lia).
  destruct (resize_loop_ok a' l dd (S dd) (Z.to_nat reserve) 0 s6 (zeros bs) (zeros (bs * reserve)) Hl2 He ltac:(lia) ltac:(lia) ltac:(lia) L1 ltac:(apply blen_zeros; lia) L2 ltac:(apply blen_zeros; nia))
    as (DD & II & Hrun & HD & HI & Hf & Hc); [intros x Hx; lia|intros x Hx; lia|]. run Hrun. set (s7 := set_buf (set_buf s6 dd DD) (S dd) II).
  set (i0 := the_inode s EXT4_RESIZE_INO) in *. assert (Hi7 : the_inode s7 EXT4_RESIZE_INO = i0) by (cbn; destruct Hrest as (_ & _ & -> & _); done).
  set (i1 := set_i_block i0 (write_field (i_block i0) dind_field b)).
  assert (Hfld : in_buffer (blen (i_block i0)) dind_field) by (rewrite Hi; unfold in_buffer, dind_field, EXT4_DIND_BLOCK, EXT4_IND_BLOCK, EXT4_NDIR_BLOCKS; cbn; lia).
  assert (Hpk : poke_inode (inode_of EXT4_RESIZE_INO) (4 * EXT4_DIND_BLOCK) (le_split 4 b) s7 = Ok tt (with_inode s7 (inode_of EXT4_RESIZE_INO) i1)).
  { unfold poke_inode. erewrite (bind_Ok (read_inode _)) by reflexivity. cbv beta. rewrite Hi7. rewrite (proj2 (Z.leb_le _ _)); [done|]. unfold blen. rewrite LittleEndianList.length_le_split.
    unfold EXT4_DIND_BLOCK, EXT4_IND_BLOCK, EXT4_NDIR_BLOCKS, EXT4_BLOCK_BYTES. lia. }
  run Hpk. rewrite (bind_Ok _ _ _ _ _ (update_inode_ok _ _ _)). rewrite the_inode_eq, with_inode_twice. set (i' := set_size _ _ _).
  eexists a', p, b, g, s2, DD, II, i'. split_and!; try done.
  - unfold mret, fsM_ret. f_equal. unfold s7, resize_state, set_buf, with_inode. cbn. unfold dd. by rewrite insert_two.
  - change (blen (write_field (i_block i0) dind_field b) = 60). by rewrite blen_write_field.
  - change (get_field dind_field (write_field (i_block i0) dind_field b) = b). rewrite get_write_field by done. apply Z.mod_small. cbn. lia.
Qed.

(** What a reader finds in the resize inode: the entry of the first level, and
    behind it the reserved blocks of the first group and their copies. *)
Definition resize_at (own : nat -> Prop) (s : fs) : Prop :=
  exists b dd DD ii II, get_field dind_field (i_block (the_inode s EXT4_RESIZE_INO)) = b /\ own dd /\ own ii /\
    first_queue dd b ∈ ext4_sparse_file s /\ bufs s !! dd = Some DD /\ firsts_listed DD reserve /\
    second_queue ii ∈ ext4_sparse_file s /\ bufs s !! ii = Some II /\ all_copies_listed II reserve /\
    i_mode (the_inode s EXT4_RESIZE_INO) = reserved_mode /\ i_links_count (the_inode s EXT4_RESIZE_INO) = 1.

Lemma resize_frame I (own : nat -> Prop) s s' : frame info I own s s' -> I EXT4_RESIZE_INO -> resize_at own s -> resize_at own s'.
Proof.
  intros Hf HI (b & dd & DD & ii & II & R1 & R2 & R3 & R4 & R5 & R6 & R7 & R8 & R9 & R10 & R11). pose proof (fr_inodes _ _ _ _ _ Hf _ HI) as Hi.
  destruct (fr_queue _ _ _ _ _ Hf) as [r Hr]. exists b, dd, DD, ii, II. rewrite Hi, Hr. split_and!; try done.
  - apply elem_of_app. by left.
  - by apply (fr_bufs _ _ _ _ _ Hf).
  - apply elem_of_app. by left.
  - by apply (fr_bufs _ _ _ _ _ Hf).
Qed.

(** The invariant after blocks were handed out and pieces of them queued. *)
Lemma handed_image s l s2 s' n q : image_ok info aux s -> used_inode info s n -> handed info aux s l s2 -> bgs s' = bgs s2 ->
  (forall p, p <> inode_of n -> inodes s' !! p = inodes s !! p) -> blen (i_block (the_inode s' n)) = EXT4_BLOCK_BYTES ->
  ext4_sparse_file s' = ext4_sparse_file s ++ q -> (forall e, e ∈ q -> used info s2 (queued_block e)) -> image_ok info aux s'.
Proof using Hge Hig.
  intros [If Ii It Ib In Iz Iq] Hun Hha Hb Hin Hbo Hq Hqu. pose proof (ha_keeps _ _ _ _ _ Hha) as Hke. pose proof (keeps_same_inodes info s s2 Hke) as Hsi.
  assert (Hu : forall x, used info s' x <-> used info s2 x) by (intros x; by apply used_bgs).
  assert (Hm : forall x, used info s x -> used info s' x) by (intros x Hx; apply Hu, (ha_used _ _ _ _ _ Hha); by left). split.
  - by apply (fs_ok_bgs info aux s2); [|apply Hha].
  - rewrite Hb. by apply (same_inodes_bg info s s2).
  - rewrite Hb. apply Forall_lookup_2. intros i bg' Hi. destruct (Forall2_lookup_r _ _ _ _ _ Hke Hi) as (bg & Hbg & Hk).
    apply Hm. rewrite (table_block_keep info aux bg bg') by apply Hk. by apply (Forall_lookup_1 _ _ _ _ It Hbg).
  - intros p. destruct (decide (p = inode_of n)) as [->|Hne]; [done|]. by rewrite Hin.
  - intros m Hm0 Hnu. assert (Hnu' : ~ used_inode info s m).
    { intros Hx. apply Hnu. apply (same_inodes_used info s s2 m Hsi) in Hx. destruct Hx as (i & bg & Hx). exists i, bg. by rewrite Hb. }
    rewrite Hin; [by apply In|]. intros Heq. pose proof (ig_ipg _ _ Hig). apply inode_at_inj in Heq as ->; [done|lia].
  - intros Hz. by apply Hm, Iz.
  - intros e. rewrite Hq, elem_of_app. intros [He|He]; [by apply Hm, Iq|]. by apply Hu, Hqu.
Qed.

Lemma resize_ok s : image_ok info aux s -> used_inode info s EXT4_RESIZE_INO -> 0 < EXT4_RESIZE_INO <= groups aux * inodes_per_group info -> 0 < total_free s ->
  (forall b, reserved info aux b -> used info s b) ->
  exists s', ext4_create_resize_inode force params aux s = Ok tt s' /\ fills params aux EXT4_RESIZE_INO (old_bufs s) 1 s s' /\ resize_at (new_bufs s s') s'.
Proof using Hge Hla Hig Heg Hrg.
  intros Him Hun Hr Hfree Hres. unfold ext4_create_resize_inode.
  destruct (get_inode_ok info aux Hge Hig s EXT4_RESIZE_INO Him Hr) as (q & s1 & Hg & Hp). run Hg. destruct (pr_rest _ _ _ _ _ Hp) as (_ & _ & Pi & Pb).
  destruct (resize_regions_ok (Z.to_nat (groups aux)) 0 s1 create_allocation [] ltac:(lia)) as (a & l & h & Hrr & Hl & He & Ho); [apply listed_nil|done|]. run Hrr.
  set (s2 := with_heap s1 h). assert (Hf2 : fs_ok info aux s2) by (apply (fs_ok_bgs info aux s1); [done|apply Hp]).
  assert (Ht2 : total_free s2 = total_free s) by (change (total_free s1 = total_free s); apply (same_blocks_total info s s1), Hp).
  destruct (attach_resize_ok s2 a l Hl He Ho Hf2 ltac:(lia)) as (a' & p & b & g & s3 & DD & II & i & Hat & Hha & Hre & Hl3 & Ho3 & Hpl & HD & HI & Hfi & Hco & Hbl & Hdf).
  { apply (im_bodies _ _ _ (pr_image _ _ _ _ _ Hp)). }
  run Hat. set (s4 := resize_state s3 b DD II i). rewrite (bind_Ok _ _ _ _ _ (update_inode_ok _ _ s4)). set (s5 := with_inode s4 _ _).
  destruct (free_alloc_ok s5 a' l [(p, (b, 1, g))]) as (h' & Hfr & _).
  { eapply seg_sseg. apply Hl3. }
  { eapply seg_sseg. apply Ho3. }
  { apply NoDup_app. split; [apply Hl3|]. split; [|apply NoDup_singleton]. intros x Hx Hin. apply list_elem_of_singleton in Hin as ->. done. }
  rewrite Hfr. set (s' := with_heap s5 h'). exists s'. split; [done|]. destruct Hre as (Rq & Rx & Ri & Ru).
  set (dd := length (bufs s)). assert (Hdd : length (bufs s3) = dd) by (rewrite Ru; change (bufs s2) with (bufs s1); by rewrite Pb).
  assert (Hq' : ext4_sparse_file s' = ext4_sparse_file s1 ++ [first_queue dd b; second_queue (S dd)]) by (cbn; by rewrite Hdd, Rq).
  assert (Hb' : bufs s' = bufs s ++ [DD; II]) by (cbn; rewrite Ru; change (bufs s2) with (bufs s1); by rewrite Pb).
  assert (Hi' : the_inode s' EXT4_RESIZE_INO = set_mode i reserved_mode 1) by (cbn; by rewrite !lookup_insert_eq).
  assert (Hha1 : handed info aux s1 [(b, 1, g)] s3) by (by apply (handed_bgs_l info aux s2 s1)).
  assert (Hu1 : forall x, used info s1 x <-> used info s x) by (intros x; apply (same_blocks_used info aux Hge s s1), Hp).
  assert (Hm : forall x, used info s x -> used info s3 x) by (intros x Hx; apply (ha_used _ _ _ _ _ Hha1); left; by apply Hu1). split; [split|].
  - apply (handed_image s1 [(b, 1, g)] s3 s' EXT4_RESIZE_INO [first_queue dd b; second_queue (S dd)]); try done.
    + apply Hp.
    + by apply (same_inodes_used info s s1); [apply Hp|].
    + intros q' Hq0. cbn. rewrite insert_insert_eq, lookup_insert_ne by congruence. by rewrite Ri.
    + rewrite Hi'. exact Hbl.
    + intros e Hin. apply elem_of_cons in Hin as [->|Hin]; [|apply list_elem_of_singleton in Hin as ->].
      * apply (ha_used _ _ _ _ _ Hha1). right. cbn. by left.
      * apply Hm, Hres. pose proof (rg_reserve Hrg). pose proof (rg_groups Hrg). destruct (reserved_range 0 0 ltac:(lia) super_zero ltac:(lia)) as (R1 & R2 & R3 & R4).
        exists 0. split; [lia|]. cbn [second_queue queued_block]. lia.
  - transitivity s1; [apply Hp|]. transitivity s3; [apply (keeps_same_inodes info s1 s3), Hha1|]. apply Forall_Forall2_diag, Forall_true. by split.
  - split.
    + intros m Hmn. cbn. rewrite insert_insert_eq, lookup_insert_ne by (intros Heq; by apply (inode_of_other params aux Hig EXT4_RESIZE_INO m)). by rewrite Ri; cbn; rewrite Pi.
    + intros k x Hk Hx. rewrite Hb'. by apply lookup_app_l_Some.
    + rewrite Hq', (pr_queue _ _ _ _ _ Hp), <- app_assoc. by eexists.
  - rewrite Hb', length_app. lia.
  - intros x Hx. by apply Hm.
  - change (total_free s - 1 <= total_free s3). rewrite (ha_total _ _ _ _ _ Hha). change (blocks_len [(b, 1, g)]) with (1 + 0). lia.
  - exists b, dd, DD, (S dd), II. rewrite Hi', Hq', Hb'. unfold new_bufs. rewrite Hb', length_app. cbn [length]. split_and!; try done; try (fold dd; lia).
    + apply elem_of_app. right. by left.
    + by apply list_lookup_middle.
    + apply elem_of_app. right. right. by left.
    + rewrite lookup_app_r by (fold dd; lia). fold dd. by replace (S dd - dd)%nat with 1%nat by lia.
Qed.
End Resize.
