(* ===== verification/Ext4Make.v ===== *)
(** * Making an image (ext4_utils: make_ext4fs.c)

    [make_ext4fs_internal] from its arguments to the calls of libsparse: the
    parameters, the superblock, the reserved inodes, the tree, the counts.  The
    jump of [error] ends the run with [EXIT_FAILURE]. *)
From S2P Require Import Prelude CStrings Ext4Alloc Ext4Extent Ext4Indirect Ext4Contents Ext4Xattr Ext4Build Ext4Sha1 Ext4Uuid Ext4Params Ext4Super.

Definition EXIT_FAILURE : Z := 1.

(** [S_IRWXU | S_IRGRP | S_IXGRP | S_IROTH | S_IXOTH]. *)
Definition root_mode : Z := 0x1ED.

Definition empty_fs : fs := mk_fs [] ∅ [] [] ∅ [].

Section Make.
Context (force android : bool) (ctx : SHA1_CTX).
Context (scandir : string -> (string -> bool) -> option (list string)) (lstat : string -> option stat)
  (readlink : string -> Z -> option (list byte)).
Context (fs_config_func : option (string -> bool -> Z * Z * Z * Z)) (sehnd : option (string -> Z -> option (list byte))) (fixed_time : Z).

Section Image.
Context (params : fs_parameters) (aux : fs_aux_info).
Abbreviation info := (p_info params).

(** A feature of [info.feat_compat]. *)
Definition compat (feature : Z) : bool := negb (Z.land (feat_compat params) feature =? 0).

(** The root directory: its inode and the chain of saved allocations. *)
Definition make_root (fuel : nat) (directory : option string) (mountpoint : string) : fsM (Z * list (string * block_allocation)) :=
  match directory with
  | Some directory =>
      build_directory_structure force android info aux scandir lstat readlink fs_config_func sehnd fixed_time fuel (Some directory) mountpoint 0 []
  | None => n ← build_default_directory_structure force info aux sehnd mountpoint; mret (n, [])
  end.

Definition label_root (root_inode_num : Z) (mountpoint : string) : fsM unit :=
  match sehnd with
  | None => mret tt
  | Some selabel_lookup =>
      match selabel_lookup mountpoint S_IFDIR with
      | None => error force
      | secontext => _ ← inode_set_selinux force info aux root_inode_num secontext; mret tt
      end
  end.

(** The inodes before the root directory. *)
Definition make_reserved (sb : nat) : fsM unit :=
  r ← reserve_inodes info 0 10;
  _ ← (if r =? EXT4_ALLOCATE_FAILED then error force else mret tt);
  _ ← (if compat EXT4_FEATURE_COMPAT_HAS_JOURNAL then ext4_create_journal_inode force params aux sb else mret tt);
  if compat EXT4_FEATURE_COMPAT_RESIZE_INODE then ext4_create_resize_inode force params aux else mret tt.

(** From the buffers of [aux_info] to the last call of libsparse; the buffers
    of the superblock and of the descriptors. *)
Definition make_image (fuel : nat) (directory : option string) (mountpoint : string) : fsM (nat * nat * list (string * block_allocation)) :=
  '(sb, bg_desc) ← create_buffers params aux;
  _ ← block_allocator_init force info aux;
  _ ← ext4_fill_in_sb params aux ctx sb bg_desc;
  _ ← make_reserved sb;
  '(root_inode_num, saved) ← make_root fuel directory mountpoint;
  _ ← inode_set_permissions info aux root_inode_num root_mode 0 0 0;
  _ ← label_root root_inode_num mountpoint;
  _ ← ext4_update_free aux sb bg_desc;
  _ ← ext4_queue_sb params sb;
  mret (sb, bg_desc, saved).
End Image.

(** The return value, and on success what is handed to libsparse. *)
Definition make_ext4fs_internal (fuel : nat) (p : fs_parameters) (st : option file_kind) (directory mountpoint : option string) : outcome (Z * option fs) :=
  let mountpoint := match mountpoint with None => EmptyString | Some m => canonicalize_abs_slashes m end in
  let directory := match directory with None => None | Some d => Some (canonicalize_rel_slashes d) end in
  let! params := make_parameters p st in
  match params with
  | None => Done (EXIT_FAILURE, None)
  | Some params =>
      let aux := ext4_create_fs_aux_info (p_info params) in
      match make_image params aux fuel directory mountpoint empty_fs with
      | Ok _ s => Done (0, Some s)
      | Exit _ => Done (EXIT_FAILURE, None)
      | Fault f => Crash f
      end
  end.
End Make.
