(* ===== verification/Ext4MakeCorrect.v ===== *)
(** * An image made by make_ext4fs is a file system with the host's tree

    The stages of [make_ext4fs_internal] one after the other: what each adds,
    and that it keeps what the earlier ones have made. *)
From S2P Require Import Prelude CStrings Ext4Alloc Ext4Bits Ext4AllocCorrect Ext4Extent Ext4ExtentCorrect Ext4InodeCorrect Ext4Indirect Ext4Contents Ext4DirCorrect Ext4ContentsCorrect Ext4Xattr Ext4Build Ext4Tree Ext4TreeCorrect HashCtx Sha Ext4Sha1 Ext4Uuid Ext4Params Ext4Super Ext4SuperCorrect Ext4ParamsCorrect Ext4ReservedCorrect Ext4ResizeCorrect Ext4Make.

(** Parameters the stages can work with. *)
Record usable (params : fs_parameters) (aux : fs_aux_info) : Prop := {
  us_sound : sound params aux;
  us_resize : resize_geometry params aux;
  us_first : 1024 < block_size (p_info params) /\ first_data_block aux = 0;
  us_journal : is_u32 (journal_blocks params) /\ (compat params EXT4_FEATURE_COMPAT_HAS_JOURNAL = true -> 1024 <= journal_len params < 2 ^ 32);
  us_label : blen (the_label params) < 2 ^ 29
}.

Section Stages.
Context (force : bool) (ctx : SHA1_CTX) (params : fs_parameters) (aux : fs_aux_info).
Abbreviation info := (p_info params).
Abbreviation bs := (block_size info).
Abbreviation inode_of n := (inode_at info n).
Abbreviation the_inode s n := (default zero_inode (inodes s !! inode_of n)).
Abbreviation start g := (group_start info aux g).
Context (Hus : usable params aux).


(** ** The allocator and the superblock *)
















(** ** The journal and the resize inode *)

















(** ** The root directory *)





(** ** The counts and the superblock's place *)








(** ** The whole image *)




End Stages.

(** ** The default parameters *)

Lemma default_usable L : 4096 <= L <= 2 ^ 23 -> usable (the_params L) (the_aux L).
Proof.
  intros HL. pose proof (groups_range L HL) as [Hg Hgb]. destruct (the_aux_eq L HL) as (A1 & A2 & A3 & A4 & _). pose proof (default_sound L HL) as Hs.
  pose proof (DIV_ROUND_UP_bounds (32 * the_groups L) 4096 ltac:(lia)) as HD. pose proof (so_some _ _ Hs) as (S1 & S2 & _).
  assert (Hre : 0 < the_reserve L <= 1024) by (unfold the_reserve; lia). pose proof (Z.div_mod L 64 ltac:(lia)). pose proof (Z.mod_pos_bound L 64 ltac:(lia)).
  split; [done| | | |].
  - split; [|by rewrite A4|rewrite A3; lia|done|done]. change (0 < the_reserve L /\ 4 * the_reserve L <= 4096). lia.
  - split; [|done]. change (1024 < 4096). lia.
  - change (is_u32 (the_journal L) /\ (compat (the_params L) EXT4_FEATURE_COMPAT_HAS_JOURNAL = true -> 1024 <= the_journal L * 4096 < 2 ^ 32)). unfold is_u32, the_journal. lia.
  - done.
Qed.


(** ** Theorems *)

(** The parameters fit: for every size from 16 MiB to 32 GiB the defaults
    [make_ext4fs_internal] computes satisfy everything that the allocator, the
    inode tables, the extents, the superblock, the journal and the resize inode
    ask for. *)
Theorem default_parameters_usable len st : 2 ^ 24 <= len <= 2 ^ 35 ->
  exists params, make_parameters (default_parameters len) st = Done (Some params) /\ usable params (ext4_create_fs_aux_info (p_info params)) /\
    i_len (p_info params) = 4096 * (len / 4096).
Proof.
  intros Hlen. exists (the_params (len / 4096)). split; [by apply make_parameters_default|]. split; [|done].
  pose proof (Z.div_mod len 4096 ltac:(lia)). pose proof (Z.mod_pos_bound len 4096 ltac:(lia)). apply default_usable. lia.
Qed.



Module Ext4MakeWitnesses.
Import Ext4TreeWitnesses Sha1Witnesses.

Lemma default_parameters_usable_witness :
  exists params, make_parameters (default_parameters (2 ^ 26)) None = Done (Some params) /\ usable params (ext4_create_fs_aux_info (p_info params)) /\
    i_len (p_info params) = 2 ^ 26.
Proof. exact (default_parameters_usable (2 ^ 26) None ltac:(lia)). Defined.






End Ext4MakeWitnesses.
