(* ===== verification/P256.v ===== *)
(** * 256-bit integers of the P-256 code (libmincrypt p256.c, p256.h)

    A [p256_int] is a list of eight 32-bit digits, least significant first.
    Carries are 64-bit unsigned, borrows 64-bit signed accumulators.  A routine
    that works on the digits from a pointer on gets the rest of the array and
    leaves what is behind the eighth digit as it is.  No routine reads a digit
    after it has overwritten it, so results may share memory with arguments. *)
From S2P Require Import Prelude.

Definition P256_BITSPERDIGIT : Z := 32.
Definition P256_NDIGITS : nat := 8.
Definition P256_NBYTES : nat := 32.

Abbreviation p256_int := (list Z).

(** [P256_DIGIT(x, y)]. *)
Definition P256_DIGIT (x : p256_int) (y : nat) : Z := nth y x 0.

Definition P256_ZERO : p256_int := replicate P256_NDIGITS 0.
Definition P256_ONE : p256_int := 1 :: replicate 7 0.

(** The order of the curve, the size of its field, and its parameter b. *)
Definition SECP256r1_n : p256_int :=
  [0xfc632551; 0xf3b9cac2; 0xa7179e84; 0xbce6faad; u32 (-1); u32 (-1); 0; u32 (-1)].
Definition SECP256r1_p : p256_int := [u32 (-1); u32 (-1); u32 (-1); 0; 0; 0; 1; u32 (-1)].
Definition SECP256r1_b : p256_int :=
  [0x27d2604b; 0x3bce3c3e; 0xcc53b0f6; 0x651d06b0; 0x769886bc; 0xb3ebbd55; 0xaa3a93e7; 0x5ac635d8].

Definition p256_init : p256_int := replicate P256_NDIGITS 0.
Definition p256_clear : p256_int := p256_init.

Definition p256_get_bit (scalar : p256_int) (bit : Z) : Z :=
  Z.land (Z.shiftr (P256_DIGIT scalar (Z.to_nat (Z.quot bit P256_BITSPERDIGIT))) (Z.land bit (P256_BITSPERDIGIT - 1))) 1.

(** The value of [!x] and [!!x]. *)
Definition c_not (x : Z) : Z := if x =? 0 then 1 else 0.

(** [result] is an [int]. *)
Definition p256_is_zero (a : p256_int) : Z := c_not (foldl (fun result d => s32 (Z.lor (u32 result) d)) 0 a).

Definition p256_is_odd (a : p256_int) : Z := Z.land (P256_DIGIT a 0) 1.
Definition p256_is_even (a : p256_int) : Z := c_not (Z.land (P256_DIGIT a 0) 1).

(** ** Carry chains *)

Fixpoint mulAdd_loop (carry b : Z) (a c : list Z) : list Z * Z :=
  match a, c with
  | ai :: a, ci :: c =>
      let carry := u64 (carry + ci) in
      let carry := u64 (carry + u64 (ai * b)) in
      let '(c, carry') := mulAdd_loop (Z.shiftr carry P256_BITSPERDIGIT) b a c in
      (u32 carry :: c, carry')
  | _, _ => (c, carry)
  end.

(** [top, c[] += a[] * b]; the new top. *)
Definition mulAdd (a : p256_int) (b top : Z) (c : list Z) : Z * list Z :=
  let '(c, carry) := mulAdd_loop 0 b a c in (u32 (top + u32 carry), c).

Fixpoint subTop_loop (borrow : Z) (a c : list Z) : list Z * Z :=
  match a, c with
  | ai :: a, ci :: c =>
      let borrow := s64 (borrow + ci) in
      let borrow := s64 (borrow - ai) in
      let '(c, borrow') := subTop_loop (Z.shiftr borrow P256_BITSPERDIGIT) a c in
      (u32 borrow :: c, borrow')
  | _, _ => (c, borrow)
  end.

(** [top, c[] -= top_a, a[]]. *)
Definition subTop (top_a : Z) (a : list Z) (top_c : Z) (c : list Z) : outcome (Z * list Z) :=
  let '(c, borrow) := subTop_loop 0 a c in
  let borrow := s64 (s64 (borrow + top_c) - top_a) in
  let top_c := u32 borrow in
  if Z.shiftr borrow P256_BITSPERDIGIT =? 0 then Done (top_c, c) else Crash AssertFail.

Fixpoint subM_loop (mask borrow : Z) (MOD c : list Z) : list Z * Z :=
  match MOD, c with
  | mi :: MOD, ci :: c =>
      let borrow := s64 (borrow + ci) in
      let borrow := s64 (borrow - Z.land mi mask) in
      let '(c, borrow') := subM_loop mask (Z.shiftr borrow P256_BITSPERDIGIT) MOD c in
      (u32 borrow :: c, borrow')
  | _, _ => (c, borrow)
  end.

(** [top, c[] -= MOD[] & mask]; the new top. *)
Definition subM (MOD : p256_int) (top : Z) (c : list Z) (mask : Z) : Z * list Z :=
  let '(c, borrow) := subM_loop mask 0 MOD c in (u32 (top + u32 borrow), c).

Fixpoint addM_loop (mask carry : Z) (MOD c : list Z) : list Z * Z :=
  match MOD, c with
  | mi :: MOD, ci :: c =>
      let carry := u64 (carry + ci) in
      let carry := u64 (carry + Z.land mi mask) in
      let '(c, carry') := addM_loop mask (Z.shiftr carry P256_BITSPERDIGIT) MOD c in
      (u32 carry :: c, carry')
  | _, _ => (c, carry)
  end.

(** [top, c[] += MOD[] & mask]; the new top. *)
Definition addM (MOD : p256_int) (top : Z) (c : list Z) (mask : Z) : Z * list Z :=
  let '(c, carry) := addM_loop mask 0 MOD c in (u32 (top + u32 carry), c).

(** ** Multiplication *)

(** [tmp[i]], and [f] applied to the array [tmp + i]. *)
Definition digit_set (tmp : list Z) (i : nat) (x : Z) : list Z := <[i := x]> tmp.
Definition from_digit {A} (tmp : list Z) (i : nat) (r : A * list Z) : A * list Z := (r.1, take i tmp ++ r.2).

(** [for (i = 0; i < P256_NDIGITS; ++i)] of [p256_modmul], over the digits of
    [b] from [i] on. *)
Fixpoint multiply_loop (a : p256_int) (i : nat) (b : list Z) (top : Z) (tmp : list Z) : Z * list Z :=
  match b with
  | [] => (top, tmp)
  | bi :: b =>
      let tmp := match i with O => tmp | S _ => digit_set tmp (i + P256_NDIGITS - 1) top end in
      let '(top, tmp) := from_digit tmp i (mulAdd a bi 0 (drop i tmp)) in
      multiply_loop a (S i) b top tmp
  end.

(** One turn of the reduction: the digit [top] above [tmp + i] is taken away,
    the next top digit fetched. *)
Definition reduce_step (MOD : p256_int) (i : nat) (top : Z) (tmp : list Z) : outcome (Z * list Z) :=
  let '(top_reducer, reducer) := mulAdd MOD top 0 (replicate P256_NDIGITS 0) in
  let! r := subTop top_reducer reducer top (drop i tmp) in
  let '(top, tmp) := from_digit tmp i r in
  if negb (top <=? 1) then Crash AssertFail else
  let '(top, tmp) := from_digit tmp i (subM MOD top (drop i tmp) (u32 (Z.lnot (u32 (top - 1))))) in
  if negb (top =? 0) then Crash AssertFail else
  Done (nth (i + P256_NDIGITS - 1) tmp 0, tmp).

(** [for (; i >= 0; --i)]: [n] turns are left, [i = n - 1]. *)
Fixpoint reduce_loop (MOD : p256_int) (n : nat) (top : Z) (tmp : list Z) : outcome (list Z) :=
  match n with
  | O => Done tmp
  | S i => let! r := reduce_step MOD i top tmp in reduce_loop MOD i r.1 r.2
  end.

(** [addM(MOD, 0, c, subM(MOD, 0, c, -1))]. *)
Definition sub_mod (MOD : p256_int) (c : list Z) : list Z :=
  let '(mask, c) := subM MOD 0 c (u32 (-1)) in (addM MOD 0 c mask).2.

Definition p256_modmul (MOD a : p256_int) (top_b : Z) (b : p256_int) : outcome p256_int :=
  let tmp := replicate (P256_NDIGITS * 2 + 1) 0 in
  let '(top, tmp) := multiply_loop a 0 b 0 tmp in
  let i := P256_NDIGITS in
  let tmp := digit_set tmp (i + P256_NDIGITS - 1) top in
  let '(top, tmp) := from_digit tmp i (mulAdd a top_b 0 (drop i tmp)) in
  let! tmp := reduce_loop MOD (S i) top tmp in
  Done (take P256_NDIGITS (sub_mod MOD tmp)).

Definition p256_mod (MOD inp : p256_int) : p256_int := sub_mod MOD inp.

(** ** Shifts *)

(** A shift by a negative count or by the width of the type is undefined: [n]
    must not be a multiple of 32. *)
Definition shift_ok (n : Z) : bool := (0 <? n) && (n <? P256_BITSPERDIGIT).

Fixpoint shl_loop (n lower : Z) (a : list Z) : list Z :=
  match a with
  | [] => []
  | x :: a => Z.lor (u32 (Z.shiftl x n)) (Z.shiftr lower (P256_BITSPERDIGIT - n)) :: shl_loop n x a
  end.

Definition p256_shl (a : p256_int) (n : Z) : outcome (Z * p256_int) :=
  let top := P256_DIGIT a (P256_NDIGITS - 1) in
  let n := Z.rem n P256_BITSPERDIGIT in
  if negb (shift_ok n) then Crash BadShift else
  let b := match a with [] => [] | x :: a => u32 (Z.shiftl x n) :: shl_loop n x a end in
  Done (u32 (Z.shiftr (u64 (Z.shiftl top n)) P256_BITSPERDIGIT), b).

Fixpoint shr_loop (n : Z) (a : list Z) : list Z :=
  match a with
  | [] => []
  | [x] => [Z.shiftr x n]
  | x :: (y :: _) as a => Z.lor (Z.shiftr x n) (u32 (Z.shiftl y (P256_BITSPERDIGIT - n))) :: shr_loop n a
  end.

Definition p256_shr (a : p256_int) (n : Z) : outcome p256_int :=
  let n := Z.rem n P256_BITSPERDIGIT in
  if negb (shift_ok n) then Crash BadShift else Done (shr_loop n a).

Fixpoint p256_shr1 (a : p256_int) (highbit : Z) : p256_int :=
  match a with
  | [] => []
  | [x] => [Z.lor (Z.shiftr x 1) (u32 (Z.shiftl highbit (P256_BITSPERDIGIT - 1)))]
  | x :: (y :: _) as a => Z.lor (Z.shiftr x 1) (u32 (Z.shiftl y (P256_BITSPERDIGIT - 1))) :: p256_shr1 a highbit
  end.

(** ** Comparison, subtraction, addition *)

Fixpoint cmp_loop (borrow notzero : Z) (a b : list Z) : Z * Z :=
  match a, b with
  | ai :: a, bi :: b =>
      let borrow := s64 (borrow + s64 (ai - bi)) in
      let notzero := Z.lor notzero (c_not (c_not (u32 borrow))) in
      cmp_loop (Z.shiftr borrow P256_BITSPERDIGIT) notzero a b
  | _, _ => (borrow, notzero)
  end.

(** -1, 0, 1 for [a < b], [a == b], [a > b]. *)
Definition p256_cmp (a b : p256_int) : Z :=
  let '(borrow, notzero) := cmp_loop 0 0 a b in s32 (Z.lor (u32 (s32 borrow)) notzero).

Fixpoint sub_loop (borrow : Z) (a b : list Z) : list Z * Z :=
  match a, b with
  | ai :: a, bi :: b =>
      let borrow := s64 (borrow + s64 (ai - bi)) in
      let '(c, borrow') := sub_loop (Z.shiftr borrow P256_BITSPERDIGIT) a b in
      (u32 borrow :: c, borrow')
  | _, _ => ([], borrow)
  end.

(** The returned borrow and [c]; a caller that passes a null [c] drops it. *)
Definition p256_sub (a b : p256_int) : Z * p256_int :=
  let '(c, borrow) := sub_loop 0 a b in (s32 borrow, c).

Fixpoint add_loop (carry : Z) (a b : list Z) : list Z * Z :=
  match a, b with
  | ai :: a, bi :: b =>
      let carry := u64 (carry + u64 (ai + bi)) in
      let '(c, carry') := add_loop (Z.shiftr carry P256_BITSPERDIGIT) a b in
      (u32 carry :: c, carry')
  | _, _ => ([], carry)
  end.

Definition p256_add (a b : p256_int) : Z * p256_int :=
  let '(c, carry) := add_loop 0 a b in (s32 carry, c).

Fixpoint add_d_loop (carry : Z) (a : list Z) : list Z * Z :=
  match a with
  | ai :: a =>
      let carry := u64 (carry + ai) in
      let '(b, carry') := add_d_loop (Z.shiftr carry P256_BITSPERDIGIT) a in
      (u32 carry :: b, carry')
  | [] => ([], carry)
  end.

Definition p256_add_d (a : p256_int) (d : Z) : Z * p256_int :=
  let '(b, carry) := add_d_loop d a in (s32 carry, b).

(** ** Inversion: binary Euclid *)

Record euclid := mk_euclid { e_R : p256_int; e_S : p256_int; e_U : p256_int; e_V : p256_int }.

(** [X / 2], or [(X + MOD) / 2] with the carry shifted in. *)
Definition halve (MOD X : p256_int) : p256_int :=
  if negb (p256_is_even X =? 0) then p256_shr1 X 0
  else let '(carry, X) := p256_add X MOD in p256_shr1 X carry.

(** [if (p256_sub(&X, &Y, &X)) p256_add(&X, MOD, &X)]. *)
Definition sub_mod_step (MOD X Y : p256_int) : p256_int :=
  let '(borrow, X) := p256_sub X Y in
  if negb (borrow =? 0) then (p256_add X MOD).2 else X.

(** One turn; [true] at the [break]. *)
Definition euclid_step (MOD : p256_int) (e : euclid) : bool * euclid :=
  let '(mk_euclid R1 S1 U V) := e in
  if negb (p256_is_even U =? 0) then (false, mk_euclid (halve MOD R1) S1 (p256_shr1 U 0) V)
  else if negb (p256_is_even V =? 0) then (false, mk_euclid R1 (halve MOD S1) U (p256_shr1 V 0))
  else if (p256_sub V U).1 =? 0 then
    let V := (p256_sub V U).2 in
    let S1 := sub_mod_step MOD S1 R1 in
    (negb (p256_is_zero V =? 0), mk_euclid R1 S1 U V)
  else
    let U := (p256_sub U V).2 in
    let R1 := sub_mod_step MOD R1 S1 in
    (false, mk_euclid R1 S1 U V).

Fixpoint euclid_loop (fuel : nat) (MOD : p256_int) (e : euclid) : outcome euclid :=
  match fuel with
  | O => Crash OutOfFuel
  | S fuel => let '(done, e) := euclid_step MOD e in if done then Done e else euclid_loop fuel MOD e
  end.

Definition p256_modinv_vartime (fuel : nat) (MOD a : p256_int) : outcome p256_int :=
  let! e := euclid_loop fuel MOD (mk_euclid P256_ZERO P256_ONE MOD a) in
  Done (p256_mod MOD (e_R e)).

(** ** Points *)

Definition p256_is_valid_point (x y : p256_int) : outcome Z :=
  let p := SECP256r1_p in
  if (p256_cmp p x <=? 0) || (p256_cmp p y <=? 0) || negb (p256_is_zero x =? 0) || negb (p256_is_zero y =? 0) then Done 0 else
  let! y2 := p256_modmul p y 0 y in
  let! x3 := p256_modmul p x 0 x in
  let! x3 := p256_modmul p x 0 x3 in
  let x3 := sub_mod_step p x3 x in
  let x3 := sub_mod_step p x3 x in
  let x3 := sub_mod_step p x3 x in
  let '(carry, x3) := p256_add x3 SECP256r1_b in
  let x3 := if negb (carry =? 0) then (p256_sub x3 p).2 else x3 in
  Done (if p256_cmp y2 x3 =? 0 then 1 else 0).

(** Big-endian bytes to digits. *)
Definition bin_digit (src : list byte) (i : nat) : Z :=
  let p := fun k => byte_to_Z (nth (i + k) src Init.Byte.x00) in
  u32 (Z.lor (Z.lor (Z.lor (Z.shiftl (p 0%nat) 24) (Z.shiftl (p 1%nat) 16)) (Z.shiftl (p 2%nat) 8)) (p 3%nat)).

Definition p256_from_bin (src : list byte) : p256_int :=
  (fun i => bin_digit src (4 * (P256_NDIGITS - 1 - i))) <$> seq 0 P256_NDIGITS.
