(* ===== verification/P256Correct.v ===== *)
(** * P-256 integers: arithmetic, reduction, inversion and the point test are correct *)
From Stdlib Require Import Znumtheory.
From S2P Require Import Prelude Words P256.

(** ** Carry chains

    Every loop of p256.c adds a number to each digit and carries on; the chain
    over unbounded integers is what they all compute. *)

Fixpoint chain (carry : Z) (xs : list Z) : list Z * Z :=
  match xs with
  | [] => ([], carry)
  | x :: xs => let '(c, k) := chain (Z.shiftr (carry + x) 32) xs in (u32 (carry + x) :: c, k)
  end.

Lemma chain_ok xs : forall carry c k, chain carry xs = (c, k) ->
  length c = length xs /\ Forall is_u32 c /\ val c + weight (length xs) * k = carry + val xs.
Proof.
  induction xs as [|x xs IH]; intros carry c k; cbn [chain].
  - intros [= <- <-]. split_and!; [done|constructor|]. cbn [val length]. change (weight 0) with 1. lia.
  - destruct (chain _ xs) as [c' k'] eqn:E. intros [= <- <-]. destruct (IH _ _ _ E) as (Hl & Hu & Hv).
    split_and!; [cbn; lia|constructor; [apply u32_range|done]|]. cbn [val length]. rewrite weight_S.
    pose proof (hi_lo (carry + x)). nia.
Qed.

Lemma s64_small x : - 2 ^ 63 <= x < 2 ^ 63 -> s64 x = x.
Proof.
  intros H. unfold s64. destruct (Z.lt_ge_cases x 0).
  - assert (x mod 2 ^ 64 = x + 2 ^ 64) as -> by (symmetry; apply (Zmod_unique _ _ (-1)); lia). zdec. lia.
  - rewrite Z.mod_small by lia. by zdec.
Qed.

Lemma hi_range x a b : a * 2 ^ 32 <= x < b * 2 ^ 32 -> a <= Z.shiftr x 32 < b.
Proof.
  intros H. rewrite Z.shiftr_div_pow2 by lia. split; [apply Z.div_le_lower_bound; lia|apply Z.div_lt_upper_bound; lia].
Qed.

(** A mask of no or of all ones. *)
Definition mask_of (b : bool) : Z := if b then u32 (-1) else 0.
Definition masked (b : bool) (x : Z) : Z := if b then x else 0.

Lemma land_mask b x : is_u32 x -> Z.land x (mask_of b) = masked b x.
Proof.
  intros H. destruct b; cbn [mask_of masked]; [|by rewrite Z.land_0_r].
  change (u32 (-1)) with (Z.ones 32). rewrite Z.land_ones by lia. by apply Z.mod_small.
Qed.

(** A loop and the chain, digit by digit: the cases of the two arrays, and
    what is left once the accumulator of the turn is known not to wrap. *)
Ltac chain_cases a IH :=
  induction a as [|x a IH]; intros [|y c] carry Hl Ha Hc Hk; cbn in Hl |- *; try done; try lia;
  apply Forall_cons_1 in Ha as [Hx Ha]; apply Forall_cons_1 in Hc as [Hy Hc].
Ltac chain_tail IH :=
  unfold P256_BITSPERDIGIT; rewrite IH; [|lia|done..|apply hi_range; lia]; by destruct (chain _ _).

Lemma mulAdd_loop_chain b a : forall c carry,
  (length a <= length c)%nat -> Forall is_u32 a -> Forall is_u32 c -> is_u32 b -> is_u32 carry ->
  mulAdd_loop carry b a c =
    let '(o, k) := chain carry (zip_with (fun x y => y + x * b) a c) in (o ++ drop (length a) c, k).
Proof.
  induction a as [|x a IH]; intros [|y c] carry Hl Ha Hc Hb Hk; cbn in Hl |- *; try done; try lia.
  apply Forall_cons_1 in Ha as [Hx Ha]. apply Forall_cons_1 in Hc as [Hy Hc].
  pose proof (mac_bound x b carry y Hx Hb Hk Hy) as Hm. unfold is_u32 in *. assert (0 <= x * b) by nia.
  rewrite (u64_small (carry + y)), (u64_small (x * b)) by lia. rewrite u64_small by lia.
  replace (carry + y + x * b) with (carry + (y + x * b)) by lia. unfold P256_BITSPERDIGIT.
  rewrite IH; [|lia|done..|apply hi_u32; lia]. by destruct (chain _ _).
Qed.

Lemma subTop_loop_chain a : forall c borrow,
  (length a <= length c)%nat -> Forall is_u32 a -> Forall is_u32 c -> -1 <= borrow < 1 ->
  subTop_loop borrow a c =
    let '(o, k) := chain borrow (zip_with (fun x y => y - x) a c) in (o ++ drop (length a) c, k).
Proof.
  chain_cases a IH. unfold is_u32 in Hx, Hy.
  rewrite (s64_small (carry + y)), s64_small by lia. replace (carry + y - x) with (carry + (y - x)) by lia.
  chain_tail IH.
Qed.

Lemma subM_loop_chain m a : forall c borrow,
  (length a <= length c)%nat -> Forall is_u32 a -> Forall is_u32 c -> -1 <= borrow < 1 ->
  subM_loop (mask_of m) borrow a c =
    let '(o, k) := chain borrow (zip_with (fun x y => y - masked m x) a c) in (o ++ drop (length a) c, k).
Proof.
  chain_cases a IH. rewrite land_mask by done.
  assert (0 <= masked m x < 2 ^ 32) by (unfold is_u32 in Hx; destruct m; cbn; lia). unfold is_u32 in Hx, Hy.
  rewrite (s64_small (carry + y)), s64_small by lia. replace (carry + y - masked m x) with (carry + (y - masked m x)) by lia.
  chain_tail IH.
Qed.

Lemma addM_loop_chain m a : forall c carry,
  (length a <= length c)%nat -> Forall is_u32 a -> Forall is_u32 c -> 0 <= carry < 2 ->
  addM_loop (mask_of m) carry a c =
    let '(o, k) := chain carry (zip_with (fun x y => y + masked m x) a c) in (o ++ drop (length a) c, k).
Proof.
  chain_cases a IH. rewrite land_mask by done.
  assert (0 <= masked m x < 2 ^ 32) by (unfold is_u32 in Hx; destruct m; cbn; lia). unfold is_u32 in Hx, Hy.
  rewrite (u64_small (carry + y)), u64_small by lia. replace (carry + y + masked m x) with (carry + (y + masked m x)) by lia.
  chain_tail IH.
Qed.

Lemma sub_loop_chain a : forall b borrow,
  length a = length b -> Forall is_u32 a -> Forall is_u32 b -> -1 <= borrow < 1 ->
  sub_loop borrow a b = chain borrow (zip_with (fun x y => x - y) a b).
Proof.
  chain_cases a IH. unfold is_u32 in Hx, Hy.
  rewrite (s64_small (x - y)), s64_small by lia. chain_tail IH.
Qed.

Lemma add_loop_chain a : forall b carry,
  length a = length b -> Forall is_u32 a -> Forall is_u32 b -> 0 <= carry < 2 ->
  add_loop carry a b = chain carry (zip_with (fun x y => x + y) a b).
Proof.
  chain_cases a IH. unfold is_u32 in Hx, Hy.
  rewrite (u64_small (x + y)), u64_small by lia. chain_tail IH.
Qed.

Lemma add_d_loop_chain a : forall carry,
  Forall is_u32 a -> is_u32 carry -> add_d_loop carry a = chain carry a.
Proof.
  induction a as [|x a IH]; intros carry Ha Hk; cbn; [done|].
  apply Forall_cons_1 in Ha as [Hx Ha]. unfold is_u32 in Hx, Hk. rewrite u64_small by lia. unfold P256_BITSPERDIGIT.
  rewrite IH; [done|done|apply hi_range; lia].
Qed.

(** The values of the chains' inputs. *)
Lemma val_zip (f : Z -> Z -> Z) p q a : forall c, (length a <= length c)%nat -> (forall x y, f x y = p * x + q * y) ->
  val (zip_with f a c) = p * val a + q * val (take (length a) c).
Proof.
  intros c Hl Hf. revert c Hl. induction a as [|x a IH]; intros [|y c] Hl; cbn in Hl |- *; try lia.
  rewrite IH, Hf by lia. lia.
Qed.

Lemma length_zip (f : Z -> Z -> Z) a c : (length a <= length c)%nat -> length (zip_with f a c) = length a.
Proof. intros. rewrite length_zip_with. lia. Qed.

(** ** The routines on eight digits *)

Definition num (a : list Z) : Prop := length a = P256_NDIGITS /\ Forall is_u32 a.

Abbreviation W := (2 ^ 256).
Lemma weight_8 : weight P256_NDIGITS = W.
Proof. reflexivity. Qed.

Lemma num_bound a : num a -> 0 <= val a < W.
Proof. intros [Hl Ha]. pose proof (val_bound a Ha) as H. by rewrite Hl in H. Qed.

Lemma num_inj a b : num a -> num b -> val a = val b -> a = b.
Proof. intros [Hl Ha] [Hl' Hb]. apply val_inj; congruence. Qed.

#[export] Hint Resolve num_bound : knife.

(** What a routine leaves in an array of at least eight digits. *)
Definition leaves (c o : list Z) : list Z := o ++ drop P256_NDIGITS c.

Lemma mulAdd_ok a b c : num a -> is_u32 b -> Forall is_u32 c -> (8 <= length c)%nat ->
  exists t o, mulAdd a b 0 c = (t, leaves c o) /\ num o /\ is_u32 t /\ val o + W * t = val (take P256_NDIGITS c) + b * val a.
Proof.
  intros Ha Hb Hc Hl. pose proof (num_bound a Ha). destruct Ha as [Hla Ha]. unfold mulAdd.
  rewrite mulAdd_loop_chain by (unfold P256_NDIGITS in Hla; done || lia).
  destruct (chain _ _) as [o k] eqn:E. destruct (chain_ok _ _ _ _ E) as (Hlo & Ho & Hv).
  rewrite length_zip, Hla, weight_8, (val_zip _ b 1), Hla in * by (unfold P256_NDIGITS in *; lia).
  assert (No : num o) by done. pose proof (num_bound o No). assert (Hk : is_u32 k).
  { pose proof (val_bound (take P256_NDIGITS c) ltac:(by apply Forall_take)) as Hb'. rewrite length_take, Nat.min_l, weight_8 in Hb' by (unfold P256_NDIGITS; lia).
    unfold is_u32 in *. assert (b * val a <= (2 ^ 32 - 1) * (W - 1)) by nia. nia. }
  exists k, o. rewrite (u32_small k) by done. cbn [Z.add]. rewrite u32_small by done. split_and!; [done..|lia].
Qed.

Lemma take_num c : Forall is_u32 c -> (8 <= length c)%nat -> num (take P256_NDIGITS c).
Proof. intros Hc Hl. split; [rewrite length_take; unfold P256_NDIGITS; lia|by apply Forall_take]. Qed.

Lemma sub_bounds o k x y : num o -> 0 <= x < W -> 0 <= y < W -> val o + W * k = x - y -> -1 <= k <= 0 /\ (k = 0 <-> y <= x).
Proof. intros Ho Hx Hy Hv. pose proof (num_bound o Ho). nia. Qed.

Lemma subM_ok MOD m top c : num MOD -> Forall is_u32 c -> (8 <= length c)%nat ->
  exists k o, subM MOD top c (mask_of m) = (u32 (top + k), leaves c o) /\ num o /\ -1 <= k <= 0 /\ val o + W * k = val (take P256_NDIGITS c) - masked m (val MOD).
Proof.
  intros Ha Hc Hl. pose proof (num_bound MOD Ha). pose proof (num_bound _ (take_num c Hc Hl)). destruct Ha as [Hla Ha]. unfold subM.
  rewrite subM_loop_chain by (unfold P256_NDIGITS in Hla; done || lia).
  destruct (chain _ _) as [o k] eqn:E. destruct (chain_ok _ _ _ _ E) as (Hlo & Ho & Hv).
  rewrite length_zip, Hla, weight_8, (val_zip _ (if m then -1 else 0) 1), Hla in * by (unfold P256_NDIGITS in *; first [lia | destruct m; cbn; lia]).
  assert (No : num o) by done. assert (Hv' : val o + W * k = val (take P256_NDIGITS c) - masked m (val MOD)) by (destruct m; cbn [masked]; lia).
  assert (Hk : -1 <= k <= 0) by (eapply sub_bounds; [exact No| | |exact Hv']; destruct m; cbn [masked]; lia).
  exists k, o. unfold u32 at 1 2. rewrite Zplus_mod_idemp_r. fold (u32 (top + k)). done.
Qed.

Lemma addM_ok MOD m c : num MOD -> Forall is_u32 c -> (8 <= length c)%nat ->
  exists k o, (addM MOD 0 c (mask_of m)).2 = leaves c o /\ num o /\ 0 <= k <= 1 /\ val o + W * k = val (take P256_NDIGITS c) + masked m (val MOD).
Proof.
  intros Ha Hc Hl. pose proof (num_bound MOD Ha). pose proof (num_bound _ (take_num c Hc Hl)). destruct Ha as [Hla Ha]. unfold addM.
  rewrite addM_loop_chain by (unfold P256_NDIGITS in Hla; done || lia).
  destruct (chain _ _) as [o k] eqn:E. destruct (chain_ok _ _ _ _ E) as (Hlo & Ho & Hv).
  rewrite length_zip, Hla, weight_8, (val_zip _ (if m then 1 else 0) 1), Hla in * by (unfold P256_NDIGITS in *; first [lia | destruct m; cbn; lia]).
  assert (No : num o) by done. pose proof (num_bound o No).
  exists k, o. split_and!; [done..| | |destruct m; cbn [masked]; lia]; destruct m; nia.
Qed.

Lemma subTop_ok top_a a top c : num a -> Forall is_u32 c -> (8 <= length c)%nat -> is_u32 top -> is_u32 top_a ->
  0 <= val (take P256_NDIGITS c) + W * top - (val a + W * top_a) < W * 2 ^ 32 ->
  exists t o, subTop top_a a top c = Done (t, leaves c o) /\ num o /\ is_u32 t /\ val o + W * t = val (take P256_NDIGITS c) + W * top - (val a + W * top_a).
Proof.
  intros Ha Hc Hl Ht Hta Hr. pose proof (num_bound a Ha). pose proof (num_bound _ (take_num c Hc Hl)). destruct Ha as [Hla Ha]. unfold subTop.
  rewrite subTop_loop_chain by (unfold P256_NDIGITS in Hla; done || lia).
  destruct (chain _ _) as [o k] eqn:E. destruct (chain_ok _ _ _ _ E) as (Hlo & Ho & Hv).
  rewrite length_zip, Hla, weight_8, (val_zip _ (-1) 1), Hla in * by (unfold P256_NDIGITS in *; lia).
  assert (No : num o) by done. pose proof (num_bound o No).
  destruct (sub_bounds o k (val (take P256_NDIGITS c)) (val a) No) as [Hk _]; [lia..|]. unfold is_u32 in Ht, Hta.
  rewrite (s64_small (k + top)), s64_small by lia. assert (Hu : is_u32 (k + top - top_a)) by (unfold is_u32; nia).
  rewrite (proj2 (Z.eqb_eq _ _)) by (unfold P256_BITSPERDIGIT; pose proof (hi_range (k + top - top_a) 0 1); unfold is_u32 in Hu; lia).
  exists (k + top - top_a), o. rewrite u32_small by done. split_and!; [done..|lia].
Qed.

(** ** Reduction *)

Lemma take_leaves c o : num o -> take P256_NDIGITS (leaves c o) = o.
Proof. intros [Hl _]. unfold leaves. by rewrite take_app_length'. Qed.

Lemma leaves_leaves c o o' : num o -> leaves (leaves c o) o' = leaves c o'.
Proof. intros [Hl _]. unfold leaves. by rewrite drop_app_length'. Qed.

Lemma leaves_u32 c o : num o -> Forall is_u32 c -> Forall is_u32 (leaves c o).
Proof. intros [_ Ho] Hc. apply Forall_app. split; [done|by apply Forall_drop]. Qed.

Lemma length_leaves c o : num o -> (8 <= length c)%nat -> length (leaves c o) = length c.
Proof. intros [Hl _] H. unfold leaves. rewrite length_app, length_drop, Hl. unfold P256_NDIGITS. lia. Qed.

Lemma sub_mod_ok MOD c : num MOD -> Forall is_u32 c -> (8 <= length c)%nat ->
  exists o, sub_mod MOD c = leaves c o /\ num o /\
    val o = let v := val (take P256_NDIGITS c) in if val MOD <=? v then v - val MOD else v.
Proof.
  intros HM Hc Hl. unfold sub_mod. change (u32 (-1)) with (mask_of true).
  destruct (subM_ok MOD true 0 c HM Hc Hl) as (k & o & -> & Ho & Hk & Hv). cbn [masked] in Hv.
  pose proof (num_bound _ (take_num c Hc Hl)). pose proof (num_bound o Ho). pose proof (num_bound MOD HM).
  assert (u32 (0 + k) = mask_of (negb (k =? 0))) as -> by (assert (k = -1 \/ k = 0) as [-> | ->] by lia; done).
  destruct (addM_ok MOD (negb (k =? 0)) (leaves c o) HM) as (k' & o' & -> & Ho' & Hk' & Hv'); [by apply leaves_u32|by rewrite length_leaves|].
  rewrite leaves_leaves, take_leaves in * by done. exists o'. split_and!; [done..|]. cbv zeta. pose proof (num_bound o' Ho').
  assert (k = -1 \/ k = 0) as [-> | ->] by lia; cbn [negb Z.eqb masked] in Hv'; destruct (Z.leb_spec (val MOD) (val (take P256_NDIGITS c))); nia.
Qed.

Lemma leaves_num c o : num c -> leaves c o = o.
Proof. intros [Hl _]. unfold leaves. rewrite drop_ge by lia. apply app_nil_r. Qed.

Lemma take_8 c : num c -> take P256_NDIGITS c = c.
Proof. intros [Hl _]. apply firstn_all2. lia. Qed.

(** A modulus of 256 bits: no number is twice as large. *)
Lemma one_subtraction v m : 0 <= v < W -> W <= 2 * m -> (if m <=? v then v - m else v) = v mod m.
Proof.
  intros Hv Hm. destruct (Z.leb_spec m v); [|by rewrite Z.mod_small by lia].
  apply (Zmod_unique v m 1); lia.
Qed.

Lemma p256_mod_ok MOD a : num MOD -> W <= 2 * val MOD -> num a ->
  num (p256_mod MOD a) /\ val (p256_mod MOD a) = val a mod val MOD.
Proof.
  intros HM HW Ha. destruct (sub_mod_ok MOD a HM) as (o & Heq & Ho & Hv); [apply Ha|by rewrite (proj1 Ha)|].
  unfold p256_mod. rewrite Heq, leaves_num by done. split; [done|]. rewrite Hv, take_8 by done. cbv zeta.
  apply one_subtraction; [by apply num_bound|done].
Qed.

(** ** Multiplication *)

(** A routine on the eight digits from [i] on, seen from the whole array. *)
Lemma window i (tmp : list Z) (t : Z) o : (i + 8 <= length tmp)%nat -> Forall is_u32 tmp -> num o ->
  exists tmp', from_digit tmp i (t, leaves (drop i tmp) o) = (t, tmp') /\ length tmp' = length tmp /\ Forall is_u32 tmp' /\
    take P256_NDIGITS (drop i tmp') = o /\ val (take (i + P256_NDIGITS) tmp') = val (take i tmp) + weight i * val o /\ take i tmp' = take i tmp.
Proof.
  intros Hl Hu [Hlo Ho]. unfold P256_NDIGITS in Hlo. unfold from_digit, leaves. cbn [fst snd]. eexists. split; [done|].
  assert (Hi : length (take i tmp) = i) by (rewrite length_take; lia).
  assert (Ht : take i (take i tmp ++ o ++ drop P256_NDIGITS (drop i tmp)) = take i tmp) by (rewrite take_app_le by lia; by rewrite take_take, Nat.min_id).
  split_and!.
  - rewrite !length_app, !length_drop, Hi. unfold P256_NDIGITS. lia.
  - repeat (apply Forall_app; split); [by apply Forall_take|done|by do 2 apply Forall_drop].
  - rewrite drop_app_length' by done. by rewrite take_app_length'.
  - rewrite app_assoc, take_app_length' by (rewrite length_app, Hi, Hlo; done). by rewrite val_app, Hi.
  - done.
Qed.

Lemma split_value i (tmp : list Z) : (i <= length tmp)%nat ->
  val (take (i + P256_NDIGITS) tmp) = val (take i tmp) + weight i * val (take P256_NDIGITS (drop i tmp)).
Proof. intros Hl. by rewrite <- take_take_drop, val_app, length_take, Nat.min_l by lia. Qed.

Lemma weight_add i j : weight (i + j) = weight i * weight j.
Proof. unfold weight. rewrite <- Z.pow_add_r by lia. f_equal. lia. Qed.

Lemma weight_window i : weight (i + P256_NDIGITS) = weight i * W.
Proof. by rewrite weight_add, weight_8. Qed.

Lemma top_value n (tmp : list Z) : (n < length tmp)%nat -> val (take (S n) tmp) = val (take n tmp) + weight n * nth n tmp 0.
Proof.
  intros Hl. assert (take (S n) tmp = take n tmp ++ [nth n tmp 0]) as ->.
  { revert tmp Hl. induction n as [|n IH]; intros [|x l] Hl; cbn in Hl |- *; try lia; [done|]. f_equal. apply IH. lia. }
  rewrite val_app, length_take, Nat.min_l by lia. cbn [val]. lia.
Qed.

Section Modmul.
Context (a : p256_int) (Ha : num a).

Lemma multiply_step i b top tmp : (i <= 8)%nat -> length tmp = 17%nat -> Forall is_u32 tmp -> is_u32 top -> is_u32 b ->
  let tmp1 := digit_set tmp (i + P256_NDIGITS - 1) top in
  exists t tmp2, from_digit tmp1 i (mulAdd a b 0 (drop i tmp1)) = (t, tmp2) /\ length tmp2 = 17%nat /\ Forall is_u32 tmp2 /\ is_u32 t /\
    val (take (i + P256_NDIGITS) tmp2) + weight (i + P256_NDIGITS) * t =
      val (take (i + P256_NDIGITS - 1) tmp) + weight (i + P256_NDIGITS - 1) * top + weight i * (b * val a).
Proof.
  intros Hi Hl Hu Ht Hb tmp1. assert (Hl1 : length tmp1 = 17%nat) by (unfold tmp1, digit_set; by rewrite length_insert).
  assert (Hu1 : Forall is_u32 tmp1) by (by apply Forall_insert).
  destruct (mulAdd_ok a b (drop i tmp1)) as (t & o & -> & Ho & Htt & Hv); [done..|by apply Forall_drop|rewrite length_drop; lia|].
  destruct (window i tmp1 t o) as (tmp2 & -> & Hl2 & Hu2 & _ & Hval & _); [lia|done|done|].
  exists t, tmp2. split_and!; [done|lia|done..|]. rewrite Hval, weight_window.
  assert (Hs : val (take (i + P256_NDIGITS) tmp1) = val (take (i + P256_NDIGITS - 1) tmp) + weight (i + P256_NDIGITS - 1) * top).
  { unfold P256_NDIGITS in *. replace (i + 8)%nat with (S (i + 8 - 1)) by lia. rewrite top_value by lia.
    replace (S (i + 8 - 1) - 1)%nat with (i + 8 - 1)%nat by lia. unfold tmp1, digit_set. rewrite take_insert_ge by (unfold P256_NDIGITS; lia).
    by rewrite nth_lookup, list_lookup_insert_eq by (unfold P256_NDIGITS; lia). }
  rewrite split_value in Hs by lia. nia.
Qed.

Lemma multiply_loop_ok b : forall i top tmp, (i + length b = 8)%nat -> Forall is_u32 b ->
  length tmp = 17%nat -> Forall is_u32 tmp -> is_u32 top -> (i = 0%nat -> tmp !! 7%nat = Some top) ->
  exists t tmp2, multiply_loop a i b top tmp = (t, tmp2) /\ length tmp2 = 17%nat /\ Forall is_u32 tmp2 /\ is_u32 t /\
    val (take 15 tmp2) + weight 15 * t =
      val (take (i + P256_NDIGITS - 1) tmp) + weight (i + P256_NDIGITS - 1) * top + weight i * (val b * val a).
Proof.
  induction b as [|b0 b IH]; intros i top tmp Hi Hb Hl Hu Ht H0; cbn [multiply_loop length val] in *.
  { assert (i = 8%nat) as -> by lia. exists top, tmp. split_and!; [done..|]. change (8 + P256_NDIGITS - 1)%nat with 15%nat. lia. }
  apply Forall_cons_1 in Hb as [Hb0 Hb].
  assert (match i with O => tmp | S _ => digit_set tmp (i + P256_NDIGITS - 1) top end = digit_set tmp (i + P256_NDIGITS - 1) top) as ->.
  { destruct i; [|done]. symmetry. by apply list_insert_id, H0. }
  destruct (multiply_step i b0 top tmp) as (t & tmp2 & -> & Hl2 & Hu2 & Ht2 & Hv); [lia|done..|].
  destruct (IH (S i) t tmp2) as (t' & tmp' & -> & Hl' & Hu' & Ht' & Hv'); [lia|done..|].
  exists t', tmp'. split_and!; [done..|]. rewrite Hv'. replace (S i + P256_NDIGITS - 1)%nat with (i + P256_NDIGITS)%nat by (unfold P256_NDIGITS; lia).
  rewrite weight_S. lia.
Qed.
End Modmul.

(** The moduli the code can reduce by: the most significant digit is all ones. *)
Record modulus (MOD : p256_int) : Prop := { md_num : num MOD; md_top : W - 2 ^ 224 <= val MOD }.

Section Reduce.
Context (MOD : p256_int) (HM : modulus MOD).
Abbreviation m := (val MOD).

Lemma modulus_bounds : W - 2 ^ 224 <= m < W.
Proof. destruct HM as [H1 H2]. pose proof (num_bound MOD H1). lia. Qed.

(** No assertion fails, and the digit above the window is gone. *)
Lemma reduce_step_ok i top tmp : (i <= 8)%nat -> length tmp = 17%nat -> Forall is_u32 tmp -> is_u32 top ->
  exists tmp2, reduce_step MOD i top tmp = Done (nth (i + P256_NDIGITS - 1) tmp2 0, tmp2) /\ length tmp2 = 17%nat /\ Forall is_u32 tmp2 /\
    cong m (val (take (i + P256_NDIGITS) tmp2)) (val (take (i + P256_NDIGITS) tmp) + weight (i + P256_NDIGITS) * top).
Proof.
  intros Hi Hl Hu Ht. pose proof modulus_bounds as Hm. destruct HM as [HN _]. unfold reduce_step.
  destruct (mulAdd_ok MOD top (replicate P256_NDIGITS 0)) as (tr & red & -> & Hred & Htr & Hv); [done|done|by apply Forall_replicate|by rewrite length_replicate|].
  rewrite take_replicate, val_replicate in Hv. rewrite leaves_num in * by (split; [apply length_replicate|by apply Forall_replicate]).
  assert (Hw : num (take P256_NDIGITS (drop i tmp))) by (apply take_num; [by apply Forall_drop|rewrite length_drop; lia]). pose proof (num_bound _ Hw) as Hwb.
  unfold is_u32 in Ht. assert (Hx : 0 <= top * (W - m) <= (2 ^ 32 - 1) * 2 ^ 224) by nia.
  destruct (subTop_ok tr red top (drop i tmp)) as (t & o & -> & Ho & Ht1 & Hv1); [done|by apply Forall_drop|rewrite length_drop; lia|done|done|lia|]. cbn [obind].
  destruct (window i tmp t o) as (tmp1 & -> & Hl1 & Hu1 & Hw1 & Hval1 & Htk1); [lia|done|done|].
  pose proof (num_bound o Ho). assert (Ht01 : t = 0 \/ t = 1) by (unfold is_u32 in Ht1; lia).
  rewrite (proj2 (Z.leb_le t 1)) by lia. cbn [negb].
  assert (u32 (Z.lnot (u32 (t - 1))) = mask_of (t =? 1)) as -> by (destruct Ht01 as [-> | ->]; reflexivity).
  destruct (subM_ok MOD (t =? 1) t (drop i tmp1)) as (k & o2 & -> & Ho2 & Hk & Hv2); [done|by apply Forall_drop|rewrite length_drop; lia|]. rewrite Hw1 in Hv2.
  destruct (window i tmp1 (u32 (t + k)) o2) as (tmp2 & -> & Hl2 & Hu2 & _ & Hval2 & _); [lia|done|done|]. pose proof (num_bound o2 Ho2).
  assert (Hmask : masked (t =? 1) m = t * m) by (destruct Ht01 as [-> | ->]; cbn; lia). rewrite Hmask in Hv2.
  assert (k = - t) as -> by (destruct Ht01 as [-> | ->]; lia). rewrite Z.add_opp_diag_r. change (u32 0 =? 0) with true. cbn [negb].
  exists tmp2. split_and!; [done|lia|done|]. rewrite Hval2, Htk1, weight_window, split_value by lia.
  exists (- weight i * (top + t)). destruct Ht01 as [-> | ->]; nia.
Qed.

Lemma reduce_loop_ok i : forall top tmp, (i <= 8)%nat -> length tmp = 17%nat -> Forall is_u32 tmp -> is_u32 top ->
  exists tmp2, reduce_loop MOD (S i) top tmp = Done tmp2 /\ length tmp2 = 17%nat /\ Forall is_u32 tmp2 /\
    cong m (val (take P256_NDIGITS tmp2)) (val (take (i + P256_NDIGITS) tmp) + weight (i + P256_NDIGITS) * top).
Proof.
  induction i as [|i IH]; intros top tmp Hi Hl Hu Ht; cbn [reduce_loop];
    destruct (reduce_step_ok _ top tmp Hi Hl Hu Ht) as (tmp1 & -> & Hl1 & Hu1 & Hc1); cbn [obind fst snd].
  { by exists tmp1. }
  destruct (IH (nth (S i + P256_NDIGITS - 1) tmp1 0) tmp1) as (tmp2 & Heq & Hl2 & Hu2 & Hc2); [lia|done|done| |].
  { apply (Forall_lookup_1 _ _ (S i + P256_NDIGITS - 1) _ Hu1). rewrite nth_lookup. destruct (lookup_lt_is_Some_2 tmp1 (S i + P256_NDIGITS - 1)) as [x ->]; [unfold P256_NDIGITS; lia|done]. }
  exists tmp2. split_and!; [done..|]. rewrite Hc2. rewrite <- Hc1.
  replace (S i + P256_NDIGITS - 1)%nat with (i + P256_NDIGITS)%nat by (unfold P256_NDIGITS; lia).
  rewrite <- top_value by (unfold P256_NDIGITS; lia). by replace (S (i + P256_NDIGITS))%nat with (S i + P256_NDIGITS)%nat by lia.
Qed.

Lemma modmul_ok a top_b b : num a -> num b -> is_u32 top_b ->
  exists c, p256_modmul MOD a top_b b = Done c /\ num c /\ val c = val a * (val b + W * top_b) mod m.
Proof.
  intros Ha Hb Ht. unfold p256_modmul.
  destruct (multiply_loop_ok a Ha b 0 0 (replicate (P256_NDIGITS * 2 + 1) 0)) as (t & tmp & -> & Hl & Hu & Htt & Hv);
    [by rewrite (proj1 Hb)|apply Hb|by rewrite length_replicate|by apply Forall_replicate|done|done|].
  rewrite take_replicate, val_replicate in Hv.
  destruct (multiply_step a Ha P256_NDIGITS top_b t tmp) as (t' & tmp' & -> & Hl' & Hu' & Ht' & Hv'); [done..|].
  destruct (reduce_loop_ok P256_NDIGITS t' tmp') as (tmp2 & -> & Hl2 & Hu2 & Hc2); [done..|]. cbn [obind].
  destruct HM as [HN _]. pose proof modulus_bounds as Hm.
  destruct (sub_mod_ok MOD tmp2 HN Hu2 ltac:(lia)) as (o & -> & Ho & Hvo). rewrite take_leaves by done. exists o. split_and!; [done..|].
  rewrite Hvo. cbv zeta. rewrite one_subtraction by (first [apply num_bound, take_num; [done|lia]|lia]).
  apply cong_mod; [lia|]. rewrite Hc2, Hv'. change (P256_NDIGITS + P256_NDIGITS - 1)%nat with 15%nat. rewrite Hv, weight_8.
  change (weight 0) with 1. exists 0. lia.
Qed.
End Reduce.

(** ** Addition, subtraction, comparison *)

Lemma s32_carry k : -1 <= k <= 1 -> s32 k = k.
Proof. intros H. assert (k = -1 \/ k = 0 \/ k = 1) as [-> | [-> | ->]] by lia; reflexivity. Qed.

Lemma p256_sub_ok a b : num a -> num b -> exists k c, p256_sub a b = (k, c) /\ num c /\ -1 <= k <= 0 /\ val c + W * k = val a - val b.
Proof.
  intros Ha Hb. pose proof (num_bound a Ha). pose proof (num_bound b Hb). destruct Ha as [Hla Ha], Hb as [Hlb Hb]. unfold p256_sub.
  rewrite sub_loop_chain by (congruence || lia). destruct (chain _ _) as [c k] eqn:E. destruct (chain_ok _ _ _ _ E) as (Hlo & Ho & Hv).
  rewrite length_zip, Hla, weight_8, (val_zip _ 1 (-1)), Hla, (firstn_all2 b) in * by (first [rewrite ?Hlb; lia | intros; lia]).
  assert (No : num c) by done. destruct (sub_bounds c k (val a) (val b) No) as [Hk _]; [lia..|]. exists k, c. rewrite s32_carry by lia. split_and!; [done..|lia|lia|lia].
Qed.

Lemma p256_add_ok a b : num a -> num b -> exists k c, p256_add a b = (k, c) /\ num c /\ 0 <= k <= 1 /\ val c + W * k = val a + val b.
Proof.
  intros Ha Hb. pose proof (num_bound a Ha). pose proof (num_bound b Hb). destruct Ha as [Hla Ha], Hb as [Hlb Hb]. unfold p256_add.
  rewrite add_loop_chain by (congruence || lia). destruct (chain _ _) as [c k] eqn:E. destruct (chain_ok _ _ _ _ E) as (Hlo & Ho & Hv).
  rewrite length_zip, Hla, weight_8, (val_zip _ 1 1), Hla, (firstn_all2 b) in * by (first [rewrite ?Hlb; lia | intros; lia]).
  assert (No : num c) by done. pose proof (num_bound c No). exists k, c. rewrite s32_carry by nia. split_and!; [done..|nia|nia|lia].
Qed.

Lemma p256_add_d_ok a d : num a -> is_u32 d -> exists k c, p256_add_d a d = (k, c) /\ num c /\ 0 <= k <= 1 /\ val c + W * k = val a + d.
Proof.
  intros Ha Hd. pose proof (num_bound a Ha). destruct Ha as [Hla Ha]. unfold p256_add_d. rewrite add_d_loop_chain by done.
  destruct (chain _ _) as [c k] eqn:E. destruct (chain_ok _ _ _ _ E) as (Hlo & Ho & Hv). rewrite Hla, weight_8 in *.
  assert (No : num c) by done. pose proof (num_bound c No). unfold is_u32 in Hd. exists k, c. rewrite s32_carry by nia. split_and!; [done..|nia|nia|lia].
Qed.

Definition all_zero (c : list Z) : bool := forallb (Z.eqb 0) c.

Lemma all_zero_val c : Forall is_u32 c -> all_zero c = (val c =? 0).
Proof.
  induction 1 as [|x c Hx Hc IH]; cbn [all_zero forallb val]; [done|]. fold (all_zero c). rewrite IH. unfold is_u32 in Hx.
  pose proof (val_bound c Hc). destruct (Z.eqb_spec 0 x), (Z.eqb_spec (val c) 0), (Z.eqb_spec (x + 2 ^ 32 * val c) 0); try done; lia.
Qed.

Lemma cmp_loop_chain a : forall c carry nz,
  length a = length c -> Forall is_u32 a -> Forall is_u32 c -> -1 <= carry < 1 -> nz = 0 \/ nz = 1 ->
  cmp_loop carry nz a c =
    let '(o, k) := chain carry (zip_with (fun x y => x - y) a c) in (k, if all_zero o then nz else 1).
Proof.
  induction a as [|x a IH]; intros [|y c] carry nz Hl Ha Hc Hk Hz; cbn in Hl |- *; try done.
  apply Forall_cons_1 in Ha as [Hx Ha]. apply Forall_cons_1 in Hc as [Hy Hc]. unfold is_u32 in Hx, Hy.
  rewrite (s64_small (x - y)), s64_small by lia. unfold P256_BITSPERDIGIT. set (d := carry + (x - y)) in *.
  rewrite IH; [|lia|done..|apply hi_range; lia|unfold c_not; destruct Hz as [-> | ->], (u32 d =? 0); auto].
  destruct (chain _ _) as [o k]. f_equal. unfold all_zero. cbn [forallb]. rewrite (Z.eqb_sym 0 (u32 d)). unfold c_not.
  destruct (u32 d =? 0), Hz as [-> | ->], (forallb (Z.eqb 0) o); reflexivity.
Qed.

Lemma p256_cmp_ok a b : num a -> num b -> p256_cmp a b = Z.sgn (val a - val b).
Proof.
  intros Ha Hb. pose proof (num_bound a Ha). pose proof (num_bound b Hb). destruct Ha as [Hla Ha], Hb as [Hlb Hb]. unfold p256_cmp.
  rewrite cmp_loop_chain by (congruence || lia). destruct (chain _ _) as [c k] eqn:E. destruct (chain_ok _ _ _ _ E) as (Hlo & Ho & Hv).
  rewrite length_zip, Hla, weight_8, (val_zip _ 1 (-1)), Hla, (firstn_all2 b) in * by (first [rewrite ?Hlb; lia | intros; lia]).
  assert (No : num c) by done. destruct (sub_bounds c k (val a) (val b) No) as [Hk Hk0]; [lia..|]. pose proof (num_bound c No).
  rewrite all_zero_val by done. assert (k = -1 \/ k = 0) as [-> | ->] by lia.
  - assert (val a < val b) by lia. rewrite Z.sgn_neg by lia. by destruct (val c =? 0).
  - destruct (Z.eqb_spec (val c) 0).
    + by replace (val a - val b) with 0 by lia.
    + rewrite Z.sgn_pos by lia. done.
Qed.

Lemma s32_zero x : is_u32 x -> (s32 x = 0 <-> x = 0).
Proof. intros H. unfold s32, is_u32 in *. cbv zeta. rewrite Z.mod_small by lia. destruct (Z.ltb_spec x (2 ^ 31)); lia. Qed.

Lemma lor_zero a b : 0 <= a -> 0 <= b -> (Z.lor a b = 0 <-> a = 0 /\ b = 0).
Proof. intros. apply Z.lor_eq_0_iff. Qed.

Lemma lor_u32 a b : is_u32 a -> is_u32 b -> is_u32 (Z.lor a b).
Proof.
  unfold is_u32. intros Ha Hb. split; [apply Z.lor_nonneg; lia|]. destruct (Z.eq_dec (Z.lor a b) 0) as [->|Hn]; [lia|].
  apply Z.log2_lt_pow2; [pose proof (proj2 (Z.lor_nonneg a b) ltac:(lia)); lia|]. rewrite Z.log2_lor by lia.
  assert (forall x, 0 <= x < 2 ^ 32 -> Z.log2 x < 32) as Hlog.
  { intros x Hx. destruct (Z.eq_dec x 0) as [->|]; [done|]. apply Z.log2_lt_pow2; lia. }
  pose proof (Hlog a Ha). pose proof (Hlog b Hb). lia.
Qed.

Lemma is_zero_fold a : forall r, is_u32 r -> Forall is_u32 a ->
  exists v, foldl (fun result d => s32 (Z.lor (u32 result) d)) (s32 r) a = s32 v /\ is_u32 v /\ (v = 0 <-> r = 0 /\ val a = 0).
Proof.
  induction a as [|x a IH]; intros r Hr Ha; cbn [foldl val]; [exists r; naive_solver|].
  apply Forall_cons_1 in Ha as [Hx Ha]. rewrite u32_s32 by done. pose proof (val_bound a Ha).
  destruct (IH (Z.lor r x) (lor_u32 r x Hr Hx) Ha) as (v & -> & Hv & Hz). exists v. split_and!; [done..|].
  unfold is_u32 in *. rewrite Hz, lor_zero by lia. lia.
Qed.

Lemma p256_is_zero_ok a : num a -> p256_is_zero a = if val a =? 0 then 1 else 0.
Proof.
  intros [_ Ha]. destruct (is_zero_fold a 0 ltac:(done) Ha) as (v & Hv & Hu & Hz). unfold p256_is_zero.
  change 0 with (s32 0) at 1. rewrite Hv. unfold c_not. pose proof (s32_zero v Hu).
  destruct (Z.eqb_spec (s32 v) 0), (Z.eqb_spec (val a) 0); naive_solver.
Qed.

Lemma p256_is_even_ok a : num a -> negb (p256_is_even a =? 0) = Z.even (val a).
Proof.
  intros [Hl Ha]. destruct a as [|x a]; [discriminate|]. unfold p256_is_even, P256_DIGIT. cbn [nth val].
  rewrite Z.even_add, Z.even_mul. cbn [Z.even orb]. change 1 with (Z.ones 1). rewrite Z.land_ones, Zmod_even by lia.
  unfold c_not. by destruct (Z.even x).
Qed.

(** ** Shifts *)

Lemma shr_digit x y n : 0 < n < 32 -> is_u32 x -> is_u32 y ->
  Z.lor (Z.shiftr x n) (u32 (Z.shiftl y (32 - n))) = x / 2 ^ n + 2 ^ (32 - n) * (y mod 2 ^ n) /\
  is_u32 (Z.lor (Z.shiftr x n) (u32 (Z.shiftl y (32 - n)))).
Proof.
  intros Hn Hx Hy. unfold is_u32 in *. rewrite Z.shiftr_div_pow2, Z.shiftl_mul_pow2 by lia.
  assert (H32 : 2 ^ 32 = 2 ^ (32 - n) * 2 ^ n) by (rewrite <- Z.pow_add_r by lia; f_equal; lia).
  assert (Hm : u32 (y * 2 ^ (32 - n)) = 2 ^ (32 - n) * (y mod 2 ^ n)) by (unfold u32; rewrite H32, Z.mul_comm; apply Zmult_mod_distr_l).
  rewrite Hm, Z.lor_comm. assert (Hd : 0 <= x / 2 ^ n < 2 ^ (32 - n)).
  { split; [apply Z.div_pos; lia|]. apply Z.div_lt_upper_bound; lia. }
  rewrite lor_low by lia. pose proof (Z.mod_pos_bound y (2 ^ n) ltac:(lia)). split; [lia|]. nia.
Qed.

Lemma shl_digit x y n : 0 < n < 32 -> is_u32 x -> is_u32 y ->
  Z.lor (u32 (Z.shiftl x n)) (Z.shiftr y (32 - n)) = 2 ^ n * (x mod 2 ^ (32 - n)) + y / 2 ^ (32 - n) /\
  is_u32 (Z.lor (u32 (Z.shiftl x n)) (Z.shiftr y (32 - n))).
Proof.
  intros Hn Hx Hy. destruct (shr_digit y x (32 - n) ltac:(lia) Hy Hx) as [H1 H2]. replace (32 - (32 - n)) with n in * by lia.
  rewrite Z.lor_comm. split; [lia|done].
Qed.

(** A right shift with the bits [h] coming in from above. *)
Lemma shr_cons n x v : 0 < n < 32 -> is_u32 x -> 0 <= v ->
  (x + 2 ^ 32 * v) / 2 ^ n = x / 2 ^ n + 2 ^ (32 - n) * (v mod 2 ^ n) + 2 ^ 32 * (v / 2 ^ n).
Proof.
  intros Hn Hx Hv. assert (H32 : 2 ^ 32 = 2 ^ (32 - n) * 2 ^ n) by (rewrite <- Z.pow_add_r by lia; f_equal; lia).
  rewrite H32. replace (x + 2 ^ (32 - n) * 2 ^ n * v) with (x + (2 ^ (32 - n) * v) * 2 ^ n) by lia. rewrite Z.div_add by lia.
  pose proof (Z.div_mod v (2 ^ n) ltac:(lia)). nia.
Qed.

Lemma low_digit n x v : 0 < n < 32 -> (x + 2 ^ 32 * v) mod 2 ^ n = x mod 2 ^ n.
Proof.
  intros Hn. assert (H32 : 2 ^ 32 = 2 ^ (32 - n) * 2 ^ n) by (rewrite <- Z.pow_add_r by lia; f_equal; lia).
  rewrite H32. replace (x + 2 ^ (32 - n) * 2 ^ n * v) with (x + (2 ^ (32 - n) * v) * 2 ^ n) by lia. apply Z_mod_plus_full.
Qed.

Lemma shr_loop_ok n a : 0 < n < 32 -> Forall is_u32 a ->
  length (shr_loop n a) = length a /\ Forall is_u32 (shr_loop n a) /\ val (shr_loop n a) = val a / 2 ^ n.
Proof.
  intros Hn. induction 1 as [|x a Hx Ha IH]; [by rewrite Z.div_0_l by lia|].
  destruct IH as (Hl & Hu & Hv). cbn [shr_loop]. destruct a as [|y a].
  { split_and!; [done| |cbn [val]; rewrite !Z.mul_0_r, !Z.add_0_r, Z.shiftr_div_pow2 by lia; done].
    constructor; [|done]. unfold is_u32 in *. rewrite Z.shiftr_div_pow2 by lia. split; [apply Z.div_pos; lia|]. apply Z.div_lt_upper_bound; nia. }
  pose proof (Forall_inv Ha) as Hy. destruct (shr_digit x y n Hn Hx Hy) as [Hd Hdu]. unfold P256_BITSPERDIGIT.
  split_and!; [cbn [length] in *; lia|by constructor|]. pose proof (val_bound (y :: a) Ha).
  change (val (?d :: ?t)) with (d + 2 ^ 32 * val t). rewrite Hv, Hd, (shr_cons n x (val (y :: a))) by (done || lia).
  cbn [val]. rewrite low_digit by done. done.
Qed.

Lemma shr1_ok a h : (0 < length a)%nat -> Forall is_u32 a -> 0 <= h <= 1 ->
  length (p256_shr1 a h) = length a /\ Forall is_u32 (p256_shr1 a h) /\ 2 * val (p256_shr1 a h) = 2 * (val a / 2) + h * weight (length a).
Proof.
  intros Hne Ha Hh. revert Hne. induction Ha as [|x a Hx Ha IH]; intros Hne; [cbn in Hne; lia|]. cbn [p256_shr1]. destruct a as [|y a].
  { destruct (shr_digit x h 1 ltac:(lia) Hx ltac:(unfold is_u32; lia)) as [Hd Hdu]. change (32 - 1) with 31 in *. unfold P256_BITSPERDIGIT. change (32 - 1) with 31.
    split_and!; [done|by constructor|]. cbn [val length]. rewrite Hd, Z.mod_small, !Z.mul_0_r, !Z.add_0_r by (change (2 ^ 1) with 2; lia).
    change (weight 1) with (2 ^ 32). change (2 ^ 1) with 2. lia. }
  destruct (IH ltac:(cbn; lia)) as (Hl & Hu & Hv). pose proof (Forall_inv Ha) as Hy. destruct (shr_digit x y 1 ltac:(lia) Hx Hy) as [Hd Hdu]. unfold P256_BITSPERDIGIT.
  split_and!; [cbn [length] in *; lia|by constructor|]. pose proof (val_bound (y :: a) Ha).
  change (val (?d :: ?t)) with (d + 2 ^ 32 * val t). rewrite Hd. pose proof (shr_cons 1 x (val (y :: a)) ltac:(lia) Hx ltac:(lia)) as Hs.
  change (2 ^ 1) with 2 in *. rewrite Hs. change (length (x :: y :: a)) with (S (length (y :: a))). rewrite weight_S.
  assert (val (y :: a) mod 2 = y mod 2) as -> by (change 2 with (2 ^ 1) at 1; cbn [val]; by rewrite low_digit by lia). nia.
Qed.

Lemma last_cons_next (a : list Z) : forall x d, List.last (x :: a) d = List.last a x.
Proof. induction a as [|y a IH]; intros x d; [done|]. change (List.last (y :: a) d = List.last (y :: a) x). by rewrite !IH. Qed.

Lemma shl_loop_ok n a : 0 < n < 32 -> Forall is_u32 a -> forall lower, is_u32 lower ->
  length (shl_loop n lower a) = length a /\ Forall is_u32 (shl_loop n lower a) /\
  val (shl_loop n lower a) + weight (length a) * (List.last a lower / 2 ^ (32 - n)) = 2 ^ n * val a + lower / 2 ^ (32 - n).
Proof.
  intros Hn. induction 1 as [|x a Hx Ha IH]; intros lower Hlo.
  { split_and!; [done|constructor|]. cbn [shl_loop val length List.last]. change (weight 0) with 1. lia. }
  destruct (IH x Hx) as (Hl & Hu & Hv). destruct (shl_digit x lower n Hn Hx Hlo) as [Hd Hdu]. cbn [shl_loop]. unfold P256_BITSPERDIGIT.
  split_and!; [cbn; lia|by constructor|]. cbn [val length]. rewrite Hd, weight_S.
  rewrite last_cons_next.
  pose proof (Z.div_mod x (2 ^ (32 - n)) ltac:(lia)) as Hx2. assert (H32 : 2 ^ 32 = 2 ^ n * 2 ^ (32 - n)) by (rewrite <- Z.pow_add_r by lia; f_equal; lia).
  assert (E1 : 2 ^ n * x = 2 ^ 32 * (x / 2 ^ (32 - n)) + 2 ^ n * (x mod 2 ^ (32 - n))) by (rewrite Hx2 at 1; rewrite H32; ring).
  clear - E1 Hv. lia.
Qed.
