(* ===== verification/P256Euclid.v ===== *)
(** * P-256 integers: inversion by binary Euclid, and the test of a point *)
From Stdlib Require Import Znumtheory.
From S2P Require Import Prelude Words Rsa RsaCorrect P256 P256Correct.

Lemma u32b_num a : (length a =? 8)%nat && forallb (fun x => (0 <=? x) && (x <? 2 ^ 32)) a = true -> num a.
Proof.
  intros H. apply andb_prop in H as [H1 H2]. split; [by apply Nat.eqb_eq|]. apply Forall_forall. intros x Hx.
  apply forallb_forall with (x := x) in H2; [|by apply list_elem_of_In]. unfold is_u32. lia.
Qed.

Lemma constants_num : num P256_ZERO /\ num P256_ONE /\ val P256_ZERO = 0 /\ val P256_ONE = 1.
Proof. split_and!; [by apply u32b_num..|done|done]. Qed.

Lemma nth_last (a : list Z) d : nth (length a - 1) a d = List.last a d.
Proof.
  induction a as [|x a IH]; [done|]. cbn [length]. rewrite Nat.sub_succ, Nat.sub_0_r. destruct a as [|y a]; [done|].
  cbn [length] in *. rewrite Nat.sub_succ, Nat.sub_0_r in IH. exact IH.
Qed.

Lemma p256_shl_ok a n : num a -> 0 < n < 32 ->
  exists t b, p256_shl a n = Done (t, b) /\ num b /\ 0 <= t < 2 ^ n /\ val b + W * t = 2 ^ n * val a.
Proof.
  intros Ha Hn. pose proof (num_bound a Ha). destruct Ha as [Hl Ha]. unfold p256_shl, shift_ok, P256_BITSPERDIGIT. rewrite Z.rem_small by lia.
  rewrite (proj2 (Z.ltb_lt 0 n)), (proj2 (Z.ltb_lt n 32)) by lia. cbn [andb negb].
  destruct a as [|x a]; [discriminate|]. cbn [length] in Hl. pose proof (Forall_inv Ha) as Hx. destruct (shl_loop_ok n (x :: a) Hn Ha 0 ltac:(done)) as (Hl' & Hu & Hv).
  assert (Hb : u32 (Z.shiftl x n) :: shl_loop n x a = shl_loop n 0 (x :: a)).
  { cbn [shl_loop]. rewrite Z.shiftr_0_l, Z.lor_0_r. done. }
  rewrite Hb. cbn [length] in Hv, Hl'. rewrite Hl, weight_8, Z.div_0_l, Z.add_0_r in Hv by lia. set (b := shl_loop n 0 (x :: a)) in *.
  assert (Nb : num b) by (split; [congruence|done]). pose proof (num_bound b Nb).
  unfold P256_DIGIT. assert (nth (P256_NDIGITS - 1) (x :: a) 0 = List.last (x :: a) 0) as -> by (rewrite <- nth_last; cbn [length]; by rewrite Hl).
  assert (Ht : is_u32 (List.last (x :: a) 0)).
  { rewrite <- nth_last. rewrite nth_lookup. destruct (lookup_lt_is_Some_2 (x :: a) (length (x :: a) - 1)) as [y Hy]; [cbn; lia|]. rewrite Hy. cbn [default]. by apply (Forall_lookup_1 _ _ _ _ Ha Hy). }
  set (t := List.last (x :: a) 0) in *. assert (H32 : 2 ^ 32 = 2 ^ n * 2 ^ (32 - n)) by (rewrite <- Z.pow_add_r by lia; f_equal; lia).
  assert (Hq : 0 <= t / 2 ^ (32 - n) < 2 ^ n) by (unfold is_u32 in Ht; split; [apply Z.div_pos; lia|apply Z.div_lt_upper_bound; nia]).
  assert (Hn32 : 2 ^ n < 2 ^ 32) by (apply Z.pow_lt_mono_r; lia).
  exists (t / 2 ^ (32 - n)), b. split_and!; [|done|lia|lia|lia]. do 2 f_equal. rewrite Z.shiftl_mul_pow2 by lia. unfold is_u32 in Ht.
  rewrite u64_small by (change (2 ^ 64) with (2 ^ 32 * 2 ^ 32); nia). rewrite Z.shiftr_div_pow2 by lia.
  assert (t * 2 ^ n / 2 ^ 32 = t / 2 ^ (32 - n)) as -> by (rewrite H32, (Z.mul_comm (2 ^ n)); apply Z.div_mul_cancel_r; lia).
  apply u32_small. unfold is_u32. lia.
Qed.

Lemma p256_shr_ok a n : num a -> 0 < n < 32 -> exists b, p256_shr a n = Done b /\ num b /\ val b = val a / 2 ^ n.
Proof.
  intros [Hl Ha] Hn. unfold p256_shr, shift_ok, P256_BITSPERDIGIT. rewrite Z.rem_small by lia.
  rewrite (proj2 (Z.ltb_lt 0 n)), (proj2 (Z.ltb_lt n 32)) by lia. cbn [andb negb].
  destruct (shr_loop_ok n a Hn Ha) as (Hl' & Hu & Hv). exists (shr_loop n a). split; [done|]. split; [split; [congruence|done]|done].
Qed.

Lemma shr1_num a h : num a -> 0 <= h <= 1 -> num (p256_shr1 a h) /\ 2 * val (p256_shr1 a h) = 2 * (val a / 2) + h * W.
Proof.
  intros [Hl Ha] Hh. destruct (shr1_ok a h) as (Hl' & Hu & Hv); [rewrite Hl; unfold P256_NDIGITS; lia|done|done|]. rewrite Hl, weight_8 in Hv.
  split; [split; [congruence|done]|done].
Qed.

Lemma even_half x : Z.even x = true -> 2 * (x / 2) = x.
Proof. intros H. apply Zeven_bool_iff in H. apply Zeven_div2 in H. rewrite Z.div2_div in H. lia. Qed.

Section Modular.
Context (MOD : p256_int) (HN : num MOD) (Hodd : Z.odd (val MOD) = true).
Abbreviation m := (val MOD).

Lemma halve_ok X : num X -> val X < m -> num (halve MOD X) /\ val (halve MOD X) < m /\ cong m (2 * val (halve MOD X)) (val X).
Proof.
  intros HX Hlt. unfold halve. rewrite p256_is_even_ok by done. pose proof (num_bound X HX). destruct (Z.even (val X)) eqn:E.
  - destruct (shr1_num X 0 HX ltac:(lia)) as [H1 H2]. pose proof (even_half _ E). split_and!; [done|lia|]. exists 0. lia.
  - destruct (p256_add_ok X MOD HX HN) as (k & c & -> & Hc & Hk & Hv). destruct (shr1_num c k Hc Hk) as [H1 H2].
    assert (Hev : Z.even (val c) = true).
    { replace (val c) with (val X + m + 2 * (- (2 ^ 255 * k))) by lia. by rewrite Z.even_add_mul_2, Z.even_add, E, <- Z.negb_odd, Hodd. }
    pose proof (even_half _ Hev). split_and!; [done|lia|]. exists 1. lia.
Qed.

Lemma sub_mod_step_ok X Y : num X -> num Y -> val X < m -> val Y < m ->
  num (sub_mod_step MOD X Y) /\ val (sub_mod_step MOD X Y) < m /\ cong m (val (sub_mod_step MOD X Y)) (val X - val Y).
Proof.
  intros HX HY HxM HyM. pose proof (num_bound X HX). pose proof (num_bound Y HY). pose proof (num_bound MOD HN). unfold sub_mod_step.
  destruct (p256_sub_ok X Y HX HY) as (k & c & -> & Hc & Hk & Hv). pose proof (num_bound c Hc). destruct (Z.eqb_spec k 0) as [->|]; cbn [negb].
  - split_and!; [done|lia|]. exists 0. lia.
  - assert (k = -1) as -> by lia. destruct (p256_add_ok c MOD Hc HN) as (k' & c' & -> & Hc' & Hk' & Hv'). cbn [snd]. pose proof (num_bound c' Hc').
    assert (k' = 1) as -> by nia. split_and!; [done|lia|]. exists 1. lia.
Qed.

Lemma halve_cong a b : cong m (2 * a) (2 * b) -> cong m a b.
Proof.
  intros [q Hq]. assert (Hev : Z.even q = true).
  { assert (H : Z.even (q * m) = true) by (replace (q * m) with (2 * (a - b)) by lia; by rewrite Z.even_mul).
    rewrite Z.even_mul, <- (Z.negb_odd m), Hodd in H. by destruct (Z.even q). }
  pose proof (even_half q Hev). exists (q / 2). nia.
Qed.

(** ** Binary Euclid *)

Context (x : Z).

Record euclid_inv (e : euclid) : Prop := {
  inv_R : num (e_R e) /\ val (e_R e) < m;
  inv_S : num (e_S e) /\ val (e_S e) < m;
  inv_U : num (e_U e) /\ 0 < val (e_U e);
  inv_V : num (e_V e);
  inv_RU : cong m (val (e_U e)) (val (e_R e) * x);
  inv_SV : cong m (val (e_V e)) (val (e_S e) * x);
  inv_div : forall d, (d | val (e_U e)) -> (d | val (e_V e)) -> (d | m) /\ (d | x)
}.

(** Every turn takes a bit away, or makes an odd number even. *)
Definition rank (e : euclid) : Z :=
  2 * (Z.log2 (val (e_U e)) + Z.log2 (val (e_V e))) + (if Z.odd (val (e_U e)) && Z.odd (val (e_V e)) then 1 else 0).

Lemma log2_half a : 0 < a -> Z.even a = true -> Z.log2 (a / 2) = Z.log2 a - 1 /\ 0 < a / 2.
Proof.
  intros Ha He. pose proof (even_half a He). split; [|lia].
  rewrite <- H at 2. rewrite Z.log2_double by lia. lia.
Qed.

Lemma euclid_step_ok e : euclid_inv e -> 0 < val (e_V e) ->
  exists done e', euclid_step MOD e = (done, e') /\ euclid_inv e' /\
    (if done then val (e_V e') = 0 else 0 < val (e_V e') /\ rank e' < rank e).
Proof.
  destruct e as [R1 S1 U V]. intros [[HR HRm] [HS HSm] [HU HU0] HV HRU HSV Hdiv] HV0. cbn [e_R e_S e_U e_V] in *. unfold euclid_step.
  rewrite !p256_is_even_ok by done. pose proof (num_bound U HU). pose proof (num_bound V HV). destruct (Z.even (val U)) eqn:EU.
  { destruct (halve_ok R1 HR HRm) as (H1 & H2 & H3). destruct (shr1_num U 0 HU ltac:(lia)) as [H4 H5]. pose proof (even_half _ EU).
    destruct (log2_half (val U) HU0 EU). eexists _, _. split; [done|]. assert (HvU : val (p256_shr1 U 0) = val U / 2) by lia.
    split; [split; cbn [e_R e_S e_U e_V]; try done|].
    - split; [done|lia].
    - apply halve_cong. rewrite H5. replace (2 * (val U / 2) + 0 * W) with (val U) by lia. rewrite HRU, <- H3. exists 0. lia.
    - intros d Hd. apply Hdiv. replace (val U) with (2 * val (p256_shr1 U 0)) by lia. by apply Z.divide_mul_r.
    - split; [done|]. unfold rank. cbn [e_U e_V]. rewrite HvU, <- (Z.negb_even (val U)), EU. cbn [negb andb]. destruct (Z.odd _ && Z.odd _); lia. }
  destruct (Z.even (val V)) eqn:EV.
  { destruct (halve_ok S1 HS HSm) as (H1 & H2 & H3). destruct (shr1_num V 0 HV ltac:(lia)) as [H4 H5]. pose proof (even_half _ EV).
    destruct (log2_half (val V) HV0 EV). eexists _, _. split; [done|]. assert (HvV : val (p256_shr1 V 0) = val V / 2) by lia.
    split; [split; cbn [e_R e_S e_U e_V]; try done|].
    - apply halve_cong. rewrite H5. replace (2 * (val V / 2) + 0 * W) with (val V) by lia. rewrite HSV, <- H3. exists 0. lia.
    - intros d Hd Hd'. apply Hdiv; [done|]. replace (val V) with (2 * val (p256_shr1 V 0)) by lia. by apply Z.divide_mul_r.
    - cbn [e_V]. split; [lia|]. unfold rank. cbn [e_U e_V]. rewrite HvV, <- (Z.negb_even (val V)), EV. cbn [negb]. rewrite andb_false_r. destruct (Z.odd _ && Z.odd _); lia. }
  destruct (p256_sub_ok V U HV HU) as (k & V' & -> & HV' & Hk & Hv). cbn [fst snd]. pose proof (num_bound V' HV').
  assert (Hpar : forall z, 0 <= z -> Z.even z = true -> Z.odd z = false) by (intros; by rewrite <- Z.negb_even, H3).
  destruct (Z.eqb_spec k 0) as [->|Hk0].
  - destruct (sub_mod_step_ok S1 R1 HS HR HSm HRm) as (H3 & H4 & H5). eexists _, _. split; [done|].
    assert (HvV : val V' = val V - val U) by lia. split; [split; cbn [e_R e_S e_U e_V]; try done|].
    + rewrite HvV, H5, HRU, HSV. exists 0. lia.
    + intros d Hd Hd'. apply Hdiv; [done|]. replace (val V) with (val U + val V') by lia. by apply Z.divide_add_r.
    + rewrite p256_is_zero_ok by done. cbn [e_V]. destruct (Z.eqb_spec (val V') 0); cbn [negb Z.eqb]; [done|]. split; [lia|].
      unfold rank. cbn [e_U e_V]. pose proof (Z.log2_le_mono (val V') (val V) ltac:(lia)).
      rewrite <- !Z.negb_even, EU, EV, HvV, Z.even_sub, EU, EV. cbn [negb andb Bool.eqb]. rewrite <- HvV. lia.
  - destruct (p256_sub_ok U V HU HV) as (k2 & U' & -> & HU' & Hk2 & Hv2). cbn [fst snd]. pose proof (num_bound U' HU').
    destruct (sub_mod_step_ok R1 S1 HR HS HRm HSm) as (H4 & H5 & H6). eexists _, _. split; [done|].
    assert (HvU : val U' = val U - val V) by nia. assert (val V < val U) by nia.
    split; [split; cbn [e_R e_S e_U e_V]; try done|].
    + split; [done|lia].
    + rewrite HvU, H6, HRU, HSV. exists 0. lia.
    + intros d Hd Hd'. apply Hdiv; [|done]. replace (val U) with (val V + val U') by lia. by apply Z.divide_add_r.
    + cbn [e_V]. split; [done|]. unfold rank. cbn [e_U e_V]. pose proof (Z.log2_le_mono (val U') (val U) ltac:(lia)).
      rewrite <- !Z.negb_even, EU, EV, HvU, Z.even_sub, EU, EV. cbn [negb andb Bool.eqb]. rewrite <- HvU. lia.
Qed.

Context (Hco : Z.gcd m x = 1).

Lemma euclid_loop_ok fuel : forall e, euclid_inv e -> 0 < val (e_V e) -> rank e < Z.of_nat fuel ->
  exists e', euclid_loop fuel MOD e = Done e' /\ num (e_R e') /\ val (e_R e') < m /\ cong m (val (e_R e') * x) 1.
Proof.
  induction fuel as [|fuel IH]; intros e Hi Hv Hr.
  { unfold rank in Hr. pose proof (Z.log2_nonneg (val (e_U e))). pose proof (Z.log2_nonneg (val (e_V e))). destruct (_ && _) in Hr; lia. }
  destruct (euclid_step_ok e Hi Hv) as (fin & e' & Hs & Hi' & Hcase). cbn [euclid_loop]. rewrite Hs. destruct fin.
  - exists e'. split; [done|]. destruct Hi' as [[HR HRm] _ [HU HU0] _ HRU _ Hdiv]. split_and!; [done..|]. rewrite <- HRU.
    destruct (Hdiv (val (e_U e'))) as [Hd1 Hd2]; [done|rewrite Hcase; apply Z.divide_0_r|].
    pose proof (Z.gcd_greatest _ _ _ Hd1 Hd2) as Hg. rewrite Hco in Hg. apply Z.divide_1_r in Hg. assert (val (e_U e') = 1) as -> by lia. done.
  - destruct Hcase as [H1 H2]. apply IH; [done..|lia].
Qed.
End Modular.

Lemma modinv_ok MOD a fuel :
  modulus MOD -> Z.odd (val MOD) = true -> num a -> Z.gcd (val MOD) (val a) = 1 -> (1022 <= fuel)%nat ->
  exists b, p256_modinv_vartime fuel MOD a = Done b /\ num b /\ val b < val MOD /\ (val b * val a) mod val MOD = 1.
Proof.
  intros HM Hodd Ha Hg Hf. pose proof (modulus_bounds MOD HM) as Hm. destruct HM as [HN _]. pose proof (num_bound a Ha).
  assert (val a <> 0) by (intros E; rewrite E, Z.gcd_0_r in Hg; lia).
  destruct (euclid_loop_ok MOD HN Hodd (val a) Hg fuel (mk_euclid P256_ZERO P256_ONE MOD a)) as (e & He & HR & HRm & Hc).
  - destruct constants_num as (H1 & H2 & H3 & H4). split; cbn [e_R e_S e_U e_V]; rewrite ?H3, ?H4; split_and?; try done; try lia; [exists 1|exists 0]; lia.
  - cbn. lia.
  - unfold rank. cbn [e_U e_V]. pose proof (Z.log2_lt_pow2 (val MOD) 256 ltac:(lia)). pose proof (Z.log2_lt_pow2 (val a) 256 ltac:(lia)). destruct (_ && _); lia.
  - unfold p256_modinv_vartime. rewrite He. cbn [obind]. destruct (p256_mod_ok MOD (e_R e) HN ltac:(lia) HR) as [H1 H2]. pose proof (num_bound _ HR).
    rewrite Z.mod_small in H2 by lia. exists (p256_mod MOD (e_R e)). rewrite H2. split_and!; [done..|].
    apply (cong_mod (val MOD)) in Hc; [|lia]. by rewrite Hc, Z.mod_small by lia.
Qed.

(** C17. [p256_modinv_vartime] ends and inverts: for an odd modulus whose top
    digit is all ones and every [a] prime to it, 1022 turns are enough, and the
    result is the number below the modulus whose product with [a] is 1. *)
Theorem p256_modinv_vartime_correct MOD a fuel :
  modulus MOD -> Z.odd (val MOD) = true -> num a -> Z.gcd (val MOD) (val a) = 1 -> (1022 <= fuel)%nat ->
  exists b, p256_modinv_vartime fuel MOD a = Done b /\ num b /\ val b < val MOD /\ (val b * val a) mod val MOD = 1.
Proof. apply modinv_ok. Qed.

(** The inverse of zero: the loop halves [V = 0] for ever. *)
Theorem p256_modinv_zero_diverges MOD fuel : num MOD -> Z.odd (val MOD) = true -> p256_modinv_vartime fuel MOD P256_ZERO = Crash OutOfFuel.
Proof.
  intros HN Hodd. unfold p256_modinv_vartime. assert (H : forall R1 S1, euclid_loop fuel MOD (mk_euclid R1 S1 MOD P256_ZERO) = Crash OutOfFuel).
  { induction fuel as [|fuel IH]; intros R1 S1; [done|]. cbn [euclid_loop]. unfold euclid_step.
    rewrite (p256_is_even_ok MOD), <- Z.negb_odd, Hodd by done. apply IH. }
  by rewrite H.
Qed.

(** ** The test of a point *)

Abbreviation field := (val SECP256r1_p).
Abbreviation curve_b := (val SECP256r1_b).

Definition on_curve (x y : Z) : Prop := y ^ 2 mod field = (x ^ 3 - 3 * x + curve_b) mod field.

Lemma field_modulus : modulus SECP256r1_p.
Proof. split; [by apply u32b_num|]. vm_compute. congruence. Qed.

Lemma order_modulus : modulus SECP256r1_n.
Proof. split; [by apply u32b_num|]. vm_compute. congruence. Qed.

Lemma b_num : num SECP256r1_b.
Proof. by apply u32b_num. Qed.

(** [x ^ 3 - 3 x] as the code computes it. *)
Lemma three_subtractions x x3 : num x -> num x3 -> val x < field -> val x3 < field -> cong field (val x3) (val x ^ 3) ->
  let r := sub_mod_step SECP256r1_p (sub_mod_step SECP256r1_p (sub_mod_step SECP256r1_p x3 x) x) x in
  num r /\ val r = (val x ^ 3 - 3 * val x) mod field.
Proof.
  intros Hx H3 Hxp H3p Hc. pose proof (md_num _ field_modulus) as HN. cbv zeta.
  destruct (sub_mod_step_ok SECP256r1_p HN x3 x H3 Hx H3p Hxp) as (Ha & Hap & Hac).
  destruct (sub_mod_step_ok SECP256r1_p HN _ x Ha Hx Hap Hxp) as (Hb & Hbp & Hbc).
  destruct (sub_mod_step_ok SECP256r1_p HN _ x Hb Hx Hbp Hxp) as (Hr & Hrp & Hrc). split; [done|]. pose proof (num_bound _ Hr).
  rewrite <- (Z.mod_small _ field (conj (proj1 H) Hrp)). apply cong_mod; [done|]. rewrite Hrc, Hbc, Hac, Hc. exists 0. lia.
Qed.

Lemma is_valid_point_ok x y : num x -> num y -> exists v, p256_is_valid_point x y = Done v /\ (v = 0 \/ v = 1) /\
  (v = 1 <-> 0 < val x < field /\ 0 < val y < field /\ on_curve (val x) (val y) /\
    ~ (field <= (val x ^ 3 - 3 * val x) mod field + curve_b < W)).
Proof.
  intros Hx Hy. pose proof field_modulus as HM. pose proof (md_num _ HM) as HN. pose proof (num_bound x Hx). pose proof (num_bound y Hy).
  assert (Hp : 2 ^ 255 < field < W) by (vm_compute; intuition congruence). assert (Hb : 0 < curve_b < field) by (vm_compute; intuition congruence).
  unfold p256_is_valid_point. rewrite !p256_cmp_ok, !p256_is_zero_ok by done.
  destruct (_ || _) eqn:E.
  { exists 0. split; [done|]. split; [auto|]. split; [done|]. intros (H1 & H2 & _). exfalso. revert E.
    rewrite (Z.sgn_pos (field - val x)), (Z.sgn_pos (field - val y)), (proj2 (Z.eqb_neq (val x) 0)), (proj2 (Z.eqb_neq (val y) 0)) by lia. done. }
  apply orb_false_iff in E as [E E4]. apply orb_false_iff in E as [E E3]. apply orb_false_iff in E as [E1 E2].
  assert (Hxr : 0 < val x < field) by (destruct (Z.eqb_spec (val x) 0); [done|]; pose proof (Z.sgn_spec (field - val x)); lia).
  assert (Hyr : 0 < val y < field) by (destruct (Z.eqb_spec (val y) 0); [done|]; pose proof (Z.sgn_spec (field - val y)); lia).
  destruct (modmul_ok _ HM y 0 y Hy Hy ltac:(done)) as (y2 & -> & Hy2 & Hvy). cbn [obind].
  destruct (modmul_ok _ HM x 0 x Hx Hx ltac:(done)) as (x2 & -> & Hx2 & Hvx2). cbn [obind].
  destruct (modmul_ok _ HM x 0 x2 Hx Hx2 ltac:(done)) as (x3 & -> & Hx3 & Hvx3). cbn [obind].
  destruct (three_subtractions x x3) as [Hz Hvz]; [done|done|lia|rewrite Hvx3; apply Z.mod_pos_bound; lia| |].
  { apply cong_mod; [lia|]. rewrite Hvx3, Hvx2, Z.mod_mod by lia. rewrite !Z.mul_0_r, !Z.add_0_r, Zmult_mod_idemp_r. f_equal. ring. }
  set (z := sub_mod_step _ _ _) in *. destruct (p256_add_ok z SECP256r1_b Hz b_num) as (k & w & -> & Hw & Hk & Hvw).
  assert (Hzr : 0 <= val z < field) by (rewrite Hvz; apply Z.mod_pos_bound; lia). pose proof (num_bound w Hw).
  rewrite Z.mul_0_r, Z.add_0_r in Hvy. replace (val y * val y) with (val y ^ 2) in Hvy by ring.
  assert (Hcurve : on_curve (val x) (val y) <-> val y2 = (val z + curve_b) mod field).
  { unfold on_curve. rewrite Hvy, Hvz, Zplus_mod_idemp_l. by replace (val x ^ 3 - 3 * val x + curve_b) with (val x ^ 3 - 3 * val x + curve_b) by lia. }
  pose proof (Z.mod_pos_bound (val y ^ 2) field ltac:(lia)) as Hyb. rewrite <- Hvy in Hyb. rewrite <- Hvz. setoid_rewrite Hcurve.
  assert (Hfin : exists r, (if negb (k =? 0) then (p256_sub w SECP256r1_p).2 else w) = r /\ num r /\ val r = if k =? 0 then val z + curve_b else val z + curve_b - field).
  { destruct (Z.eqb_spec k 0) as [->|]; cbn [negb]; [exists w; split_and!; [done..|lia]|]. assert (k = 1) as -> by lia.
    destruct (p256_sub_ok w SECP256r1_p Hw HN) as (k' & r & -> & Hr & Hk' & Hvr). pose proof (num_bound r Hr). exists r. split_and!; [done..|]. nia. }
  destruct Hfin as (r & -> & Hr & Hvr). rewrite p256_cmp_ok by done. eexists. split; [done|].
  destruct (Z.eqb_spec (Z.sgn (val y2 - val r)) 0) as [Es|Es]; (split; [auto|]); (split; [intros Hone|]); try done.
  - apply Z.sgn_null_iff in Es. split_and!; try lia.
    + destruct (Z.eqb_spec k 0) as [->|]; [|assert (k = 1) as -> by lia].
      * rewrite Z.mod_small; lia.
      * apply (Zmod_unique _ _ 1); lia.
    + destruct (Z.eqb_spec k 0) as [->|]; [lia|assert (k = 1) as -> by lia]. lia.
  - intros (_ & _ & Hc & Hnot). exfalso. apply Es. apply Z.sgn_null_iff. rewrite Hc, Hvr. destruct (Z.eqb_spec k 0) as [->|]; [|assert (k = 1) as -> by lia].
    + rewrite Z.mod_small; lia.
    + apply Z.sub_move_0_r. symmetry. apply (Zmod_unique _ _ 1); lia.
Qed.

(** C18. [p256_is_valid_point] never faults and accepts only points of the
    curve with coordinates between 0 and p.  It accepts all of them but those
    for which [x^3 - 3x] and [b], reduced and added, reach p without carrying
    out of 256 bits. *)
Theorem p256_is_valid_point_correct x y : num x -> num y -> exists v, p256_is_valid_point x y = Done v /\ (v = 0 \/ v = 1) /\
  (v = 1 <-> 0 < val x < field /\ 0 < val y < field /\ on_curve (val x) (val y) /\
    ~ (field <= (val x ^ 3 - 3 * val x) mod field + curve_b < W)).
Proof. apply is_valid_point_ok. Qed.

(** [p256_modmul] multiplies: whatever the factors, for a modulus whose
    top digit is all ones no assertion fails, and the result is the product
    [a * (top_b | b)] reduced below the modulus. *)
Theorem p256_modmul_correct MOD a top_b b : modulus MOD -> num a -> num b -> is_u32 top_b ->
  exists c, p256_modmul MOD a top_b b = Done c /\ num c /\ val c = val a * (val b + W * top_b) mod val MOD.
Proof. intros HM. by apply modmul_ok. Qed.

(** ** Bytes *)

Lemma bin_digit_word src i : bin_digit src i = word_at src i.
Proof.
  unfold bin_digit, word_at, byte_at. rewrite Nat.add_0_r.
  assert (Hb : forall k s, 0 <= s <= 24 -> is_u32 (Z.shiftl (byte_to_Z (nth k src Init.Byte.x00)) s)).
  { intros k s Hs. pose proof (Byte.byte.unsigned_range (nth k src Init.Byte.x00)). unfold is_u32. rewrite Z.shiftl_mul_pow2 by lia.
    pose proof (Z.pow_le_mono_r 2 s 24 ltac:(lia) ltac:(lia)). assert (1 <= 2 ^ s) by lia. nia. }
  rewrite (u32_small (Z.shiftl _ 24)) by (apply Hb; lia). apply u32_small.
  repeat apply lor_u32; try (apply Hb; lia). rewrite <- (Z.shiftl_0_r (byte_to_Z _)). apply Hb. lia.
Qed.

Lemma p256_from_bin_ok src : length src = P256_NBYTES -> num (p256_from_bin src) /\ val (p256_from_bin src) = be_val src.
Proof.
  intros Hl. assert (p256_from_bin src = words_of_bytes 8 src) as ->.
  { unfold p256_from_bin, words_of_bytes. apply list_fmap_ext. intros i k _. rewrite bin_digit_word. f_equal. unfold P256_NDIGITS. lia. }
  unfold P256_NBYTES in Hl. destruct (words_of_bytes_ok 8 src) as (H1 & H2 & H3); [lia|]. rewrite firstn_all2 in H3 by lia. done.
Qed.

Module P256Witnesses.
Fixpoint digits (k : nat) (v : Z) : p256_int :=
  match k with O => [] | S k => v mod 2 ^ 32 :: digits k (v / 2 ^ 32) end.

Definition G_x : p256_int := digits 8 0x6b17d1f2e12c4247f8bce6e563a440f277037d812deb33a0f4a13945d898c296.
Definition G_y : p256_int := digits 8 0x4fe342e2fe1a7f9b8ee7eb4a7c0f9e162bce33576b315ececbb6406837bf51f5.

Lemma G_num : num G_x /\ num G_y.
Proof. by split; apply u32b_num. Qed.

Lemma p256_modmul_correct_witness :
  exists c, p256_modmul SECP256r1_n G_x 5 G_y = Done c /\ val c = val G_x * (val G_y + W * 5) mod val SECP256r1_n.
Proof.
  destruct (p256_modmul_correct SECP256r1_n G_x 5 G_y order_modulus (proj1 G_num) (proj2 G_num) ltac:(done)) as (c & Hc & _ & Hv).
  exists c. split; [exact Hc|exact Hv].
Defined.

Lemma p256_modinv_vartime_correct_witness :
  exists b, p256_modinv_vartime 1022 SECP256r1_n G_x = Done b /\ (val b * val G_x) mod val SECP256r1_n = 1.
Proof.
  destruct (p256_modinv_vartime_correct SECP256r1_n G_x 1022 order_modulus eq_refl (proj1 G_num) ltac:(by vm_compute) (le_n _)) as (b & Hb & _ & _ & Hv).
  exists b. split; [exact Hb|exact Hv].
Defined.

(** The generator of the group is accepted. *)
Lemma p256_is_valid_point_correct_witness : p256_is_valid_point G_x G_y = Done 1.
Proof.
  destruct (p256_is_valid_point_correct G_x G_y (proj1 G_num) (proj2 G_num)) as (v & Hv & _ & Hiff).
  rewrite Hv. f_equal. apply Hiff. vm_compute. intuition congruence.
Defined.

(** A point of the curve with a small square of [y], here [y = 1], is turned
    away. *)
Definition small_x : p256_int := digits 8 0x8d0177ebab9c6e9e10db6dd095dbac0d6375e8a97b70f611875d877f0069d2c7.

Theorem valid_point_rejected : on_curve (val small_x) 1 /\ p256_is_valid_point small_x P256_ONE = Done 0.
Proof.
  split; [by vm_compute|]. destruct (is_valid_point_ok small_x P256_ONE) as (v & Hv & [-> | ->] & Hiff); [by apply u32b_num..|done|].
  destruct (proj1 Hiff eq_refl) as (_ & _ & _ & Hn). exfalso. apply Hn. vm_compute. intuition congruence.
Qed.
End P256Witnesses.
