(* ===== verification/DsaSig.v ===== *)
(** * ASN.1 signatures (libmincrypt dsa_sig.c)

    The signature is an array of bytes; a read behind its end is a fault. *)
From S2P Require Import Prelude Words P256 P256Correct P256Euclid.

(** [sig[i]]. *)
Definition sig_byte (sig : list byte) (i : nat) : outcome Z :=
  match sig !! i with Some b => Done (byte_to_Z b) | None => Crash OutOfBounds end.

(** [while (src[0] == 0 && src_len > 0)]: the pointer and the length behind
    the loop.  The byte is read before the length is tested. *)
Fixpoint trim_loop (sig : list byte) (src src_len : nat) : outcome (nat * nat) :=
  let! c := sig_byte sig src in
  match src_len with
  | S n => if c =? 0 then trim_loop sig (S src) n else Done (src, src_len)
  | O => Done (src, O)
  end.

(** [None] is the return value 0. *)
Definition trim_to_p256_bytes (sig : list byte) (src src_len : nat) : outcome (option (list byte)) :=
  let! r := trim_loop sig src src_len in let '(src, src_len) := r in
  if (P256_NBYTES <? src_len)%nat || (src_len <? 1)%nat then Done None else
  let dst_offset := (P256_NBYTES - src_len)%nat in
  if (length sig <? src + src_len)%nat then Crash OutOfBounds else
  Done (Some (replicate dst_offset Init.Byte.x00 ++ take src_len (drop src sig))).

Definition dsa_sig_unpack (sig : list byte) (sig_len : Z) : outcome (option (p256_int * p256_int)) :=
  if sig_len <? 8 then Done None else
  let! sig0 := sig_byte sig 0 in
  if negb (sig0 =? 0x30) then Done None else
  let! sig2 := sig_byte sig 2 in
  if negb (sig2 =? 0x02) then Done None else
  let! seq_len := sig_byte sig 1 in
  if (seq_len <=? 0) || negb (seq_len + 2 =? sig_len) then Done None else
  let! r_len := sig_byte sig 3 in
  if (r_len <? 1) || (seq_len - 5 <? r_len) then Done None else
  let! tag := sig_byte sig (Z.to_nat (4 + r_len)) in
  if negb (tag =? 0x02) then Done None else
  let! s_len := sig_byte sig (Z.to_nat (5 + r_len)) in
  if (s_len <? 1) || negb (s_len =? seq_len - 4 - r_len) then Done None else
  let! r_bytes := trim_to_p256_bytes sig 4 (Z.to_nat r_len) in
  match r_bytes with
  | None => Done None
  | Some r_bytes =>
      let! s_bytes := trim_to_p256_bytes sig (Z.to_nat (6 + r_len)) (Z.to_nat s_len) in
      match s_bytes with
      | None => Done None
      | Some s_bytes => Done (Some (p256_from_bin r_bytes, p256_from_bin s_bytes))
      end
  end.

(** ** Big-endian numbers *)

Lemma be_val_cons x l : be_val (x :: l) = byte_to_Z x * 2 ^ (8 * blen l) + be_val l.
Proof.
  induction l as [|y l IH] using rev_ind; [unfold be_val, blen; cbn [foldl length]; change (2 ^ (8 * Z.of_nat 0)) with 1; lia|]. rewrite app_comm_cons, !be_val_snoc, IH. unfold blen. rewrite length_app. cbn [length].
  replace (8 * Z.of_nat (length l + 1)) with (8 * Z.of_nat (length l) + 8) by lia. rewrite Z.pow_add_r by lia. lia.
Qed.

Lemma be_val_bound l : 0 <= be_val l < 2 ^ (8 * blen l).
Proof.
  induction l as [|x l IH]; [done|]. rewrite be_val_cons. pose proof (Byte.byte.unsigned_range x). unfold blen in *. cbn [length].
  replace (8 * Z.of_nat (S (length l))) with (8 + 8 * Z.of_nat (length l)) by lia. rewrite Z.pow_add_r by lia. nia.
Qed.

Lemma be_val_zeros k l : be_val (replicate k Init.Byte.x00 ++ l) = be_val l.
Proof. induction k as [|k IH]; [done|]. cbn [replicate app]. rewrite be_val_cons. change (byte_to_Z Init.Byte.x00) with 0. lia. Qed.

(** The number without its leading zeros. *)
Fixpoint strip (l : list byte) : list byte :=
  match l with x :: t => if byte_to_Z x =? 0 then strip t else l | [] => [] end.

Lemma strip_ok l : exists k, l = replicate k Init.Byte.x00 ++ strip l.
Proof.
  induction l as [|x l [k IH]]; [by exists 0%nat|]. cbn [strip]. destruct (Z.eqb_spec (byte_to_Z x) 0) as [E|]; [|by exists 0%nat].
  exists (S k). cbn [replicate app]. rewrite <- IH. f_equal. by apply Byte.byte.unsigned_inj.
Qed.

Lemma be_val_strip l : be_val (strip l) = be_val l.
Proof. destruct (strip_ok l) as [k E]. rewrite E at 2. by rewrite be_val_zeros. Qed.

Lemma strip_zero l : strip l = [] <-> be_val l = 0.
Proof.
  rewrite <- be_val_strip. destruct (strip l) as [|x t] eqn:E; [done|]. split; [done|]. intros Hz. exfalso.
  assert (byte_to_Z x <> 0). { clear Hz. revert E. induction l as [|y l IH]; cbn [strip]; [done|]. destruct (Z.eqb_spec (byte_to_Z y) 0); [done|]. by intros [= -> _]. }
  rewrite be_val_cons in Hz. pose proof (Byte.byte.unsigned_range x). pose proof (be_val_bound t). unfold blen in *. nia.
Qed.

Lemma strip_short l : (length (strip l) <= P256_NBYTES)%nat <-> be_val l < W.
Proof.
  rewrite <- be_val_strip. destruct (strip l) as [|x t] eqn:E; [split; cbn; lia|].
  assert (Hx : 1 <= byte_to_Z x). { pose proof (Byte.byte.unsigned_range x). revert E. induction l as [|y l IH]; cbn [strip]; [done|]. destruct (Z.eqb_spec (byte_to_Z y) 0); [done|]. intros [= -> _]. lia. }
  unfold P256_NBYTES. split; intros H.
  - pose proof (be_val_bound (x :: t)) as Hb. eapply Z.lt_le_trans; [apply Hb|]. apply Z.pow_le_mono_r; [lia|]. unfold blen. lia.
  - destruct (Nat.le_gt_cases (length (x :: t)) 32) as [|Hgt]; [done|]. exfalso. rewrite be_val_cons in H. pose proof (be_val_bound t).
    assert (W <= 2 ^ (8 * blen t)) by (apply Z.pow_le_mono_r; [lia|]; unfold blen; cbn in Hgt; lia). nia.
Qed.

(** ** Trimming *)

Lemma sig_byte_at (a b : list byte) x : sig_byte (a ++ x :: b) (length a) = Done (byte_to_Z x).
Proof. unfold sig_byte. by rewrite list_lookup_middle. Qed.

Lemma sig_byte_eq l i a b x : l = a ++ x :: b -> i = length a -> sig_byte l i = Done (byte_to_Z x).
Proof. intros -> ->. apply sig_byte_at. Qed.

Lemma trim_loop_ok bs : forall pre post,
  trim_loop (pre ++ bs ++ post) (length pre) (length bs) =
    match strip bs, post with
    | [], [] => Crash OutOfBounds
    | t, _ => Done ((length pre + length bs - length t)%nat, length t)
    end.
Proof.
  induction bs as [|x bs IH]; intros pre post.
  { cbn [app length trim_loop strip]. destruct post as [|y post].
    - unfold sig_byte. by rewrite app_nil_r, lookup_ge_None_2 by lia.
    - rewrite sig_byte_at. cbn [obind]. do 2 f_equal. lia. }
  cbn [length]. cbn [trim_loop]. change ((x :: bs) ++ post) with (x :: (bs ++ post)). rewrite sig_byte_at. cbn [obind strip].
  destruct (Z.eqb_spec (byte_to_Z x) 0).
  - specialize (IH (pre ++ [x]) post). rewrite <- app_assoc in IH. cbn [app] in IH. rewrite length_app in IH. cbn [length] in IH.
    replace (length pre + 1)%nat with (S (length pre)) in IH by lia. rewrite IH.
    destruct (strip bs); [destruct post|]; [done| |]; do 2 f_equal; lia.
  - destruct post; do 2 f_equal; cbn [length]; lia.
Qed.

Lemma trim_ok bs pre post :
  trim_to_p256_bytes (pre ++ bs ++ post) (length pre) (length bs) =
    if be_val bs =? 0 then match post with [] => Crash OutOfBounds | _ => Done None end
    else if be_val bs <? W then Done (Some (replicate (P256_NBYTES - length (strip bs)) Init.Byte.x00 ++ strip bs)) else Done None.
Proof.
  unfold trim_to_p256_bytes. rewrite trim_loop_ok. pose proof (strip_short bs) as Hs. pose proof (strip_zero bs) as Hz.
  destruct (strip_ok bs) as [k Hk]. destruct (strip bs) as [|x t] eqn:E.
  { rewrite (proj2 (Z.eqb_eq _ _)) by (by apply Hz). by destruct post. }
  assert (be_val bs <> 0) by (intros Hc; by apply Hz in Hc). rewrite (proj2 (Z.eqb_neq _ _)) by done.
  assert (Hl : length bs = (k + length (x :: t))%nat) by (rewrite Hk; by rewrite length_app, length_replicate).
  replace (match post with [] => _ | _ => _ end) with (Done (A := nat * nat) ((length pre + length bs - length (x :: t))%nat, length (x :: t))) by (by destruct post).
  cbn [obind]. rewrite (proj2 (Nat.ltb_ge (length (x :: t)) 1)), orb_false_r by (cbn; lia).
  destruct (Nat.ltb_spec P256_NBYTES (length (x :: t))) as [H1|H1].
  { rewrite (proj2 (Z.ltb_ge _ _)); [done|]. destruct (Z.lt_ge_cases (be_val bs) W) as [Hw|]; [|done]. apply Hs in Hw. lia. }
  rewrite (proj2 (Z.ltb_lt _ _)) by (by apply Hs). rewrite (proj2 (Nat.ltb_ge _ _)) by (rewrite !length_app; lia).
  do 3 f_equal. replace (length pre + length bs - length (x :: t))%nat with (length pre + k)%nat by lia.
  rewrite <- drop_drop, drop_app_length, Hk, <- app_assoc, drop_app_length' by (by rewrite length_replicate). apply take_app_length.
Qed.

(** ** The encoding *)

(** The sequence of two integers, with lengths of one byte. *)
Definition der (rb sb : list byte) : list byte :=
  [byte_of_Z 0x30; byte_of_Z (4 + blen rb + blen sb); byte_of_Z 2; byte_of_Z (blen rb)] ++ rb ++ [byte_of_Z 2; byte_of_Z (blen sb)] ++ sb.

Definition der_ok (rb sb : list byte) : Prop := 1 <= blen rb /\ 1 <= blen sb /\ 4 + blen rb + blen sb <= 255.

Lemma byte_small v : 0 <= v <= 255 -> byte_to_Z (byte_of_Z v) = v.
Proof. intros H. rewrite Byte.byte.unsigned_of_Z. unfold Byte.byte.wrap. apply Z.mod_small. lia. Qed.

Lemma byte_of_to x : byte_of_Z (byte_to_Z x) = x.
Proof. apply Byte.byte.unsigned_inj. pose proof (Byte.byte.unsigned_range x). rewrite byte_small; [done|lia]. Qed.

Lemma blen_der rb sb : blen (der rb sb) = 6 + blen rb + blen sb.
Proof. unfold der. rewrite !blen_app. unfold blen. cbn [length]. lia. Qed.

Lemma unpack_der rb sb : der_ok rb sb -> dsa_sig_unpack (der rb sb) (blen (der rb sb)) =
  let! r_bytes := trim_to_p256_bytes (der rb sb) 4 (length rb) in
  match r_bytes with
  | None => Done None
  | Some r_bytes =>
      let! s_bytes := trim_to_p256_bytes (der rb sb) (6 + length rb) (length sb) in
      match s_bytes with
      | None => Done None
      | Some s_bytes => Done (Some (p256_from_bin r_bytes, p256_from_bin s_bytes))
      end
  end.
Proof.
  intros (H1 & H2 & H3). unfold dsa_sig_unpack. rewrite blen_der.
  set (hdr := [byte_of_Z 0x30; byte_of_Z (4 + blen rb + blen sb); byte_of_Z 2; byte_of_Z (blen rb)]).
  assert (B0 : sig_byte (der rb sb) 0 = Done (0x30)) by (rewrite <- (byte_small (0x30)) by lia; reflexivity).
  assert (B1 : sig_byte (der rb sb) 1 = Done (4 + blen rb + blen sb)) by (rewrite <- (byte_small (4 + blen rb + blen sb)) by lia; reflexivity).
  assert (B2 : sig_byte (der rb sb) 2 = Done (2)) by (rewrite <- (byte_small (2)) by lia; reflexivity).
  assert (B3 : sig_byte (der rb sb) 3 = Done (blen rb)) by (rewrite <- (byte_small (blen rb)) by lia; reflexivity).
  assert (B4 : sig_byte (der rb sb) (Z.to_nat (4 + blen rb)) = Done 2).
  { rewrite (sig_byte_eq _ _ (hdr ++ rb) (byte_of_Z (blen sb) :: sb) (byte_of_Z 2)), byte_small; [done|lia|unfold der; by rewrite <- app_assoc|rewrite length_app; unfold blen; cbn; lia]. }
  assert (B5 : sig_byte (der rb sb) (Z.to_nat (5 + blen rb)) = Done (blen sb)).
  { rewrite (sig_byte_eq _ _ (hdr ++ rb ++ [byte_of_Z 2]) sb (byte_of_Z (blen sb))), byte_small; [done|lia|unfold der; by rewrite <- !app_assoc|rewrite !length_app; unfold blen; cbn; lia]. }
  rewrite B0, B1, B2, B3. cbn [obind]. rewrite B4, B5. cbn [obind]. zdec. cbn [negb orb].
  replace (Z.to_nat (blen rb)) with (length rb) by (unfold blen; lia). replace (Z.to_nat (blen sb)) with (length sb) by (unfold blen; lia).
  by replace (Z.to_nat (6 + blen rb)) with (6 + length rb)%nat by (unfold blen; lia).
Qed.

(** Anything else is refused without a fault. *)
Lemma unpack_inv sig : dsa_sig_unpack sig (blen sig) <> Done None -> exists rb sb, der_ok rb sb /\ sig = der rb sb.
Proof.
  unfold dsa_sig_unpack. destruct (Z.ltb_spec (blen sig) 8) as [|H8]; [done|].
  destruct sig as [|b0 [|b1 [|b2 [|b3 rest]]]]; try (exfalso; revert H8; unfold blen; cbn [length]; lia).
  change (sig_byte (b0 :: ?l) 0) with (Done (byte_to_Z b0)). change (sig_byte (b0 :: b1 :: ?l) 1) with (Done (byte_to_Z b1)).
  change (sig_byte (b0 :: b1 :: b2 :: ?l) 2) with (Done (byte_to_Z b2)). change (sig_byte (b0 :: b1 :: b2 :: b3 :: ?l) 3) with (Done (byte_to_Z b3)). cbn [obind].
  destruct (Z.eqb_spec (byte_to_Z b0) 0x30) as [E0|]; cbn [negb]; [|done]. destruct (Z.eqb_spec (byte_to_Z b2) 2) as [E2|]; cbn [negb]; [|done].
  destruct (_ || _) eqn:E1; [done|]. apply orb_false_iff in E1 as [_ E1]. apply negb_false_iff, Z.eqb_eq in E1.
  destruct (_ || _) eqn:E3; [done|]. apply orb_false_iff in E3 as [E3 E3']. apply Z.ltb_ge in E3, E3'.
  assert (Hrest : length rest = Z.to_nat (byte_to_Z b1 - 2)) by (unfold blen in E1; cbn [length] in E1; lia).
  set (rb := take (Z.to_nat (byte_to_Z b3)) rest). assert (Hrb : blen rb = byte_to_Z b3) by (unfold rb, blen; rewrite length_take; lia).
  destruct (drop (Z.to_nat (byte_to_Z b3)) rest) as [|tag [|sl sb]] eqn:Ed;
    [apply (f_equal length) in Ed; rewrite length_drop in Ed; cbn [length] in Ed; lia..|].
  assert (Er : rest = rb ++ tag :: sl :: sb) by (unfold rb; by rewrite <- Ed, take_drop).
  rewrite (sig_byte_eq _ _ (b0 :: b1 :: b2 :: b3 :: rb) (sl :: sb) tag), (sig_byte_eq _ _ ((b0 :: b1 :: b2 :: b3 :: rb) ++ [tag]) sb sl);
    try (rewrite Er; by rewrite <- ?app_assoc); try (rewrite ?length_app; unfold blen in Hrb; cbn [length]; lia).
  cbn [obind]. destruct (Z.eqb_spec (byte_to_Z tag) 2) as [Et|]; cbn [negb]; [|done].
  destruct (_ || _) eqn:Es; [done|]. apply orb_false_iff in Es as [Es Es']. apply Z.ltb_ge in Es. apply negb_false_iff, Z.eqb_eq in Es'. intros _.
  assert (Hsb : blen sb = byte_to_Z sl).
  { apply (f_equal length) in Er. rewrite length_app in Er. cbn [length] in Er. unfold blen in *. lia. }
  pose proof (Byte.byte.unsigned_range b1). exists rb, sb. split; [split_and!; lia|].
  unfold der. rewrite Hrb, Hsb, Er. replace (4 + byte_to_Z b3 + byte_to_Z sl) with (byte_to_Z b1) by lia. rewrite <- E0, <- E2 at 1. rewrite <- Et at 1. by rewrite !byte_of_to.
Qed.

Lemma unpack_trimmed rb sb : der_ok rb sb -> dsa_sig_unpack (der rb sb) (blen (der rb sb)) =
  if (be_val rb =? 0) || (W <=? be_val rb) then Done None
  else if be_val sb =? 0 then Crash OutOfBounds
  else if W <=? be_val sb then Done None
  else Done (Some (p256_from_bin (replicate (P256_NBYTES - length (strip rb)) Init.Byte.x00 ++ strip rb),
                   p256_from_bin (replicate (P256_NBYTES - length (strip sb)) Init.Byte.x00 ++ strip sb))).
Proof.
  intros Hok. rewrite unpack_der by done. set (hdr := [byte_of_Z 0x30; byte_of_Z (4 + blen rb + blen sb); byte_of_Z 2; byte_of_Z (blen rb)]).
  change (trim_to_p256_bytes (der rb sb) 4) with (trim_to_p256_bytes (hdr ++ rb ++ ([byte_of_Z 2; byte_of_Z (blen sb)] ++ sb)) (length hdr)).
  rewrite trim_ok. destruct (be_val rb =? 0); [done|]. cbn [orb].
  destruct (Z.ltb_spec (be_val rb) W), (Z.leb_spec W (be_val rb)); try lia; [|done]. cbn [obind].
  assert (Ed : der rb sb = (hdr ++ rb ++ [byte_of_Z 2; byte_of_Z (blen sb)]) ++ sb ++ []) by (unfold der; fold hdr; by rewrite app_nil_r, <- !app_assoc).
  replace (6 + length rb)%nat with (length (hdr ++ rb ++ [byte_of_Z 2; byte_of_Z (blen sb)])) by (rewrite !length_app; cbn; lia).
  rewrite Ed, trim_ok. destruct (be_val sb =? 0); [done|].
  destruct (Z.ltb_spec (be_val sb) W), (Z.leb_spec W (be_val sb)); try lia; done.
Qed.

Lemma padded_ok bs : be_val bs < W ->
  let r := p256_from_bin (replicate (P256_NBYTES - length (strip bs)) Init.Byte.x00 ++ strip bs) in num r /\ val r = be_val bs.
Proof.
  intros Hw. apply strip_short in Hw. cbv zeta. rewrite <- (be_val_strip bs), <- (be_val_zeros (P256_NBYTES - length (strip bs))).
  apply p256_from_bin_ok. rewrite length_app, length_replicate. lia.
Qed.

(** C19. [dsa_sig_unpack] accepts exactly the encodings of two positive numbers
    below 2^256, with any number of leading zeros, and returns these numbers. *)
Theorem dsa_sig_unpack_correct sig r s :
  dsa_sig_unpack sig (blen sig) = Done (Some (r, s)) <->
  exists rb sb, sig = der rb sb /\ der_ok rb sb /\ 0 < be_val rb < W /\ 0 < be_val sb < W /\
    num r /\ val r = be_val rb /\ num s /\ val s = be_val sb.
Proof.
  split.
  - intros H. destruct (unpack_inv sig) as (rb & sb & Hok & ->); [by rewrite H|]. rewrite unpack_trimmed in H by done.
    pose proof (be_val_bound rb). pose proof (be_val_bound sb).
    destruct (Z.eqb_spec (be_val rb) 0), (Z.leb_spec W (be_val rb)), (Z.eqb_spec (be_val sb) 0), (Z.leb_spec W (be_val sb)); try done. injection H as <- <-.
    destruct (padded_ok rb ltac:(lia)), (padded_ok sb ltac:(lia)). exists rb, sb. split_and!; (done || lia).
  - intros (rb & sb & -> & Hok & Hr & Hs & Nr & Vr & Ns & Vs). rewrite unpack_trimmed by done. zdec. cbn [orb].
    destruct (padded_ok rb ltac:(lia)), (padded_ok sb ltac:(lia)). do 3 f_equal; apply num_inj; (done || congruence).
Qed.

(** C20. On an array of exactly [sig_len] bytes the only fault of
    [dsa_sig_unpack] is a read one byte behind the end, and it happens exactly
    if the second number is all zeros and the first would be accepted. *)
Theorem dsa_sig_unpack_overread sig f :
  dsa_sig_unpack sig (blen sig) = Crash f <->
  f = OutOfBounds /\ exists rb sb, sig = der rb sb /\ der_ok rb sb /\ 0 < be_val rb < W /\ be_val sb = 0.
Proof.
  split.
  - intros H. destruct (unpack_inv sig) as (rb & sb & Hok & ->); [by rewrite H|]. rewrite unpack_trimmed in H by done. pose proof (be_val_bound rb).
    destruct (Z.eqb_spec (be_val rb) 0), (Z.leb_spec W (be_val rb)), (Z.eqb_spec (be_val sb) 0), (Z.leb_spec W (be_val sb)); try done; try lia.
    injection H as <-. split; [done|]. exists rb, sb. split_and!; (done || lia).
  - intros (-> & rb & sb & -> & Hok & Hr & Hs). rewrite unpack_trimmed by done. by zdec.
Qed.
