(* ===== verification/P256Field.v ===== *)
(** * P-256 field elements (libmincrypt p256_ec.c)

    A field element is an array of nine 32-bit limbs, alternately 29 and 28
    bits wide, in Montgomery form with R = 2^257.  Limbs are [u32]; every
    addition and subtraction wraps.  The loops of the source advance by two
    limbs; here they recurse over the array with the width of the next limb. *)
From S2P Require Import Prelude P256.

Abbreviation felem := (list Z).

Definition NLIMBS : nat := 9.
Definition kBottom28Bits : Z := 0xfffffff.
Definition kBottom29Bits : Z := 0x1fffffff.

Definition kOne : felem := [2; 0; 0; 0xffff800; 0x1fffffff; 0xfffffff; 0x1fbfffff; 0x1ffffff; 0].
Definition kZero : felem := replicate NLIMBS 0.
Definition kP : felem := [0x1fffffff; 0xfffffff; 0x1fffffff; 0x3ff; 0; 0; 0x200000; 0xf000000; 0xfffffff].
Definition k2P : felem := [0x1ffffffe; 0xfffffff; 0x1fffffff; 0x7ff; 0; 0; 0x400000; 0xe000000; 0x1fffffff].

Definition NON_ZERO_TO_ALL_ONES (x : Z) : Z := u32 (Z.shiftr (u32 (u32 x - 1)) 31 - 1).

(** [a[i] += v] and [a[i] -= v]. *)
Definition plus_at (i : nat) (v : Z) (a : list Z) : list Z := alter (fun x => u32 (x + v)) i a.
Definition minus_at (i : nat) (v : Z) (a : list Z) : list Z := alter (fun x => u32 (x - v)) i a.

(** The width of a limb and its mask: [true] for the limbs 0, 2, .... *)
Definition width (w29 : bool) : Z := if w29 then 29 else 28.
Definition bottom (w29 : bool) : Z := if w29 then kBottom29Bits else kBottom28Bits.

(** ** Carries *)

Definition felem_reduce_carry (inout : felem) (carry : Z) : felem :=
  let carry_mask := NON_ZERO_TO_ALL_ONES carry in
  let inout := plus_at 0 (u32 (Z.shiftl carry 1)) inout in
  let inout := plus_at 3 (Z.land 0x10000000 carry_mask) inout in
  let inout := minus_at 3 (u32 (Z.shiftl carry 11)) inout in
  let inout := plus_at 4 (Z.land (0x20000000 - 1) carry_mask) inout in
  let inout := plus_at 5 (Z.land (0x10000000 - 1) carry_mask) inout in
  let inout := plus_at 6 (Z.land (0x20000000 - 1) carry_mask) inout in
  let inout := minus_at 6 (u32 (Z.shiftl carry 22)) inout in
  let inout := minus_at 7 (Z.land 1 carry_mask) inout in
  plus_at 7 (u32 (Z.shiftl carry 25)) inout.

(** [out[i] += carry; carry = out[i] >> w; out[i] &= kBottom]. *)
Fixpoint carry_pass (w29 : bool) (carry : Z) (out : list Z) : list Z * Z :=
  match out with
  | [] => ([], carry)
  | x :: out =>
      let x := u32 (x + carry) in
      let '(out, c) := carry_pass (negb w29) (Z.shiftr x (width w29)) out in
      (Z.land x (bottom w29) :: out, c)
  end.

Definition carry_and_reduce (out : list Z) : felem :=
  let '(out, carry) := carry_pass true 0 out in felem_reduce_carry out carry.

Definition felem_sum (inp in2 : felem) : felem := carry_and_reduce (zip_with (fun x y => u32 (x + y)) inp in2).

Definition two31m3 : Z := 2 ^ 31 - 2 ^ 3.
Definition two30m2 : Z := 2 ^ 30 - 2 ^ 2.
Definition two30p13m2 : Z := 2 ^ 30 + 2 ^ 13 - 2 ^ 2.
Definition two31m2 : Z := 2 ^ 31 - 2 ^ 2.
Definition two31p24m2 : Z := 2 ^ 31 + 2 ^ 24 - 2 ^ 2.
Definition two30m27m2 : Z := 2 ^ 30 - 2 ^ 27 - 2 ^ 2.

Definition zero31 : felem := [two31m3; two30m2; two31m2; two30p13m2; two31m2; two30m2; two31p24m2; two30m27m2; two31m2].

Definition felem_diff (inp in2 : felem) : felem :=
  carry_and_reduce (zip_with (fun d z => u32 (d + z)) (zip_with (fun x y => u32 (x - y)) inp in2) zero31).

Definition felem_scalar_3 (out : felem) : felem := carry_and_reduce ((fun x => u32 (x * 3)) <$> out).

(** [next_carry = out[i] >> (w - k); out[i] <<= k; ...] of [felem_scalar_4]
    and [felem_scalar_8]. *)
Fixpoint scale_pass (k : Z) (w29 : bool) (carry : Z) (out : list Z) : list Z * Z :=
  match out with
  | [] => ([], carry)
  | x :: out =>
      let next_carry := Z.shiftr x (width w29 - k) in
      let x := Z.land (u32 (Z.shiftl x k)) (bottom w29) in
      let x := u32 (x + carry) in
      let carry := u32 (next_carry + Z.shiftr x (width w29)) in
      let '(out, c) := scale_pass k (negb w29) carry out in
      (Z.land x (bottom w29) :: out, c)
  end.

Definition felem_scalar_4 (out : felem) : felem := let '(out, carry) := scale_pass 2 true 0 out in felem_reduce_carry out carry.
Definition felem_scalar_8 (out : felem) : felem := let '(out, carry) := scale_pass 3 true 0 out in felem_reduce_carry out carry.

(** ** Multiplication *)

(** [(limb) x] and [(limb) (x >> 32)]. *)
Definition lo32 (x : Z) : Z := u32 x.
Definition hi32 (x : Z) : Z := u32 (Z.shiftr x 32).

(** [for (i = 2; i < 17; i++)]: the words from [tmp[i - 2]] on; behind the
    loop [tmp2[17]]. *)
Fixpoint spread_loop (w29 : bool) (carry : Z) (tmp : list Z) : list Z :=
  match tmp with
  | t2 :: (t1 :: (t :: _ as tmp'')) as tmp' =>
      let x := Z.shiftr (hi32 t2) 25 in
      let x := u32 (x + Z.shiftr (lo32 t1) (width (negb w29))) in
      let x := u32 (x + Z.land (u32 (Z.shiftl (hi32 t1) (32 - width (negb w29)))) (bottom w29)) in
      let x := u32 (x + Z.land (lo32 t) (bottom w29)) in
      let x := u32 (x + carry) in
      Z.land x (bottom w29) :: spread_loop (negb w29) (Z.shiftr x (width w29)) tmp'
  | [t15; t16] =>
      let x := Z.shiftr (hi32 t15) 25 in
      let x := u32 (x + Z.shiftr (lo32 t16) 29) in
      let x := u32 (x + u32 (Z.shiftl (hi32 t16) 3)) in
      [u32 (x + carry)]
  | _ => []
  end.

Definition spread (tmp : list Z) : list Z :=
  match tmp with
  | t0 :: t1 :: _ =>
      let x := Z.shiftr (lo32 t0) 29 in
      let x := Z.lor x (Z.land (u32 (Z.shiftl (hi32 t0) 3)) kBottom28Bits) in
      let x := u32 (x + Z.land (lo32 t1) kBottom28Bits) in
      lo32 (Z.land t0 kBottom29Bits) :: Z.land x kBottom28Bits :: spread_loop true (Z.shiftr x 28) tmp
  | _ => []
  end.

(** The two halves of the elimination, on the array [tmp2 + i] and on the
    array [tmp2 + i + 1]; the word that becomes zero is dropped. *)
Definition top_half (w : list Z) : list Z :=
  let w0 := nth 0 w 0 in
  let w := plus_at 1 (Z.shiftr w0 29) w in
  let x := Z.land w0 kBottom29Bits in
  let xMask := NON_ZERO_TO_ALL_ONES x in
  let w := plus_at 3 (Z.land (u32 (Z.shiftl x 10)) kBottom28Bits) w in
  let w := plus_at 4 (Z.shiftr x 18) w in
  let w := plus_at 6 (Z.land (u32 (Z.shiftl x 21)) kBottom29Bits) w in
  let w := plus_at 7 (Z.shiftr x 8) w in
  let w := plus_at 7 (Z.land 0x10000000 xMask) w in
  let w := plus_at 8 (Z.land (u32 (x - 1)) xMask) w in
  let w := minus_at 7 (Z.land (u32 (Z.shiftl x 24)) kBottom28Bits) w in
  let w := minus_at 8 (Z.shiftr x 4) w in
  let w := plus_at 8 (Z.land 0x20000000 xMask) w in
  let w := minus_at 8 x w in
  let w := plus_at 8 (Z.land (u32 (Z.shiftl x 28)) kBottom29Bits) w in
  let w := plus_at 9 (Z.land (u32 (Z.shiftr x 1 - 1)) xMask) w in
  tail w.

Definition bottom_half (w : list Z) : list Z :=
  let w0 := nth 0 w 0 in
  let w := plus_at 1 (Z.shiftr w0 28) w in
  let x := Z.land w0 kBottom28Bits in
  let xMask := NON_ZERO_TO_ALL_ONES x in
  let w := plus_at 3 (Z.land (u32 (Z.shiftl x 11)) kBottom29Bits) w in
  let w := plus_at 4 (Z.shiftr x 18) w in
  let w := plus_at 6 (Z.land (u32 (Z.shiftl x 21)) kBottom28Bits) w in
  let w := plus_at 7 (Z.shiftr x 7) w in
  let w := plus_at 7 (Z.land 0x20000000 xMask) w in
  let w := plus_at 8 (Z.land (u32 (x - 1)) xMask) w in
  let w := minus_at 7 (Z.land (u32 (Z.shiftl x 25)) kBottom29Bits) w in
  let w := minus_at 8 (Z.shiftr x 4) w in
  let w := plus_at 8 (Z.land 0x10000000 xMask) w in
  let w := minus_at 8 x w in
  let w := plus_at 9 (Z.land (u32 (x - 1)) xMask) w in
  tail w.

(** [for (i = 0;; i += 2)] with [n] full turns before the break. *)
Fixpoint eliminate (n : nat) (w : list Z) : list Z :=
  match n with
  | O => top_half w
  | S n => eliminate n (bottom_half (top_half w))
  end.

(** The right shift merged with a carry chain: [w] is [tmp2 + i + 9]. *)
Fixpoint shift_pass (carry : Z) (w : list Z) : list Z * Z :=
  match w with
  | x :: y :: w =>
      let o := u32 (u32 (x + carry) + Z.land (u32 (Z.shiftl y 28)) kBottom29Bits) in
      let o' := u32 (Z.shiftr y 1 + Z.shiftr o 29) in
      let '(out, c) := shift_pass (Z.shiftr o' 28) w in
      (Z.land o kBottom29Bits :: Z.land o' kBottom28Bits :: out, c)
  | [x] => let o := u32 (x + carry) in ([Z.land o kBottom29Bits], Z.shiftr o 29)
  | [] => ([], carry)
  end.

Definition felem_reduce_degree (tmp : list Z) : felem :=
  let tmp2 := spread tmp in
  let '(out, carry) := shift_pass 0 (eliminate 4 tmp2) in
  felem_reduce_carry out carry.

(** [((u64) in[i]) * (in2[j] << s)] for the terms [(i, j, s)] of a line of the
    source, added up. *)
Definition limb (a : felem) (i : nat) : Z := nth i a 0.
Definition u64_sum (inp in2 : felem) (terms : list (nat * nat * Z)) : Z :=
  foldl (fun acc '(i, j, s) => u64 (acc + u64 (limb inp i * u32 (Z.shiftl (limb in2 j) s)))) 0 terms.

Definition square_terms : list (list (nat * nat * Z)) := [
  [(0%nat, 0%nat, 0)];
  [(0%nat, 1%nat, 1)];
  [(0%nat, 2%nat, 1); (1%nat, 1%nat, 1)];
  [(0%nat, 3%nat, 1); (1%nat, 2%nat, 1)];
  [(0%nat, 4%nat, 1); (1%nat, 3%nat, 2); (2%nat, 2%nat, 0)];
  [(0%nat, 5%nat, 1); (1%nat, 4%nat, 1); (2%nat, 3%nat, 1)];
  [(0%nat, 6%nat, 1); (1%nat, 5%nat, 2); (2%nat, 4%nat, 1); (3%nat, 3%nat, 1)];
  [(0%nat, 7%nat, 1); (1%nat, 6%nat, 1); (2%nat, 5%nat, 1); (3%nat, 4%nat, 1)];
  [(0%nat, 8%nat, 1); (1%nat, 7%nat, 2); (2%nat, 6%nat, 1); (3%nat, 5%nat, 2); (4%nat, 4%nat, 0)];
  [(1%nat, 8%nat, 1); (2%nat, 7%nat, 1); (3%nat, 6%nat, 1); (4%nat, 5%nat, 1)];
  [(2%nat, 8%nat, 1); (3%nat, 7%nat, 2); (4%nat, 6%nat, 1); (5%nat, 5%nat, 1)];
  [(3%nat, 8%nat, 1); (4%nat, 7%nat, 1); (5%nat, 6%nat, 1)];
  [(4%nat, 8%nat, 1); (5%nat, 7%nat, 2); (6%nat, 6%nat, 0)];
  [(5%nat, 8%nat, 1); (6%nat, 7%nat, 1)];
  [(6%nat, 8%nat, 1); (7%nat, 7%nat, 1)];
  [(7%nat, 8%nat, 1)];
  [(8%nat, 8%nat, 0)]].

Definition mul_terms : list (list (nat * nat * Z)) := [
  [(0%nat, 0%nat, 0)];
  [(0%nat, 1%nat, 0); (1%nat, 0%nat, 0)];
  [(0%nat, 2%nat, 0); (1%nat, 1%nat, 1); (2%nat, 0%nat, 0)];
  [(0%nat, 3%nat, 0); (1%nat, 2%nat, 0); (2%nat, 1%nat, 0); (3%nat, 0%nat, 0)];
  [(0%nat, 4%nat, 0); (1%nat, 3%nat, 1); (2%nat, 2%nat, 0); (3%nat, 1%nat, 1); (4%nat, 0%nat, 0)];
  [(0%nat, 5%nat, 0); (1%nat, 4%nat, 0); (2%nat, 3%nat, 0); (3%nat, 2%nat, 0); (4%nat, 1%nat, 0); (5%nat, 0%nat, 0)];
  [(0%nat, 6%nat, 0); (1%nat, 5%nat, 1); (2%nat, 4%nat, 0); (3%nat, 3%nat, 1); (4%nat, 2%nat, 0); (5%nat, 1%nat, 1); (6%nat, 0%nat, 0)];
  [(0%nat, 7%nat, 0); (1%nat, 6%nat, 0); (2%nat, 5%nat, 0); (3%nat, 4%nat, 0); (4%nat, 3%nat, 0); (5%nat, 2%nat, 0); (6%nat, 1%nat, 0); (7%nat, 0%nat, 0)];
  [(0%nat, 8%nat, 0); (1%nat, 7%nat, 1); (2%nat, 6%nat, 0); (3%nat, 5%nat, 1); (4%nat, 4%nat, 0); (5%nat, 3%nat, 1); (6%nat, 2%nat, 0); (7%nat, 1%nat, 1); (8%nat, 0%nat, 0)];
  [(1%nat, 8%nat, 0); (2%nat, 7%nat, 0); (3%nat, 6%nat, 0); (4%nat, 5%nat, 0); (5%nat, 4%nat, 0); (6%nat, 3%nat, 0); (7%nat, 2%nat, 0); (8%nat, 1%nat, 0)];
  [(2%nat, 8%nat, 0); (3%nat, 7%nat, 1); (4%nat, 6%nat, 0); (5%nat, 5%nat, 1); (6%nat, 4%nat, 0); (7%nat, 3%nat, 1); (8%nat, 2%nat, 0)];
  [(3%nat, 8%nat, 0); (4%nat, 7%nat, 0); (5%nat, 6%nat, 0); (6%nat, 5%nat, 0); (7%nat, 4%nat, 0); (8%nat, 3%nat, 0)];
  [(4%nat, 8%nat, 0); (5%nat, 7%nat, 1); (6%nat, 6%nat, 0); (7%nat, 5%nat, 1); (8%nat, 4%nat, 0)];
  [(5%nat, 8%nat, 0); (6%nat, 7%nat, 0); (7%nat, 6%nat, 0); (8%nat, 5%nat, 0)];
  [(6%nat, 8%nat, 0); (7%nat, 7%nat, 1); (8%nat, 6%nat, 0)];
  [(7%nat, 8%nat, 0); (8%nat, 7%nat, 0)];
  [(8%nat, 8%nat, 0)]].

Definition felem_square (inp : felem) : felem := felem_reduce_degree (u64_sum inp inp <$> square_terms).
Definition felem_mul (inp in2 : felem) : felem := felem_reduce_degree (u64_sum inp in2 <$> mul_terms).

(** [n] squarings. *)
Definition felem_squares (n : nat) (a : felem) : felem := Nat.iter n felem_square a.

Definition felem_inv (inp : felem) : felem :=
  let ftmp := felem_mul inp (felem_square inp) in
  let e2 := ftmp in
  let ftmp := felem_mul (felem_squares 2 ftmp) e2 in
  let e4 := ftmp in
  let ftmp := felem_mul (felem_squares 4 ftmp) e4 in
  let e8 := ftmp in
  let ftmp := felem_mul (felem_squares 8 ftmp) e8 in
  let e16 := ftmp in
  let ftmp := felem_mul (felem_squares 16 ftmp) e16 in
  let e32 := ftmp in
  let ftmp := felem_squares 32 ftmp in
  let e64 := ftmp in
  let ftmp := felem_mul ftmp inp in
  let ftmp := felem_squares 192 ftmp in
  let ftmp2 := felem_mul e64 e32 in
  let ftmp2 := felem_mul (felem_squares 16 ftmp2) e16 in
  let ftmp2 := felem_mul (felem_squares 8 ftmp2) e8 in
  let ftmp2 := felem_mul (felem_squares 4 ftmp2) e4 in
  let ftmp2 := felem_mul (felem_squares 2 ftmp2) e2 in
  let ftmp2 := felem_mul (felem_squares 2 ftmp2) inp in
  felem_mul ftmp2 ftmp.

(** ** Zero *)

(** [do ... while (carry)]. *)
Fixpoint minimal_loop (fuel : nat) (tmp : felem) : outcome felem :=
  match fuel with
  | O => Crash OutOfFuel
  | S fuel =>
      let '(tmp, carry) := carry_pass true 0 tmp in
      let tmp := felem_reduce_carry tmp carry in
      if carry =? 0 then Done tmp else minimal_loop fuel tmp
  end.

Definition felem_is_zero_vartime (fuel : nat) (inp : felem) : outcome bool :=
  let! tmp := minimal_loop fuel inp in
  Done (bool_decide (tmp = kZero) || bool_decide (tmp = kP) || bool_decide (tmp = k2P)).

(** ** Montgomery form *)

Definition kR : p256_int := [2; 0; 0; 0xfffffffe; 0xffffffff; 0xffffffff; 0xfffffffd; 1].
Definition kRInv : p256_int := [0x80000000; 1; 0xffffffff; 0; 0x80000001; 0xfffffffe; 1; 0x7fffffff].

(** [for (i = 0; i < NLIMBS; i++)], [n] limbs left. *)
Fixpoint split_limbs (n : nat) (w29 : bool) (in_shifted : p256_int) : outcome felem :=
  match n with
  | O => Done []
  | S n =>
      let out := Z.land (P256_DIGIT in_shifted 0) (bottom w29) in
      let! in_shifted := p256_shr in_shifted (width w29) in
      let! rest := split_limbs n (negb w29) in_shifted in
      Done (out :: rest)
  end.

Definition to_montgomery (inp : p256_int) : outcome felem :=
  let! in_shifted := p256_modmul SECP256r1_p inp 0 kR in
  split_limbs NLIMBS true in_shifted.

(** [for (i = NLIMBS - 2; i >= 0; i--)] over the limbs from [in[i]] down: the
    bits shifted out and the digits. *)
Fixpoint join_limbs (w29 : bool) (top : Z) (result : p256_int) (limbs : list Z) : outcome (Z * p256_int) :=
  match limbs with
  | [] => Done (top, result)
  | x :: limbs =>
      let! r := p256_shl result (width w29) in
      let '(top, tmp) := r in
      let '(carry, result) := p256_add_d tmp x in
      join_limbs (negb w29) (s32 (Z.lor (u32 top) (u32 carry))) result limbs
  end.

Definition from_montgomery (inp : felem) : outcome p256_int :=
  let result := (p256_add_d p256_init (limb inp (NLIMBS - 1))).2 in
  let! r := join_limbs false 0 result (tail (rev inp)) in
  p256_modmul SECP256r1_p kRInv (u32 r.1) r.2.
