(* ===== verification/P256FieldCorrect.v ===== *)
(** * P-256 field elements: sums, differences, products and zero are correct *)
From Stdlib Require Import Znumtheory.
From S2P Require Import Prelude Words P256 P256Correct P256Euclid P256Field.

(** ** The value of a limb array *)

Fixpoint fval (w29 : bool) (l : list Z) : Z :=
  match l with [] => 0 | x :: l => x + 2 ^ width w29 * fval (negb w29) l end.

(** Limbs of at most [e] bits more than their width. *)
Fixpoint below (e : Z) (w29 : bool) (l : list Z) : Prop :=
  match l with [] => True | x :: l => 0 <= x < 2 ^ (width w29 + e) /\ below e (negb w29) l end.

Fixpoint span (w29 : bool) (n : nat) : Z :=
  match n with O => 0 | S n => width w29 + span (negb w29) n end.

(** What every operation expects and delivers: even limbs below 2^30, odd
    limbs below 2^29, and the last limb below 2^29. *)
Definition felem_ok (a : felem) : Prop := length a = NLIMBS /\ below 1 true a /\ limb a 8 < 2 ^ 29.

Definition tight (a : felem) : Prop := length a = NLIMBS /\ below 0 true a.

Lemma width_pos w29 : 28 <= width w29 <= 29.
Proof. destruct w29; cbn; lia. Qed.

Lemma land_bottom w29 x : Z.land x (bottom w29) = x mod 2 ^ width w29.
Proof. destruct w29; [change (bottom true) with (Z.ones 29)|change (bottom false) with (Z.ones 28)]; apply Z.land_ones; cbn; lia. Qed.

Lemma span_nonneg n : forall w29, 0 <= span w29 n.
Proof. induction n as [|n IH]; intros w29; cbn [span]; [lia|]. pose proof (width_pos w29). specialize (IH (negb w29)). lia. Qed.

Lemma shiftr_carry x w29 : 0 <= x < 2 ^ 32 -> 0 <= Z.shiftr x (width w29) < 16.
Proof.
  intros Hx. pose proof (width_pos w29). rewrite Z.shiftr_div_pow2 by lia. pose proof (Z.pow_le_mono_r 2 28 (width w29) ltac:(lia) ltac:(lia)).
  split; [apply Z.div_pos; lia|]. apply Z.div_lt_upper_bound; lia.
Qed.

Lemma carry_pass_ok l : forall w29 carry o c, Forall (fun x => 0 <= x < 2 ^ 32 - 16) l -> 0 <= carry < 16 -> carry_pass w29 carry l = (o, c) ->
  length o = length l /\ below 0 w29 o /\ 0 <= c < 16 /\ fval w29 o + 2 ^ span w29 (length l) * c = carry + fval w29 l.
Proof.
  induction l as [|x l IH]; intros w29 carry o c Hl Hc; cbn [carry_pass].
  { intros [= <- <-]. split_and!; [done..|lia|lia|]. cbn [fval length span]. lia. }
  apply Forall_cons_1 in Hl as [Hx Hl]. rewrite (u32_small (x + carry)) by (unfold is_u32; lia).
  destruct (carry_pass (negb w29) _ l) as [o' c'] eqn:E. intros [= <- <-].
  destruct (IH _ _ _ _ Hl (shiftr_carry (x + carry) w29 ltac:(lia)) E) as (Hlen & Hb & Hc' & Hv). rewrite land_bottom.
  pose proof (width_pos w29). pose proof (Z.mod_pos_bound (x + carry) (2 ^ width w29) ltac:(lia)).
  split_and!; [cbn; lia|split; [by rewrite Z.add_0_r|done]|lia|lia|]. cbn [fval length span]. pose proof (span_nonneg (length l) (negb w29)).
  rewrite Z.pow_add_r by lia. pose proof (Z.div_mod (x + carry) (2 ^ width w29) ltac:(lia)) as Hd. rewrite Z.shiftr_div_pow2 in Hv by lia. nia.
Qed.

(** ** Carries out of 257 bits *)

Lemma mask_nonzero x : 0 < x <= 2 ^ 31 -> NON_ZERO_TO_ALL_ONES x = u32 (-1).
Proof.
  intros H. unfold NON_ZERO_TO_ALL_ONES. rewrite (u32_small x), (u32_small (x - 1)) by (unfold is_u32; lia).
  assert (Z.shiftr (x - 1) 31 = 0) as -> by (rewrite Z.shiftr_div_pow2 by lia; apply Z.div_small; lia). done.
Qed.

Lemma u32_add_l a b : u32 (u32 a + b) = u32 (a + b).
Proof. apply Zplus_mod_idemp_l. Qed.
Lemma u32_sub_l a b : u32 (u32 a - b) = u32 (a - b).
Proof. apply Zminus_mod_idemp_l. Qed.

Ltac nine l Hl :=
  unfold NLIMBS in Hl; destruct l as [|x0 [|x1 [|x2 [|x3 [|x4 [|x5 [|x6 [|x7 [|x8 [|? ?]]]]]]]]]]; try discriminate Hl.

Definition prime_p : Z := val SECP256r1_p.

Lemma felem_reduce_carry_ok o c : tight o -> 0 <= c <= 8 ->
  felem_ok (felem_reduce_carry o c) /\ cong prime_p (fval true (felem_reduce_carry o c)) (fval true o + 2 ^ 257 * c).
Proof.
  intros [Hl Hb] Hc. nine o Hl. cbn [below width negb] in Hb. rewrite !Z.add_0_r in Hb. unfold felem_ok, NLIMBS.
  destruct (Z.eq_dec c 0) as [->|Hn].
  { unfold felem_reduce_carry, plus_at, minus_at. change (NON_ZERO_TO_ALL_ONES 0) with 0. rewrite !Z.land_0_r, !Z.shiftl_0_l. change (u32 0) with 0.
    cbn [alter list_alter]. rewrite !Z.add_0_r, !Z.sub_0_r. rewrite !u32_small by (unfold is_u32; rewrite ?u32_small; unfold is_u32; lia).
    split; [|exists 0; lia]. cbn [below width negb limb nth]. change (29 + 1) with 30. change (28 + 1) with 29. split_and!; lia || done. }
  unfold felem_reduce_carry, plus_at, minus_at. rewrite mask_nonzero by lia. rewrite !Z.shiftl_mul_pow2 by lia.
  rewrite (u32_small (c * 2 ^ 1)), (u32_small (c * 2 ^ 11)), (u32_small (c * 2 ^ 22)), (u32_small (c * 2 ^ 25)) by (unfold is_u32; lia).
  change (Z.land 0x10000000 (u32 (-1))) with (2 ^ 28). change (Z.land (0x20000000 - 1) (u32 (-1))) with (2 ^ 29 - 1).
  change (Z.land (0x10000000 - 1) (u32 (-1))) with (2 ^ 28 - 1). change (Z.land 1 (u32 (-1))) with 1. cbn [alter list_alter].
  rewrite !u32_add_l, !u32_sub_l. rewrite !u32_small by (unfold is_u32; lia).
  split; [cbn [below width negb limb nth]; change (29 + 1) with 30; change (28 + 1) with 29; split_and!; lia || done|].
  cbn [fval width negb]. exists (- 2 * c). change prime_p with (2 ^ 256 - 2 ^ 224 + 2 ^ 192 + 2 ^ 96 - 1). lia.
Qed.

Lemma tight_bound a : tight a -> 0 <= fval true a < 2 ^ 257.
Proof. intros (Hl & Hb). nine a Hl. cbn [below width negb fval] in *. rewrite !Z.add_0_r in Hb. lia. Qed.

Lemma reduce_carry_0 o : tight o -> felem_reduce_carry o 0 = o.
Proof.
  intros [Hl Hb]. nine o Hl. cbn [below width negb] in Hb. rewrite !Z.add_0_r in Hb. unfold felem_reduce_carry, plus_at, minus_at.
  change (NON_ZERO_TO_ALL_ONES 0) with 0. rewrite !Z.land_0_r, !Z.shiftl_0_l. change (u32 0) with 0. cbn [alter list_alter].
  rewrite !Z.add_0_r, !Z.sub_0_r. by rewrite !u32_small by (unfold is_u32; rewrite ?u32_small; unfold is_u32; lia).
Qed.

Lemma reduce_carry_1 o : tight o -> fval true (felem_reduce_carry o 1) = fval true o + 2 ^ 257 - 2 * prime_p.
Proof.
  intros [Hl Hb]. nine o Hl. cbn [below width negb] in Hb. rewrite !Z.add_0_r in Hb. unfold felem_reduce_carry, plus_at, minus_at.
  rewrite mask_nonzero by lia. change (u32 (Z.shiftl 1 1)) with 2. change (u32 (Z.shiftl 1 11)) with (2 ^ 11). change (u32 (Z.shiftl 1 22)) with (2 ^ 22). change (u32 (Z.shiftl 1 25)) with (2 ^ 25).
  change (Z.land 0x10000000 (u32 (-1))) with (2 ^ 28). change (Z.land (0x20000000 - 1) (u32 (-1))) with (2 ^ 29 - 1).
  change (Z.land (0x10000000 - 1) (u32 (-1))) with (2 ^ 28 - 1). change (Z.land 1 (u32 (-1))) with 1. cbn [alter list_alter].
  rewrite !u32_add_l, !u32_sub_l. rewrite !u32_small by (unfold is_u32; lia). cbn [fval width negb].
  change prime_p with (2 ^ 256 - 2 ^ 224 + 2 ^ 192 + 2 ^ 96 - 1). lia.
Qed.

Lemma tight_carry o : length o = NLIMBS -> below 0 true o -> tight o.
Proof. done. Qed.

(** The sums before the carries are passed on leave a carry of at most 8. *)
Lemma carry_and_reduce_ok l : length l = NLIMBS -> Forall (fun x => 0 <= x < 2 ^ 32 - 16) l -> fval true l < 9 * 2 ^ 257 ->
  felem_ok (carry_and_reduce l) /\ cong prime_p (fval true (carry_and_reduce l)) (fval true l).
Proof.
  intros Hl Hf Hv. unfold carry_and_reduce. destruct (carry_pass true 0 l) as [o c] eqn:E.
  destruct (carry_pass_ok l true 0 o c Hf ltac:(lia) E) as (Hlo & Hb & Hc & Heq). rewrite Hl in *. change (span true NLIMBS) with 257 in Heq.
  assert (0 <= fval true o) by (nine o Hlo; cbn [below width negb fval] in *; lia).
  destruct (felem_reduce_carry_ok o c (conj Hlo Hb) ltac:(lia)) as [H1 H2]. split; [done|]. rewrite H2. exists 0. lia.
Qed.

Ltac limbs_of H := let Hl := fresh "Hl" in let Hb := fresh "Hb" in let H8 := fresh "H8" in destruct H as (Hl & Hb & H8).

Lemma felem_sum_ok a b : felem_ok a -> felem_ok b ->
  felem_ok (felem_sum a b) /\ cong prime_p (fval true (felem_sum a b)) (fval true a + fval true b).
Proof.
  intros (Hla & Hba & H8a) (Hlb & Hbb & H8b). nine a Hla. rename x0 into y0, x1 into y1, x2 into y2, x3 into y3, x4 into y4, x5 into y5, x6 into y6, x7 into y7, x8 into y8.
  nine b Hlb. cbn [below width negb limb nth] in *. change (29 + 1) with 30 in *. change (28 + 1) with 29 in *. unfold felem_sum. cbn [zip_with].
  rewrite !u32_small by (unfold is_u32; lia).
  destruct (carry_and_reduce_ok [y0 + x0; y1 + x1; y2 + x2; y3 + x3; y4 + x4; y5 + x5; y6 + x6; y7 + x7; y8 + x8]) as [H1 H2];
    [done|repeat (constructor; [lia|]); constructor|cbn [fval width negb]; lia|]. split; [done|]. rewrite H2. exists 0. cbn [fval width negb]. lia.
Qed.

Lemma felem_diff_ok a b : felem_ok a -> felem_ok b ->
  felem_ok (felem_diff a b) /\ cong prime_p (fval true (felem_diff a b)) (fval true a - fval true b).
Proof.
  intros (Hla & Hba & H8a) (Hlb & Hbb & H8b). nine a Hla. rename x0 into y0, x1 into y1, x2 into y2, x3 into y3, x4 into y4, x5 into y5, x6 into y6, x7 into y7, x8 into y8.
  nine b Hlb. cbn [below width negb limb nth] in *. change (29 + 1) with 30 in *. change (28 + 1) with 29 in *. unfold felem_diff, zero31. cbn [zip_with].
  unfold two31m3, two30m2, two30p13m2, two31m2, two31p24m2, two30m27m2. rewrite !u32_add_l. rewrite !u32_small by (unfold is_u32; lia).
  match goal with |- context [carry_and_reduce ?l] => destruct (carry_and_reduce_ok l) as [H1 H2];
    [done|repeat (constructor; [lia|]); constructor|cbn [fval width negb]; lia|] end. split; [done|]. rewrite H2.
  exists (fval true zero31 / prime_p). assert (Hz : fval true zero31 = prime_p * (fval true zero31 / prime_p)) by (vm_compute; reflexivity).
  rewrite Z.mul_comm, <- Hz. unfold zero31, two31m3, two30m2, two30p13m2, two31m2, two31p24m2, two30m27m2. cbn [fval width negb]. lia.
Qed.

Lemma felem_scalar_3_ok a : felem_ok a ->
  felem_ok (felem_scalar_3 a) /\ cong prime_p (fval true (felem_scalar_3 a)) (3 * fval true a).
Proof.
  intros (Hla & Hba & H8a). nine a Hla. cbn [below width negb limb nth] in *. change (29 + 1) with 30 in *. change (28 + 1) with 29 in *.
  unfold felem_scalar_3. cbn [fmap list_fmap]. rewrite !u32_small by (unfold is_u32; lia).
  match goal with |- context [carry_and_reduce ?l] => destruct (carry_and_reduce_ok l) as [H1 H2];
    [done|repeat (constructor; [lia|]); constructor|cbn [fval width negb]; lia|] end. split; [done|]. rewrite H2. exists 0. cbn [fval width negb]. lia.
Qed.

(** ** Multiples of 4 and 8 *)

Lemma scale_pass_ok k l : 2 <= k <= 3 -> forall w29 carry o c, below 1 w29 l -> 0 <= carry <= 16 -> scale_pass k w29 carry l = (o, c) ->
  length o = length l /\ below 0 w29 o /\ 0 <= c <= 16 /\ fval w29 o + 2 ^ span w29 (length l) * c = carry + 2 ^ k * fval w29 l.
Proof.
  intros Hk. induction l as [|x l IH]; intros w29 carry o c Hl Hc; cbn [scale_pass].
  { intros [= <- <-]. split_and!; [done..|lia|lia|]. cbn [fval length span]. lia. }
  destruct Hl as [Hx Hl]. pose proof (width_pos w29) as Hw. set (w := width w29) in *.
  assert (Hwk : 2 ^ w = 2 ^ (w - k) * 2 ^ k) by (rewrite <- Z.pow_add_r by lia; f_equal; lia).
  assert (Hland : Z.land (u32 (Z.shiftl x k)) (bottom w29) = 2 ^ k * (x mod 2 ^ (w - k))).
  { rewrite land_bottom. fold w. rewrite Z.shiftl_mul_pow2 by lia. unfold u32. rewrite <- Znumtheory.Zmod_div_mod; [|lia..|exists (2 ^ (32 - w)); rewrite <- Z.pow_add_r by lia; f_equal; lia].
    rewrite Hwk, (Z.mul_comm x), (Z.mul_comm (2 ^ (w - k))). apply Zmult_mod_distr_l. }
  rewrite Hland, (Z.shiftr_div_pow2 x) by lia. pose proof (Z.mod_pos_bound x (2 ^ (w - k)) ltac:(lia)) as Hm.
  pose proof (Z.div_mod x (2 ^ (w - k)) ltac:(lia)) as Hd.
  assert (Hq : 0 <= x / 2 ^ (w - k) <= 15).
  { split; [apply Z.div_pos; lia|]. apply Z.lt_succ_r. apply Z.div_lt_upper_bound; [lia|]. rewrite Z.pow_add_r in Hx by lia.
    pose proof (Z.pow_le_mono_r 2 k 3 ltac:(lia) ltac:(lia)). change (Z.succ 15) with (2 ^ 3 * 2 ^ 1). nia. }
  assert (H29 : 2 ^ 28 <= 2 ^ w <= 2 ^ 29) by (split; apply Z.pow_le_mono_r; lia).
  assert (H2k : 4 <= 2 ^ k <= 8) by (change 4 with (2 ^ 2); change 8 with (2 ^ 3); split; apply Z.pow_le_mono_r; lia).
  assert (Hsum : 0 <= 2 ^ k * (x mod 2 ^ (w - k)) + carry <= 2 ^ w + 12) by nia.
  rewrite (u32_small (_ + carry)) by (unfold is_u32; lia). set (s := 2 ^ k * (x mod 2 ^ (w - k)) + carry) in *.
  rewrite (Z.shiftr_div_pow2 s) by lia. assert (Hs1 : 0 <= s / 2 ^ w <= 1) by (split; [apply Z.div_pos; lia|apply Z.lt_succ_r, Z.div_lt_upper_bound; lia]).
  rewrite (u32_small (_ + s / 2 ^ w)) by (unfold is_u32; lia).
  destruct (scale_pass k (negb w29) _ l) as [o' c'] eqn:E. intros [= <- <-].
  assert (Hcar : 0 <= x / 2 ^ (w - k) + s / 2 ^ w <= 16) by lia. destruct (IH _ _ _ _ Hl Hcar E) as (Hlen & Hb & Hc' & Hv). rewrite land_bottom. fold w. pose proof (Z.mod_pos_bound s (2 ^ w) ltac:(lia)).
  split_and!; [cbn; lia|split; [fold w; by rewrite Z.add_0_r|done]|lia|lia|]. cbn [fval length span]. fold w. pose proof (span_nonneg (length l) (negb w29)).
  rewrite Z.pow_add_r by lia. pose proof (Z.div_mod s (2 ^ w) ltac:(lia)) as Hd2.
  assert (E1 : 2 ^ k * x = 2 ^ w * (x / 2 ^ (w - k)) + 2 ^ k * (x mod 2 ^ (w - k))) by (rewrite Hwk; rewrite Hd at 1; ring).
  assert (E2 : s = 2 ^ k * (x mod 2 ^ (w - k)) + carry) by done. clearbody s. clear - E1 E2 Hd2 Hv. nia.
Qed.

Lemma scaled_ok k a : 2 <= k <= 3 -> felem_ok a -> let r := (let '(out, carry) := scale_pass k true 0 a in felem_reduce_carry out carry) in
  felem_ok r /\ cong prime_p (fval true r) (2 ^ k * fval true a).
Proof.
  intros Hk (Hl & Hb & H8). cbv zeta. destruct (scale_pass k true 0 a) as [o c] eqn:E.
  destruct (scale_pass_ok k a Hk true 0 o c Hb ltac:(lia) E) as (Hlo & Hbo & Hc & Hv). rewrite Hl in *. change (span true NLIMBS) with 257 in Hv.
  assert (Hva : 0 <= fval true a /\ 8 * fval true a < 9 * 2 ^ 257) by (nine a Hl; cbn [below width negb fval limb nth] in *; change (29 + 1) with 30 in *; change (28 + 1) with 29 in *; lia).
  assert (0 <= fval true o) by (nine o Hlo; cbn [below width negb fval] in *; lia).
  assert (2 ^ k <= 8) by (change 8 with (2 ^ 3); apply Z.pow_le_mono_r; lia).
  destruct (felem_reduce_carry_ok o c (conj Hlo Hbo) ltac:(nia)) as [H1 H2]. split; [done|]. rewrite H2. exists 0. lia.
Qed.

Lemma felem_scalar_4_ok a : felem_ok a -> felem_ok (felem_scalar_4 a) /\ cong prime_p (fval true (felem_scalar_4 a)) (4 * fval true a).
Proof. apply (scaled_ok 2). lia. Qed.

Lemma felem_scalar_8_ok a : felem_ok a -> felem_ok (felem_scalar_8 a) /\ cong prime_p (fval true (felem_scalar_8 a)) (8 * fval true a).
Proof. apply (scaled_ok 3). lia. Qed.
