(* ===== verification/P256MulCorrect.v ===== *)
(** * P-256 field elements: Montgomery multiplication is correct *)
From Stdlib Require Import Znumtheory.
From S2P Require Import Prelude Words P256 P256Correct P256Euclid P256Field P256FieldCorrect.

(** Nested wrap-arounds are one. *)
Ltac u32_flat :=
  repeat match goal with
  | |- context [u32 (u32 ?a + ?b)] => lazymatch a with u32 _ + _ => fail | u32 _ - _ => fail | _ => rewrite (u32_add_l a b) end
  | |- context [u32 (u32 ?a - ?b)] => lazymatch a with u32 _ + _ => fail | u32 _ - _ => fail | _ => rewrite (u32_sub_l a b) end
  end.

(** ** Spreading 64-bit words over limbs *)

Lemma hi_57 t : 0 <= t < 2 ^ 64 -> Z.shiftr (hi32 t) 25 = t / 2 ^ 57 /\ 0 <= t / 2 ^ 57 < 2 ^ 7.
Proof.
  intros Ht. unfold hi32. rewrite !Z.shiftr_div_pow2 by lia. rewrite u32_small by (unfold is_u32; Z.div_mod_to_equations; lia).
  rewrite Z.div_div by lia. change (2 ^ 32 * 2 ^ 25) with (2 ^ 57). split; [done|]. Z.div_mod_to_equations; lia.
Qed.

Lemma mid_word t w29 : 0 <= t < 2 ^ 64 ->
  Z.shiftr (lo32 t) (width (negb w29)) + Z.land (u32 (Z.shiftl (hi32 t) (32 - width (negb w29)))) (bottom w29) = (t / 2 ^ width (negb w29)) mod 2 ^ width w29.
Proof.
  intros Ht. unfold lo32, hi32. rewrite land_bottom. rewrite Z.shiftl_mul_pow2, !Z.shiftr_div_pow2 by (destruct w29; cbn; lia).
  unfold u32. destruct w29; cbn [width negb]; [change (32 - 28) with 4|change (32 - 29) with 3]; Z.div_mod_to_equations; lia.
Qed.

Lemma spread_loop_cons w29 carry t2 t1 t l :
  spread_loop w29 carry (t2 :: t1 :: t :: l) =
    let x := u32 (u32 (u32 (u32 (Z.shiftr (hi32 t2) 25 + Z.shiftr (lo32 t1) (width (negb w29))) +
      Z.land (u32 (Z.shiftl (hi32 t1) (32 - width (negb w29)))) (bottom w29)) + Z.land (lo32 t) (bottom w29)) + carry) in
    Z.land x (bottom w29) :: spread_loop (negb w29) (Z.shiftr x (width w29)) (t1 :: t :: l).
Proof. reflexivity. Qed.

(** The words of the array behind the first two, and how many there are. *)
Lemma spread_loop_ok l : forall w29 carry p2 p1, Nat.odd (length l) = w29 ->
  0 <= carry < 16 -> 0 <= p2 < 2 ^ 64 -> 0 <= p1 < 2 ^ 64 -> Forall (fun t => 0 <= t < 2 ^ 64) l -> List.last (p1 :: l) 0 < 2 ^ 58 ->
  exists o t17, spread_loop w29 carry (p2 :: p1 :: l) = o ++ [t17] /\ length o = length l /\ below 0 w29 o /\ 0 <= t17 < 2 ^ 30 /\
    fval w29 (o ++ [t17]) = carry + p2 / 2 ^ 57 + p1 / 2 ^ width (negb w29) + fval w29 l.
Proof.
  induction l as [|t l IH]; intros w29 carry p2 p1 Hpar Hc H2 H1 Hl Hlast; pose proof (hi_57 p2 H2) as [Hh Hhb].
  { cbn in Hpar. subst w29. cbn [List.last] in Hlast. cbn [spread_loop]. rewrite Hh. exists [].
    pose proof (mid_word p1 false H1) as Hm. cbn [negb width] in *. change (32 - 29) with 3 in *. unfold lo32, hi32 in *.
    rewrite Z.shiftl_mul_pow2, !Z.shiftr_div_pow2 in * by lia. u32_flat.
    assert (E : p1 / 2 ^ 29 = u32 p1 / 2 ^ 29 + u32 (u32 (p1 / 2 ^ 32) * 2 ^ 3)) by (unfold u32; Z.div_mod_to_equations; lia).
    assert (Hb : 0 <= p1 / 2 ^ 29 < 2 ^ 29) by (Z.div_mod_to_equations; lia).
    eexists. split; [done|]. assert (Es : p2 / 2 ^ 57 + u32 p1 / 2 ^ 29 + u32 (u32 (p1 / 2 ^ 32) * 2 ^ 3) + carry = carry + p2 / 2 ^ 57 + p1 / 2 ^ 29) by lia.
    rewrite Es, u32_small by (unfold is_u32; lia). split_and!; [done..|lia|lia|]. cbn [app fval width negb]. lia. }
  apply Forall_cons_1 in Hl as [Ht Hl]. rewrite spread_loop_cons. cbv zeta. rewrite Hh. u32_flat.
  set (w := width w29). rewrite land_bottom. fold w. assert (Hw : 28 <= w <= 29) by apply width_pos.
  pose proof (mid_word p1 w29 H1) as Hm. pose proof (Z.mod_pos_bound (p1 / 2 ^ width (negb w29)) (2 ^ w) ltac:(lia)) as Hmb.
  assert (Elo : Z.land (lo32 t) (bottom w29) = t mod 2 ^ w).
  { rewrite land_bottom. unfold lo32, u32. fold w. symmetry. apply Znumtheory.Zmod_div_mod; [lia..|]. exists (2 ^ (32 - w)). rewrite <- Z.pow_add_r by lia. f_equal. lia. }
  rewrite Elo. set (s := p2 / 2 ^ 57 + Z.shiftr (lo32 p1) (width (negb w29)) + Z.land (u32 (Z.shiftl (hi32 p1) (32 - width (negb w29)))) (bottom w29) + t mod 2 ^ w + carry).
  assert (Es : s = p2 / 2 ^ 57 + (p1 / 2 ^ width (negb w29)) mod 2 ^ w + t mod 2 ^ w + carry) by (unfold s; fold w in Hm; lia).
  pose proof (Z.mod_pos_bound t (2 ^ w) ltac:(lia)). assert (H29 : 2 ^ 28 <= 2 ^ w <= 2 ^ 29) by (split; apply Z.pow_le_mono_r; lia).
  rewrite (u32_small s) by (unfold is_u32; lia). rewrite Z.shiftr_div_pow2 by lia.
  destruct (IH (negb w29) (s / 2 ^ w) p1 t) as (o & t17 & Ho & Hlo & Hbo & H17 & Hv); [|split; [apply Z.div_pos; lia|apply Z.div_lt_upper_bound; lia]|done..| |].
  { rewrite <- Hpar. cbn [length]. rewrite Nat.odd_succ, <- Nat.negb_odd. by destruct (Nat.odd (length l)). }
  { change (List.last (p1 :: t :: l) 0) with (List.last (t :: l) 0) in Hlast. done. }
  rewrite Ho. exists (s mod 2 ^ w :: o), t17. split; [done|]. pose proof (Z.mod_pos_bound s (2 ^ w) ltac:(lia)).
  split; [cbn; lia|]. split; [split; [fold w; rewrite Z.add_0_r; lia|done]|]. split; [lia|]. cbn [app fval]. fold w. rewrite Hv, negb_involutive. fold w.
  pose proof (Z.div_mod s (2 ^ w) ltac:(lia)) as Hd. pose proof (Z.div_mod t (2 ^ w) ltac:(lia)) as Hdt.
  assert (Hdp : p1 / 2 ^ width (negb w29) = (p1 / 2 ^ width (negb w29)) mod 2 ^ w + 2 ^ w * (p1 / 2 ^ 57)).
  { pose proof (Z.div_mod (p1 / 2 ^ width (negb w29)) (2 ^ w) ltac:(lia)) as Hq. rewrite Z.div_div in Hq by (pose proof (width_pos (negb w29)); lia).
    rewrite <- Z.pow_add_r in Hq by (pose proof (width_pos (negb w29)); lia). replace (width (negb w29) + w) with 57 in Hq by (unfold w; destruct w29; done). lia. }
  clear - Hd Hdt Hdp Es. nia.
Qed.

Lemma spread_ok tmp : length tmp = 17%nat -> Forall (fun t => 0 <= t < 2 ^ 64) tmp -> nth 16 tmp 0 < 2 ^ 58 ->
  exists o t17, spread tmp = o ++ [t17] /\ length o = 17%nat /\ below 0 true o /\ 0 <= t17 < 2 ^ 30 /\ fval true (o ++ [t17]) = fval true tmp.
Proof.
  intros Hl Hf H16. destruct tmp as [|t0 [|t1 l]]; try discriminate. cbn [length] in Hl. apply Forall_cons_1 in Hf as [H0 Hf]. apply Forall_cons_1 in Hf as [H1 Hf].
  unfold spread. assert (E1 : Z.lor (Z.shiftr (lo32 t0) 29) (Z.land (u32 (Z.shiftl (hi32 t0) 3)) kBottom28Bits) = (t0 / 2 ^ 29) mod 2 ^ 28).
  { pose proof (mid_word t0 false H0) as Hm. cbn [negb width bottom] in Hm. change (32 - 29) with 3 in Hm. rewrite <- Hm.
    change kBottom28Bits with (bottom false). rewrite land_bottom. cbn [width]. rewrite Z.shiftl_mul_pow2 by lia.
    assert (E : u32 (hi32 t0 * 2 ^ 3) mod 2 ^ 28 = 2 ^ 3 * (hi32 t0 mod 2 ^ 25)) by (unfold u32; Z.div_mod_to_equations; lia).
    rewrite E, Z.lor_comm, lor_low; [lia|lia|]. unfold lo32, u32. rewrite Z.shiftr_div_pow2 by lia. Z.div_mod_to_equations; lia. }
  rewrite E1. change kBottom28Bits with (bottom false). change kBottom29Bits with (bottom true). rewrite !land_bottom. cbn [width].
  assert (E2 : lo32 t1 mod 2 ^ 28 = t1 mod 2 ^ 28) by (unfold lo32, u32; Z.div_mod_to_equations; lia).
  assert (E3 : lo32 (t0 mod 2 ^ 29) = t0 mod 2 ^ 29) by (unfold lo32, u32; Z.div_mod_to_equations; lia). rewrite E2, E3.
  set (s := (t0 / 2 ^ 29) mod 2 ^ 28 + t1 mod 2 ^ 28). assert (Hs : 0 <= s < 2 ^ 29) by (unfold s; Z.div_mod_to_equations; lia).
  rewrite (u32_small s) by (unfold is_u32; lia). rewrite (Z.shiftr_div_pow2 s) by lia.
  destruct (spread_loop_ok l true (s / 2 ^ 28) t0 t1) as (o & t17 & Ho & Hlo & Hb & H17 & Hv); [by replace (length l) with 15%nat by lia|Z.div_mod_to_equations; lia|done..| |].
  { rewrite <- nth_last. cbn [length]. replace (S (length l) - 1)%nat with 15%nat by lia. exact H16. }
  rewrite Ho. exists (t0 mod 2 ^ 29 :: s mod 2 ^ 28 :: o), t17. split; [done|]. split; [cbn; lia|].
  split; [cbn [below width negb]; rewrite !Z.add_0_r; split; [Z.div_mod_to_equations; lia|]; split; [Z.div_mod_to_equations; lia|done]|]. split; [done|].
  cbn [app fval width negb] in *. rewrite Hv. assert (Ed : s = 2 ^ 28 * (s / 2 ^ 28) + s mod 2 ^ 28) by (apply Z.div_mod; lia).
  assert (Edef : s = (t0 / 2 ^ 29) mod 2 ^ 28 + t1 mod 2 ^ 28) by done. clearbody s. clear - Ed Edef H0 H1.
  generalize (fval true l). intros R. Z.div_mod_to_equations; lia.
Qed.

(** ** Elimination

    The words of [tmp2] are what integers [t] leave modulo 2^32.  A half turn
    adds the multiple [x * p] that makes the first word zero; the changes of
    the other words are bounded, and only the tenth word can fall, by one, when
    the ninth grows by a carry. *)

Lemma land_ones32 v : Z.land v (u32 (-1)) = u32 v.
Proof. change (u32 (-1)) with (Z.ones 32). by apply Z.land_ones. Qed.

Lemma u32_idem v : u32 (u32 v) = u32 v.
Proof. apply Z.mod_mod. lia. Qed.

Lemma u32_add_r a b : u32 (a + u32 b) = u32 (a + b).
Proof. apply Zplus_mod_idemp_r. Qed.

(** [(x << k) & bottom]. *)
Lemma shl_land w29 x k : 0 <= x -> 0 <= k <= width w29 -> Z.land (u32 (Z.shiftl x k)) (bottom w29) = 2 ^ k * (x mod 2 ^ (width w29 - k)).
Proof.
  intros Hx Hk. pose proof (width_pos w29). rewrite land_bottom, Z.shiftl_mul_pow2 by lia. unfold u32.
  rewrite <- Znumtheory.Zmod_div_mod; [|lia..|exists (2 ^ (32 - width w29)); rewrite <- Z.pow_add_r by lia; f_equal; lia].
  replace (2 ^ width w29) with (2 ^ k * 2 ^ (width w29 - k)) by (rewrite <- Z.pow_add_r by lia; f_equal; lia). rewrite (Z.mul_comm x). apply Zmult_mod_distr_l.
Qed.

Definition if_pos (x v : Z) : Z := if 0 <? x then v else 0.

Lemma land_mask_pos x v : 0 <= x <= 2 ^ 31 -> Z.land (u32 v) (NON_ZERO_TO_ALL_ONES x) = u32 (if_pos x v).
Proof.
  intros Hx. unfold if_pos. destruct (Z.ltb_spec 0 x).
  - by rewrite mask_nonzero, land_ones32, u32_idem by lia.
  - assert (x = 0) as -> by lia. change (NON_ZERO_TO_ALL_ONES 0) with 0. by rewrite Z.land_0_r.
Qed.

Lemma if_pos_u32 x v : (0 < x -> is_u32 v) -> is_u32 (if_pos x v).
Proof. intros H. unfold if_pos. destruct (Z.ltb_spec 0 x); [by apply H|done]. Qed.

Lemma top_half_Z t0 t1 t2 t3 t4 t5 t6 t7 t8 t9 l : 0 <= t0 < 2 ^ 32 ->
  top_half (u32 <$> (t0 :: t1 :: t2 :: t3 :: t4 :: t5 :: t6 :: t7 :: t8 :: t9 :: l)) =
    let x := t0 mod 2 ^ 29 in
    u32 <$> (t1 + t0 / 2 ^ 29 :: t2 :: t3 + 2 ^ 10 * (x mod 2 ^ 18) :: t4 + x / 2 ^ 18 :: t5 :: t6 + 2 ^ 21 * (x mod 2 ^ 8) ::
      t7 + x / 2 ^ 8 + if_pos x (2 ^ 28) - 2 ^ 24 * (x mod 2 ^ 4) ::
      t8 + if_pos x (x - 1) - x / 2 ^ 4 + if_pos x (2 ^ 29) - x + 2 ^ 28 * (x mod 2 ^ 1) :: t9 + if_pos x (x / 2 ^ 1 - 1) :: l).
Proof.
  intros H0. unfold top_half, plus_at, minus_at. cbn [fmap list_fmap nth]. rewrite (u32_small t0) by done.
  change kBottom29Bits with (bottom true). change kBottom28Bits with (bottom false). rewrite (land_bottom true t0). cbn [width]. cbv zeta.
  pose proof (Z.mod_pos_bound t0 (2 ^ 29) ltac:(lia)) as Hx. set (x := t0 mod 2 ^ 29) in *.
  rewrite !(shl_land true), !(shl_land false) by (cbn [width]; lia). rewrite !Z.shiftr_div_pow2 by lia.
  change 0x10000000 with (u32 (2 ^ 28)). change 0x20000000 with (u32 (2 ^ 29)). rewrite !land_mask_pos by lia.
  rewrite (u32_small (if_pos x (2 ^ 28))), (u32_small (if_pos x (2 ^ 29))), (u32_small (if_pos x (x - 1))) by (apply if_pos_u32; unfold is_u32; lia).
  cbn [width alter list_alter tail]. u32_flat. rewrite u32_add_r. done.
Qed.

Lemma bottom_half_Z t0 t1 t2 t3 t4 t5 t6 t7 t8 t9 l : 0 <= t0 < 2 ^ 32 ->
  bottom_half (u32 <$> (t0 :: t1 :: t2 :: t3 :: t4 :: t5 :: t6 :: t7 :: t8 :: t9 :: l)) =
    let x := t0 mod 2 ^ 28 in
    u32 <$> (t1 + t0 / 2 ^ 28 :: t2 :: t3 + 2 ^ 11 * (x mod 2 ^ 18) :: t4 + x / 2 ^ 18 :: t5 :: t6 + 2 ^ 21 * (x mod 2 ^ 7) ::
      t7 + x / 2 ^ 7 + if_pos x (2 ^ 29) - 2 ^ 25 * (x mod 2 ^ 4) ::
      t8 + if_pos x (x - 1) - x / 2 ^ 4 + if_pos x (2 ^ 28) - x :: t9 + if_pos x (x - 1) :: l).
Proof.
  intros H0. unfold bottom_half, plus_at, minus_at. cbn [fmap list_fmap nth]. rewrite (u32_small t0) by done.
  change kBottom29Bits with (bottom true). change kBottom28Bits with (bottom false). rewrite (land_bottom false t0). cbn [width]. cbv zeta.
  pose proof (Z.mod_pos_bound t0 (2 ^ 28) ltac:(lia)) as Hx. set (x := t0 mod 2 ^ 28) in *.
  rewrite !(shl_land true), !(shl_land false) by (cbn [width]; lia). rewrite !Z.shiftr_div_pow2 by lia.
  change 0x10000000 with (u32 (2 ^ 28)). change 0x20000000 with (u32 (2 ^ 29)). rewrite !land_mask_pos by lia.
  rewrite (u32_small (if_pos x (2 ^ 28))), (u32_small (if_pos x (2 ^ 29))), (u32_small (if_pos x (x - 1))) by (apply if_pos_u32; unfold is_u32; lia).
  cbn [width alter list_alter tail]. u32_flat. done.
Qed.

(** A multiple of p below [k p] makes [b] divisible by [k], with quotient [a]. *)
Definition cancels (k a b : Z) : Prop := exists q, 0 <= q < k /\ k * a = b + q * prime_p.

Lemma cancels_trans k l a b c : cancels k b c -> cancels l a b -> cancels (k * l) a c.
Proof. intros (q & Hq & Eq) (r & Hr & Er). exists (q + k * r). split; nia. Qed.

Lemma cancels_cong k a b : cancels k a b -> cong prime_p (k * a) b.
Proof. intros (q & _ & E). by exists q. Qed.

(** The multiple of p that cancels the first word, and the bounds. *)
Lemma top_step t0 t1 t2 t3 t4 t5 t6 t7 t8 t9 l : 0 <= t0 < 2 ^ 32 -> exists t1' t3' t4' t6' t7' t8' t9',
  top_half (u32 <$> (t0 :: t1 :: t2 :: t3 :: t4 :: t5 :: t6 :: t7 :: t8 :: t9 :: l)) = u32 <$> (t1' :: t2 :: t3' :: t4' :: t5 :: t6' :: t7' :: t8' :: t9' :: l) /\
  2 ^ 29 * (t1' - t1) <= t0 < 2 ^ 29 * (t1' - t1) + 2 ^ 29 /\ t3 <= t3' < t3 + 2 ^ 28 /\ t4 <= t4' < t4 + 2 ^ 11 /\ t6 <= t6' < t6 + 2 ^ 29 /\ t7 <= t7' < t7 + 2 ^ 28 + 2 ^ 21 /\
  t8 <= t8' < t8 + 2 ^ 29 + 2 ^ 28 /\ t9 - 1 <= t9' < t9 + 2 ^ 28 /\ 0 <= t8' - t8 + 2 ^ 29 * (t9' - t9) /\
  cancels (2 ^ 29) (fval false (t1' :: t2 :: t3' :: t4' :: t5 :: t6' :: t7' :: t8' :: t9' :: l)) (fval true (t0 :: t1 :: t2 :: t3 :: t4 :: t5 :: t6 :: t7 :: t8 :: t9 :: l)).
Proof.
  intros H0. rewrite top_half_Z by done. cbv zeta. pose proof (Z.mod_pos_bound t0 (2 ^ 29) ltac:(lia)) as Hx. pose proof (Z.div_mod t0 (2 ^ 29) ltac:(lia)) as Hd.
  set (x := t0 mod 2 ^ 29) in *. do 7 eexists. split; [done|]. unfold if_pos.
  assert (Hs : x = 2 ^ 18 * (x / 2 ^ 18) + x mod 2 ^ 18 /\ x = 2 ^ 8 * (x / 2 ^ 8) + x mod 2 ^ 8 /\ x = 2 ^ 4 * (x / 2 ^ 4) + x mod 2 ^ 4 /\ x = 2 ^ 1 * (x / 2 ^ 1) + x mod 2 ^ 1)
    by (split_and!; apply Z.div_mod; lia).
  pose proof (Z.mod_pos_bound x (2 ^ 18) ltac:(lia)). pose proof (Z.mod_pos_bound x (2 ^ 8) ltac:(lia)). pose proof (Z.mod_pos_bound x (2 ^ 4) ltac:(lia)). pose proof (Z.mod_pos_bound x (2 ^ 1) ltac:(lia)).
  destruct (Z.ltb_spec 0 x); (split_and!; try lia); exists x; (split; [lia|]); cbn [fval width negb]; change prime_p with (2 ^ 256 - 2 ^ 224 + 2 ^ 192 + 2 ^ 96 - 1);
    generalize dependent (x / 2 ^ 18); generalize dependent (x mod 2 ^ 18); generalize dependent (x / 2 ^ 8); generalize dependent (x mod 2 ^ 8);
    generalize dependent (x / 2 ^ 4); generalize dependent (x mod 2 ^ 4); generalize dependent (x / 2 ^ 1); generalize dependent (x mod 2 ^ 1); intros; lia.
Qed.

Lemma bottom_step t0 t1 t2 t3 t4 t5 t6 t7 t8 t9 l : 0 <= t0 < 2 ^ 32 -> exists t1' t3' t4' t6' t7' t8' t9',
  bottom_half (u32 <$> (t0 :: t1 :: t2 :: t3 :: t4 :: t5 :: t6 :: t7 :: t8 :: t9 :: l)) = u32 <$> (t1' :: t2 :: t3' :: t4' :: t5 :: t6' :: t7' :: t8' :: t9' :: l) /\
  2 ^ 28 * (t1' - t1) <= t0 < 2 ^ 28 * (t1' - t1) + 2 ^ 28 /\ t3 <= t3' < t3 + 2 ^ 29 /\ t4 <= t4' < t4 + 2 ^ 10 /\ t6 <= t6' < t6 + 2 ^ 28 /\ t7 <= t7' < t7 + 2 ^ 29 + 2 ^ 21 /\
  t8 <= t8' < t8 + 2 ^ 28 /\ t9 <= t9' < t9 + 2 ^ 28 /\
  cancels (2 ^ 28) (fval true (t1' :: t2 :: t3' :: t4' :: t5 :: t6' :: t7' :: t8' :: t9' :: l)) (fval false (t0 :: t1 :: t2 :: t3 :: t4 :: t5 :: t6 :: t7 :: t8 :: t9 :: l)).
Proof.
  intros H0. rewrite bottom_half_Z by done. cbv zeta. pose proof (Z.mod_pos_bound t0 (2 ^ 28) ltac:(lia)) as Hx. pose proof (Z.div_mod t0 (2 ^ 28) ltac:(lia)) as Hd.
  set (x := t0 mod 2 ^ 28) in *. do 7 eexists. split; [done|]. unfold if_pos.
  assert (Hs : x = 2 ^ 18 * (x / 2 ^ 18) + x mod 2 ^ 18 /\ x = 2 ^ 7 * (x / 2 ^ 7) + x mod 2 ^ 7 /\ x = 2 ^ 4 * (x / 2 ^ 4) + x mod 2 ^ 4) by (split_and!; apply Z.div_mod; lia).
  pose proof (Z.mod_pos_bound x (2 ^ 18) ltac:(lia)). pose proof (Z.mod_pos_bound x (2 ^ 7) ltac:(lia)). pose proof (Z.mod_pos_bound x (2 ^ 4) ltac:(lia)).
  destruct (Z.ltb_spec 0 x); (split_and!; try lia); exists x; (split; [lia|]); cbn [fval width negb]; change prime_p with (2 ^ 256 - 2 ^ 224 + 2 ^ 192 + 2 ^ 96 - 1);
    generalize dependent (x / 2 ^ 18); generalize dependent (x mod 2 ^ 18); generalize dependent (x / 2 ^ 7); generalize dependent (x mod 2 ^ 7);
    generalize dependent (x / 2 ^ 4); generalize dependent (x mod 2 ^ 4); intros; lia.
Qed.

(** ** The final shift *)

(** Words that can be shifted: an odd word may be -1 if the word below carries
    into it. *)
Fixpoint shiftable (w : list Z) : Prop :=
  match w with
  | x :: y :: w => x < 2 ^ 31 + 2 ^ 30 /\ 0 <= y < 2 ^ 32 /\ match w with x' :: _ => 0 <= y + 2 ^ 29 * x' | [] => True end /\ shiftable w
  | [x] => x < 2 ^ 31 + 2 ^ 30
  | [] => True
  end.

Lemma shift_pass_ok n : forall w carry o c, length w = S (2 * n) -> shiftable w -> 0 <= carry < 16 -> 0 <= nth 0 w 0 + carry ->
  shift_pass carry (u32 <$> w) = (o, c) ->
  length o = S (2 * n) /\ below 0 true o /\ 0 <= c < 16 /\ fval true o + 2 ^ span true (S (2 * n)) * c = carry + fval false w.
Proof.
  induction n as [|n IH]; intros w carry o c Hl Hw Hc H0.
  { destruct w as [|x [|? ?]]; try discriminate Hl. cbn [fmap list_fmap shift_pass shiftable nth] in *. rewrite u32_add_l, u32_small by (unfold is_u32; lia).
    change kBottom29Bits with (bottom true). rewrite land_bottom. cbn [width]. rewrite Z.shiftr_div_pow2 by lia. intros [= <- <-].
    pose proof (Z.div_mod (x + carry) (2 ^ 29) ltac:(lia)). pose proof (Z.mod_pos_bound (x + carry) (2 ^ 29) ltac:(lia)).
    change (span true (S (2 * 0))) with 29. cbn [below fval width negb length]. rewrite Z.add_0_r. split_and!; try done; lia. }
  destruct w as [|x [|y w]]; try (cbn in Hl; lia). cbn [fmap list_fmap]. destruct Hw as (Hx & Hy & Hp & Hw). cbn [nth] in H0. cbn [shift_pass].
  change kBottom29Bits with (bottom true). change kBottom28Bits with (bottom false). rewrite (u32_small y) by done. rewrite shl_land by (cbn [width]; lia). cbn [width]. change (29 - 28) with 1.
  pose proof (Z.div_mod y (2 ^ 1) ltac:(lia)) as Hdy. pose proof (Z.mod_pos_bound y (2 ^ 1) ltac:(lia)) as Hmy. u32_flat.
  rewrite (u32_small (x + carry + _)) by (unfold is_u32; lia). set (s := x + carry + 2 ^ 28 * (y mod 2 ^ 1)). rewrite !Z.shiftr_div_pow2 by lia.
  pose proof (Z.div_mod s (2 ^ 29) ltac:(lia)) as Hds. pose proof (Z.mod_pos_bound s (2 ^ 29) ltac:(lia)) as Hms.
  rewrite (u32_small (y / 2 ^ 1 + s / 2 ^ 29)) by (unfold is_u32; lia). set (s' := y / 2 ^ 1 + s / 2 ^ 29).
  pose proof (Z.div_mod s' (2 ^ 28) ltac:(lia)) as Hds'. pose proof (Z.mod_pos_bound s' (2 ^ 28) ltac:(lia)) as Hms'.
  destruct (shift_pass (s' / 2 ^ 28) (u32 <$> w)) as [o' c'] eqn:E. intros [= <- <-].
  assert (Hcar : 0 <= s' / 2 ^ 28 < 16) by lia.
  assert (Hnx : 0 <= nth 0 w 0 + s' / 2 ^ 28).
  { destruct w as [|x' w]; cbn [nth]; [lia|]. assert (y <= 2 ^ 29 * (s' / 2 ^ 28) + 2 ^ 29 - 1) by lia. lia. }
  destruct (IH w (s' / 2 ^ 28) o' c') as (Hlo & Hb & Hc' & Hv); [cbn in Hl; lia|done..|]. change kBottom29Bits with (bottom true). change kBottom28Bits with (bottom false). rewrite !land_bottom.
  replace (S (2 * S n)) with (S (S (S (2 * n)))) by lia. split; [cbn; lia|]. split; [cbn [below width negb]; rewrite !Z.add_0_r; split_and!; lia || done|]. split; [lia|].
  change (span true (S (S (S (2 * n))))) with (29 + (28 + span true (S (2 * n)))). cbn [fval width negb]. pose proof (span_nonneg (S (2 * n)) true). rewrite !Z.pow_add_r by lia.
  assert (E1 : s = x + carry + 2 ^ 28 * (y mod 2 ^ 1)) by done. assert (E2 : s' = y / 2 ^ 1 + s / 2 ^ 29) by done. clearbody s s'. clear - Hdy Hds Hds' E1 E2 Hv. nia.
Qed.

(** ** The reduction *)

Lemma u32_list l : Forall is_u32 l -> u32 <$> l = l.
Proof. induction 1; [done|]. cbn. by rewrite u32_small by done; f_equal. Qed.

(** What the five turns leave: nine words that can be shifted, whose value is
    the input's divided by 2^257. *)
Lemma eliminate_ok o t17 : length o = 17%nat -> below 0 true o -> 0 <= t17 < 2 ^ 30 ->
  exists w, eliminate 4 (o ++ [t17]) = u32 <$> w /\ length w = 9%nat /\ shiftable w /\ 0 <= nth 0 w 0 /\ nth 8 w 0 < 2 ^ 31 /\
    cancels (2 ^ 257) (fval false w) (fval true (o ++ [t17])).
Proof.
  intros Hl Hb H17.
  destruct o as [|w0 [|w1 [|w2 [|w3 [|w4 [|w5 [|w6 [|w7 [|w8 [|w9 [|w10 [|w11 [|w12 [|w13 [|w14 [|w15 [|w16 [|? ?]]]]]]]]]]]]]]]]]]; try discriminate Hl. clear Hl.
  rename t17 into w17. cbn [below width negb] in Hb. rewrite !Z.add_0_r in Hb. cbn [app].
  set (W0 := [w0; w1; w2; w3; w4; w5; w6; w7; w8; w9; w10; w11; w12; w13; w14; w15; w16; w17]). assert (HW : u32 <$> W0 = W0) by (apply u32_list; repeat (constructor; [unfold is_u32; lia|]); constructor).
  replace (eliminate 4 W0) with (eliminate 4 (u32 <$> W0)) by (by rewrite HW). clear HW. cbn [eliminate]. unfold W0 at 1.
  destruct (top_step w0 w1 w2 w3 w4 w5 w6 w7 w8 w9 [w10; w11; w12; w13; w14; w15; w16; w17]) as (a1 & a3 & a4 & a6 & a7 & a8 & a9 & -> & Ha1 & Ha3 & Ha4 & Ha6 & Ha7 & Ha8 & Ha9 & Hap & Ca); [lia|].
  destruct (bottom_step a1 w2 a3 a4 w5 a6 a7 a8 a9 w10 [w11; w12; w13; w14; w15; w16; w17]) as (b2 & b4 & b5 & b7 & b8 & b9 & b10 & -> & Hb1 & Hb3 & Hb4 & Hb6 & Hb7 & Hb8 & Hb9 & Cb); [lia|].
  destruct (top_step b2 a3 b4 b5 a6 b7 b8 b9 b10 w11 [w12; w13; w14; w15; w16; w17]) as (c3 & c5 & c6 & c8 & c9 & c10 & c11 & -> & Hc1 & Hc3 & Hc4 & Hc6 & Hc7 & Hc8 & Hc9 & Hcp & Cc); [lia|].
  destruct (bottom_step c3 b4 c5 c6 b7 c8 c9 c10 c11 w12 [w13; w14; w15; w16; w17]) as (d4 & d6 & d7 & d9 & d10 & d11 & d12 & -> & Hd1 & Hd3 & Hd4 & Hd6 & Hd7 & Hd8 & Hd9 & Cd); [lia|].
  destruct (top_step d4 c5 d6 d7 c8 d9 d10 d11 d12 w13 [w14; w15; w16; w17]) as (e5 & e7 & e8 & e10 & e11 & e12 & e13 & -> & He1 & He3 & He4 & He6 & He7 & He8 & He9 & Hep & Ce); [lia|].
  destruct (bottom_step e5 d6 e7 e8 d9 e10 e11 e12 e13 w14 [w15; w16; w17]) as (f6 & f8 & f9 & f11 & f12 & f13 & f14 & -> & Hf1 & Hf3 & Hf4 & Hf6 & Hf7 & Hf8 & Hf9 & Cf); [lia|].
  destruct (top_step f6 e7 f8 f9 e10 f11 f12 f13 f14 w15 [w16; w17]) as (g7 & g9 & g10 & g12 & g13 & g14 & g15 & -> & Hg1 & Hg3 & Hg4 & Hg6 & Hg7 & Hg8 & Hg9 & Hgp & Cg); [lia|].
  destruct (bottom_step g7 f8 g9 g10 f11 g12 g13 g14 g15 w16 [w17]) as (h8 & h10 & h11 & h13 & h14 & h15 & h16 & -> & Hh1 & Hh3 & Hh4 & Hh6 & Hh7 & Hh8 & Hh9 & Ch); [lia|].
  destruct (top_step h8 g9 h10 h11 g12 h13 h14 h15 h16 w17 []) as (i9 & i11 & i12 & i14 & i15 & i16 & i17 & -> & Hi1 & Hi3 & Hi4 & Hi6 & Hi7 & Hi8 & Hi9 & Hip & Ci); [lia|].
  exists [i9; h10; i11; i12; h13; i14; i15; i16; i17]. split; [done|]. split; [done|]. split; [cbn [shiftable]; split_and!; (lia || done)|]. cbn [nth]. split; [lia|]. split; [lia|].
  exact (cancels_trans _ _ _ _ _ (cancels_trans _ _ _ _ _ (cancels_trans _ _ _ _ _ (cancels_trans _ _ _ _ _ (cancels_trans _ _ _ _ _ (cancels_trans _ _ _ _ _
    (cancels_trans _ _ _ _ _ (cancels_trans _ _ _ _ _ Ca Cb) Cc) Cd) Ce) Cf) Cg) Ch) Ci).
Qed.

Lemma felem_reduce_degree_ok tmp : length tmp = 17%nat -> Forall (fun t => 0 <= t < 2 ^ 64) tmp -> nth 16 tmp 0 < 2 ^ 58 ->
  felem_ok (felem_reduce_degree tmp) /\ cong prime_p (2 ^ 257 * fval true (felem_reduce_degree tmp)) (fval true tmp) /\
  (fval true tmp < (2 ^ 257 + 2 ^ 229) ^ 2 -> fval true (felem_reduce_degree tmp) < 2 ^ 257).
Proof.
  intros Hl Hf H16. unfold felem_reduce_degree. destruct (spread_ok tmp Hl Hf H16) as (o & t17 & -> & Hlo & Hb & H17 & Hv).
  destruct (eliminate_ok o t17 Hlo Hb H17) as (w & -> & Hlw & Hw & H0 & H8 & Hc). destruct (shift_pass 0 (u32 <$> w)) as [out c] eqn:E.
  destruct (shift_pass_ok 4 w 0 out c Hlw Hw ltac:(lia) ltac:(lia) E) as (Hlout & Hbout & Hcb & Heq). change (span true (S (2 * 4))) with 257 in Heq. change (S (2 * 4)) with NLIMBS in Hlout.
  pose proof (tight_bound out (conj Hlout Hbout)) as Ho.
  assert (Hc8 : c <= 8).
  { change 9%nat with NLIMBS in Hlw. nine w Hlw. cbn [shiftable nth fval width negb] in *. lia. }
  destruct (felem_reduce_carry_ok out c (conj Hlout Hbout) ltac:(lia)) as [H1 H2]. split; [done|]. split; [rewrite H2, Heq, <- Hv; by apply cancels_cong|].
  intros Hlt. destruct Hc as (q & Hq & Eq). rewrite Hv in Eq. change prime_p with (2 ^ 256 - 2 ^ 224 + 2 ^ 192 + 2 ^ 96 - 1) in Eq.
  assert (c = 0 \/ c = 1) as [->| ->] by nia; [rewrite reduce_carry_0 by done; lia|]. rewrite reduce_carry_1 by done. change prime_p with (2 ^ 256 - 2 ^ 224 + 2 ^ 192 + 2 ^ 96 - 1). nia.
Qed.

(** ** Products *)

Definition sum_Z (a b : felem) (terms : list (nat * nat * Z)) : Z :=
  foldl (fun acc '(i, j, s) => acc + limb a i * (limb b j * 2 ^ s)) 0 terms.

Definition limb_max (i : nat) : Z := if Nat.even i then 2 ^ 30 else 2 ^ 29.

(** A term is below [B], and its shifted factor is a limb. *)
Definition term_fits (B : Z) (t : nat * nat * Z) : bool :=
  let '(i, j, s) := t in (0 <=? s) && (i <? 9)%nat && (j <? 9)%nat && (limb_max i * (limb_max j * 2 ^ s) <=? B) && (limb_max j * 2 ^ s <=? 2 ^ 32).

Lemma limb_bound a i : felem_ok a -> (i < 9)%nat -> 0 <= limb a i < limb_max i.
Proof.
  intros (Hl & Hb & _) Hi. nine a Hl. cbn [below width negb] in Hb. change (29 + 1) with 30 in Hb. change (28 + 1) with 29 in Hb.
  do 9 (destruct i as [|i]; [cbn; lia|]). lia.
Qed.

Lemma u64_sum_ok a b B terms : felem_ok a -> felem_ok b -> forallb (term_fits B) terms = true -> blen terms * B < 2 ^ 64 ->
  u64_sum a b terms = sum_Z a b terms /\ 0 <= sum_Z a b terms < 2 ^ 64.
Proof.
  intros Ha Hb Hf HB. unfold u64_sum, sum_Z.
  assert (H : forall l acc, forallb (term_fits B) l = true -> 0 <= acc -> acc + blen l * B < 2 ^ 64 ->
    foldl (fun acc '(i, j, s) => u64 (acc + u64 (limb a i * u32 (Z.shiftl (limb b j) s)))) acc l =
    foldl (fun acc '(i, j, s) => acc + limb a i * (limb b j * 2 ^ s)) acc l /\
    0 <= foldl (fun acc '(i, j, s) => acc + limb a i * (limb b j * 2 ^ s)) acc l < 2 ^ 64).
  { induction l as [|[[i j] s] l IH]; intros acc Hl Hacc Hlt; cbn [foldl]; [unfold blen in Hlt; cbn [length] in Hlt; split; [done|lia]|].
    cbn [forallb] in Hl. apply andb_prop in Hl as [Ht Hl]. unfold term_fits in Ht. rewrite !andb_true_iff in Ht. destruct Ht as [[[[Hs Hi] Hj] H1] H2].
    apply Z.leb_le in Hs, H1, H2. apply Nat.ltb_lt in Hi, Hj. pose proof (limb_bound a i Ha Hi). pose proof (limb_bound b j Hb Hj). assert (0 < 2 ^ s) by lia.
    rewrite Z.shiftl_mul_pow2 by done. assert (Hy : 0 <= limb b j * 2 ^ s < limb_max j * 2 ^ s) by nia. rewrite (u32_small (_ * _)) by (unfold is_u32; lia).
    assert (Hxy : 0 <= limb a i * (limb b j * 2 ^ s) <= B) by nia. unfold blen in Hlt. cbn [length] in Hlt. assert (0 <= B) by nia.
    assert (0 <= Z.of_nat (length l) * B) by nia. rewrite (u64_small (limb a i * _)), u64_small by nia. apply IH; [done|lia|unfold blen; lia]. }
  apply H; [done|lia|lia].
Qed.

Lemma products_ok a b B rows : felem_ok a -> felem_ok b -> forallb (fun r => forallb (term_fits B) r && (blen r * B <? 2 ^ 64)) rows = true ->
  u64_sum a b <$> rows = sum_Z a b <$> rows /\ Forall (fun t => 0 <= t < 2 ^ 64) (sum_Z a b <$> rows).
Proof.
  intros Ha Hb. induction rows as [|r rows IH]; cbn [forallb fmap list_fmap]; [done|]. intros H. apply andb_prop in H as [H1 H2]. apply andb_prop in H1 as [H1 H3].
  destruct (u64_sum_ok a b B r Ha Hb H1 ltac:(lia)) as [H4 H5]. destruct (IH H2) as [H6 H7]. split; [by rewrite H4; f_equal|by constructor].
Qed.

Lemma felem_value_bound a : felem_ok a -> 0 <= fval true a < 2 ^ 257 + 2 ^ 229.
Proof.
  intros (Hl & Hb & H8). nine a Hl. cbn [below width negb fval limb nth] in *. change (29 + 1) with 30 in *. change (28 + 1) with 29 in *. lia.
Qed.

Lemma felem_mul_ok a b : felem_ok a -> felem_ok b ->
  felem_ok (felem_mul a b) /\ cong prime_p (2 ^ 257 * fval true (felem_mul a b)) (fval true a * fval true b) /\ fval true (felem_mul a b) < 2 ^ 257.
Proof.
  intros Ha Hb. unfold felem_mul. destruct (products_ok a b (2 ^ 60) mul_terms Ha Hb ltac:(by vm_compute)) as [-> Hf].
  destruct (felem_reduce_degree_ok (sum_Z a b <$> mul_terms) (length_fmap _ _) Hf) as (H1 & H2 & H3).
  { pose proof (proj2 (proj2 Ha)). pose proof (proj2 (proj2 Hb)). pose proof (limb_bound a 8 Ha ltac:(lia)). pose proof (limb_bound b 8 Hb ltac:(lia)).
    cbn [mul_terms fmap list_fmap nth sum_Z foldl]. change (2 ^ 0) with 1. nia. }
  pose proof (felem_value_bound a Ha). pose proof (felem_value_bound b Hb).
  assert (E : fval true (sum_Z a b <$> mul_terms) = fval true a * fval true b).
  { destruct Ha as (Hla & _), Hb as (Hlb & _). clear - Hla Hlb. nine a Hla.
    rename x0 into y0, x1 into y1, x2 into y2, x3 into y3, x4 into y4, x5 into y5, x6 into y6, x7 into y7, x8 into y8. nine b Hlb.
    cbn [mul_terms fmap list_fmap sum_Z foldl limb nth fval width negb]. ring. }
  rewrite E in *. split; [done|]. split; [done|]. apply H3. rewrite Z.pow_2_r. nia.
Qed.

Lemma felem_square_ok a : felem_ok a ->
  felem_ok (felem_square a) /\ cong prime_p (2 ^ 257 * fval true (felem_square a)) (fval true a * fval true a).
Proof.
  intros Ha. unfold felem_square. destruct (products_ok a a (2 ^ 61) square_terms Ha Ha ltac:(by vm_compute)) as [-> Hf].
  destruct (felem_reduce_degree_ok (sum_Z a a <$> square_terms) (length_fmap _ _) Hf) as (H1 & H2 & _).
  { pose proof (proj2 (proj2 Ha)). pose proof (limb_bound a 8 Ha ltac:(lia)). cbn [square_terms fmap list_fmap nth sum_Z foldl]. change (2 ^ 0) with 1. nia. }
  split; [done|]. rewrite H2. exists 0. destruct Ha as (Hla & _). nine a Hla. cbn [square_terms fmap list_fmap sum_Z foldl limb nth fval width negb]. ring.
Qed.
