(* ===== verification/Primes.v ===== *)
(** * Prime numbers: Fermat's theorem as congruences, Pocklington's criterion,
      and the two primes of the curve P-256 *)
From Stdlib Require Import Znumtheory ZmodInv.
From S2P Require Import Prelude Words P256.

(** ** Powers modulo a number *)

Fixpoint powmod (N a : Z) (e : positive) : Z :=
  match e with
  | xH => a mod N
  | xO e => let t := powmod N a e in t * t mod N
  | xI e => let t := powmod N a e in (t * t mod N * a) mod N
  end.

Lemma mod_cong N v : 0 < N -> cong N (v mod N) v.
Proof. intros H. apply cong_mod; [done|]. by rewrite Z.mod_mod by lia. Qed.

Lemma powmod_ok N a e : 0 < N -> cong N (powmod N a e) (a ^ Zpos e).
Proof.
  intros HN. induction e as [e IH|e IH|]; cbn [powmod].
  - rewrite !mod_cong, IH by done. by rewrite (Pos2Z.inj_xI e), Z.pow_add_r, Z.pow_twice_r, Z.pow_1_r by lia.
  - rewrite mod_cong, IH by done. by rewrite (Pos2Z.inj_xO e), Z.pow_twice_r by lia.
  - rewrite mod_cong by done. by rewrite Z.pow_1_r.
Qed.

Lemma cong_pow_base N a b k : 0 <= k -> cong N a b -> cong N (a ^ k) (b ^ k).
Proof. intros Hk H. rewrite <- (Z2Nat.id k Hk). by apply (cong_pow N (Z.to_nat k)). Qed.

Lemma cong_pow_one N b e k : 0 <= e -> 0 <= k -> cong N (b ^ e) 1 -> cong N (b ^ (e * k)) 1.
Proof.
  intros He Hk H. rewrite Z.pow_mul_r by done. rewrite <- (Z.pow_1_l k) by lia. by apply cong_pow_base.
Qed.

Lemma fermat_cong r b : prime r -> ~ cong r b 0 -> cong r (b ^ (r - 1)) 1.
Proof.
  intros Hr Hb. pose proof (prime_ge_2 r Hr). apply cong_mod; [lia|]. rewrite (Z.mod_small 1) by lia. apply ZmodInv.Z.fermat_nz; [by apply prime_alt|].
  intros E. apply Hb. apply cong_mod; [lia|]. by rewrite E, Zmod_0_l.
Qed.

(** ** Pocklington's criterion *)

Lemma order_divides r q b : prime r -> prime q -> cong r (b ^ q) 1 -> ~ cong r b 1 -> (q | r - 1).
Proof.
  intros Hr Hq Hbq Hb. pose proof (prime_ge_2 r Hr). pose proof (prime_ge_2 q Hq). destruct (Zdivide_dec q (r - 1)) as [?|Hn]; [done|]. exfalso. apply Hb.
  assert (Hb0 : ~ cong r b 0).
  { intros Hz. rewrite (cong_pow_base r b 0 q), Z.pow_0_l in Hbq by (done || lia). destruct Hbq as [k Hk]. assert (k * r = -1) by lia.
    assert (D : (r | 1)) by (exists (- k); lia). apply Z.divide_1_r_nonneg in D; lia. }
  pose proof (fermat_cong r b Hr Hb0) as Hf. destruct (Z.eq_dec r 2) as [->|Hr2]; [by rewrite Z.pow_1_r in Hf|].
  destruct (rel_prime_bezout _ _ (prime_rel_prime q Hq _ Hn)) as [u v Huv].
  assert (Hk : exists k m, 0 <= k /\ 0 <= m /\ q * k = 1 + (r - 1) * m).
  { exists (u mod (r - 1)), (- v - (u / (r - 1)) * q). pose proof (Z.div_mod u (r - 1) ltac:(lia)). pose proof (Z.mod_pos_bound u (r - 1) ltac:(lia)).
    assert (E : q * (u mod (r - 1)) = 1 + (r - 1) * (- v - (u / (r - 1)) * q)) by nia. split_and!; [lia| |done].
    set (m := - v - _) in *. set (k := u mod (r - 1)) in *. clearbody m k. destruct (Z.le_gt_cases 0 m) as [|Hm]; [done|]. assert ((r - 1) * m <= - 2) by nia. nia. }
  destruct Hk as (k & m & Hk & Hm & E). pose proof (cong_pow_one r b q k ltac:(lia) Hk Hbq) as H1. pose proof (cong_pow_one r b (r - 1) m ltac:(lia) Hm Hf) as H2.
  rewrite E, Z.pow_add_r, Z.pow_1_r, H2, Z.mul_1_r in H1 by nia. done.
Qed.

Lemma prime_divisor N : 1 < N -> exists r, prime r /\ (r | N).
Proof.
  intros HN. assert (H0 : 0 <= N) by lia. revert HN. pattern N. apply Z_lt_induction; [|done]. clear N H0. intros N IH HN.
  destruct (prime_dec N) as [?|Hn]; [by exists N|]. destruct (not_prime_divide N HN Hn) as (d & Hd & HdN).
  destruct (IH d ltac:(lia) ltac:(lia)) as (r & Hr & Hrd). exists r. split; [done|]. by apply (Z.divide_trans _ d).
Qed.

(** A number is prime if the square of each of its prime divisors is above it. *)
Lemma prime_of_divisors N : 1 < N -> (forall r, prime r -> (r | N) -> N < r * r) -> prime N.
Proof.
  intros HN H. destruct (prime_dec N) as [?|Hn]; [done|]. destruct (not_prime_divide N HN Hn) as (d & Hd & [e He]).
  destruct (prime_divisor d ltac:(lia)) as (r & Hr & Hrd). assert (1 < e) by (destruct (Z.le_gt_cases e 1); nia). destruct (prime_divisor e ltac:(lia)) as (s & Hs & Hse).
  assert (N < r * r) by (apply H; [done|]; apply (Z.divide_trans _ d); [done|by exists e]).
  assert (N < s * s) by (apply H; [done|]; apply (Z.divide_trans _ e); [done|exists d; lia]).
  pose proof (prime_ge_2 r Hr). pose proof (prime_ge_2 s Hs). pose proof (Z.divide_pos_le r d ltac:(lia) Hrd). pose proof (Z.divide_pos_le s e ltac:(lia) Hse).
  exfalso. assert (r * r <= d * d) by nia. assert (s * s <= e * e) by nia. destruct (Z.le_gt_cases d e); nia.
Qed.

Definition product (qs : list Z) : Z := foldr Z.mul 1 qs.

Lemma product_divides qs m : NoDup qs -> Forall prime qs -> Forall (fun q => (q | m)) qs -> (product qs | m).
Proof.
  intros Hd Hp Hm. induction qs as [|q qs IH]; [by apply Z.divide_1_l|]. apply NoDup_cons in Hd as [Hq Hd]. apply Forall_cons_1 in Hp as [Pq Hp], Hm as [Dq Hm].
  destruct (IH Hd Hp Hm) as [c Hc]. assert (Hrel : rel_prime q (product qs)).
  { apply prime_rel_prime; [done|]. clear IH Hd Hc Hm Dq. induction qs as [|s qs IH]; [intros D; apply Z.divide_1_r in D; pose proof (prime_ge_2 q Pq); lia|].
    apply Forall_cons_1 in Hp as [Ps Hp]. rewrite not_elem_of_cons in Hq. destruct Hq as [Hqs Hq]. intros D. destruct (prime_mult q Pq _ _ D) as [D'|D']; [|by apply IH].
    apply Hqs. by apply prime_div_prime. }
  rewrite Hc in Dq. rewrite Z.mul_comm in Dq. destruct (Gauss _ _ _ Dq Hrel) as [d Hd']. exists d. rewrite Hc, Hd'. change (product (q :: qs)) with (q * product qs). lia.
Qed.

Lemma product_pos qs : Forall prime qs -> 0 < product qs.
Proof. induction 1 as [|q qs Hq _ IH]; [done|]. pose proof (prime_ge_2 q Hq). cbn. unfold product in IH. nia. Qed.

Lemma pocklington N qs : 1 < N -> Forall prime qs -> NoDup qs -> N < product qs * product qs ->
  Forall (fun q => exists b, cong N (b ^ q) 1 /\ Z.gcd (b - 1) N = 1) qs -> prime N.
Proof.
  intros HN Hp Hd Hbig Hq. apply prime_of_divisors; [done|]. intros r Hr HrN. pose proof (prime_ge_2 r Hr).
  assert (D : (product qs | r - 1)).
  { apply product_divides; [done..|]. rewrite List.Forall_forall in *. intros q Hin. destruct (Hq q Hin) as (b & Hb & Hg). apply (order_divides r q b); [done|by apply Hp| |].
    - destruct HrN as [c ->], Hb as [k Hk]. exists (k * c). lia.
    - intros [k Hk]. assert (G : (r | Z.gcd (b - 1) N)) by (apply Z.gcd_greatest; [exists k; lia|done]). rewrite Hg in G. apply Z.divide_1_r_nonneg in G; lia. }
  pose proof (Z.divide_pos_le _ (r - 1) ltac:(lia) D). pose proof (product_pos qs Hp). nia.
Qed.

(** ** Certificates *)

Definition small_prime (N : Z) : bool :=
  (1 <? N) && forallb (fun d => negb (N mod (2 + Z.of_nat d) =? 0)) (seq 0 (Z.to_nat (Z.sqrt N - 1))).

Lemma small_prime_ok N : small_prime N = true -> prime N.
Proof.
  unfold small_prime. rewrite andb_true_iff, forallb_forall. intros [HN H]. apply Z.ltb_lt in HN. apply prime_of_divisors; [done|]. intros r Hr Hd.
  pose proof (prime_ge_2 r Hr). destruct (Z.lt_ge_cases N (r * r)) as [|Hge]; [done|]. exfalso. pose proof (Z.sqrt_le_square N r ltac:(lia) ltac:(lia)) as Hs.
  specialize (H (Z.to_nat (r - 2))). rewrite Z2Nat.id in H by lia. replace (2 + (r - 2)) with r in H by lia.
  rewrite (Zdivide_mod _ _ Hd) in H. assert (E : negb (0 =? 0) = true) by (apply H, in_seq; lia). done.
Qed.

(** The number, a base, and prime divisors of the number less one; no divisors
    for a number tested by division. *)
Definition cert : Type := Z * Z * list Z.

Definition check_divisor (N a q : Z) : bool :=
  let b := powmod N a (Z.to_pos ((N - 1) / q)) in
  (powmod N b (Z.to_pos q) =? 1) && (Z.gcd (b - 1) N =? 1).

Definition check_cert (known : list Z) (c : cert) : bool :=
  let '(N, a, qs) := c in
  match qs with
  | [] => small_prime N
  | _ => (1 <? N) && forallb (fun q => existsb (Z.eqb q) known) qs && bool_decide (NoDup qs) && (N <? product qs * product qs) && forallb (check_divisor N a) qs
  end.

Fixpoint check_certs (known : list Z) (l : list cert) : bool :=
  match l with [] => true | c :: l => check_cert known c && check_certs (c.1.1 :: known) l end.

Lemma check_divisor_ok N a q : 1 < N -> prime q -> check_divisor N a q = true -> exists b, cong N (b ^ q) 1 /\ Z.gcd (b - 1) N = 1.
Proof.
  intros HN Hq. pose proof (prime_ge_2 q Hq). unfold check_divisor. rewrite !andb_true_iff, !Z.eqb_eq. intros [Hb Hg]. eexists. split; [|done].
  rewrite <- (Z2Pos.id q) at 2 by lia. rewrite <- powmod_ok, Hb by lia. done.
Qed.

Lemma check_cert_ok known N a qs : Forall prime known -> check_cert known (N, a, qs) = true -> prime N.
Proof.
  intros Hk. destruct qs as [|q qs]; [apply small_prime_ok|]. unfold check_cert. set (l := q :: qs). clearbody l. rewrite !andb_true_iff, !forallb_forall. intros [[[[HN Hin] Hd] Hbig] Hq].
  apply Z.ltb_lt in HN, Hbig. apply bool_decide_eq_true in Hd. rewrite List.Forall_forall in Hk. assert (Hp : forall x, In x l -> prime x).
  { intros x Hx. apply Hin in Hx. apply existsb_exists in Hx as (y & Hy & ->%Z.eqb_eq). by apply Hk. }
  apply (pocklington N l); [done|by apply List.Forall_forall|done|done|]. apply List.Forall_forall. intros x Hx. apply (check_divisor_ok N a); [done|by apply Hp|by apply Hq].
Qed.

Lemma check_certs_ok l : forall known, Forall prime known -> check_certs known l = true -> Forall (fun c => prime c.1.1) l.
Proof.
  induction l as [|[[N a] qs] l IH]; intros known Hk; cbn [check_certs fst]; [by intros _; apply List.Forall_nil|]. rewrite andb_true_iff. intros [Hc Hl].
  pose proof (check_cert_ok known N a qs Hk Hc). apply List.Forall_cons; [done|]. apply (IH (N :: known)); [by apply List.Forall_cons|done].
Qed.

Definition certs : list cert := [
  (3, 0, []); (5, 0, []); (7, 0, []); (43, 0, []); (197, 0, []); (313, 0, []); (337, 0, []); (919, 0, []); (1087, 0, []); (1511, 0, []);
  (3023, 2, [1511]); (3677, 2, [919]); (4349, 2, [1087]); (78283, 2, [4349]); (104471, 2, [337]); (155317, 3, [43; 7; 3]); (704251, 2, [313; 5]);
  (3969899, 2, [104471]); (191039911, 2, [155317]); (66417393611, 2, [3677; 197]); (1002328039319, 2, [3969899]); (11290956913871, 2, [66417393611]);
  (46076956964474543, 2, [704251; 78283]); (208150935158385979, 2, [191039911; 3023]); (2624747550333869278416773953, 2, [208150935158385979]);
  (774023187263532362759620327192479577272145303, 2, [46076956964474543; 11290956913871]);
  (835945042244614951780389953367877943453916927241, 2, [774023187263532362759620327192479577272145303]);
  (val SECP256r1_n, 2, [2624747550333869278416773953; 1002328039319]);
  (val SECP256r1_p, 2, [835945042244614951780389953367877943453916927241])].

Lemma certs_ok : Forall (fun c => prime c.1.1) certs.
Proof. apply (check_certs_ok certs []); [by apply List.Forall_nil|]. by vm_compute. Qed.

(** The order of the group and the size of the field. *)
Lemma prime_order : prime (val SECP256r1_n).
Proof. pose proof certs_ok as H. rewrite List.Forall_forall in H. apply (H (val SECP256r1_n, 2, [2624747550333869278416773953; 1002328039319])). do 27 apply in_cons. apply in_eq. Qed.

Lemma prime_field : prime (val SECP256r1_p).
Proof. pose proof certs_ok as H. rewrite List.Forall_forall in H. apply (H (val SECP256r1_p, 2, [835945042244614951780389953367877943453916927241])). do 28 apply in_cons. apply in_eq. Qed.
