(* ===== verification/P256Mont.v ===== *)
(** * P-256 field elements stand for residues: ring operations, powers, zero,
      and the conversions to and from Montgomery form *)
From Stdlib Require Import Znumtheory.
From S2P Require Import Prelude Words P256 P256Correct P256Euclid P256Field P256FieldCorrect P256MulCorrect Primes.

Abbreviation p := prime_p.
Abbreviation R257 := (2 ^ 257).

Lemma R_inverse : cong p (R257 * val kRInv) 1.
Proof. apply cong_mod; [done|]. by vm_compute. Qed.

Lemma R_cancel a b : cong p (R257 * a) (R257 * b) -> cong p a b.
Proof.
  intros H. assert (E : cong p (val kRInv * (R257 * a)) (val kRInv * (R257 * b))) by (by rewrite H).
  replace (val kRInv * (R257 * a)) with (R257 * val kRInv * a) in E by lia. replace (val kRInv * (R257 * b)) with (R257 * val kRInv * b) in E by lia.
  rewrite R_inverse in E. by rewrite !Z.mul_1_l in E.
Qed.

(** ** Residues *)

(** The limbs [a] are in bounds and stand for [x] modulo p. *)
Definition repr (a : felem) (x : Z) : Prop := felem_ok a /\ cong p (fval true a) (x * R257).

#[export] Instance repr_cong a : Proper (cong p ==> iff) (repr a).
Proof. intros x y H. unfold repr. by rewrite H. Qed.

Lemma repr_eq a x y : repr a x -> x = y -> repr a y.
Proof. by intros H <-. Qed.

Lemma repr_sum a b x y : repr a x -> repr b y -> repr (felem_sum a b) (x + y).
Proof. intros [Ha Hx] [Hb Hy]. destruct (felem_sum_ok a b Ha Hb) as [H1 H2]. split; [done|]. rewrite H2, Hx, Hy. exists 0. lia. Qed.

Lemma repr_diff a b x y : repr a x -> repr b y -> repr (felem_diff a b) (x - y).
Proof. intros [Ha Hx] [Hb Hy]. destruct (felem_diff_ok a b Ha Hb) as [H1 H2]. split; [done|]. rewrite H2, Hx, Hy. exists 0. lia. Qed.

Lemma repr_mul a b x y : repr a x -> repr b y -> repr (felem_mul a b) (x * y).
Proof.
  intros [Ha Hx] [Hb Hy]. destruct (felem_mul_ok a b Ha Hb) as (H1 & H2 & _). split; [done|]. apply R_cancel. rewrite H2, Hx, Hy. exists 0. lia.
Qed.

Lemma repr_square a x : repr a x -> repr (felem_square a) (x * x).
Proof. intros [Ha Hx]. destruct (felem_square_ok a Ha) as [H1 H2]. split; [done|]. apply R_cancel. rewrite H2, Hx. exists 0. lia. Qed.

Lemma repr_3 a x : repr a x -> repr (felem_scalar_3 a) (3 * x).
Proof. intros [Ha Hx]. destruct (felem_scalar_3_ok a Ha) as [H1 H2]. split; [done|]. rewrite H2, Hx. exists 0. lia. Qed.

Lemma repr_4 a x : repr a x -> repr (felem_scalar_4 a) (4 * x).
Proof. intros [Ha Hx]. destruct (felem_scalar_4_ok a Ha) as [H1 H2]. split; [done|]. rewrite H2, Hx. exists 0. lia. Qed.

Lemma repr_8 a x : repr a x -> repr (felem_scalar_8 a) (8 * x).
Proof. intros [Ha Hx]. destruct (felem_scalar_8_ok a Ha) as [H1 H2]. split; [done|]. rewrite H2, Hx. exists 0. lia. Qed.

Lemma felem_okb a : (length a =? 9)%nat && forallb (fun i => (0 <=? limb a i) && (limb a i <? limb_max i)) (seq 0 9) && (limb a 8 <? 2 ^ 29) = true -> felem_ok a.
Proof.
  rewrite !andb_true_iff. intros [[Hl Hf] H8]. apply Nat.eqb_eq in Hl. change 9%nat with NLIMBS in Hl. apply Z.ltb_lt in H8. split; [done|]. split; [|done].
  rewrite forallb_forall in Hf. assert (H : forall i, (i < 9)%nat -> 0 <= limb a i < limb_max i).
  { intros i Hi. assert (Hin : In i (seq 0 9)) by (apply in_seq; lia). specialize (Hf i Hin). lia. }
  nine a Hl. cbn [below width negb]. change (29 + 1) with 30. change (28 + 1) with 29.
  pose proof (H 0%nat ltac:(lia)). pose proof (H 1%nat ltac:(lia)). pose proof (H 2%nat ltac:(lia)). pose proof (H 3%nat ltac:(lia)). pose proof (H 4%nat ltac:(lia)).
  pose proof (H 5%nat ltac:(lia)). pose proof (H 6%nat ltac:(lia)). pose proof (H 7%nat ltac:(lia)). pose proof (H 8%nat ltac:(lia)). cbn in *. split_and!; lia || done.
Qed.

Lemma repr_one : repr kOne 1.
Proof. split; [by apply felem_okb|]. apply cong_mod; [done|]. by vm_compute. Qed.

Lemma repr_zero : repr kZero 0.
Proof. split; [by apply felem_okb|]. by exists 0. Qed.

(** Hints for straight-line code: each call stands for its operation. *)
Create HintDb felem.
#[export] Hint Resolve repr_sum repr_diff repr_mul repr_square repr_3 repr_4 repr_8 repr_one repr_zero : felem.

(** ** Powers *)

#[local] Opaque felem_mul felem_square repr.

Lemma repr_squares n a x : repr a x -> repr (felem_squares n a) (x ^ 2 ^ Z.of_nat n).
Proof.
  intros H. induction n as [|n IH]; [by rewrite Z.pow_1_r|]. change (felem_squares (S n) a) with (felem_square (felem_squares n a)).
  eapply repr_eq; [by apply repr_square|]. rewrite Nat2Z.inj_succ, Z.pow_succ_r, <- Z.pow_twice_r by lia. done.
Qed.

(** The limbs [a] stand for the power [e] of [x]. *)
Definition repr_pow (x : Z) (a : felem) (e : Z) : Prop := 0 <= e /\ repr a (x ^ e).

Lemma repr_pow_squares n x a e g : repr_pow x a e -> e * 2 ^ Z.of_nat n = g -> repr_pow x (felem_squares n a) g.
Proof. intros [He H] <-. split; [nia|]. rewrite Z.pow_mul_r by lia. by apply repr_squares. Qed.

Lemma repr_pow_mul x a b e f g : repr_pow x a e -> repr_pow x b f -> e + f = g -> repr_pow x (felem_mul a b) g.
Proof. intros [He Ha] [Hf Hb] <-. split; [lia|]. rewrite Z.pow_add_r by done. by apply repr_mul. Qed.

Lemma repr_pow_step n x a b e f g : repr_pow x a e -> repr_pow x b f -> e * 2 ^ Z.of_nat n + f = g -> repr_pow x (felem_mul (felem_squares n a) b) g.
Proof. intros Ha Hb <-. eapply repr_pow_mul; [by eapply repr_pow_squares|done|done]. Qed.

Lemma repr_inv a x : repr a x -> repr (felem_inv a) (x ^ (p - 2)).
Proof.
  intros H0. assert (H : repr_pow x a 1) by (split; [done|by rewrite Z.pow_1_r]). unfold felem_inv. cbv zeta.
  assert (S1 : repr_pow x (felem_square a) 2) by (split; [done|]; eapply repr_eq; [by apply repr_square|ring]).
  pose proof (repr_pow_mul x _ _ _ _ 3 H S1 eq_refl) as E2. set (e2 := felem_mul a (felem_square a)) in *. clearbody e2.
  pose proof (repr_pow_step 2 x _ _ _ _ 15 E2 E2 eq_refl) as E4. set (e4 := felem_mul _ e2) in *. clearbody e4.
  pose proof (repr_pow_step 4 x _ _ _ _ (2 ^ 8 - 1) E4 E4 eq_refl) as E8. set (e8 := felem_mul _ e4) in *. clearbody e8.
  pose proof (repr_pow_step 8 x _ _ _ _ (2 ^ 16 - 1) E8 E8 eq_refl) as E16. set (e16 := felem_mul _ e8) in *. clearbody e16.
  pose proof (repr_pow_step 16 x _ _ _ _ (2 ^ 32 - 1) E16 E16 eq_refl) as E32. set (e32 := felem_mul _ e16) in *. clearbody e32.
  pose proof (repr_pow_squares 32 x _ _ (2 ^ 64 - 2 ^ 32) E32 eq_refl) as E64. set (e64 := felem_squares 32 e32) in *. clearbody e64.
  pose proof (repr_pow_squares 192 x _ _ (2 ^ 256 - 2 ^ 224 + 2 ^ 192) (repr_pow_mul x _ _ _ _ (2 ^ 64 - 2 ^ 32 + 1) E64 H eq_refl) eq_refl) as F.
  set (f := felem_squares 192 _) in *. clearbody f.
  pose proof (repr_pow_mul x _ _ _ _ (2 ^ 64 - 1) E64 E32 eq_refl) as G0. set (g0 := felem_mul e64 e32) in *. clearbody g0.
  pose proof (repr_pow_step 16 x _ _ _ _ (2 ^ 80 - 1) G0 E16 eq_refl) as G1. set (g1 := felem_mul _ e16) in *. clearbody g1.
  pose proof (repr_pow_step 8 x _ _ _ _ (2 ^ 88 - 1) G1 E8 eq_refl) as G2. set (g2 := felem_mul _ e8) in *. clearbody g2.
  pose proof (repr_pow_step 4 x _ _ _ _ (2 ^ 92 - 1) G2 E4 eq_refl) as G3. set (g3 := felem_mul _ e4) in *. clearbody g3.
  pose proof (repr_pow_step 2 x _ _ _ _ (2 ^ 94 - 1) G3 E2 eq_refl) as G4. set (g4 := felem_mul _ e2) in *. clearbody g4.
  pose proof (repr_pow_step 2 x _ _ _ _ (2 ^ 96 - 3) G4 H eq_refl) as G5. set (g5 := felem_mul _ a) in *. clearbody g5.
  apply (repr_pow_mul x _ _ _ _ (p - 2) G5 F eq_refl).
Qed.

(** ** Zero *)

(** Limbs below their width are determined by the value. *)
Lemma fval_inj a : forall w29 b, length a = length b -> below 0 w29 a -> below 0 w29 b -> fval w29 a = fval w29 b -> a = b.
Proof.
  induction a as [|x a IH]; intros w29 [|y b] Hl Ha Hb H; try discriminate; [done|]. cbn [below fval] in *. rewrite Z.add_0_r in *.
  destruct Ha as [Hx Ha], Hb as [Hy Hb]. assert (x = y /\ fval (negb w29) a = fval (negb w29) b) as [-> H'].
  { pose proof (width_pos w29). assert (fval (negb w29) a = fval (negb w29) b) by nia. nia. }
  f_equal. apply (IH (negb w29)); [by injection Hl|done..].
Qed.

Lemma felem_ok_limbs a : felem_ok a -> Forall (fun x => 0 <= x < 2 ^ 32 - 16) a.
Proof.
  intros (Hl & Hb & _). nine a Hl. cbn [below width negb] in Hb. change (29 + 1) with 30 in *. change (28 + 1) with 29 in *.
  repeat (apply List.Forall_cons; [lia|]). apply List.Forall_nil.
Qed.

(** One turn: either the carry is 0 and the limbs are minimal, or the next
    turn ends. *)
Lemma minimal_turn a o c : felem_ok a -> carry_pass true 0 a = (o, c) -> tight o /\ 0 <= c <= 1 /\ fval true o + 2 ^ 257 * c = fval true a.
Proof.
  intros Ha E. pose proof (felem_value_bound a Ha). destruct (carry_pass_ok a true 0 o c (felem_ok_limbs a Ha) ltac:(lia) E) as (Hlo & Hb & Hc & Hv).
  destruct Ha as (Hl & _). rewrite Hl in *. change (span true NLIMBS) with 257 in Hv. assert (T : tight o) by done. pose proof (tight_bound o T).
  split; [done|]. lia.
Qed.

Lemma minimal_loop_ok a fuel : felem_ok a -> (2 <= fuel)%nat -> exists b, minimal_loop fuel a = Done b /\ tight b /\ cong p (fval true b) (fval true a).
Proof.
  intros Ha Hf. destruct fuel as [|[|fuel]]; [lia..|]. cbn [minimal_loop]. destruct (carry_pass true 0 a) as [o c] eqn:E.
  destruct (minimal_turn a o c Ha E) as (To & Hc & Hv). destruct (felem_reduce_carry_ok o c To ltac:(lia)) as [Hok Hcong].
  destruct (Z.eqb_spec c 0) as [->|Hn].
  { exists o. rewrite reduce_carry_0 by done. split_and!; [done..|]. exists 0. lia. }
  assert (c = 1) as -> by lia. pose proof (reduce_carry_1 o To) as Hr. pose proof (felem_value_bound a Ha).
  destruct (carry_pass true 0 (felem_reduce_carry o 1)) as [o' c'] eqn:E'. destruct (minimal_turn _ o' c' Hok E') as (To' & Hc' & Hv').
  pose proof (tight_bound o' To'). change p with (2 ^ 256 - 2 ^ 224 + 2 ^ 192 + 2 ^ 96 - 1) in Hr. assert (c' = 0) as -> by lia.
  exists o'. rewrite reduce_carry_0 by done. split_and!; [done..|]. rewrite Z.mul_0_r, Z.add_0_r in Hv'. rewrite Hv', Hcong. exists 0. lia.
Qed.

Lemma tight_eq a b : tight a -> tight b -> a = b <-> fval true a = fval true b.
Proof. intros [Hla Ha] [Hlb Hb]. split; [by intros ->|]. intros H. apply (fval_inj a true b); congruence || done. Qed.

Lemma tightb a : (length a =? 9)%nat && forallb (fun i => (0 <=? limb a i) && (limb a i <? 2 ^ width (Nat.even i))) (seq 0 9) = true -> tight a.
Proof.
  rewrite andb_true_iff. intros [Hl Hf]. apply Nat.eqb_eq in Hl. change 9%nat with NLIMBS in Hl. split; [done|]. rewrite forallb_forall in Hf.
  assert (H : forall i, (i < 9)%nat -> 0 <= limb a i < 2 ^ width (Nat.even i)) by (intros i Hi; specialize (Hf i ltac:(apply in_seq; lia)); lia).
  nine a Hl. cbn [below width negb]. rewrite !Z.add_0_r.
  exact (conj (H 0%nat ltac:(lia)) (conj (H 1%nat ltac:(lia)) (conj (H 2%nat ltac:(lia)) (conj (H 3%nat ltac:(lia)) (conj (H 4%nat ltac:(lia)) (conj (H 5%nat ltac:(lia)) (conj (H 6%nat ltac:(lia)) (conj (H 7%nat ltac:(lia)) (conj (H 8%nat ltac:(lia)) I))))))))).
Qed.

Lemma multiples_of_p v : 0 <= v < 2 ^ 257 -> cong p v 0 <-> v = 0 \/ v = p \/ v = 2 * p.
Proof.
  intros Hv. change p with (2 ^ 256 - 2 ^ 224 + 2 ^ 192 + 2 ^ 96 - 1). split; [intros [k Hk]; lia|]. intros [->|[->| ->]]; [exists 0|exists 1|exists 2]; lia.
Qed.

Lemma felem_is_zero_vartime_ok a x fuel : repr a x -> (2 <= fuel)%nat -> exists b, felem_is_zero_vartime fuel a = Done b /\ (b = true <-> x mod p = 0).
Proof.
  intros [Ha Hx] Hf. destruct (minimal_loop_ok a fuel Ha Hf) as (t & Ht & Tt & Hc). unfold felem_is_zero_vartime. rewrite Ht. cbn [obind]. eexists. split; [done|].
  rewrite !orb_true_iff, !bool_decide_eq_true, (tight_eq t kZero), (tight_eq t kP), (tight_eq t k2P) by (done || by apply tightb).
  change (fval true kZero) with 0. change (fval true kP) with p. change (fval true k2P) with (2 * p).
  rewrite Init.Logic.or_assoc, <- multiples_of_p by (by apply tight_bound). rewrite Hc, Hx. split.
  - intros H. assert (C : cong p x 0) by (apply R_cancel; rewrite Z.mul_comm, H; exists 0; lia). destruct C as [k ->]. by apply Z.mod_mul.
  - intros H. exists (x / p * R257). pose proof (Z.div_mod x p ltac:(done)). nia.
Qed.

(** ** To Montgomery form *)

Lemma digit0_mod a : num a -> P256_DIGIT a 0 = val a mod 2 ^ 32.
Proof.
  intros [Hl Hu]. destruct a as [|x a]; [discriminate|]. apply Forall_cons_1 in Hu as [Hx _]. cbn [val]. unfold P256_DIGIT. cbn.
  unfold is_u32 in Hx. rewrite Z.mul_comm, Z.mod_add by lia. by rewrite Z.mod_small.
Qed.

Lemma mod_pow2_mod a n m : 0 <= n <= m -> (a mod 2 ^ m) mod 2 ^ n = a mod 2 ^ n.
Proof. intros H. rewrite <- Znumtheory.Zmod_div_mod; [done|lia..|]. exists (2 ^ (m - n)). rewrite <- Z.pow_add_r by lia. f_equal. lia. Qed.

Lemma split_limbs_ok n : forall w29 a, num a -> exists o, split_limbs n w29 a = Done o /\ length o = n /\ below 0 w29 o /\ fval w29 o = val a mod 2 ^ span w29 n.
Proof.
  induction n as [|n IH]; intros w29 a Ha; cbn [split_limbs].
  { exists []. split_and!; [done..|]. cbn [span fval]. by rewrite Z.mod_1_r. }
  pose proof (width_pos w29). destruct (p256_shr_ok a (width w29) Ha ltac:(lia)) as (b & -> & Hb & Hv). cbn [obind].
  destruct (IH (negb w29) b Hb) as (o & -> & Hlo & Ho & Hvo). cbn [obind]. eexists. split; [done|]. rewrite land_bottom, digit0_mod by done.
  rewrite mod_pow2_mod by lia. pose proof (Z.mod_pos_bound (val a) (2 ^ width w29) ltac:(lia)).
  split; [cbn; lia|]. split; [cbn [below]; rewrite Z.add_0_r; done|]. cbn [fval span]. pose proof (span_nonneg n (negb w29)).
  rewrite Z.pow_add_r, Hvo, Hv by lia. rewrite Z.rem_mul_r by lia. lia.
Qed.

Lemma fval_tight_ok o : tight o -> felem_ok o.
Proof.
  intros [Hl Hb]. split; [done|]. nine o Hl. cbn [below width negb limb nth] in *. rewrite !Z.add_0_r in Hb. change (29 + 1) with 30. change (28 + 1) with 29.
  split_and!; lia || done.
Qed.

Lemma to_montgomery_ok a : num a -> exists o, to_montgomery a = Done o /\ tight o /\ repr o (val a).
Proof.
  intros Ha. unfold to_montgomery. destruct (modmul_ok SECP256r1_p field_modulus a 0 kR) as (c & -> & Hc & Hv); [done|by apply u32b_num|done|]. cbn [obind].
  destruct (split_limbs_ok NLIMBS true c Hc) as (o & -> & Hl & Hb & Ho). exists o. split; [done|]. assert (T : tight o) by done. split; [done|].
  change (span true NLIMBS) with 257 in Ho. rewrite Z.mod_small in Ho by (pose proof (num_bound c Hc); unfold W in *; lia).
  split; [by apply fval_tight_ok|]. rewrite Ho, Hv. rewrite Z.mul_0_r, Z.add_0_r. change (val SECP256r1_p) with p. rewrite mod_cong by done.
  assert (E : cong p (val kR) R257) by (apply cong_mod; [done|]; by vm_compute). by rewrite E.
Qed.

(** ** From Montgomery form *)

Lemma join_limbs_cons w29 top r x l : num r -> is_u32 x -> 2 ^ width w29 * val r + x < W ->
  exists r', num r' /\ val r' = 2 ^ width w29 * val r + x /\ join_limbs w29 top r (x :: l) = join_limbs (negb w29) 0 r' l.
Proof.
  intros Hr Hx Hv. pose proof (width_pos w29). cbn [join_limbs]. destruct (p256_shl_ok r (width w29) Hr ltac:(lia)) as (t & b & -> & Hb & Ht & Ev). cbn [obind].
  destruct (p256_add_d_ok b x Hb Hx) as (k & c & -> & Hc & Hk & Ec). pose proof (num_bound b Hb). pose proof (num_bound c Hc). unfold W, is_u32 in *.
  assert (t = 0) as -> by lia. assert (k = 0) as -> by lia. exists c. split_and!; [done|lia|done].
Qed.

Lemma join_limbs_last top r x : num r -> 0 <= x < 2 ^ 30 -> 2 ^ 29 * val r + x < 2 ^ 257 + 2 ^ 229 -> x < 2 ^ 29 \/ 2 ^ 29 * val r + x < 2 ^ 257 ->
  exists t r', join_limbs true top r [x] = Done (t, r') /\ num r' /\ 0 <= t < 4 /\ val r' + W * t = 2 ^ 29 * val r + x.
Proof.
  intros Hr Hx Hv Hor. cbn [join_limbs width]. destruct (p256_shl_ok r 29 Hr ltac:(lia)) as (t & b & -> & Hb & Ht & Ev). cbn [obind].
  destruct (p256_add_d_ok b x Hb) as (k & c & -> & Hc & Hk & Ec); [unfold is_u32; lia|]. pose proof (num_bound b Hb). pose proof (num_bound c Hc). unfold W in *.
  assert (K : k = 0 \/ t = 0) by lia. assert (Hlor : s32 (Z.lor (u32 t) (u32 k)) = t + k).
  { assert (Ht2 : t = 0 \/ t = 1 \/ t = 2) by lia. destruct K as [->| ->]; [destruct Ht2 as [->|[->| ->]]; done|]. assert (k = 0 \/ k = 1) as [->| ->] by lia; done. }
  exists (t + k), c. rewrite Hlor. split_and!; [done..|lia|lia|lia].
Qed.

Lemma join_limbs_ok a : felem_ok a -> limb a 0 < 2 ^ 29 \/ fval true a < 2 ^ 257 -> exists t r,
  join_limbs false 0 (p256_add_d p256_init (limb a (NLIMBS - 1))).2 (tail (rev a)) = Done (t, r) /\ num r /\ 0 <= t < 4 /\ val r + W * t = fval true a.
Proof.
  intros Ha Hor. pose proof (felem_value_bound a Ha) as Hbound. destruct Ha as (Hl & Hb & H8). nine a Hl. cbn [below width negb limb nth fval NLIMBS Nat.sub] in *.
  change (29 + 1) with 30 in *. change (28 + 1) with 29 in *. cbn [rev app tail].
  destruct (p256_add_d_ok p256_init x8) as (k & r8 & -> & N8 & Hk & E8); [by apply u32b_num|unfold is_u32; lia|]. cbn [snd]. change (val p256_init) with 0 in E8. unfold W in E8. pose proof (num_bound r8 N8).
  assert (val r8 = x8) as V8 by lia.
  destruct (join_limbs_cons false 0 r8 x7 [x6; x5; x4; x3; x2; x1; x0] N8) as (r7 & N7 & V7 & ->); [unfold is_u32; lia|cbn [width]; unfold W; lia|]. cbn [negb width] in *.
  destruct (join_limbs_cons true 0 r7 x6 [x5; x4; x3; x2; x1; x0] N7) as (r6 & N6 & V6 & ->); [unfold is_u32; lia|cbn [width]; unfold W; lia|]. cbn [negb width] in *.
  destruct (join_limbs_cons false 0 r6 x5 [x4; x3; x2; x1; x0] N6) as (r5 & N5 & V5 & ->); [unfold is_u32; lia|cbn [width]; unfold W; lia|]. cbn [negb width] in *.
  destruct (join_limbs_cons true 0 r5 x4 [x3; x2; x1; x0] N5) as (r4 & N4 & V4 & ->); [unfold is_u32; lia|cbn [width]; unfold W; lia|]. cbn [negb width] in *.
  destruct (join_limbs_cons false 0 r4 x3 [x2; x1; x0] N4) as (r3 & N3 & V3 & ->); [unfold is_u32; lia|cbn [width]; unfold W; lia|]. cbn [negb width] in *.
  destruct (join_limbs_cons true 0 r3 x2 [x1; x0] N3) as (r2 & N2 & V2 & ->); [unfold is_u32; lia|cbn [width]; unfold W; lia|]. cbn [negb width] in *.
  destruct (join_limbs_cons false 0 r2 x1 [x0] N2) as (r1 & N1 & V1 & ->); [unfold is_u32; lia|cbn [width]; unfold W; lia|]. cbn [negb width] in *.
  destruct (join_limbs_last 0 r1 x0 N1) as (t & r & -> & N & Ht & V); [lia|lia|lia|]. exists t, r. split; [done|]. split; [done|]. lia.
Qed.

(** A value of 257 bits or more with a carry out of the lowest limb loses a bit in [top |= p256_add_d(...)]. *)
Lemma from_montgomery_ok a x : repr a x -> limb a 0 < 2 ^ 29 \/ fval true a < 2 ^ 257 -> exists r, from_montgomery a = Done r /\ num r /\ val r = x mod p.
Proof.
  intros [Ha Hx] Hor. unfold from_montgomery. destruct (join_limbs_ok a Ha Hor) as (t & r & -> & Hr & Ht & Hv). cbn [obind fst snd].
  rewrite u32_small by (unfold is_u32; lia). destruct (modmul_ok SECP256r1_p field_modulus kRInv t r) as (c & -> & Hc & E); [by apply u32b_num|done|unfold is_u32; lia|].
  exists c. split_and!; [done..|]. rewrite E, Hv. apply cong_mod; [done|]. rewrite Hx.
  replace (val kRInv * (x * R257)) with (R257 * val kRInv * x) by lia. rewrite R_inverse. by rewrite Z.mul_1_l.
Qed.

(** A product is below 2^257: the conversion is exact on it. *)
Lemma from_montgomery_product a b x : felem_ok a -> felem_ok b -> repr (felem_mul a b) x -> exists r, from_montgomery (felem_mul a b) = Done r /\ num r /\ val r = x mod p.
Proof. intros Ha Hb Hx. apply from_montgomery_ok; [done|]. right. apply (felem_mul_ok a b Ha Hb). Qed.

(** ** Inverses *)

Definition finv (x : Z) : Z := powmod p x (Z.to_pos (p - 2)).

Lemma finv_pow x : cong p (finv x) (x ^ (p - 2)).
Proof. unfold finv. rewrite powmod_ok by done. by rewrite Z2Pos.id by done. Qed.

Lemma finv_ok x : ~ cong p x 0 -> cong p (x * finv x) 1.
Proof.
  intros H. rewrite finv_pow. assert (E : x * x ^ (p - 2) = x ^ (p - 1)) by (rewrite <- Z.pow_succ_r by done; f_equal; lia). rewrite E. apply fermat_cong; [apply prime_field|done].
Qed.

#[export] Instance finv_cong : Proper (cong p ==> cong p) finv.
Proof. intros x y H. rewrite !finv_pow. by apply cong_pow_base. Qed.

Lemma finv_0 : finv 0 = 0.
Proof. by vm_compute. Qed.

Lemma repr_finv a x : repr a x -> repr (felem_inv a) (finv x).
Proof. intros H. apply repr_inv in H. revert H. apply repr_cong. apply finv_pow. Qed.

Lemma cong_0_mul a b : cong p (a * b) 0 -> cong p a 0 \/ cong p b 0.
Proof.
  intros [k Hk]. rewrite Z.add_0_l in Hk. destruct (prime_mult p prime_field a b) as [[q E]|[q E]]; [by exists k|left; exists q; lia|right; exists q; lia].
Qed.

Lemma cong_mul_cancel c a b : ~ cong p c 0 -> cong p (c * a) (c * b) -> cong p a b.
Proof.
  intros Hc H. destruct (cong_0_mul c (a - b)) as [E|[k E]]; [|done|exists k; lia]. rewrite Z.mul_sub_distr_l, H, Z.sub_diag. done.
Qed.

(** ** The theorems *)

(** C16. [felem_mul] is the Montgomery product: limbs in bounds (even limbs below 2^30,
    odd limbs and the last below 2^29) give limbs in bounds and a value below
    2^257 that, times 2^257, is the product modulo p; no 32- or 64-bit
    operation on the way loses a bit. *)
Theorem felem_mul_correct a b : felem_ok a -> felem_ok b ->
  felem_ok (felem_mul a b) /\ (2 ^ 257 * fval true (felem_mul a b)) mod p = (fval true a * fval true b) mod p /\ fval true (felem_mul a b) < 2 ^ 257.
Proof. intros Ha Hb. destruct (felem_mul_ok a b Ha Hb) as (H1 & H2 & H3). split; [done|]. split; [by apply cong_mod|done]. Qed.

(** Numbers survive the Montgomery form: [to_montgomery] and
    [from_montgomery] never fault on a 256-bit number, the limbs between them are in
    bounds, and the result is the number modulo p. *)
Theorem montgomery_roundtrip a : num a -> exists o r, to_montgomery a = Done o /\ felem_ok o /\ from_montgomery o = Done r /\ num r /\ val r = val a mod p.
Proof.
  intros Ha. destruct (to_montgomery_ok a Ha) as (o & Ho & T & R). pose proof (tight_bound o T). destruct (from_montgomery_ok o (val a) R) as (r & Hr & Nr & Vr); [by right; lia|].
  exists o, r. exact (conj Ho (conj (fval_tight_ok o T) (conj Hr (conj Nr Vr)))).
Qed.

(** [felem_inv] inverts: in Montgomery form, the product of a field element
    that is not zero modulo p and its inverse is one; the inverse of zero is
    zero.  (p is prime: Pocklington's criterion.) *)
Theorem felem_inv_correct a x : repr a x ->
  repr (felem_mul a (felem_inv a)) (if decide (x mod p = 0) then 0 else 1).
Proof.
  intros H. pose proof (repr_mul _ _ _ _ H (repr_finv _ _ H)) as Hm. destruct (decide (x mod p = 0)) as [E|E].
  - assert (C : cong p x 0) by (apply cong_mod; [done|]; by rewrite E). revert Hm. apply repr_cong. rewrite C. by rewrite Z.mul_0_l.
  - revert Hm. apply repr_cong. symmetry. apply finv_ok. intros C. apply E. apply cong_mod in C; [|done]. by rewrite C.
Qed.

(** [top |= p256_add_d(...)] loses the carry out of the lowest limb of 2^257,
    the limbs of one: the conversion returns a half of one. *)
Theorem from_montgomery_lost_carry :
  let a := [2 ^ 29; 2 ^ 28 - 1; 2 ^ 29 - 1; 2 ^ 28 - 1; 2 ^ 29 - 1; 2 ^ 28 - 1; 2 ^ 29 - 1; 2 ^ 28 - 1; 2 ^ 29 - 1] in
  repr a 1 /\ exists r, from_montgomery a = Done r /\ 2 * val r mod p = 1 /\ val r <> 1.
Proof.
  cbv zeta. split; [split; [by apply felem_okb|]; apply cong_mod; [done|]; by vm_compute|]. eexists. split; [by vm_compute|]. split; [by vm_compute|]. vm_compute. congruence.
Qed.

Lemma felem_mul_correct_witness : (2 ^ 257 * fval true (felem_mul kOne kP)) mod p = 0.
Proof. destruct (felem_mul_correct kOne kP ltac:(by apply felem_okb) ltac:(by apply felem_okb)) as (_ & H & _). rewrite H. by vm_compute. Defined.

Lemma montgomery_roundtrip_witness : exists o r, to_montgomery SECP256r1_n = Done o /\ from_montgomery o = Done r /\ val r = val SECP256r1_n.
Proof.
  destruct (montgomery_roundtrip SECP256r1_n ltac:(by apply u32b_num)) as (o & r & Ho & _ & Hr & _ & Hv). exists o, r. split; [exact Ho|]. split; [exact Hr|]. rewrite Hv. by vm_compute.
Defined.

Lemma felem_inv_correct_witness : repr (felem_mul kOne (felem_inv kOne)) 1.
Proof. exact (felem_inv_correct kOne 1 repr_one). Defined.
