(* ===== verification/P256Point.v ===== *)
(** * Points of the curve P-256 (libmincrypt p256_ec.c)

    A point in Jacobian coordinates is three field elements; the output
    parameters [x_out], [y_out] and [z_out] of the source are the point
    returned.  No routine reads an argument after it has written the output
    that may share its memory. *)
From S2P Require Import Prelude P256 P256Field.

(** ** Multiples of the base point *)

Definition kPrecomputed : list Z := [
  0x11522878; 0xe730d41; 0xdb60179; 0x4afe2ff; 0x12883add; 0xcaddd88; 0x119e7edc; 0xd4a6eab; 0x3120bee;
  0x1d2aac15; 0xf25357c; 0x19e45cdd; 0x5c721d0; 0x1992c5a5; 0xa237487; 0x154ba21; 0x14b10bb; 0xae3fe3;
  0xd41a576; 0x922fc51; 0x234994f; 0x60b60d3; 0x164586ae; 0xce95f18; 0x1fe49073; 0x3fa36cc; 0x5ebcd2c;
  0xb402f2f; 0x15c70bf; 0x1561925c; 0x5a26704; 0xda91e90; 0xcdc1c7f; 0x1ea12446; 0xe1ade1e; 0xec91f22;
  0x26f7778; 0x566847e; 0xa0bec9e; 0x234f453; 0x1a31f21a; 0xd85e75c; 0x56c7109; 0xa267a00; 0xb57c050;
  0x98fb57; 0xaa837cc; 0x60c0792; 0xcfa5e19; 0x61bab9e; 0x589e39b; 0xa324c5; 0x7d6dee7; 0x2976e4b;
  0x1fc4124a; 0xa8c244b; 0x1ce86762; 0xcd61c7e; 0x1831c8e0; 0x75774e1; 0x1d96a5a9; 0x843a649; 0xc3ab0fa;
  0x6e2e7d5; 0x7673a2a; 0x178b65e8; 0x4003e9b; 0x1a1f11c2; 0x7816ea; 0xf643e11; 0x58c43df; 0xf423fc2;
  0x19633ffa; 0x891f2b2; 0x123c231c; 0x46add8c; 0x54700dd; 0x59e2b17; 0x172db40f; 0x83e277d; 0xb0dd609;
  0xfd1da12; 0x35c6e52; 0x19ede20c; 0xd19e0c0; 0x97d0f40; 0xb015b19; 0x449e3f5; 0xe10c9e; 0x33ab581;
  0x56a67ab; 0x577734d; 0x1dddc062; 0xc57b10d; 0x149b39d; 0x26a9e7b; 0xc35df9f; 0x48764cd; 0x76dbcca;
  0xca4b366; 0xe9303ab; 0x1a7480e7; 0x57e9e81; 0x1e13eb50; 0xf466cf3; 0x6f16b20; 0x4ba3173; 0xc168c33;
  0x15cb5439; 0x6a38e11; 0x73658bd; 0xb29564f; 0x3f6dc5b; 0x53b97e; 0x1322c4c0; 0x65dd7ff; 0x3a1e4f6;
  0x14e614aa; 0x9246317; 0x1bc83aca; 0xad97eed; 0xd38ce4a; 0xf82b006; 0x341f077; 0xa6add89; 0x4894acd;
  0x9f162d5; 0xf8410ef; 0x1b266a56; 0xd7f223; 0x3e0cb92; 0xe39b672; 0x6a2901a; 0x69a8556; 0x7e7c0;
  0x9b7d8d3; 0x309a80; 0x1ad05f7f; 0xc2fb5dd; 0xcbfd41d; 0x9ceb638; 0x1051825c; 0xda0cf5b; 0x812e881;
  0x6f35669; 0x6a56f2c; 0x1df8d184; 0x345820; 0x1477d477; 0x1645db1; 0xbe80c51; 0xc22be3e; 0xe35e65a;
  0x1aeb7aa0; 0xc375315; 0xf67bc99; 0x7fdd7b9; 0x191fc1be; 0x61235d; 0x2c184e9; 0x1c5a839; 0x47a1e26;
  0xb7cb456; 0x93e225d; 0x14f3c6ed; 0xccc1ac9; 0x17fe37f3; 0x4988989; 0x1a90c502; 0x2f32042; 0xa17769b;
  0xafd8c7c; 0x8191c6e; 0x1dcdb237; 0x16200c0; 0x107b32a1; 0x66c08db; 0x10d06a02; 0x3fc93; 0x5620023;
  0x16722b27; 0x68b5c59; 0x270fcfc; 0xfad0ecc; 0xe5de1c2; 0xeab466b; 0x2fc513c; 0x407f75c; 0xbaab133;
  0x9705fe9; 0xb88b8e7; 0x734c993; 0x1e1ff8f; 0x19156970; 0xabd0f00; 0x10469ea7; 0x3293ac0; 0xcdc98aa;
  0x1d843fd; 0xe14bfe8; 0x15be825f; 0x8b5212; 0xeb3fb67; 0x81cbd29; 0xbc62f16; 0x2b6fcc7; 0xf5a4e29;
  0x13560b66; 0xc0b6ac2; 0x51ae690; 0xd41e271; 0xf3e9bd4; 0x1d70aab; 0x1029f72; 0x73e1c35; 0xee70fbc;
  0xad81baf; 0x9ecc49a; 0x86c741e; 0xfe6be30; 0x176752e7; 0x23d416; 0x1f83de85; 0x27de188; 0x66f70b8;
  0x181cd51f; 0x96b6e4c; 0x188f2335; 0xa5df759; 0x17a77eb6; 0xfeb0e73; 0x154ae914; 0x2f3ec51; 0x3826b59;
  0xb91f17d; 0x1c72949; 0x1362bf0a; 0xe23fddf; 0xa5614b0; 0xf7d8f; 0x79061; 0x823d9d2; 0x8213f39;
  0x1128ae0b; 0xd095d05; 0xb85c0c2; 0x1ecb2ef; 0x24ddc84; 0xe35e901; 0x18411a4a; 0xf5ddc3d; 0x3786689;
  0x52260e8; 0x5ae3564; 0x542b10d; 0x8d93a45; 0x19952aa4; 0x996cc41; 0x1051a729; 0x4be3499; 0x52b23aa;
  0x109f307e; 0x6f5b6bb; 0x1f84e1e7; 0x77a0cfa; 0x10c4df3f; 0x25a02ea; 0xb048035; 0xe31de66; 0xc6ecaa3;
  0x28ea335; 0x2886024; 0x1372f020; 0xf55d35; 0x15e4684c; 0xf2a9e17; 0x1a4a7529; 0xcb7beb1; 0xb2a78a1;
  0x1ab21f1f; 0x6361ccf; 0x6c9179d; 0xb135627; 0x1267b974; 0x4408bad; 0x1cbff658; 0xe3d6511; 0xc7d76f;
  0x1cc7a69; 0xe7ee31b; 0x54fab4f; 0x2b914f; 0x1ad27a30; 0xcd3579e; 0xc50124c; 0x50daa90; 0xb13f72;
  0xb06aa75; 0x70f5cc6; 0x1649e5aa; 0x84a5312; 0x329043c; 0x41c4011; 0x13d32411; 0xb04a838; 0xd760d2d;
  0x1713b532; 0xbaa0c03; 0x84022ab; 0x6bcf5c1; 0x2f45379; 0x18ae070; 0x18c9e11e; 0x20bca9a; 0x66f496b;
  0x3eef294; 0x67500d2; 0xd7f613c; 0x2dbbeb; 0xb741038; 0xe04133f; 0x1582968d; 0xbe985f7; 0x1acbc1a;
  0x1a6a939f; 0x33e50f6; 0xd665ed4; 0xb4b7bd6; 0x1e5a3799; 0x6b33847; 0x17fa56ff; 0x65ef930; 0x21dc4a;
  0x2b37659; 0x450fe17; 0xb357b65; 0xdf5efac; 0x15397bef; 0x9d35a7f; 0x112ac15f; 0x624e62e; 0xa90ae2f;
  0x107eecd2; 0x1f69bbe; 0x77d6bce; 0x5741394; 0x13c684fc; 0x950c910; 0x725522b; 0xdc78583; 0x40eeabb;
  0x1fde328a; 0xbd61d96; 0xd28c387; 0x9e77d89; 0x12550c40; 0x759cb7d; 0x367ef34; 0xae2a960; 0x91b8bdc;
  0x93462a9; 0xf469ef; 0xb2e9aef; 0xd2ca771; 0x54e1f42; 0x7aaa49; 0x6316abb; 0x2413c8e; 0x5425bf9;
  0x1bed3e3a; 0xf272274; 0x1f5e7326; 0x6416517; 0xea27072; 0x9cedea7; 0x6e7633; 0x7c91952; 0xd806dce;
  0x8e2a7e1; 0xe421e1a; 0x418c9e1; 0x1dbc890; 0x1b395c36; 0xa1dc175; 0x1dc4ef73; 0x8956f34; 0xe4b5cf2;
  0x1b0d3a18; 0x3194a36; 0x6c2641f; 0xe44124c; 0xa2f4eaa; 0xa8c25ba; 0xf927ed7; 0x627b614; 0x7371cca;
  0xba16694; 0x417bc03; 0x7c0a7e3; 0x9c35c19; 0x1168a205; 0x8b6b00d; 0x10e3edc9; 0x9c19bf2; 0x5882229;
  0x1b2b4162; 0xa5cef1a; 0x1543622b; 0x9bd433e; 0x364e04d; 0x7480792; 0x5c9b5b3; 0xe85ff25; 0x408ef57;
  0x1814cfa4; 0x121b41b; 0xd248a0f; 0x3b05222; 0x39bb16a; 0xc75966d; 0xa038113; 0xa4a1769; 0x11fbc6c;
  0x917e50e; 0xeec3da8; 0x169d6eac; 0x10c1699; 0xa416153; 0xf724912; 0x15cd60b7; 0x4acbad9; 0x5efc5fa;
  0xf150ed7; 0x122b51; 0x1104b40a; 0xcb7f442; 0xfbb28ff; 0x6ac53ca; 0x196142cc; 0x7bf0fa9; 0x957651;
  0x4e0f215; 0xed439f8; 0x3f46bd5; 0x5ace82f; 0x110916b6; 0x6db078; 0xffd7d57; 0xf2ecaac; 0xca86dec;
  0x15d6b2da; 0x965ecc9; 0x1c92b4c2; 0x1f3811; 0x1cb080f5; 0x2d8b804; 0x19d1c12d; 0xf20bd46; 0x1951fa7;
  0xa3656c3; 0x523a425; 0xfcd0692; 0xd44ddc8; 0x131f0f5b; 0xaf80e4a; 0xcd9fc74; 0x99bb618; 0x2db944c;
  0xa673090; 0x1c210e1; 0x178c8d23; 0x1474383; 0x10b8743d; 0x985a55b; 0x2e74779; 0x576138; 0x9587927;
  0x133130fa; 0xbe05516; 0x9f4d619; 0xbb62570; 0x99ec591; 0xd9468fe; 0x1d07782d; 0xfc72e0b; 0x701b298;
  0x1863863b; 0x85954b8; 0x121a0c36; 0x9e7fedf; 0xf64b429; 0x9b9d71e; 0x14e2f5d8; 0xf858d3a; 0x942eea8;
  0xda5b765; 0x6edafff; 0xa9d18cc; 0xc65e4ba; 0x1c747e86; 0xe4ea915; 0x1981d7a1; 0x8395659; 0x52ed4e2;
  0x87d43b7; 0x37ab11b; 0x19d292ce; 0xf8d4692; 0x18c3053f; 0x8863e13; 0x4c146c0; 0x6bdf55a; 0x4e4457d;
  0x16152289; 0xac78ec2; 0x1a59c5a2; 0x2028b97; 0x71c2d01; 0x295851f; 0x404747b; 0x878558d; 0x7d29aa4;
  0x13d8341f; 0x8daefd7; 0x139c972d; 0x6b7ea75; 0xd4a9dde; 0xff163d8; 0x81d55d7; 0xa5bef68; 0xb7b30d8;
  0xbe73d6f; 0xaa88141; 0xd976c81; 0x7e7a9cc; 0x18beb771; 0xd773cbd; 0x13f51951; 0x9d0c177; 0x1c49a78].

(** ** Group operations *)

Record point := mk_point { p_x : felem; p_y : felem; p_z : felem }.

Definition point_double (P : point) : point :=
  let '(mk_point x y z) := P in
  let delta := felem_square z in
  let gamma := felem_square y in
  let beta := felem_mul x gamma in
  let tmp := felem_sum x delta in
  let tmp2 := felem_diff x delta in
  let alpha := felem_mul tmp tmp2 in
  let alpha := felem_scalar_3 alpha in
  let tmp := felem_sum y z in
  let tmp := felem_square tmp in
  let tmp := felem_diff tmp gamma in
  let z_out := felem_diff tmp delta in
  let beta := felem_scalar_4 beta in
  let x_out := felem_square alpha in
  let x_out := felem_diff x_out beta in
  let x_out := felem_diff x_out beta in
  let tmp := felem_diff beta x_out in
  let tmp := felem_mul alpha tmp in
  let tmp2 := felem_square gamma in
  let tmp2 := felem_scalar_8 tmp2 in
  let y_out := felem_diff tmp tmp2 in
  mk_point x_out y_out z_out.

Definition point_add_mixed (P : point) (x2 y2 : felem) : point :=
  let '(mk_point x1 y1 z1) := P in
  let z1z1 := felem_square z1 in
  let tmp := felem_sum z1 z1 in
  let u2 := felem_mul x2 z1z1 in
  let z1z1z1 := felem_mul z1 z1z1 in
  let s2 := felem_mul y2 z1z1z1 in
  let h := felem_diff u2 x1 in
  let i := felem_sum h h in
  let i := felem_square i in
  let j := felem_mul h i in
  let r := felem_diff s2 y1 in
  let r := felem_sum r r in
  let v := felem_mul x1 i in
  let z_out := felem_mul tmp h in
  let rr := felem_square r in
  let x_out := felem_diff rr j in
  let x_out := felem_diff x_out v in
  let x_out := felem_diff x_out v in
  let tmp := felem_diff v x_out in
  let y_out := felem_mul tmp r in
  let tmp := felem_mul y1 j in
  let y_out := felem_diff y_out tmp in
  let y_out := felem_diff y_out tmp in
  mk_point x_out y_out z_out.

Definition point_add (P1 P2 : point) : point :=
  let '(mk_point x1 y1 z1) := P1 in
  let '(mk_point x2 y2 z2) := P2 in
  let z1z1 := felem_square z1 in
  let z2z2 := felem_square z2 in
  let u1 := felem_mul x1 z2z2 in
  let tmp := felem_sum z1 z2 in
  let tmp := felem_square tmp in
  let tmp := felem_diff tmp z1z1 in
  let tmp := felem_diff tmp z2z2 in
  let z2z2z2 := felem_mul z2 z2z2 in
  let s1 := felem_mul y1 z2z2z2 in
  let u2 := felem_mul x2 z1z1 in
  let z1z1z1 := felem_mul z1 z1z1 in
  let s2 := felem_mul y2 z1z1z1 in
  let h := felem_diff u2 u1 in
  let i := felem_sum h h in
  let i := felem_square i in
  let j := felem_mul h i in
  let r := felem_diff s2 s1 in
  let r := felem_sum r r in
  let v := felem_mul u1 i in
  let z_out := felem_mul tmp h in
  let rr := felem_square r in
  let x_out := felem_diff rr j in
  let x_out := felem_diff x_out v in
  let x_out := felem_diff x_out v in
  let tmp := felem_diff v x_out in
  let y_out := felem_mul tmp r in
  let tmp := felem_mul s1 j in
  let y_out := felem_diff y_out tmp in
  let y_out := felem_diff y_out tmp in
  mk_point x_out y_out z_out.

Definition point_add_or_double_vartime (fuel : nat) (P1 P2 : point) : outcome point :=
  let '(mk_point x1 y1 z1) := P1 in
  let '(mk_point x2 y2 z2) := P2 in
  let z1z1 := felem_square z1 in
  let z2z2 := felem_square z2 in
  let u1 := felem_mul x1 z2z2 in
  let tmp := felem_sum z1 z2 in
  let tmp := felem_square tmp in
  let tmp := felem_diff tmp z1z1 in
  let tmp := felem_diff tmp z2z2 in
  let z2z2z2 := felem_mul z2 z2z2 in
  let s1 := felem_mul y1 z2z2z2 in
  let u2 := felem_mul x2 z1z1 in
  let z1z1z1 := felem_mul z1 z1z1 in
  let s2 := felem_mul y2 z1z1z1 in
  let h := felem_diff u2 u1 in
  let! x_equal := felem_is_zero_vartime fuel h in
  let i := felem_sum h h in
  let i := felem_square i in
  let j := felem_mul h i in
  let r := felem_diff s2 s1 in
  let! y_equal := felem_is_zero_vartime fuel r in
  if x_equal && y_equal then Done (point_double P1) else
  let r := felem_sum r r in
  let v := felem_mul u1 i in
  let z_out := felem_mul tmp h in
  let rr := felem_square r in
  let x_out := felem_diff rr j in
  let x_out := felem_diff x_out v in
  let x_out := felem_diff x_out v in
  let tmp := felem_diff v x_out in
  let y_out := felem_mul tmp r in
  let tmp := felem_mul s1 j in
  let y_out := felem_diff y_out tmp in
  let y_out := felem_diff y_out tmp in
  Done (mk_point x_out y_out z_out).

Definition point_to_affine (P : point) : felem * felem :=
  let '(mk_point nx ny nz) := P in
  let z_inv := felem_inv nz in
  let z_inv_sq := felem_square z_inv in
  let x_out := felem_mul nx z_inv_sq in
  let z_inv := felem_mul z_inv z_inv_sq in
  let y_out := felem_mul ny z_inv in
  (x_out, y_out).

(** ** Selections in constant time *)

Definition copy_conditional (out inp : felem) (mask : Z) : felem :=
  zip_with (fun o i => Z.lxor o (Z.land mask (Z.lxor i o))) out inp.

(** The mask of the table entry [i]: all ones if it is the one at [index]. *)
Definition select_mask (i index : Z) : Z :=
  let mask := Z.lxor i index in
  let mask := Z.lor mask (Z.shiftr mask 2) in
  let mask := Z.lor mask (Z.shiftr mask 1) in
  let mask := Z.land mask 1 in
  u32 (mask - 1).

(** [for (j = 0; j < NLIMBS; j++, table++) out[j] |= *table & mask]: the limbs
    and the rest of the table. *)
Fixpoint select_limbs (mask : Z) (out : felem) (table : list Z) : outcome (felem * list Z) :=
  match out, table with
  | [], _ => Done ([], table)
  | _ :: _, [] => Crash OutOfBounds
  | o :: out, t :: table =>
      let! r := select_limbs mask out table in
      Done (Z.lor o (Z.land t mask) :: r.1, r.2)
  end.

(** [for (; i < 16; i++)], [n] turns left. *)
Fixpoint select_affine_loop (n : nat) (i : Z) (out_x out_y : felem) (table : list Z) (index : Z) : outcome (felem * felem) :=
  match n with
  | O => Done (out_x, out_y)
  | S n =>
      let mask := select_mask i index in
      let! r := select_limbs mask out_x table in
      let '(out_x, table) := r in
      let! r := select_limbs mask out_y table in
      let '(out_y, table) := r in
      select_affine_loop n (i + 1) out_x out_y table index
  end.

Definition select_affine_point (table : list Z) (index : Z) : outcome (felem * felem) :=
  select_affine_loop 15 1 kZero kZero table index.

Fixpoint select_jacobian_loop (n : nat) (i : Z) (out : point) (table : list Z) (index : Z) : outcome point :=
  match n with
  | O => Done out
  | S n =>
      let mask := select_mask i index in
      let! r := select_limbs mask (p_x out) table in
      let '(out_x, table) := r in
      let! r := select_limbs mask (p_y out) table in
      let '(out_y, table) := r in
      let! r := select_limbs mask (p_z out) table in
      let '(out_z, table) := r in
      select_jacobian_loop n (i + 1) (mk_point out_x out_y out_z) table index
  end.

Definition select_jacobian_point (table : list Z) (index : Z) : outcome point :=
  select_jacobian_loop 15 1 (mk_point kZero kZero kZero) (drop (3 * NLIMBS) table) index.

(** ** Scalar multiplication *)

Definition lnot32 (x : Z) : Z := u32 (Z.lnot x).

(** [{nx,ny,nz}] and [n_is_infinity_mask]. *)
Record accumulator := mk_accumulator { a_n : point; a_inf : Z }.

Definition infinite : accumulator := mk_accumulator (mk_point kZero kZero kZero) (u32 (-1)).

(** The conditional copies that end a turn: [p] is the point of the table,
    [t] the sum. *)
Definition accumulate (n : accumulator) (p t : point) (index : Z) : accumulator :=
  let '(mk_accumulator (mk_point nx ny nz) n_is_infinity_mask) := n in
  let nx := copy_conditional nx (p_x p) n_is_infinity_mask in
  let ny := copy_conditional ny (p_y p) n_is_infinity_mask in
  let nz := copy_conditional nz (p_z p) n_is_infinity_mask in
  let p_is_noninfinite_mask := NON_ZERO_TO_ALL_ONES index in
  let mask := Z.land p_is_noninfinite_mask (lnot32 n_is_infinity_mask) in
  let nx := copy_conditional nx (p_x t) mask in
  let ny := copy_conditional ny (p_y t) mask in
  let nz := copy_conditional nz (p_z t) mask in
  mk_accumulator (mk_point nx ny nz) (Z.land n_is_infinity_mask (lnot32 p_is_noninfinite_mask)).

Definition double_acc (n : accumulator) : accumulator := mk_accumulator (point_double (a_n n)) (a_inf n).

Definition base_index (scalar : p256_int) (i j : Z) : Z :=
  let bit0 := p256_get_bit scalar (31 - i + j) in
  let bit1 := p256_get_bit scalar (95 - i + j) in
  let bit2 := p256_get_bit scalar (159 - i + j) in
  let bit3 := p256_get_bit scalar (223 - i + j) in
  Z.lor (Z.lor (Z.lor bit0 (Z.shiftl bit1 1)) (Z.shiftl bit2 2)) (Z.shiftl bit3 3).

(** The body of the inner loop. *)
Definition base_turn (scalar : p256_int) (i j : Z) (table_offset : nat) (n : accumulator) : outcome accumulator :=
  let index := base_index scalar i j in
  let! p := select_affine_point (drop table_offset kPrecomputed) index in
  let t := point_add_mixed (a_n n) p.1 p.2 in
  Done (accumulate n (mk_point p.1 p.2 kOne) t index).

(** [for (; i < 32; i++)], [k] turns left. *)
Fixpoint base_loop (k : nat) (i : Z) (scalar : p256_int) (n : accumulator) : outcome accumulator :=
  match k with
  | O => Done n
  | S k =>
      let n := if i =? 0 then n else double_acc n in
      let! n := base_turn scalar i 0 0 n in
      let! n := base_turn scalar i 32 (30 * NLIMBS) n in
      base_loop k (i + 1) scalar n
  end.

Definition scalar_base_mult (scalar : p256_int) : outcome point :=
  let! n := base_loop 32 0 scalar infinite in Done (a_n n).

(** [precomp[i]], and the entries as one array of limbs. *)
Definition entry (precomp : list point) (i : nat) : outcome point :=
  match precomp !! i with Some P => Done P | None => Crash OutOfBounds end.

Definition limbs_of_entry (P : point) : list Z := p_x P ++ p_y P ++ p_z P.
Definition precomp_limbs (precomp : list point) : list Z := concat (limbs_of_entry <$> precomp).

(** [for (; i < 16; i += 2)], [k] turns left: the entries [i] and [i + 1]. *)
Fixpoint precomp_loop (k i : nat) (x y : felem) (precomp : list point) : outcome (list point) :=
  match k with
  | O => Done precomp
  | S k =>
      let! half := entry precomp (i / 2) in
      let P := point_double half in
      let Q := point_add_mixed P x y in
      precomp_loop k (i + 2) x y (precomp ++ [P; Q])
  end.

Definition mult_index (scalar : p256_int) (i : Z) : Z :=
  Z.lor (Z.lor (Z.lor (Z.shiftl (p256_get_bit scalar (255 - i - 0)) 3) (Z.shiftl (p256_get_bit scalar (255 - i - 1)) 2))
    (Z.shiftl (p256_get_bit scalar (255 - i - 2)) 1)) (p256_get_bit scalar (255 - i - 3)).

(** [for (; i < 256; i += 4)], [k] turns left. *)
Fixpoint mult_loop (k : nat) (i : Z) (precomp : list point) (scalar : p256_int) (n : accumulator) : outcome accumulator :=
  match k with
  | O => Done n
  | S k =>
      let n := if i =? 0 then n else double_acc (double_acc (double_acc (double_acc n))) in
      let index := mult_index scalar i in
      let! p := select_jacobian_point (precomp_limbs precomp) index in
      let t := point_add (a_n n) p in
      mult_loop k (i + 4) precomp scalar (accumulate n p t index)
  end.

Definition scalar_mult (x y : felem) (scalar : p256_int) : outcome point :=
  let! precomp := precomp_loop 7 2 x y [mk_point kZero kZero kZero; mk_point x y kOne] in
  let! n := mult_loop 64 0 precomp scalar infinite in
  Done (a_n n).

(** ** Affine results *)

Definition affine_out (P : point) : outcome (p256_int * p256_int) :=
  let '(px, py) := point_to_affine P in
  let! out_x := from_montgomery px in
  let! out_y := from_montgomery py in
  Done (out_x, out_y).

Definition p256_base_point_mul (n : p256_int) : outcome (p256_int * p256_int) :=
  let! P := scalar_base_mult n in affine_out P.

Definition p256_points_mul_vartime (fuel : nat) (n1 n2 in_x in_y : p256_int) : outcome (p256_int * p256_int) :=
  if negb (p256_is_zero n1 =? 0) && negb (p256_is_zero n2 =? 0) then Done (p256_clear, p256_clear) else
  let! px := to_montgomery in_x in
  let! py := to_montgomery in_y in
  let! P1 := scalar_base_mult n1 in
  let! P2 := scalar_mult px py n2 in
  let! P1 := if negb (p256_is_zero n2 =? 0) then Done P1
    else if negb (p256_is_zero n1 =? 0) then Done P2
    else point_add_or_double_vartime fuel P1 P2 in
  affine_out P1.
