(* ===== verification/P256PointCorrect.v ===== *)
(** * P-256 points: the formulas add and double, the selections select *)
From Stdlib Require Import Znumtheory.
From S2P Require Import Prelude Words P256 P256Correct P256Euclid P256Field P256FieldCorrect P256MulCorrect Primes P256Mont P256Point.

(** ** Affine points *)

Abbreviation nonzero x := (~ cong p x 0).

Lemma nonzero_mul a b : nonzero a -> nonzero b -> nonzero (a * b).
Proof. intros Ha Hb H. by destruct (cong_0_mul a b H). Qed.

Lemma nonzero_2 : nonzero 2.
Proof. intros H. apply cong_mod in H; [|done]. by vm_compute in H. Qed.

Lemma nonzero_mod x : nonzero x <-> x mod p <> 0.
Proof. rewrite cong_mod by done. done. Qed.

#[export] Hint Resolve nonzero_mul nonzero_2 : felem.

(** A point of the curve, or the point at infinity. *)
Abbreviation ec := (option (Z * Z)).

(** The third point of the line with slope [l] through [(x1, y1)] and a point
    over [x2], reflected. *)
Definition chord (l x1 y1 x2 : Z) : Z * Z :=
  let x3 := (l * l - x1 - x2) mod p in (x3, (l * (x1 - x3) - y1) mod p).

(** The group law of the curve [y^2 = x^3 - 3x + b]. *)
Definition ec_add (A B : ec) : ec :=
  match A, B with
  | None, _ => B
  | _, None => A
  | Some (x1, y1), Some (x2, y2) =>
      if (x2 - x1) mod p =? 0 then
        if ((y2 - y1) mod p =? 0) && negb (y1 mod p =? 0)
        then Some (chord ((3 * (x1 * x1) - 3) * finv (2 * y1)) x1 y1 x1) else None
      else Some (chord ((y2 - y1) * finv (x2 - x1)) x1 y1 x2)
  end.

(** ** Jacobian coordinates *)

Definition point_ok (P : point) : Prop := felem_ok (p_x P) /\ felem_ok (p_y P) /\ felem_ok (p_z P).

(** [P] stands for the affine point [(x, y)]. *)
Definition jac (P : point) (x y : Z) : Prop :=
  exists c, nonzero c /\ repr (p_x P) (x * (c * c)) /\ repr (p_y P) (y * (c * c * c)) /\ repr (p_z P) c.

Definition stands_for (P : point) (A : ec) : Prop :=
  match A with Some (x, y) => jac P x y | None => point_ok P /\ repr (p_z P) 0 end.

Lemma jac_ok P x y : jac P x y -> point_ok P.
Proof. intros (c & _ & [Hx _] & [Hy _] & [Hz _]). done. Qed.

Lemma stands_for_ok P A : stands_for P A -> point_ok P.
Proof. destruct A as [[x y]|]; [apply jac_ok|by intros [H _]]. Qed.

#[export] Instance jac_cong P : Proper (cong p ==> cong p ==> iff) (jac P).
Proof.
  intros x x' Hx y y' Hy. unfold jac. split; intros (c & Hc & H1 & H2 & H3); exists c; (split; [done|]); (split; [|split; [|done]]).
  - revert H1. apply repr_cong. by rewrite Hx.
  - revert H2. apply repr_cong. by rewrite Hy.
  - revert H1. apply repr_cong. by rewrite Hx.
  - revert H2. apply repr_cong. by rewrite Hy.
Qed.

Lemma repr_from a x y : repr a x -> cong p x y -> repr a y.
Proof. intros H E. by rewrite <- E. Qed.

(** The points whose coordinates stand for the given numbers. *)
Definition coords (P : point) (X Y C : Z) : Prop := repr (p_x P) X /\ repr (p_y P) Y /\ repr (p_z P) C.

#[local] Opaque felem_mul felem_square felem_sum felem_diff felem_scalar_3 felem_scalar_4 felem_scalar_8 finv.

Lemma double_coords P X Y C al ga c3 : coords P X Y C -> cong p (3 * ((X + C * C) * (X - C * C))) al -> ga = Y * Y -> cong p ((Y + C) * (Y + C) - ga - C * C) c3 ->
  let be := 4 * (X * ga) in let x3 := al * al - be - be in coords (point_double P) x3 (al * (be - x3) - 8 * (ga * ga)) c3.
Proof.
  destruct P as [px py pz]. intros (Hx & Hy & Hz) Hal -> Hc3. cbn [p_x p_y p_z] in *. cbv zeta. unfold point_double. cbv zeta.
  pose proof (repr_square _ _ Hz) as Hdelta. set (delta := felem_square pz) in *.
  pose proof (repr_square _ _ Hy) as Hgamma. set (gamma := felem_square py) in *.
  pose proof (repr_from _ _ _ (repr_3 _ _ (repr_mul _ _ _ _ (repr_sum _ _ _ _ Hx Hdelta) (repr_diff _ _ _ _ Hx Hdelta))) Hal) as Halpha.
  set (alpha := felem_scalar_3 _) in *. pose proof (repr_4 _ _ (repr_mul _ _ _ _ Hx Hgamma)) as Hbeta. set (beta := felem_scalar_4 _) in *.
  pose proof (repr_diff _ _ _ _ (repr_diff _ _ _ _ (repr_square _ _ Halpha) Hbeta) Hbeta) as Hx3. set (x_out := felem_diff (felem_diff _ beta) beta) in *.
  split; [done|]. cbn [p_y p_z]. split; [auto with felem|]. eapply repr_from; [|exact Hc3]. auto with felem.
Qed.

(** What the three additions do with [u1], [s1], [tmp], [h] and half of [r]. *)
Definition add_tail (u1 s1 tmp h r : felem) : point :=
  let i := felem_square (felem_sum h h) in
  let j := felem_mul h i in
  let r := felem_sum r r in
  let v := felem_mul u1 i in
  let x_out := felem_diff (felem_diff (felem_diff (felem_square r) j) v) v in
  let y_out := felem_diff (felem_diff (felem_mul (felem_diff v x_out) r) (felem_mul s1 j)) (felem_mul s1 j) in
  mk_point x_out y_out (felem_mul tmp h).

Lemma add_tail_coords u1 s1 tmp h r U S T H D : repr u1 U -> repr s1 S -> repr tmp T -> repr h H -> repr r D ->
  let v := U * (4 * (H * H)) in let x3 := 4 * (D * D) - 4 * (H * H * H) - v - v in
  coords (add_tail u1 s1 tmp h r) x3 ((v - x3) * (2 * D) - 8 * (S * (H * H * H))) (T * H).
Proof.
  intros Hu Hs Ht Hh Hr. cbv zeta. unfold add_tail. cbv zeta.
  pose proof (repr_square _ _ (repr_sum _ _ _ _ Hh Hh)) as Hi. set (i := felem_square (felem_sum h h)) in *.
  pose proof (repr_mul _ _ _ _ Hh Hi) as Hj. set (j := felem_mul h i) in *.
  pose proof (repr_mul _ _ _ _ Hu Hi) as Hv. set (v := felem_mul u1 i) in *.
  pose proof (repr_sum _ _ _ _ Hr Hr) as Hr2. set (r2 := felem_sum r r) in *.
  assert (Hx : repr (felem_diff (felem_diff (felem_diff (felem_square r2) j) v) v) (4 * (D * D) - 4 * (H * H * H) - U * (4 * (H * H)) - U * (4 * (H * H)))).
  { eapply repr_eq; [eauto 10 with felem|ring]. }
  set (x_out := felem_diff _ v) in *. split; [done|]. cbn [p_y p_z]. split; [|by apply repr_mul]. eapply repr_eq; [eauto 10 with felem|ring].
Qed.

(** ** Doubling *)

Lemma chord_jac P l x1 y1 x2 : jac P (l * l - x1 - x2) (l * (x1 - (l * l - x1 - x2)) - y1) -> stands_for P (Some (chord l x1 y1 x2)).
Proof. intros H. unfold chord. cbn [stands_for]. rewrite (mod_cong p (l * _ - y1)) by done. rewrite (mod_cong p (l * l - x1 - x2)) by done. done. Qed.

Lemma coords_jac P X Y C x y : coords P X Y C -> nonzero C -> cong p X (x * (C * C)) -> cong p Y (y * (C * C * C)) -> jac P x y.
Proof. intros (Hx & Hy & Hz) Hc E1 E2. exists C. split; [done|]. split; [by apply (repr_from _ X)|]. split; [by apply (repr_from _ Y)|done]. Qed.

Lemma coords_infinite P X Y C : coords P X Y C -> cong p C 0 -> stands_for P None.
Proof. intros ([Hx _] & [Hy _] & Hz) E. pose proof (proj1 Hz). split; [done|]. by apply (repr_from _ C). Qed.

Lemma point_double_finite P x y l : jac P x y -> nonzero y -> cong p (l * (2 * y)) (3 * (x * x) - 3) -> jac (point_double P) (l * l - x - x) (l * (x - (l * l - x - x)) - y).
Proof.
  intros (c & Hc & HP) Hy Hl. set (c3 := 2 * y * (c * c * (c * c))). assert (Hc3 : nonzero c3) by (unfold c3; auto with felem).
  assert (Hal : cong p (3 * ((x * (c * c) + c * c) * (x * (c * c) - c * c))) (l * c3)).
  { unfold c3. replace (l * (2 * y * (c * c * (c * c)))) with (l * (2 * y) * (c * c * (c * c))) by ring. rewrite Hl. exists 0. ring. }
  pose proof (double_coords P _ _ _ _ _ c3 HP Hal eq_refl) as D. cbv zeta in D. apply (coords_jac _ _ _ _ _ _ (D ltac:(exists 0; unfold c3; ring)) Hc3).
  - exists 0. unfold c3. ring.
  - exists 0. unfold c3. ring.
Qed.

Lemma point_double_infinite P X Y C : coords P X Y C -> cong p (Y * C) 0 -> stands_for (point_double P) None.
Proof.
  intros HP H. pose proof (double_coords P X Y C _ _ 0 HP (reflexivity _) eq_refl) as D. cbv zeta in D. eapply coords_infinite; [apply D|done].
  replace ((Y + C) * (Y + C) - Y * Y - C * C) with (2 * (Y * C)) by ring. rewrite H. done.
Qed.

Lemma ok_coords P : point_ok P -> exists X Y, repr (p_x P) X /\ repr (p_y P) Y.
Proof.
  intros (Hx & Hy & _). assert (E : forall a, felem_ok a -> repr a (fval true a * val kRInv)).
  { intros a Ha. split; [done|]. replace (fval true a * val kRInv * R257) with (fval true a * (R257 * val kRInv)) by ring. by rewrite R_inverse, Z.mul_1_r. }
  eexists _, _. split; by apply E.
Qed.

Lemma stands_for_infinite P : stands_for P None -> exists X Y, coords P X Y 0.
Proof. intros [Hok Hz]. destruct (ok_coords P Hok) as (X & Y & Hx & Hy). by exists X, Y. Qed.

Lemma point_double_ok P A : stands_for P A -> stands_for (point_double P) (ec_add A A).
Proof.
  destruct A as [[x y]|].
  - cbn [ec_add]. rewrite !Z.sub_diag, !Zmod_0_l. cbn [Z.eqb andb]. intros HJ. destruct (Z.eqb_spec (y mod p) 0) as [E|E]; cbn [negb].
    + destruct HJ as (c & _ & HP). apply (point_double_infinite P _ _ _ HP). assert (cong p y 0) as -> by (apply cong_mod; [done|]; by rewrite E). exists 0. ring.
    + apply nonzero_mod in E. apply chord_jac. apply point_double_finite; [done..|]. pose proof (finv_ok (2 * y) ltac:(auto with felem)) as I.
      replace ((3 * (x * x) - 3) * finv (2 * y) * (2 * y)) with ((3 * (x * x) - 3) * (2 * y * finv (2 * y))) by ring. by rewrite I, Z.mul_1_r.
  - intros H. destruct (stands_for_infinite P H) as (X & Y & HP). apply (point_double_infinite P X Y 0 HP). by rewrite Z.mul_0_r.
Qed.

(** ** Addition *)

(** [h] and [r] stand for the differences of the coordinates, [tmp] for twice
    the product of [c1] and [c2]. *)
Section Tail.
Context (u1 s1 tmp h r : felem) (x1 y1 x2 y2 c : Z).
Hypothesis (Hu : repr u1 (x1 * (c * c))) (Hs : repr s1 (y1 * (c * c * c))) (Ht : repr tmp (2 * c)).
Hypothesis (Hh : repr h ((x2 - x1) * (c * c))) (Hr : repr r ((y2 - y1) * (c * c * c))) (Hc : nonzero c).

Lemma add_tail_finite l : nonzero (x2 - x1) -> cong p (l * (x2 - x1)) (y2 - y1) ->
  jac (add_tail u1 s1 tmp h r) (l * l - x1 - x2) (l * (x1 - (l * l - x1 - x2)) - y1).
Proof.
  intros Hx Hl. set (c3 := 2 * (x2 - x1) * (c * c * c)). assert (Hc3 : nonzero c3) by (unfold c3; auto with felem).
  assert (Hr' : repr r (l * (x2 - x1) * (c * c * c))) by (revert Hr; apply repr_cong; by rewrite Hl).
  pose proof (add_tail_coords _ _ _ _ _ _ _ _ _ _ Hu Hs Ht Hh Hr') as D. cbv zeta in D.
  assert (D' : forall X Y C, coords (add_tail u1 s1 tmp h r) X Y C -> C = c3 -> coords (add_tail u1 s1 tmp h r) X Y c3) by (by intros X Y C ? <-).
  apply (coords_jac _ _ _ _ _ _ (D' _ _ _ D ltac:(unfold c3; ring)) Hc3); exists 0; unfold c3; ring.
Qed.

Lemma add_tail_infinite : cong p (x2 - x1) 0 -> stands_for (add_tail u1 s1 tmp h r) None.
Proof.
  intros Hx. apply (coords_infinite _ _ _ _ (add_tail_coords _ _ _ _ _ _ _ _ _ _ Hu Hs Ht Hh Hr)). rewrite Hx. exists 0. ring.
Qed.

(** The sum of two different points. *)
Lemma add_tail_ok : ~ (cong p (x2 - x1) 0 /\ cong p (y2 - y1) 0) -> stands_for (add_tail u1 s1 tmp h r) (ec_add (Some (x1, y1)) (Some (x2, y2))).
Proof.
  intros Hne. cbn [ec_add]. destruct (Z.eqb_spec ((x2 - x1) mod p) 0) as [E|E].
  - assert (Cx : cong p (x2 - x1) 0) by (apply cong_mod; [done|]; by rewrite E). destruct (Z.eqb_spec ((y2 - y1) mod p) 0) as [E'|_]; [|by apply add_tail_infinite].
    exfalso. apply Hne. split; [done|]. apply cong_mod; [done|]. by rewrite E'.
  - apply nonzero_mod in E. apply chord_jac. apply add_tail_finite; [done|]. pose proof (finv_ok _ E) as I.
    replace ((y2 - y1) * finv (x2 - x1) * (x2 - x1)) with ((y2 - y1) * ((x2 - x1) * finv (x2 - x1))) by ring. by rewrite I, Z.mul_1_r.
Qed.
End Tail.

Definition same (x1 y1 x2 y2 : Z) : Prop := cong p (x2 - x1) 0 /\ cong p (y2 - y1) 0.

Lemma point_add_ok P Q x1 y1 x2 y2 : jac P x1 y1 -> jac Q x2 y2 -> ~ same x1 y1 x2 y2 -> stands_for (point_add P Q) (ec_add (Some (x1, y1)) (Some (x2, y2))).
Proof.
  destruct P as [px1 py1 pz1], Q as [px2 py2 pz2]. intros (c1 & Hc1 & Hx1 & Hy1 & Hz1) (c2 & Hc2 & Hx2 & Hy2 & Hz2) Hne. cbn [p_x p_y p_z] in *.
  apply (add_tail_ok (felem_mul px1 (felem_square pz2)) (felem_mul py1 (felem_mul pz2 (felem_square pz2)))
    (felem_diff (felem_diff (felem_square (felem_sum pz1 pz2)) (felem_square pz1)) (felem_square pz2))
    (felem_diff (felem_mul px2 (felem_square pz1)) (felem_mul px1 (felem_square pz2)))
    (felem_diff (felem_mul py2 (felem_mul pz1 (felem_square pz1))) (felem_mul py1 (felem_mul pz2 (felem_square pz2)))) x1 y1 x2 y2 (c1 * c2));
    [eapply repr_eq; [eauto 10 with felem|ring]..|auto with felem|done].
Qed.

Lemma point_add_mixed_ok P x2f y2f x1 y1 x2 y2 : jac P x1 y1 -> repr x2f x2 -> repr y2f y2 -> ~ same x1 y1 x2 y2 ->
  stands_for (point_add_mixed P x2f y2f) (ec_add (Some (x1, y1)) (Some (x2, y2))).
Proof.
  destruct P as [px1 py1 pz1]. intros (c1 & Hc1 & Hx1 & Hy1 & Hz1) Hx2 Hy2 Hne. cbn [p_x p_y p_z] in *.
  apply (add_tail_ok px1 py1 (felem_sum pz1 pz1) (felem_diff (felem_mul x2f (felem_square pz1)) px1)
    (felem_diff (felem_mul y2f (felem_mul pz1 (felem_square pz1))) py1) x1 y1 x2 y2 c1);
    [eapply repr_eq; [eauto 10 with felem|ring]..|auto with felem|done].
Qed.

Lemma repr_zero_iff a c d fuel : repr a (d * c) -> nonzero c -> (2 <= fuel)%nat -> exists b, felem_is_zero_vartime fuel a = Done b /\ (b = true <-> cong p d 0).
Proof.
  intros Ha Hc Hf. destruct (felem_is_zero_vartime_ok a _ fuel Ha Hf) as (b & Hb & Hiff). exists b. split; [done|]. rewrite Hiff. split.
  - intros E. destruct (cong_0_mul d c) as [?|?]; [|done..]. apply cong_mod; [done|]. by rewrite E.
  - intros E. assert (C : cong p (d * c) 0) by (by rewrite E, Z.mul_0_l). apply cong_mod in C; [|done]. by rewrite C, Zmod_0_l.
Qed.

Lemma point_add_or_double_ok fuel P Q x1 y1 x2 y2 : (2 <= fuel)%nat -> jac P x1 y1 -> jac Q x2 y2 ->
  exists R, point_add_or_double_vartime fuel P Q = Done R /\ stands_for R (ec_add (Some (x1, y1)) (Some (x2, y2))).
Proof.
  intros Hf HP HQ. pose proof (point_add_ok P Q x1 y1 x2 y2 HP HQ) as Hadd. pose proof (point_double_ok P (Some (x1, y1)) HP) as Hdbl.
  destruct P as [px1 py1 pz1], Q as [px2 py2 pz2]. destruct HP as (c1 & Hc1 & Hx1 & Hy1 & Hz1), HQ as (c2 & Hc2 & Hx2 & Hy2 & Hz2). cbn [p_x p_y p_z] in *.
  unfold point_add_or_double_vartime. cbv zeta.
  destruct (repr_zero_iff (felem_diff (felem_mul px2 (felem_square pz1)) (felem_mul px1 (felem_square pz2))) (c1 * c2 * (c1 * c2)) (x2 - x1) fuel) as (bx & -> & Hbx);
    [eapply repr_eq; [eauto 10 with felem|ring]|auto with felem|done|]. cbn [obind].
  destruct (repr_zero_iff (felem_diff (felem_mul py2 (felem_mul pz1 (felem_square pz1))) (felem_mul py1 (felem_mul pz2 (felem_square pz2)))) (c1 * c2 * (c1 * c2) * (c1 * c2)) (y2 - y1) fuel) as (by_ & -> & Hby);
    [eapply repr_eq; [eauto 10 with felem|ring]|auto with felem|done|]. cbn [obind].
  destruct (bx && by_) eqn:E.
  - apply andb_prop in E as [E1%Hbx E2%Hby]. eexists. split; [done|].
    apply cong_mod in E1, E2; [|done..]. rewrite Zmod_0_l in E1, E2. cbn [ec_add] in *. rewrite E1, E2. by rewrite !Z.sub_diag in Hdbl.
  - eexists. split; [done|]. apply Hadd. intros [S1%Hbx S2%Hby]. by rewrite S1, S2 in E.
Qed.

(** ** Affine coordinates *)

Definition affine_val (A : ec) : Z * Z := match A with Some (x, y) => (x mod p, y mod p) | None => (0, 0) end.

#[local] Opaque felem_inv.

Lemma point_to_affine_repr P A : stands_for P A -> let r := point_to_affine P in repr r.1 (affine_val A).1 /\ repr r.2 (affine_val A).2.
Proof.
  destruct P as [px py pz]. unfold point_to_affine. cbv zeta. cbn [fst snd]. destruct A as [[x y]|]; cbn [affine_val fst snd].
  - intros (c & Hc & Hx & Hy & Hz). cbn [p_x p_y p_z] in *. pose proof (repr_finv _ _ Hz) as Hi. pose proof (finv_ok c Hc) as I. set (zi := felem_inv pz) in *. set (ci := finv c) in *. split.
    + eapply repr_from; [exact (repr_mul _ _ _ _ Hx (repr_square _ _ Hi))|]. replace (x * (c * c) * (ci * ci)) with (x * ((c * ci) * (c * ci))) by ring. rewrite I, mod_cong by done. exists 0. ring.
    + eapply repr_from; [exact (repr_mul _ _ _ _ Hy (repr_mul _ _ _ _ Hi (repr_square _ _ Hi)))|].
      replace (y * (c * c * c) * (ci * (ci * ci))) with (y * ((c * ci) * (c * ci) * (c * ci))) by ring. rewrite I, mod_cong by done. exists 0. ring.
  - intros H. destruct (stands_for_infinite _ H) as (X & Y & Hx & Hy & Hz). cbn [p_x p_y p_z] in *. pose proof (repr_finv _ _ Hz) as Hi. rewrite finv_0 in Hi.
    split; [eapply repr_eq; [exact (repr_mul _ _ _ _ Hx (repr_square _ _ Hi))|ring]|eapply repr_eq; [exact (repr_mul _ _ _ _ Hy (repr_mul _ _ _ _ Hi (repr_square _ _ Hi)))|ring]].
Qed.

Lemma repr_ok a x : repr a x -> felem_ok a.
Proof. by intros [H _]. Qed.

Lemma affine_out_ok P A : stands_for P A -> exists x y, affine_out P = Done (x, y) /\ num x /\ num y /\ val x = (affine_val A).1 mod p /\ val y = (affine_val A).2 mod p.
Proof.
  intros H. pose proof (point_to_affine_repr P A H) as [Hx Hy]. pose proof (stands_for_ok P A H) as (Ox & Oy & Oz). destruct (ok_coords P (conj Ox (conj Oy Oz))) as (X & Y & RX & RY).
  assert (RZ : exists C, repr (p_z P) C) by (destruct A as [[x y]|]; [destruct H as (c & _ & _ & _ & ?); by exists c|destruct H as [_ ?]; by exists 0]). destruct RZ as [C RZ].
  destruct P as [px py pz]. cbn [p_x p_y p_z] in *. unfold affine_out, point_to_affine in *. cbv zeta in Hx, Hy |- *. cbn [fst snd] in Hx, Hy.
  pose proof (repr_finv _ _ RZ) as RI. set (zi := felem_inv pz) in *.
  destruct (from_montgomery_product px (felem_square zi) _ Ox (repr_ok _ _ (repr_square _ _ RI)) Hx) as (x & -> & Nx & Vx). cbn [obind].
  destruct (from_montgomery_product py (felem_mul zi (felem_square zi)) _ Oy (repr_ok _ _ (repr_mul _ _ _ _ RI (repr_square _ _ RI))) Hy) as (y & -> & Ny & Vy). cbn [obind].
  exists x, y. split; [reflexivity|]. exact (conj Nx (conj Ny (conj Vx Vy))).
Qed.

(** ** Selections *)

Lemma felem_u32 a : felem_ok a -> Forall is_u32 a.
Proof. intros H. eapply Forall_impl; [apply (felem_ok_limbs a H)|]. intros x Hx. unfold is_u32. cbn in Hx. lia. Qed.

Lemma lxor_u32 a b : is_u32 a -> is_u32 b -> is_u32 (Z.lxor a b).
Proof.
  intros Ha Hb. assert (E : Z.lxor a b = u32 (Z.lxor a b)); [|rewrite E; apply u32_range].
  unfold u32. apply Z.bits_inj'. intros n Hn. destruct (Z.lt_ge_cases n 32); [by rewrite Z.mod_pow2_bits_low by lia|].
  rewrite Z.mod_pow2_bits_high by lia. rewrite Z.lxor_spec, <- (u32_small a Ha), <- (u32_small b Hb). unfold u32. by rewrite !Z.mod_pow2_bits_high by lia.
Qed.

Lemma copy_conditional_all out inp : length out = length inp -> Forall is_u32 out -> Forall is_u32 inp -> copy_conditional out inp (u32 (-1)) = inp.
Proof.
  revert inp. induction out as [|o out IH]; intros [|i inp] Hl Ho Hi; try discriminate; [done|]. apply Forall_cons_1 in Ho as [Ho Hos], Hi as [Hi His].
  unfold copy_conditional in *. cbn [zip_with]. f_equal; [|apply IH; [by injection Hl|done..]].
  rewrite Z.land_comm, land_ones32, u32_small by (apply lxor_u32; done). rewrite (Z.lxor_comm i o), <- Z.lxor_assoc, Z.lxor_nilpotent, Z.lxor_0_l. done.
Qed.

Lemma copy_conditional_none out inp : length out = length inp -> copy_conditional out inp 0 = out.
Proof.
  revert inp. induction out as [|o out IH]; intros [|i inp] Hl; try discriminate; [done|]. unfold copy_conditional in *. cbn [zip_with].
  rewrite Z.land_0_l, Z.lxor_0_r. f_equal. apply IH. by injection Hl.
Qed.

(** ** The law stays on the curve *)

Abbreviation b_ := (val SECP256r1_b).

(** The curve's cubic less the square of the line with slope [l] through [(x1, y1)]. *)
Definition residue (l x1 y1 x : Z) : Z := x * x * x - 3 * x + b_ - (l * (x - x1) + y1) * (l * (x - x1) + y1).

Lemma curve_residue x y : on_curve x y <-> cong p (y * y) (x * x * x - 3 * x + b_).
Proof.
  unfold on_curve. rewrite <- (cong_mod p) by done. replace (y ^ 2) with (y * y) by ring. replace (x ^ 3 - 3 * x + b_) with (x * x * x - 3 * x + b_) by ring. done.
Qed.

Lemma chord_on_curve l x1 y1 x2 : cong p (residue l x1 y1 (l * l - x1 - x2)) 0 -> on_curve (chord l x1 y1 x2).1 (chord l x1 y1 x2).2.
Proof.
  intros H. apply curve_residue. unfold chord. cbn [fst snd]. rewrite !(mod_cong p (_ - y1)) by done. rewrite !(mod_cong p (l * l - x1 - x2)) by done. unfold residue in H. set (x3 := l * l - x1 - x2) in *.
  destruct H as [k Hk]. exists (- k). replace ((l * (x1 - x3) - y1) * (l * (x1 - x3) - y1)) with ((l * (x3 - x1) + y1) * (l * (x3 - x1) + y1)) by ring. lia.
Qed.

Lemma tangent_on_curve l x y : on_curve x y -> cong p (l * (2 * y)) (3 * (x * x) - 3) -> on_curve (chord l x y x).1 (chord l x y x).2.
Proof.
  intros H%curve_residue Hl. apply chord_on_curve. set (x3 := l * l - x - x).
  assert (E : residue l x y x3 = (x * x * x - 3 * x + b_ - y * y) + (x3 - x) * (3 * (x * x) - 3 - l * (2 * y))) by (unfold residue, x3; ring). rewrite E, H, Hl. exists 0. ring.
Qed.

Lemma secant_on_curve l x1 y1 x2 y2 : on_curve x1 y1 -> on_curve x2 y2 -> nonzero (x2 - x1) -> cong p (l * (x2 - x1)) (y2 - y1) -> on_curve (chord l x1 y1 x2).1 (chord l x1 y1 x2).2.
Proof.
  intros H1%curve_residue H2%curve_residue Hx Hl. apply chord_on_curve. set (x3 := l * l - x1 - x2). apply (cong_mul_cancel (x2 - x1)); [done|].
  assert (E : (x2 - x1) * residue l x1 y1 x3 = (x2 - x3) * (x1 * x1 * x1 - 3 * x1 + b_ - y1 * y1) + (x3 - x1) * (x2 * x2 * x2 - 3 * x2 + b_ - (l * (x2 - x1) + y1) * (l * (x2 - x1) + y1)))
    by (unfold residue, x3; ring). rewrite E, Hl. replace (y2 - y1 + y1) with y2 by ring. rewrite H1, H2. exists 0. ring.
Qed.

Definition on_curve_or_infinite (A : ec) : Prop := match A with Some (x, y) => on_curve x y | None => True end.

Lemma ec_add_on_curve A B : on_curve_or_infinite A -> on_curve_or_infinite B -> on_curve_or_infinite (ec_add A B).
Proof.
  destruct A as [[x1 y1]|], B as [[x2 y2]|]; cbn [ec_add on_curve_or_infinite]; [|done..]. intros H1 H2. destruct (Z.eqb_spec ((x2 - x1) mod p) 0) as [|Ex].
  - destruct (Z.eqb_spec ((y2 - y1) mod p) 0), (Z.eqb_spec (y1 mod p) 0) as [|Ey]; cbn [andb negb]; try done. apply nonzero_mod in Ey.
    set (l := _ * finv (2 * y1)). pose proof (tangent_on_curve l x1 y1 H1) as H. destruct (chord l x1 y1 x1). apply H. unfold l.
    pose proof (finv_ok (2 * y1) ltac:(auto with felem)) as I. set (f := finv (2 * y1)) in *. replace ((3 * (x1 * x1) - 3) * f * (2 * y1)) with ((3 * (x1 * x1) - 3) * (2 * y1 * f)) by ring. by rewrite I, Z.mul_1_r.
  - apply nonzero_mod in Ex. set (l := _ * finv _). pose proof (secant_on_curve l x1 y1 x2 y2 H1 H2 Ex) as H. destruct (chord l x1 y1 x2). apply H. unfold l.
    pose proof (finv_ok _ Ex) as I. set (f := finv _) in *. replace ((y2 - y1) * f * (x2 - x1)) with ((y2 - y1) * ((x2 - x1) * f)) by ring. by rewrite I, Z.mul_1_r.
Qed.

(** C15. [point_add_or_double_vartime] adds: for Jacobian coordinates of any two
    affine points, equal or different or opposite, it ends within two turns of its
    zero test and returns coordinates of their sum by the law of the curve, with z = 0 for the
    point at infinity; and the sum of points of the curve is on the curve. *)
Theorem point_add_or_double_vartime_correct fuel P Q x1 y1 x2 y2 : (2 <= fuel)%nat -> jac P x1 y1 -> jac Q x2 y2 ->
  let S := ec_add (Some (x1, y1)) (Some (x2, y2)) in
  (exists R, point_add_or_double_vartime fuel P Q = Done R /\ stands_for R S) /\
  (on_curve x1 y1 -> on_curve x2 y2 -> match S with Some (x, y) => on_curve x y | None => True end).
Proof.
  intros Hf HP HQ. cbv zeta. split; [by apply point_add_or_double_ok|]. exact (ec_add_on_curve (Some (x1, y1)) (Some (x2, y2))).
Qed.
