(* ===== verification/P256Schedule.v ===== *)
(** * The schedules of doublings and additions of the scalar multiplications

    [scalar_mult] and [scalar_base_mult] of libmincrypt, stripped of the points
    they work on: the same doublings and additions, at the same bits of the
    scalar, over any structure that can double and add.  A structure may refuse
    an operation.  In one where a doubling and an addition of different
    multiples of one element are its multiples, both schedules compute the
    multiple named by the scalar, and every operation they ask for is one of
    these: this is the argument of the comments of p256_ec.c that the
    incomplete formulas are enough for scalars below the order of the group. *)
From S2P Require Import Prelude Words P256 P256Correct P256Euclid P256Point.

(** ** Structures that double and add *)

Class adder (A : Type) := { zero : A; dbl : A -> option A; add : A -> A -> option A }.

(** [mul k] is the multiple [k] of one element. *)
Class multiples {A} `{adder A} (order : Z) (mul : Z -> A) : Prop := {
  mul_zero : mul 0 = zero;
  mul_dbl : forall a, 0 <= a -> 2 * a < order -> dbl (mul a) = Some (mul (2 * a));
  mul_add : forall a t, 0 <= a -> 0 < t -> a <> t -> a + t < order -> add (mul a) (mul t) = Some (mul (a + t)) }.

Section Schedules.
Context {A : Type} `{HA : adder A}.

Definition add_index (tab : Z -> A) (index : Z) (a : A) : option A := if index =? 0 then Some a else add a (tab index).

(** [scalar_base_mult]: two tables, for [j = 0] and [j = 32]. *)
Fixpoint comb_run (tab : Z -> Z -> A) (k : nat) (i : Z) (scalar : p256_int) (a : A) : option A :=
  match k with
  | O => Some a
  | S k =>
      a ← (if i =? 0 then Some a else dbl a);
      a ← add_index (tab 0) (base_index scalar i 0) a;
      a ← add_index (tab 32) (base_index scalar i 32) a;
      comb_run tab k (i + 1) scalar a
  end.

Definition comb (tab : Z -> Z -> A) (scalar : p256_int) : option A := comb_run tab 32 0 scalar zero.

(** [scalar_mult]: the table of the first 16 multiples, and a window of four
    bits. *)
Fixpoint table_run (k i : nat) (P : A) (tab : list A) : option (list A) :=
  match k with
  | O => Some tab
  | S k =>
      half ← tab !! (i / 2)%nat;
      d ← dbl half;
      s ← add d P;
      table_run k (i + 2) P (tab ++ [d; s])
  end.

Fixpoint window_run (tab : Z -> A) (k : nat) (i : Z) (scalar : p256_int) (a : A) : option A :=
  match k with
  | O => Some a
  | S k =>
      a ← (if i =? 0 then Some a else a ← dbl a; a ← dbl a; a ← dbl a; dbl a);
      a ← add_index tab (mult_index scalar i) a;
      window_run tab k (i + 4) scalar a
  end.

Definition window (P : A) (scalar : p256_int) : option A :=
  tab ← table_run 7 2 P [zero; P];
  window_run (fun index => nth (Z.to_nat index) tab zero) 64 0 scalar zero.
End Schedules.

(** ** Bits of the scalar *)

Lemma digit_of_val a k : num a -> (k < 8)%nat -> P256_DIGIT a k = (val a / 2 ^ (32 * Z.of_nat k)) mod 2 ^ 32.
Proof.
  intros [Hl Hu] _. unfold P256_DIGIT. clear Hl. revert k. induction Hu as [|x a Hx Hu IH]; intros k.
  - destruct k; cbn [nth val]; by rewrite Z.div_0_l, Zmod_0_l by lia.
  - unfold is_u32 in Hx. destruct k as [|k]; cbn [nth val].
    + change (2 ^ (32 * Z.of_nat 0)) with 1. rewrite Z.div_1_r, (Z.mul_comm (2 ^ 32)), Z.mod_add by lia. by rewrite Z.mod_small by lia.
    + rewrite IH. f_equal. replace (32 * Z.of_nat (S k)) with (32 + 32 * Z.of_nat k) by lia. rewrite Z.pow_add_r, <- Z.div_div by lia. f_equal.
      rewrite (Z.mul_comm (2 ^ 32)), Z.div_add, Z.div_small by lia. lia.
Qed.

Lemma get_bit_ok a bit : num a -> 0 <= bit < 256 -> p256_get_bit a bit = (val a / 2 ^ bit) mod 2.
Proof.
  intros Ha Hb. unfold p256_get_bit, P256_BITSPERDIGIT. rewrite Z.quot_div_nonneg by lia. change (32 - 1) with (Z.ones 5). rewrite Z.land_ones by lia. change (2 ^ 5) with 32.
  assert (0 <= bit / 32 < 8) by (split; [apply Z.div_pos|apply Z.div_lt_upper_bound]; lia).
  rewrite digit_of_val by (done || lia). rewrite Z2Nat.id by (apply Z.div_pos; lia). pose proof (Z.mod_pos_bound bit 32 ltac:(lia)).
  change 1 with (Z.ones 1). rewrite Z.land_ones by lia. change (2 ^ 1) with 2. change (Z.ones 1) with 1. rewrite Z.shiftr_div_pow2 by lia.
  pose proof (Z.div_mod bit 32 ltac:(lia)) as Hd. rewrite <- (Z.testbit_spec' (val a)) by lia. rewrite <- (Z.testbit_spec' (_ mod _)) by lia. f_equal.
  rewrite Z.mod_pow2_bits_low by lia. rewrite Z.div_pow2_bits by lia. f_equal. lia.
Qed.

Lemma four_bits b0 b1 b2 b3 : 0 <= b0 < 2 -> 0 <= b1 < 2 -> 0 <= b2 < 2 -> 0 <= b3 < 2 ->
  Z.lor (Z.lor (Z.lor b0 (Z.shiftl b1 1)) (Z.shiftl b2 2)) (Z.shiftl b3 3) = b0 + 2 * b1 + 4 * b2 + 8 * b3 /\
  Z.lor (Z.lor (Z.lor (Z.shiftl b3 3) (Z.shiftl b2 2)) (Z.shiftl b1 1)) b0 = b0 + 2 * b1 + 4 * b2 + 8 * b3.
Proof.
  intros H0 H1 H2 H3. assert (b0 = 0 \/ b0 = 1) as [->| ->] by lia; assert (b1 = 0 \/ b1 = 1) as [->| ->] by lia;
    assert (b2 = 0 \/ b2 = 1) as [->| ->] by lia; assert (b3 = 0 \/ b3 = 1) as [->| ->] by lia; done.
Qed.

Lemma div_pow2_succ v k : 0 <= k -> v / 2 ^ (k + 1) = v / 2 ^ k / 2.
Proof. intros Hk. rewrite Z.pow_add_r, Z.div_div by lia. done. Qed.

Lemma nibble x : x mod 2 + 2 * ((x / 2) mod 2) + 4 * ((x / 2 / 2) mod 2) + 8 * ((x / 2 / 2 / 2) mod 2) = x mod 16.
Proof.
  pose proof (Z.div_mod x 2 ltac:(lia)). pose proof (Z.div_mod (x / 2) 2 ltac:(lia)). pose proof (Z.div_mod (x / 2 / 2) 2 ltac:(lia)). pose proof (Z.div_mod (x / 2 / 2 / 2) 2 ltac:(lia)).
  pose proof (Z.mod_pos_bound x 2 ltac:(lia)). pose proof (Z.mod_pos_bound (x / 2) 2 ltac:(lia)). pose proof (Z.mod_pos_bound (x / 2 / 2) 2 ltac:(lia)). pose proof (Z.mod_pos_bound (x / 2 / 2 / 2) 2 ltac:(lia)).
  apply (Zmod_unique x 16 (x / 2 / 2 / 2 / 2)); lia.
Qed.

Lemma mult_index_ok scalar i : num scalar -> 0 <= i <= 252 -> mult_index scalar i = (val scalar / 2 ^ (252 - i)) mod 16.
Proof.
  intros Hs Hi. unfold mult_index. rewrite !get_bit_ok by (done || lia). set (v := val scalar). pose proof (Z.mod_pos_bound (v / 2 ^ (255 - i - 0)) 2 ltac:(lia)).
  pose proof (Z.mod_pos_bound (v / 2 ^ (255 - i - 1)) 2 ltac:(lia)). pose proof (Z.mod_pos_bound (v / 2 ^ (255 - i - 2)) 2 ltac:(lia)). pose proof (Z.mod_pos_bound (v / 2 ^ (255 - i - 3)) 2 ltac:(lia)).
  rewrite (proj2 (four_bits ((v / 2 ^ (255 - i - 3)) mod 2) ((v / 2 ^ (255 - i - 2)) mod 2) ((v / 2 ^ (255 - i - 1)) mod 2) ((v / 2 ^ (255 - i - 0)) mod 2) ltac:(done) ltac:(done) ltac:(done) ltac:(done))).
  replace (255 - i - 3) with (252 - i) by lia. replace (255 - i - 2) with (252 - i + 1) by lia. replace (255 - i - 1) with (252 - i + 1 + 1) by lia. replace (255 - i - 0) with (252 - i + 1 + 1 + 1) by lia.
  rewrite !div_pow2_succ by lia. apply nibble.
Qed.

(** ** The window *)

Section Multiples.
Context {A : Type} `{HA : adder A} (order : Z) (mul : Z -> A) `{HM : !multiples order mul}.

Lemma table_step k i tab : (1 <= i)%nat -> (2 * i + 2 * k <= 16)%nat -> 16 <= order -> tab = map (fun j => mul (Z.of_nat j)) (seq 0 (2 * i)) ->
  table_run k (2 * i) (mul 1) tab = Some (map (fun j => mul (Z.of_nat j)) (seq 0 (2 * i + 2 * k))).
Proof.
  revert i tab. induction k as [|k IH]; intros i tab Hi Hk Ho ->; cbn [table_run]; [by rewrite Nat.add_0_r|].
  replace (2 * i / 2)%nat with i by (rewrite Nat.mul_comm, Nat.div_mul; lia). rewrite list_lookup_fmap, lookup_seq_lt by lia. cbn [fmap option_fmap option_map mbind option_bind].
  rewrite mul_dbl by lia. cbn [mbind option_bind]. rewrite mul_add by lia. cbn [mbind option_bind].
  replace (2 * i + 2)%nat with (2 * (i + 1))%nat by lia. rewrite (IH (i + 1)%nat); [f_equal; f_equal; f_equal; lia|lia|lia|done|].
  replace (2 * (i + 1))%nat with (2 * i + 2)%nat by lia. rewrite seq_app, map_app. cbn [seq map]. do 3 f_equal; f_equal; lia.
Qed.

Lemma window_step tab k : forall i scalar, num scalar -> (forall t, 0 < t < 16 -> tab t = mul t) -> val scalar < order -> 4 * Z.of_nat k + i = 256 -> 0 <= i ->
  window_run tab k i scalar (mul (val scalar / 2 ^ (256 - i))) = Some (mul (val scalar)).
Proof.
  induction k as [|k IH]; intros i scalar Hs Htab Ho Hi Hi0; cbn [window_run].
  { replace (256 - i) with 0 by lia. by rewrite Z.div_1_r. }
  pose proof (num_bound scalar Hs) as Hv. set (v := val scalar) in *. set (q := v / 2 ^ (252 - i)). assert (Hq : 0 <= q <= v) by (unfold q; split; [apply Z.div_pos; lia|apply Z.div_le_upper_bound; nia]).
  assert (E : v / 2 ^ (256 - i) = q / 16) by (unfold q; replace (256 - i) with (252 - i + 4) by lia; by rewrite Z.pow_add_r, <- Z.div_div by lia). rewrite E.
  pose proof (Z.div_mod q 16 ltac:(lia)) as Hd. pose proof (Z.mod_pos_bound q 16 ltac:(lia)) as Hm. set (h := q / 16) in *.
  assert (Hdbl : (if i =? 0 then Some (mul h) else a ← dbl (mul h); a ← dbl a; a ← dbl a; dbl a) = Some (mul (16 * h))).
  { destruct (Z.eqb_spec i 0) as [->|].
    - assert (h = 0) as ->; [|done]. unfold h, q. rewrite Z.div_div by lia. apply Z.div_small. unfold W in Hv. lia.
    - repeat (rewrite mul_dbl by lia; cbn [mbind option_bind]). do 2 f_equal. lia. }
  rewrite Hdbl. cbn [mbind option_bind]. unfold add_index. rewrite mult_index_ok by (done || lia). fold v q.
  assert (Hadd : (if q mod 16 =? 0 then Some (mul (16 * h)) else add (mul (16 * h)) (tab (q mod 16))) = Some (mul q)).
  { destruct (Z.eqb_spec (q mod 16) 0); [do 2 f_equal; lia|]. rewrite Htab by lia. rewrite mul_add by lia. do 2 f_equal. lia. }
  rewrite Hadd. cbn [mbind option_bind]. replace q with (val scalar / 2 ^ (256 - (i + 4))) by (unfold q, v; do 2 f_equal; lia). apply IH; [done..|lia|lia].
Qed.

Lemma window_ok scalar : num scalar -> val scalar < order -> 16 <= order -> window (mul 1) scalar = Some (mul (val scalar)).
Proof.
  intros Hs Ho H16. unfold window. rewrite <- mul_zero. rewrite (table_step 7 1) by (done || lia). cbn [mbind option_bind]. change (2 * 1 + 2 * 7)%nat with 16%nat.
  pose proof (window_step (fun index => nth (Z.to_nat index) (map (fun j => mul (Z.of_nat j)) (seq 0 16)) (mul 0)) 64 0 scalar Hs) as H.
  change (256 - 0) with 256 in H. rewrite Z.div_small in H by (pose proof (num_bound scalar Hs); unfold W in *; lia). apply H; [|done..]. intros t Ht.
  rewrite (nth_indep _ (mul 0) (mul (Z.of_nat 0))) by (rewrite length_map, length_seq; lia). rewrite (map_nth (fun j => mul (Z.of_nat j)) (seq 0 16) 0%nat), seq_nth by lia. f_equal. lia.
Qed.

(** ** The comb *)

(** What the comments of [kPrecomputed] promise of the entry [index]. *)
Definition comb_weight (j index : Z) : Z :=
  2 ^ j * (index mod 2 + 2 ^ 64 * ((index / 2) mod 2) + 2 ^ 128 * ((index / 2 / 2) mod 2) + 2 ^ 192 * ((index / 2 / 2 / 2) mod 2)).

Lemma comb_weight_bits j b0 b1 b2 b3 : 0 <= b0 < 2 -> 0 <= b1 < 2 -> 0 <= b2 < 2 -> 0 <= b3 < 2 ->
  comb_weight j (b0 + 2 * b1 + 4 * b2 + 8 * b3) = 2 ^ j * (b0 + 2 ^ 64 * b1 + 2 ^ 128 * b2 + 2 ^ 192 * b3).
Proof.
  intros H0 H1 H2 H3. unfold comb_weight. assert (b0 = 0 \/ b0 = 1) as [->| ->] by lia; assert (b1 = 0 \/ b1 = 1) as [->| ->] by lia;
    assert (b2 = 0 \/ b2 = 1) as [->| ->] by lia; assert (b3 = 0 \/ b3 = 1) as [->| ->] by lia; done.
Qed.

Lemma get_bit_digit a b w : 0 <= b < 32 -> 0 <= w -> p256_get_bit a (b + 32 * w) = (P256_DIGIT a (Z.to_nat w) / 2 ^ b) mod 2.
Proof.
  intros Hb Hw. unfold p256_get_bit, P256_BITSPERDIGIT. rewrite Z.quot_div_nonneg by lia. change (32 - 1) with (Z.ones 5). rewrite Z.land_ones by lia. change (2 ^ 5) with 32.
  rewrite (Z.mul_comm 32), Z.div_add, Z.mod_add, Z.div_small, Z.mod_small by lia. rewrite Z.shiftr_div_pow2 by lia. change 1 with (Z.ones 1) at 1. by rewrite Z.land_ones by lia.
Qed.

(** The high [i] bits of every digit. *)
Definition high_bits (scalar : p256_int) (i : Z) : Z := val ((fun d => d / 2 ^ (32 - i)) <$> scalar).

(** A digit that is even meets a digit that is a bit. *)
Lemma word_split x y X Y : 0 <= x < 2 ^ 32 -> 0 <= y < 2 ^ 32 -> x + 2 ^ 32 * X = y + 2 ^ 32 * Y -> x = y /\ X = Y.
Proof. lia. Qed.

Ltac even_words E := do 8 (apply word_split in E as [? E]; [|lia..]); clear E.

Lemma comb_turn d0 d1 d2 d3 d4 d5 d6 d7 i : let scalar := [d0; d1; d2; d3; d4; d5; d6; d7] in num scalar -> 0 <= i < 32 ->
  let t0 := comb_weight 0 (base_index scalar i 0) in let t1 := comb_weight 32 (base_index scalar i 32) in let a := 2 * high_bits scalar i in
  high_bits scalar (i + 1) = a + t0 + t1 /\ 0 <= a /\ 0 <= t0 /\ 0 <= t1 /\ (a = t0 -> base_index scalar i 0 = 0) /\ (a + t0 = t1 -> base_index scalar i 32 = 0) /\
  (base_index scalar i 0 <> 0 -> 0 < t0) /\ (base_index scalar i 32 <> 0 -> 0 < t1).
Proof.
  cbv zeta. set (scalar := [d0; d1; d2; d3; d4; d5; d6; d7]). intros Hs Hi.
  assert (Hbit : forall w d, nth (Z.to_nat w) scalar 0 = d -> 0 <= w -> p256_get_bit scalar (31 - i + 32 * w) = (d / 2 ^ (31 - i)) mod 2).
  { intros w d <- Hw. by rewrite get_bit_digit by lia. }
  unfold base_index. change 31 with 31. replace (95 - i + 0) with (31 - i + 32 * 2) by lia. replace (159 - i + 0) with (31 - i + 32 * 4) by lia. replace (223 - i + 0) with (31 - i + 32 * 6) by lia.
  replace (31 - i + 0) with (31 - i + 32 * 0) by lia. replace (31 - i + 32) with (31 - i + 32 * 1) by lia. replace (95 - i + 32) with (31 - i + 32 * 3) by lia.
  replace (159 - i + 32) with (31 - i + 32 * 5) by lia. replace (223 - i + 32) with (31 - i + 32 * 7) by lia.
  rewrite (Hbit 0 d0), (Hbit 1 d1), (Hbit 2 d2), (Hbit 3 d3), (Hbit 4 d4), (Hbit 5 d5), (Hbit 6 d6), (Hbit 7 d7) by (done || lia).
  assert (Hsplit : forall d, is_u32 d -> exists h b, d / 2 ^ (32 - i) = h /\ (d / 2 ^ (31 - i)) mod 2 = b /\ d / 2 ^ (32 - (i + 1)) = 2 * h + b /\ 0 <= h < 2 ^ 31 /\ 0 <= b < 2).
  { intros d Hd. exists (d / 2 ^ (32 - i)), ((d / 2 ^ (31 - i)) mod 2). split; [done|]. split; [done|]. unfold is_u32 in Hd.
    replace (32 - (i + 1)) with (31 - i) by lia. replace (32 - i) with (31 - i + 1) by lia. rewrite div_pow2_succ by lia. pose proof (Z.div_mod (d / 2 ^ (31 - i)) 2 ltac:(lia)).
    pose proof (Z.mod_pos_bound (d / 2 ^ (31 - i)) 2 ltac:(lia)). assert (0 <= d / 2 ^ (31 - i) < 2 ^ 32) by (split; [apply Z.div_pos; lia|apply Z.div_lt_upper_bound; nia]). lia. }
  destruct Hs as [_ Hu]. unfold scalar in Hu. rewrite !Forall_cons in Hu. destruct Hu as (U0 & U1 & U2 & U3 & U4 & U5 & U6 & U7 & _).
  unfold high_bits, scalar. cbn [fmap list_fmap val].
  destruct (Hsplit d0 U0) as (h0 & b0 & -> & -> & -> & Hh0 & Hb0). destruct (Hsplit d1 U1) as (h1 & b1 & -> & -> & -> & Hh1 & Hb1).
  destruct (Hsplit d2 U2) as (h2 & b2 & -> & -> & -> & Hh2 & Hb2). destruct (Hsplit d3 U3) as (h3 & b3 & -> & -> & -> & Hh3 & Hb3).
  destruct (Hsplit d4 U4) as (h4 & b4 & -> & -> & -> & Hh4 & Hb4). destruct (Hsplit d5 U5) as (h5 & b5 & -> & -> & -> & Hh5 & Hb5).
  destruct (Hsplit d6 U6) as (h6 & b6 & -> & -> & -> & Hh6 & Hb6). destruct (Hsplit d7 U7) as (h7 & b7 & -> & -> & -> & Hh7 & Hb7).
  rewrite (proj1 (four_bits b0 b2 b4 b6 Hb0 Hb2 Hb4 Hb6)), (proj1 (four_bits b1 b3 b5 b7 Hb1 Hb3 Hb5 Hb7)), !comb_weight_bits by done.
  change (2 ^ 0) with 1. clear - Hh0 Hh1 Hh2 Hh3 Hh4 Hh5 Hh6 Hh7 Hb0 Hb1 Hb2 Hb3 Hb4 Hb5 Hb6 Hb7. split_and!; [ring|nia|nia|nia| | |nia|nia].
  - intros E. assert (E' : 2 * h0 + 2 ^ 32 * (2 * h1 + 2 ^ 32 * (2 * h2 + 2 ^ 32 * (2 * h3 + 2 ^ 32 * (2 * h4 + 2 ^ 32 * (2 * h5 + 2 ^ 32 * (2 * h6 + 2 ^ 32 * (2 * h7 + 2 ^ 32 * 0))))))) =
      b0 + 2 ^ 32 * (0 + 2 ^ 32 * (b2 + 2 ^ 32 * (0 + 2 ^ 32 * (b4 + 2 ^ 32 * (0 + 2 ^ 32 * (b6 + 2 ^ 32 * (0 + 2 ^ 32 * 0)))))))) by lia. clear E.
    even_words E'. lia.
  - intros E. assert (E' : 2 * h0 + b0 + 2 ^ 32 * (2 * h1 + 2 ^ 32 * (2 * h2 + b2 + 2 ^ 32 * (2 * h3 + 2 ^ 32 * (2 * h4 + b4 + 2 ^ 32 * (2 * h5 + 2 ^ 32 * (2 * h6 + b6 + 2 ^ 32 * (2 * h7 + 2 ^ 32 * 0))))))) =
      0 + 2 ^ 32 * (b1 + 2 ^ 32 * (0 + 2 ^ 32 * (b3 + 2 ^ 32 * (0 + 2 ^ 32 * (b5 + 2 ^ 32 * (0 + 2 ^ 32 * (b7 + 2 ^ 32 * 0)))))))) by lia. clear E.
    even_words E'. lia.
Qed.

Lemma high_bits_le scalar i : num scalar -> 0 <= i <= 32 -> 0 <= high_bits scalar i <= val scalar.
Proof.
  intros [_ Hu] Hi. unfold high_bits. induction Hu as [|d l Hd _ IH]; cbn [fmap list_fmap val]; [done|]. unfold is_u32 in Hd.
  assert (0 <= d / 2 ^ (32 - i) <= d) by (split; [apply Z.div_pos; lia|apply Z.div_le_upper_bound; nia]). cbn in IH. lia.
Qed.

Lemma high_bits_0 scalar : num scalar -> high_bits scalar 0 = 0.
Proof.
  intros [_ Hu]. unfold high_bits. induction Hu as [|d l Hd _ IH]; cbn [fmap list_fmap val]; [done|]. unfold is_u32 in Hd. rewrite Z.div_small by (change (32 - 0) with 32; lia). cbn in IH. lia.
Qed.

Lemma high_bits_32 scalar : high_bits scalar 32 = val scalar.
Proof. unfold high_bits. change (32 - 32) with 0. induction scalar as [|d l IH]; cbn [fmap list_fmap val]; [done|]. rewrite Z.div_1_r. f_equal. f_equal. exact IH. Qed.

Lemma comb_step tab k : forall i scalar, num scalar -> (forall j index, tab j index = mul (comb_weight j index)) -> val scalar < order -> Z.of_nat k + i = 32 -> 0 <= i ->
  comb_run tab k i scalar (mul (high_bits scalar i)) = Some (mul (val scalar)).
Proof.
  induction k as [|k IH]; intros i scalar Hs Htab Ho Hi Hi0; cbn [comb_run].
  { assert (i = 32) as -> by lia. by rewrite high_bits_32. }
  pose proof (high_bits_le scalar (i + 1) Hs ltac:(lia)) as Hle.
  assert (T : let t0 := comb_weight 0 (base_index scalar i 0) in let t1 := comb_weight 32 (base_index scalar i 32) in let a := 2 * high_bits scalar i in
    high_bits scalar (i + 1) = a + t0 + t1 /\ 0 <= a /\ 0 <= t0 /\ 0 <= t1 /\ (a = t0 -> base_index scalar i 0 = 0) /\ (a + t0 = t1 -> base_index scalar i 32 = 0) /\
    (base_index scalar i 0 <> 0 -> 0 < t0) /\ (base_index scalar i 32 <> 0 -> 0 < t1)).
  { pose proof Hs as [Hl _]. unfold P256_NDIGITS in Hl. destruct scalar as [|d0 [|d1 [|d2 [|d3 [|d4 [|d5 [|d6 [|d7 [|? ?]]]]]]]]]; try discriminate Hl. apply comb_turn; [done|lia]. }
  cbv zeta in T. destruct T as (Hnext & Ha & Ht0 & Ht1 & Hne0 & Hne1 & Hpos0 & Hpos1).
  assert (Hdbl : (if i =? 0 then Some (mul (high_bits scalar i)) else dbl (mul (high_bits scalar i))) = Some (mul (2 * high_bits scalar i))).
  { destruct (Z.eqb_spec i 0) as [->|]; [by rewrite high_bits_0|]. apply mul_dbl; lia. }
  rewrite Hdbl. cbn [mbind option_bind]. set (a := 2 * high_bits scalar i) in *.
  assert (Hadd : forall j b, tab j (base_index scalar i j) = mul (comb_weight j (base_index scalar i j)) -> 0 <= b -> 0 <= comb_weight j (base_index scalar i j) ->
    (b = comb_weight j (base_index scalar i j) -> base_index scalar i j = 0) -> (base_index scalar i j <> 0 -> 0 < comb_weight j (base_index scalar i j)) ->
    b + comb_weight j (base_index scalar i j) < order -> add_index (tab j) (base_index scalar i j) (mul b) = Some (mul (b + comb_weight j (base_index scalar i j)))).
  { intros j b Et Hb _ Hne Hpos Hlt. unfold add_index. destruct (Z.eqb_spec (base_index scalar i j) 0) as [E|E].
    - rewrite E. unfold comb_weight. rewrite !Z.div_0_l, !Zmod_0_l by lia. by rewrite !Z.mul_0_r, Z.add_0_r.
    - rewrite Et. apply mul_add; [done|by apply Hpos| |done]. intros Eb. by apply E, Hne. }
  rewrite Hadd by (done || lia || apply Htab). cbn [mbind option_bind]. rewrite Hadd by (done || lia || apply Htab). cbn [mbind option_bind]. rewrite <- Hnext. apply IH; (done || lia).
Qed.

Lemma comb_ok tab scalar : num scalar -> (forall j index, tab j index = mul (comb_weight j index)) -> val scalar < order -> comb tab scalar = Some (mul (val scalar)).
Proof. intros Hs Htab Ho. unfold comb. rewrite <- mul_zero. pose proof (comb_step tab 32 0 scalar Hs Htab Ho eq_refl (Z.le_refl 0)) as H. by rewrite high_bits_0 in H. Qed.

(** C14. Both schedules compute the multiple named by the scalar, over every
    structure in which doublings, and additions of different multiples of one
    element whose sum is below the order, give multiples: for every scalar below the
    order, the comb with the tables that the comments of [kPrecomputed]
    describe, and the window with the table of the first 16 multiples.  No
    other doubling or addition is ever asked for. *)
Theorem schedules_correct scalar : num scalar -> val scalar < order -> 16 <= order ->
  comb (fun j index => mul (comb_weight j index)) scalar = Some (mul (val scalar)) /\ window (mul 1) scalar = Some (mul (val scalar)).
Proof. intros Hs Ho H16. split; [by apply comb_ok|by apply window_ok]. Qed.
End Multiples.

(** ** The integers *)

#[export] Instance integer_adder : adder Z := {| zero := 0; dbl := fun a => Some (2 * a); add := fun a b => if a =? b then None else Some (a + b) |}.

#[export] Instance integer_multiples order : multiples order (fun k => k).
Proof. split; [done|done|]. intros a t _ _ Hne _. cbn. by rewrite (proj2 (Z.eqb_neq a t)). Qed.

Lemma schedules_correct_witness :
  let scalar := [7; 1; 2; 3; 4; 5; 6; 0x80000009] in
  comb comb_weight scalar = Some (val scalar) /\ window 1 scalar = Some (val scalar).
Proof.
  cbv zeta. apply (schedules_correct (2 ^ 256) (fun k => k) [7; 1; 2; 3; 4; 5; 6; 0x80000009]); [by apply u32b_num|by vm_compute|by vm_compute].
Defined.
