(* ===== verification/P256MultCorrect.v ===== *)
(** * P-256 scalar multiplication refines the schedules over the curve *)
From Stdlib Require Import Znumtheory.
From S2P Require Import Prelude Words P256 P256Correct P256Euclid P256Field P256FieldCorrect P256MulCorrect Primes P256Mont P256Point P256PointCorrect P256Schedule.

#[local] Opaque felem_mul felem_square felem_sum felem_diff felem_scalar_3 felem_scalar_4 felem_scalar_8 felem_inv finv.

(** ** Points that the incomplete formulas can add

    A doubling that gives the point at infinity and an addition of points over
    the same x are refused. *)
#[export] Instance ec_adder : adder ec := {|
  zero := None;
  dbl := fun A => match A with None => Some None | Some _ => match ec_add A A with None => None | R => Some R end end;
  add := fun A B => match A, B with
    | _, None => None
    | None, Some _ => Some B
    | Some (x1, _), Some (x2, _) => if (x2 - x1) mod p =? 0 then None else Some (ec_add A B)
    end |}.

(** ** Every operation keeps the limbs in bounds *)

Lemma ok_point P : point_ok P -> exists X Y C, coords P X Y C.
Proof.
  intros H. destruct (ok_coords P H) as (X & Y & HX & HY). destruct H as (_ & _ & Hz). exists X, Y, (fval true (p_z P) * val kRInv). split; [done|]. split; [done|]. split; [done|].
  replace (fval true (p_z P) * val kRInv * R257) with (fval true (p_z P) * (R257 * val kRInv)) by ring. by rewrite R_inverse, Z.mul_1_r.
Qed.

Lemma coords_ok P X Y C : coords P X Y C -> point_ok P.
Proof. intros ([Hx _] & [Hy _] & [Hz _]). done. Qed.

Lemma point_double_total P : point_ok P -> point_ok (point_double P).
Proof. intros H. destruct (ok_point P H) as (X & Y & C & HP). eapply coords_ok. eapply (double_coords P X Y C); [done|reflexivity..]. Qed.

Lemma point_add_total P Q : point_ok P -> point_ok Q -> point_ok (point_add P Q).
Proof.
  intros HP HQ. destruct (ok_point P HP) as (X1 & Y1 & C1 & Hx1 & Hy1 & Hz1), (ok_point Q HQ) as (X2 & Y2 & C2 & Hx2 & Hy2 & Hz2). destruct P as [px1 py1 pz1], Q as [px2 py2 pz2]. cbn [p_x p_y p_z] in *.
  eapply coords_ok. apply (add_tail_coords (felem_mul px1 (felem_square pz2)) (felem_mul py1 (felem_mul pz2 (felem_square pz2)))
    (felem_diff (felem_diff (felem_square (felem_sum pz1 pz2)) (felem_square pz1)) (felem_square pz2))
    (felem_diff (felem_mul px2 (felem_square pz1)) (felem_mul px1 (felem_square pz2)))
    (felem_diff (felem_mul py2 (felem_mul pz1 (felem_square pz1))) (felem_mul py1 (felem_mul pz2 (felem_square pz2))))); eauto 10 with felem.
Qed.

Lemma point_add_mixed_total P x2 y2 : point_ok P -> felem_ok x2 -> felem_ok y2 -> point_ok (point_add_mixed P x2 y2).
Proof.
  intros HP Hx Hy. destruct (ok_point P HP) as (X1 & Y1 & C1 & Hx1 & Hy1 & Hz1). destruct (ok_coords (mk_point x2 y2 (p_z P))) as (X2 & Y2 & Hx2 & Hy2); [split_and!; [done..|apply HP]|].
  destruct P as [px1 py1 pz1]. cbn [p_x p_y p_z] in *.
  eapply coords_ok. apply (add_tail_coords px1 py1 (felem_sum pz1 pz1) (felem_diff (felem_mul x2 (felem_square pz1)) px1) (felem_diff (felem_mul y2 (felem_mul pz1 (felem_square pz1))) py1)); eauto 10 with felem.
Qed.

(** ** The accumulator *)

Abbreviation ones := (u32 (-1)).

(** The accumulator against the schedule's state: [None] if the schedule has
    asked for an operation that is refused. *)
Definition acc_for (n : accumulator) (oa : option ec) : Prop :=
  match oa with
  | None => point_ok (a_n n) /\ (a_inf n = 0 \/ a_inf n = ones)
  | Some None => point_ok (a_n n) /\ a_inf n = ones
  | Some (Some (x, y)) => jac (a_n n) x y /\ a_inf n = 0
  end.

Lemma acc_ok n oa : acc_for n oa -> point_ok (a_n n) /\ (a_inf n = 0 \/ a_inf n = ones).
Proof. destruct oa as [[[x y]|]|]; cbn [acc_for]; [intros [H ->]; split; [by apply jac_ok in H|by left]|intros [H ->]; split; [done|by right]|done]. Qed.

Lemma acc_refused n oa : acc_for n oa -> acc_for n None.
Proof. apply acc_ok. Qed.

Lemma acc_double n oa : acc_for n oa -> acc_for (double_acc n) (oa ≫= dbl).
Proof.
  intros H. pose proof (acc_ok n oa H) as [Hok Hinf]. assert (Hr : acc_for (double_acc n) None) by (split; [by apply point_double_total|done]).
  destruct oa as [[[x y]|]|]; cbn [mbind option_bind]; [|destruct H as [_ Hi]; by split; [apply point_double_total|]|done]. destruct H as [HJ Hi].
  pose proof (point_double_ok (a_n n) (Some (x, y)) HJ) as HD. cbn [dbl ec_adder]. destruct (ec_add (Some (x, y)) (Some (x, y))) as [[x3 y3]|]; [by split|done].
Qed.

Lemma NON_ZERO_0 : NON_ZERO_TO_ALL_ONES 0 = 0.
Proof. done. Qed.

(** Copies of whole points. *)
Lemma copies_all P Q : point_ok P -> point_ok Q -> mk_point (copy_conditional (p_x P) (p_x Q) ones) (copy_conditional (p_y P) (p_y Q) ones) (copy_conditional (p_z P) (p_z Q) ones) = Q.
Proof.
  intros (H1 & H2 & H3) (H4 & H5 & H6). destruct Q as [qx qy qz]. cbn [p_x p_y p_z] in *.
  rewrite !copy_conditional_all; [done|..]; first [by apply felem_u32|rewrite ?(proj1 H1), ?(proj1 H2), ?(proj1 H3), ?(proj1 H4), ?(proj1 H5), ?(proj1 H6); done].
Qed.

Lemma copies_none P Q : point_ok P -> point_ok Q -> mk_point (copy_conditional (p_x P) (p_x Q) 0) (copy_conditional (p_y P) (p_y Q) 0) (copy_conditional (p_z P) (p_z Q) 0) = P.
Proof.
  intros (H1 & H2 & H3) (H4 & H5 & H6). destruct P as [qx qy qz]. cbn [p_x p_y p_z] in *.
  rewrite !copy_conditional_none; [done|..]; rewrite ?(proj1 H1), ?(proj1 H2), ?(proj1 H3), ?(proj1 H4), ?(proj1 H5), ?(proj1 H6); done.
Qed.

Lemma accumulate_ok n q t index : point_ok (a_n n) -> a_inf n = 0 \/ a_inf n = ones -> point_ok q -> point_ok t -> 0 <= index < 16 ->
  accumulate n q t index =
    if a_inf n =? 0 then mk_accumulator (if index =? 0 then a_n n else t) 0 else mk_accumulator q (if index =? 0 then ones else 0).
Proof.
  destruct n as [P inf]. cbn [a_n a_inf]. intros HP Hinf Hq Ht Hi. unfold accumulate. destruct P as [nx ny nz].
  assert (Hm : NON_ZERO_TO_ALL_ONES index = if index =? 0 then 0 else ones) by (destruct (Z.eqb_spec index 0) as [->|]; [done|apply mask_nonzero; lia]).
  destruct Hinf as [->| ->]; cbv zeta.
  - pose proof (copies_none (mk_point nx ny nz) q HP Hq) as E. cbn [p_x p_y p_z] in E. injection E as -> -> ->. rewrite Hm. cbn [Z.eqb]. rewrite Z.land_0_l. f_equal.
    destruct (Z.eqb_spec index 0); [exact (copies_none (mk_point nx ny nz) t HP Ht)|exact (copies_all (mk_point nx ny nz) t HP Ht)].
  - pose proof (copies_all (mk_point nx ny nz) q HP Hq) as E. cbn [p_x p_y p_z] in E. set (x' := copy_conditional nx _ _) in *. set (y' := copy_conditional ny _ _) in *. set (z' := copy_conditional nz _ _) in *.
    rewrite Hm. change (ones =? 0) with false. cbn iota. assert (Hz : Z.land (if index =? 0 then 0 else ones) (lnot32 ones) = 0) by (destruct (index =? 0); done). rewrite Hz.
    assert (Hq' : point_ok (mk_point x' y' z')) by (by rewrite E). f_equal; [|destruct (index =? 0); done].
    pose proof (copies_none (mk_point x' y' z') t Hq' Ht) as E'. cbn [p_x p_y p_z] in E'. by rewrite E'.
Qed.

(** A turn: [q] is the table's point, [t] the sum by an incomplete formula. *)
Lemma acc_turn (tab : Z -> ec) n oa q t index : acc_for n oa -> 0 <= index < 16 -> point_ok q -> point_ok t ->
  (forall x2 y2, index <> 0 -> tab index = Some (x2, y2) -> jac q x2 y2 /\
    forall x1 y1, jac (a_n n) x1 y1 -> ~ same x1 y1 x2 y2 -> stands_for t (ec_add (Some (x1, y1)) (Some (x2, y2)))) ->
  acc_for (accumulate n q t index) (oa ≫= add_index tab index).
Proof.
  intros Hn Hi Hq Ht Htab. pose proof (acc_ok n oa Hn) as [Hok Hinf]. rewrite accumulate_ok by done.
  assert (Hr : acc_for (if a_inf n =? 0 then mk_accumulator (if index =? 0 then a_n n else t) 0 else mk_accumulator q (if index =? 0 then ones else 0)) None).
  { destruct (a_inf n =? 0), (index =? 0); (split; [assumption|]); first [left; reflexivity|right; reflexivity]. }
  destruct oa as [A|]; cbn [mbind option_bind]; [|done]. unfold add_index. destruct (Z.eqb_spec index 0) as [E|E].
  - destruct A as [[x y]|]; destruct Hn as [HJ Ei]; rewrite Ei; [exact (conj HJ eq_refl)|exact (conj Hq eq_refl)].
  - destruct (tab index) as [[x2 y2]|] eqn:Et; cbn [add ec_adder]; [|by destruct A as [[??]|]]. destruct (Htab x2 y2 E eq_refl) as [HJq Hsum].
    destruct A as [[x1 y1]|]; destruct Hn as [HJ Ei]; rewrite Ei in *; [|exact (conj HJq eq_refl)].
    cbn [Z.eqb] in *. destruct (Z.eqb_spec ((x2 - x1) mod p) 0) as [Ex|Ex]; [done|]. assert (Hs : ~ same x1 y1 x2 y2) by (intros [C _]; by apply nonzero_mod in Ex).
    specialize (Hsum x1 y1 HJ Hs). cbn [ec_add] in *. apply Z.eqb_neq in Ex. rewrite Ex in *. exact (conj Hsum eq_refl).
Qed.

(** ** The window *)

Lemma select_mask_ok i index : 1 <= i < 16 -> 0 <= index < 16 -> select_mask i index = if i =? index then ones else 0.
Proof.
  intros Hi Hx. assert (H : forallb (fun a => forallb (fun b => select_mask (Z.of_nat a) (Z.of_nat b) =? (if Z.of_nat a =? Z.of_nat b then ones else 0)) (seq 0 16)) (seq 1 15) = true) by (by vm_compute).
  rewrite forallb_forall in H. specialize (H (Z.to_nat i) ltac:(apply in_seq; lia)). cbv beta in H. rewrite forallb_forall in H. specialize (H (Z.to_nat index) ltac:(apply in_seq; lia)). cbv beta in H.
  rewrite !Z2Nat.id in H by lia. by apply Z.eqb_eq.
Qed.

Lemma select_limbs_none out l rest : length out = length l -> select_limbs 0 out (l ++ rest) = Done (out, rest).
Proof.
  revert l. induction out as [|o out IH]; intros [|x l] Hl; try discriminate; [done|]. cbn [select_limbs app]. rewrite IH by (by injection Hl). cbn [obind fst snd]. by rewrite Z.land_0_r, Z.lor_0_r.
Qed.

Lemma select_limbs_all l rest : Forall is_u32 l -> select_limbs ones (replicate (length l) 0) (l ++ rest) = Done (l, rest).
Proof.
  induction 1 as [|x l Hx _ IH]; [done|]. cbn [length replicate select_limbs app]. rewrite IH. cbn [obind fst snd]. rewrite land_ones32, u32_small, Z.lor_0_l by done. done.
Qed.

Definition zero_point : point := mk_point kZero kZero kZero.

Lemma kZero_ok : felem_ok kZero.
Proof. by apply felem_okb. Qed.

Lemma zero_point_ok : point_ok zero_point.
Proof. split; [apply kZero_ok|]. split; apply kZero_ok. Qed.

Lemma select_limbs_felem out l rest (b : bool) : felem_ok l -> length out = NLIMBS -> (b = true -> out = kZero) ->
  select_limbs (if b then ones else 0) out (l ++ rest) = Done (if b then l else out, rest).
Proof.
  intros Hl Ho Hb. destruct b; [|apply select_limbs_none; by rewrite Ho, (proj1 Hl)]. rewrite Hb by done. unfold kZero. rewrite <- (proj1 Hl). apply select_limbs_all. by apply felem_u32.
Qed.

Lemma select_jacobian_loop_ok es : forall i out index, Forall point_ok es -> 1 <= i -> i + Z.of_nat (length es) <= 16 -> 0 <= index < 16 -> point_ok out -> (i <= index -> out = zero_point) ->
  select_jacobian_loop (length es) i out (precomp_limbs es) index = Done (if index <? i then out else nth (Z.to_nat (index - i)) es out).
Proof.
  induction es as [|P es IH]; intros i out index Hes Hi Hlen Hx Hout Hz; cbn [length select_jacobian_loop].
  { destruct (index <? i); [done|]. by destruct (Z.to_nat (index - i)). }
  apply Forall_cons_1 in Hes as [HP Hes]. rewrite select_mask_ok by (cbn [length] in Hlen; lia). unfold precomp_limbs. cbn [fmap list_fmap concat]. fold (precomp_limbs es). unfold limbs_of_entry. rewrite <- !app_assoc.
  destruct HP as (Px & Py & Pz). destruct Hout as (Ox & Oy & Oz). assert (Hb : (i =? index) = true -> out = zero_point) by (intros E; apply Hz; lia).
  rewrite !select_limbs_felem by first [done|apply Ox|apply Oy|apply Oz|intros E; by rewrite Hb]. cbn [obind].
  cbn [length] in Hlen. rewrite select_limbs_felem by first [done|apply Ox|apply Oy|apply Oz|intros E; by rewrite Hb]. cbn [obind].
  rewrite select_limbs_felem by first [done|apply Ox|apply Oy|apply Oz|intros E; by rewrite Hb]. cbn [obind].
  rewrite IH; [|done|lia|lia|done|destruct (i =? index); done|].
  - destruct (Z.eqb_spec i index) as [->|Hne].
    + rewrite (proj2 (Z.ltb_lt _ _)), (proj2 (Z.ltb_ge _ _)), Z.sub_diag by lia. by destruct P.
    + destruct out as [ox oy oz]. cbn [p_x p_y p_z]. destruct (Z.ltb_spec index i).
      * by rewrite (proj2 (Z.ltb_lt _ _)) by lia.
      * rewrite (proj2 (Z.ltb_ge _ _)) by lia. replace (Z.to_nat (index - i)) with (S (Z.to_nat (index - (i + 1)))) by lia. done.
  - intros Hle. rewrite (proj2 (Z.eqb_neq i index)) by lia. rewrite Hz by lia. done.
Qed.

Lemma select_jacobian_ok Z0 ps index : point_ok Z0 -> Forall point_ok ps -> length ps = 15%nat -> 0 <= index < 16 ->
  select_jacobian_point (precomp_limbs (Z0 :: ps)) index = Done (if index =? 0 then zero_point else nth (Z.to_nat (index - 1)) ps zero_point).
Proof.
  intros (H1 & H2 & H3) Hps Hl Hx. unfold select_jacobian_point, precomp_limbs. cbn [fmap list_fmap concat]. fold (precomp_limbs ps).
  assert (HL : length (limbs_of_entry Z0) = (3 * NLIMBS)%nat) by (unfold limbs_of_entry; rewrite !length_app, (proj1 H1), (proj1 H2), (proj1 H3); done).
  rewrite <- HL, drop_app_length. rewrite <- Hl. rewrite select_jacobian_loop_ok by first [done|lia|apply zero_point_ok|intros; done|rewrite Hl; lia].
  destruct (Z.eqb_spec index 0) as [->|]; [done|]. by rewrite (proj2 (Z.ltb_ge _ _)) by lia.
Qed.

(** The points of the table against the schedule's table: the first entry is
    not used. *)
Definition table_for (precomp : list point) (ot : option (list ec)) : Prop :=
  Forall point_ok precomp /\ forall l, ot = Some l -> exists Z0 ps qs, precomp = Z0 :: ps /\ l = None :: (Some <$> qs) /\ Forall2 (fun P q => jac P q.1 q.2) ps qs.

Lemma precomp_loop_ok fx fy x y k : forall i precomp ot, repr fx x -> repr fy y -> table_for precomp ot -> (1 <= i)%nat -> length precomp = (2 * i)%nat ->
  exists pc, precomp_loop k (2 * i) fx fy precomp = Done pc /\ length pc = (2 * i + 2 * k)%nat /\ table_for pc (ot ≫= table_run k (2 * i) (Some (x, y))).
Proof.
  induction k as [|k IH]; intros i precomp ot Hx Hy Ht Hi Hl; cbn [precomp_loop].
  { exists precomp. split; [done|]. split; [lia|]. destruct ot; [done|]. destruct Ht as [Hok _]. by split. }
  replace (2 * i / 2)%nat with i by (rewrite Nat.mul_comm, Nat.div_mul; lia). destruct Ht as [Hok Ht]. unfold entry.
  destruct (precomp !! i) as [half|] eqn:Eh; [|apply lookup_ge_None in Eh; lia]. cbn [obind].
  pose proof (proj1 (Forall_lookup _ _) Hok i half Eh) as Hh. pose proof (point_double_total half Hh) as HD.
  pose proof (point_add_mixed_total (point_double half) fx fy HD (repr_ok _ _ Hx) (repr_ok _ _ Hy)) as HS. replace (2 * i + 2)%nat with (2 * (i + 1))%nat by lia.
  destruct (IH (i + 1)%nat (precomp ++ [point_double half; point_add_mixed (point_double half) fx fy])
    (tab ← ot; half ← tab !! i; d ← dbl half; s ← add d (Some (x, y)); Some (tab ++ [d; s]))) as (pc & Hpc & Hlpc & Htpc); [done|done| |lia|rewrite length_app; cbn; lia|].
  - split; [apply Forall_app; split; [done|]; by repeat (apply List.Forall_cons; [done|])|]. intros l Hl'. destruct ot as [tab|]; [|done]. cbn [mbind option_bind] in Hl'.
    destruct (Ht tab eq_refl) as (Z0 & ps & qs & -> & -> & HF). destruct i as [|i]; [lia|]. change (ps !! i = Some half) in Eh. change ((None :: (Some <$> qs)) !! S i) with ((Some <$> qs) !! i) in Hl'. rewrite list_lookup_fmap in Hl'.
    destruct (Forall2_lookup_l _ _ _ _ _ HF Eh) as (q & Eq & HJ). rewrite Eq in Hl'. destruct q as [hx hy]. cbn [fmap option_fmap option_map mbind option_bind fst snd] in *.
    pose proof (point_double_ok half (Some (hx, hy)) HJ) as HDJ. cbn [dbl ec_adder] in Hl'. destruct (ec_add (Some (hx, hy)) (Some (hx, hy))) as [[dx dy]|] eqn:ED; [|done]. cbn [mbind option_bind] in Hl'.
    cbn [add ec_adder] in Hl'. destruct (Z.eqb_spec ((x - dx) mod p) 0) as [|Ex]; [done|]. cbn [mbind option_bind] in Hl'.
    assert (Hs : ~ same dx dy x y) by (intros [C _]; by apply nonzero_mod in Ex). pose proof (point_add_mixed_ok (point_double half) fx fy dx dy x y HDJ Hx Hy Hs) as HSJ.
    cbn [ec_add] in *. apply Z.eqb_neq in Ex. rewrite Ex in *. destruct (chord _ dx dy x) as [sx sy]. injection Hl' as <-.
    exists Z0, (ps ++ [point_double half; point_add_mixed (point_double half) fx fy]), (qs ++ [(dx, dy); (sx, sy)]). split; [done|]. split; [by rewrite fmap_app|].
    apply Forall2_app; [done|]. by repeat (apply List.Forall2_cons; [done|]).
  - exists pc. split; [done|]. split; [lia|]. revert Htpc. destruct ot as [tab|]; [|done]. cbn [mbind option_bind table_run].
    replace (2 * i / 2)%nat with i by (rewrite Nat.mul_comm, Nat.div_mul; lia). destruct (tab !! i) as [h|]; [|done]. cbn [mbind option_bind]. destruct (dbl h) as [d|]; [|done]. cbn [mbind option_bind].
    destruct (add d (Some (x, y))) as [s|]; [|done]. cbn [mbind option_bind]. by replace (2 * i + 2)%nat with (2 * (i + 1))%nat by lia.
Qed.

Definition tab_of (l : list ec) (index : Z) : ec := nth (Z.to_nat index) l None.

Lemma acc_4_doubles n oa (i : Z) : acc_for n oa ->
  acc_for (if i =? 0 then n else double_acc (double_acc (double_acc (double_acc n)))) (a ← oa; if i =? 0 then Some a else a ← dbl a; a ← dbl a; a ← dbl a; dbl a).
Proof.
  intros H. destruct (i =? 0); [by destruct oa|]. apply acc_double in H. apply acc_double in H. apply acc_double in H. apply acc_double in H. revert H. destruct oa as [a|]; [|done]. cbn [mbind option_bind].
  destruct (dbl a) as [b|]; [|done]. cbn [mbind option_bind]. destruct (dbl b) as [c|]; [|done]. cbn [mbind option_bind]. by destruct (dbl c).
Qed.

Lemma mult_loop_ok precomp ot scalar k : forall i n oa, num scalar -> table_for precomp ot -> length precomp = 16%nat -> (ot = None -> oa = None) -> acc_for n oa -> 0 <= i -> i + 4 * Z.of_nat k = 256 ->
  exists n', mult_loop k i precomp scalar n = Done n' /\ acc_for n' (a ← oa; window_run (tab_of (default [] ot)) k i scalar a).
Proof.
  induction k as [|k IH]; intros i n oa Hs Ht Hl Hnone Hn Hi0 Hi; cbn [mult_loop].
  { exists n. split; [done|]. by destruct oa. }
  pose proof Ht as [Hok Htab]. destruct precomp as [|Z0 ps]; [discriminate|]. apply Forall_cons_1 in Hok as [HZ Hps]. injection Hl as Hl.
  assert (Hx : 0 <= mult_index scalar i < 16) by (rewrite mult_index_ok by (done || lia); apply Z.mod_pos_bound; lia). set (index := mult_index scalar i) in *.
  rewrite select_jacobian_ok by done. cbn [obind]. set (q := if index =? 0 then zero_point else nth (Z.to_nat (index - 1)) ps zero_point).
  assert (Hq : point_ok q). { unfold q. destruct (index =? 0); [apply zero_point_ok|]. apply (proj1 (Forall_nth _ _ _) Hps). lia. }
  set (n2 := if i =? 0 then n else _). pose proof (acc_4_doubles n oa i Hn) as Hn2. fold n2 in Hn2. pose proof (acc_ok _ _ Hn2) as [Hok2 _].
  assert (Hturn : acc_for (accumulate n2 q (point_add (a_n n2) q) index) ((a ← oa; if i =? 0 then Some a else a ← dbl a; a ← dbl a; a ← dbl a; dbl a) ≫= add_index (tab_of (default [] ot)) index)).
  { apply acc_turn; [done..|by apply point_add_total|]. intros x2 y2 Hne Et. destruct ot as [l|]; [|unfold tab_of in Et; rewrite nth_overflow in Et by (cbn; lia); discriminate]. cbn [default] in Et.
    destruct (Htab l eq_refl) as (Z0' & ps' & qs & [= <- <-] & -> & HF). unfold tab_of in Et. assert (Hsi : Z.to_nat index = S (Z.to_nat (index - 1))) by lia. rewrite Hsi in Et. change (nth (Z.to_nat (index - 1)) (Some <$> qs) None = Some (x2, y2)) in Et.
    assert (HJ : jac q x2 y2).
    { unfold q. rewrite (proj2 (Z.eqb_neq _ _)) by done. destruct (lookup_lt_is_Some_2 ps (Z.to_nat (index - 1)) ltac:(lia)) as [P EP]. destruct (Forall2_lookup_l _ _ _ _ _ HF EP) as ([qx qy] & Eq & HJ).
      rewrite (nth_lookup_Some _ _ _ _ EP). assert (Eq' : (Some <$> qs) !! Z.to_nat (index - 1) = Some (Some (qx, qy))) by (by rewrite list_lookup_fmap, Eq).
      rewrite (nth_lookup_Some _ _ _ _ Eq') in Et. by injection Et as -> ->. }
    split; [done|]. intros x1 y1 HJ1 Hns. by apply point_add_ok. }
  set (oa2 := _ ≫= add_index _ index) in Hturn. assert (Hnone2 : ot = None -> oa2 = None) by (intros E; unfold oa2; by rewrite (Hnone E)).
  destruct (IH (i + 4) _ oa2 Hs Ht (f_equal S Hl) Hnone2 Hturn ltac:(lia) ltac:(lia)) as (n' & Hn' & Ha). exists n'. split; [done|].
  revert Ha. unfold oa2. destruct oa as [a|]; [|done]. cbn [mbind option_bind window_run]. fold index. destruct (if i =? 0 then Some a else _) as [b|]; [|done]. cbn [mbind option_bind]. by destruct (add_index _ index b).
Qed.

Lemma kOne_ok : felem_ok kOne.
Proof. apply (repr_ok _ _ repr_one). Qed.

Lemma infinite_for : acc_for infinite (Some None).
Proof. split; [apply zero_point_ok|done]. Qed.

Lemma affine_jac fx fy x y : repr fx x -> repr fy y -> jac (mk_point fx fy kOne) x y.
Proof.
  intros Hx Hy. exists 1. split; [intros C; apply cong_mod in C; [|done]; by vm_compute in C|]. cbn [p_x p_y p_z]. split; [by apply (repr_eq _ x); [|ring]|]. split; [by apply (repr_eq _ y); [|ring]|apply repr_one].
Qed.

(** [scalar_mult] never faults, its limbs are in bounds, and it follows the
    window over the curve. *)
Lemma scalar_mult_ok fx fy x y scalar : repr fx x -> repr fy y -> num scalar -> exists n, scalar_mult fx fy scalar = Done (a_n n) /\ acc_for n (window (Some (x, y)) scalar).
Proof.
  intros Hx Hy Hs. unfold scalar_mult. pose proof (repr_ok _ _ Hx) as Ox. pose proof (repr_ok _ _ Hy) as Oy.
  destruct (precomp_loop_ok fx fy x y 7 1 [zero_point; mk_point fx fy kOne] (Some [None; Some (x, y)]) Hx Hy) as (pc & Hpc & Hl & Ht); [|lia|done|].
  { split; [apply List.Forall_cons; [apply zero_point_ok|]; apply List.Forall_cons; [|apply List.Forall_nil]; split; [done|split; [done|apply kOne_ok]]|].
    intros l [= <-]. exists zero_point, [mk_point fx fy kOne], [(x, y)]. split; [done|]. split; [done|]. apply List.Forall2_cons; [by apply affine_jac|apply List.Forall2_nil]. }
  cbn [mbind option_bind Nat.mul Nat.add] in *. fold zero_point. rewrite Hpc. cbn [obind].
  destruct (mult_loop_ok pc (table_run 7 2 (Some (x, y)) [None; Some (x, y)]) scalar 64 0 infinite (if table_run 7 2 (Some (x, y)) [None; Some (x, y)] then Some None else None)) as (n & Hn & Ha);
    [done|done|done|by intros ->|destruct (table_run _ _ _ _); [apply infinite_for|apply (acc_refused _ _ infinite_for)]|lia|lia|].
  exists n. rewrite Hn. cbn [obind]. split; [done|]. unfold window. change (@zero ec ec_adder) with (@None (Z * Z)). destruct (table_run 7 2 (Some (x, y)) [None; Some (x, y)]) as [l|]; [|done]. exact Ha.
Qed.

(** ** The comb *)

Definition table_start (j : Z) : nat := if j =? 0 then 0 else (30 * NLIMBS)%nat.

(** The entry [index] of the table for [j], and the point it stands for. *)
Definition base_point (j index : Z) : felem * felem :=
  let t := drop (table_start j + 2 * NLIMBS * Z.to_nat (index - 1)) kPrecomputed in (take NLIMBS t, take NLIMBS (drop NLIMBS t)).

Definition unmont (a : felem) : Z := (fval true a * val kRInv) mod p.

Definition base_tab (j index : Z) : ec := let '(fx, fy) := base_point j index in Some (unmont fx, unmont fy).

Definition felem_check (a : felem) : bool := (length a =? 9)%nat && forallb (fun i => (0 <=? limb a i) && (limb a i <? limb_max i)) (seq 0 9) && (limb a 8 <? 2 ^ 29).

(** Everything the comb needs of [kPrecomputed], by evaluation. *)
Definition table_check (j index : Z) : bool :=
  let e := if index =? 0 then (kZero, kZero) else base_point j index in
  match select_affine_point (drop (table_start j) kPrecomputed) index with
  | Done r => bool_decide (r = e) && felem_check e.1 && felem_check e.2
  | Crash _ => false
  end.

Lemma table_checked j index : j = 0 \/ j = 32 -> 0 <= index < 16 -> table_check j index = true.
Proof.
  intros Hj Hi. assert (H : forallb (fun i => table_check 0 (Z.of_nat i) && table_check 32 (Z.of_nat i)) (seq 0 16) = true) by (by vm_compute).
  rewrite forallb_forall in H. specialize (H (Z.to_nat index) ltac:(apply in_seq; lia)). cbv beta in H. rewrite Z2Nat.id in H by lia. apply andb_prop in H as [H1 H2]. by destruct Hj as [->| ->].
Qed.

Lemma select_affine_ok j index : j = 0 \/ j = 32 -> 0 <= index < 16 ->
  let e := if index =? 0 then (kZero, kZero) else base_point j index in
  select_affine_point (drop (table_start j) kPrecomputed) index = Done e /\ felem_ok e.1 /\ felem_ok e.2.
Proof.
  intros Hj Hi. cbv zeta. pose proof (table_checked j index Hj Hi) as H. unfold table_check in H. cbv zeta in H. set (e := if index =? 0 then _ else _) in *. clearbody e.
  destruct (select_affine_point _ index) as [r|]; [|discriminate]. rewrite !andb_true_iff in H. destruct H as [[->%bool_decide_eq_true H1] H2].
  split; [done|]. split; by apply felem_okb.
Qed.

Lemma repr_unmont a : felem_ok a -> repr a (unmont a).
Proof.
  intros H. split; [done|]. unfold unmont. rewrite mod_cong by done. replace (fval true a * val kRInv * R257) with (fval true a * (R257 * val kRInv)) by ring. by rewrite R_inverse, Z.mul_1_r.
Qed.

Lemma base_index_range scalar i j : num scalar -> j = 0 \/ j = 32 -> 0 <= i < 32 -> 0 <= base_index scalar i j < 16.
Proof.
  intros Hs Hj Hi. unfold base_index. rewrite !get_bit_ok by (done || lia). set (v := val scalar).
  pose proof (Z.mod_pos_bound (v / 2 ^ (31 - i + j)) 2 ltac:(lia)) as B0. pose proof (Z.mod_pos_bound (v / 2 ^ (95 - i + j)) 2 ltac:(lia)) as B1.
  pose proof (Z.mod_pos_bound (v / 2 ^ (159 - i + j)) 2 ltac:(lia)) as B2. pose proof (Z.mod_pos_bound (v / 2 ^ (223 - i + j)) 2 ltac:(lia)) as B3.
  rewrite (proj1 (four_bits _ _ _ _ B0 B1 B2 B3)). lia.
Qed.

Lemma base_turn_ok scalar i j n oa : num scalar -> j = 0 \/ j = 32 -> 0 <= i < 32 -> acc_for n oa ->
  exists n', base_turn scalar i j (table_start j) n = Done n' /\ acc_for n' (oa ≫= add_index (base_tab j) (base_index scalar i j)).
Proof.
  intros Hs Hj Hi Hn. unfold base_turn. pose proof (base_index_range scalar i j Hs Hj Hi) as Hx. set (index := base_index scalar i j) in *.
  destruct (select_affine_ok j index Hj Hx) as (-> & H1 & H2). cbn [obind]. set (e := if index =? 0 then _ else _) in *. eexists. split; [done|].
  pose proof (acc_ok _ _ Hn) as [Hok _]. apply acc_turn; [done|done|split; [done|split; [done|apply kOne_ok]]|by apply point_add_mixed_total|].
  intros x2 y2 Hne Et. unfold e in *. rewrite (proj2 (Z.eqb_neq index 0) Hne) in *. unfold base_tab in Et. destruct (base_point j index) as [fx fy]. cbn [fst snd] in *. injection Et as <- <-.
  pose proof (repr_unmont fx H1) as Rx. pose proof (repr_unmont fy H2) as Ry. split; [by apply affine_jac|]. intros x1 y1 HJ Hns. by apply point_add_mixed_ok.
Qed.

Lemma base_loop_ok scalar k : forall i n oa, num scalar -> acc_for n oa -> 0 <= i -> i + Z.of_nat k = 32 ->
  exists n', base_loop k i scalar n = Done n' /\ acc_for n' (oa ≫= comb_run base_tab k i scalar).
Proof.
  induction k as [|k IH]; intros i n oa Hs Hn Hi0 Hi; cbn [base_loop].
  { exists n. split; [done|]. by destruct oa. }
  set (n0 := if i =? 0 then n else double_acc n). assert (Hn0 : acc_for n0 (a ← oa; if i =? 0 then Some a else dbl a)) by (unfold n0; destruct (i =? 0); [by destruct oa|by apply acc_double]).
  destruct (base_turn_ok scalar i 0 n0 _ Hs (or_introl eq_refl) ltac:(lia) Hn0) as (n1 & E1 & Hn1). change (table_start 0) with 0%nat in E1. rewrite E1. cbn [obind].
  destruct (base_turn_ok scalar i 32 n1 _ Hs (or_intror eq_refl) ltac:(lia) Hn1) as (n2 & E2 & Hn2). change (table_start 32) with (30 * NLIMBS)%nat in E2. rewrite E2. cbn [obind].
  destruct (IH (i + 1) n2 _ Hs Hn2 ltac:(lia) ltac:(lia)) as (n' & En & Hn'). exists n'. split; [done|]. revert Hn'. destruct oa as [a|]; [|done]. cbn [mbind option_bind comb_run].
  destruct (if i =? 0 then Some a else dbl a) as [b|]; [|done]. cbn [mbind option_bind]. destruct (add_index (base_tab 0) _ b) as [c|]; [|done]. cbn [mbind option_bind]. by destruct (add_index (base_tab 32) _ c).
Qed.

Lemma scalar_base_mult_ok scalar : num scalar -> exists n, scalar_base_mult scalar = Done (a_n n) /\ acc_for n (comb base_tab scalar).
Proof.
  intros Hs. unfold scalar_base_mult. destruct (base_loop_ok scalar 32 0 infinite (Some None) Hs infinite_for ltac:(lia) ltac:(lia)) as (n & -> & Hn). exists n. by split.
Qed.

(** ** What the table holds *)

(** [C] is the sum of [A] and [B], which lie over different x; no division. *)
Definition sum_check (A B C : Z * Z) : bool :=
  let '(x1, y1) := A in let '(x2, y2) := B in let '(x3, y3) := C in
  let d := x2 - x1 in let e := y2 - y1 in
  negb (d mod p =? 0) && ((d * d * (x3 + x1 + x2) - e * e) mod p =? 0) && ((d * (y3 + y1) - e * (x1 - x3)) mod p =? 0) &&
  (0 <=? x3) && (x3 <? p) && (0 <=? y3) && (y3 <? p).

Lemma cong_of_mod a : a mod p = 0 -> cong p a 0.
Proof. intros H. apply cong_mod; [done|]. by rewrite H. Qed.

Lemma sum_check_ok A B C : sum_check A B C = true -> (B.1 - A.1) mod p <> 0 /\ ec_add (Some A) (Some B) = Some C.
Proof.
  destruct A as [x1 y1], B as [x2 y2], C as [x3 y3]. unfold sum_check. cbv zeta. rewrite !andb_true_iff, negb_true_iff, !Z.leb_le, !Z.ltb_lt, !Z.eqb_eq. intros [[[[[[Hd Hx] Hy] Hx0] Hxp] Hy0] Hyp].
  apply Z.eqb_neq in Hd. split; [done|]. cbn [ec_add]. rewrite (proj2 (Z.eqb_neq _ _) Hd). f_equal. pose proof (proj2 (nonzero_mod _) Hd) as Hn. apply cong_of_mod in Hx, Hy.
  pose proof (finv_ok _ Hn) as I. set (f := finv (x2 - x1)) in *. set (d := x2 - x1) in *. set (e := y2 - y1) in *. unfold chord.
  assert (Hl : cong p (d * (e * f)) e) by (replace (d * (e * f)) with (e * (d * f)) by ring; by rewrite I, Z.mul_1_r). set (l := e * f) in *. clearbody l f d e. clear I.
  assert (E3 : cong p (l * l - x1 - x2) x3).
  { apply (cong_mul_cancel (d * d)); [by apply nonzero_mul|]. replace (d * d * (l * l - x1 - x2)) with (d * l * (d * l) - d * d * (x1 + x2)) by ring. rewrite Hl. destruct Hx as [k Hk]. exists (- k). lia. }
  assert (Ex : (l * l - x1 - x2) mod p = x3) by (apply cong_mod in E3; [|done]; by rewrite E3, Z.mod_small by lia). rewrite Ex. f_equal.
  assert (Ey : cong p (l * (x1 - x3) - y1) y3).
  { apply (cong_mul_cancel d); [done|]. replace (d * (l * (x1 - x3) - y1)) with (d * l * (x1 - x3) - d * y1) by ring. rewrite Hl. destruct Hy as [k Hk]. exists (- k). lia. }
  apply cong_mod in Ey; [|done]. by rewrite Ey, Z.mod_small by lia.
Qed.

Definition curve_check (A : Z * Z) : bool := (A.2 ^ 2 mod p =? (A.1 ^ 3 - 3 * A.1 + val SECP256r1_b) mod p).

Definition entry_check (j index : Z) : bool :=
  match base_tab j index with
  | Some A => curve_check A && forallb (fun h => let h := Z.of_nat h in
      if (h <? index) && (index <? 2 * h) then match base_tab j h, base_tab j (index - h) with Some B, Some C => sum_check B C A | _, _ => false end else true) [2; 4; 8]%nat
  | None => false
  end.

Lemma entries_checked j index : j = 0 \/ j = 32 -> 0 < index < 16 -> entry_check j index = true.
Proof.
  intros Hj Hi. assert (H : forallb (fun i => entry_check 0 (Z.of_nat i) && entry_check 32 (Z.of_nat i)) (seq 1 15) = true) by (by vm_compute).
  rewrite forallb_forall in H. specialize (H (Z.to_nat index) ltac:(apply in_seq; lia)). cbv beta in H. rewrite Z2Nat.id in H by lia. apply andb_prop in H as [H1 H2]. by destruct Hj as [->| ->].
Qed.

(** The table [kPrecomputed] is consistent: its 30 entries are points of
    the curve, its first entry is the base point, and each entry whose index
    has several bits is the sum of the entries of its highest bit and of its other bits. *)
Theorem kPrecomputed_entries j index : j = 0 \/ j = 32 -> 0 < index < 16 ->
  base_tab 0 1 = Some (val P256Witnesses.G_x, val P256Witnesses.G_y) /\ exists x y, base_tab j index = Some (x, y) /\ on_curve x y /\
  forall h, h = 2 \/ h = 4 \/ h = 8 -> h < index < 2 * h -> base_tab j index = ec_add (base_tab j h) (base_tab j (index - h)).
Proof.
  intros Hj Hi. split; [by vm_compute|]. pose proof (entries_checked j index Hj Hi) as H. unfold entry_check in H. destruct (base_tab j index) as [[x y]|]; [|discriminate].
  apply andb_prop in H as [Hc Hs]. apply Z.eqb_eq in Hc. exists x, y. split; [done|]. split; [exact Hc|]. intros h Hh Hr. rewrite forallb_forall in Hs. specialize (Hs (Z.to_nat h)). cbv zeta in Hs.
  rewrite Z2Nat.id in Hs by lia. rewrite (proj2 (Z.ltb_lt _ _)), (proj2 (Z.ltb_lt _ _)) in Hs by lia. cbn [andb] in Hs.
  assert (Hin : In (Z.to_nat h) [2; 4; 8]%nat) by (destruct Hh as [->|[->| ->]]; cbn; tauto). specialize (Hs Hin). destruct (base_tab j h) as [B|], (base_tab j (index - h)) as [C|]; try discriminate.
  by destruct (sum_check_ok B C (x, y) Hs) as [_ ->].
Qed.

Lemma kPrecomputed_entries_witness : base_tab 32 13 = ec_add (base_tab 32 8) (base_tab 32 5).
Proof. destruct (kPrecomputed_entries 32 13 ltac:(by right) ltac:(lia)) as (_ & x & y & _ & _ & H). apply (H 8); [by right; right|lia]. Defined.

(** The base point and the entry for 2^64 G, as the code holds them. *)
Lemma point_add_or_double_vartime_correct_witness :
  let P := mk_point (base_point 0 1).1 (base_point 0 1).2 kOne in let Q := mk_point (base_point 0 2).1 (base_point 0 2).2 kOne in
  exists R, point_add_or_double_vartime 2 P Q = Done R /\ stands_for R (base_tab 0 3).
Proof.
  destruct (select_affine_ok 0 1 ltac:(by left) ltac:(lia)) as (_ & X1 & Y1). destruct (select_affine_ok 0 2 ltac:(by left) ltac:(lia)) as (_ & X2 & Y2). cbn [Z.eqb] in X1, Y1, X2, Y2.
  cbv zeta.
  destruct (proj1 (point_add_or_double_vartime_correct 2 _ _ _ _ _ _ (le_n 2) (affine_jac _ _ _ _ (repr_unmont _ X1) (repr_unmont _ Y1)) (affine_jac _ _ _ _ (repr_unmont _ X2) (repr_unmont _ Y2)))) as (R & E & S).
  exists R. split; [exact E|]. assert (C : sum_check (unmont (base_point 0 1).1, unmont (base_point 0 1).2) (unmont (base_point 0 2).1, unmont (base_point 0 2).2)
    (unmont (base_point 0 3).1, unmont (base_point 0 3).2) = true) by (by vm_compute). destruct (sum_check_ok _ _ _ C) as [_ C']. rewrite C' in S. exact S.
Defined.
