(* ===== verification/P256Ecdsa.v ===== *)
(** * ECDSA signatures (libmincrypt p256_ecdsa.c)

    [fuel] bounds the turns of the modular inversion; the test of a field
    element for zero needs two. *)
From S2P Require Import Prelude P256 P256Field P256Point.

Definition p256_ecdsa_verify (fuel : nat) (key_x key_y message r s : p256_int) : outcome Z :=
  let! valid := p256_is_valid_point key_x key_y in
  if valid =? 0 then Done 0 else
  let u := p256_mod SECP256r1_n r in
  let v := p256_mod SECP256r1_n s in
  if negb (p256_is_zero u =? 0) || negb (p256_is_zero v =? 0) then Done 0 else
  let! v := p256_modinv_vartime fuel SECP256r1_n s in
  let! u := p256_modmul SECP256r1_n message 0 v in
  let! v := p256_modmul SECP256r1_n r 0 v in
  let! uv := p256_points_mul_vartime fuel u v key_x key_y in
  let u := p256_mod SECP256r1_n uv.1 in
  Done (c_not (p256_cmp r u)).
