(* ===== verification/P256EcdsaCorrect.v ===== *)
(** * Linear combinations of points, and ECDSA verification *)
From Stdlib Require Import Znumtheory.
From S2P Require Import Prelude Words P256 P256Correct P256Euclid P256Field P256FieldCorrect P256MulCorrect Primes P256Mont P256Point P256PointCorrect P256Schedule P256MultCorrect P256Ecdsa.

#[local] Opaque felem_mul felem_square felem_sum felem_diff felem_scalar_3 felem_scalar_4 felem_scalar_8 felem_inv finv.

(** ** No fault *)

Lemma affine_out_total P : point_ok P -> exists x y, affine_out P = Done (x, y) /\ num x /\ num y.
Proof.
  intros H. destruct (ok_point P H) as (X & Y & C & Hx & Hy & Hz). destruct P as [px py pz]. cbn [p_x p_y p_z] in *. unfold affine_out, point_to_affine. cbv zeta.
  pose proof (repr_finv _ _ Hz) as Hi. set (zi := felem_inv pz) in *. pose proof (repr_square _ _ Hi) as Hi2. pose proof (repr_mul _ _ _ _ Hi Hi2) as Hi3.
  destruct (from_montgomery_product px (felem_square zi) _ (repr_ok _ _ Hx) (repr_ok _ _ Hi2) (repr_mul _ _ _ _ Hx Hi2)) as (x & -> & Nx & _). cbn [obind].
  destruct (from_montgomery_product py (felem_mul zi (felem_square zi)) _ (repr_ok _ _ Hy) (repr_ok _ _ Hi3) (repr_mul _ _ _ _ Hy Hi3)) as (y & -> & Ny & _). cbn [obind].
  exists x, y. split; [reflexivity|]. exact (conj Nx Ny).
Qed.

Lemma add_or_double_total fuel P Q : (2 <= fuel)%nat -> point_ok P -> point_ok Q -> exists R, point_add_or_double_vartime fuel P Q = Done R /\ point_ok R.
Proof.
  intros Hf HP HQ. pose proof (point_add_total P Q HP HQ) as Hadd. pose proof (point_double_total P HP) as Hdbl.
  destruct (ok_point P HP) as (X1 & Y1 & C1 & Hx1 & Hy1 & Hz1), (ok_point Q HQ) as (X2 & Y2 & C2 & Hx2 & Hy2 & Hz2). destruct P as [px1 py1 pz1], Q as [px2 py2 pz2]. cbn [p_x p_y p_z] in *.
  unfold point_add_or_double_vartime. cbv zeta. set (h := felem_diff (felem_mul px2 (felem_square pz1)) (felem_mul px1 (felem_square pz2))).
  set (r := felem_diff (felem_mul py2 (felem_mul pz1 (felem_square pz1))) (felem_mul py1 (felem_mul pz2 (felem_square pz2)))).
  assert (Hh : exists v, repr h v) by (eexists; unfold h; eauto 10 with felem). assert (Hr : exists v, repr r v) by (eexists; unfold r; eauto 10 with felem). destruct Hh as [hv Hh], Hr as [rv Hr].
  destruct (felem_is_zero_vartime_ok h hv fuel Hh Hf) as (bx & -> & _). cbn [obind]. destruct (felem_is_zero_vartime_ok r rv fuel Hr Hf) as (by_ & -> & _). cbn [obind].
  destruct (bx && by_); eexists; (split; [reflexivity|]); [exact Hdbl|exact Hadd].
Qed.

(** ** Linear combinations *)

Definition finite (oa : option ec) : option ec := match oa with Some (Some A) => Some (Some A) | _ => None end.

(** [n1 G + n2 Q] over the curve, by the two schedules. *)
Definition points_mul_ref (n1 n2 : p256_int) (Q : Z * Z) : option ec :=
  if val n1 =? 0 then if val n2 =? 0 then Some None else finite (window (Some Q) n2)
  else if val n2 =? 0 then finite (comb base_tab n1)
  else A ← finite (comb base_tab n1); B ← finite (window (Some Q) n2); Some (ec_add A B).

Lemma finite_acc n oa A : acc_for n oa -> finite oa = Some A -> stands_for (a_n n) A /\ exists x y, A = Some (x, y).
Proof. destruct oa as [[[x y]|]|]; cbn [finite]; [|done..]. intros [H _] [= <-]. split; [done|by exists x, y]. Qed.

Lemma points_mul_ok fuel n1 n2 in_x in_y : (2 <= fuel)%nat -> num n1 -> num n2 -> num in_x -> num in_y ->
  exists x y, p256_points_mul_vartime fuel n1 n2 in_x in_y = Done (x, y) /\ num x /\ num y /\
    forall R, points_mul_ref n1 n2 (val in_x, val in_y) = Some R -> val x = (affine_val R).1 mod p /\ val y = (affine_val R).2 mod p.
Proof.
  intros Hf H1 H2 Hx Hy. unfold p256_points_mul_vartime, points_mul_ref. rewrite !p256_is_zero_ok by done.
  destruct (to_montgomery_ok in_x Hx) as (px & -> & _ & Rx). cbn [obind]. destruct (to_montgomery_ok in_y Hy) as (py & -> & _ & Ry). cbn [obind].
  destruct (scalar_base_mult_ok n1 H1) as (m1 & -> & A1). cbn [obind]. destruct (scalar_mult_ok px py (val in_x) (val in_y) n2 Rx Ry H2) as (m2 & -> & A2). cbn [obind].
  pose proof (proj1 (acc_ok _ _ A1)) as O1. pose proof (proj1 (acc_ok _ _ A2)) as O2.
  assert (Hone : forall m oa, acc_for m oa -> point_ok (a_n m) -> exists x y, affine_out (a_n m) = Done (x, y) /\ num x /\ num y /\
    forall R, finite oa = Some R -> val x = (affine_val R).1 mod p /\ val y = (affine_val R).2 mod p).
  { intros m oa HA HO. destruct (finite oa) as [B|] eqn:EF.
    - destruct (finite_acc m oa B HA EF) as [HS _]. destruct (affine_out_ok _ _ HS) as (x & y & E & Nx & Ny & Vx & Vy). exists x, y. refine (conj E (conj Nx (conj Ny _))). intros R [= <-]. exact (conj Vx Vy).
    - destruct (affine_out_total _ HO) as (x & y & E & Nx & Ny). exists x, y. refine (conj E (conj Nx (conj Ny _))). intros R [=]. }
  destruct (Z.eqb_spec (val n1) 0) as [E1|E1], (Z.eqb_spec (val n2) 0) as [E2|E2]; cbn [Z.eqb negb andb obind].
  - exists p256_clear, p256_clear. split; [done|]. split; [by apply u32b_num|]. split; [by apply u32b_num|]. intros R [= <-]. exact (conj eq_refl eq_refl).
  - apply (Hone _ _ A2 O2).
  - apply (Hone _ _ A1 O1).
  - destruct (finite (comb base_tab n1)) as [A|] eqn:F1, (finite (window (Some (val in_x, val in_y)) n2)) as [B|] eqn:F2; cbn [mbind option_bind].
    1: { destruct (finite_acc _ _ _ A1 F1) as [S1 (x1 & y1 & ->)], (finite_acc _ _ _ A2 F2) as [S2 (x2 & y2 & ->)].
      destruct (point_add_or_double_ok fuel _ _ x1 y1 x2 y2 Hf S1 S2) as (P & -> & SP). cbn [obind]. destruct (affine_out_ok _ _ SP) as (x & y & E & Nx & Ny & Vx & Vy).
      exists x, y. refine (conj E (conj Nx (conj Ny _))). intros R [= <-]. exact (conj Vx Vy). }
    all: destruct (add_or_double_total fuel _ _ Hf O1 O2) as (P & -> & OP); cbn [obind]; destruct (affine_out_total _ OP) as (x & y & E & Nx & Ny); exists x, y; refine (conj E (conj Nx (conj Ny _))); intros R [=].
Qed.

(** [p256_points_mul_vartime] never faults, whatever its arguments, and
    refines the schedules over the curve: when no addition or doubling on the
    way is refused, the coordinates returned are those of [n1 G + n2 Q], and
    zeros for the point at infinity. *)
Theorem p256_points_mul_vartime_correct fuel n1 n2 in_x in_y : (2 <= fuel)%nat -> num n1 -> num n2 -> num in_x -> num in_y ->
  exists x y, p256_points_mul_vartime fuel n1 n2 in_x in_y = Done (x, y) /\ num x /\ num y /\
    forall R, points_mul_ref n1 n2 (val in_x, val in_y) = Some R -> val x = (affine_val R).1 mod p /\ val y = (affine_val R).2 mod p.
Proof. apply points_mul_ok. Qed.

(** ** ECDSA *)

Abbreviation n := (val SECP256r1_n).

Definition key_ok (x y : Z) : Prop :=
  0 < x < p /\ 0 < y < p /\ on_curve x y /\ ~ (p <= (x ^ 3 - 3 * x) mod p + val SECP256r1_b < W).

Lemma order_gcd s : s mod n <> 0 -> Z.gcd n s = 1.
Proof.
  intros H. apply Zgcd_1_rel_prime, prime_rel_prime; [apply prime_order|]. intros D. apply H. by apply Zdivide_mod.
Qed.

(** The whole verification: the tests, then the comparison with the first
    coordinate of [u1 G + u2 Q]. *)
Lemma ecdsa_verify_run fuel key_x key_y message r s : (1022 <= fuel)%nat -> num key_x -> num key_y -> num message -> num r -> num s ->
  exists v, p256_ecdsa_verify fuel key_x key_y message r s = Done v /\
    ((v = 0 /\ ~ (key_ok (val key_x) (val key_y) /\ val r mod n <> 0 /\ val s mod n <> 0)) \/
     (key_ok (val key_x) (val key_y) /\ val r mod n <> 0 /\ val s mod n <> 0 /\ exists w u1 u2 x y, (w * val s) mod n = 1 /\ 0 <= w < n /\
       num u1 /\ val u1 = (val message * w) mod n /\ num u2 /\ val u2 = (val r * w) mod n /\
       p256_points_mul_vartime fuel u1 u2 key_x key_y = Done (x, y) /\ num x /\ v = if val r =? val x mod n then 1 else 0)).
Proof.
  intros Hf Hx Hy Hm Hr Hs. unfold p256_ecdsa_verify. destruct (is_valid_point_ok key_x key_y Hx Hy) as (valid & -> & Hv & Hvalid). cbn [obind]. fold (key_ok (val key_x) (val key_y)) in Hvalid.
  destruct Hv as [->| ->].
  { exists 0. split; [done|]. left. split; [done|]. intros (K & _). apply Hvalid in K. discriminate. }
  pose proof (proj1 Hvalid eq_refl) as K. change (1 =? 0) with false. cbn iota. pose proof order_modulus as HM. pose proof (md_num _ HM) as HN.
  pose proof (modulus_bounds SECP256r1_n HM) as HB. destruct (p256_mod_ok SECP256r1_n r HN ltac:(unfold W in *; lia) Hr) as [Nr Vr]. destruct (p256_mod_ok SECP256r1_n s HN ltac:(unfold W in *; lia) Hs) as [Ns Vs].
  rewrite !p256_is_zero_ok by done. rewrite Vr, Vs.
  destruct (Z.eqb_spec (val r mod n) 0) as [Er|Er]; cbn [Z.eqb negb orb]; [exists 0; split; [done|]; left; split; [done|]; tauto|].
  destruct (Z.eqb_spec (val s mod n) 0) as [Es|Es]; cbn [Z.eqb negb]; [exists 0; split; [done|]; left; split; [done|]; tauto|].
  destruct (modinv_ok SECP256r1_n s fuel HM eq_refl Hs (order_gcd _ Es) Hf) as (w & -> & Nw & Hwn & Hws). cbn [obind].
  destruct (modmul_ok SECP256r1_n HM message 0 w Hm Nw ltac:(done)) as (u1 & -> & N1 & V1). cbn [obind]. destruct (modmul_ok SECP256r1_n HM r 0 w Hr Nw ltac:(done)) as (u2 & -> & N2 & V2). cbn [obind].
  rewrite Z.mul_0_r, Z.add_0_r in V1, V2. destruct (points_mul_ok fuel u1 u2 key_x key_y ltac:(lia) N1 N2 Hx Hy) as (x & y & Exy & Nx & Ny & _). rewrite Exy. cbn [obind fst].
  destruct (p256_mod_ok SECP256r1_n x HN ltac:(unfold W in *; lia) Nx) as [Nu Vu]. rewrite p256_cmp_ok by done. rewrite Vu. eexists. split; [reflexivity|]. right.
  split; [done|]. split; [done|]. split; [done|]. exists (val w), u1, u2, x, y. split; [done|]. split; [pose proof (num_bound w Nw); lia|]. split; [done|]. split; [done|]. split; [done|]. split; [done|]. split; [exact Exy|]. split; [done|].
  unfold c_not. destruct (Z.eqb_spec (val r) (val x mod n)) as [E|E], (Z.eqb_spec (Z.sgn (val r - val x mod n)) 0) as [E'|E']; (done || lia).
Qed.

(** C13. [p256_ecdsa_verify] always answers 0 or 1: no fault and no endless
    loop, whatever the key, the message and the signature.  It answers 1 only for a key
    on the curve, an [r] between 0 and the order of the group and an [s] that
    is not a multiple of the order. *)
Theorem p256_ecdsa_verify_safe fuel key_x key_y message r s : (1022 <= fuel)%nat -> num key_x -> num key_y -> num message -> num r -> num s ->
  exists v, p256_ecdsa_verify fuel key_x key_y message r s = Done v /\ (v = 0 \/ v = 1) /\
    (v = 1 -> 0 < val key_x < p /\ 0 < val key_y < p /\ on_curve (val key_x) (val key_y) /\ 0 < val r < n /\ val s mod n <> 0).
Proof.
  intros Hf Hx Hy Hm Hr Hs. destruct (ecdsa_verify_run fuel key_x key_y message r s Hf Hx Hy Hm Hr Hs) as (v & E & Hv). exists v. split; [exact E|].
  destruct Hv as [[-> _]|((K1 & K2 & K3 & _) & Er & Es & w & u1 & u2 & x & y & _ & _ & _ & _ & _ & _ & _ & _ & ->)]; [split; [by left|done]|].
  pose proof (num_bound r Hr). destruct (Z.eqb_spec (val r) (val x mod n)) as [Ex|]; [|split; [by left|done]]. split; [by right|]. intros _. split; [done|]. split; [done|]. split; [done|].
  pose proof (Z.mod_pos_bound (val x) n ltac:(done)). split; [|done]. rewrite Ex in Er. rewrite Z.mod_mod in Er by done. lia.
Qed.


(** ** An example: the key 2G, and a signature with u1 = u2 = 1 *)

Module EcdsaWitnesses.
Import P256Witnesses.

(** [C] is twice [A]; no division. *)
Definition dbl_check (A C : Z * Z) : bool :=
  let '(x, y) := A in let '(x3, y3) := C in let e := 3 * (x * x) - 3 in
  negb (y mod p =? 0) && ((2 * y * (2 * y) * (x3 + x + x) - e * e) mod p =? 0) && ((2 * y * (y3 + y) - e * (x - x3)) mod p =? 0) &&
  (0 <=? x3) && (x3 <? p) && (0 <=? y3) && (y3 <? p).

Lemma dbl_check_ok A C : dbl_check A C = true -> dbl (Some A) = Some (Some C).
Proof.
  destruct A as [x y], C as [x3 y3]. unfold dbl_check. cbv zeta. rewrite !andb_true_iff, negb_true_iff, !Z.leb_le, !Z.ltb_lt, !Z.eqb_eq. intros [[[[[[Hd Hx] Hy] Hx0] Hxp] Hy0] Hyp].
  cbn [dbl ec_adder ec_add]. rewrite !Z.sub_diag, Zmod_0_l, Hd. cbn [Z.eqb negb andb]. do 2 f_equal. apply Z.eqb_neq, nonzero_mod in Hd. assert (Hn : nonzero (2 * y)) by auto with felem. apply cong_of_mod in Hx, Hy.
  pose proof (finv_ok _ Hn) as I. set (f := finv (2 * y)) in *. set (e := 3 * (x * x) - 3) in *. unfold chord.
  assert (Hl : cong p (2 * y * (e * f)) e) by (replace (2 * y * (e * f)) with (e * (2 * y * f)) by ring; by rewrite I, Z.mul_1_r). set (l := e * f) in *. clearbody l f e. clear I. set (d := 2 * y) in *.
  assert (E3 : cong p (l * l - x - x) x3).
  { apply (cong_mul_cancel (d * d)); [by apply nonzero_mul|]. replace (d * d * (l * l - x - x)) with (d * l * (d * l) - d * d * (x + x)) by ring. rewrite Hl. destruct Hx as [k Hk]. exists (- k). lia. }
  assert (Ex : (l * l - x - x) mod p = x3) by (apply cong_mod in E3; [|done]; by rewrite E3, Z.mod_small by lia). rewrite Ex. f_equal.
  assert (Ey : cong p (l * (x - x3) - y) y3).
  { apply (cong_mul_cancel d); [done|]. replace (d * (l * (x - x3) - y)) with (d * l * (x - x3) - d * y) by ring. rewrite Hl. destruct Hy as [k Hk]. exists (- k). lia. }
  apply cong_mod in Ey; [|done]. by rewrite Ey, Z.mod_small by lia.
Qed.

(** The multiples in a table, given and checked. *)
Fixpoint run_check (k i : nat) (P : Z * Z) (tab : list ec) (cs : list ((Z * Z) * (Z * Z))) : bool :=
  match k, cs with
  | O, [] => true
  | S k, (d, s) :: cs =>
      match tab !! (i / 2)%nat with
      | Some (Some h) => dbl_check h d && sum_check d P s && run_check k (i + 2) P (tab ++ [Some d; Some s]) cs
      | _ => false
      end
  | _, _ => false
  end.

Lemma run_check_ok P cs : forall k i tab, run_check k i P tab cs = true -> table_run k i (Some P) tab = Some (tab ++ concat ((fun c => [Some c.1; Some c.2]) <$> cs)).
Proof.
  induction cs as [|[d s] cs IH]; intros [|k] i tab H; cbn [run_check] in H; try discriminate; cbn [table_run]; [by rewrite app_nil_r|].
  destruct (tab !! (i / 2)%nat) as [[h|]|]; try discriminate. rewrite !andb_true_iff in H. destruct H as [[H1 H2] H3]. cbn [mbind option_bind]. rewrite (dbl_check_ok _ _ H1). cbn [mbind option_bind].
  destruct (sum_check_ok _ _ _ H2) as [Hne Hsum]. assert (Ha : add (Some d) (Some P) = Some (Some s)).
  { destruct d as [dx dy], P as [qx qy]. cbn [fst] in Hne. cbn [add ec_adder]. rewrite (proj2 (Z.eqb_neq _ _) Hne). f_equal. exact Hsum. }
  rewrite Ha. cbn [mbind option_bind]. rewrite (IH _ _ _ H3). by rewrite <- app_assoc.
Qed.

Definition key : Z * Z := (0x7cf27b188d034f7e8a52380304b51ac3c08969e277f21b35a60b48fc47669978, 0x7775510db8ed040293d9ac69f7430dbba7dade63ce982299e04b79d227873d1).

Definition key_multiples : list ((Z * Z) * (Z * Z)) := [
  ((0xe2534a3532d08fbba02dde659ee62bd0031fe2db785596ef509302446b030852, 0xe0f1575a4c633cc719dfee5fda862d764efc96c3f30ee0055c42c23f184ed8c6), (0xb01a172a76a4602c92d3242cb897dde3024c740debb215b4c6b0aae93c2291a9, 0xe85c10743237dad56fec0e2dfba703791c00f7701c7e16bdfd7c48538fc77fe2));
  ((0x62d9779dbee9b0534042742d3ab54cadc1d238980fce97dbb4dd9dc1db6fb393, 0xad5accbd91e9d8244ff15d771167cee0a2ed51f6bbe76a78da540a6a0f09957e), (0xcef66d6b2a3a993e591214d1ea223fb545ca6c471c48306e4c36069404c5723f, 0x878662a229aaae906e123cdd9d3b4c10590ded29fe751eeeca34bbaa44af0773));
  ((0x741dd5bda817d95e4626537320e5d55179983028b2f82c99d500c5ee8624e3c4, 0x770b46a9c385fdc567383554887b1548eeb912c35ba5ca71995ff22cd4481d3), (0x54e77a001c3862b97a76647f4336df3cf126acbe7a069c5e5709277324d2920b, 0xf599f1bb29f4317542121f8c05a2e7c37171ea77735090081ba7c82f60d0b375));
  ((0x76a94d138a6b41858b821c629836315fcd28392eff6ca038a5eb4787e1277c6e, 0xa985fe61341f260e6cb0a1b5e11e87208599a0040fc78baa0e9ddd724b8c5110), (0x1057e0ab5780f470defc9378d1c7c87437bb4c6f9ea55c63d936266dbd781fda, 0xf6f1645a15cbe5dc9fa9b7dfd96ee5a7dcc11b5c5ef4f1f78d83b3393c6a45a2));
  ((0x83a01a9378395bab9bcd6a0ad03cc56d56e6b19250465a94a234dc4c6b28da9a, 0x76e49b6de2f73234ae6a5eb9d612b75c9f2202bb6923f54ff8240aaa86f640b8), (0xc0dd241a50d48f99fcc7a186a6d44e0763ec90478e1def8e36f5c4e950d67afb, 0x8286732ea96548b841a7cdc6eac062d8da78e57ce03ea2d60cbcd16bd8caec6c));
  ((0xdb474918ec62ad7eb652b8b0af585aba9b2f394723ab103776e27d7d8c2aa4cb, 0x85811d39bb743f28439794607b06d52b8a249c47830a37d221db656c94a7ab55), (0xf5757c012185a599d1f3958b0ae68aa5dffd3d78e1a2eee67417001857658331, 0x393a6ed02c7675b24b1238d1d2a08fd50a6e5e5108df840bff533dfe7268dec4));
  ((0x38d86fa55b4fd1586c5f05fae7acfc4d36cbdcf7fa62129339246f69c4300e4e, 0x3f93b85a4abd0f277ff6a68909e7022ef8b9fcbb91d89bb79f930dc0ff69e47b), (0x409f8da21aea236a5f5a1904d0310c1c6192a67d0da08936319869a8ad0838a3, 0x70dcf7b1cf008e570e26e72bd3bd40f73e99a0ec162a6793e163d2c72a1e8f5a))].

(** 3G. *)
Definition sum : Z * Z := (0x5ecbe4d1a6330a44c8f7ef951d4bf165e6c6b721efada985fb41661bc6e7fd6c, 0x8734640c4998ff7e374b06ce1a64a2ecd82ab036384fb83d9a79b127a27d5032).

Definition sig_r : Z := 0x5ecbe4d1a6330a44c8f7ef951d4bf165e6c6b721efada985fb41661bc6e7fd6c.

Lemma key_window : window (Some key) P256_ONE = Some (Some key).
Proof.
  unfold window. change (@zero ec ec_adder) with (@None (Z * Z)). rewrite (run_check_ok key key_multiples) by (by vm_compute). cbn [mbind option_bind]. by vm_compute.
Qed.

Lemma key_sum : ec_add (base_tab 0 1) (Some key) = Some sum.
Proof. assert (E : base_tab 0 1 = Some (val G_x, val G_y)) by (by vm_compute). rewrite E. apply (sum_check_ok (val G_x, val G_y) key sum). by vm_compute. Qed.

Lemma example_ref : points_mul_ref P256_ONE P256_ONE key = Some (Some sum).
Proof.
  unfold points_mul_ref. change (val P256_ONE =? 0) with false. cbn iota. rewrite key_window. assert (E : comb base_tab P256_ONE = Some (base_tab 0 1)) by (by vm_compute). rewrite E.
  assert (E1 : finite (Some (base_tab 0 1)) = Some (base_tab 0 1)) by (by vm_compute). rewrite E1. cbn [finite mbind option_bind]. by rewrite key_sum.
Qed.

Definition key_x : p256_int := digits 8 key.1.
Definition key_y : p256_int := digits 8 key.2.
Definition sig : p256_int := digits 8 sig_r.

Lemma nums : num key_x /\ num key_y /\ num sig /\ num P256_ONE.
Proof. split; [by apply u32b_num|]. split; [by apply u32b_num|]. split; by apply u32b_num. Qed.

Lemma p256_points_mul_vartime_correct_witness :
  exists x y, p256_points_mul_vartime 2 P256_ONE P256_ONE key_x key_y = Done (x, y) /\ val x = sum.1 /\ val y = sum.2.
Proof.
  destruct nums as (Nx & Ny & _ & N1). destruct (p256_points_mul_vartime_correct 2 P256_ONE P256_ONE key_x key_y (le_n 2) N1 N1 Nx Ny) as (x & y & E & _ & _ & H). exists x, y. split; [exact E|].
  assert (Ek : (val key_x, val key_y) = key) by (by vm_compute). rewrite Ek in H. destruct (H _ example_ref) as [-> ->]. split; by vm_compute.
Defined.

Lemma p256_ecdsa_verify_safe_witness : exists v, p256_ecdsa_verify 1022 key_x key_y sig sig sig = Done v /\ (v = 0 \/ v = 1).
Proof.
  destruct nums as (Nx & Ny & Ns & _). destruct (p256_ecdsa_verify_safe 1022 key_x key_y sig sig sig (le_n _) Nx Ny Ns Ns Ns) as (v & E & Hv & _). exists v. split; [exact E|exact Hv].
Defined.

End EcdsaWitnesses.
