(* ===== verification/FbUsb.v ===== *)
(** * The USB transport of fastboot (usb_linux.c)

    The kernel behind the device node is a parameter: a state and what the
    bulk-transfer ioctl does to it.  The handle, the splitting of writes into
    transfers, the retries of reads, closing, and the scan of a device's
    descriptors are the code's. *)
From S2P Require Import Prelude CStrings.

(** ** The kernel *)

(** [ioctl(fd, USBDEVFS_BULK, ...)] out and in on an endpoint: the number of
    bytes taken, or the bytes received; negative on an error. *)
Record usbfs (K : Type) := mk_usbfs {
  bulk_out : K -> Z -> list byte -> K * Z;
  bulk_in : K -> Z -> Z -> K * (Z + list byte);
  fd_close : K -> Z -> K
}.
Arguments bulk_out {K} _ _ _ _.
Arguments bulk_in {K} _ _ _ _.
Arguments fd_close {K} _ _ _.

(** The kernel fills at most the buffer it is given, and an error is negative. *)
Class UsbfsLaws {K} (u : usbfs K) := {
  bulk_in_bounded k ep n k' b : 0 <= n -> bulk_in u k ep n = (k', inr b) -> blen b <= n;
  bulk_in_error k ep n k' e : bulk_in u k ep n = (k', inl e) -> e < 0
}.

(** ** The handle *)

Record usb_handle := mk_usb_handle {
  h_fname : list byte;
  h_desc : Z;
  h_ep_in : Z;
  h_ep_out : Z
}.

Definition MAX_USBFS_BULK_SIZE : Z := 16 * 1024.
Definition MAX_RETRIES : nat := 5.

(** [n] bytes at a pointer to [m]; a null pointer has no readable byte. *)
Definition mem_read (m : list byte) (n : Z) : outcome (list byte) :=
  if blen m <? n then Crash OutOfBounds else Done (slice 0 n m).

Section Transport.
Context {K : Type} (u : usbfs K).

(** The [do ... while (len > 0)] of [usb_write]; a negative length is more
    than the kernel accepts, and the ioctl gives -1. *)
Fixpoint usb_write_loop (fuel : nat) (h : usb_handle) (k : K) (data : list byte) (len count : Z)
    : outcome (K * Z) :=
  match fuel with
  | O => Crash OutOfFuel
  | S fuel =>
      let xfer := if MAX_USBFS_BULK_SIZE <? len then MAX_USBFS_BULK_SIZE else len in
      let! (k, n) :=
        if xfer <? 0 then Done (k, -1)
        else let! b := mem_read data xfer in Done (bulk_out u k (h_ep_out h) b) in
      if negb (n =? xfer) then Done (k, -1) else
      let count := u32 (count + xfer) in
      let len := len - xfer in
      let data := drop (Z.to_nat xfer) data in
      if 0 <? len then usb_write_loop fuel h k data len count else Done (k, s32 count)
  end.

(** Each turn but the last takes [MAX_USBFS_BULK_SIZE] off [len]. *)
Definition usb_write (h : usb_handle) (k : K) (data : list byte) (len : Z) : outcome (K * Z) :=
  if (h_ep_out h =? 0) || (h_desc h =? -1) then Done (k, -1)
  else usb_write_loop (S (Z.to_nat (len / MAX_USBFS_BULK_SIZE + 1))) h k data len 0.

(** The inner [do ... while (n < 0)]: after [tries] more failures the read
    gives up. *)
Fixpoint bulk_in_retry (tries : nat) (h : usb_handle) (k : K) (xfer : Z) : K * option (list byte) :=
  match bulk_in u k (h_ep_in h) xfer with
  | (k, inr b) => (k, Some b)
  | (k, inl _) =>
      match tries with
      | O => (k, None)
      | S tries => bulk_in_retry tries h k xfer
      end
  end.

(** [acc] holds the bytes already in the buffer; their number is [count]. *)
Fixpoint usb_read_loop (fuel : nat) (h : usb_handle) (k : K) (len : Z) (acc : list byte)
    : outcome (K * option (list byte)) :=
  if 0 <? len then
    match fuel with
    | O => Crash OutOfFuel
    | S fuel =>
        let xfer := if MAX_USBFS_BULK_SIZE <? len then MAX_USBFS_BULK_SIZE else len in
        match bulk_in_retry MAX_RETRIES h k xfer with
        | (k, None) => Done (k, None)
        | (k, Some b) =>
            let n := blen b in
            if n <? xfer then Done (k, Some (acc ++ b))
            else usb_read_loop fuel h k (len - n) (acc ++ b)
        end
    end
  else Done (k, Some acc).

(** [None] is a result of -1. *)
Definition usb_read (h : usb_handle) (k : K) (len : Z) : outcome (K * option (list byte)) :=
  if (h_ep_in h =? 0) || (h_desc h =? -1) then Done (k, None)
  else usb_read_loop (S (Z.to_nat (len / MAX_USBFS_BULK_SIZE + 1))) h k len [].

Definition usb_close (h : usb_handle) (k : K) : usb_handle * K :=
  (mk_usb_handle (h_fname h) (-1) (h_ep_in h) (h_ep_out h),
   if 0 <=? h_desc h then fd_close u k (h_desc h) else k).
End Transport.

(** ** Finding the interface *)

Definition isdigit (c : byte) : bool :=
  let n := byte_to_Z c in (48 <=? n) && (n <=? 57).

(** [name] is a directory entry's name. *)
Definition badname (name : list byte) : bool :=
  match name with
  | [] => true
  | c :: rest =>
      negb (isdigit c) ||
      existsb (fun c => negb (isdigit c) && negb (bool_decide (c = Init.Byte.x2e))
                        && negb (bool_decide (c = Init.Byte.x2d))) rest
  end.

Definition USB_DT_DEVICE : Z := 1.
Definition USB_DT_CONFIG : Z := 2.
Definition USB_DT_INTERFACE : Z := 4.
Definition USB_DT_ENDPOINT : Z := 5.
Definition USB_DT_DEVICE_SIZE : Z := 18.
Definition USB_DT_CONFIG_SIZE : Z := 9.
Definition USB_DT_INTERFACE_SIZE : Z := 9.
Definition USB_DT_ENDPOINT_SIZE : Z := 7.
Definition USB_DT_SS_EP_COMP_SIZE : Z := 6.

(** Byte [off] of the descriptors read from the device node: the buffer has
    1024 bytes, of which the first [blen d] were read. *)
Definition desc_byte (d : list byte) (off : Z) : outcome Z :=
  if (off <? 0) || (1024 <=? off) then Crash OutOfBounds
  else match d !! Z.to_nat off with
       | Some b => Done (byte_to_Z b)
       | None => Crash UninitRead
       end.

(** [check]: true is a result of 0. *)
Definition check (d : list byte) (ptr len type size : Z) : outcome bool :=
  if len <? size then Done false else
  let! bLength := desc_byte d ptr in
  if bLength <? size then Done false else
  if len <? bLength then Done false else
  let! t := desc_byte d (ptr + 1) in
  Done (t =? type).

Record usb_ifc_info := mk_ifc_info {
  dev_vendor : Z;
  dev_product : Z;
  dev_class : Z;
  dev_subclass : Z;
  dev_protocol : Z;
  ifc_class : Z;
  ifc_subclass : Z;
  ifc_protocol : Z;
  has_bulk_in : bool;
  has_bulk_out : bool;
  writable : bool;
  (** the bytes of the array that were written *)
  serial_number : list byte;
  device_path : list byte
}.

(** The serial number array after reading the sysfs file, when the device has
    a serial number string; [None] is a file that cannot be opened. *)
Definition read_serial (has : bool) (file : option (list byte)) : list byte :=
  match has, file with
  | true, Some content =>
      let got := slice 0 255 content in
      match got with
      | [] => [Init.Byte.x00]
      | _ =>
          if bool_decide (List.last got Init.Byte.x00 = Init.Byte.x0a)
          then removelast got ++ [Init.Byte.x00] else got
      end
  | _, _ => [Init.Byte.x00]
  end.

(** Skip descriptors until one of the wanted type; stops at the end. *)
Fixpoint skip_to_desc (fuel : nat) (d : list byte) (ptr len type size : Z) : outcome (Z * Z) :=
  if 0 <? len then
    match fuel with
    | O => Crash OutOfFuel
    | S fuel =>
        let! found := check d ptr len type size in
        if found : bool then Done (ptr, len) else
        let! bLength := desc_byte d ptr in
        skip_to_desc fuel d (ptr + bLength) (len - bLength) type size
    end
  else Done (ptr, len).

(** The loop over the endpoints of an interface, on [(ptr, len, in, out)]. *)
Fixpoint endpoints_loop (todo : nat) (fuel : nat) (d : list byte) (bcdUSB ptr len inp out : Z)
    : outcome (Z * Z * Z * Z) :=
  match todo with
  | O => Done (ptr, len, inp, out)
  | S todo =>
      let! (ptr, len) := skip_to_desc fuel d ptr len USB_DT_ENDPOINT USB_DT_ENDPOINT_SIZE in
      if len <? 0 then Done (ptr, len, inp, out) else
      let ept := ptr in
      let! bLength := desc_byte d ept in
      let len := len - bLength in
      let ptr := ptr + bLength in
      let! bmAttributes := desc_byte d (ept + 3) in
      if negb (Z.land bmAttributes 0x03 =? 0x02)
      then endpoints_loop todo fuel d bcdUSB ptr len inp out
      else
        let! addr := desc_byte d (ept + 2) in
        let '(inp, out) := if negb (Z.land addr 0x80 =? 0) then (addr, out) else (inp, addr) in
        let '(ptr, len) := if 0x0300 <=? bcdUSB
          then (ptr + USB_DT_SS_EP_COMP_SIZE, len - USB_DT_SS_EP_COMP_SIZE) else (ptr, len) in
        endpoints_loop todo fuel d bcdUSB ptr len inp out
  end.

(** A little-endian 16-bit field. *)
Definition desc_u16 (d : list byte) (off : Z) : outcome Z :=
  let! lo := desc_byte d off in
  let! hi := desc_byte d (off + 1) in
  Done (lo + 256 * hi).

(** The loop over the interfaces; the answer is the bulk endpoints and the
    interface number, [None] a result of -1. *)
Fixpoint interfaces_loop (todo : nat) (fuel : nat) (d : list byte) (bcdUSB : Z) (info : usb_ifc_info)
    (callback : usb_ifc_info -> outcome bool) (ptr len : Z) : outcome (option (Z * Z * Z)) :=
  match todo with
  | O => Done None
  | S todo =>
      let! (ptr, len) := skip_to_desc fuel d ptr len USB_DT_INTERFACE USB_DT_INTERFACE_SIZE in
      if len <=? 0 then Done None else
      let ifc := ptr in
      let! bLength := desc_byte d ifc in
      let len := len - bLength in
      let ptr := ptr + bLength in
      let! cls := desc_byte d (ifc + 5) in
      let! sub := desc_byte d (ifc + 6) in
      let! proto := desc_byte d (ifc + 7) in
      let! bNumEndpoints := desc_byte d (ifc + 4) in
      let! (ptr, len, inp, out) :=
        endpoints_loop (Z.to_nat bNumEndpoints) fuel d bcdUSB ptr len (-1) (-1) in
      let info := mk_ifc_info (dev_vendor info) (dev_product info) (dev_class info)
        (dev_subclass info) (dev_protocol info) cls sub proto
        (negb (inp =? -1)) (negb (out =? -1))
        (writable info) (serial_number info) (device_path info) in
      let! ok := callback info in
      if ok : bool then
        let! num := desc_byte d (ifc + 2) in
        Done (Some (inp, out, num))
      else interfaces_loop todo fuel d bcdUSB info callback ptr len
  end.

(** [snprintf(buf, n, "usb:%s", name)], with its NUL. *)
Definition usb_path (name : list byte) : list byte :=
  slice 0 255 (bytes_of "usb:" ++ name) ++ [Init.Byte.x00].

(** [filter_usb_device]: the descriptors [d] are the [len] bytes read. *)
Definition filter_usb_device (fuel : nat) (sysfs_name : list byte) (d : list byte) (can_write : bool)
    (serial_file : option (list byte)) (callback : usb_ifc_info -> outcome bool)
    : outcome (option (Z * Z * Z)) :=
  let len := blen d in
  let! ok := check d 0 len USB_DT_DEVICE USB_DT_DEVICE_SIZE in
  if negb ok then Done None else
  let! dev_len := desc_byte d 0 in
  let len := len - dev_len in
  let cfg := dev_len in
  let! ok := check d cfg len USB_DT_CONFIG USB_DT_CONFIG_SIZE in
  if negb ok then Done None else
  let! cfg_len := desc_byte d cfg in
  let len := len - cfg_len in
  let ptr := cfg + cfg_len in
  let! bcdUSB := desc_u16 d 2 in
  let! cls := desc_byte d 4 in
  let! sub := desc_byte d 5 in
  let! proto := desc_byte d 6 in
  let! vendor := desc_u16 d 8 in
  let! prod := desc_u16 d 10 in
  let! iSerialNumber := desc_byte d 16 in
  let! bNumInterfaces := desc_byte d (cfg + 4) in
  let info := mk_ifc_info vendor prod cls sub proto 0 0 0 false false can_write
    (read_serial (negb (iSerialNumber =? 0)) serial_file) (usb_path sysfs_name) in
  interfaces_loop (Z.to_nat bNumInterfaces) fuel d bcdUSB info callback ptr len.
