(* ===== verification/FbProtocol.v ===== *)
(** * The fastboot protocol, host side (protocol.c)

    The statics of the file are a record: the handle and the kernel behind it,
    the error text, what was shown on stderr, and the buffer that gathers the
    writes of a sparse image.  A fixed-size array that is written past its end
    is a crash. *)
From S2P Require Import Prelude CStrings BlockList Posix SparseFormat OutputFile Sparse FbUsb.

Record fb (K : Type) := mk_fb {
  fb_handle : usb_handle;
  fb_kernel : K;
  fb_error : list byte;
  fb_shown : list (list byte);
  usb_buf : list byte;
  usb_buf_len : Z
}.
Arguments mk_fb {K} _ _ _ _ _ _.
Arguments fb_handle {K} _.
Arguments fb_kernel {K} _.
Arguments fb_error {K} _.
Arguments fb_shown {K} _.
Arguments usb_buf {K} _.
Arguments usb_buf_len {K} _.

Definition ERROR_SIZE : Z := 128.
Definition USB_BUF_SIZE : Z := 1024.
Definition FB_RESPONSE_SZ : Z := 64.

Section State.
Context {K : Type}.

Definition with_kernel (st : fb K) (k : K) : fb K :=
  mk_fb (fb_handle st) k (fb_error st) (fb_shown st) (usb_buf st) (usb_buf_len st).

Definition show (st : fb K) (line : list byte) : fb K :=
  mk_fb (fb_handle st) (fb_kernel st) (fb_error st) (fb_shown st ++ [line]) (usb_buf st) (usb_buf_len st).

Definition with_buf (st : fb K) (b : list byte) (n : Z) : fb K :=
  mk_fb (fb_handle st) (fb_kernel st) (fb_error st) (fb_shown st) b n.

(** [sprintf(ERROR, ...)]. *)
Definition set_error (st : fb K) (msg : list byte) : outcome (fb K) :=
  if ERROR_SIZE <? blen msg + 1 then Crash BufferOverflow
  else Done (mk_fb (fb_handle st) (fb_kernel st) msg (fb_shown st) (usb_buf st) (usb_buf_len st)).

Definition fb_get_error (st : fb K) : list byte := fb_error st.

(** [strcpy(dst, src)] into an array. *)
Definition strcpy (dst src : list byte) : outcome (list byte) :=
  if blen dst <? blen src + 1 then Crash BufferOverflow
  else Done (write_at dst 0 (src ++ [Init.Byte.x00])).
End State.

Section Protocol.
Context {K : Type} (u : usbfs K).
(** [strerror(errno)] after a failed call. *)
Context (strerror : K -> list byte).

Definition close (st : fb K) : fb K :=
  let '(h, k) := usb_close u (fb_handle st) (fb_kernel st) in
  mk_fb h k (fb_error st) (fb_shown st) (usb_buf st) (usb_buf_len st).

(** [sprintf(ERROR, msg); usb_close(usb); return -1]. *)
Definition fail_close {A} (st : fb K) (msg : list byte) (a : A) : outcome (fb K * Z * A) :=
  let! st := set_error st msg in Done (close st, -1, a).

Definition starts_with (pre b : list byte) : bool := bool_decide (take (length pre) b = pre).

Definition errno_msg (what : list byte) (k : K) : list byte :=
  what ++ bytes_of " (" ++ strerror k ++ bytes_of ")".

(** [check_response]; [response] is the caller's array, when it passed one.
    The loop goes on as long as the device sends INFO. *)
Fixpoint check_response (fuel : nat) (st : fb K) (size : Z) (response : option (list byte))
    : outcome (fb K * Z * option (list byte)) :=
  match fuel with
  | O => Crash OutOfFuel
  | S fuel =>
      let! (k, r) := usb_read u (fb_handle st) (fb_kernel st) 64 in
      let st := with_kernel st k in
      match r with
      | None => fail_close st (errno_msg (bytes_of "status read failed") k) response
      | Some status =>
          let r := blen status in
          if 64 <? r then Crash BufferOverflow else
          if r <? 4 then
            fail_close st (bytes_of "status malformed (" ++ dec r ++ bytes_of " bytes)") response
          else
          let text := cstr (drop 4 status) in
          if starts_with (bytes_of "INFO") status then
            check_response fuel (show st (bytes_of "(bootloader) " ++ text)) size response
          else if starts_with (bytes_of "OKAY") status then
            match response with
            | Some dst => let! dst := strcpy dst text in Done (st, 0, Some dst)
            | None => Done (st, 0, None)
            end
          else if starts_with (bytes_of "FAIL") status then
            let! st := set_error st
              (if 4 <? r then bytes_of "remote: " ++ text else bytes_of "remote failure") in
            Done (st, -1, response)
          else if starts_with (bytes_of "DATA") status && (0 <? size) then
            let dsize := u32 (strtoul (String.string_of_list_byte text) 16) in
            if size <? dsize then fail_close st (bytes_of "data size too large") response
            else Done (st, s32 dsize, response)
          else fail_close st (bytes_of "unknown status code") response
      end
  end.

(** [cmd] is the command without its NUL, [size] an unsigned. *)
Definition _command_start (fuel : nat) (st : fb K) (cmd : list byte) (size : Z)
    (response : option (list byte)) : outcome (fb K * Z * option (list byte)) :=
  let cmdsize := blen cmd in
  let! response := match response with
    | Some dst => let! dst := strcpy dst [] in Done (Some dst)
    | None => Done None
    end in
  if 64 <? cmdsize then
    let! st := set_error st (bytes_of "command too large") in Done (st, -1, response)
  else
  let! (k, n) := usb_write u (fb_handle st) (fb_kernel st) cmd cmdsize in
  let st := with_kernel st k in
  if negb (n =? cmdsize)
  then fail_close st (errno_msg (bytes_of "command write failed") k) response
  else check_response fuel st size response.

Definition _command_data (st : fb K) (data : list byte) (size : Z) : outcome (fb K * Z) :=
  let! (k, r) := usb_write u (fb_handle st) (fb_kernel st) data (s32 size) in
  let st := with_kernel st k in
  if r <? 0 then
    let! (st, r, _) := fail_close st (errno_msg (bytes_of "data transfer failure") k) tt in
    Done (st, r)
  else if negb (r =? s32 size) then
    let! (st, r, _) := fail_close st (bytes_of "data transfer failure (short transfer)") tt in
    Done (st, r)
  else Done (st, r).

Definition _command_end (fuel : nat) (st : fb K) : outcome (fb K * Z) :=
  let! (st, r, _) := check_response fuel st 0 None in
  Done (st, if r <? 0 then -1 else 0).

Definition _command_send (fuel : nat) (st : fb K) (cmd data : list byte) (size : Z)
    (response : option (list byte)) : outcome (fb K * Z * option (list byte)) :=
  if size =? 0 then Done (st, -1, response) else
  let! (st, r, response) := _command_start fuel st cmd size response in
  if r <? 0 then Done (st, -1, response) else
  let! (st, r) := _command_data st data size in
  if r <? 0 then Done (st, -1, response) else
  let! (st, r) := _command_end fuel st in
  if r <? 0 then Done (st, -1, response) else
  Done (st, s32 size, response).

Definition _command_send_no_data (fuel : nat) (st : fb K) (cmd : list byte)
    (response : option (list byte)) : outcome (fb K * Z * option (list byte)) :=
  _command_start fuel st cmd 0 response.

Definition fb_command (fuel : nat) (st : fb K) (cmd : list byte) : outcome (fb K * Z) :=
  let! (st, r, _) := _command_send_no_data fuel st cmd None in Done (st, r).

Definition fb_command_response (fuel : nat) (st : fb K) (cmd response : list byte)
    : outcome (fb K * Z * list byte) :=
  let! (st, r, response) := _command_send_no_data fuel st cmd (Some response) in
  Done (st, r, default [] response).

(** [sprintf(cmd, "download:%08x", size)]: 17 characters. *)
Definition download_cmd (size : Z) : list byte := bytes_of "download:" ++ hex8 (u32 size).

Definition fb_download_data (fuel : nat) (st : fb K) (data : list byte) (size : Z)
    : outcome (fb K * Z) :=
  let! (st, r, _) := _command_send fuel st (download_cmd size) data size None in
  Done (st, if r <? 0 then -1 else 0).

(** ** Sparse images *)

(** [memcpy(usb_buf + off, ptr, n)]. *)
Definition buf_copy (st : fb K) (off : Z) (ptr : list byte) (n : Z) : outcome (fb K) :=
  if (off <? 0) || (n <? 0) || (USB_BUF_SIZE <? off + n) then Crash BufferOverflow else
  let! b := mem_read ptr n in
  Done (with_buf st (write_at (usb_buf st) off b) (usb_buf_len st)).

Definition set_buf_len (st : fb K) (n : Z) : fb K := with_buf st (usb_buf st) n.

Definition sparse_write (st : fb K) (ptr : list byte) (len : Z) : outcome (fb K * Z) :=
  let! (st, ptr, len) :=
    if negb (usb_buf_len st =? 0) then
      let to_write := Z.min (USB_BUF_SIZE - usb_buf_len st) len in
      let! st := buf_copy st (usb_buf_len st) ptr to_write in
      Done (set_buf_len st (usb_buf_len st + to_write), drop (Z.to_nat to_write) ptr, len - to_write)
    else Done (st, ptr, len) in
  let! (st, ok) :=
    if usb_buf_len st =? USB_BUF_SIZE then
      let! (st, r) := _command_data st (usb_buf st) USB_BUF_SIZE in
      if negb (r =? USB_BUF_SIZE) then Done (st, false) else Done (set_buf_len st 0, true)
    else Done (st, true) in
  if negb ok then Done (st, -1) else
  let! (st, ptr, len, ok) :=
    if USB_BUF_SIZE <? len then
      if 0 <? usb_buf_len st then
        let! st := set_error st (bytes_of "internal error: usb_buf not empty" ++ [Init.Byte.x0a]) in
        Done (st, ptr, len, false)
      else
        let to_write := len - Z.rem len USB_BUF_SIZE in
        let! (st, r) := _command_data st ptr to_write in
        if negb (r =? to_write) then Done (st, ptr, len, false)
        else Done (st, drop (Z.to_nat to_write) ptr, len - to_write, true)
    else Done (st, ptr, len, true) in
  if negb ok then Done (st, -1) else
  if 0 <? len then
    if USB_BUF_SIZE <? len then
      let! st := set_error st (bytes_of "internal error: too much left for usb_buf" ++ [Init.Byte.x0a]) in
      Done (st, -1)
    else
      let! st := buf_copy st 0 ptr len in
      Done (set_buf_len st len, 0)
  else Done (st, 0).

(** The function given to [sparse_file_callback]: after a crash there is no
    state any more. *)
Definition fb_download_data_sparse_write (priv : outcome (fb K)) (data : option (list byte)) (len : Z)
    : outcome (fb K) * Z :=
  match priv with
  | Crash f => (Crash f, -1)
  | Done st =>
      match sparse_write st (default [] data) len with
      | Crash f => (Crash f, -1)
      | Done (st, r) => (Done st, r)
      end
  end.

Definition fb_download_data_sparse_flush (st : fb K) : outcome (fb K * Z) :=
  if 0 <? usb_buf_len st then
    let! (st', r) := _command_data st (usb_buf st) (usb_buf_len st) in
    if negb (r =? usb_buf_len st') then Done (st', -1) else Done (set_buf_len st' 0, 0)
  else Done (st, 0).

(** [w] is what the blocks of the image are read from. *)
Definition fb_download_data_sparse (fuel : nat) (st : fb K) (s : sparse_file) (w : world)
    : outcome (fb K * Z) :=
  let! size := sparse_file_len s w true false in
  let size := s32 size in
  if size <=? 0 then Done (st, -1) else
  let! (st, r, _) := _command_start fuel st (download_cmd size) size None in
  if r <? 0 then Done (st, -1) else
  let! (st, r) := sparse_file_callback s w true false fb_download_data_sparse_write (Done st) in
  let! st := st in
  if r <? 0 then Done (st, -1) else
  let! (st, _) := fb_download_data_sparse_flush st in
  _command_end fuel st.
End Protocol.
