(* ===== verification/FbTransfer.v ===== *)
(** * What the fastboot transport delivers

    Over any kernel: a transfer that reports its full length handed exactly
    the data over, in pieces the kernel accepts; a failed one closes the
    handle, and a closed handle fails for good.  [logged] is the kernel with
    a record of the transfers it took. *)
From S2P Require Import Prelude CStrings FbUsb FbProtocol.

(** The bytes of every complete transfer, in order. *)
Definition logged {K} (u : usbfs K) : usbfs (K * list (list byte)) := mk_usbfs _
  (fun k ep b => let '(k', n) := bulk_out u k.1 ep b in
                 ((k', if n =? blen b then k.2 ++ [b] else k.2), n))
  (fun k ep n => let '(k', r) := bulk_in u k.1 ep n in ((k', k.2), r))
  (fun k fd => (fd_close u k.1 fd, k.2)).

#[export] Instance logged_laws {K} (u : usbfs K) : UsbfsLaws u -> UsbfsLaws (logged u).
Proof.
  intros H. split; intros [k l] ep n [k' l'] x; simpl; intros;
    destruct (bulk_in u k ep n) as [k1 r] eqn:E; simplify_eq/=;
    [by eapply bulk_in_bounded|by eapply bulk_in_error].
Qed.

(** The transfers between two states: pieces of at most the kernel's size,
    all of them whole packets when [b] is. *)
Definition packets (n : Z) : Prop := (USB_BUF_SIZE | n).

Definition sent {K} (k k' : K * list (list byte)) (b : list byte) : Prop :=
  exists ts, k'.2 = k.2 ++ ts /\ mjoin ts = b /\ Forall (fun t => blen t <= MAX_USBFS_BULK_SIZE) ts /\
    (packets (blen b) -> Forall (fun t => packets (blen t)) ts) /\
    (blen b <= MAX_USBFS_BULK_SIZE -> length ts = 1%nat).

Lemma slice_drop {A} off n m (l : list A) :
  0 <= off -> 0 <= m -> 0 <= n -> slice off m (drop (Z.to_nat n) l) = slice (off + n) m l.
Proof. intros. unfold slice. rewrite drop_drop. do 2 f_equal. lia. Qed.

Lemma slice_split {A} n m (l : list A) :
  0 <= n -> 0 <= m -> slice 0 (n + m) l = slice 0 n l ++ slice 0 m (drop (Z.to_nat n) l).
Proof.
  intros. rewrite !slice_0. rewrite Z2Nat.inj_add by lia.
  rewrite <- (take_drop (Z.to_nat n) (take (Z.to_nat n + Z.to_nat m) l)).
  rewrite take_take. f_equal; [f_equal; lia|]. rewrite skipn_firstn_comm. f_equal. lia.
Qed.

Lemma blen_drop {A} n (l : list A) : 0 <= n <= blen l -> blen (drop (Z.to_nat n) l) = blen l - n.
Proof. intros. unfold blen in *. rewrite length_drop. lia. Qed.

Lemma s32_u32_small x : 0 <= x < 2 ^ 31 -> s32 (u32 x) = x.
Proof. intros. rewrite u32_small by (unfold is_u32; lia). by apply s32_small. Qed.

Section Write.
Context {K : Type} (u : usbfs K).

(** A write returns its length and has handed over the data, or returns -1. *)
Lemma usb_write_loop_sent fuel h : forall k data len count,
  0 <= len <= blen data -> 0 <= count -> count + len < 2 ^ 31 -> len <= MAX_USBFS_BULK_SIZE * Z.of_nat fuel ->
  (0 < fuel)%nat ->
  exists k' n, usb_write_loop (logged u) fuel h k data len count = Done (k', n) /\
    ((n = count + len /\ sent k k' (slice 0 len data)) \/ n = -1).
Proof using.
  assert (Hm : 0 < MAX_USBFS_BULK_SIZE) by done.
  induction fuel as [|fuel IH]; intros k data len count Hl Hc H31 Hf H0; [lia|].
  cbn [usb_write_loop]. set (xfer := if MAX_USBFS_BULK_SIZE <? len then _ else _).
  assert (Hx : xfer = Z.min len MAX_USBFS_BULK_SIZE) by (unfold xfer; destruct (Z.ltb_spec MAX_USBFS_BULK_SIZE len); lia).
  clearbody xfer. zdec. unfold mem_read. zdec. cbn [obind].
  assert (Hb : blen (slice 0 xfer data) = xfer) by (apply blen_slice; lia).
  cbn [bulk_out logged]. destruct (bulk_out u k.1 (h_ep_out h) (slice 0 xfer data)) as [k1 n] eqn:E.
  cbn [obind]. rewrite Hb. destruct (Z.eqb_spec n xfer) as [->|Hne]; cbn [negb]; [|by eauto].
  rewrite u32_small by (unfold is_u32; lia).
  destruct (Z.ltb_spec 0 (len - xfer)) as [Hmore|Hlast].
  - assert (Hxm : xfer = MAX_USBFS_BULK_SIZE) by lia.
    destruct (IH (k1, k.2 ++ [slice 0 xfer data]) (drop (Z.to_nat xfer) data) (len - xfer) (count + xfer))
      as (k' & n & Hr & Hcase); [rewrite blen_drop by lia; lia|lia|lia|lia|lia|].
    rewrite Hr. eexists _, _. split; [done|]. destruct Hcase as [[-> (ts & Hl' & Hj & Hs & Hp & _)]|]; [|by right].
    left. split; [lia|]. exists (slice 0 xfer data :: ts). simpl in Hl'.
    assert (Hsl : slice 0 len data = slice 0 xfer data ++ mjoin ts).
    { rewrite Hj, <- slice_split by lia. f_equal. lia. }
    split; [rewrite Hl', <- app_assoc; done|]. split; [done|].
    split; [constructor; [lia|done]|]. split.
    + intros Hpk. constructor.
      * rewrite Hb, Hxm. by exists 16.
      * apply Hp. rewrite <- Hj. rewrite Hsl, blen_app, Hb, Hxm in Hpk.
        unfold packets in *. apply (Z.divide_add_cancel_r _ MAX_USBFS_BULK_SIZE); [by exists 16|done].
    + rewrite blen_slice by lia. lia.
  - assert (xfer = len) as -> by lia. eexists _, _. split; [done|]. left. rewrite s32_small by lia.
    split; [lia|]. exists [slice 0 len data]. simpl. rewrite app_nil_r.
    split_and!; [done|done| |by repeat constructor|done]. repeat constructor. lia.
Qed.

Lemma usb_write_sent h k data len :
  0 <= len <= blen data -> len < 2 ^ 31 ->
  exists k' n, usb_write (logged u) h k data len = Done (k', n) /\
    ((n = len /\ sent k k' (slice 0 len data) /\ h_desc h <> -1) \/ n = -1).
Proof using.
  intros Hl H31. unfold usb_write. destruct ((h_ep_out h =? 0) || (h_desc h =? -1)) eqn:E; [by eauto|].
  apply orb_false_iff in E as [_ E]. apply Z.eqb_neq in E.
  assert (Hm : 0 < MAX_USBFS_BULK_SIZE) by done. pose proof (Z.div_mod len MAX_USBFS_BULK_SIZE ltac:(lia)).
  pose proof (Z.mod_pos_bound len MAX_USBFS_BULK_SIZE Hm). pose proof (Z.div_pos len MAX_USBFS_BULK_SIZE ltac:(lia) Hm).
  destruct (usb_write_loop_sent (S (Z.to_nat (len / MAX_USBFS_BULK_SIZE + 1))) h k data len 0) as (k' & n & Hr & Hc); [lia..|].
  rewrite Hr. eexists _, _. split; [done|]. destruct Hc as [[-> ?]|]; [left|by right].
  split_and!; [lia|done|done].
Qed.

Lemma usb_write_closed h k data len : h_desc h = -1 -> usb_write u h k data len = Done (k, -1).
Proof using. intros Hd. unfold usb_write. rewrite Hd, orb_true_r. done. Qed.

Lemma usb_read_closed h k len : h_desc h = -1 -> usb_read u h k len = Done (k, None).
Proof using. intros Hd. unfold usb_read. rewrite Hd, orb_true_r. done. Qed.
End Write.

Section Read.
Context {K : Type} (u : usbfs K) `{!UsbfsLaws u}.

Lemma bulk_in_retry_bounded tries h : forall k n k' b,
  0 <= n -> bulk_in_retry u tries h k n = (k', Some b) -> blen b <= n.
Proof using All.
  induction tries as [|tries IH]; intros k n k' b Hn; simpl;
    destruct (bulk_in u k (h_ep_in h) n) as [k1 [e|c]] eqn:E; intros; simplify_eq;
    eauto using bulk_in_bounded.
Qed.

(** A read of a status packet fits its buffer. *)
Lemma usb_read_64 h k :
  exists k' r, usb_read u h k 64 = Done (k', r) /\ forall b, r = Some b -> blen b <= 64.
Proof using All.
  unfold usb_read. destruct (_ || _); [by eexists _, None|].
  change (S (Z.to_nat (64 / MAX_USBFS_BULK_SIZE + 1))) with 2%nat. cbn [usb_read_loop].
  change (0 <? 64) with true. change (MAX_USBFS_BULK_SIZE <? 64) with false. cbn iota.
  destruct (bulk_in_retry u MAX_RETRIES h k 64) as [k1 [b|]] eqn:E; [|by eexists _, None].
  apply bulk_in_retry_bounded in E; [|lia]. simpl app.
  destruct (Z.ltb_spec (blen b) 64); [eexists _, _; split; [done|]; intros; simplify_eq; lia|].
  zdec. eexists _, _; split; [done|]. intros; simplify_eq; lia.
Qed.
End Read.

(** Reading leaves the record of transfers alone. *)
Lemma bulk_in_retry_log {K} (u : usbfs K) tries h : forall k n,
  (bulk_in_retry (logged u) tries h k n).1.2 = k.2.
Proof.
  induction tries as [|tries IH]; intros k n; simpl;
    destruct (bulk_in u k.1 (h_ep_in h) n) as [k1 [e|c]]; try done. by rewrite IH.
Qed.

Lemma usb_read_loop_log {K} (u : usbfs K) fuel h : forall k n acc k' r,
  usb_read_loop (logged u) fuel h k n acc = Done (k', r) -> k'.2 = k.2.
Proof.
  induction fuel as [|fuel IH]; intros k n acc k' r; cbn [usb_read_loop];
    destruct (0 <? n); intros H; simplify_eq; [done| |done].
  pose proof (bulk_in_retry_log u MAX_RETRIES h k (if MAX_USBFS_BULK_SIZE <? n then MAX_USBFS_BULK_SIZE else n)) as Hl.
  destruct (bulk_in_retry _ _ _ _ _) as [k1 [b|]]; simplify_eq; [|done]. simpl in Hl.
  destruct (_ <? _); simplify_eq; [done|]. apply IH in H. congruence.
Qed.

Lemma usb_read_log {K} (u : usbfs K) h k n k' r :
  usb_read (logged u) h k n = Done (k', r) -> k'.2 = k.2.
Proof. unfold usb_read. destruct (_ || _); [by intros [= <- _]|]. apply usb_read_loop_log. Qed.

(** ** Transfers of the protocol *)

Definition dead {K} (st : fb K) : Prop := h_desc (fb_handle st) = -1.

(** What a response or a transfer leaves alone. *)
Definition same_buf {K} (st st' : fb K) : Prop :=
  usb_buf st' = usb_buf st /\ usb_buf_len st' = usb_buf_len st.

Section Transfers.
Context {K : Type} (u : usbfs K) (strerror : K * list (list byte) -> list byte).
Context (Hstr : forall k, blen (strerror k) <= 80).
#[local] Abbreviation fbl := (fb (K * list (list byte))).

Lemma set_error_ok {L} (st : fb L) msg :
  blen msg <= 127 ->
  set_error st msg = Done (mk_fb (fb_handle st) (fb_kernel st) msg (fb_shown st) (usb_buf st) (usb_buf_len st)).
Proof using. intros H. unfold set_error, ERROR_SIZE. by zdec. Qed.

Lemma fail_close_ok {L A} (v : usbfs L) (st : fb L) msg (a : A) :
  blen msg <= 127 ->
  exists st', fail_close v st msg a = Done (st', -1, a) /\ dead st' /\ same_buf st st'.
Proof using. intros H. unfold fail_close. rewrite set_error_ok by done. by eexists. Qed.

Lemma blen_errno what k : blen what <= 40 -> blen (errno_msg strerror what k) <= 127.
Proof using Hstr.
  intros H. unfold errno_msg. rewrite !blen_app. pose proof (Hstr k).
  change (blen (bytes_of " (")) with 2. change (blen (bytes_of ")")) with 1. lia.
Qed.

(** [_command_data] hands the data over, or closes the handle. *)
Lemma _command_data_sent (st : fbl) data size :
  0 <= size <= blen data -> size < 2 ^ 31 ->
  exists st' r, _command_data (logged u) strerror st data size = Done (st', r) /\ same_buf st st' /\
    ((r = size /\ sent (fb_kernel st) (fb_kernel st') (slice 0 size data) /\
      fb_handle st' = fb_handle st /\ ~ dead st) \/
     (r = -1 /\ dead st')).
Proof using Hstr.
  intros Hs H31. unfold _command_data. rewrite s32_small by lia.
  destruct (usb_write_sent u (fb_handle st) (fb_kernel st) data size) as (k' & n & Hw & Hc); [lia..|].
  rewrite Hw. cbn [obind]. destruct Hc as [(-> & Hsent & Hd)| ->].
  - zdec. cbn. eexists _, _. split; [done|]. split; [done|]. left. by split_and!.
  - zdec. destruct (fail_close_ok (logged u) (with_kernel st k')
      (errno_msg strerror (bytes_of "data transfer failure") k') tt) as (st' & -> & Hd & Hb);
      [by apply blen_errno|]. cbn. eexists _, _. split; [done|]. split; [done|]. by right.
Qed.

Lemma _command_data_dead (st : fbl) data size :
  dead st -> exists st', _command_data (logged u) strerror st data size = Done (st', -1) /\ dead st' /\ same_buf st st'.
Proof using Hstr.
  intros Hd. unfold _command_data. rewrite usb_write_closed by done. cbn [obind]. change (-1 <? 0) with true. cbn iota.
  destruct (fail_close_ok (logged u) (with_kernel st (fb_kernel st))
    (errno_msg strerror (bytes_of "data transfer failure") (fb_kernel st)) tt) as (st' & -> & Hd' & Hb);
    [by apply blen_errno|]. cbn. by eexists.
Qed.

(** On a closed handle no response is read. *)
Lemma check_response_dead fuel (st : fbl) size response :
  dead st -> exists st', check_response (logged u) strerror (S fuel) st size response = Done (st', -1, response) /\
    dead st' /\ same_buf st st'.
Proof using Hstr.
  intros Hd. cbn [check_response]. rewrite usb_read_closed by done. cbn [obind].
  destruct (fail_close_ok (logged u) (with_kernel st (fb_kernel st))
    (errno_msg strerror (bytes_of "status read failed") (fb_kernel st)) response) as (st' & -> & Hd' & Hb);
    [by apply blen_errno|]. by eexists.
Qed.

Lemma _command_end_dead fuel (st : fbl) st' r :
  dead st -> _command_end (logged u) strerror fuel st = Done (st', r) -> r = -1.
Proof using Hstr.
  intros Hd. unfold _command_end. destruct fuel as [|fuel]; [done|].
  destruct (check_response_dead fuel st 0 None Hd) as (st1 & -> & _). cbn. congruence.
Qed.
End Transfers.

(** A response leaves the record and the buffer alone. *)
Lemma check_response_log {K} (u : usbfs K) strerror fuel : forall st size response st' r resp',
  check_response (logged u) strerror fuel st size response = Done (st', r, resp') ->
  (fb_kernel st').2 = (fb_kernel st).2 /\ same_buf st st'.
Proof.
  induction fuel as [|fuel IH]; intros st size response st' r resp'; [done|]. cbn [check_response].
  destruct (usb_read _ _ _ _) as [[k b]|] eqn:E; cbn [obind]; [|done]. apply usb_read_log in E.
  assert (Hfc : forall msg, fail_close (logged u) (with_kernel st k) msg response = Done (st', r, resp') ->
    (fb_kernel st').2 = (fb_kernel st).2 /\ same_buf st st').
  { intros msg. unfold fail_close, set_error. destruct (_ <? _); cbn [obind]; [done|].
    intros [= <- _ _]. unfold close, usb_close. cbn. destruct (0 <=? _); done. }
  destruct b as [status|]; [|apply Hfc]. destruct (64 <? _); [done|]. destruct (_ <? 4); [apply Hfc|].
  destruct (starts_with (bytes_of "INFO") status).
  { intros H. apply IH in H as [H1 H2]. cbn in H1, H2. split; [congruence|done]. }
  destruct (starts_with (bytes_of "OKAY") status).
  { destruct response as [dst|]; [destruct (strcpy dst _); cbn [obind]; [|done]|];
      intros [= <- _ _]; done. }
  destruct (starts_with (bytes_of "FAIL") status).
  { unfold set_error. destruct (ERROR_SIZE <? _); cbn [obind]; [done|]. intros [= <- _ _]. done. }
  destruct (_ && _); [destruct (_ <? _); [apply Hfc|]; intros [= <- _ _]; done|]. apply Hfc.
Qed.
