(* ===== verification/FbSparse.v ===== *)
(** * Downloading a sparse image loses nothing

    The chunk writers drop the results of their writes, so
    [sparse_file_callback] reports success even when a transfer failed.  What
    saves [fb_download_data_sparse] is that a failed transfer closes the
    handle: the final response cannot be read.  Proved over any kernel: a
    result of 0 means that every byte of the image was handed over. *)
From S2P Require Import Prelude CStrings BlockList Posix SparseFormat OutputFile Sparse SparseRead ImageSpec WriteCorrect FbUsb FbProtocol FbTransfer.

(** ** Writers that drop errors, over a backend where errors are final *)

Lemma s32_lt x : s32 x < 2 ^ 31.
Proof. unfold s32. pose proof (Z.mod_pos_bound x (2 ^ 32) ltac:(lia)). destruct (Z.ltb_spec (x mod 2 ^ 32) (2 ^ 31)); lia. Qed.

(** The backend with every write reported as successful. *)
Definition forgiving {B} (ops : output_file_ops B) : output_file_ops B :=
  mk_ops _ (op_open ops) (fun b n => ((op_skip ops b n).1, 0)) (op_pad ops)
    (fun b d n => ((op_write ops b d n).1, 0)) (op_close ops).

Section Sim.
Context {B : Type} (ops : output_file_ops B) (world_of : B -> world) (lost : B -> Prop).
Context (Hw_keep : forall b d n, n < 2 ^ 31 -> lost b -> lost (op_write ops b d n).1).
Context (Hw_fail : forall b d n, n < 2 ^ 31 -> (op_write ops b d n).2 <> 0 -> lost (op_write ops b d n).1).
Context (Hs_keep : forall b n, lost b -> lost (op_skip ops b n).1).
Context (Hs_fail : forall b n, (op_skip ops b n).2 <> 0 -> lost (op_skip ops b n).1).

(** Starting from [b], the run [x] keeps losses, and either loses something
    or is the run [y] over the forgiving backend. *)
Definition sim {X} (pb : X -> B) (b : B) (x y : outcome X) : Prop :=
  (lost b -> forall r, x = Done r -> lost (pb r)) /\
  (forall r, x = Done r -> lost (pb r) \/ y = Done r).

Lemma sim_refl {X} (pb : X -> B) b r : pb r = b -> sim pb b (Done r) (Done r).
Proof using. intros <-. split; [by intros ? ? [= <-]|]. intros ? [= <-]. by right. Qed.

Lemma sim_crash {X} (pb : X -> B) b f y : sim pb b (Crash f) y.
Proof using. done. Qed.

Lemma sim_bind {X Y} (pb : X -> B) (pc : Y -> B) b (x y : outcome X) k k' :
  sim pb b x y -> (forall r, sim pc (pb r) (k r) (k' r)) -> sim pc b (obind x k) (obind y k').
Proof using.
  intros [H1 H2] Hk. split.
  - intros Hl r (r1 & Hx & Hr)%obind_Done. by eapply (proj1 (Hk r1)), Hr; eauto.
  - intros r (r1 & Hx & Hr)%obind_Done. destruct (H2 _ Hx) as [Hl|Hy].
    + left. by eapply (proj1 (Hk r1)).
    + rewrite Hy. simpl. by apply (proj2 (Hk r1)).
Qed.

Lemma sim_pure {X Z'} (pb : X -> B) b (m : outcome Z') k k' :
  (forall a, m = Done a -> sim pb b (k a) (k' a)) -> sim pb b (obind m k) (obind m k').
Proof using. destruct m; [|done]. intros H. by apply H. Qed.

(** A write whose failure ends the function. *)
Lemma sim_write {X} (pb : X -> B) b d n (e : B -> Z -> outcome X) k k' :
  n < 2 ^ 31 ->
  (forall b' r, exists x, e b' r = Done x /\ pb x = b') ->
  (forall b' r, sim pb b' (k b' r) (k' b' r)) ->
  sim pb b (let '(b, ret) := op_write ops b d n in if ret <? 0 then e b ret else k b ret)
           (let '(b, ret) := op_write (forgiving ops) b d n in if ret <? 0 then e b ret else k' b ret).
Proof using Hw_keep Hw_fail.
  intros H31 He Hk. pose proof (Hw_keep b d n H31) as K1. pose proof (Hw_fail b d n H31) as K2. cbn [op_write forgiving].
  destruct (op_write ops b d n) as [b' ret]. cbn [fst snd] in *. change (0 <? 0) with false. cbn iota.
  destruct (Z.ltb_spec ret 0).
  - destruct (He b' ret) as (x & -> & Hp).
    split; [intros Hl r [= <-]; rewrite Hp; auto|]. intros r [= <-]. left. rewrite Hp. apply K2. lia.
  - destruct (Z.eq_dec ret 0) as [->|Hne].
    + destruct (Hk b' 0) as [S1 S2]. split; [|done]. auto.
    + pose proof (K2 Hne) as Hl. destruct (Hk b' ret) as [S1 _]. split; [auto|]. intros r Hr. left. eauto.
Qed.

(** A skip, whose result is the function's. *)
Lemma sim_skip {X} (pb : X -> B) b n (k : B -> Z -> outcome X) :
  (forall b' r, exists x, k b' r = Done x /\ pb x = b') ->
  sim pb b (let '(b, ret) := op_skip ops b n in k b ret)
           (let '(b, ret) := op_skip (forgiving ops) b n in k b ret).
Proof using Hs_keep Hs_fail.
  intros Hk. pose proof (Hs_keep b n) as K1. pose proof (Hs_fail b n) as K2. cbn [op_skip forgiving].
  destruct (op_skip ops b n) as [b' ret]. cbn [fst snd] in *. destruct (Hk b' ret) as (x & Hx & Hp). rewrite Hx.
  split; [intros Hl r [= <-]; rewrite Hp; auto|]. intros r [= <-]. rewrite Hp.
  destruct (Z.eq_dec ret 0) as [->|Hne]; [right; done|left; auto].
Qed.

#[local] Abbreviation psnd := (fun r : output_file * B * Z => r.1.2).
#[local] Abbreviation opair := (fun r : output_file * B => r.2).

Ltac sim_step :=
  repeat first
    [ apply sim_refl; reflexivity
    | apply sim_crash
    | apply sim_pure; intros ? _
    | apply sim_write; [first [done|apply s32_lt]|by intros; eexists|intros] ].

Lemma sim_skip_chunk o b n : sim psnd b (write_skip_chunk ops o b n) (write_skip_chunk (forgiving ops) o b n).
Proof using All.
  unfold write_skip_chunk. destruct (sparse_ops o).
  - unfold write_sparse_skip_chunk. apply sim_pure; intros _ _. destruct (negb _); sim_step.
  - unfold write_normal_skip_chunk. cbn [op_skip forgiving].
    pose proof (Hs_keep b n) as K1. pose proof (Hs_fail b n) as K2.
    destruct (op_skip ops b n) as [b' ret]. cbn [fst snd] in *.
    split; [intros Hl r [= <-]; auto|]. intros r [= <-].
    destruct (Z.eq_dec ret 0) as [->|Hne]; [by right|left; auto].
Qed.

Lemma sim_fill_loop fuel o : forall b len,
  sim (@fst B Z) b (fill_loop ops fuel o b len) (fill_loop (forgiving ops) fuel o b len).
Proof using All.
  induction fuel as [|fuel IH]; intros b len; cbn [fill_loop]; destruct (len =? 0); sim_step.
  by apply IH.
Qed.

Lemma sim_data_chunk o b len data :
  sim psnd b (write_data_chunk ops o b len data) (write_data_chunk (forgiving ops) o b len data).
Proof using All.
  unfold write_data_chunk. destruct (sparse_ops o).
  - unfold write_sparse_data_chunk. apply sim_pure; intros _ _. cbv zeta.
    apply sim_write; [first [done|apply s32_lt]|by intros; eexists|intros b1 r1].
    apply sim_write; [apply s32_lt|by intros; eexists|intros b2 r2].
    destruct (_ =? 0); sim_step.
  - unfold write_normal_data_chunk. apply sim_pure; intros _ _. cbv zeta.
    apply sim_write; [first [done|apply s32_lt]|by intros; eexists|intros b1 r1].
    destruct (_ <? _); [apply sim_skip; by intros; eexists|]. sim_step.
Qed.

Lemma sim_fill_chunk o b len v :
  sim psnd b (write_fill_chunk ops o b len v) (write_fill_chunk (forgiving ops) o b len v).
Proof using All.
  unfold write_fill_chunk. destruct (sparse_ops o).
  - unfold write_sparse_fill_chunk. apply sim_pure; intros _ _. cbv zeta. sim_step.
  - unfold write_normal_fill_chunk. cbv zeta. eapply sim_bind; [apply sim_fill_loop|].
    intros [b' r]. by apply sim_refl.
Qed.

Lemma sim_mapped_chunk o b len off c :
  sim psnd b (write_mapped_chunk ops o b len off c) (write_mapped_chunk (forgiving ops) o b len off c).
Proof using All.
  unfold write_mapped_chunk. cbv zeta. destruct (_ =? 0); [sim_step|]. destruct (_ <? 0); [sim_step|].
  apply sim_pure; intros; apply sim_data_chunk.
Qed.

Lemma sim_write_block nm o b bb :
  sim opair b (sparse_file_write_block ops world_of nm o b bb)
    (sparse_file_write_block (forgiving ops) world_of nm o b bb).
Proof using All.
  unfold sparse_file_write_block. eapply (sim_bind psnd).
  - destruct (bb_payload bb).
    + apply sim_data_chunk.
    + destruct (nm !! _); [|done]. unfold write_file_chunk.
      destruct (w_files _ !! _); [apply sim_mapped_chunk|by apply sim_refl].
    + unfold write_fd_chunk. destruct (w_fds _ !! _); [apply sim_mapped_chunk|by apply sim_refl].
    + apply sim_fill_chunk.
  - intros [[o' b'] r]. by apply sim_refl.
Qed.

Lemma sim_blocks_loop nm bs l : forall o b last,
  sim psnd b (write_blocks_loop ops world_of nm bs o b last l)
    (write_blocks_loop (forgiving ops) world_of nm bs o b last l).
Proof using All.
  induction l as [|bb l IH]; intros o b last; [by apply sim_refl|]. cbn [write_blocks_loop].
  eapply (sim_bind opair).
  { destruct (_ <? _); [|by apply sim_refl]. cbv zeta. eapply (sim_bind psnd); [apply sim_skip_chunk|].
    intros [[o' b'] r]. by apply sim_refl. }
  intros [o1 b1]. eapply (sim_bind opair); [apply sim_write_block|]. intros [o2 b2]. apply IH.
Qed.

Lemma sim_all_blocks s o b :
  sim psnd b (write_all_blocks ops world_of s o b) (write_all_blocks (forgiving ops) world_of s o b).
Proof using All.
  unfold write_all_blocks. eapply (sim_bind psnd); [apply sim_blocks_loop|]. intros [[o1 b1] last]. cbv zeta.
  destruct (_ <? 0); [done|]. destruct (0 <? _); [|by apply sim_refl].
  eapply (sim_bind psnd); [apply sim_skip_chunk|]. intros [[o2 b2] r]. by apply sim_refl.
Qed.

Lemma sim_init b bs len chunks crc :
  sim (fun r : option output_file * B => r.2) b
    (output_file_init ops b bs len true chunks crc) (output_file_init (forgiving ops) b bs len true chunks crc).
Proof using All. unfold output_file_init. cbv zeta iota. sim_step. Qed.
End Sim.

(** ** The gathering buffer *)

Lemma blen_overwrite b off d : 0 <= off -> off + blen d <= blen b -> blen (write_at b off d) = blen b.
Proof.
  intros. pose proof (blen_nonneg d). unfold write_at. rewrite zeros_nil, app_nil_r by lia. unfold blen in *.
  rewrite !length_app, length_take, length_drop. lia.
Qed.

Lemma slice_overwrite b off d :
  0 <= off -> off + blen d <= blen b -> slice 0 (off + blen d) (write_at b off d) = slice 0 off b ++ d.
Proof.
  intros. pose proof (blen_nonneg d). unfold write_at. rewrite zeros_nil, app_nil_r by lia. rewrite app_assoc, slice_app_l.
  - rewrite !slice_0. apply take_ge. rewrite length_app, length_take. unfold blen in *. lia.
  - lia.
  - pose proof (blen_nonneg d). lia.
  - rewrite blen_app. unfold blen in *. rewrite length_take. lia.
Qed.

Section Lossless.
Context {K : Type} (u : usbfs K) (strerror : K * list (list byte) -> list byte).
Context (Hstr : forall k, blen (strerror k) <= 80).
#[local] Abbreviation fbl := (fb (K * list (list byte))).

(** The bytes given to the callback since [log0]: handed over in whole
    packets, except what the buffer holds. *)
Definition gathered (log0 : list (list byte)) (st : fbl) (bytes : list byte) : Prop :=
  ~ dead st /\ blen (usb_buf st) = USB_BUF_SIZE /\ 0 <= usb_buf_len st <= USB_BUF_SIZE /\
  exists ts, (fb_kernel st).2 = log0 ++ ts /\
    Forall (fun t => blen t <= MAX_USBFS_BULK_SIZE) ts /\ Forall (fun t => packets (blen t)) ts /\
    bytes = mjoin ts ++ slice 0 (usb_buf_len st) (usb_buf st).

(** Transferring whole packets while the buffer is empty or being emptied. *)
Lemma gathered_sent log0 st st' bytes pre data size :
  gathered log0 st bytes -> bytes = pre ++ slice 0 (usb_buf_len st) (usb_buf st) ->
  sent (fb_kernel st) (fb_kernel st') (slice 0 size data) -> packets size -> 0 <= size <= blen data ->
  fb_handle st' = fb_handle st -> usb_buf st' = usb_buf st -> usb_buf_len st' = 0 ->
  gathered log0 st' (pre ++ slice 0 size data).
Proof using.
  intros (Hd & Hb & Hl & ts & Hlog & Hm & Hp & Hby) Hpre (ts' & Hlog' & Hj & Hm' & Hp' & _) Hpk Hs Hh Hub Hlen.
  split; [unfold dead in *; by rewrite Hh|]. rewrite Hub, Hlen. split; [done|]. split; [unfold USB_BUF_SIZE; lia|].
  exists (ts ++ ts'). rewrite Hlog', Hlog, app_assoc. split; [done|]. rewrite !Forall_app.
  split; [done|]. split; [split; [done|]; apply Hp'; by rewrite blen_slice by lia|].
  rewrite slice_zero_len, app_nil_r, join_app, Hj. f_equal. rewrite Hpre in Hby.
  by apply app_inv_tail in Hby.
Qed.

(** First the room left in the buffer is filled. *)
Lemma fill_stage log0 (st : fbl) bytes data len :
  gathered log0 st bytes -> 0 <= len <= blen data ->
  exists st1 len1,
    (if negb (usb_buf_len st =? 0) then
      let to_write := Z.min (USB_BUF_SIZE - usb_buf_len st) len in
      let! st := buf_copy st (usb_buf_len st) data to_write in
      Done (set_buf_len st (usb_buf_len st + to_write), drop (Z.to_nat to_write) data, len - to_write)
    else Done (st, data, len)) = Done (st1, drop (Z.to_nat (len - len1)) data, len1) /\
    gathered log0 st1 (bytes ++ slice 0 (len - len1) data) /\ 0 <= len1 <= len /\
    (0 < len1 -> usb_buf_len st1 = 0 \/ usb_buf_len st1 = USB_BUF_SIZE).
Proof using.
  intros Hg Hl. destruct (Hg) as (Hd & Hb & Hn & ts & Hlog & Hm & Hp & Hby).
  destruct (Z.eqb_spec (usb_buf_len st) 0) as [H0|H0]; cbn [negb].
  { exists st, len. rewrite Z.sub_diag, slice_zero_len, app_nil_r. split_and!; [done..|lia|lia|auto]. }
  cbv zeta. set (n := Z.min _ len). assert (Hnn : 0 <= n <= len) by lia.
  assert (Hsl : blen (slice 0 n data) = n) by (apply blen_slice; lia).
  unfold buf_copy. rewrite (proj2 (Z.ltb_ge (usb_buf_len st) 0)), (proj2 (Z.ltb_ge n 0)), (proj2 (Z.ltb_ge USB_BUF_SIZE _)) by lia.
  cbn [orb]. unfold mem_read. zdec. cbn [obind].
  eexists _, (len - n). replace (len - (len - n)) with n by lia. split; [reflexivity|].
  split; [|split; [lia|cbn; lia]].
  split; [done|]. cbn. split; [rewrite blen_overwrite by lia; done|]. split; [lia|]. exists ts.
  split_and!; [done|done|done|]. rewrite Hby, <- app_assoc. f_equal.
  rewrite <- Hsl at 2. rewrite slice_overwrite by lia. done.
Qed.

(** Then a full buffer goes out. *)
Lemma flush_stage log0 (st : fbl) bytes :
  gathered log0 st bytes ->
  exists st1 ok,
    (if usb_buf_len st =? USB_BUF_SIZE then
      let! (st, r) := _command_data (logged u) strerror st (usb_buf st) USB_BUF_SIZE in
      if negb (r =? USB_BUF_SIZE) then Done (st, false) else Done (set_buf_len st 0, true)
    else Done (st, true)) = Done (st1, ok) /\
    ((ok = true /\ gathered log0 st1 bytes /\
      (usb_buf_len st = 0 \/ usb_buf_len st = USB_BUF_SIZE -> usb_buf_len st1 = 0)) \/
     (ok = false /\ dead st1)).
Proof using Hstr.
  intros Hg. destruct (Hg) as (Hd & Hb & Hn & ts & Hlog & Hm & Hp & Hby).
  destruct (Z.eqb_spec (usb_buf_len st) USB_BUF_SIZE) as [HL|HL].
  2:{ exists st, true. split; [done|]. left. split_and!; [done|done|tauto]. }
  destruct (_command_data_sent u strerror Hstr st (usb_buf st) USB_BUF_SIZE) as (st' & r & Hr & [Hbuf _] & Hc);
    [by rewrite Hb|done|].
  rewrite Hr. cbn [obind]. destruct Hc as [(-> & Hs & Hh & _)|(-> & Hdead)].
  - rewrite Z.eqb_refl. cbn [negb]. eexists _, true. split; [reflexivity|]. left. split_and!; [done| |done].
    assert (bytes = mjoin ts ++ slice 0 USB_BUF_SIZE (usb_buf st)) as -> by (by rewrite Hby, HL).
    eapply gathered_sent; [exact Hg| |exact Hs|by exists 1|rewrite Hb; done|done|done|done].
    by rewrite HL.
  - exists st', false. split; [done|]. by right.
Qed.

Lemma round_down_packets len : 0 <= len -> let n := len - Z.rem len USB_BUF_SIZE in
  packets n /\ 0 <= n <= len /\ len - n < USB_BUF_SIZE.
Proof using.
  intros Hl n. assert (Hp : 0 < USB_BUF_SIZE) by done. subst n. rewrite Z.rem_mod_nonneg by lia.
  pose proof (Z.mod_pos_bound len USB_BUF_SIZE Hp). pose proof (Z.div_mod len USB_BUF_SIZE ltac:(lia)).
  pose proof (Z.div_pos len USB_BUF_SIZE Hl Hp). split; [|lia]. exists (len / USB_BUF_SIZE). lia.
Qed.

(** Then, past an empty buffer, the whole packets of a long write. *)
Lemma bulk_stage log0 (st : fbl) bytes ptr len :
  gathered log0 st bytes -> 0 <= len <= blen ptr -> len < 2 ^ 31 -> (0 < len -> usb_buf_len st = 0) ->
  exists st1 ptr1 len1 ok,
    (if USB_BUF_SIZE <? len then
      if 0 <? usb_buf_len st then
        let! st := set_error st (bytes_of "internal error: usb_buf not empty" ++ [Init.Byte.x0a]) in
        Done (st, ptr, len, false)
      else
        let to_write := len - Z.rem len USB_BUF_SIZE in
        let! (st, r) := _command_data (logged u) strerror st ptr to_write in
        if negb (r =? to_write) then Done (st, ptr, len, false)
        else Done (st, drop (Z.to_nat to_write) ptr, len - to_write, true)
    else Done (st, ptr, len, true)) = Done (st1, ptr1, len1, ok) /\
    ((ok = true /\ gathered log0 st1 (bytes ++ slice 0 (len - len1) ptr) /\ 0 <= len1 <= USB_BUF_SIZE /\
      len1 <= len /\ ptr1 = drop (Z.to_nat (len - len1)) ptr /\ (0 < len1 -> usb_buf_len st1 = 0)) \/
     (ok = false /\ dead st1)).
Proof using Hstr.
  intros Hg Hl H31 H0. destruct (Z.ltb_spec USB_BUF_SIZE len) as [Hbig|Hsmall].
  2:{ eexists _, _, len, true. split; [reflexivity|]. left.
      rewrite Z.sub_diag, slice_zero_len, app_nil_r. split_and!; [done..|lia|lia|lia|done|done]. }
  assert (Hp : 0 < USB_BUF_SIZE) by done. pose proof (H0 ltac:(lia)) as HL. rewrite HL. change (0 <? 0) with false. cbn iota zeta.
  destruct (round_down_packets len) as (Hpk & Hn & Hrest); [lia|]. set (n := len - Z.rem len USB_BUF_SIZE) in *.
  destruct (_command_data_sent u strerror Hstr st ptr n) as (st' & r & Hr & [Hbuf HbL] & Hc); [lia|lia|].
  rewrite Hr. cbn [obind]. destruct Hc as [(-> & Hs & Hh & _)|(-> & Hdead)].
  - rewrite Z.eqb_refl. cbn [negb]. eexists _, _, _, true. split; [reflexivity|]. left.
    replace (len - (len - n)) with n by lia. split_and!; [done| |lia|lia|lia|done|congruence].
    eapply gathered_sent; [exact Hg| |exact Hs|done|lia|done|done|congruence].
    by rewrite HL, slice_zero_len, app_nil_r.
  - rewrite (proj2 (Z.eqb_neq (-1) n)) by lia. eexists _, _, _, false. split; [reflexivity|]. by right.
Qed.

(** One call of the callback takes all its bytes, or closes the handle; the
    "internal error" branches are not reached. *)
Lemma sparse_write_gathered log0 (st : fbl) bytes data len :
  gathered log0 st bytes -> 0 <= len <= blen data -> len < 2 ^ 31 ->
  exists st' r, sparse_write (logged u) strerror st data len = Done (st', r) /\
    ((r = 0 /\ gathered log0 st' (bytes ++ slice 0 len data)) \/ (r = -1 /\ dead st')).
Proof using Hstr.
  intros Hg Hl H31. unfold sparse_write.
  destruct (fill_stage log0 st bytes data len Hg Hl) as (st1 & len1 & E1 & Hg1 & Hl1 & Hfull).
  cbv zeta in E1. rewrite E1. cbn [obind].
  destruct (flush_stage log0 st1 _ Hg1) as (st2 & ok2 & -> & Hc2). cbn [obind].
  destruct Hc2 as [(-> & Hg2 & Hz2)|(-> & Hd2)]; cbn [negb]; [|by eexists _, _; split; [done|right]].
  set (ptr1 := drop (Z.to_nat (len - len1)) data).
  assert (Hptr1 : blen ptr1 = blen data - (len - len1)) by (apply blen_drop; lia).
  destruct (bulk_stage log0 st2 _ ptr1 len1 Hg2) as (st3 & ptr3 & len3 & ok3 & E3 & Hc3); [lia|lia|tauto|].
  cbv zeta in E3. rewrite E3. cbn [obind].
  destruct Hc3 as [(-> & Hg3 & Hl3 & Hle3 & -> & Hz3)|(-> & Hd3)]; cbn [negb]; [|by eexists _, _; split; [done|right]].
  assert (Hpre : forall m, 0 <= m <= len3 -> slice 0 (len - len1) data ++ slice 0 (len1 - len3) ptr1 ++
    slice 0 m (drop (Z.to_nat (len1 - len3)) ptr1) = slice 0 (len - len3 + m) data).
  { intros m Hm. rewrite <- slice_split by lia. unfold ptr1. rewrite <- slice_split by lia. f_equal. lia. }
  destruct (Z.ltb_spec 0 len3) as [Hpos|Hzero].
  - rewrite (proj2 (Z.ltb_ge USB_BUF_SIZE len3)) by lia. unfold buf_copy. change (0 <? 0) with false. rewrite (proj2 (Z.ltb_ge len3 0)) by lia.
    rewrite (proj2 (Z.ltb_ge USB_BUF_SIZE _)) by lia. cbn [orb]. unfold mem_read.
    rewrite blen_drop by lia. zdec. cbn [obind]. eexists _, _. split; [reflexivity|]. left. split; [done|].
    destruct Hg3 as (Hd & Hb & Hn & ts & Hlog & Hm & Hp & Hby). rewrite (Hz3 Hpos), slice_zero_len, app_nil_r in Hby.
    set (p3 := drop (Z.to_nat (len1 - len3)) ptr1) in *.
    assert (Hs3 : blen (slice 0 len3 p3) = len3) by (apply blen_slice; [lia|lia|unfold p3; rewrite blen_drop by lia; lia]).
    split; [done|]. cbn. split; [rewrite blen_overwrite by lia; done|]. split; [lia|]. exists ts.
    split_and!; [done|done|done|]. rewrite <- Hby, <- !app_assoc.
    pose proof (slice_overwrite (usb_buf st3) 0 (slice 0 len3 p3) ltac:(lia) ltac:(lia)) as Hso.
    rewrite Hs3, slice_zero_len, Z.add_0_l, app_nil_l in Hso. rewrite Hso. f_equal. rewrite (Hpre len3) by lia. f_equal. lia.
  - eexists _, _. split; [reflexivity|]. left. split; [done|].
    replace (slice 0 len data) with (slice 0 (len - len3 + 0) data) by (f_equal; lia).
    rewrite <- Hpre by lia. rewrite slice_zero_len, app_nil_r, app_assoc. done.
Qed.
End Lossless.

(** ** The callback as a backend *)

Section Callback.
Context {K : Type} (u : usbfs K) (strerror : K * list (list byte) -> list byte).
Context (Hstr : forall k, blen (strerror k) <= 80).
#[local] Abbreviation fbl := (fb (K * list (list byte))).
#[local] Abbreviation cb := (fb_download_data_sparse_write (logged u) strerror).

Lemma _command_data_cases (st : fbl) data size st' r :
  _command_data (logged u) strerror st data size = Done (st', r) ->
  (r = s32 size /\ fb_handle st' = fb_handle st) \/ dead st'.
Proof using.
  unfold _command_data, fail_close, set_error. intros H. inv_done.
  destruct (Z.ltb_spec z 0); [|destruct (Z.eqb_spec z (s32 size)) as [->|]; cbn [negb] in H].
  - destruct (ERROR_SIZE <? _); [done|]. cbn [obind] in H. inv_done. by right.
  - inv_done. by left.
  - destruct (ERROR_SIZE <? _); [done|]. cbn [obind] in H. inv_done. by right.
Qed.

Lemma buf_copy_handle (st : fbl) off ptr n st' :
  buf_copy st off ptr n = Done st' -> fb_handle st' = fb_handle st /\ usb_buf_len st' = usb_buf_len st /\ 0 <= off /\ 0 <= n.
Proof using.
  unfold buf_copy. destruct (Z.ltb_spec off 0); [done|]. destruct (Z.ltb_spec n 0); [done|]. cbn [orb].
  destruct (_ <? _); [done|]. intros E. inv_done. done.
Qed.

(** From any state: a result other than 0 means a closed handle, and a closed
    handle stays closed. *)
Lemma sparse_write_cases (st : fbl) ptr len st' r :
  len < 2 ^ 31 -> sparse_write (logged u) strerror st ptr len = Done (st', r) ->
  (r = 0 \/ dead st') /\ (dead st -> dead st').
Proof using.
  intros H31 H. unfold sparse_write in H.
  apply obind_Done in H as ([[st1 ptr1] len1] & H1 & H).
  assert (Hs1 : fb_handle st1 = fb_handle st /\ len1 <= Z.max len 0 /\ (0 < len1 -> usb_buf_len st1 = 0 \/ usb_buf_len st1 = USB_BUF_SIZE)).
  { clear H. destruct (Z.eqb_spec (usb_buf_len st) 0) as [H0|H0]; cbn [negb] in H1; inv_done; [split_and!; [done|lia|auto]|].
    apply buf_copy_handle in Ha as (Hh & HL & ? & ?). cbn. rewrite HL. split_and!; [done|lia|]. intros. right. lia. }
  destruct Hs1 as (Hh1 & Hl1 & Hz1). apply obind_Done in H as ([st2 ok2] & H2 & H).
  assert (Hs2 : dead st2 \/ (ok2 = true /\ fb_handle st2 = fb_handle st /\ (0 < len1 -> usb_buf_len st2 = 0))).
  { clear H H1. destruct (Z.eqb_spec (usb_buf_len st1) USB_BUF_SIZE) as [HL|HL]; [|inv_done; right; split_and!; [done..|tauto]].
    inv_done. apply _command_data_cases in Ha as [[-> Hh]|Hd].
    - change (negb (s32 USB_BUF_SIZE =? USB_BUF_SIZE)) with false in H2. cbn iota in H2. inv_done. right. cbn. by rewrite Hh.
    - left. destruct (negb _); inv_done; done. }
  destruct ok2; cbn [negb] in H; [|inv_done; destruct Hs2 as [|(? & _)]; [by auto|done]].
  apply obind_Done in H as ([[[st3 ptr3] len3] ok3] & H3 & H).
  assert (Hs3 : dead st3 \/ (ok3 = true /\ fb_handle st3 = fb_handle st /\ len3 <= USB_BUF_SIZE)).
  { clear H H1 H2. destruct (Z.ltb_spec USB_BUF_SIZE len1) as [Hbig|]; [|inv_done; destruct Hs2 as [?|(_ & ? & _)]; [by left|right; split_and!; [done..|lia]]].
    assert (Hp : 0 < USB_BUF_SIZE) by done. destruct (round_down_packets len1) as (_ & Hn & Hr3); [lia|].
    destruct (Z.ltb_spec 0 (usb_buf_len st2)) as [Hne|He].
    - inv_done. destruct Hs2 as [Hd|(_ & _ & Hz)]; [|lia]. left. unfold set_error in Ha. destruct (_ <? _); [done|]. by inv_done.
    - inv_done. apply _command_data_cases in Ha as [[-> Hh]|Hd].
      + rewrite s32_small, Z.eqb_refl in H3 by lia. cbn [negb] in H3. inv_done.
        destruct Hs2 as [Hd|(_ & Hh2 & _)]; [left; unfold dead in *; congruence|right]. split_and!; [done|congruence|lia].
      + left. destruct (negb _); inv_done; done. }
  assert (Hfin : dead st3 \/ (ok3 = true /\ fb_handle st3 = fb_handle st /\ len3 <= USB_BUF_SIZE) ->
     (fb_handle st' = fb_handle st3 /\ (r = 0 \/ ok3 = false \/ USB_BUF_SIZE < len3)) -> (r = 0 \/ dead st') /\ (dead st -> dead st')).
  { unfold dead. intros [Hd|(-> & Hh & Hl)] [Hh' Hr]; rewrite Hh'; [by auto|]. rewrite Hh. split; [|done]. left. destruct Hr as [|[|]]; [done|done|lia]. }
  apply Hfin; [done|]. clear H1 H2 H3 Hs2 Hs3 Hfin. destruct ok3; cbn [negb] in H; [|inv_done; by auto].
  destruct (0 <? len3); [|inv_done; by auto]. destruct (Z.ltb_spec USB_BUF_SIZE len3).
  - inv_done. unfold set_error in Ha. destruct (_ <? _); [done|]. inv_done. auto.
  - inv_done. apply buf_copy_handle in Ha as (Hh & _). cbn. auto.
Qed.

Definition lost (b : outcome fbl) : Prop :=
  match b with Done st => dead st | Crash _ => True end.

Lemma cb_keep b d n : n < 2 ^ 31 -> lost b -> lost (cb b d n).1.
Proof using.
  intros H31. destruct b as [st|f]; [|done]. simpl. intros Hd.
  destruct (sparse_write _ _ st (default [] d) n) as [[st' r]|f] eqn:E; [|done].
  apply (sparse_write_cases _ _ _ _ _ H31) in E as [_ E]. simpl. auto.
Qed.

Lemma cb_fail b d n : n < 2 ^ 31 -> (cb b d n).2 <> 0 -> lost (cb b d n).1.
Proof using.
  intros H31. destruct b as [st|f]; [|done]. simpl.
  destruct (sparse_write _ _ st (default [] d) n) as [[st' r]|f] eqn:E; [|done]. simpl.
  apply (sparse_write_cases _ _ _ _ _ H31) in E as [[|] _]; done.
Qed.

Lemma skip_loop_lost fuel : forall b n,
  (lost b -> lost (callback_skip_loop cb fuel b n).1) /\
  ((callback_skip_loop cb fuel b n).2 <> 0 -> lost (callback_skip_loop cb fuel b n).1).
Proof using.
  induction fuel as [|fuel IH]; intros b n; simpl; [done|]. destruct (0 <? n); [|done].
  assert (Hm : n `min` INT_MAX < 2 ^ 31) by (assert (INT_MAX < 2 ^ 31) by done; lia).
  pose proof (cb_keep b None _ Hm) as K1. pose proof (cb_fail b None _ Hm) as K2.
  destruct (cb b None (n `min` INT_MAX)) as [b' r]. cbn [fst snd] in *. destruct (Z.ltb_spec r 0).
  - split; [done|]. intros _. apply K2. lia.
  - destruct (IH b' (n - n `min` INT_MAX)) as [I1 I2]. auto.
Qed.
End Callback.
